(* ===== verification/_CoqProject ===== *)
-Q . S2P
Prelude.v
GoStrings.v
GoValues.v
GoNet.v
GoText.v
GoRegexp.v
GoJson.v
SafeIdent.v
Cursor.v
DslAst.v
DecisionTypes.v
Reflector.v
StepSort.v
DecisionEngine.v
CircuitBreaker.v
LlmProvider.v
RateLimit.v
Errors.v
Resilience.v
Caches.v
Ssrf.v
Dsl.v
Workflow.v
Health.v
ToolRegistry.v
Sse.v
Tokens.v
Auth.v
Chat.v
Web.v
Genesis.v
Migrate.v
Storage.v
Repository.v
Projects.v
DslParser.v
Emerge.v
Handlers.v
Sandbox.v
Mcp.v
Diagnostic.v
ToolCompiler.v
RepairFix.v
Repair.v
DslInput.v
Fetch.v
Sources.v
Probe.v
Imap.v
Ingestion.v
TaskRun.v
Quality.v
Adaptation.v
Memory.v
Query.v
Discovery.v
McpService.v
Watcher.v
Suggest.v
Bias.v
ToolExec.v
Backup.v
Components.v
Database.v
Ontology.v
AuditLog.v
DevTools.v
Codeflow.v
Startup.v
