(* ===== verification/Prelude.v ===== *)
(** * Aleph-v2: a verification library for the Go backend

    Aleph-v2 is a data-analysis server: RPC handlers behind a chain of
    middleware, a decision engine that plans and runs tools for a chat, a small
    ontology language compiled to DuckDB queries, and caches, breakers, health
    checks and event streams around them.  This library models the parts of
    the backend (src/internal) that carry its own logic as executable Rocq
    functions and step relations, and proves what makes each part correct.

    ** Conventions

    - A function that returns [(T, error)] maps into [result E T] ([Ok], [Err]);
      one that returns a bare [error] maps into [option E].
    - State is passed explicitly.  Code that runs under a mutex is one function
      from state to state; where calls interleave (the breaker middleware, the
      bulkhead, the orchestrator, the event broker, the worker pool, the database
      handle, the copying of a backup) the code is cut at the points where others
      can run, and [star step] or a list of events is what can happen.
    - The clock, random numbers, DNS answers, executors and providers are
      arguments.  What third-party packages and the world outside the process do
      is a type class or a section variable: [Connect] (the codes of
      connectrpc), [Semaphore] (the weighted semaphore), [TokenBucket]
      (golang.org/x/time/rate), [Unicode] and [UnicodeFold] (the case tables),
      [Aead] and [JwtLib] (AES-GCM, the token library), [UrlLib], [SitemapLib],
      [MailLib] and [Floats] (net/url, encoding/xml, mime and the formatting of
      floats), [Env] (the database, the network and the operating system of the
      ingestion engine), the import lists of go/parser, [strconv.ParseFloat].
      Each class that carries laws has an instance in a witness.
    - Strings are Go's byte strings ([String.string]); [int] is 64 bits wide,
      with wrap-around written out by [wrap64] where the code can overflow;
      [float64] is IEEE binary64 (GoValues.v); times are nanoseconds.
    - A Go map is a [gmap] where the order of iteration cannot be seen, and an
      association list or an arbitrary order where it can.

    ** Files

    Language and standard library:
    - Prelude: results, integers, time, reachability, automation (the [aleph]
      hint database, [case_bools]), lemmas on lists.
    - GoStrings, GoText: strings, strconv, url escaping.  GoValues: float64,
      [any], word matching.  GoNet: net.ParseIP, ParseCIDR, IPNet.Contains,
      SplitHostPort.  GoRegexp: regexp, in order of preference and by meaning.
      GoJson: encoding/json, parser and printer with their round trip.

    Components, with their sources under src/internal:
    - SafeIdent (safeident): identifiers, quoting and path checks, with the SQL
      lexer that reads quoted text.
    - Cursor (cursor, api/handler/pagination.go, cursor.go): cursors in base64
      and JSON, page parameters.
    - DslAst, Dsl, DslParser, DslInput, ToolCompiler (dsl): the syntax tree, the
      compiler to SQL, the grammar, the input checks and the tool compiler.  A
      query is a rope of template text, identifiers and literals; [render] gives
      the text of the code and [lex] reads it back.
    - DecisionTypes, Reflector, StepSort, DecisionEngine (decision): the
      Plan-Act-Observe-Reflect-Admit phases and the dependency sort.  Chat
      (api/handler/chat_session.go, tool_executor.go): the session that drives
      them.
    - CircuitBreaker: Module Middleware (middleware/circuitbreaker.go) and Module
      Nlp (api/handler/breaker.go).  LlmProvider (llm/retry_provider.go).
    - RateLimit (middleware/ratelimit.go): ClientIP, SlidingWindow, AuthLimiter
      (proved against the class [BoundedStore], which SlidingWindow
      implements), MultiKey.
    - Errors (errors, middleware/error_handler.go, middleware/subsystem.go).
      Resilience (middleware/retry.go, timeout.go, bulkhead.go).  Web
      (middleware/csrf.go, cors.go).
    - Tokens, Auth (auth, crypto, middleware/auth.go, auth_middleware.go,
      api/handler/session.go, auth.go): secrets, sessions, roles, revocation.
    - Caches (suggestion/cache.go, repository/cache.go,
      api/handler/program_cache.go).  Migrate (migrate).  Storage
      (storage/context.go).  Repository (repository/metadata.go).
    - Projects, Emerge, Handlers (api/handler/project.go, library.go,
      security.go, agent.go, tool.go): what the handlers do to files, schemas
      and tables.
    - Genesis (genesis).  Sandbox (sandbox: allowlist, static checks, skills).
      Mcp (mcp/health.go, jsonrpc.go).  Diagnostic (diagnostic).  RepairFix,
      Repair (repair): the code fixes and the engine around them.
    - Ssrf (ssrf/validator.go).  Workflow (workflow).  Health (health).
      ToolRegistry (tools/registry.go).  Sse (api/sse/sse.go).
    - Fetch, Sources, Probe, Imap, Ingestion, TaskRun (ingestion,
      api/handler/ingestion.go): the worker pool and the page loop, the four
      kinds of source, the probe, the mail client, the engine's run functions in
      a state and error monad, and the runs of tasks around them.  What every
      run keeps is proved once, against the class [Closed] of invariants.
    - Quality (sandbox/validation.go, verification.go): code metrics and the
      verification of a stored tool.  Adaptation (tools/adaptation): the generated
      programs, the five stages of the pipeline, suggestions and versions.
    - Memory (memory): chunks, the embedder and its cache, the memory store.
    - Query (api/handler/query.go): queries, statistics, lineage and checksums, the
      prompt of a chat.
    - Discovery (mcp/ssrf.go, schemas.go, health.go, discovery.go,
      api/handler/tool_suggest.go): the tools of MCP servers and their approval,
      against the class [PipelineOk] that Adaptation implements.  McpService
      (mcp/handler.go, jsonrpc.go): the tools served to others.  Watcher
      (service/watcher): the drop directories and the tasks of their files.
    - Suggest (suggestion): the tools ranked by similarity and usage.  Bias
      (ethics/bias.go): the three checks over binary64.  ToolExec
      (api/handler/tool_exec.go): the default registry and its handlers.
    - Backup (storage/duckdb_backup.go): snapshots, restoring, cleanup and checks
      over the file system of Projects; a copy reads piece by piece while others
      may write.  Components (registry, predict): the components table and the Brier
      scores.  Database (storage/duckdb.go): the write mutex, transactions, retries and
      the sessions of the pool, as whole calls, and once more as the single steps of
      the goroutines ([step]), which for a goroutine alone are the whole calls
      ([alone_Exec], [alone_end]).
    - Ontology (api/handler/project.go, repository/ontology.go): the ontology file
      and the versions that are negotiated.  AuditLog (middleware/audit.go,
      security.go, requestid.go, recovery.go, repository/audit.go, config): the log,
      the headers, the configuration.  DevTools (sandbox/security.go, dev_mode.go,
      api/handler/skill.go, sandbox_handler.go): the scanner, the watcher of tools,
      skills.
    - Codeflow (tools/codeflow, tools/humanecosystems/pattern_tracker.go): what is
      recorded of executions and uses.  Startup (app/onboarding.go,
      mcp/transport_stdio.go): the demo project, and requests over pipes.

    Who calls whom: TaskRun uses Ingestion, which uses Sources, Probe and Imap,
    which use Fetch and GoJson; its statements go through SafeIdent's quoting
    and its views through DslParser and Dsl.  Chat uses DecisionEngine, StepSort
    and Reflector; Repair uses Repository, Sandbox and ToolCompiler; Handlers and
    Projects use Repository, Storage and Caches; Auth uses Tokens.  Query uses
    Caches, Projects, DslParser, Dsl and Memory; Adaptation uses Quality, Sandbox
    and Repository; Discovery uses Ssrf, Repository and Adaptation; McpService uses
    ToolRegistry; Watcher hands its tasks to TaskRun; Memory puts an expiry on the
    queue of Caches' EmbedCache.  Suggest and ToolExec use ToolRegistry, with Caches
    and Repository; Database uses Storage; Ontology uses Projects, Emerge and Backup.

    ** What the theorems show

    - Refinement: the in-memory rate-limit store decides as a limiter that
      forgets nothing; the embedding cache holds the last distinct puts; the
      breaker counts consecutive failures; the worker pool gives each job the
      result of its own attempts; the veto registry's cleanup cannot be seen.
    - Safety: authorised calls and final logouts, authentication limits,
      injection-free SQL of the compiler, of queries and of every ingestion run,
      SSRF checks
      that fail closed, files that stay below the projects root, bulkhead bounds,
      at-most-once delivery of events, repairs that were verified.
    - Invariants and errors: all-or-nothing deletion, migration, registration,
      transactions and saves, a write mutex that is held exactly by one writer,
      tool listings that are never stale and what of them is missing after a read
      that broke off, runs of one task that exclude each
      other, repair plans that act once, suggestions that are approved once,
      discovery that adds tools and changes none, the status a run leaves behind.
    - Functional behaviour: the topological order of a plan's steps, the outcome
      of a reflection and its corrections, executed plans, the requests a chat makes
      to its providers, workflow completion,
      retry and its waits, pages fetched, arrays loaded, checks of code, tools
      registered by the adaptation pipeline only when every stage passed.
    - Round trips: cursors, quoted identifiers and literals, events on the wire,
      session cookies, programs and their tokens, link headers, JSON, the pieces
      of a text, backups and their restoring.
    - Defects: theorems such as [busy_stays_open], [imap_messages_lost],
      [custom_code_never_succeeds], [self_index_endless], [DeleteProject_dot],
      [memory_never_used], [main_table_shadows], [description_injects],
      [last_server_decides], [json_parquet_never_ingested], [page_panics],
      [failed_copies_left], [torn_backup], [restore_from_itself],
      [ListTools_truncated], [suggestion_never_expires], [panic_blocks_writers],
      [session_leaks], [audit_says_nothing] or
      [planned_repair_changes_nothing] exhibit behaviour the code or its comments
      do not intend.

    ** Fuel

    [StepSort.visit] runs with one unit more than the number of steps; each
    nested call marks a step, so it never runs out ([SortSteps_permutation]
    states that a result is returned).  [GoNet.v6_groups] needs at most eight
    groups.  [Dsl.scan] has the length of the text plus one, and each step
    consumes a character; [lex_good] proves the result is returned.  The retry
    and chat loops recurse on the number of attempts left, [DslParser.rep] on the
    tokens, [Emerge.scan_from] on the text, repetition in GoRegexp on the text
    that is left.  [GoJson.p_value] has two units per byte, which [fuel_enough]
    proves to be as good as any number.  The page loops ([FetchPages],
    [fetchPaginated], [CrawlSitemap]) may run for ever: their fuel is a number of
    pages or levels, [None] means still running, and the ingestion engine turns
    it into its deadline ([budget]); [FetchAll_pages] gives the number that
    suffices, [FetchAll_endless] shows that sometimes none does.
    [Discovery.attempts] has the number of attempts, of which [retry_pauses] shows the
    pauses.  [Memory.chunk_from] has a unit per word and [chunks_cover] proves that no word
    is lost.  [Sources.raw_elements] has a unit per byte of a text that was found to be
    JSON.  [Usage.sort_users] has the number of users, which [sort_users_spec] shows
    to be enough.

    ** Limits

    Logging, metrics, response writing and the goroutines that only tick are
    left out (a tick is an event); so are the lines of task logs.  The sidecar
    breaker and the retry provider are run one request at a time, so races
    between their atomics are not covered.  Values behind pointers are copied:
    no claim depends on the aliasing of a cached response.  File systems have no
    symbolic links.  Contexts are deadlines or cancellations of the environment.
    The tables of the metadata repository are those its statements name, with three
    more that have rows of projects (simulations, proposals, the audit log) and the
    foreign key from chat messages to agents as an argument, because it is there only
    after its migration; other constraints of the schema are not modelled.

    Not modelled: the clients of the language-model providers and the domain
    tools (remote requests behind an interface), the graph model
    (floating-point training), container
    isolation (operating-system calls), generated protobuf code, routes,
    telemetry and the wiring of services. *)

From Stdlib Require Export ZArith Lia Ascii.
From stdpp Require Export base gmap strings list sorting.

#[global] Open Scope Z_scope.

(** ** Results of fallible Go functions

    A Go function that returns [(T, error)] is a function into [result E T]:
    [Err e] for a non-nil error, [Ok v] otherwise.  A function that returns a
    bare [error] is a function into [option E], [None] for nil. *)
Inductive result (E A : Type) : Type :=
| Ok (a : A)
| Err (e : E).
Arguments Ok {E A} _.
Arguments Err {E A} _.

Definition res_bind {E A B} (m : result E A) (f : A → result E B) : result E B :=
  match m with Ok a => f a | Err e => Err e end.

Declare Scope go_scope.
Delimit Scope go_scope with go.
#[global] Open Scope go_scope.

(** [let?] is the Go idiom [x, err := m; if err != nil { return err }]. *)
Notation "'let?' x := m 'in' k" := (res_bind m (fun x => k))
  (at level 10, x pattern, m at level 100, k at level 200) : go_scope.

(** ** Machine integers

    Go's [int] is 64 bits wide on every platform the program is built for;
    [int32] and [int64] wrap around two's complement. *)
Definition swrap (w z : Z) : Z := (z + 2 ^ (w - 1)) mod 2 ^ w - 2 ^ (w - 1).
Abbreviation wrap64 := (swrap 64).
Abbreviation wrap32 := (swrap 32).
Definition max_int64 : Z := 2 ^ 63 - 1.
Definition min_int64 : Z := - 2 ^ 63.
Definition is_int64 (z : Z) : Prop := min_int64 ≤ z ≤ max_int64.
Definition is_int32 (z : Z) : Prop := - 2 ^ 31 ≤ z ≤ 2 ^ 31 - 1.

#[global] Instance is_int64_dec z : Decision (is_int64 z).
Proof. unfold is_int64. apply _. Defined.

(** ** Time

    [time.Time] is the number of nanoseconds since Go's zero time (1 January
    of year 1), [time.Duration] a number of nanoseconds in an int64. *)
Abbreviation Time := Z (only parsing).
Abbreviation Duration := Z (only parsing).
Definition nanosecond : Duration := 1.
Definition millisecond : Duration := 1000000.
Definition second : Duration := 1000000000.
Definition minute : Duration := 60 * second.

Definition clamp64 (z : Z) : Z := Z.max min_int64 (Z.min max_int64 z).

(** [t.Sub u] saturates at the ends of [Duration]. *)
Definition time_sub (t u : Time) : Duration := clamp64 (t - u).
Definition time_after (t u : Time) : bool := bool_decide (u < t).
Definition time_before (t u : Time) : bool := bool_decide (t < u).

(** Seconds between Go's zero time and the Unix epoch. *)
Definition unix_epoch : Z := 62135596800.
Definition time_unix (t : Time) : Z := t / second - unix_epoch.
Definition unix_time (sec : Z) : Time := (sec + unix_epoch) * second.

(** ** Step relations *)
Section Star.
Context {A : Type} (R : A → A → Prop).

Inductive star : A → A → Prop :=
| star_refl a : star a a
| star_step a b c : R a b → star b c → star a c.

Lemma star_trans a b c : star a b → star b c → star a c.
Proof. induction 1; eauto using star. Qed.

(** The induction rule for reachability: what every step preserves holds in
    every state reachable from one where it holds. *)
Lemma star_invariant (P : A → Prop) :
  (∀ a b, R a b → P a → P b) → ∀ a b, star a b → P a → P b.
Proof. intros Hs a b Hab. induction Hab; eauto. Qed.
End Star.

(** ** Automation *)

Create HintDb aleph discriminated.
#[export] Hint Constants Opaque : aleph.
#[export] Hint Constructors star : aleph.

(** [decide_bools] turns [bool_decide P = b] hypotheses into [P] or [¬ P]. *)
Ltac decide_bools :=
  repeat match goal with
  | H : bool_decide _ = true |- _ => apply bool_decide_eq_true_1 in H
  | H : bool_decide _ = false |- _ => apply bool_decide_eq_false_1 in H
  end.

(** [case_bools] splits on every [if] of the goal and of the hypotheses. *)
Ltac case_bools :=
  repeat (case_match; simplify_eq/=); decide_bools.

Ltac go_unfold_time := unfold time_sub, clamp64, time_after, time_before in *.

(** ** Shared lemmas *)

Lemma swrap_id w z : 0 < w → - 2 ^ (w - 1) ≤ z < 2 ^ (w - 1) → swrap w z = z.
Proof.
  intros Hw Hz. unfold swrap.
  assert (2 ^ w = 2 * 2 ^ (w - 1)) as E
    by (rewrite <- Z.pow_succ_r by lia; f_equal; lia).
  rewrite Z.mod_small by lia. lia.
Qed.

Lemma wrap64_id z : is_int64 z → wrap64 z = z.
Proof. intros []. apply swrap_id; unfold min_int64, max_int64 in *; lia. Qed.

Lemma swrap_range w z :
  0 < w → - 2 ^ (w - 1) ≤ swrap w z < 2 ^ (w - 1).
Proof.
  intros Hw. unfold swrap.
  assert (2 ^ w = 2 * 2 ^ (w - 1)) as E
    by (rewrite <- Z.pow_succ_r by lia; f_equal; lia).
  pose proof (Z.mod_pos_bound (z + 2 ^ (w - 1)) (2 ^ w)). lia.
Qed.

(** Wrapping early or late gives the same sum. *)
Lemma swrap_add_l w a b : 0 < w → swrap w (swrap w a + b) = swrap w (a + b).
Proof.
  intros Hw. unfold swrap. f_equal.
  replace ((a + 2 ^ (w - 1)) mod 2 ^ w - 2 ^ (w - 1) + b + 2 ^ (w - 1))
    with ((a + 2 ^ (w - 1)) mod 2 ^ w + b) by lia.
  rewrite Zplus_mod_idemp_l. f_equal. lia.
Qed.

Lemma clamp64_id z : is_int64 z → clamp64 z = z.
Proof. unfold clamp64, is_int64. lia. Qed.

(** What holds of a list holds of its filtered part, which satisfies the
    predicate; a list that satisfies it throughout is unchanged. *)
Section Filter.
Context {A : Type} (P : A → Prop) `{∀ x, Decision (P x)}.

Lemma Forall_filter_keep (Q : A → Prop) l : Forall Q l → Forall Q (filter P l).
Proof.
  rewrite !Forall_forall. intros Hq x [_ Hx]%list_elem_of_filter. auto.
Qed.

Lemma Forall_filter_sat l : Forall P (filter P l).
Proof. apply Forall_forall. by intros x [Hx _]%list_elem_of_filter. Qed.

Lemma filter_all_keep l : Forall P l → filter P l = l.
Proof. induction 1; [done|]. rewrite filter_cons, decide_True by done. by f_equal. Qed.

Lemma filter_none l : Forall (λ x, ¬ P x) l → filter P l = [].
Proof. induction 1; [done|]. by rewrite filter_cons, decide_False. Qed.

Lemma filter_sublist_mono l k : l `sublist_of` k → filter P l `sublist_of` filter P k.
Proof.
  induction 1; [done| |]; rewrite ?filter_cons; case_decide; auto using sublist.
Qed.

Lemma StronglySorted_filter (R : A → A → Prop) l :
  StronglySorted R l → StronglySorted R (filter P l).
Proof.
  induction 1 as [|x l Hl IH Hx]; [constructor|]. rewrite filter_cons.
  destruct (decide (P x)); [|done]. constructor; [done|]. by apply Forall_filter_keep.
Qed.
End Filter.

#[export] Hint Resolve Forall_filter_keep Forall_filter_sat StronglySorted_filter : aleph.
#[export] Hint Resolve swrap_id wrap64_id clamp64_id : aleph.
