(* ===== verification/GoStrings.v ===== *)
(** * The parts of Go's string library the program uses

    A Go string is a sequence of bytes; here it is a [string], whose characters
    are the bytes.  This file models the functions of packages [strings] and
    [strconv] that the components call, and proves the facts about them that
    the components share.  Case mapping and white space outside ASCII depend on
    the Unicode tables of the Go distribution, which are the class [Unicode]. *)

From Stdlib Require Import DecimalString DecimalZ DecimalPos.
From S2P Require Import Prelude.


(** ** Characters *)

Definition ascii_code (c : ascii) : Z := Z.of_nat (nat_of_ascii c).
Definition is_ascii_char (c : ascii) : bool := bool_decide (ascii_code c < 128).
Definition in_range (lo hi c : ascii) : bool :=
  bool_decide (ascii_code lo ≤ ascii_code c ≤ ascii_code hi).
Definition is_upper (c : ascii) : bool := in_range "A" "Z" c.
Definition is_lower (c : ascii) : bool := in_range "a" "z" c.
Definition is_digit (c : ascii) : bool := in_range "0" "9" c.
Definition lower_char (c : ascii) : ascii :=
  if is_upper c then ascii_of_nat (nat_of_ascii c + 32) else c.
Definition upper_char (c : ascii) : ascii :=
  if is_lower c then ascii_of_nat (nat_of_ascii c - 32) else c.
Definition is_space_char (c : ascii) : bool :=
  in_range "009" "013" c || bool_decide (c = " "%char).

Definition dquote : ascii := "034".
Definition squote : ascii := "039".
Definition newline : ascii := "010".

Fixpoint str_all (p : ascii → bool) (s : string) : bool :=
  match s with "" => true | String c s => p c && str_all p s end.
Fixpoint str_map (f : ascii → ascii) (s : string) : string :=
  match s with "" => "" | String c s => String (f c) (str_map f s) end.
Fixpoint str_mem (c : ascii) (s : string) : bool :=
  match s with "" => false | String d s => bool_decide (c = d) || str_mem c s end.

(** [len(s)], in bytes. *)
Definition str_len (s : string) : Z := Z.of_nat (String.length s).

(** ** The Unicode tables

    [strings.ToLower], [strings.ToUpper] and [strings.TrimSpace] take a fast
    path on ASCII strings and consult the Unicode tables otherwise. *)
Class Unicode := {
  unicode_to_lower : string → string;
  unicode_to_upper : string → string;
  unicode_trim_space : string → string;
}.

Fixpoint trim_left (s : string) : string :=
  match s with
  | "" => ""
  | String c s' => if is_space_char c then trim_left s' else s
  end.
Fixpoint trim_right (s : string) : string :=
  match s with
  | "" => ""
  | String c s' =>
    let r := trim_right s' in
    if bool_decide (r = "") && is_space_char c then "" else String c r
  end.

Section Unicode.
Context `{Unicode}.

Definition ToLower (s : string) : string :=
  if str_all is_ascii_char s then str_map lower_char s else unicode_to_lower s.
Definition ToUpper (s : string) : string :=
  if str_all is_ascii_char s then str_map upper_char s else unicode_to_upper s.
Definition TrimSpace (s : string) : string :=
  if str_all is_ascii_char s then trim_right (trim_left s) else unicode_trim_space s.
End Unicode.

(** Tables that leave every non-ASCII string alone, for concrete runs. *)
Definition ascii_tables : Unicode := {|
  unicode_to_lower s := s; unicode_to_upper s := s; unicode_trim_space s := s |}.

(** ** Searching, splitting, joining *)

Fixpoint str_contains (s sub : string) : bool :=
  String.prefix sub s ||
  match s with "" => false | String _ s' => str_contains s' sub end.

Definition has_suffix (s suf : string) : bool :=
  bool_decide (String.length suf ≤ String.length s)%nat &&
  bool_decide (String.substring (String.length s - String.length suf) (String.length suf) s = suf).

(** [strings.Split(s, sep)] for a one-byte separator. *)
Fixpoint str_split (sep : ascii) (s : string) : list string :=
  match s with
  | "" => [""]
  | String c s' =>
    if bool_decide (c = sep) then "" :: str_split sep s'
    else match str_split sep s' with
         | w :: ws => String c w :: ws
         | [] => [String c ""]
         end
  end.

(** [strings.SplitN(s, sep, 2)] for a one-byte separator: the part before the
    first separator and the part after it, when there is one. *)
Fixpoint str_cut (sep : ascii) (s : string) : option (string * string) :=
  match s with
  | "" => None
  | String c s' =>
    if bool_decide (c = sep) then Some ("", s')
    else match str_cut sep s' with
         | Some (a, b) => Some (String c a, b)
         | None => None
         end
  end.

Fixpoint str_join (sep : string) (l : list string) : string :=
  match l with
  | [] => ""
  | [s] => s
  | s :: l => s +:+ sep +:+ str_join sep l
  end.

(** [strings.ReplaceAll(s, c, r)] for a one-byte pattern. *)
Fixpoint replace_char (c : ascii) (r : string) (s : string) : string :=
  match s with
  | "" => ""
  | String d s' =>
    if bool_decide (d = c) then r +:+ replace_char c r s'
    else String d (replace_char c r s')
  end.

(** [s[:n]], for [n] at most [len(s)]. *)
Fixpoint str_take (n : nat) (s : string) : string :=
  match n, s with
  | S n, String c s => String c (str_take n s)
  | _, _ => ""
  end.
Fixpoint str_drop (n : nat) (s : string) : string :=
  match n, s with
  | S n, String _ s => str_drop n s
  | _, s => s
  end.

(** ** [strconv.Itoa] and [strconv.Atoi] *)

Definition Itoa (z : Z) : string := NilZero.string_of_int (Z.to_int z).

Definition parse_digits (s : string) : option Z :=
  match s with
  | "" => None
  | _ => Z.of_uint <$> NilEmpty.uint_of_string s
  end.

Definition check_int64 (z : Z) : option Z := if decide (is_int64 z) then Some z else None.

Definition Atoi (s : string) : option Z :=
  match s with
  | String "-" s' => z ← parse_digits s'; check_int64 (- z)
  | String "+" s' => z ← parse_digits s'; check_int64 z
  | _ => z ← parse_digits s; check_int64 z
  end.

(** ** Facts *)

Lemma str_app_nil_l s : "" +:+ s = s.
Proof. done. Qed.
Lemma str_app_nil_r s : s +:+ "" = s.
Proof. induction s as [|c s IH]; [done|]. unfold String.app in *. simpl. by rewrite IH. Qed.
Lemma str_app_assoc s t u : (s +:+ t) +:+ u = s +:+ t +:+ u.
Proof. induction s as [|c s IH]; [done|]. unfold String.app in *. simpl. by rewrite IH. Qed.
Lemma str_app_cons c s t : String c s +:+ t = String c (s +:+ t).
Proof. done. Qed.
Lemma str_length_app s t :
  String.length (s +:+ t) = (String.length s + String.length t)%nat.
Proof.
  induction s as [|c s IH]; [done|]. rewrite str_app_cons. simpl. by rewrite IH.
Qed.
Lemma str_app_inv_l s t u : s +:+ t = s +:+ u → t = u.
Proof. induction s as [|c s IH]; [done|]. rewrite !str_app_cons. naive_solver. Qed.

Lemma str_take_app_exact n s t :
  String.length s = n → str_take n (s +:+ t) = s.
Proof.
  revert n. induction s as [|c s IH]; intros n <-; [by destruct t|].
  rewrite str_app_cons. simpl. by rewrite IH.
Qed.

Create Rewrite HintDb gostr.
#[export] Hint Rewrite str_app_nil_l str_app_nil_r str_app_assoc str_app_cons : gostr.

Lemma prefix_iff p s : String.prefix p s = true ↔ ∃ t, s = p +:+ t.
Proof.
  revert s. induction p as [|c p IH]; intros s; simpl.
  - split; [intros _; by exists s | intros _; by destruct s].
  - destruct s as [|d s]; simpl; [split; [done | intros [t ?]; done]|].
    destruct (ascii_dec c d) as [->|Hne].
    + rewrite IH. setoid_rewrite str_app_cons.
      split; intros [t Ht]; exists t; congruence.
    + split; [done|]. intros [t Ht]. rewrite str_app_cons in Ht. congruence.
Qed.

Lemma str_contains_nil sub : str_contains "" sub = String.prefix sub "" || false.
Proof. done. Qed.
Lemma str_contains_cons c s sub :
  str_contains (String c s) sub = String.prefix sub (String c s) || str_contains s sub.
Proof. done. Qed.

(** [strings.Contains] is the substring relation. *)
Lemma str_contains_iff s sub : str_contains s sub = true ↔ ∃ a b, s = a +:+ sub +:+ b.
Proof.
  induction s as [|c s IH].
  - rewrite str_contains_nil, orb_false_r, prefix_iff. split.
    + intros [t Ht]. by exists "", t.
    + intros (a & b & Hab). destruct a; [by exists b|]. done.
  - rewrite str_contains_cons, orb_true_iff, prefix_iff, IH. split.
    + intros [[t Ht]|(a & b & ->)]; [by exists "", t|]. by exists (String c a), b.
    + intros (a & b & Hab). destruct a as [|d a].
      * left. by exists b.
      * right. rewrite str_app_cons in Hab. simplify_eq. by exists a, b.
Qed.

Lemma str_contains_app_r s t sub : str_contains s sub = true → str_contains (s +:+ t) sub = true.
Proof.
  rewrite !str_contains_iff. intros (a & b & ->). exists a, (b +:+ t).
  by rewrite !str_app_assoc.
Qed.
Lemma str_mem_app c s t : str_mem c (s +:+ t) = str_mem c s || str_mem c t.
Proof.
  induction s as [|d s IH]; [done|]. rewrite str_app_cons. simpl. by rewrite IH, orb_assoc.
Qed.

Lemma str_contains_app_l s t sub : str_contains t sub = true → str_contains (s +:+ t) sub = true.
Proof.
  rewrite !str_contains_iff. intros (a & b & ->). exists (s +:+ a), b.
  by rewrite !str_app_assoc.
Qed.

Lemma str_all_app p s t : str_all p (s +:+ t) = str_all p s && str_all p t.
Proof.
  induction s as [|c s IH]; [done|].
  rewrite str_app_cons. simpl. by rewrite IH, andb_assoc.
Qed.
Lemma str_all_impl (p q : ascii → bool) s :
  (∀ c, p c = true → q c = true) → str_all p s = true → str_all q s = true.
Proof.
  intros Hpq. induction s as [|c s IH]; simpl; [done|].
  rewrite !andb_true_iff. naive_solver.
Qed.
Lemma str_all_contains p s sub :
  str_all p s = true → str_contains s sub = true → str_all p sub = true.
Proof.
  rewrite str_contains_iff. intros Hall (a & b & ->).
  rewrite !str_all_app, !andb_true_iff in Hall. tauto.
Qed.

Lemma str_cut_spec sep s a b :
  str_cut sep s = Some (a, b) ↔ s = a +:+ String sep b ∧ str_mem sep a = false.
Proof.
  revert a b. induction s as [|c s IH]; intros a b; simpl.
  - split; [done|]. intros [? _]. by destruct a.
  - destruct (decide (c = sep)) as [->|Hne].
    + rewrite bool_decide_eq_true_2 by done. split.
      * intros [= <- <-]. done.
      * intros [Heq Hm]. destruct a as [|d a]; rewrite ?str_app_cons, ?str_app_nil_l in Heq; simplify_eq; try done.
        simpl in Hm. by rewrite bool_decide_eq_true_2 in Hm.
    + rewrite bool_decide_eq_false_2 by done. split.
      * destruct (str_cut sep s) as [[a' b']|]; [|done]. intros [= <- <-].
        destruct (proj1 (IH a' b') eq_refl) as [-> Hm]. split; [done|]. simpl.
        rewrite Hm, orb_false_r. apply bool_decide_eq_false_2. congruence.
      * intros [Heq Hm]. destruct a as [|d a]; rewrite ?str_app_cons, ?str_app_nil_l in Heq; simplify_eq; try done.
        simpl in Hm. apply orb_false_iff in Hm as [_ Hm].
        by rewrite (proj2 (IH a b) (conj eq_refl Hm)).
Qed.

Lemma str_split_nonempty sep s : str_split sep s ≠ [].
Proof. induction s; simpl; [done|]. repeat case_match; done. Qed.

(** Splitting is undone by joining. *)
Lemma str_join_split sep s : str_join (String sep "") (str_split sep s) = s.
Proof.
  induction s as [|c s IH]; [done|]. simpl.
  pose proof (str_split_nonempty sep s) as Hne.
  destruct (decide (c = sep)) as [->|Hc].
  - rewrite bool_decide_eq_true_2 by done.
    destruct (str_split sep s) as [|w ws]; [done|].
    change (String sep (str_join (String sep "") (w :: ws)) = String sep s). by rewrite IH.
  - rewrite bool_decide_eq_false_2 by done.
    destruct (str_split sep s) as [|w ws]; [done|].
    rewrite <- IH. by destruct ws.
Qed.

Lemma str_split_no_sep sep s : str_mem sep s = false → str_split sep s = [s].
Proof.
  induction s as [|c s IH]; [done|]. simpl. intros [Hc Hs]%orb_false_iff.
  rewrite (IH Hs). decide_bools. by rewrite bool_decide_eq_false_2 by congruence.
Qed.

Lemma str_join_cons sep s l :
  l ≠ [] → str_join sep (s :: l) = s +:+ sep +:+ str_join sep l.
Proof. by destruct l. Qed.

(** Reading back a printed integer. *)
Lemma parse_digits_print d :
  d ≠ Decimal.Nil → parse_digits (NilEmpty.string_of_uint d) = Some (Z.of_uint d).
Proof.
  intros Hd. unfold parse_digits.
  destruct (NilEmpty.string_of_uint d) eqn:E; [by destruct d|].
  rewrite <- E, NilEmpty.usu. done.
Qed.

Lemma Atoi_digit c s :
  is_digit c = true →
  Atoi (String c s) = (z ← parse_digits (String c s); check_int64 z).
Proof.
  destruct c as [[] [] [] [] [] [] [] []]; intros Hd; vm_compute in Hd;
    discriminate || reflexivity.
Qed.

Lemma string_of_uint_digit d c s :
  NilEmpty.string_of_uint d = String c s → is_digit c = true.
Proof. by destruct d; intros [= <- <-]. Qed.

Lemma NilZero_nonnil d :
  d ≠ Decimal.Nil → NilZero.string_of_uint d = NilEmpty.string_of_uint d.
Proof. by destruct d. Qed.

Lemma parse_print_pos p :
  parse_digits (NilZero.string_of_uint (Pos.to_uint p)) = Some (Z.pos p).
Proof.
  pose proof (DecimalPos.Unsigned.to_uint_nonnil p) as Hn.
  rewrite NilZero_nonnil, parse_digits_print by done. f_equal.
  change (Z.of_uint (Pos.to_uint p)) with (Z.of_int (Z.to_int (Z.pos p))).
  apply DecimalZ.of_to.
Qed.

Lemma print_pos_digit p :
  ∃ c s, NilZero.string_of_uint (Pos.to_uint p) = String c s ∧ is_digit c = true.
Proof.
  pose proof (DecimalPos.Unsigned.to_uint_nonnil p) as Hn.
  rewrite NilZero_nonnil by done.
  destruct (NilEmpty.string_of_uint _) as [|c s] eqn:E; [by destruct (Pos.to_uint p)|].
  eauto using string_of_uint_digit.
Qed.

Lemma Atoi_Itoa z : is_int64 z → Atoi (Itoa z) = Some z.
Proof.
  intros Hz. unfold Itoa.
  assert (check_int64 z = Some z) as Hc by (unfold check_int64; by rewrite decide_True).
  destruct z as [|p|p]; [done| |]; simpl.
  - destruct (print_pos_digit p) as (c & s & Hs & Hd). pose proof (parse_print_pos p) as Hp.
    rewrite Hs in Hp |- *. rewrite Atoi_digit, Hp by done. exact Hc.
  - rewrite parse_print_pos. exact Hc.
Qed.

Lemma Itoa_nonempty z : Itoa z ≠ "".
Proof.
  unfold Itoa. destruct z as [|p|p]; simpl; [done| |done].
  unfold NilZero.string_of_uint. by case_match.
Qed.

(** What [Atoi] accepts is made of digits and a sign. *)
Lemma string_of_uint_digits d : str_all is_digit (NilEmpty.string_of_uint d) = true.
Proof. induction d; simpl; try done; by rewrite IHd. Qed.

Lemma parse_digits_digits s z : parse_digits s = Some z → s ≠ "" ∧ str_all is_digit s = true.
Proof.
  unfold parse_digits. destruct s as [|c s]; [done|].
  destruct (NilEmpty.uint_of_string (String c s)) as [d|] eqn:E; [|done]. intros _. split; [done|].
  rewrite <- (NilEmpty.sus _ _ E). apply string_of_uint_digits.
Qed.

Definition int_char (c : ascii) : bool :=
  is_digit c || bool_decide (c = "-"%char) || bool_decide (c = "+"%char).

Lemma digits_int_chars s : str_all is_digit s = true → str_all int_char s = true.
Proof. apply str_all_impl. intros c Hc. unfold int_char. by rewrite Hc. Qed.

Lemma Atoi_chars s z : Atoi s = Some z → s ≠ "" ∧ str_all int_char s = true.
Proof.
  intros Ha. assert (∃ t, (s = t ∨ s = String "-" t ∨ s = String "+" t) ∧ is_Some (parse_digits t)) as (t & Hs & [d Hd]).
  { unfold Atoi in Ha. repeat case_match; subst;
      try (eexists; split; [right; left; reflexivity|]; by destruct (parse_digits _));
      try (eexists; split; [right; right; reflexivity|]; by destruct (parse_digits _));
      (eexists; split; [left; reflexivity|]; by destruct (parse_digits _)). }
  apply parse_digits_digits in Hd as [Hne Hall]. apply digits_int_chars in Hall.
  destruct Hs as [-> | [-> | ->]]; split; try done.
Qed.

Lemma str_all_not_mem p c s : str_all p s = true → p c = false → str_mem c s = false.
Proof.
  intros Hs Hc. induction s as [|d s IH]; [done|]. simpl in *. apply andb_true_iff in Hs as [Hd Hs].
  rewrite (IH Hs), orb_false_r. apply bool_decide_eq_false_2. intros ->. congruence.
Qed.

(** A part before the first separator is split off whole. *)
Lemma str_split_cons sep a b :
  str_mem sep a = false → str_split sep (a +:+ String sep b) = a :: str_split sep b.
Proof.
  induction a as [|c a IH]; intros Ha.
  - rewrite str_app_nil_l. simpl. by rewrite bool_decide_eq_true_2.
  - simpl in Ha. apply orb_false_iff in Ha as [Hc Ha]. rewrite str_app_cons. simpl.
    decide_bools. rewrite bool_decide_eq_false_2 by congruence. by rewrite IH.
Qed.

Lemma Itoa_int_chars z : str_all int_char (Itoa z) = true.
Proof.
  destruct z as [|p|p]; [done| |]; unfold Itoa; simpl;
    pose proof (DecimalPos.Unsigned.to_uint_nonnil p);
    rewrite NilZero_nonnil by done; apply digits_int_chars, string_of_uint_digits.
Qed.

Lemma str_drop_app_exact n s t : String.length s = n → str_drop n (s +:+ t) = t.
Proof.
  revert n. induction s as [|c s IH]; intros n <-; [by destruct t|].
  rewrite str_app_cons. simpl. by rewrite IH.
Qed.

Lemma str_take_drop n s :
  (n ≤ String.length s)%nat →
  str_take n s +:+ str_drop n s = s ∧ String.length (str_take n s) = n.
Proof.
  revert n. induction s as [|c s IH]; intros [|n] Hn; simpl in *; try done; try lia.
  destruct (IH n) as [Ha Hl]; [lia|]. by rewrite str_app_cons, Ha, Hl.
Qed.

(** ** Runes

    [[]rune(s)] with each rune given by its UTF-8 bytes: a sequence that is not
    valid UTF-8 yields U+FFFD for its first byte. *)
Definition between (lo hi : Z) (c : ascii) : bool := (lo <=? ascii_code c) && (ascii_code c <=? hi).
Definition cont (c : ascii) : bool := between 0x80 0xBF c.
Definition replacement : string := String "239" (String "191" (String "189" "")).

(** The number of bytes of the rune at the start of [a :: rest], or [None] if
    they are not valid UTF-8 (overlong forms, surrogates and values above
    U+10FFFF included). *)
Definition rune_size (a : ascii) (rest : string) : option nat :=
  if between 0 0x7F a then Some 1%nat
  else match rest with
  | String b r =>
    if between 0xC2 0xDF a then (if cont b then Some 2%nat else None)
    else match r with
    | String c r =>
      if between 0xE0 0xEF a then
        if cont c && (if between 0xE0 0xE0 a then between 0xA0 0xBF b
                      else if between 0xED 0xED a then between 0x80 0x9F b else cont b)
        then Some 3%nat else None
      else match r with
      | String d _ =>
        if between 0xF0 0xF4 a && cont c && cont d &&
           (if between 0xF0 0xF0 a then between 0x90 0xBF b
            else if between 0xF4 0xF4 a then between 0x80 0x8F b else cont b)
        then Some 4%nat else None
      | EmptyString => None
      end
    | EmptyString => None
    end
  | EmptyString => None
  end.

(** [skip] counts the bytes of the current rune that are still to be passed. *)
Fixpoint runes_from (skip : nat) (s : string) : list string :=
  match s with
  | EmptyString => []
  | String a rest =>
    match skip with
    | S k => runes_from k rest
    | O => match rune_size a rest with
           | Some n => str_take n s :: runes_from (n - 1) rest
           | None => replacement :: runes_from 0 rest
           end
    end
  end.
Definition runes (s : string) : list string := runes_from 0 s.

Example runes_utf8 :
  runes (String "a" (String "195" (String "168" (String "255" "b")))) =
    ["a"; String "195" (String "168" ""); replacement; "b"].
Proof. vm_compute. reflexivity. Qed.

Lemma runes_ascii s : str_all is_ascii_char s = true → runes s = (λ c, String c "") <$> String.list_ascii_of_string s.
Proof.
  unfold runes. induction s as [|c s IH]; cbn [str_all]; [done|].
  intros [Hc Hs]%andb_true_iff. unfold is_ascii_char in Hc. apply bool_decide_eq_true_1 in Hc.
  cbn [runes_from]. unfold rune_size, between.
  assert (0 ≤ ascii_code c) as H0 by (unfold ascii_code; lia).
  destruct (0 <=? ascii_code c) eqn:E1; [|lia]. destruct (ascii_code c <=? 0x7F) eqn:E2; [|lia].
  cbn [andb str_take Nat.sub]. rewrite IH by done. done.
Qed.
