(* ===== verification/GoValues.v ===== *)
(** * Go values: float64 and [any]

    [float64] arithmetic is IEEE 754 binary64, as the standard library's
    [SpecFloat] computes it (precision 53, maximal exponent 1024, round to
    nearest even).  A value of type [any], as the program passes it around
    after JSON decoding, is the inductive type [any]. *)

From Stdlib Require Export SpecFloat.
From S2P Require Import Prelude GoStrings.

(** ** float64 *)

Definition f64 : Type := spec_float.
Definition f64_prec : Z := 53.
Definition f64_emax : Z := 1024.

(** [float64(n)]. *)
Definition f64_of_int (z : Z) : f64 := binary_normalize f64_prec f64_emax z 0 false.
Definition f64_add : f64 → f64 → f64 := SFadd f64_prec f64_emax.
Definition f64_sub : f64 → f64 → f64 := SFsub f64_prec f64_emax.
Definition f64_mul : f64 → f64 → f64 := SFmul f64_prec f64_emax.
Definition f64_div : f64 → f64 → f64 := SFdiv f64_prec f64_emax.
(** [int(x)]: truncation towards zero (0 stands for the unspecified result on an
    infinity or a NaN). *)
Definition f64_trunc (x : f64) : Z :=
  match x with
  | S754_finite neg m e =>
    let v := if bool_decide (0 ≤ e) then Z.shiftl (Z.pos m) e else Z.shiftr (Z.pos m) (- e) in
    if neg then - v else v
  | _ => 0
  end.

(** [d.Seconds()] and the idiom [int(d.Seconds())]. *)
Definition Seconds (d : Duration) : f64 :=
  f64_add (f64_of_int (Z.quot d second))
    (f64_div (f64_of_int (Z.rem d second)) (f64_of_int 1000000000)).
Definition int_seconds (d : Duration) : Z := f64_trunc (Seconds d).

Definition f64_lt : f64 → f64 → bool := SFltb.
Definition f64_le : f64 → f64 → bool := SFleb.
Definition f64_neg : f64 → f64 := SFopp.

(** The constant [n/d]: both are exact, so the quotient is the correctly
    rounded value of the decimal literal. *)
Definition f64_lit (n d : Z) : f64 := f64_div (f64_of_int n) (f64_of_int d).

#[global] Instance f64_eq_dec : EqDecision f64.
Proof. solve_decision. Defined.

(** ** Dynamic values

    A [map[string]any] is the list of its entries; the program never depends on
    the order of the entries. *)
Inductive any : Type :=
| AnyNil
| AnyStr (s : string)
| AnyNum (f : f64)
| AnyBool (b : bool)
| AnyList (l : list any)
| AnyMap (m : list (string * any)).

(** ** Formatting

    [fmt.Sprintf] with the verbs [%s] and [%d] is concatenation with the
    decimal form of the integers. *)
Definition fmt_d (z : Z) : string := Itoa z.

(** ** Searching text *)

Definition is_word_char (c : ascii) : bool :=
  is_lower c || is_upper c || is_digit c || bool_decide (c = "_"%char).

Definition word_at_start (s : string) : bool :=
  match s with "" => false | String c _ => is_word_char c end.

(** [\b] between a character (none at the start of the text) and the text
    after it. *)
Definition boundary (prev : bool) (rest : string) : bool := xorb prev (word_at_start rest).

(** The last character of [s] is a word character; [dflt] when [s] is empty. *)
Fixpoint last_word (dflt : bool) (s : string) : bool :=
  match s with "" => dflt | String c s' => last_word (is_word_char c) s' end.

Fixpoint match_word_at (prev : bool) (name s : string) : bool :=
  (boundary prev s && String.prefix name s
   && boundary (last_word prev name) (str_drop (String.length name) s))
  || match s with
     | "" => false
     | String c s' => match_word_at (is_word_char c) name s'
     end.

(** [regexp.MatchString("(?i)\b" + QuoteMeta(name) + "\b", s)].  On ASCII text
    matching is byte by byte after lower-casing both sides; outside ASCII it
    depends on the Unicode folding tables. *)
Class UnicodeFold := {
  unicode_match_word : string → string → bool;
  unicode_fields : string → list string;
}.
Definition ascii_fold_tables : UnicodeFold := {|
  unicode_match_word _ _ := false; unicode_fields s := [s] |}.

Definition regexp_match_word `{UnicodeFold} (name s : string) : bool :=
  if str_all is_ascii_char name && str_all is_ascii_char s then
    match_word_at false (str_map lower_char name) (str_map lower_char s)
  else unicode_match_word name s.

(** [strings.Fields]: the maximal runs of characters that are not white space. *)
Fixpoint ascii_fields (s : string) : list string :=
  match s with
  | "" => []
  | String c s' =>
    if is_space_char c then ascii_fields s'
    else match s' with
         | "" => [String c ""]
         | String d _ =>
           if is_space_char d then String c "" :: ascii_fields s'
           else match ascii_fields s' with
                | w :: ws => String c w :: ws
                | [] => [String c ""]
                end
         end
  end.
Definition Fields `{UnicodeFold} (s : string) : list string :=
  if str_all is_ascii_char s then ascii_fields s else unicode_fields s.

(** [strings.TrimRight] with an ASCII cutset. *)
Fixpoint trim_right_set (cut : string) (s : string) : string :=
  match s with
  | "" => ""
  | String c s' =>
    let r := trim_right_set cut s' in
    if bool_decide (r = "") && str_mem c cut then "" else String c r
  end.

(** [strings.TrimLeft] and [strings.Trim] with an ASCII cutset. *)
Fixpoint trim_left_set (cut : string) (s : string) : string :=
  match s with
  | "" => ""
  | String c s' => if str_mem c cut then trim_left_set cut s' else s
  end.
Definition trim_set (cut s : string) : string := trim_right_set cut (trim_left_set cut s).

Example fields_ex : ascii_fields "  find  All Users " = ["find"; "All"; "Users"].
Proof. reflexivity. Qed.
Example match_word_ex :
  match_word_at false "user" "the user table" = true ∧
  match_word_at false "user" "the users table" = false.
Proof. split; reflexivity. Qed.
