(* ===== verification/GoNet.v ===== *)
(** * Addresses of Go's package [net]

    [net.ParseIP], [net.ParseCIDR], [IPNet.Contains], [net.SplitHostPort] and
    the classification methods of [net.IP], as far as the program uses them.  An
    address is its 128-bit value, the form [ParseIP] returns; an IPv4 address is
    the value ::ffff:a.b.c.d. *)

From S2P Require Import Prelude GoStrings.

Definition IP : Type := Z.

Definition v4_prefix : Z := Z.shiftl 65535 32.
Definition of_v4 (v : Z) : IP := Z.lor v4_prefix v.

(** [ip.To4()]: the 32-bit value of an IPv4 (or IPv4-mapped) address. *)
Definition To4 (ip : IP) : option Z :=
  if bool_decide (Z.shiftr ip 32 = 65535) then Some (Z.land ip (Z.ones 32)) else None.

(** ** Parsing *)

Definition digit_val (c : ascii) : option Z :=
  if is_digit c then Some (ascii_code c - ascii_code "0") else None.

Definition hex_val (c : ascii) : option Z :=
  if is_digit c then Some (ascii_code c - ascii_code "0")
  else if in_range "a" "f" c then Some (ascii_code c - ascii_code "a" + 10)
  else if in_range "A" "F" c then Some (ascii_code c - ascii_code "A" + 10)
  else None.

(** One field of a dotted quad: decimal, no leading zero, at most 255. *)
Fixpoint v4_field (s : string) (val : Z) (digLen : nat) : option Z :=
  match s with
  | "" => match digLen with O => None | _ => Some val end
  | String c s =>
    match digit_val c with
    | None => None
    | Some d =>
      if bool_decide (digLen = 1%nat ∧ val = 0) then None
      else if bool_decide (val * 10 + d > 255) then None
      else v4_field s (val * 10 + d) (S digLen)
    end
  end.

Definition parseIPv4 (s : string) : option Z :=
  match (λ f, v4_field f 0 0) <$> str_split "." s with
  | [Some a; Some b; Some c; Some d] => Some (((a * 256 + b) * 256 + c) * 256 + d)
  | _ => None
  end.

(** The leading hexadecimal digits: their number, their value, the rest. *)
Fixpoint take_hex (s : string) (off : nat) (acc : Z) : nat * Z * string :=
  match s with
  | "" => (off, acc, s)
  | String c s' =>
    match hex_val c with
    | Some d => take_hex s' (S off) (acc * 16 + d)
    | None => (off, acc, s)
    end
  end.

(** The 16-bit groups read so far, newest first, and the position of [::]. *)
Fixpoint v6_groups (fuel : nat) (s : string) (groups : list Z) (ellipsis : option nat) :
    option (list Z * option nat * string) :=
  match fuel with
  | O => Some (groups, ellipsis, s)
  | S fuel =>
    let '(off, acc, rest) := take_hex s 0 0 in
    if bool_decide (off = 0%nat ∨ (4 < off)%nat) then None
    else
      match rest with
      | String "." _ =>
        if bool_decide (ellipsis = None ∧ length groups ≠ 6%nat) then None
        else if bool_decide (6 < length groups)%nat then None
        else match parseIPv4 s with
             | None => None
             | Some v => Some (v mod 65536 :: v / 65536 :: groups, ellipsis, "")
             end
      | "" => Some (acc :: groups, ellipsis, "")
      | String ":" "" => None
      | String ":" (String ":" rest') =>
        match ellipsis with
        | Some _ => None
        | None =>
          let e := Some (S (length groups)) in
          match rest' with
          | "" => Some (acc :: groups, e, "")
          | _ => v6_groups fuel rest' (acc :: groups) e
          end
        end
      | String ":" rest' => v6_groups fuel rest' (acc :: groups) ellipsis
      | _ => None
      end
  end.

Definition groups_value (gs : list Z) : Z := foldl (λ acc g, acc * 65536 + g) 0 gs.

Definition v6_finish (groups : list Z) (ellipsis : option nat) (s : string) : option IP :=
  if bool_decide (s ≠ "") then None
  else
    let gs := reverse groups in
    if bool_decide (length gs < 8)%nat then
      match ellipsis with
      | None => None
      | Some e =>
        Some (groups_value (take e gs ++ replicate (8 - length gs) 0 ++ drop e gs))
      end
    else match ellipsis with Some _ => None | None => Some (groups_value gs) end.

(** [net.ParseIP] accepts no zone, so that a ["%"] is an error here. *)
Definition parseIPv6 (s : string) : option IP :=
  let '(s, ellipsis) :=
    match s with
    | String ":" (String ":" rest) => (rest, Some 0%nat)
    | _ => (s, None)
    end in
  if bool_decide (s = "" ∧ ellipsis = Some 0%nat) then Some 0
  else match v6_groups 8 s [] ellipsis with
       | None => None
       | Some (groups, ellipsis, rest) => v6_finish groups ellipsis rest
       end.

(** The first of ['.'], [':'], ['%'] decides which syntax is read. *)
Fixpoint ip_syntax (s : string) : option bool :=
  match s with
  | "" => None
  | String "." _ => Some true
  | String ":" _ => Some false
  | String "%" _ => None
  | String _ s => ip_syntax s
  end.

Definition ParseIP (s : string) : option IP :=
  match ip_syntax s with
  | Some true => of_v4 <$> parseIPv4 s
  | Some false => if str_mem "%" s then None else parseIPv6 s
  | None => None
  end.

(** ** Networks *)

Record IPNet := { net_v4 : bool; net_addr : Z; net_bits : Z }.

Definition mask_of (width bits : Z) : Z := Z.shiftl (Z.ones bits) (width - bits).

Definition ParseCIDR (s : string) : option IPNet :=
  match str_cut "/" s with
  | None => None
  | Some (addr, n) =>
    match ParseIP addr, parse_digits n with
    | Some ip, Some bits =>
      match ip_syntax addr, To4 ip with
      | Some true, Some v =>
        if bool_decide (bits ≤ 32)
        then Some {| net_v4 := true; net_addr := Z.land v (mask_of 32 bits); net_bits := bits |}
        else None
      | _, _ =>
        if bool_decide (bits ≤ 128)
        then Some {| net_v4 := false; net_addr := Z.land ip (mask_of 128 bits); net_bits := bits |}
        else None
      end
    | _, _ => None
    end
  end.

(** An address whose 4-byte form exists is compared in that form, and never
    lies in an IPv6 network. *)
Definition Contains (n : IPNet) (ip : IP) : bool :=
  match To4 ip, net_v4 n with
  | Some v, true => bool_decide (Z.land v (mask_of 32 (net_bits n)) = net_addr n)
  | None, false => bool_decide (Z.land ip (mask_of 128 (net_bits n)) = net_addr n)
  | _, _ => false
  end.

(** ** Host and port *)

Fixpoint last_index (c : ascii) (s : string) : option nat :=
  match s with
  | "" => None
  | String d s =>
    match last_index c s with
    | Some i => Some (S i)
    | None => if bool_decide (c = d) then Some O else None
    end
  end.

Fixpoint first_index (c : ascii) (s : string) : option nat :=
  match s with
  | "" => None
  | String d s => if bool_decide (c = d) then Some O else S <$> first_index c s
  end.

Definition SplitHostPort (hostport : string) : option (string * string) :=
  match last_index ":" hostport with
  | None => None
  | Some i =>
    let port := str_drop (S i) hostport in
    match hostport with
    | String "[" _ =>
      match first_index "]" hostport with
      | None => None
      | Some e =>
        if bool_decide (S e = i) then
          if str_mem "[" (str_drop 1 hostport) || str_mem "]" (str_drop (S e) hostport) then None
          else Some (str_take (e - 1) (str_drop 1 hostport), port)
        else None
      end
    | _ =>
      let host := str_take i hostport in
      if str_mem ":" host then None
      else if str_mem "[" hostport || str_mem "]" hostport then None
      else Some (host, port)
    end
  end.

(** ** Examples and lemmas *)

Example ParseIP_v4 : ParseIP "10.1.2.3" = Some (of_v4 (((10 * 256 + 1) * 256 + 2) * 256 + 3)).
Proof. vm_compute. reflexivity. Qed.
Example ParseIP_loopback6 : ParseIP "::1" = Some 1.
Proof. vm_compute. reflexivity. Qed.
Example ParseIP_mapped : ParseIP "::ffff:10.1.2.3" = ParseIP "10.1.2.3".
Proof. vm_compute. reflexivity. Qed.
Example ParseIP_groups : ParseIP "fe80::a:1" = Some (Z.shiftl 65152 112 + 10 * 65536 + 1).
Proof. vm_compute. reflexivity. Qed.
Example ParseIP_rejects :
  Forall (λ s, ParseIP s = None)
    ["010.0.0.1"; "1.2.3"; "256.1.1.1"; "1.2.3.4.5"; "::1::"; "1:2:3:4:5:6:7"; "fe80::1%eth0"; ""; "host";
     ":1:2:3:4:5:6:7"; "1:2:3:4:5:6:7:8:9"; "1:2:3:4:5:6:7:8::"].
Proof. repeat constructor; vm_compute; reflexivity. Qed.
Example SplitHostPort_ex :
  SplitHostPort "10.0.0.1:80" = Some ("10.0.0.1", "80") ∧
  SplitHostPort "[::1]:80" = Some ("::1", "80") ∧ SplitHostPort "::1" = None.
Proof. vm_compute. auto. Qed.

Lemma land_ones_shift x w b :
  0 ≤ b ≤ w → 0 ≤ x < 2 ^ w →
  Z.land x (mask_of w b) = Z.shiftl (Z.shiftr x (w - b)) (w - b).
Proof.
  intros Hb Hx. unfold mask_of. apply Z.bits_inj'. intros n Hn.
  rewrite Z.land_spec, !Z.shiftl_spec by lia.
  destruct (decide (n < w - b)) as [Hlt|Hge].
  - rewrite !(Z.testbit_neg_r _ (n - (w - b))) by lia. apply andb_false_r.
  - rewrite Z.shiftr_spec by lia. replace (n - (w - b) + (w - b)) with n by lia.
    destruct (decide (n < w)).
    + rewrite Z.ones_spec_low by lia. apply andb_true_r.
    + rewrite Z.ones_spec_high by lia. rewrite andb_false_r.
      destruct (decide (x = 0)) as [->|]; [by rewrite Z.bits_0|].
      symmetry. apply Z.bits_above_log2; [lia|].
      assert (Z.log2 x < w) by (apply Z.log2_lt_pow2; lia). lia.
Qed.
