(* ===== verification/GoText.v ===== *)
(** * Searching and replacing text (package strings)

    strings.Index, LastIndex, Count, Repeat, Replace with a count of one,
    ReplaceAll, SplitN in two and strings.NewReplacer, for non-empty needles, and
    the lemmas on them that the code generator and the repair engine need. *)

From S2P Require Import Prelude GoStrings.

(** Literals with double quotes are written with single ones. *)
Definition quoted (s : string) : string := str_map (λ c, if bool_decide (c = squote) then dquote else c) s.
Definition nl : string := String newline "".
Definition tab : string := String "009" "".
Definition q (s : string) : string := String dquote s +:+ String dquote "".

(** The first match of [sub] in [s]. *)
Fixpoint str_index (s sub : string) : option nat :=
  if String.prefix sub s then Some 0%nat
  else match s with EmptyString => None | String _ r => S <$> str_index r sub end.

Fixpoint str_last_index (s sub : string) : option nat :=
  match s with
  | EmptyString => if String.prefix sub "" then Some 0%nat else None
  | String _ r =>
    match str_last_index r sub with
    | Some i => Some (S i)
    | None => if String.prefix sub s then Some 0%nat else None
    end
  end.

Fixpoint str_repeat (s : string) (n : nat) : string :=
  match n with O => "" | S n => s +:+ str_repeat s n end.

(** The number of a character, which is [strings.Count] of a one-byte needle. *)
Fixpoint count_char (c : ascii) (s : string) : Z :=
  match s with
  | EmptyString => 0
  | String d r => (if bool_decide (d = c) then 1 else 0) + count_char c r
  end.

(** [Replace(s, old, new, 1)]. *)
Definition replace_first (s old new : string) : string :=
  match str_index s old with
  | Some i => str_take i s +:+ new +:+ str_drop (i + String.length old) s
  | None => s
  end.

(** [SplitN(s, sep, 2)] when [s] contains [sep]. *)
Definition split2 (s sep : string) : option (string * string) :=
  (λ i, (str_take i s, str_drop (i + String.length sep) s)) <$> str_index s sep.

(** A replacer compares its needles in the order of the arguments at each place,
    goes on behind a match, and keeps a byte where none matches.  [skip] bytes of
    the last match are still to be passed over. *)
Fixpoint find_key (pairs : list (string * string)) (s : string) : option (nat * string) :=
  match pairs with
  | [] => None
  | (k, v) :: rest => if String.prefix k s then Some (String.length k, v) else find_key rest s
  end.

Fixpoint replace_from (pairs : list (string * string)) (skip : nat) (s : string) : string :=
  match s with
  | EmptyString => ""
  | String c r =>
    match skip with
    | S k => replace_from pairs k r
    | O =>
      match find_key pairs s with
      | Some (S k, v) => v +:+ replace_from pairs k r
      | _ => String c (replace_from pairs 0 r)
      end
    end
  end.

Definition Replace (pairs : list (string * string)) (s : string) : string := replace_from pairs 0 s.
Definition ReplaceAll (s old new : string) : string := Replace [(old, new)] s.

Lemma replace_from_skip pairs a b :
  replace_from pairs (String.length a) (a +:+ b) = replace_from pairs 0 b.
Proof. induction a as [|c a IH]; [done|]. rewrite str_app_cons. exact IH. Qed.

(** At a needle the replacement is written and the search goes on behind it. *)
Lemma replace_key pairs k v s :
  k ≠ "" → find_key pairs (k +:+ s) = Some (String.length k, v) →
  replace_from pairs 0 (k +:+ s) = v +:+ replace_from pairs 0 s.
Proof.
  destruct k as [|c k]; [done|]. intros _ Hf. rewrite str_app_cons in *.
  cbn [replace_from]. rewrite Hf. cbn [String.length]. by rewrite replace_from_skip.
Qed.

Lemma replace_keep pairs c s :
  find_key pairs (String c s) = None → replace_from pairs 0 (String c s) = String c (replace_from pairs 0 s).
Proof. intros Hf. cbn [replace_from]. by rewrite Hf. Qed.

Lemma count_char_app c s t : count_char c (s +:+ t) = count_char c s + count_char c t.
Proof. induction s as [|d s IH]; [done|]. rewrite str_app_cons. cbn [count_char]. lia. Qed.

Lemma count_char_nonneg c s : 0 ≤ count_char c s.
Proof. induction s as [|d s IH]; cbn [count_char]; [done|]. case_bool_decide; lia. Qed.

Lemma count_char_repeat c s n : count_char c (str_repeat s n) = Z.of_nat n * count_char c s.
Proof. induction n as [|n IH]; cbn [str_repeat]; [done|]. rewrite count_char_app. lia. Qed.

(** The first match splits the text. *)
Lemma str_index_Some s sub i :
  str_index s sub = Some i → s = str_take i s +:+ sub +:+ str_drop (i + String.length sub) s.
Proof.
  revert i. induction s as [|c s IH]; intros i; cbn [str_index];
    destruct (String.prefix sub _) eqn:E; try done.
  - intros [= <-]. by destruct sub.
  - intros [= <-]. apply prefix_iff in E as [t E]. rewrite E. cbn [Nat.add].
    rewrite str_drop_app_exact by done. by destruct (sub +:+ t).
  - destruct (str_index s sub) as [j|] eqn:Ej; [|done]. intros [= <-].
    cbn [Nat.add str_take str_drop]. rewrite str_app_cons. f_equal. by apply IH.
Qed.

Lemma str_index_None s sub : str_index s sub = None ↔ str_contains s sub = false.
Proof.
  induction s as [|c s IH]; cbn [str_index str_contains];
    destruct (String.prefix sub _); cbn [orb]; try done.
  rewrite <- IH. by destruct (str_index s sub).
Qed.

(** Splitting is a homomorphism at a separator. *)
Lemma str_split_app sep a b :
  str_split sep (a +:+ String sep b) = str_split sep a ++ str_split sep b.
Proof.
  induction a as [|c a IH].
  - rewrite str_app_nil_l. cbn. by rewrite bool_decide_eq_true_2.
  - rewrite str_app_cons. cbn [str_split]. case_bool_decide; rewrite IH; [done|].
    destruct (str_split sep a) eqn:E; [by apply str_split_nonempty in E|done].
Qed.

(** ** Templates

    The holes of a text: each byte that is kept, and the number of the needle that
    is replaced.  They depend on the needles alone, so the text a template expands
    to is known up to the replacements. *)
Fixpoint find_idx (keys : list string) (s : string) : option (nat * nat) :=
  match keys with
  | [] => None
  | k :: rest =>
    if String.prefix k s then Some (0%nat, String.length k)
    else (λ p, (S p.1, p.2)) <$> find_idx rest s
  end.

Fixpoint holes (keys : list string) (skip : nat) (s : string) : list (ascii + nat) :=
  match s with
  | EmptyString => []
  | String c r =>
    match skip with
    | S k => holes keys k r
    | O =>
      match find_idx keys s with
      | Some (i, S k) => inr i :: holes keys k r
      | _ => inl c :: holes keys 0 r
      end
    end
  end.

Definition fill1 (vals : list string) (h : ascii + nat) : string :=
  match h with inl c => String c "" | inr i => default "" (vals !! i) end.
Fixpoint fill (vals : list string) (hs : list (ascii + nat)) : string :=
  match hs with [] => "" | h :: hs => fill1 vals h +:+ fill vals hs end.

Lemma find_idx_key pairs s :
  find_key pairs s = (λ p, (p.2, default "" (pairs.*2 !! p.1))) <$> find_idx pairs.*1 s.
Proof.
  induction pairs as [|[k v] pairs IH]; [done|]. cbn [find_key find_idx fmap list_fmap fst snd].
  destruct (String.prefix k s); [done|]. rewrite IH. by destruct (find_idx pairs.*1 s) as [[i n]|].
Qed.

Lemma replace_from_holes pairs skip s :
  replace_from pairs skip s = fill pairs.*2 (holes pairs.*1 skip s).
Proof.
  revert skip. induction s as [|c s IH]; intros skip; [done|]. cbn [replace_from holes].
  destruct skip as [|k]; [|apply IH]. rewrite find_idx_key.
  destruct (find_idx pairs.*1 (String c s)) as [[i [|k]]|]; cbn [fmap option_fmap option_map fst snd fill fill1].
  - by rewrite str_app_cons, str_app_nil_l, IH.
  - by rewrite IH.
  - by rewrite str_app_cons, str_app_nil_l, IH.
Qed.

Lemma fill_app vals a b : fill vals (a ++ b) = fill vals a +:+ fill vals b.
Proof. induction a as [|h a IH]; cbn [app fill]; [done|]. by rewrite IH, str_app_assoc. Qed.

(** What a replacement yields when the holes of the template are [hs]. *)
Lemma Replace_fill pairs s hs :
  holes pairs.*1 0 s = hs → Replace pairs s = fill pairs.*2 hs.
Proof. intros <-. apply replace_from_holes. Qed.

Definition hole_ok (p : ascii → bool) (vals : list string) (h : ascii + nat) : bool :=
  match h with inl c => p c | inr i => str_all p (default "" (vals !! i)) end.

Lemma fill_all p vals hs : forallb (hole_ok p vals) hs = true → str_all p (fill vals hs) = true.
Proof.
  induction hs as [|[c|i] hs IH]; cbn [forallb hole_ok fill fill1]; [done| |];
    intros [Hc Hh]%andb_true_iff; rewrite str_all_app, (IH Hh), andb_true_r; [|done].
  cbn [str_all]. by rewrite Hc.
Qed.

(** Values that satisfy [p] fill a template whose own bytes do. *)
Lemma fill_all_vals p vals hs :
  forallb (λ h, match h with inl c => p c | inr _ => true end) hs = true →
  Forall (λ v, str_all p v = true) vals → str_all p (fill vals hs) = true.
Proof.
  intros Hh Hv. apply fill_all. rewrite forallb_forall in Hh |- *. intros [c|i] Hin; [by apply (Hh (inl c))|].
  cbn [hole_ok]. destruct (vals !! i) as [v|] eqn:E; [|done].
  rewrite Forall_lookup in Hv. by apply (Hv i).
Qed.

(** *** Trimming *)
Lemma trim_left_spaces a s : str_all is_space_char a = true → trim_left (a +:+ s) = trim_left s.
Proof.
  induction a as [|c a IH]; [done|]. cbn [str_all]. intros [Hc Ha]%andb_true_iff.
  rewrite str_app_cons. cbn [trim_left]. rewrite Hc. auto.
Qed.

Lemma trim_right_spaces b : str_all is_space_char b = true → trim_right b = "".
Proof.
  induction b as [|c b IH]; [done|]. cbn [str_all trim_right]. intros [Hc Hb]%andb_true_iff.
  by rewrite (IH Hb), Hc.
Qed.

Lemma trim_right_core m d b :
  is_space_char d = false → str_all is_space_char b = true →
  trim_right (m +:+ String d b) = m +:+ String d "".
Proof.
  intros Hd Hb. induction m as [|c m IH].
  - rewrite !str_app_nil_l. cbn [trim_right]. rewrite (trim_right_spaces b Hb), Hd. by rewrite andb_false_r.
  - rewrite !str_app_cons. cbn [trim_right]. rewrite IH. by destruct m.
Qed.

(** Surrounding space is cut off and nothing else. *)
Lemma TrimSpace_core `{Unicode} a c m d b :
  str_all is_ascii_char (a +:+ String c m +:+ String d b) = true →
  str_all is_space_char a = true → str_all is_space_char b = true →
  is_space_char c = false → is_space_char d = false →
  TrimSpace (a +:+ String c m +:+ String d b) = String c m +:+ String d "".
Proof.
  intros Hascii Ha Hb Hc Hd. unfold TrimSpace. rewrite Hascii, trim_left_spaces by done.
  rewrite str_app_cons. cbn [trim_left]. rewrite Hc, <- str_app_cons. by apply trim_right_core.
Qed.

(** ** [sort.Strings]: the order of the bytes *)
Definition str_le (a b : string) : Prop := String.leb a b = true.
#[global] Instance str_le_dec : RelDecision str_le.
Proof. intros a b. unfold str_le. apply _. Defined.
Definition sort_strings (l : list string) : list string := merge_sort str_le l.
Lemma sort_strings_perm l : sort_strings l ≡ₚ l.
Proof. apply merge_sort_Permutation. Qed.

(** ** [url.PathEscape] and [url.QueryEscape] *)
Definition unreserved (c : ascii) : bool :=
  is_lower c || is_upper c || is_digit c || bool_decide (c ∈ ["-"; "_"; "."; "~"]%char).
Definition upper_hex (z : Z) : ascii := default "0"%char (String.get (Z.to_nat z) "0123456789ABCDEF").
Definition percent (c : ascii) : string :=
  String "%" (String (upper_hex (ascii_code c / 16)) (String (upper_hex (ascii_code c mod 16)) "")).
Fixpoint escape_with (f : ascii → string) (s : string) : string :=
  match s with "" => "" | String c s => f c +:+ escape_with f s end.
Definition PathEscape (s : string) : string :=
  escape_with (λ c, if unreserved c || bool_decide (c ∈ ["$"; "&"; "+"; "="; ":"; "@"]%char)
                    then String c "" else percent c) s.
Definition QueryEscape (s : string) : string :=
  escape_with (λ c, if unreserved c then String c "" else if bool_decide (c = " "%char) then "+" else percent c) s.
