(* ===== verification/GoRegexp.v ===== *)
(** * Regular expressions (package regexp)

    The expressions that the repair engine and the input validation of the language
    use: classes, greedy repetition, alternatives in order of preference, one group,
    line starts and word boundaries.  [rx_match] is the search in order of preference
    that fixes which match Go reports; [rx_match_iff] relates it to the meaning of
    expressions, [denotes].  On bytes it agrees with matching on runes, since the
    classes treat all bytes of a multi-byte character alike. *)

From S2P Require Import Prelude GoStrings.

Module Regexp.

Inductive rx :=
| Eps
| Chr (p : ascii → bool)
| Cat (a b : rx)
| Alt (a b : rx)
| Star (a : rx)
| Group (a : rx)
| Bol
| Wordb.

Definition is_word (c : ascii) : bool := is_lower c || is_upper c || is_digit c || bool_decide (c = "_"%char).
Definition word_before (prev : option ascii) : bool := match prev with Some c => is_word c | None => false end.
Definition word_after (s : list ascii) : bool := match s with c :: _ => is_word c | [] => false end.
Definition line_start (prev : option ascii) : bool :=
  match prev with Some c => bool_decide (c = newline) | None => true end.

(** A place in the text: the byte before it, the text after it, and the text of the
    group, if it has matched. *)
Abbreviation place := (option ascii * list ascii * option (list ascii))%type.

Inductive denotes : rx → place → place → Prop :=
| d_eps p : denotes Eps p p
| d_chr f c prev s g : f c = true → denotes (Chr f) (prev, c :: s, g) (Some c, s, g)
| d_cat a b p p' p'' : denotes a p p' → denotes b p' p'' → denotes (Cat a b) p p''
| d_alt_l a b p p' : denotes a p p' → denotes (Alt a b) p p'
| d_alt_r a b p p' : denotes b p p' → denotes (Alt a b) p p'
| d_star_nil a p : denotes (Star a) p p
| d_star_cons a p p' p'' :
    denotes a p p' → (length p'.1.2 < length p.1.2)%nat → denotes (Star a) p' p'' → denotes (Star a) p p''
| d_group a prev s g prev' s' g' :
    denotes a (prev, s, g) (prev', s', g') →
    denotes (Group a) (prev, s, g) (prev', s', Some (take (length s - length s') s))
| d_bol prev s g : line_start prev = true → denotes Bol (prev, s, g) (prev, s, g)
| d_wordb prev s g : word_before prev ≠ word_after s → denotes Wordb (prev, s, g) (prev, s, g).

Section Search.
Context {A : Type}.

(** The first way, in order of preference, to match and go on with [k]. *)
Fixpoint search (r : rx) (p : place) (k : place → option A) : option A :=
  let '(prev, s, g) := p in
  match r with
  | Eps => k p
  | Chr f => match s with c :: s' => if f c then k (Some c, s', g) else None | [] => None end
  | Cat a b => search a p (λ p', search b p' k)
  | Alt a b => match search a p k with Some x => Some x | None => search b p k end
  | Star a =>
    (fix loop (n : nat) (p : place) : option A :=
       match n with
       | O => k p
       | S n =>
         match search a p (λ p', if (length p'.1.2 <? length p.1.2)%nat then loop n p' else None) with
         | Some x => Some x
         | None => k p
         end
       end) (length s) p
  | Group a => search a p (λ '(prev', s', _), k (prev', s', Some (take (length s - length s') s)))
  | Bol => if line_start prev then k p else None
  | Wordb => if xorb (word_before prev) (word_after s) then k p else None
  end.

Lemma or_else_iff (x y : option A) : is_Some (match x with Some z => Some z | None => y end) ↔ is_Some x ∨ is_Some y.
Proof. destruct x as [z|]; split; eauto. by intros [[]|]. Qed.

(** The search finds a way exactly when there is one. *)
Lemma search_iff r p k : is_Some (search r p k) ↔ ∃ p', denotes r p p' ∧ is_Some (k p').
Proof.
  revert p k. induction r as [|f|a IHa b IHb|a IHa b IHb|a IHa|a IHa| |]; intros [[prev s] g] k; cbn [search].
  - split; [intros Hk; eauto using denotes|]. by intros (p' & Hd & Hk); inversion Hd; subst.
  - split.
    + destruct s as [|c s]; [by intros []|]. destruct (f c) eqn:E; [|by intros []]. eauto using denotes.
    + intros (p' & Hd & Hk). inversion Hd; subst. by match goal with E : f _ = true |- _ => rewrite E end.
  - rewrite IHa. setoid_rewrite IHb. split.
    + intros (p1 & H1 & p2 & H2 & Hk). eauto using denotes.
    + intros (p' & Hd & Hk). inversion Hd; subst. eauto.
  - rewrite or_else_iff, IHa, IHb. split.
    + intros [(p' & Hd & Hk)|(p' & Hd & Hk)]; eauto using denotes.
    + intros (p' & Hd & Hk). inversion Hd; subst; eauto.
  - set (loop := fix loop (n : nat) (p : place) : option A := _).
    assert (∀ n p, (length p.1.2 ≤ n)%nat →
      is_Some (loop n p) ↔ ∃ p', denotes (Star a) p p' ∧ is_Some (k p')) as Hloop; [|by apply Hloop].
    induction n as [|n IHn]; intros p Hn.
    + cbn. split; [eauto using denotes|]. intros (p' & Hd & Hk). inversion Hd; subst; [done|lia].
    + change (loop (S n) p) with
        (match search a p (λ p', if (length p'.1.2 <? length p.1.2)%nat then loop n p' else None) with
         | Some x => Some x | None => k p end).
      rewrite or_else_iff, IHa. split.
      * intros [(p1 & H1 & Hk)|Hk]; [|eauto using denotes].
        destruct (Nat.ltb_spec (length p1.1.2) (length p.1.2)); [|by destruct Hk].
        apply IHn in Hk as (p' & Hd & Hk); [|lia]. eauto using denotes.
      * intros (p' & Hd & Hk). inversion Hd as [| | | | | |a' p0 p1 p2 H1 Hl H2| | |]; subst; [by right|].
        left. exists p1. split; [done|]. rewrite (proj2 (Nat.ltb_lt _ _) Hl). apply IHn; [lia|eauto].
  - rewrite IHa. split.
    + intros ([[prev' s'] g'] & Hd & Hk). eauto using denotes.
    + intros (p' & Hd & Hk). inversion Hd; subst. eexists. split; [done|]. done.
  - split.
    + destruct (line_start prev) eqn:E; [eauto using denotes|by intros []].
    + intros (p' & Hd & Hk). inversion Hd; subst. by match goal with E : line_start _ = true |- _ => rewrite E end.
  - split.
    + destruct (xorb _ _) eqn:E; [|by intros []]. intros Hk. exists (prev, s, g). split; [|done].
      constructor. by destruct (word_before prev), (word_after s).
    + intros (p' & Hd & Hk). inversion Hd; subst. by destruct (word_before prev), (word_after s).
Qed.
End Search.

(** A match at a place: the text left over and the group. *)
Definition rx_match (r : rx) (prev : option ascii) (s : list ascii) : option (list ascii * option (list ascii)) :=
  search r (prev, s, None) (λ '(_, s', g), Some (s', g)).

Lemma rx_match_iff r prev s : is_Some (rx_match r prev s) ↔ ∃ p', denotes r (prev, s, None) p'.
Proof.
  unfold rx_match. rewrite search_iff. split; [intros (p' & ? & _); eauto|].
  intros ([[? ?] ?] & ?). eauto.
Qed.

(** [FindAllStringSubmatch], [ReplaceAllStringFunc] and [MatchString], for
    expressions that match no empty text: the leftmost match is taken and the search
    goes on behind it.  [skip] bytes of a match are still to be passed over. *)
Fixpoint find_all (r : rx) (skip : nat) (prev : option ascii) (s : list ascii) :
    list (list ascii * option (list ascii)) :=
  match s with
  | [] => []
  | c :: t =>
    match skip with
    | S k => find_all r k (Some c) t
    | O =>
      match rx_match r prev s with
      | Some (s', g) =>
        let n := (length s - length s')%nat in (take n s, g) :: find_all r (n - 1) (Some c) t
      | None => find_all r 0 (Some c) t
      end
    end
  end.

Fixpoint replace_func (r : rx) (f : list ascii → option (list ascii) → list ascii) (skip : nat)
    (prev : option ascii) (s : list ascii) : list ascii :=
  match s with
  | [] => []
  | c :: t =>
    match skip with
    | S k => replace_func r f k (Some c) t
    | O =>
      match rx_match r prev s with
      | Some (s', g) =>
        let n := (length s - length s')%nat in f (take n s) g ++ replace_func r f (n - 1) (Some c) t
      | None => c :: replace_func r f 0 (Some c) t
      end
    end
  end.

(** Where the leftmost match starts. *)
Fixpoint find_index (r : rx) (prev : option ascii) (s : list ascii) : option nat :=
  match rx_match r prev s with
  | Some _ => Some 0%nat
  | None => match s with [] => None | c :: t => S <$> find_index r (Some c) t end
  end.

Abbreviation chars := String.list_ascii_of_string.
Abbreviation text := String.string_of_list_ascii.
Definition FindAll (r : rx) (s : string) : list (list ascii * option (list ascii)) := find_all r 0 None (chars s).
Definition ReplaceAllFunc (r : rx) (f : list ascii → option (list ascii) → list ascii) (s : string) : string :=
  text (replace_func r f 0 None (chars s)).
Definition FindIndex (r : rx) (s : string) : option nat := find_index r None (chars s).
Definition MatchString (r : rx) (s : string) : bool := bool_decide (is_Some (FindIndex r s)).

(** The byte before a place of the text. *)
Definition before (prev : option ascii) (a : list ascii) : option ascii :=
  match last a with Some c => Some c | None => prev end.

Lemma before_cons prev c a : before prev (c :: a) = before (Some c) a.
Proof.
  unfold before. destruct a as [|d a]; [done|]. rewrite last_cons_cons.
  destruct (last (d :: a)) eqn:E; [done|]. by apply last_None in E.
Qed.

Lemma find_index_iff r prev s :
  is_Some (find_index r prev s) ↔ ∃ a b p', s = a ++ b ∧ denotes r (before prev a, b, None) p'.
Proof.
  revert prev. induction s as [|c s IH]; intros prev; cbn [find_index].
  - pose proof (rx_match_iff r prev []) as Hm. destruct (rx_match r prev []) as [x|].
    + split; [|eauto]. intros _. destruct Hm as [[p' Hd] _]; [eauto|]. by exists [], [], p'.
    + split; [by intros []|]. intros (a & b & p' & E & Hd). symmetry in E. apply app_nil in E as [-> ->].
      destruct Hm as [_ Hm]. destruct Hm; [eauto|done].
  - pose proof (rx_match_iff r prev (c :: s)) as Hm. destruct (rx_match r prev (c :: s)) as [x|].
    + split; [|eauto]. intros _. destruct Hm as [[p' Hd] _]; [eauto|]. by exists [], (c :: s), p'.
    + rewrite fmap_is_Some, IH. split.
      * intros (a & b & p' & -> & Hd). exists (c :: a), b, p'. split; [done|]. by rewrite before_cons.
      * intros (a & b & p' & E & Hd). destruct a as [|d a].
        { cbn in E. subst. destruct Hm as [_ Hm]. destruct Hm; [eauto|done]. }
        cbn in E. injection E as <- ->. exists a, b, p'. split; [done|]. by rewrite before_cons in Hd.
Qed.

(** A text matches exactly when the expression matches from some place in it. *)
Lemma MatchString_iff r s :
  MatchString r s = true ↔ ∃ a b p', chars s = a ++ b ∧ denotes r (last a, b, None) p'.
Proof.
  unfold MatchString, FindIndex. rewrite bool_decide_eq_true, find_index_iff.
  assert (∀ a, before None a = last a) as E by (intros a; unfold before; by destruct (last a)).
  by setoid_rewrite E.
Qed.

(** Notation of the expressions. *)
Definition ch (c : ascii) : rx := Chr (λ d, bool_decide (d = c)).
Fixpoint word (s : string) : rx := match s with EmptyString => Eps | String c r => Cat (ch c) (word r) end.
Fixpoint seq_rx (l : list rx) : rx := match l with [] => Eps | [r] => r | r :: l => Cat r (seq_rx l) end.
Fixpoint alts (l : list rx) : rx := match l with [] => Chr (λ _, false) | [r] => r | r :: l => Alt r (alts l) end.
Definition class (s : string) : rx := Chr (λ c, str_mem c s).
Definition not_class (s : string) : rx := Chr (λ c, negb (str_mem c s)).
Definition plus (r : rx) : rx := Cat r (Star r).
Definition opt (r : rx) : rx := Alt r Eps.
Definition sp : rx := class (String "009" (String "010" (String "012" (String "013" " ")))).
Definition digit : rx := Chr is_digit.
Definition wordch : rx := Chr is_word.

(** Letters without regard to case; the long s and the Kelvin sign fold to S and K. *)
Definition fold_char (c : ascii) : rx :=
  let cases := Chr (λ d, bool_decide (lower_char d = lower_char c)) in
  if bool_decide (c = "S"%char) then alts [cases; word (String "197" (String "191" ""))]
  else if bool_decide (c = "K"%char) then alts [cases; word (String "226" (String "132" (String "170" "")))]
  else cases.
Fixpoint fold_word (s : string) : rx :=
  match s with EmptyString => Eps | String c r => Cat (fold_char c) (fold_word r) end.
End Regexp.
