(* ===== verification/GoJson.v ===== *)
(** * JSON texts (package encoding/json)

    What the program uses of [json.Marshal], [json.Unmarshal] and
    [json.RawMessage]: the grammar of texts, the decoding of string literals to
    valid UTF-8, the escapes the encoder writes, and the assignment of an object
    to the fields of a struct.  A number keeps its literal, an object the order
    of its text.  The nesting limit of the decoder (10000) and the range of
    its numbers are not modelled.
    [Marshal_roundtrip]: what is encoded is decoded to the same value. *)

From S2P Require Import Prelude GoStrings GoNet.

Module Json.

Inductive json :=
| JNull
| JBool (b : bool)
| JNum (lit : string)
| JStr (s : string)
| JArr (l : list json)
| JObj (m : list (string * json)).

(** Induction that reaches the values inside arrays and objects. *)
Definition json_nested_ind (P : json → Prop) (fnull : P JNull) (fbool : ∀ b, P (JBool b)) (fnum : ∀ n, P (JNum n))
    (fstr : ∀ s, P (JStr s)) (farr : ∀ l, Forall P l → P (JArr l))
    (fobj : ∀ m, Forall (λ kv, P kv.2) m → P (JObj m)) : ∀ v, P v :=
  fix go v := match v with
  | JNull => fnull | JBool b => fbool b | JNum n => fnum n | JStr s => fstr s
  | JArr l => farr l ((fix gol l : Forall P l :=
      match l with [] => Forall_nil_2 _ | x :: l => Forall_cons_2 _ _ _ (go x) (gol l) end) l)
  | JObj m => fobj m ((fix gom m : Forall (λ kv, P kv.2) m :=
      match m with [] => Forall_nil_2 _ | x :: m => Forall_cons_2 _ _ _ (go x.2) (gom m) end) m)
  end.

(** ** Decoding *)
Definition is_ws (c : ascii) : bool := bool_decide (c ∈ [" "; "009"; "010"; "013"]%char).
Fixpoint skip_ws (s : string) : string :=
  match s with String c s' => if is_ws c then skip_ws s' else s | "" => "" end.

Definition byte (z : Z) : ascii := ascii_of_nat (Z.to_nat z).
(** The UTF-8 form of a code point. *)
Definition utf8 (r : Z) : string :=
  if r <? 0x80 then String (byte r) ""
  else if r <? 0x800 then
    String (byte (Z.lor 0xC0 (Z.shiftr r 6))) (String (byte (Z.lor 0x80 (Z.land r 0x3F))) "")
  else if r <? 0x10000 then
    String (byte (Z.lor 0xE0 (Z.shiftr r 12)))
      (String (byte (Z.lor 0x80 (Z.land (Z.shiftr r 6) 0x3F))) (String (byte (Z.lor 0x80 (Z.land r 0x3F))) ""))
  else
    String (byte (Z.lor 0xF0 (Z.shiftr r 18)))
      (String (byte (Z.lor 0x80 (Z.land (Z.shiftr r 12) 0x3F)))
         (String (byte (Z.lor 0x80 (Z.land (Z.shiftr r 6) 0x3F))) (String (byte (Z.lor 0x80 (Z.land r 0x3F))) ""))).

Definition hex4 (a b c d : ascii) : option Z :=
  x ← hex_val a; y ← hex_val b; z ← hex_val c; w ← hex_val d;
  Some (((x * 16 + y) * 16 + z) * 16 + w).

Definition high_surrogate (r : Z) : bool := (0xD800 <=? r) && (r <? 0xDC00).
Definition low_surrogate (r : Z) : bool := (0xDC00 <=? r) && (r <? 0xE000).

(** The escape of one character after the backslash. *)
Definition short_escape (e : ascii) : option ascii :=
  if bool_decide (e = dquote) then Some dquote
  else if bool_decide (e = "\"%char) then Some "\"%char
  else if bool_decide (e = "/"%char) then Some "/"%char
  else if bool_decide (e = "b"%char) then Some "008"%char
  else if bool_decide (e = "f"%char) then Some "012"%char
  else if bool_decide (e = "n"%char) then Some newline
  else if bool_decide (e = "r"%char) then Some "013"%char
  else if bool_decide (e = "t"%char) then Some "009"%char
  else None.

Definition cons_text (t : string) (r : option (string * string)) : option (string * string) :=
  match r with Some (s, rest) => Some (t +:+ s, rest) | None => None end.

(** The contents of a string literal up to its closing quote; a surrogate without
    its partner stands for U+FFFD. *)
Fixpoint p_chars (s : string) : option (string * string) :=
  match s with
  | "" => None
  | String c s1 =>
    if bool_decide (c = dquote) then Some ("", s1)
    else if bool_decide (c = "\"%char) then
      match s1 with
      | "" => None
      | String e s2 =>
        if bool_decide (e = "u"%char) then
          match s2 with
          | String h1 (String h2 (String h3 (String h4 s3))) =>
            match hex4 h1 h2 h3 h4 with
            | None => None
            | Some r =>
              if high_surrogate r then
                match s3 with
                | String b1 (String u1 (String g1 (String g2 (String g3 (String g4 s4))))) =>
                  match hex4 g1 g2 g3 g4 with
                  | Some r' =>
                    if bool_decide (b1 = "\"%char) && bool_decide (u1 = "u"%char) && low_surrogate r'
                    then cons_text (utf8 (Z.shiftl (r - 0xD800) 10 + (r' - 0xDC00) + 0x10000)) (p_chars s4)
                    else cons_text replacement (p_chars s3)
                  | None => cons_text replacement (p_chars s3)
                  end
                | _ => cons_text replacement (p_chars s3)
                end
              else if low_surrogate r then cons_text replacement (p_chars s3)
              else cons_text (utf8 r) (p_chars s3)
            end
          | _ => None
          end
        else match short_escape e with
             | Some d => cons_text (String d "") (p_chars s2)
             | None => None
             end
      end
    else if ascii_code c <? 0x20 then None
    else cons_text (String c "") (p_chars s1)
  end.

(** Bytes that are not UTF-8 become U+FFFD. *)
Definition coerce (s : string) : string := str_join "" (runes s).

Definition p_string (s : string) : option (string * string) :=
  match s with
  | String c s' => if bool_decide (c = dquote)
                   then match p_chars s' with Some (raw, rest) => Some (coerce raw, rest) | None => None end
                   else None
  | "" => None
  end.

Fixpoint digits (s : string) : string * string :=
  match s with
  | String c s' => if is_digit c then let '(d, r) := digits s' in (String c d, r) else ("", s)
  | "" => ("", "")
  end.
Definition p_minus (s : string) : string * string :=
  match s with String c s' => if bool_decide (c = "-"%char) then ("-", s') else ("", s) | "" => ("", "") end.
(** The whole part: one zero, or digits that do not start with one. *)
Definition p_whole (s : string) : option (string * string) :=
  match s with
  | String c s' => if bool_decide (c = "0"%char) then Some ("0", s')
                   else if is_digit c then Some (digits s) else None
  | "" => None
  end.
Definition p_fraction (s : string) : option (string * string) :=
  match s with
  | String c s' =>
    if bool_decide (c = "."%char) then
      let '(d, r) := digits s' in if bool_decide (d = "") then None else Some (String c d, r)
    else Some ("", s)
  | "" => Some ("", "")
  end.
Definition p_sign (s : string) : string * string :=
  match s with
  | String c s' => if bool_decide (c = "+"%char ∨ c = "-"%char) then (String c "", s') else ("", s)
  | "" => ("", "")
  end.
Definition p_exponent (s : string) : option (string * string) :=
  match s with
  | String c s' =>
    if bool_decide (c = "e"%char ∨ c = "E"%char) then
      let '(g, r) := p_sign s' in let '(d, r) := digits r in
      if bool_decide (d = "") then None else Some (String c (g +:+ d), r)
    else Some ("", s)
  | "" => Some ("", "")
  end.
Definition p_number (s : string) : option (string * string) :=
  let '(m, s) := p_minus s in
  match p_whole s with
  | Some (w, s) =>
    match p_fraction s with
    | Some (f, s) =>
      match p_exponent s with Some (e, s) => Some (m +:+ w +:+ f +:+ e, s) | None => None end
    | None => None
    end
  | None => None
  end.

Definition strip (p s : string) : option string :=
  if String.prefix p s then Some (str_drop (String.length p) s) else None.

(** [eat c s]: [s] after white space and the character [c]. *)
Definition eat (c : ascii) (s : string) : option string :=
  match skip_ws s with String d s' => if bool_decide (d = c) then Some s' else None | "" => None end.

Fixpoint p_value (n : nat) (s : string) : option (json * string) :=
  match n with
  | O => None
  | S n =>
    match skip_ws s with
    | "" => None
    | String c s' =>
      if bool_decide (c = "{"%char) then
        match eat "}" s' with
        | Some r => Some (JObj [], r)
        | None => match p_members n s' with Some (m, r) => Some (JObj m, r) | None => None end
        end
      else if bool_decide (c = "["%char) then
        match eat "]" s' with
        | Some r => Some (JArr [], r)
        | None => match p_elements n s' with Some (l, r) => Some (JArr l, r) | None => None end
        end
      else if bool_decide (c = dquote) then
        match p_string (String c s') with Some (t, r) => Some (JStr t, r) | None => None end
      else if bool_decide (c = "t"%char) then
        match strip "true" (String c s') with Some r => Some (JBool true, r) | None => None end
      else if bool_decide (c = "f"%char) then
        match strip "false" (String c s') with Some r => Some (JBool false, r) | None => None end
      else if bool_decide (c = "n"%char) then
        match strip "null" (String c s') with Some r => Some (JNull, r) | None => None end
      else match p_number (String c s') with Some (t, r) => Some (JNum t, r) | None => None end
    end
  end
with p_elements (n : nat) (s : string) : option (list json * string) :=
  match n with
  | O => None
  | S n =>
    match p_value n s with
    | None => None
    | Some (v, r) =>
      match eat "," r with
      | Some r => match p_elements n r with Some (l, r) => Some (v :: l, r) | None => None end
      | None => match eat "]" r with Some r => Some ([v], r) | None => None end
      end
    end
  end
with p_members (n : nat) (s : string) : option (list (string * json) * string) :=
  match n with
  | O => None
  | S n =>
    match p_string (skip_ws s) with
    | None => None
    | Some (k, r) =>
      match eat ":" r with
      | None => None
      | Some r =>
        match p_value n r with
        | None => None
        | Some (v, r) =>
          match eat "," r with
          | Some r => match p_members n r with Some (m, r) => Some ((k, v) :: m, r) | None => None end
          | None => match eat "}" r with Some r => Some ([(k, v)], r) | None => None end
          end
        end
      end
    end
  end.

(** Two units of fuel per byte are enough: [p_value] takes one and its helpers one
    before the next byte is consumed. *)
Definition fuel (s : string) : nat := S (2 * String.length s).

(** [json.Unmarshal] into an [any]; [None] for a syntax error. *)
Definition Unmarshal (s : string) : option json :=
  match p_value (fuel s) s with
  | Some (v, r) => if bool_decide (skip_ws r = "") then Some v else None
  | None => None
  end.
Definition Valid (s : string) : bool := bool_decide (is_Some (Unmarshal s)).

(** ** Encoding *)
Definition hex_digit (z : Z) : ascii :=
  if z <? 10 then byte (ascii_code "0" + z) else byte (ascii_code "a" + (z - 10)).
Definition esc (t : string) : string := String "\" t.
Definition escape_char (c : ascii) : string :=
  if bool_decide (c = dquote) then esc (String dquote "")
  else if bool_decide (c = "\"%char) then esc "\"
  else if bool_decide (c = "008"%char) then esc "b"
  else if bool_decide (c = "012"%char) then esc "f"
  else if bool_decide (c = newline) then esc "n"
  else if bool_decide (c = "013"%char) then esc "r"
  else if bool_decide (c = "009"%char) then esc "t"
  else if (ascii_code c <? 0x20) || bool_decide (c ∈ ["<"; ">"; "&"]%char) then
    esc ("u00" +:+ String (hex_digit (ascii_code c / 16)) (String (hex_digit (ascii_code c mod 16)) ""))
  else String c "".
Definition line_separator : string := String "226" (String "128" (String "168" "")).
Definition paragraph_separator : string := String "226" (String "128" (String "169" "")).
Definition escape_rune (r : string) : string :=
  match r with
  | String c "" => escape_char c
  | _ => if bool_decide (r = line_separator) then esc "u2028"
         else if bool_decide (r = paragraph_separator) then esc "u2029" else r
  end.
(** Bytes that are not UTF-8 are written as the character U+FFFD, where Go writes
    its escape. *)
Definition quote_text (s : string) : string :=
  String dquote (str_join "" (map escape_rune (runes s)) +:+ String dquote "").

Fixpoint Marshal (v : json) : string :=
  match v with
  | JNull => "null"
  | JBool b => if b then "true" else "false"
  | JNum lit => lit
  | JStr s => quote_text s
  | JArr l => "[" +:+ str_join "," (map Marshal l) +:+ "]"
  | JObj m => "{" +:+ str_join "," (map (λ kv, quote_text kv.1 +:+ ":" +:+ Marshal kv.2) m) +:+ "}"
  end.

(** ** Fields of a struct

    A key matches the name of a field up to case, with the two letters outside ASCII
    that fold into it; of several matches the last one counts, and [null] leaves the
    field as it is.  [None]: the value is not of the type of the field. *)
Definition fold_rune (r : string) : string :=
  match r with
  | String c "" => String (lower_char c) ""
  | _ => if bool_decide (r = String "197" (String "191" "")) then "s"
         else if bool_decide (r = String "226" (String "132" (String "170" ""))) then "k" else r
  end.
Definition fold_name (s : string) : string := str_join "" (map fold_rune (runes s)).

Section Field.
Context {A : Type} (read : json → option A).
Fixpoint field_from (name : string) (d : A) (m : list (string * json)) : option A :=
  match m with
  | [] => Some d
  | (k, v) :: m =>
    if bool_decide (fold_name k = fold_name name) then
      match v with
      | JNull => field_from name d m
      | _ => match read v with Some a => field_from name a m | None => None end
      end
    else field_from name d m
  end.
End Field.

Definition as_string (v : json) : option string := match v with JStr s => Some s | _ => None end.
Definition as_bool (v : json) : option bool := match v with JBool b => Some b | _ => None end.
(** A number is stored in an [int] if its literal is one of an [int64]. *)
Definition as_int (v : json) : option Z := match v with JNum lit => Atoi lit | _ => None end.

(** The entries of a value that is decoded into a struct. *)
Definition entries (v : json) : option (list (string * json)) :=
  match v with JObj m => Some m | JNull => Some [] | _ => None end.

(** [json.Unmarshal] into a struct: each field of [config] is one [string_field],
    [int_field] or [bool_field] of the entries. *)
Definition config (s : string) : option (list (string * json)) :=
  match Unmarshal s with Some v => entries v | None => None end.
Definition string_field (name : string) (m : list (string * json)) : option string := field_from as_string name "" m.
Definition int_field (name : string) (m : list (string * json)) : option Z := field_from as_int name 0 m.
Definition bool_field (name : string) (m : list (string * json)) : option bool := field_from as_bool name false m.

(** The entry of a Go map decoded from an object: the last one with that key. *)
Definition member (k : string) (m : list (string * json)) : option json :=
  foldl (λ r kv, if bool_decide (kv.1 = k) then Some kv.2 else r) None m.

Lemma member_is_Some k m : k ∈ m.*1 ↔ is_Some (member k m).
Proof.
  unfold member. induction m as [|[k' v'] m IH] using rev_ind; [cbn; split; [set_solver|by intros [? ?]]|].
  rewrite fmap_app, elem_of_app, foldl_app, IH. cbn. rewrite list_elem_of_singleton. case_bool_decide as E; cbn in E.
  - subst. split; [by eexists|by right].
  - split; [|by left]. intros [Hs|Hs]; [done|congruence].
Qed.

Example decoded :
  Unmarshal (" {" +:+ quote_text "a" +:+ ": [1, -2.5e3, true, null] , " +:+ quote_text "b" +:+ ":" +:+
             String dquote ("x" +:+ esc "u00e9" +:+ esc "ud83d" +:+ esc "ude00" +:+ esc "n" +:+ String dquote "") +:+ "} ")
  = Some (JObj [("a", JArr [JNum "1"; JNum "-2.5e3"; JBool true; JNull]);
                ("b", JStr ("x" +:+ String "195" (String "169" "") +:+
                            String "240" (String "159" (String "152" (String "128" (String "010" ""))))))]).
Proof. vm_compute. reflexivity. Qed.
Example rejected : Unmarshal "[1,]" = None ∧ Unmarshal "01" = None ∧ Unmarshal "{} x" = None ∧ Unmarshal "" = None.
Proof. vm_compute. auto. Qed.

(** ** What is encoded is decoded to the same value *)

Definition num_ok (lit : string) : Prop := p_number lit = Some (lit, "").
Definition text_ok (s : string) : Prop := coerce s = s.
Fixpoint json_ok (v : json) : Prop :=
  match v with
  | JNum lit => num_ok lit
  | JStr s => text_ok s
  | JArr l => foldr and True (map json_ok l)
  | JObj m => foldr and True (map (λ kv, text_ok kv.1 ∧ json_ok kv.2) m)
  | _ => True
  end.

(** What may follow a value inside a text. *)
Definition ends (rest : string) : Prop :=
  match rest with "" => True | String c _ => c ∈ [","; "]"; "}"]%char end.

Lemma foldr_and_Forall {A} (P : A → Prop) l : foldr and True (map P l) ↔ Forall P l.
Proof. induction l as [|x l IH]; cbn; [by rewrite Forall_nil|]. by rewrite IH, Forall_cons. Qed.

Lemma ends_cases c r : ends (String c r) → c = ","%char ∨ c = "]"%char ∨ c = "}"%char.
Proof. cbn [ends]. set_solver. Qed.

(** *** Numbers *)
Lemma ends_not_digit rest : ends rest → digits rest = ("", rest).
Proof. destruct rest as [|c r]; [done|]. intros Hc. by destruct (ends_cases c r Hc) as [E|[E|E]]; subst. Qed.

Lemma digits_app s rest d r : digits s = (d, r) → (r = "" → digits rest = ("", rest)) →
  digits (s +:+ rest) = (d, r +:+ rest).
Proof.
  revert d r. induction s as [|c s IH]; intros d r; cbn.
  - intros [= <- <-] H. by apply H.
  - rewrite str_app_cons. cbn. destruct (is_digit c).
    + destruct (digits s) as [d' r'] eqn:E. intros [= <- <-] H. by rewrite (IH d' r').
    + by intros [= <- <-] _.
Qed.

Lemma p_exponent_app s rest e : ends rest → p_exponent s = Some (e, "") →
  p_exponent (s +:+ rest) = Some (e, rest).
Proof.
  intros He. destruct s as [|c s]; cbn.
  - intros [= <-]. destruct rest as [|c r]; [done|]. by destruct (ends_cases c r He) as [E|[E|E]]; subst.
  - rewrite str_app_cons. cbn. case_bool_decide; [|by intros [= _ ?]].
    destruct (p_sign s) as [g r] eqn:Eg. destruct (digits r) as [d r'] eqn:Ed. case_bool_decide; [done|].
    intros [= <- ->].
    assert (p_sign (s +:+ rest) = (g, r +:+ rest)) as ->.
    { destruct s as [|x s]; cbn in *; [|rewrite str_app_cons; cbn; case_bool_decide; by simplify_eq].
      simplify_eq. cbn in Ed. by simplify_eq. }
    rewrite (digits_app r rest d "" Ed) by (intros _; by apply ends_not_digit).
    by rewrite bool_decide_eq_false_2.
Qed.

Lemma p_fraction_app s rest f r : ends rest → p_fraction s = Some (f, r) →
  p_fraction (s +:+ rest) = Some (f, r +:+ rest).
Proof.
  intros He. destruct s as [|c s]; cbn.
  - intros [= <- <-]. destruct rest as [|c r']; [done|]. by destruct (ends_cases c r' He) as [E|[E|E]]; subst.
  - rewrite str_app_cons. cbn. case_bool_decide; [|by intros [= <- <-]].
    destruct (digits s) as [d r'] eqn:Ed. case_bool_decide as Hd; [done|]. intros [= <- <-].
    rewrite (digits_app s rest d r' Ed) by (intros _; by apply ends_not_digit).
    by rewrite bool_decide_eq_false_2.
Qed.

Lemma p_whole_app s rest w r : ends rest → p_whole s = Some (w, r) → p_whole (s +:+ rest) = Some (w, r +:+ rest).
Proof.
  intros He. destruct s as [|c s]; [done|]. unfold p_whole at 1. rewrite str_app_cons. unfold p_whole.
  case_bool_decide; [by intros [= <- <-]|]. destruct (is_digit c) eqn:Ec; [|done]. intros [= Hd].
  rewrite <- str_app_cons. f_equal. apply digits_app; [done|]. intros _. by apply ends_not_digit.
Qed.

Lemma p_number_app lit rest : ends rest → num_ok lit → p_number (lit +:+ rest) = Some (lit, rest).
Proof.
  intros He. unfold num_ok, p_number.
  assert (∀ m s, p_minus lit = (m, s) → s ≠ "" → p_minus (lit +:+ rest) = (m, s +:+ rest)) as Hm.
  { intros m s. destruct lit as [|c l]; cbn; [by intros [= <- <-]|]. rewrite str_app_cons. cbn.
    case_bool_decide; by intros [= <- <-] _. }
  destruct (p_minus lit) as [m s] eqn:Em. destruct (p_whole s) as [[w s1]|] eqn:Ew; [|done].
  rewrite (Hm m s); [|done|by intros ->].
  rewrite (p_whole_app s rest w s1) by done. destruct (p_fraction s1) as [[f s2]|] eqn:Ef; [|done].
  rewrite (p_fraction_app s1 rest f s2) by done. destruct (p_exponent s2) as [[e s3]|] eqn:Ee; [|done].
  intros [= Hl ->]. by rewrite (p_exponent_app s2 rest e), Hl.
Qed.

(** The first character of a number decides how it is read. *)
Lemma num_ok_head lit : num_ok lit → ∃ c l, lit = String c l ∧ (c = "-"%char ∨ is_digit c = true).
Proof.
  unfold num_ok, p_number. destruct lit as [|c l]; [done|]. intros H. exists c, l. split; [done|].
  cbn in H. case_bool_decide; [by left|]. right. cbn in H. case_bool_decide; [by subst|].
  by destruct (is_digit c).
Qed.

(** *** Strings *)
Definition multi (r : string) : Prop := str_all (λ c, 0x80 <=? ascii_code c) r = true.
Definition rune_ok (r : string) : Prop := (∃ c, r = String c "") ∨ multi r.

Lemma p_chars_plain r t : multi r → p_chars (r +:+ t) = cons_text r (p_chars t).
Proof.
  unfold multi. induction r as [|c r IH]; cbn [str_all]; intros H.
  - rewrite str_app_nil_l. by destruct (p_chars t) as [[? ?]|].
  - apply andb_true_iff in H as [Hc Hr]. rewrite str_app_cons. cbn [p_chars].
    apply Z.leb_le in Hc. rewrite !bool_decide_eq_false_2 by (intros ->; by apply Hc).
    destruct (ascii_code c <? 0x20) eqn:E; [lia|]. rewrite IH by done.
    by destruct (p_chars t) as [[? ?]|].
Qed.

Lemma p_chars_escape c t : p_chars (escape_char c +:+ t) = cons_text (String c "") (p_chars t).
Proof.
  assert (∀ d, p_chars (escape_char d +:+ t) = cons_text (String d "") (p_chars t)) as H; [|apply H]. clear c.
  intros c. destruct c as [[] [] [] [] [] [] [] []]; reflexivity.
Qed.

Lemma p_chars_rune r t : rune_ok r → p_chars (escape_rune r +:+ t) = cons_text r (p_chars t).
Proof.
  intros [[c ->]|Hm]; [apply p_chars_escape|]. destruct r as [|c [|d r]].
  - rewrite <- p_chars_plain by done. reflexivity.
  - apply p_chars_escape.
  - unfold escape_rune. case_bool_decide as E; [rewrite E; reflexivity|].
    case_bool_decide as E2; [rewrite E2; reflexivity|]. by apply p_chars_plain.
Qed.

Lemma runes_from_ok n s : Forall rune_ok (runes_from n s).
Proof.
  revert n. induction s as [|a s IH]; intros n; [by destruct n|].
  destruct n; cbn [runes_from]; [|apply IH].
  destruct (rune_size a s) as [k|] eqn:E; [|constructor; [right; reflexivity|apply IH]].
  constructor; [|apply IH].
  unfold rune_size, cont, between in E. unfold rune_ok, multi.
  destruct ((0 <=? ascii_code a) && (ascii_code a <=? 0x7F)) eqn:E1; [injection E as <-; left; by exists a|right].
  assert (0 ≤ ascii_code a) by (unfold ascii_code; lia).
  assert (0x80 ≤ ascii_code a) as Ha by lia.
  destruct s as [|b s]; [done|]. destruct s as [|c s]; [|destruct s as [|d s]];
  repeat match type of E with
  | (if ?x then _ else _) = _ => let Hx := fresh "Hx" in destruct x eqn:Hx
  | Some _ = Some _ => injection E as <-
  | None = Some _ => discriminate
  end; cbn [str_take str_all]; rewrite ?andb_true_iff in *;
  repeat match goal with Hx : context [if ?x then _ else _] |- _ => destruct x eqn:? end; lia.
Qed.

Lemma p_chars_quote rs rest : Forall rune_ok rs →
  p_chars (str_join "" (map escape_rune rs) +:+ String dquote rest) = Some (str_join "" rs, rest).
Proof.
  induction 1 as [|r rs Hr _ IH]; [done|].
  assert (∀ x l, str_join "" (x :: l) = x +:+ str_join "" l) as Hj.
  { intros x [|y l]; [by rewrite str_app_nil_r|]. by rewrite str_join_cons. }
  cbn [map]. rewrite !Hj, str_app_assoc, p_chars_rune, IH by done. done.
Qed.

Lemma p_string_quote s rest : text_ok s → p_string (quote_text s +:+ rest) = Some (s, rest).
Proof.
  intros Hs. unfold quote_text, p_string. rewrite str_app_cons, str_app_assoc, str_app_cons, str_app_nil_l.
  rewrite bool_decide_eq_true_2 by done. rewrite p_chars_quote by apply runes_from_ok. f_equal. f_equal.
  fold (coerce s). by rewrite Hs, Hs.
Qed.

(** *** Values *)
Definition head_is (P : ascii → Prop) (s : string) : Prop := match s with "" => False | String c _ => P c end.

Lemma skip_ws_head s t : head_is (λ c, is_ws c = false) s → skip_ws (s +:+ t) = s +:+ t.
Proof. destruct s as [|c s]; [done|]. cbn. intros Hc. rewrite str_app_cons. cbn. by rewrite Hc. Qed.

Lemma Marshal_head v : json_ok v →
  head_is (λ c, is_ws c = false ∧ c ≠ "]"%char ∧ c ≠ "}"%char) (Marshal v).
Proof.
  destruct v as [|[]|lit|s|l|m]; cbn; try done. intros (c & l & -> & [->|Hc])%num_ok_head; [done|].
  cbn. destruct c as [[] [] [] [] [] [] [] []]; done.
Qed.

Lemma head_weaken (P Q : ascii → Prop) s : (∀ c, P c → Q c) → head_is P s → head_is Q s.
Proof. destruct s; cbn; auto. Qed.

Lemma eat_skip c s t : head_is (λ d, is_ws d = false ∧ d ≠ c) s → eat c (s +:+ t) = None.
Proof.
  destruct s as [|d s]; [done|]. cbn. intros [H1 H2]. unfold eat. rewrite str_app_cons. cbn. rewrite H1.
  by rewrite bool_decide_eq_false_2.
Qed.

Lemma strip_app p t : strip p (p +:+ t) = Some t.
Proof.
  unfold strip. replace (String.prefix p (p +:+ t)) with true by (symmetry; apply prefix_iff; eauto).
  by rewrite str_drop_app_exact.
Qed.

(** A value with room for its own text and one unit to spare. *)
Definition parses (v : json) : Prop := ∀ n rest,
  (2 * String.length (Marshal v) < n)%nat → ends rest → p_value n (Marshal v +:+ rest) = Some (v, rest).

Lemma join_cons2 a b l : str_join "," (a :: b :: l) = a +:+ "," +:+ str_join "," (b :: l).
Proof. by rewrite (str_join_cons "," a (b :: l)). Qed.

Lemma p_elements_print l n rest : l ≠ [] → Forall (λ v, json_ok v ∧ parses v) l →
  (2 * String.length (str_join "," (map Marshal l)) + 1 < n)%nat →
  p_elements n (str_join "," (map Marshal l) +:+ "]" +:+ rest) = Some (l, rest).
Proof.
  revert n. induction l as [|v [|w l] IH]; intros n Hne Hl Hn; [done| |];
    apply Forall_cons in Hl as [[Hok Hv] Hl]; (destruct n as [|n]; [lia|]); cbn [p_elements].
  - cbn [map str_join] in *. rewrite Hv; [reflexivity|lia|cbn; set_solver].
  - cbn [map] in *. rewrite join_cons2 in *. rewrite !str_length_app in Hn. rewrite !str_app_assoc, Hv;
      [|lia|cbn; set_solver].
    change (eat "," ("," +:+ ?t)) with (Some t). cbn iota.
    change (String.length ",") with 1%nat in Hn. rewrite (IH n); [done|done|done|lia].
Qed.

Definition member_text (kv : string * json) : string := quote_text kv.1 +:+ ":" +:+ Marshal kv.2.

Lemma p_members_print m n rest : m ≠ [] → Forall (λ kv, text_ok kv.1 ∧ json_ok kv.2 ∧ parses kv.2) m →
  (2 * String.length (str_join "," (map member_text m)) + 1 < n)%nat →
  p_members n (str_join "," (map member_text m) +:+ "}" +:+ rest) = Some (m, rest).
Proof.
  assert (∀ k t, skip_ws (quote_text k +:+ t) = quote_text k +:+ t) as Hq by (intros; by apply skip_ws_head).
  revert n. induction m as [|[k v] [|w m] IH]; intros n Hne Hm Hn; [done| |];
    apply Forall_cons in Hm as [(Hk & Hok & Hv) Hm]; (destruct n as [|n]; [lia|]); cbn [p_members]; cbn [fst snd] in *.
  - cbn [map str_join] in *. unfold member_text in *. cbn [fst snd] in *. rewrite !str_length_app in Hn.
    rewrite !str_app_assoc, Hq, p_string_quote by done.
    change (eat ":" (":" +:+ ?t)) with (Some t). cbn iota. rewrite Hv; [reflexivity|lia|cbn; set_solver].
  - cbn [map] in *. rewrite join_cons2 in *. rewrite !str_length_app in Hn. unfold member_text at 1 in Hn.
    cbn [fst snd] in Hn. rewrite !str_length_app in Hn. unfold member_text at 1. cbn [fst snd].
    rewrite !str_app_assoc, Hq, p_string_quote by done.
    change (eat ":" (":" +:+ ?t)) with (Some t). cbn iota. rewrite Hv; [|lia|cbn; set_solver].
    change (eat "," ("," +:+ ?t)) with (Some t). cbn iota.
    change (String.length ",") with 1%nat in Hn. rewrite (IH n); [done|done|done|lia].
Qed.

Lemma parses_ok v : json_ok v → parses v.
Proof.
  induction v as [|b|lit|s|l IH|m IH] using json_nested_ind; intros Hok n rest Hn Hr; (destruct n as [|n]; [lia|]).
  - change (match strip "null" ("null" +:+ rest) with Some r => Some (JNull, r) | None => None end = Some (JNull, rest)).
    by rewrite strip_app.
  - destruct b.
    + change (match strip "true" ("true" +:+ rest) with Some r => Some (JBool true, r) | None => None end = Some (JBool true, rest)).
      by rewrite strip_app.
    + change (match strip "false" ("false" +:+ rest) with Some r => Some (JBool false, r) | None => None end = Some (JBool false, rest)).
      by rewrite strip_app.
  - cbn [Marshal] in *. pose proof (p_number_app lit rest Hr Hok) as Hp.
    destruct (num_ok_head lit Hok) as (c & t & -> & Hc). cbn [p_value].
    rewrite str_app_cons in *. cbn [skip_ws].
    assert (is_ws c = false ∧ c ∉ ["{"; "["; dquote; "t"; "f"; "n"]%char) as [Hw Hi].
    { destruct Hc as [->|Hc]; [split; [done|set_solver]|].
      destruct c as [[] [] [] [] [] [] [] []]; try done; split; done || (set_unfold; intuition discriminate). }
    rewrite Hw, !bool_decide_eq_false_2 by set_solver. by rewrite Hp.
  - cbn [Marshal p_value]. rewrite (skip_ws_head (quote_text s)) by done.
    pose proof (p_string_quote s rest Hok) as Hp. unfold quote_text in *. rewrite str_app_cons in *.
    cbn iota. rewrite !(bool_decide_eq_false_2 (dquote = _)) by done.
    rewrite bool_decide_eq_true_2 by done. by rewrite Hp.
  - cbn [json_ok] in Hok. apply foldr_and_Forall in Hok. cbn [Marshal p_value] in *.
    rewrite !str_app_assoc. change (skip_ws ("[" +:+ ?t)) with (String "[" t). cbn iota.
    rewrite !(bool_decide_eq_false_2 ("["%char = "{"%char)), bool_decide_eq_true_2 by done.
    destruct l as [|v l]; [reflexivity|]. rewrite !str_length_app in Hn.
    change (String.length "[") with 1%nat in Hn. change (String.length "]") with 1%nat in Hn.
    pose proof (Marshal_head v (Forall_inv Hok)) as Hh.
    assert (∀ t, eat "]" (str_join "," (map Marshal (v :: l)) +:+ t) = None) as ->.
    { intros t. apply eat_skip. destruct l as [|w l]; cbn [map]; [cbn [str_join]|rewrite join_cons2];
      revert Hh; destruct (Marshal v); rewrite ?str_app_cons; cbn [head_is]; tauto. }
    rewrite (p_elements_print (v :: l) n rest); [done|done| |lia].
    rewrite Forall_forall in *. intros x Hx. split; [by apply Hok|]. apply IH; [done|by apply Hok].
  - cbn [json_ok] in Hok. apply (foldr_and_Forall (λ kv, text_ok kv.1 ∧ json_ok kv.2)) in Hok. cbn [Marshal p_value] in *.
    fold member_text in *. rewrite !str_app_assoc. change (skip_ws ("{" +:+ ?t)) with (String "{" t). cbn iota.
    rewrite bool_decide_eq_true_2 by done.
    destruct m as [|kv m]; [reflexivity|]. rewrite !str_length_app in Hn.
    change (String.length "{") with 1%nat in Hn. change (String.length "}") with 1%nat in Hn.
    assert (∀ t, eat "}" (str_join "," (map member_text (kv :: m)) +:+ t) = None) as ->.
    { intros t. apply eat_skip. by destruct m as [|w m]. }
    rewrite (p_members_print (kv :: m) n rest); [done|done| |lia].
    rewrite Forall_forall in *. intros x Hx. split; [by apply Hok|]. split; [by apply Hok|]. apply IH; [done|by apply Hok].
Qed.

(** What is encoded is decoded to the same value. *)
Lemma Marshal_roundtrip v : json_ok v → Unmarshal (Marshal v) = Some v.
Proof.
  intros Hok. pose proof (parses_ok v Hok (fuel (Marshal v)) "" ltac:(unfold fuel; lia) I) as Hp.
  rewrite str_app_nil_r in Hp. unfold Unmarshal. by rewrite Hp.
Qed.

(** ** The fuel is enough

    Every reader consumes its text, so that more fuel than [fuel] gives never
    changes the answer. *)
Abbreviation slen := String.length.

Lemma skip_ws_le s : (slen (skip_ws s) ≤ slen s)%nat.
Proof. induction s as [|c s IH]; cbn; [lia|]. destruct (is_ws c); cbn; lia. Qed.
Lemma eat_lt c s r : eat c s = Some r → (slen r < slen s)%nat.
Proof.
  unfold eat. pose proof (skip_ws_le s). destruct (skip_ws s) as [|d t]; [done|]. case_bool_decide; [|done].
  intros [= <-]. cbn in *. lia.
Qed.
Lemma cons_text_Some t x s r : cons_text t x = Some (s, r) → ∃ s', x = Some (s', r).
Proof. unfold cons_text. destruct x as [[s' r']|]; [|done]. intros [= <- <-]. eauto. Qed.
Lemma p_chars_le n s t r : (slen s ≤ n)%nat → p_chars s = Some (t, r) → (slen r < slen s)%nat.
Proof.
  revert s t r. induction n as [|n IH]; intros [|c s] t r Hn; [done|cbn in Hn; lia|done|]. cbn in Hn.
  cbn [p_chars]. intros Hp.
  repeat match type of Hp with
  | (if ?b then _ else _) = _ => destruct b
  | match ?x with "" => _ | String _ _ => _ end = _ => is_var x; destruct x
  | match hex4 ?a ?b ?c ?d with Some _ => _ | None => _ end = _ => destruct (hex4 a b c d)
  | match short_escape ?e with Some _ => _ | None => _ end = _ => destruct (short_escape e)
  | cons_text _ _ = _ => apply cons_text_Some in Hp as [? Hp]; apply IH in Hp; cbn in *; lia
  | Some _ = Some _ => injection Hp as <- <-; cbn; lia
  | None = Some _ => discriminate
  end.
Qed.
Lemma p_string_lt s t r : p_string s = Some (t, r) → (slen r < slen s)%nat.
Proof.
  unfold p_string. destruct s as [|c s]; [done|]. case_bool_decide; [|done].
  destruct (p_chars s) as [[raw r']|] eqn:E; [|done]. intros [= <- <-]. apply (p_chars_le (slen s)) in E; cbn; lia.
Qed.
Lemma digits_le s d r : digits s = (d, r) → (slen r ≤ slen s)%nat ∧ (d ≠ "" → slen r < slen s)%nat.
Proof.
  revert d r. induction s as [|c s IH]; cbn; intros d r; [intros [= <- <-]; done|].
  destruct (is_digit c); [|intros [= <- <-]; cbn; split; [lia|done]].
  destruct (digits s) as [d' r'] eqn:E. intros [= <- <-]. destruct (IH d' r' eq_refl). split; intros; lia.
Qed.
Lemma p_whole_lt s w r : p_whole s = Some (w, r) → (slen r < slen s)%nat.
Proof.
  unfold p_whole. destruct s as [|c s]; [done|]. case_bool_decide; [intros [= <- <-]; cbn; lia|].
  destruct (is_digit c) eqn:E; [|done]. intros [= Hw]. destruct (digits_le (String c s) w r Hw) as [_ Hd]. apply Hd.
  cbn in Hw. rewrite E in Hw. destruct (digits s). by simplify_eq.
Qed.
Lemma p_number_lt s t r : p_number s = Some (t, r) → (slen r < slen s)%nat.
Proof.
  unfold p_number. destruct (p_minus s) as [m s1] eqn:Em.
  assert (slen s1 ≤ slen s)%nat.
  { destruct s as [|c s]; cbn in Em; [by simplify_eq|]. case_bool_decide; simplify_eq; cbn; lia. }
  destruct (p_whole s1) as [[w s2]|] eqn:Ew; [|done]. apply p_whole_lt in Ew.
  destruct (p_fraction s2) as [[f s3]|] eqn:Ef; [|done].
  assert (slen s3 ≤ slen s2)%nat.
  { destruct s2 as [|c s2]; cbn in Ef; [by simplify_eq|]. case_bool_decide; [|by simplify_eq].
    destruct (digits s2) as [d r2] eqn:Ed. apply digits_le in Ed as [? _]. case_bool_decide; simplify_eq. cbn; lia. }
  destruct (p_exponent s3) as [[e s4]|] eqn:Ee; [|done]. intros [= <- <-].
  enough (slen s4 ≤ slen s3)%nat by lia.
  destruct s3 as [|c s3]; cbn in Ee; [by simplify_eq|]. case_bool_decide; [|by simplify_eq].
  destruct (p_sign s3) as [g r3] eqn:Eg. destruct (digits r3) as [d r4] eqn:Ed.
  apply digits_le in Ed as [? _]. case_bool_decide; simplify_eq.
  destruct s3 as [|x s3]; cbn in Eg; [simplify_eq; cbn in *; lia|]. case_bool_decide; simplify_eq; cbn in *; lia.
Qed.
Lemma strip_lt a p s r : strip (String a p) s = Some r → (slen r < slen s)%nat.
Proof.
  intros H. unfold strip in H. destruct (String.prefix (String a p) s) eqn:E; [|done].
  apply prefix_iff in E as [t ->]. rewrite str_drop_app_exact in H by done. simplify_eq.
  rewrite str_length_app. cbn [String.length]. lia.
Qed.

Definition settled {A} (p : nat → string → option (A * string)) (extra : nat) (n : nat) : Prop :=
  ∀ s v r, p n s = Some (v, r) →
    (slen r < slen s)%nat ∧ ∀ m, (2 * slen s + extra < m)%nat → p m s = Some (v, r).

Lemma p_value_settled n :
  settled p_elements 1 n → settled p_members 1 n → settled p_value 0 (S n).
Proof.
  intros He Hm s v r Hp. cbn [p_value] in Hp. pose proof (skip_ws_le s) as Hs.
  destruct (skip_ws s) as [|c s'] eqn:Es; [done|]. cbn in Hs.
  enough ((slen r < slen s)%nat ∧ ∀ m, (2 * slen s ≤ m)%nat → p_value (S m) s = Some (v, r)) as [Hr Hall].
  { split; [done|]. intros [|m] Hlt; [lia|]. apply Hall. lia. }
  cbn [p_value]. rewrite Es.
  repeat case_bool_decide; simplify_eq;
    repeat match type of Hp with
    | match ?x with Some _ => _ | None => _ end = _ =>
      let E := fresh "E" in
      match type of x with
      | option (_ * _) => destruct x as [[? ?]|] eqn:E
      | _ => destruct x as [?|] eqn:E
      end
    | Some _ = Some _ => injection Hp as <- <-
    | None = Some _ => discriminate
    end;
    repeat match goal with
    | H : eat _ _ = Some _ |- _ => pose proof (eat_lt _ _ _ H); revert H
    | H : p_string _ = Some _ |- _ => pose proof (p_string_lt _ _ _ H); revert H
    | H : p_number _ = Some _ |- _ => pose proof (p_number_lt _ _ _ H); revert H
    | H : strip _ _ = Some _ |- _ => pose proof (strip_lt _ _ _ _ H); revert H
    end; intros; cbn [String.length] in *;
    repeat match goal with
    | H : ?x = Some _ |- context [match ?x with Some _ => _ | None => _ end] => rewrite H
    | H : ?x = None |- context [match ?x with Some _ => _ | None => _ end] => rewrite H
    end;
    first [ split; [lia|done]
          | match goal with
            | H : p_members _ _ = Some _ |- _ => destruct (Hm _ _ _ H) as [? Ha]
            | H : p_elements _ _ = Some _ |- _ => destruct (He _ _ _ H) as [? Ha]
            end; split; [lia|]; intros; rewrite Ha by lia; done ].
Qed.

Lemma settled_all n : settled p_value 0 n ∧ settled p_elements 1 n ∧ settled p_members 1 n.
Proof.
  induction n as [|n (Hv & He & Hm)]; [by repeat split|]. split; [by apply p_value_settled|]. split.
  - intros s l r Hp. cbn [p_elements] in Hp. destruct (p_value n s) as [[v r1]|] eqn:Ev; [|done].
    destruct (Hv _ _ _ Ev) as [H1 Hv'].
    enough ((slen r < slen s)%nat ∧ ∀ m, (2 * slen s + 1 ≤ m)%nat → p_elements (S m) s = Some (l, r)) as [Hr Hall].
    { split; [done|]. intros [|m] Hlt; [lia|]. apply Hall. lia. }
    cbn [p_elements]. destruct (eat "," r1) as [r2|] eqn:E2.
    + pose proof (eat_lt _ _ _ E2). destruct (p_elements n r2) as [[l' r3]|] eqn:E3; [|done]. destruct (He _ _ _ E3) as [H3 He'].
      simplify_eq. split; [lia|]. intros m Hlt. rewrite Hv' by lia. rewrite E2. by rewrite He' by lia.
    + destruct (eat "]" r1) as [r2|] eqn:E3; [|done]. pose proof (eat_lt _ _ _ E3). simplify_eq.
      split; [lia|]. intros m Hlt. by rewrite Hv', E2, E3 by lia.
  - intros s l r Hp. cbn [p_members] in Hp. destruct (p_string (skip_ws s)) as [[k r0]|] eqn:Es; [|done].
    pose proof (p_string_lt _ _ _ Es). pose proof (skip_ws_le s).
    destruct (eat ":" r0) as [r1|] eqn:E1; [|done]. pose proof (eat_lt _ _ _ E1).
    destruct (p_value n r1) as [[v r2]|] eqn:Ev; [|done]. destruct (Hv _ _ _ Ev) as [? Hv'].
    enough ((slen r < slen s)%nat ∧ ∀ m, (2 * slen s + 1 ≤ m)%nat → p_members (S m) s = Some (l, r)) as [Hr Hall].
    { split; [done|]. intros [|m] Hlt; [lia|]. apply Hall. lia. }
    cbn [p_members]. rewrite Es, E1. destruct (eat "," r2) as [r3|] eqn:E2.
    + pose proof (eat_lt _ _ _ E2). destruct (p_members n r3) as [[l' r4]|] eqn:E3; [|done]. destruct (Hm _ _ _ E3) as [? Hm'].
      simplify_eq. split; [lia|]. intros m Hlt. rewrite Hv' by lia. rewrite E2. by rewrite Hm' by lia.
    + destruct (eat "}" r2) as [r3|] eqn:E3; [|done]. pose proof (eat_lt _ _ _ E3). simplify_eq.
      split; [lia|]. intros m Hlt. by rewrite Hv', E2, E3 by lia.
Qed.

(** If some amount of fuel reads a value, [fuel] reads the same one. *)
Lemma fuel_enough n s v r : p_value n s = Some (v, r) → p_value (fuel s) s = Some (v, r).
Proof. intros Hp. destruct (settled_all n) as [Hv _]. apply (Hv s v r Hp). unfold fuel. lia. Qed.
End Json.
