(* ===== verification/SafeIdent.v ===== *)
(** * SQL identifiers and file paths (internal/safeident)

    The package that every dynamically built SQL statement goes through.  The
    validators are translated check by check; the quoting functions are related
    to a lexer of SQL quoted tokens, which is what makes interpolating their
    results safe. *)

From S2P Require Import Prelude GoStrings.

(** ** Validation of identifiers *)

Module SafeIdent.

(** [identifierPattern], [^[a-zA-Z_][a-zA-Z0-9_]{0,63}$]. *)
Definition ident_start (c : ascii) : bool :=
  is_lower c || is_upper c || bool_decide (c = "_"%char).
Definition ident_char (c : ascii) : bool :=
  is_lower c || is_upper c || is_digit c || bool_decide (c = "_"%char).
Definition identifierPattern (s : string) : bool :=
  match s with
  | "" => false
  | String c s' => ident_start c && str_all ident_char s' && bool_decide (str_len s' ≤ 63)
  end.

Definition sqlKeywordBlacklist : list string := [
  "SELECT"; "INSERT"; "UPDATE"; "DELETE"; "DROP"; "CREATE"; "ALTER"; "TRUNCATE";
  "REPLACE"; "RENAME";
  "FROM"; "WHERE"; "SET"; "INTO"; "VALUES";
  "GRANT"; "REVOKE";
  "EXEC"; "EXECUTE"; "CALL";
  "TABLE"; "VIEW"; "INDEX"; "DATABASE"; "SCHEMA"; "FUNCTION"; "PROCEDURE";
  "TRIGGER"; "SEQUENCE";
  "COPY"; "ATTACH"; "DETACH"; "LOAD"; "INSTALL"; "UNINSTALL"; "EXPORT"; "IMPORT";
  "UNION"; "INTERSECT"; "EXCEPT";
  "PRAGMA"; "SUMMARIZE"; "DESCRIBE";
  "COMMIT"; "ROLLBACK"; "BEGIN";
  "TRUE"; "FALSE"; "NULL";
  "ORDER"; "GROUP"; "HAVING"; "LIMIT" ].

(** The errors of the package, with the values their messages print. *)
Inductive ident_error :=
| IdentEmpty
| IdentTooLong (len : Z) (id : string)
| IdentInvalidChars (id : string)
| IdentSpecialChars (id : string)
| IdentKeyword (id : string).

(** The explicit check for SQL special characters. *)
Definition has_sql_special (id : string) : bool :=
  str_contains id ";" || str_contains id "--" ||
  str_contains id (String squote "") || str_contains id (String dquote "") ||
  str_contains id "/*" || str_contains id "*/".

Definition ValidateIdentifier `{Unicode} (id : string) : option ident_error :=
  if bool_decide (id = "") then Some IdentEmpty
  else if bool_decide (str_len id > 64) then Some (IdentTooLong (str_len id) id)
  else if negb (identifierPattern id) then Some (IdentInvalidChars id)
  else if has_sql_special id then Some (IdentSpecialChars id)
  else if bool_decide (ToUpper id ∈ sqlKeywordBlacklist) then Some (IdentKeyword id)
  else None.

Definition ValidateColumnName (name : string) : option ident_error :=
  if bool_decide (name = "") then Some IdentEmpty
  else if bool_decide (str_len name > 64) then Some (IdentTooLong (str_len name) name)
  else if negb (identifierPattern name) then Some (IdentInvalidChars name)
  else if has_sql_special name then Some (IdentSpecialChars name)
  else None.

Definition ValidateStrictIdentifier `{Unicode} (id : string) : option ident_error :=
  ValidateIdentifier id.

(** ** File paths *)

(** [filepath.Clean] on Unix: drop empty and [.] elements, let [..] cancel the
    element before it (or vanish at the root), and write [.] for the empty path. *)
Definition clean_step (rooted : bool) (acc : list string) (e : string) : list string :=
  if bool_decide (e = "") || bool_decide (e = ".") then acc
  else if bool_decide (e = "..") then
    match acc with
    | top :: rest => if bool_decide (top = "..") then ".." :: acc else rest
    | [] => if rooted then [] else [".."]
    end
  else e :: acc.

Definition is_rooted (p : string) : bool := String.prefix "/" p.

Definition filepath_Clean (p : string) : string :=
  let rooted := is_rooted p in
  let elems := reverse (foldl (clean_step rooted) [] (str_split "/" p)) in
  let body := str_join "/" elems in
  if rooted then "/" +:+ body
  else if bool_decide (body = "") then "." else body.

Inductive path_error :=
| PathEmpty
| PathNotClean (p : string)
| PathTraversal (p : string)
| PathForbidden (c : ascii) (p : string).

(** The characters [SanitizeFilePath] refuses, in the order it tries them. *)
Definition forbidden_chars : list ascii :=
  [";"; "|"; "&"; "$"; "`"; "("; ")"; "<"; ">"; squote; newline; "013"]%char.

Fixpoint find_forbidden (cs : list ascii) (p : string) : option ascii :=
  match cs with
  | [] => None
  | c :: cs => if str_mem c p then Some c else find_forbidden cs p
  end.

Definition SanitizeFilePath (p : string) : option path_error :=
  if bool_decide (p = "") then Some PathEmpty
  else if bool_decide (filepath_Clean p ≠ p) then Some (PathNotClean p)
  else if str_contains p ".." then Some (PathTraversal p)
  else match find_forbidden forbidden_chars p with
       | Some c => Some (PathForbidden c p)
       | None => None
       end.

(** ** Quoting *)

Definition QuoteIdentifier (name : string) : string :=
  let escaped := replace_char dquote (String dquote (String dquote "")) name in
  String dquote escaped +:+ String dquote "".

Definition QuoteStringLiteral (s : string) : string :=
  String squote (replace_char squote (String squote (String squote "")) s)
    +:+ String squote "".

(** The SQL lexer for a token quoted with [q]: a doubled [q] inside the token
    is one [q], a single [q] ends it.  [lex_body] returns the token's contents
    and the text after it. *)
Fixpoint lex_body (q : ascii) (s : string) : option (string * string) :=
  match s with
  | "" => None
  | String c s1 =>
    if bool_decide (c = q) then
      match s1 with
      | String d s2 =>
        if bool_decide (d = q) then
          match lex_body q s2 with
          | Some (tok, rest) => Some (String q tok, rest)
          | None => None
          end
        else Some ("", s1)
      | "" => Some ("", "")
      end
    else
      match lex_body q s1 with
      | Some (tok, rest) => Some (String c tok, rest)
      | None => None
      end
  end.

Definition lex_quoted (q : ascii) (s : string) : option (string * string) :=
  match s with
  | String c s' => if bool_decide (c = q) then lex_body q s' else None
  | "" => None
  end.

(** ** Lemmas *)

Lemma identifierPattern_chars s :
  identifierPattern s = true → str_all ident_char s = true.
Proof.
  destruct s as [|c s]; [done|]. simpl. rewrite !andb_true_iff. intros [[Hc Hs] _].
  split; [|done]. revert Hc. unfold ident_start, ident_char.
  destruct (is_lower c), (is_upper c), (is_digit c); simpl; auto.
Qed.

Lemma ident_chars_no_special s :
  str_all ident_char s = true → has_sql_special s = false.
Proof.
  intros Hs. unfold has_sql_special.
  rewrite !orb_false_iff; repeat split; apply not_true_is_false; intros Hc;
    pose proof (str_all_contains _ _ _ Hs Hc) as Hx; by vm_compute in Hx.
Qed.

Lemma find_forbidden_None cs p :
  find_forbidden cs p = None ↔ ∀ c, c ∈ cs → str_mem c p = false.
Proof.
  induction cs as [|d cs IH]; simpl.
  - split; [|done]. intros _ c Hc. by apply elem_of_nil in Hc.
  - destruct (str_mem d p) eqn:E.
    + split; [done|]. intros Hall. specialize (Hall d). rewrite E in Hall.
      discriminate Hall. by left.
    + rewrite IH. split.
      * intros Hall c Hc. apply elem_of_cons in Hc as [->|]; auto.
      * intros Hall c Hc. apply Hall. by right.
Qed.

Lemma identifierPattern_len s : identifierPattern s = true → 1 ≤ str_len s ≤ 64.
Proof.
  destruct s as [|c s]; [done|]. simpl. rewrite !andb_true_iff, bool_decide_eq_true.
  unfold str_len. simpl. lia.
Qed.

Lemma ident_start_char c : ident_start c = ident_char c && negb (is_digit c).
Proof. by destruct c as [[] [] [] [] [] [] [] []]. Qed.

Lemma identifierPattern_iff s :
  identifierPattern s = true ↔
    1 ≤ str_len s ≤ 64 ∧ str_all ident_char s = true ∧
    match s with "" => False | String c _ => is_digit c = false end.
Proof.
  destruct s as [|c s]; [naive_solver|].
  simpl. rewrite ident_start_char, !andb_true_iff, negb_true_iff, bool_decide_eq_true.
  unfold str_len. simpl. naive_solver lia.
Qed.

Lemma ident_char_ascii c : ident_char c = true → is_ascii_char c = true.
Proof. by destruct c as [[] [] [] [] [] [] [] []]; intros H; vm_compute in H. Qed.

Lemma ToUpper_ident `{Unicode} s :
  str_all ident_char s = true → ToUpper s = str_map upper_char s.
Proof.
  intros Hs. unfold ToUpper.
  by rewrite (str_all_impl _ _ _ ident_char_ascii Hs).
Qed.

Lemma ident_pattern_equiv id (P : Prop) :
  (1 ≤ str_len id ≤ 64 ∧ str_all ident_char id = true ∧
   match id with "" => False | String c _ => is_digit c = false end ∧ P) ↔
  identifierPattern id = true ∧ P.
Proof. rewrite identifierPattern_iff. tauto. Qed.

Lemma replace_char_absent c r s : str_mem c s = false → replace_char c r s = s.
Proof.
  induction s as [|d s IH]; simpl; [done|].
  rewrite orb_false_iff, bool_decide_eq_false. intros [Hne Hs].
  rewrite bool_decide_eq_false_2 by congruence. by rewrite IH.
Qed.

(** Escaping then lexing gives the text back and stops at the closing quote,
    whatever follows it, as long as that is not another quote. *)
Lemma lex_body_escape q s rest :
  String.prefix (String q "") rest = false →
  lex_body q (replace_char q (String q (String q "")) s +:+ String q rest) = Some (s, rest).
Proof.
  intros Hrest. induction s as [|c s IH].
  - simpl. rewrite bool_decide_eq_true_2 by done.
    destruct rest as [|d rest]; [done|].
    destruct (decide (d = q)) as [->|Hd].
    + simpl in Hrest. destruct (ascii_dec q q); [|done]. by destruct rest.
    + by rewrite bool_decide_eq_false_2.
  - simpl. destruct (decide (c = q)) as [->|Hc].
    + rewrite bool_decide_eq_true_2 by done. rewrite !str_app_cons, !str_app_nil_l. simpl.
      rewrite !bool_decide_eq_true_2 by done. by rewrite IH.
    + rewrite bool_decide_eq_false_2 by done. rewrite str_app_cons. simpl.
      rewrite bool_decide_eq_false_2 by done. by rewrite IH.
Qed.

Lemma lex_quoted_quote q s rest :
  String.prefix (String q "") rest = false →
  lex_quoted q ((String q (replace_char q (String q (String q "")) s) +:+ String q "") +:+ rest)
  = Some (s, rest).
Proof.
  intros Hrest. rewrite str_app_cons, !str_app_cons, str_app_assoc.
  simpl. rewrite bool_decide_eq_true_2 by done. by apply lex_body_escape.
Qed.

(** ** Properties *)

(** [ValidateIdentifier] accepts exactly the strings of 1 to 64 bytes that
    start with an ASCII letter or underscore, continue with letters, digits and
    underscores, and do not spell an SQL keyword in any case; in particular the
    explicit search for SQL special characters never rejects anything the
    pattern lets through. *)
Theorem ValidateIdentifier_spec `{U : Unicode} (id : string) :
  ValidateIdentifier id = None ↔
    (1 ≤ str_len id ≤ 64 ∧ str_all ident_char id = true ∧
     match id with "" => False | String c _ => is_digit c = false end ∧
     str_map upper_char id ∉ sqlKeywordBlacklist).
Proof.
  rewrite ident_pattern_equiv. unfold ValidateIdentifier.
  destruct (decide (id = "")) as [->|Hne]; [by split; [|intros []]|].
  rewrite (bool_decide_eq_false_2 (id = "")) by done.
  destruct (identifierPattern id) eqn:Hp; simpl.
  - pose proof (identifierPattern_chars _ Hp) as Hall.
    rewrite bool_decide_eq_false_2 by (pose proof (identifierPattern_len _ Hp); lia).
    rewrite ident_chars_no_special by done.
    rewrite ToUpper_ident by done. case_bool_decide; naive_solver.
  - split; [case_bool_decide; discriminate | naive_solver].
Qed.

Lemma ValidateIdentifier_spec_witness :
  @ValidateIdentifier ascii_tables "user_id" = None.
Proof.
  apply (@ValidateIdentifier_spec ascii_tables "user_id").
  vm_compute. repeat split; try discriminate. intros Hin.
  apply list_elem_of_In in Hin. simpl in Hin. decompose [or] Hin; discriminate || done.
Defined.

(** Quoting is injection safe.  Whatever bytes the name holds, and whatever
    text follows, the SQL lexer reads [QuoteIdentifier name] back as one quoted
    token whose contents are [name], and stops right after it. *)
Theorem QuoteIdentifier_lexes (name rest : string) :
  String.prefix (String dquote "") rest = false →
  lex_quoted dquote (QuoteIdentifier name +:+ rest) = Some (name, rest).
Proof. apply lex_quoted_quote. Qed.

Lemma QuoteIdentifier_lexes_witness :
  lex_quoted dquote (QuoteIdentifier (String dquote "; DROP TABLE t") +:+ " FROM t")
  = Some (String dquote "; DROP TABLE t", " FROM t").
Proof. apply (QuoteIdentifier_lexes (String dquote "; DROP TABLE t") " FROM t"). reflexivity. Defined.

(** The same for string literals: [QuoteStringLiteral s] lexes as one SQL
    string token with contents [s]. *)
Theorem QuoteStringLiteral_lexes (s rest : string) :
  String.prefix (String squote "") rest = false →
  lex_quoted squote (QuoteStringLiteral s +:+ rest) = Some (s, rest).
Proof. apply lex_quoted_quote. Qed.

Lemma QuoteStringLiteral_lexes_witness :
  lex_quoted squote (QuoteStringLiteral (String squote " OR 1=1") +:+ ")")
  = Some (String squote " OR 1=1", ")").
Proof. apply (QuoteStringLiteral_lexes (String squote " OR 1=1") ")"). reflexivity. Defined.

(** A path that [SanitizeFilePath] accepts is non-empty, is its own
    [filepath.Clean], has no [..] anywhere and no shell metacharacter, quote or
    line break, so that quoting it changes nothing. *)
Theorem SanitizeFilePath_sound (p : string) :
  SanitizeFilePath p = None →
  p ≠ "" ∧ filepath_Clean p = p ∧ str_contains p ".." = false ∧
  (∀ c, c ∈ forbidden_chars → str_mem c p = false) ∧
  QuoteStringLiteral p = String squote p +:+ String squote "".
Proof.
  unfold SanitizeFilePath. do 3 (case_match; [done|]). decide_bools.
  case_match; [done|]. intros _.
  match goal with H : find_forbidden _ _ = None |- _ =>
    rewrite find_forbidden_None in H; rename H into Hf end.
  split_and!; try done; [by destruct (decide (filepath_Clean p = p))|].
  unfold QuoteStringLiteral. rewrite replace_char_absent; [done|].
  apply Hf. unfold forbidden_chars. set_solver.
Qed.

Lemma SanitizeFilePath_sound_witness :
  filepath_Clean "data/p1/latest/x.parquet" = "data/p1/latest/x.parquet".
Proof.
  apply (SanitizeFilePath_sound "data/p1/latest/x.parquet"). vm_compute. reflexivity.
Defined.

End SafeIdent.
