(* ===== verification/Cursor.v ===== *)
(** * Opaque cursors and page parameters

    [Base64] is the part of [encoding/base64] the cursors use, [Cursor] the
    package internal/cursor, [Pagination] the parameter parsing of
    internal/api/handler (cursor.go and pagination.go). *)

From S2P Require Import Prelude GoStrings GoJson.

(** ** base64.URLEncoding and base64.RawURLEncoding *)

Module Base64.

(** Six bits, least significant first, as [Ascii] orders the bits of a byte. *)
Inductive sextet := Sx (b0 b1 b2 b3 b4 b5 : bool).

Definition sextet_nat (s : sextet) : nat :=
  let 'Sx b0 b1 b2 b3 b4 b5 := s in
  Nat.b2n b0 + 2 * Nat.b2n b1 + 4 * Nat.b2n b2 + 8 * Nat.b2n b3
  + 16 * Nat.b2n b4 + 32 * Nat.b2n b5.
Definition sextet_of_nat (n : nat) : sextet :=
  Sx (Nat.testbit n 0) (Nat.testbit n 1) (Nat.testbit n 2)
     (Nat.testbit n 3) (Nat.testbit n 4) (Nat.testbit n 5).

Definition alphabet : string :=
  "ABCDEFGHIJKLMNOPQRSTUVWXYZabcdefghijklmnopqrstuvwxyz0123456789-_".
Definition b64_char (s : sextet) : ascii :=
  default "="%char (String.get (sextet_nat s) alphabet).
Fixpoint find_char (c : ascii) (s : string) (i : nat) : option nat :=
  match s with
  | "" => None
  | String d s => if bool_decide (c = d) then Some i else find_char c s (S i)
  end.
Definition b64_val (c : ascii) : option sextet := sextet_of_nat <$> find_char c alphabet 0.

(** A group of three bytes is four sextets. *)
Definition sx1 (a : ascii) : sextet :=
  let 'Ascii a0 a1 a2 a3 a4 a5 a6 a7 := a in Sx a2 a3 a4 a5 a6 a7.
Definition sx2 (a b : ascii) : sextet :=
  let 'Ascii a0 a1 a2 a3 a4 a5 a6 a7 := a in
  let 'Ascii b0 b1 b2 b3 b4 b5 b6 b7 := b in Sx b4 b5 b6 b7 a0 a1.
Definition sx3 (b c : ascii) : sextet :=
  let 'Ascii b0 b1 b2 b3 b4 b5 b6 b7 := b in
  let 'Ascii c0 c1 c2 c3 c4 c5 c6 c7 := c in Sx c6 c7 b0 b1 b2 b3.
Definition sx4 (c : ascii) : sextet :=
  let 'Ascii c0 c1 c2 c3 c4 c5 c6 c7 := c in Sx c0 c1 c2 c3 c4 c5.

Definition byte1 (s t : sextet) : ascii :=
  let 'Sx s0 s1 s2 s3 s4 s5 := s in let 'Sx t0 t1 t2 t3 t4 t5 := t in
  Ascii t4 t5 s0 s1 s2 s3 s4 s5.
Definition byte2 (t u : sextet) : ascii :=
  let 'Sx t0 t1 t2 t3 t4 t5 := t in let 'Sx u0 u1 u2 u3 u4 u5 := u in
  Ascii u2 u3 u4 u5 t0 t1 t2 t3.
Definition byte3 (u v : sextet) : ascii :=
  let 'Sx u0 u1 u2 u3 u4 u5 := u in let 'Sx v0 v1 v2 v3 v4 v5 := v in
  Ascii v0 v1 v2 v3 v4 v5 u0 u1.

(** Missing bytes of the last group are zero bits; [pad] adds the [=] signs. *)
Fixpoint enc (pad : bool) (l : list ascii) : list ascii :=
  match l with
  | [] => []
  | [a] =>
    [b64_char (sx1 a); b64_char (sx2 a "000")] ++ (if pad then ["="; "="]%char else [])
  | [a; b] =>
    [b64_char (sx1 a); b64_char (sx2 a b); b64_char (sx3 b "000")]
      ++ (if pad then ["="%char] else [])
  | a :: b :: c :: r =>
    b64_char (sx1 a) :: b64_char (sx2 a b) :: b64_char (sx3 b c) :: b64_char (sx4 c)
      :: enc pad r
  end.

Definition dec1 (w x : ascii) : option (list ascii) :=
  s ← b64_val w; t ← b64_val x; Some [byte1 s t].
Definition dec2 (w x y : ascii) : option (list ascii) :=
  s ← b64_val w; t ← b64_val x; u ← b64_val y; Some [byte1 s t; byte2 t u].

Fixpoint dec (pad : bool) (l : list ascii) : option (list ascii) :=
  match l with
  | [] => Some []
  | [w; x] => if pad then None else dec1 w x
  | [w; x; y] => if pad then None else dec2 w x y
  | w :: x :: y :: z :: r =>
    if pad && bool_decide (r = []) && bool_decide (z = "="%char) then
      if bool_decide (y = "="%char) then dec1 w x else dec2 w x y
    else
      s ← b64_val w; t ← b64_val x; u ← b64_val y; v ← b64_val z;
      tl ← dec pad r; Some (byte1 s t :: byte2 t u :: byte3 u v :: tl)
  | _ => None
  end.

(** The decoder skips line breaks wherever they stand. *)
Definition is_break (c : ascii) : bool := bool_decide (c = "010"%char ∨ c = "013"%char).
Definition EncodeToString (pad : bool) (s : string) : string :=
  String.string_of_list_ascii (enc pad (String.list_ascii_of_string s)).
Definition DecodeString (pad : bool) (s : string) : option string :=
  String.string_of_list_ascii <$>
    dec pad (filter (λ c, is_break c = false) (String.list_ascii_of_string s)).

Lemma b64_val_char s : b64_val (b64_char s) = Some s.
Proof. by destruct s as [[] [] [] [] [] []]. Qed.

Lemma b64_char_plain s : b64_char s ≠ "="%char ∧ is_break (b64_char s) = false.
Proof. by destruct s as [[] [] [] [] [] []]. Qed.

#[local] Arguments b64_val : simpl never.
#[local] Arguments b64_char : simpl never.
#[local] Arguments sx1 : simpl never.
#[local] Arguments sx2 : simpl never.
#[local] Arguments sx3 : simpl never.
#[local] Arguments sx4 : simpl never.
#[local] Arguments byte1 : simpl never.
#[local] Arguments byte2 : simpl never.
#[local] Arguments byte3 : simpl never.

Lemma byte1_sx a b : byte1 (sx1 a) (sx2 a b) = a.
Proof. by destruct a, b. Qed.
Lemma byte2_sx a b c : byte2 (sx2 a b) (sx3 b c) = b.
Proof. by destruct a, b, c. Qed.
Lemma byte3_sx b c : byte3 (sx3 b c) (sx4 c) = c.
Proof. by destruct b, c. Qed.

(** Induction over a list three elements at a time. *)
Lemma list_ind3 {A} (P : list A → Prop) :
  P [] → (∀ a, P [a]) → (∀ a b, P [a; b]) →
  (∀ a b c r, P r → P (a :: b :: c :: r)) → ∀ l, P l.
Proof.
  intros H0 H1 H2 H3. fix IH 1. intros [|a [|b [|c r]]];
    [exact H0 | exact (H1 a) | exact (H2 a b) | exact (H3 a b c r (IH r))].
Qed.

Lemma dec_enc pad l : dec pad (enc pad l) = Some l.
Proof.
  induction l as [|a|a b|a b c r IH] using list_ind3; [done|..].
  - destruct pad; simpl; unfold dec1; rewrite !b64_val_char; simpl; by rewrite byte1_sx.
  - destruct pad; simpl; unfold dec2; rewrite ?b64_val_char; simpl;
      [rewrite bool_decide_eq_false_2 by apply b64_char_plain; rewrite ?b64_val_char; simpl|];
      by rewrite byte1_sx, byte2_sx.
  - simpl. rewrite (bool_decide_eq_false_2 (b64_char (sx4 c) = "="%char))
      by apply b64_char_plain. rewrite andb_false_r, !b64_val_char. simpl.
    rewrite IH. simpl. by rewrite byte1_sx, byte2_sx, byte3_sx.
Qed.

Lemma enc_no_break pad l : filter (λ c, is_break c = false) (enc pad l) = enc pad l.
Proof.
  assert (∀ s k, filter (λ c, is_break c = false) (b64_char s :: k)
                 = b64_char s :: filter (λ c, is_break c = false) k) as Hc.
  { intros s k. apply filter_cons_True, b64_char_plain. }
  induction l as [|a|a b|a b c r IH] using list_ind3; [done|..]; simpl;
    rewrite !Hc; [by destruct pad..|]. by rewrite IH.
Qed.

Lemma Decode_Encode pad s : DecodeString pad (EncodeToString pad s) = Some s.
Proof.
  unfold DecodeString, EncodeToString.
  rewrite String.list_ascii_of_string_of_list_ascii, enc_no_break, dec_enc. simpl.
  by rewrite String.string_of_list_ascii_of_string.
Qed.

End Base64.

(** ** internal/cursor *)

Module Cursor.

Definition encode (prefix value : string) : string :=
  let raw := prefix +:+ ":" +:+ value in
  Base64.EncodeToString true raw.

Definition decode (cursor : string) : string * string :=
  if bool_decide (cursor = "") then ("", "")
  else match Base64.DecodeString true cursor with
       | None => ("", "")
       | Some decoded =>
         match str_cut ":" decoded with
         | None => ("", "")
         | Some parts => parts
         end
       end.

Definition EncodePosition (offset : Z) : string := encode "pos" (Itoa offset).
Definition EncodeID (id : string) : string := encode "id" id.

Definition DecodePosition (cursor : string) : Z :=
  let '(prefix, val) := decode cursor in
  if bool_decide (prefix ≠ "pos") || bool_decide (val = "") then 0
  else match Atoi val with None => 0 | Some n => n end.

Definition DecodeID (cursor : string) : string :=
  let '(prefix, val) := decode cursor in
  if bool_decide (prefix ≠ "id") || bool_decide (val = "") then "" else val.

Lemma decode_encode p v :
  str_mem ":" p = false → decode (encode p v) = (p, v).
Proof.
  intros Hp. unfold decode.
  assert (encode p v ≠ "") as Hne.
  { intros E. pose proof (Base64.Decode_Encode true (p +:+ ":" +:+ v)) as D.
    change (Base64.EncodeToString true (p +:+ ":" +:+ v)) with (encode p v) in D.
    rewrite E in D. vm_compute in D. injection D as D. by destruct p. }
  rewrite bool_decide_eq_false_2 by done. unfold encode.
  rewrite Base64.Decode_Encode.
  by rewrite (proj2 (str_cut_spec ":" (p +:+ ":" +:+ v) p v)).
Qed.

(** A cursor decodes to the position or the entity ID it was made from, for
    every offset of Go's [int] and every ID whatever its bytes, and a cursor of
    one kind is never read as the other. *)
Theorem cursor_roundtrip (offset : Z) (id : string) :
  is_int64 offset →
  DecodePosition (EncodePosition offset) = offset ∧ DecodeID (EncodeID id) = id ∧
  DecodePosition (EncodeID id) = 0 ∧ DecodeID (EncodePosition offset) = "".
Proof.
  intros Hz. unfold DecodePosition, DecodeID, EncodePosition, EncodeID.
  rewrite !decode_encode by done. simpl.
  rewrite Atoi_Itoa by done.
  rewrite (bool_decide_eq_false_2 (Itoa offset = "")) by apply Itoa_nonempty.
  split_and!; try done. by case_bool_decide.
Qed.

Lemma cursor_roundtrip_witness :
  DecodePosition (EncodePosition (-42)) = -42 ∧ DecodeID (EncodeID "a:b") = "a:b" ∧
  DecodePosition (EncodeID "a:b") = 0 ∧ DecodeID (EncodePosition (-42)) = "".
Proof. apply (cursor_roundtrip (-42) "a:b"). unfold is_int64. vm_compute. split; discriminate. Defined.

(** A malformed cursor falls back to the start of the list: text that is
    not base64, or that decodes to something without a colon, reads as
    position 0 and as the empty ID. *)
Theorem cursor_malformed (cursor : string) :
  match Base64.DecodeString true cursor with
  | None => True
  | Some raw => str_cut ":" raw = None
  end →
  DecodePosition cursor = 0 ∧ DecodeID cursor = "".
Proof.
  intros H. unfold DecodePosition, DecodeID, decode.
  case_bool_decide; [done|]. case_match; [|done]. by rewrite H.
Qed.

Lemma cursor_malformed_witness : DecodePosition "!!" = 0 ∧ DecodeID "!!" = "".
Proof. apply (cursor_malformed "!!"). vm_compute. exact I. Defined.

End Cursor.

(** ** Page parameters of the list endpoints *)

Module Pagination.

Definition DefaultPageSize : Z := 25.
Definition MaxPageSize : Z := 100.

Definition clampLimit (limit : Z) : Z :=
  if bool_decide (limit ≤ 0) then DefaultPageSize
  else if bool_decide (limit > MaxPageSize) then MaxPageSize
  else limit.

Record PagePaginationParams := { Page : Z; PerPage : Z }.

(** [p] and [pp] are the values of the [page] and [per_page] query parameters,
    the empty string when absent. *)
Definition ParsePagePagination (p pp : string) : PagePaginationParams :=
  let page :=
    if bool_decide (p ≠ "") then
      match Atoi p with
      | Some v => if bool_decide (v > 0) then v else 1
      | None => 1
      end
    else 1 in
  let perPage :=
    if bool_decide (pp ≠ "") then
      match Atoi pp with
      | Some v =>
        if bool_decide (v > 0) then (if bool_decide (v ≤ 100) then v else 100) else 50
      | None => 50
      end
    else 50 in
  {| Page := page; PerPage := perPage |}.

(** The product is computed on 64-bit integers. *)
Definition Offset (p : PagePaginationParams) : Z := wrap64 ((Page p - 1) * PerPage p).

(** The JSON cursors of handler/cursor.go: the identifier is the field [i] of an
    object; whatever is not such a cursor stands for the beginning. *)
Import Json.
Record PaginationRequest := { PCursor : string; PLimit : Z }.
Definition encodeCursor (id : string) : string :=
  Base64.EncodeToString false (Marshal (JObj [("i", JStr id)])).
Definition decodeCursor (cursor : string) : string :=
  if bool_decide (cursor = "") then ""
  else match Base64.DecodeString false cursor with
       | None => ""
       | Some decoded =>
         match config decoded with
         | None => ""
         | Some m => default "" (string_field "i" m)
         end
       end.
Definition ParsePagination (after : string) (limit : Z) : PaginationRequest :=
  {| PCursor := decodeCursor after; PLimit := clampLimit limit |}.

Lemma encodeCursor_nonempty id : encodeCursor id ≠ "".
Proof.
  intros E. assert (Base64.DecodeString false (encodeCursor id) = Some "") as H by by rewrite E.
  unfold encodeCursor in H. rewrite Base64.Decode_Encode in H. by injection H.
Qed.

(** A page request gets back the identifier its cursor was made from, for every
    identifier in UTF-8, and a page size between 1 and 100, whatever was asked for. *)
Theorem ParsePagination_roundtrip (id : string) (limit : Z) :
  text_ok id →
  PCursor (ParsePagination (encodeCursor id) limit) = id ∧
  1 ≤ PLimit (ParsePagination (encodeCursor id) limit) ≤ MaxPageSize.
Proof.
  intros Hid. split; [|unfold ParsePagination, clampLimit, DefaultPageSize, MaxPageSize; cbn [PLimit]; repeat case_bool_decide; lia].
  change (decodeCursor (encodeCursor id) = id). unfold decodeCursor. rewrite bool_decide_eq_false_2 by apply encodeCursor_nonempty.
  unfold encodeCursor. rewrite Base64.Decode_Encode. unfold config.
  rewrite Marshal_roundtrip by (cbn; by unfold text_ok in *). reflexivity.
Qed.

Lemma ParsePagination_roundtrip_witness :
  text_ok "tool-7" ∧ PCursor (ParsePagination (encodeCursor "tool-7") 0) = "tool-7".
Proof.
  assert (text_ok "tool-7") as H by (vm_compute; reflexivity). split; [done|].
  apply (ParsePagination_roundtrip "tool-7" 0 H).
Defined.

Lemma Atoi_int64 s v : Atoi s = Some v → is_int64 v.
Proof.
  unfold Atoi, check_int64. intros H.
  repeat case_match; simplify_option_eq; done.
Qed.

(** Whatever the query parameters, the page is at least 1 and the page size
    between 1 and 100, and the row offset of a page number below 2^56 is the
    exact, non-negative product. *)
Theorem ParsePagePagination_bounds (p pp : string) :
  let q := ParsePagePagination p pp in
  1 ≤ Page q ∧ 1 ≤ PerPage q ≤ 100 ∧
  (Page q < 2 ^ 56 → Offset q = (Page q - 1) * PerPage q ∧ 0 ≤ Offset q).
Proof.
  intros q.
  assert (1 ≤ Page q ∧ 1 ≤ PerPage q ≤ 100) as [Hp Hpp]
    by (subst q; unfold ParsePagePagination; simpl; repeat case_match; decide_bools; simpl; lia).
  split_and!; [done|lia|lia|]. intros Hs.
  assert (Offset q = (Page q - 1) * PerPage q) as ->
    by (apply wrap64_id; unfold is_int64, min_int64, max_int64; nia).
  split; [done|nia].
Qed.

Lemma ParsePagePagination_bounds_witness :
  Offset (ParsePagePagination "3" "20") = 40.
Proof.
  apply (ParsePagePagination_bounds "3" "20"). vm_compute. reflexivity.
Defined.

(** The row offset is not protected against overflow: the accepted page
    number 92233720368547760 with 100 rows per page gives a negative offset. *)
Theorem Offset_overflow :
  Offset (ParsePagePagination "92233720368547760" "100") = - 9223372036854775716.
Proof. vm_compute. reflexivity. Qed.

Lemma clampLimit_range limit : 1 ≤ clampLimit limit ≤ MaxPageSize.
Proof.
  unfold clampLimit, MaxPageSize, DefaultPageSize. repeat case_bool_decide; lia.
Qed.

End Pagination.
