(* ===== verification/DslAst.v ===== *)
(** * The ontology language's syntax trees (internal/dsl/ast.go)

    The parser itself is generated by the participle library from the field
    tags and is a parameter wherever a component parses. *)

From S2P Require Import Prelude.

Record Map_ := { MapFrom : string; MapTo : string }.

Record Property := {
  PropName : string; PropTyp : string; PropFrom : string; Predict : bool; Maps : list Map_;
}.

Record Factor := { FactorName : string; FactorType : string; FactorFrom : string }.

Record FilterDefinition := { FilterField : string; FilterOp : string; FilterValue : string }.

Record AggregateDefinition := { AggFunction : string; AggField : string; AggAlias : string }.

Record ObjectDefinition := {
  ObjName : string;
  FromSource : string;
  ObjID : string;
  Properties : list Property;
  Factors : list Factor;
  Filters : list FilterDefinition;
  Aggregates : list AggregateDefinition;
}.

Record RelationDefinition := {
  RelName : string; RelFrom : string; RelTo : string; LeftOn : string; RightOn : string;
}.

Record DatasetDefinition := { DsName : string; DsVersion : string; DsFrom : string }.

Record ActionDefinition := {
  ActionName : string; OnObject : string; ActionParameters : list Property;
}.

Record ToolParamDef := {
  TPName : string; TPType : string; TPRequired : bool; TPDescription : string;
}.
Record HandlerDef := { HdLanguage : string; HdEntryPoint : string }.
Record ParsedTool := {
  PTName : string; PTDescription : string; PTInputs : list ToolParamDef;
  PTOutputs : list ToolParamDef; PTHandler : HandlerDef; PTClose : string;
}.

(** A statement is one of five alternatives; the Go struct holds the five
    pointers, of which the parser sets one. *)
Inductive Statement :=
| SObject (o : ObjectDefinition)
| SRelation (r : RelationDefinition)
| SDataset (d : DatasetDefinition)
| SAction (a : ActionDefinition)
| STool (t : ParsedTool).

Record Program := { Statements : list Statement }.
