(* ===== verification/DecisionTypes.v ===== *)
(** * The decision engine's data (internal/decision/decision.go)

    The values that travel round the Plan, Act, Observe, Reflect, Admit loop. *)

From S2P Require Import Prelude GoStrings GoValues.

Record Intent := {
  PrimaryGoal : string;
  NeededTools : list string;
  TargetObjects : list string;
  Confidence : f64;
}.

Definition ReplanNone : string := "".
Definition ReplanPartial : string := "partial".
Definition ReplanFull : string := "full".

Record PlannedStep := {
  ToolName : string;
  Arguments_ : list (string * any);
  ExpectedOutcome : string;
  RequiresConfirmation : bool;
  Depends : list string;
  Rationale : string;
  Fallback : string;
}.

(** The zero value of a step with the fields a composite literal leaves out. *)
Definition step_of (tool : string) (args : list (string * any)) : PlannedStep := {|
  ToolName := tool; Arguments_ := args; ExpectedOutcome := "";
  RequiresConfirmation := false; Depends := []; Rationale := ""; Fallback := "" |}.

Definition set_rationale (r : string) (s : PlannedStep) : PlannedStep := {|
  ToolName := ToolName s; Arguments_ := Arguments_ s; ExpectedOutcome := ExpectedOutcome s;
  RequiresConfirmation := RequiresConfirmation s; Depends := Depends s;
  Rationale := r; Fallback := Fallback s |}.

Definition set_confirmation (b : bool) (s : PlannedStep) : PlannedStep := {|
  ToolName := ToolName s; Arguments_ := Arguments_ s; ExpectedOutcome := ExpectedOutcome s;
  RequiresConfirmation := b; Depends := Depends s;
  Rationale := Rationale s; Fallback := Fallback s |}.

Record PlanResult := {
  PlanIntent : Intent;
  Steps : list PlannedStep;
  CanProceed : bool;
  Reason : string;
  CorrectionSteps : list PlannedStep;
  ReplanType : string;
}.

Record ActResult := {
  ActStep : PlannedStep;
  Output : string;
  ActError : string;
  DurationMs : Z;
}.

Record Observation := {
  ObsStep : PlannedStep;
  ObsActResult : ActResult;
  Success : bool;
  TrustDelta : f64;
  Issues : list string;
}.

Record ToolDef := { ToolDefName : string; ToolDefDescription : string; ToolDefCode : string }.

Record ComponentMetadata := {
  ComponentID : string; ComponentName : string;
  ComponentCategory : string; ComponentStatus : string;
}.

Record PropertyDef := {
  PropType : string; PropDescription : string; PropDefault : option any;
}.
Record ParameterDef := {
  ParamType : string; ParamProperties : list (string * PropertyDef); ParamRequired : list string;
}.
Record FunctionDef := {
  FnName : string; FnDescription : string; FnParameters : option ParameterDef;
}.
Record ToolDefinition := { TDType : string; TDFunction : FunctionDef }.
