(* ===== verification/Reflector.v ===== *)
(** * The Reflect phase (internal/decision/reflector.go)

    Classification of the observations of one round and the plan that follows
    from it. *)

From S2P Require Import Prelude GoStrings GoValues DecisionTypes.

Module Reflector.

Inductive GapType := GapExpected | GapUnexpected | GapCritical.

#[global] Instance GapType_eq_dec : EqDecision GapType.
Proof. solve_decision. Defined.

Record ObservationAnalysis := {
  Gap : GapType;
  Details : string;
  Impact : string;
  AnalysisConfidence : f64;
  StepTool : string;
}.

Section Reflect.
Context `{Unicode}.

Definition blocking : list string :=
  ["not found"; "unauthorized"; "permission denied"; "forbidden"; "invalid"; "does not exist"].

Definition isBlockingFailure (issueText : string) : bool :=
  let lower := ToLower issueText in
  existsb (str_contains lower) blocking.

Definition classifyObservation (obs : Observation) : ObservationAnalysis :=
  let toolName :=
    if bool_decide (ToolName (ObsStep obs) = "") then "unknown" else ToolName (ObsStep obs) in
  if Success obs then
    if bool_decide (Z.of_nat (length (Issues obs)) > 0) then
      {| Gap := GapUnexpected;
         Details := "tool " +:+ toolName +:+ " succeeded but has issues: "
                      +:+ str_join "; " (Issues obs);
         Impact := "soft issues may degrade downstream quality";
         AnalysisConfidence := f64_lit 8 10;
         StepTool := toolName |}
    else
      {| Gap := GapExpected;
         Details := "tool " +:+ toolName +:+ " completed successfully";
         Impact := "no impact; plan proceeds as expected";
         AnalysisConfidence := f64_lit 95 100;
         StepTool := toolName |}
  else
    let issueText := str_join "; " (Issues obs) in
    if isBlockingFailure issueText || bool_decide (Z.of_nat (length (Issues obs)) > 2)
       || f64_lt (TrustDelta obs) (f64_neg (f64_lit 3 10)) then
      {| Gap := GapCritical;
         Details := "tool " +:+ toolName +:+ " failed critically: " +:+ issueText;
         Impact := "blocks further progress; requires intervention or replanning";
         AnalysisConfidence := f64_lit 85 100;
         StepTool := toolName |}
    else
      {| Gap := GapUnexpected;
         Details := "tool " +:+ toolName +:+ " failed but may be recoverable: " +:+ issueText;
         Impact := "partial progress possible; consider retrying with modified approach";
         AnalysisConfidence := f64_lit 7 10;
         StepTool := toolName |}.

Definition buildReflectionSummary
    (expectedCount unexpectedCount criticalCount : Z) (succeededTools : list string) : string :=
  let parts :=
    (if bool_decide (expectedCount > 0)
     then [fmt_d expectedCount +:+ " steps completed as expected"] else []) ++
    (if bool_decide (0 < Z.of_nat (length succeededTools) ≤ 5)
     then ["successful tools: " +:+ str_join ", " succeededTools] else []) ++
    (if bool_decide (unexpectedCount > 0)
     then [fmt_d unexpectedCount +:+ " recoverable issues detected"] else []) ++
    (if bool_decide (criticalCount > 0)
     then [fmt_d criticalCount +:+ " critical failures"] else []) in
  if bool_decide (parts = []) then "reflection complete: no actionable observations"
  else "reflection: " +:+ str_join "; " parts.

(** One correction per failed observation: the step's own fallback when it has
    one, a diagnostic query otherwise. *)
Definition correctionStep (obs : Observation) : PlannedStep :=
  let step := ObsStep obs in
  let issues := str_join "; " (Issues obs) in
  if bool_decide (Fallback step ≠ "") then
    set_rationale ("fallback for " +:+ ToolName step +:+ " after failure: " +:+ issues)
      (step_of (Fallback step)
         [("original_tool", AnyStr (ToolName step)); ("error", AnyStr issues)])
  else
    set_rationale ("diagnostic fallback for failed tool " +:+ ToolName step)
      (step_of "query_dispatch"
         [("query", AnyStr ("diagnose failure of " +:+ ToolName step +:+ ": " +:+ issues))]).

Fixpoint buildCorrectionSteps (observations : list Observation) : list PlannedStep :=
  match observations with
  | [] => []
  | obs :: rest =>
    if Success obs then buildCorrectionSteps rest
    else correctionStep obs :: buildCorrectionSteps rest
  end.

(** The accumulators of the loop over the observations. *)
Record counters := {
  analyses : list ObservationAnalysis;
  criticalCount : Z;
  unexpectedCount : Z;
  expectedCount : Z;
  succeededTools : list string;
}.

Definition count_observation (acc : counters) (obs : Observation) : counters :=
  let analysis := classifyObservation obs in
  match Gap analysis with
  | GapCritical =>
    {| analyses := analyses acc ++ [analysis];
       criticalCount := criticalCount acc + 1; unexpectedCount := unexpectedCount acc;
       expectedCount := expectedCount acc; succeededTools := succeededTools acc |}
  | GapUnexpected =>
    {| analyses := analyses acc ++ [analysis];
       criticalCount := criticalCount acc; unexpectedCount := unexpectedCount acc + 1;
       expectedCount := expectedCount acc; succeededTools := succeededTools acc |}
  | GapExpected =>
    {| analyses := analyses acc ++ [analysis];
       criticalCount := criticalCount acc; unexpectedCount := unexpectedCount acc;
       expectedCount := expectedCount acc + 1;
       succeededTools := succeededTools acc ++ (if Success obs then [StepTool analysis] else []) |}
  end.

Definition no_counts : counters :=
  {| analyses := []; criticalCount := 0; unexpectedCount := 0; expectedCount := 0;
     succeededTools := [] |}.

Definition count_all (observations : list Observation) : counters :=
  foldl count_observation no_counts observations.

(** The details of the last critical analysis. *)
Definition last_critical (l : list ObservationAnalysis) : string :=
  foldl (λ acc a, if decide (Gap a = GapCritical) then Details a else acc) "" l.

Definition ErrPlanNil : string := "plan is nil".

(** A nil plan is [None]. *)
Definition Reflect (plan : option PlanResult) (observations : list Observation) :
    result string PlanResult :=
  match plan with
  | None => Err ErrPlanNil
  | Some plan =>
    if negb (CanProceed plan) then Ok plan
    else if bool_decide (observations = []) then Ok plan
    else
      let c := count_all observations in
      let summary := buildReflectionSummary (expectedCount c) (unexpectedCount c)
                       (criticalCount c) (succeededTools c) in
      if bool_decide (criticalCount c > 0) then
        Ok {| PlanIntent := PlanIntent plan; Steps := Steps plan; CanProceed := false;
              Reason := "critical failure detected: " +:+ last_critical (analyses c)
                          +:+ "; " +:+ summary;
              CorrectionSteps := buildCorrectionSteps observations;
              ReplanType := ReplanFull |}
      else if bool_decide (unexpectedCount c > 0) then
        Ok {| PlanIntent := PlanIntent plan; Steps := Steps plan; CanProceed := true;
              Reason := "completed with " +:+ fmt_d (unexpectedCount c)
                          +:+ " recoverable issue(s); " +:+ summary;
              CorrectionSteps := buildCorrectionSteps observations;
              ReplanType := ReplanPartial |}
      else
        Ok {| PlanIntent := PlanIntent plan; Steps := Steps plan; CanProceed := true;
              Reason := summary; CorrectionSteps := []; ReplanType := ReplanNone |}
  end.

(** ** Lemmas *)

(** What the classes mean, of the observation alone.  A failure is critical if the text of its
    issues, in lower case, contains one of six phrases, if it has three issues or more, or if
    the trust in the tool has fallen by more than 0.3. *)
Definition blocks (phrase : string) (obs : Observation) : Prop :=
  ∃ a b, ToLower (str_join "; " (Issues obs)) = a +:+ phrase +:+ b.
Inductive critical_cause (obs : Observation) : Prop :=
| not_found : blocks "not found" obs → critical_cause obs
| unauthorized : blocks "unauthorized" obs → critical_cause obs
| permission_denied : blocks "permission denied" obs → critical_cause obs
| forbidden : blocks "forbidden" obs → critical_cause obs
| invalid : blocks "invalid" obs → critical_cause obs
| does_not_exist : blocks "does not exist" obs → critical_cause obs
| many_issues : (3 ≤ length (Issues obs))%nat → critical_cause obs
| distrust : f64_lt (TrustDelta obs) (f64_neg (f64_lit 3 10)) = true → critical_cause obs.
Definition is_critical (obs : Observation) : Prop := Success obs = false ∧ critical_cause obs.
Definition is_expected (obs : Observation) : Prop := Success obs = true ∧ Issues obs = [].
Definition is_unexpected (obs : Observation) : Prop :=
  Success obs = true ∧ Issues obs ≠ [] ∨ Success obs = false ∧ ¬ critical_cause obs.

Lemma blocking_iff obs : isBlockingFailure (str_join "; " (Issues obs)) = true ↔ ∃ k, k ∈ blocking ∧ blocks k obs.
Proof.
  unfold isBlockingFailure, blocks. rewrite existsb_exists. split.
  - intros (k & Hk & Hc). exists k. by rewrite list_elem_of_In, <- str_contains_iff.
  - intros (k & Hk & Hc). exists k. by rewrite <- list_elem_of_In, str_contains_iff.
Qed.
Lemma critical_cause_iff obs : critical_cause obs ↔
  isBlockingFailure (str_join "; " (Issues obs)) || bool_decide (Z.of_nat (length (Issues obs)) > 2)
    || f64_lt (TrustDelta obs) (f64_neg (f64_lit 3 10)) = true.
Proof.
  rewrite !orb_true_iff, blocking_iff, bool_decide_eq_true. unfold blocking. split.
  - destruct 1; [left; left; eexists; (split; [|eassumption]); set_solver..|left; right; lia|by right].
  - intros [[(k & Hk & Hb)|Hl]|Ht]; [|by apply many_issues; lia|by apply distrust].
    repeat (apply elem_of_cons in Hk as [->|Hk]; [solve [eauto using critical_cause]|]). by apply elem_of_nil in Hk.
Qed.

Lemma gap_iff obs :
  (Gap (classifyObservation obs) = GapCritical ↔ is_critical obs) ∧
  (Gap (classifyObservation obs) = GapUnexpected ↔ is_unexpected obs) ∧
  (Gap (classifyObservation obs) = GapExpected ↔ is_expected obs).
Proof.
  unfold is_critical, is_unexpected, is_expected, classifyObservation. rewrite critical_cause_iff.
  destruct (Success obs).
  - case_bool_decide as Hi; destruct (Issues obs); cbn in *; try lia; split_and!; naive_solver.
  - destruct (_ || _); cbn; split_and!; naive_solver.
Qed.
Lemma critical_gap obs : is_critical obs ↔ Gap (classifyObservation obs) = GapCritical.
Proof. symmetry. apply gap_iff. Qed.
Lemma unexpected_gap obs : is_unexpected obs ↔ Gap (classifyObservation obs) = GapUnexpected.
Proof. symmetry. apply gap_iff. Qed.
Lemma expected_gap obs : is_expected obs ↔ Gap (classifyObservation obs) = GapExpected.
Proof. symmetry. apply gap_iff. Qed.
Lemma failed_gap obs : Success obs = false → is_critical obs ∨ is_unexpected obs.
Proof.
  rewrite critical_gap, unexpected_gap. unfold classifyObservation. intros ->. case_match; eauto.
Qed.

(** Number of observations in a class. *)
Definition n_of (P : Observation → Prop) `{∀ o, Decision (P o)} (l : list Observation) : Z :=
  Z.of_nat (length (filter P l)).

#[global] Instance is_critical_dec o : Decision (is_critical o).
Proof. refine (cast_if (decide (Gap (classifyObservation o) = GapCritical))); by rewrite critical_gap. Defined.
#[global] Instance is_unexpected_dec o : Decision (is_unexpected o).
Proof. refine (cast_if (decide (Gap (classifyObservation o) = GapUnexpected))); by rewrite unexpected_gap. Defined.
#[global] Instance is_expected_dec o : Decision (is_expected o).
Proof. refine (cast_if (decide (Gap (classifyObservation o) = GapExpected))); by rewrite expected_gap. Defined.

Lemma n_of_cons P `{∀ o, Decision (P o)} o l :
  n_of P (o :: l) = (if decide (P o) then 1 else 0) + n_of P l.
Proof.
  unfold n_of. rewrite filter_cons. case_decide; simpl; lia.
Qed.

Lemma n_of_pos P `{∀ o, Decision (P o)} l : n_of P l > 0 ↔ ∃ o, o ∈ l ∧ P o.
Proof.
  unfold n_of. split.
  - destruct (filter P l) as [|o k] eqn:E; simpl; [lia|]. intros _. exists o.
    assert (o ∈ filter P l) as Ho by (rewrite E; by left).
    apply list_elem_of_filter in Ho. tauto.
  - intros (o & Ho & HP).
    assert (o ∈ filter P l) as Hf by (by apply list_elem_of_filter).
    destruct (filter P l); [by apply elem_of_nil in Hf|]. simpl. lia.
Qed.

(** The loop counts what it says it counts. *)
Lemma foldl_counts acc l :
  let c := foldl count_observation acc l in
  criticalCount c = criticalCount acc + n_of is_critical l ∧
  unexpectedCount c = unexpectedCount acc + n_of is_unexpected l ∧
  expectedCount c = expectedCount acc + n_of is_expected l ∧
  analyses c = analyses acc ++ (classifyObservation <$> l).
Proof.
  revert acc. induction l as [|o l IH]; intros acc; simpl.
  { rewrite app_nil_r. unfold n_of. simpl. split_and!; lia || done. }
  destruct (IH (count_observation acc o)) as (-> & -> & -> & ->).
  rewrite !n_of_cons. unfold count_observation.
  destruct (Gap (classifyObservation o)) eqn:E; simpl;
    repeat case_decide; rewrite ?critical_gap, ?unexpected_gap, ?expected_gap in *;
    try congruence; rewrite <- app_assoc; simpl; split_and!; lia || done.
Qed.

Lemma count_all_spec l :
  criticalCount (count_all l) = n_of is_critical l ∧
  unexpectedCount (count_all l) = n_of is_unexpected l ∧
  expectedCount (count_all l) = n_of is_expected l ∧
  analyses (count_all l) = classifyObservation <$> l.
Proof. exact (foldl_counts no_counts l). Qed.

Lemma buildCorrectionSteps_map l :
  buildCorrectionSteps l = correctionStep <$> filter (λ o, Success o = false) l.
Proof.
  induction l as [|o l IH]; simpl; [done|]. rewrite filter_cons.
  destruct (Success o) eqn:E; case_decide; try done. simpl. by rewrite IH.
Qed.

Lemma no_failures_corrections l :
  (∀ o, o ∈ l → Success o = true) → buildCorrectionSteps l = [].
Proof.
  induction l as [|o l IH]; intros Hl; simpl; [done|].
  rewrite (Hl o) by (by left). apply IH. intros o' Ho'. apply Hl. by right.
Qed.

(** A critical observation among them stops the plan. *)
Lemma Reflect_critical plan obs o :
  CanProceed plan = true → o ∈ obs → is_critical o →
  ∃ p, Reflect (Some plan) obs = Ok p ∧ CanProceed p = false ∧ ReplanType p = ReplanFull.
Proof.
  intros Hp Hin Hc. unfold Reflect. rewrite Hp. simpl.
  rewrite bool_decide_eq_false_2 by (by intros ->; apply elem_of_nil in Hin).
  destruct (count_all_spec obs) as (-> & _).
  rewrite bool_decide_eq_true_2; [by eexists|]. apply n_of_pos. by exists o.
Qed.

(** ** Properties *)

(** C14: the outcome of a reflection is decided by the observations as the classes above
    describe them.  A plan that may not proceed, or that has no observations, is returned as it
    is.  Any other keeps its intent and its steps; it is stopped with a full replan when some
    failure is critical; it continues with a partial replan when none is, but some
    observation failed or has issues; and it continues with no replan and no corrections when
    every observation succeeded without issues. *)
Theorem Reflect_outcome (plan : PlanResult) (obs : list Observation) :
  ∃ r, Reflect (Some plan) obs = Ok r ∧
    if negb (CanProceed plan) || bool_decide (obs = []) then r = plan
    else
      PlanIntent r = PlanIntent plan ∧ Steps r = Steps plan ∧
      ((∃ o, o ∈ obs ∧ is_critical o) → CanProceed r = false ∧ ReplanType r = ReplanFull) ∧
      ((∀ o, o ∈ obs → ¬ is_critical o) → (∃ o, o ∈ obs ∧ (Success o = false ∨ Issues o ≠ [])) →
         CanProceed r = true ∧ ReplanType r = ReplanPartial) ∧
      ((∀ o, o ∈ obs → Success o = true ∧ Issues o = []) →
         CanProceed r = true ∧ ReplanType r = ReplanNone ∧ CorrectionSteps r = []).
Proof.
  unfold Reflect. destruct (CanProceed plan) eqn:Hp; cbn [negb orb]; [|by eexists].
  case_bool_decide as Ho; [by eexists|].
  destruct (count_all_spec obs) as (Hc & Hu & He & _).
  pose proof (n_of_pos is_critical obs) as Hcp. pose proof (n_of_pos is_unexpected obs) as Hup.
  assert ((∀ o, o ∈ obs → is_expected o) →
          ¬ n_of is_critical obs > 0 ∧ ¬ n_of is_unexpected obs > 0) as Hexp.
  { intros Hall. rewrite Hcp, Hup. split; intros (o & Hin & HP); specialize (Hall o Hin);
      rewrite ?critical_gap, ?unexpected_gap, ?expected_gap in *; congruence. }
  assert ((∀ o, o ∈ obs → ¬ is_critical o) → (∃ o, o ∈ obs ∧ (Success o = false ∨ Issues o ≠ [])) → n_of is_unexpected obs > 0) as Htr.
  { intros Hn (o & Hin & Ht). apply Hup. exists o. split; [done|]. specialize (Hn o Hin). unfold is_critical in Hn.
    unfold is_unexpected. destruct (Success o); naive_solver. }
  change (∀ o, o ∈ obs → Success o = true ∧ Issues o = []) with (∀ o, o ∈ obs → is_expected o).
  rewrite Hc, Hu. case_bool_decide as Hcrit; [|case_bool_decide as Hunx]; (eexists; split; [done|]); simpl; split_and!; try done; try tauto.
  intros Hn. apply Hcp in Hcrit as (o & Hin & HP). by destruct (Hn o Hin).
Qed.

(** No failure is lost.  When an observation failed, the reflected plan asks
    for a replan, and its correction steps are, in order, one per failed
    observation: the step's own fallback tool, or the diagnostic query when it
    has none. *)
Theorem Reflect_corrections (plan : PlanResult) (obs : list Observation) (r : PlanResult) :
  CanProceed plan = true → (∃ o, o ∈ obs ∧ Success o = false) →
  Reflect (Some plan) obs = Ok r →
  ReplanType r ≠ ReplanNone ∧
  CorrectionSteps r = correctionStep <$> filter (λ o, Success o = false) obs ∧
  ToolName <$> CorrectionSteps r =
    (λ o, if bool_decide (Fallback (ObsStep o) = "") then "query_dispatch"
          else Fallback (ObsStep o)) <$> filter (λ o, Success o = false) obs.
Proof.
  intros Hp (o & Hin & Hf) HR.
  assert (CorrectionSteps r = buildCorrectionSteps obs ∧ ReplanType r ≠ ReplanNone) as [-> Ht].
  { unfold Reflect in HR. rewrite Hp in HR. simpl in HR.
    rewrite bool_decide_eq_false_2 in HR by (by intros ->; apply elem_of_nil in Hin).
    destruct (count_all_spec obs) as (Hc & Hu & _).
    rewrite Hc, Hu in HR. do 2 (case_bool_decide; [by simplify_eq/=|]). exfalso.
    destruct (failed_gap o Hf) as [HP|HP];
      [assert (n_of is_critical obs > 0) | assert (n_of is_unexpected obs > 0)];
      try (apply n_of_pos; by exists o); done. }
  rewrite buildCorrectionSteps_map. split_and!; [done..|].
  rewrite <- list_fmap_compose. apply list_fmap_ext. intros i x _.
  unfold compose, correctionStep.
  destruct (decide (Fallback (ObsStep x) = "")) as [E|E].
  - rewrite (bool_decide_eq_true_2 _ E), bool_decide_eq_false_2; [done|]. by intros [].
  - by rewrite (bool_decide_eq_false_2 _ E), bool_decide_eq_true_2.
Qed.

End Reflect.

(** A step whose only observation failed with the given issue. *)
Definition failed_obs (delta : f64) (issue : string) : Observation := {|
  ObsStep := step_of "fetch" []; ObsActResult :=
    {| ActStep := step_of "fetch" []; Output := ""; ActError := issue; DurationMs := 1 |};
  Success := false; TrustDelta := delta; Issues := [issue] |}.
Definition sample_plan : PlanResult := {|
  PlanIntent := {| PrimaryGoal := "go"; NeededTools := []; TargetObjects := [];
                   Confidence := f64_lit 8 10 |};
  Steps := [step_of "fetch" []]; CanProceed := true; Reason := "plan ready";
  CorrectionSteps := []; ReplanType := ReplanNone |}.

(** Each of the eight causes, at its border. *)
Definition classed (delta : f64) (issues : list string) : GapType :=
  Gap (@classifyObservation ascii_tables {| ObsStep := step_of "fetch" []; ObsActResult :=
    {| ActStep := step_of "fetch" []; Output := ""; ActError := ""; DurationMs := 1 |}; Success := false; TrustDelta := delta; Issues := issues |}).
Example classes :
  classed (f64_lit 0 1) ["row Not Found"] = GapCritical ∧ classed (f64_lit 0 1) ["timeout"; "reset"] = GapUnexpected ∧
  classed (f64_lit 0 1) ["timeout"; "reset"; "retry"] = GapCritical ∧ classed (f64_neg (f64_lit 3 10)) ["timeout"] = GapUnexpected ∧
  classed (f64_neg (f64_lit 31 100)) ["timeout"] = GapCritical.
Proof. vm_compute. repeat split. Qed.

Lemma Reflect_corrections_witness :
  ∃ r, @Reflect ascii_tables (Some sample_plan) [failed_obs (f64_lit 0 1) "timeout"] = Ok r
    ∧ ReplanType r ≠ ReplanNone.
Proof.
  destruct (@Reflect ascii_tables (Some sample_plan) [failed_obs (f64_lit 0 1) "timeout"])
    as [r|e] eqn:E; [|vm_compute in E; discriminate].
  exists r. split; [reflexivity|].
  apply (@Reflect_corrections ascii_tables sample_plan
           [failed_obs (f64_lit 0 1) "timeout"] r); [reflexivity | | exact E].
  exists (failed_obs (f64_lit 0 1) "timeout"). split; [left | reflexivity].
Defined.

End Reflector.
