(* ===== verification/StepSort.v ===== *)
(** * Ordering the steps of a plan (internal/decision/engine.go)

    [SortStepsByDependencies] is a depth-first search over the dependency
    graph.  The recursion is bounded by fuel; the search is shown to need no
    more than one unit per step, to return a permutation of the plan, and to put
    every dependency before its dependent unless the two are on a cycle.  The
    skip rule for failed dependencies is at the end. *)

From S2P Require Import Prelude GoStrings GoValues DecisionTypes.

Module StepSort.

(** The states 0, 1 and 2 of the search. *)
Inductive mark := Unvisited | Visiting | Finished.
#[global] Instance mark_eq_dec : EqDecision mark.
Proof. solve_decision. Defined.

(** The variables the closure [visit] shares: [state] and [sorted]. *)
Record dfs := { state : list mark; sorted : list PlannedStep }.

(** The map from tool names to step indices; a later step of the same name
    replaces an earlier one. *)
Definition build_index (steps : list PlannedStep) : gmap string nat :=
  list_to_map (reverse (imap (λ i s, (ToolName s, i)) steps)).

Section Sort.
Context (steps : list PlannedStep).

Definition nameIndex : gmap string nat := build_index steps.

Definition visit_dep (visit : nat → dfs → option dfs) (acc : option dfs) (dep : string) :
    option dfs :=
  match nameIndex !! dep with
  | Some depIdx => s ← acc; visit depIdx s
  | None => acc
  end.

(** [None] is running out of fuel or an index out of range. *)
Fixpoint visit (fuel : nat) (i : nat) (s : dfs) : option dfs :=
  match fuel with
  | O => None
  | S fuel =>
    m ← state s !! i;
    match m with
    | Finished | Visiting => Some s
    | Unvisited =>
      step ← steps !! i;
      s' ← foldl (visit_dep (visit fuel))
             (Some {| state := <[i := Visiting]> (state s); sorted := sorted s |})
             (Depends step);
      Some {| state := <[i := Finished]> (state s'); sorted := sorted s' ++ [step] |}
    end
  end.

Definition visit_root (fuel : nat) (acc : option dfs) (i : nat) : option dfs :=
  s ← acc;
  if decide (state s !! i = Some Unvisited) then visit fuel i s else Some s.

Definition search (fuel : nat) : option dfs :=
  foldl (visit_root fuel)
    (Some {| state := replicate (length steps) Unvisited; sorted := [] |})
    (seq 0 (length steps)).

End Sort.

(** One unit of fuel per step, and one for the visit that finds nothing left. *)
Definition SortStepsByDependencies (steps : list PlannedStep) : option (list PlannedStep) :=
  if decide (length steps ≤ 1)%nat then Some steps
  else sorted <$> search steps (S (length steps)).

Definition FailedStepNames (results : list ActResult) : gset string :=
  list_to_set (ToolName ∘ ActStep <$> filter (λ r, ActError r ≠ "") results).

Definition ShouldSkipStep (step : PlannedStep) (failedDeps : gset string) : bool :=
  existsb (λ dep, bool_decide (dep ∈ failedDeps)) (Depends step).

(** ** The search invariant *)

Section Proofs.
Context (steps : list PlannedStep).

(** Step [i] names the step [j] as a dependency. *)
Definition edge (i j : nat) : Prop :=
  ∃ st dep, steps !! i = Some st ∧ dep ∈ Depends st ∧ nameIndex steps !! dep = Some j.
Definition reach : nat → nat → Prop := star edge.

(** Each dependency of an emitted step was emitted before it, or depends on it. *)
Definition topo (order : list nat) : Prop :=
  ∀ pre j post, order = pre ++ j :: post → ∀ d, edge j d → d ∈ pre ∨ reach d j.

Record wf (s : dfs) (order : list nat) : Prop := {
  wf_len : length (state s) = length steps;
  wf_nodup : NoDup order;
  wf_done : ∀ i, i ∈ order ↔ state s !! i = Some Finished;
  wf_emit : Forall2 (λ i st, steps !! i = Some st) order (sorted s);
  wf_topo : topo order;
}.

Definition unvisited (s : dfs) : nat := length (filter (.= Unvisited) (state s)).

(** How a visit changes the state. *)
Record ext (s : dfs) (o : list nat) (s' : dfs) (o' : list nat) : Prop := {
  ext_order : ∃ k, o' = o ++ k;
  ext_visiting : ∀ j, state s' !! j = Some Visiting ↔ state s !! j = Some Visiting;
  ext_unvisited : (unvisited s' ≤ unvisited s)%nat;
}.

Lemma ext_refl s o : ext s o s o.
Proof. split; [by exists []; rewrite app_nil_r | done | done]. Qed.

Lemma ext_trans s o s1 o1 s2 o2 : ext s o s1 o1 → ext s1 o1 s2 o2 → ext s o s2 o2.
Proof.
  intros [[k1 ->] Hv1 Hu1] [[k2 ->] Hv2 Hu2]. split; [|intros j; by rewrite Hv2, Hv1|lia].
  exists (k1 ++ k2). by rewrite app_assoc.
Qed.

Lemma nameIndex_lt dep j : nameIndex steps !! dep = Some j → (j < length steps)%nat.
Proof.
  unfold nameIndex, build_index. intros H%elem_of_list_to_map_2.
  rewrite elem_of_reverse in H. apply list_elem_of_lookup in H as [i Hi].
  rewrite list_lookup_imap in Hi.
  destruct (steps !! i) eqn:E; simplify_eq/=. by apply lookup_lt_Some in E.
Qed.

Lemma topo_snoc order i :
  topo order → (∀ d, edge i d → d ∈ order ∨ reach d i) → topo (order ++ [i]).
Proof.
  intros Ht Hi pre j post E d Hd.
  destruct post as [|x post _] using rev_ind.
  - apply app_inj_tail in E as [-> ->]. auto.
  - rewrite app_comm_cons, app_assoc in E. apply app_inj_tail in E as [E _].
    by apply (Ht pre j post).
Qed.

Lemma unvisited_insert s i m :
  state s !! i = Some Unvisited → m ≠ Unvisited →
  S (length (filter (.= Unvisited) (<[i := m]> (state s)))) = unvisited s.
Proof.
  intros Hi Hm. unfold unvisited.
  rewrite insert_take_drop by (by eapply lookup_lt_Some).
  rewrite <- (take_drop_middle (state s) i Unvisited) at 3 by done.
  rewrite !filter_app, !length_app, !filter_cons.
  rewrite decide_False by done. rewrite (decide_True (P := Unvisited = Unvisited)) by done.
  simpl. lia.
Qed.

Lemma filter_insert_other (l : list mark) i m :
  m ≠ Unvisited → (length (filter (.= Unvisited) (<[i := m]> l)) ≤ length (filter (.= Unvisited) l))%nat.
Proof.
  intros Hm. destruct (decide (i < length l)%nat) as [Hi|Hi].
  - destruct (lookup_lt_is_Some_2 l i Hi) as [x Hx].
    rewrite insert_take_drop by done.
    rewrite <- (take_drop_middle l i x) at 3 by done.
    rewrite !filter_app, !length_app, !filter_cons. rewrite (decide_False (P := m = Unvisited)) by done.
    case_decide; simpl; lia.
  - rewrite list_insert_ge by lia. done.
Qed.

(** What a call of [visit] on a step promises, given enough fuel. *)
Definition visit_ok (fuel : nat) : Prop :=
  ∀ s o i, wf s o → (i < length steps)%nat → (unvisited s < fuel)%nat →
    (∀ v, state s !! v = Some Visiting → reach v i) →
    ∃ s' o', visit steps fuel i s = Some s' ∧ wf s' o' ∧ ext s o s' o' ∧
             state s' !! i ≠ Some Unvisited.

(** A finished step stays out of the unvisited ones. *)
Lemma ext_not_unvisited s o s' o' i :
  wf s o → wf s' o' → ext s o s' o' → (i < length steps)%nat →
  state s !! i ≠ Some Unvisited → state s' !! i ≠ Some Unvisited.
Proof.
  intros Hw Hw' [[k ->] Hv _] Hi Hne.
  destruct (state s !! i) as [[]|] eqn:E; [done| | |].
  - apply Hv in E. by rewrite E.
  - apply (wf_done _ _ Hw) in E.
    assert (i ∈ o ++ k) as Hin by set_solver. apply (wf_done _ _ Hw') in Hin. by rewrite Hin.
  - apply lookup_ge_None in E. rewrite (wf_len _ _ Hw) in E. lia.
Qed.

(** The loop over the dependencies of the step [i] being visited. *)
Lemma visit_deps_ok fuel i deps s o :
  visit_ok fuel → wf s o → (unvisited s < fuel)%nat →
  (∀ dep j, dep ∈ deps → nameIndex steps !! dep = Some j → edge i j) →
  (∀ v, state s !! v = Some Visiting → reach v i) →
  ∃ s' o', foldl (visit_dep steps (visit steps fuel)) (Some s) deps = Some s' ∧
    wf s' o' ∧ ext s o s' o' ∧
    ∀ dep j, dep ∈ deps → nameIndex steps !! dep = Some j → state s' !! j ≠ Some Unvisited.
Proof.
  intros IH. revert s o. induction deps as [|dep deps IHd]; intros s o Hw Hf Hed Hr.
  { exists s, o. split_and!; [done|done|apply ext_refl|]. intros dep j Hin.
    by apply elem_of_nil in Hin. }
  simpl. unfold visit_dep at 2.
  destruct (nameIndex steps !! dep) as [j|] eqn:Hj; simpl.
  - pose proof (nameIndex_lt _ _ Hj) as Hlt.
    assert (edge i j) as Heij by (apply (Hed dep); [left|done]).
    destruct (IH s o j Hw Hlt Hf) as (s1 & o1 & -> & Hw1 & He1 & Hn1).
    { intros v Hv. eapply star_trans; [by apply Hr|]. eapply star_step; [done|apply star_refl]. }
    destruct (IHd s1 o1 Hw1) as (s2 & o2 & -> & Hw2 & He2 & Hn2).
    { pose proof (ext_unvisited _ _ _ _ He1). lia. }
    { intros d k Hd Hk. apply (Hed d); [by right|done]. }
    { intros v Hv. apply Hr. by apply (ext_visiting _ _ _ _ He1). }
    exists s2, o2. split_and!; [done|done|by eapply ext_trans|].
    intros d k Hd Hk. apply elem_of_cons in Hd as [->|Hd]; [|by eapply Hn2].
    simplify_eq. by apply (ext_not_unvisited s1 o1 s2 o2).
  - destruct (IHd s o Hw Hf) as (s2 & o2 & -> & Hw2 & He2 & Hn2); [|done|].
    { intros d k Hd Hk. apply (Hed d); [by right|done]. }
    exists s2, o2. split_and!; [done..|].
    intros d k Hd Hk. apply elem_of_cons in Hd as [->|Hd]; [congruence|by eapply Hn2].
Qed.

(** Entering a step: it becomes [Visiting]. *)
Lemma enter_wf s o i :
  wf s o → state s !! i = Some Unvisited →
  wf {| state := <[i := Visiting]> (state s); sorted := sorted s |} o.
Proof.
  intros [Hl Hn Hd He Ht] Hi. split; simpl; try done; [by rewrite length_insert|].
  intros j. rewrite Hd. destruct (decide (i = j)) as [->|Hne].
  - rewrite list_lookup_insert_eq by (by eapply lookup_lt_Some). rewrite Hi. done.
  - by rewrite list_lookup_insert_ne.
Qed.

(** Leaving it: it becomes [Finished] and is emitted. *)
Lemma leave_wf s o i st :
  wf s o → state s !! i = Some Visiting → steps !! i = Some st →
  (∀ d, edge i d → d ∈ o ∨ reach d i) →
  wf {| state := <[i := Finished]> (state s); sorted := sorted s ++ [st] |} (o ++ [i]).
Proof.
  intros [Hl Hn Hd He Ht] Hi Hst Hdep. split; simpl.
  - by rewrite length_insert.
  - apply NoDup_app. split_and!; [done| |apply NoDup_singleton].
    intros x Hx ->%list_elem_of_singleton. apply Hd in Hx. congruence.
  - intros j. rewrite elem_of_app, list_elem_of_singleton, Hd.
    destruct (decide (i = j)) as [->|Hne].
    + rewrite list_lookup_insert_eq by (by eapply lookup_lt_Some). naive_solver.
    + rewrite list_lookup_insert_ne by done. naive_solver.
  - apply Forall2_app; [done|]. by constructor.
  - by apply topo_snoc.
Qed.

Lemma leave_ext s o i s1 o1 st :
  state s !! i = Some Unvisited → state s1 !! i = Some Visiting →
  ext {| state := <[i := Visiting]> (state s); sorted := sorted s |} o s1 o1 →
  ext s o {| state := <[i := Finished]> (state s1); sorted := sorted s1 ++ [st] |} (o1 ++ [i]).
Proof.
  intros Hi H1 [[k ->] Hv Hu]. simpl in *. split; simpl.
  - exists (k ++ [i]). by rewrite app_assoc.
  - intros j. destruct (decide (i = j)) as [->|Hne].
    + rewrite list_lookup_insert_eq by (by eapply lookup_lt_Some). rewrite Hi. done.
    + rewrite list_lookup_insert_ne, Hv, list_lookup_insert_ne by done. done.
  - pose proof (unvisited_insert s i Visiting Hi ltac:(done)).
    pose proof (filter_insert_other (state s1) i Finished ltac:(done)).
    unfold unvisited in *. simpl in *. lia.
Qed.

Lemma visit_ok_all fuel : visit_ok fuel.
Proof.
  induction fuel as [|fuel IH]; intros s o i Hw Hi Hf Hr; [lia|].
  destruct (lookup_lt_is_Some_2 (state s) i) as [m Hm]; [by rewrite (wf_len _ _ Hw)|].
  simpl. rewrite Hm. simpl.
  destruct m; [|exists s, o; split_and!; [done..|apply ext_refl|by rewrite Hm]..].
  destruct (lookup_lt_is_Some_2 steps i Hi) as [st Hst]. rewrite Hst. simpl.
  set (s0 := {| state := <[i := Visiting]> (state s); sorted := sorted s |}).
  assert (state s0 !! i = Some Visiting) as Hi0
    by (apply list_lookup_insert_eq; by eapply lookup_lt_Some).
  assert (∀ v, state s0 !! v = Some Visiting → reach v i) as Hr0.
  { intros v Hv. destruct (decide (i = v)) as [->|Hne]; [apply star_refl|].
    apply Hr. subst s0. simpl in Hv. by rewrite list_lookup_insert_ne in Hv. }
  destruct (visit_deps_ok fuel i (Depends st) s0 o IH) as (s1 & o1 & -> & Hw1 & He1 & Hn1); [..|done|].
  { by apply enter_wf. }
  { pose proof (unvisited_insert s i Visiting Hm ltac:(done)).
    unfold s0, unvisited in *. simpl. lia. }
  { intros dep j Hdep Hj. by exists st, dep. }
  assert (state s1 !! i = Some Visiting) as Hi1 by (by apply (ext_visiting _ _ _ _ He1)).
  simpl. eexists _, (o1 ++ [i]). split_and!; [done| |by apply leave_ext|].
  - apply leave_wf; try done. intros d (st' & dep & Hst' & Hdep & Hd). simplify_eq.
    destruct (state s1 !! d) as [[]|] eqn:E; [by destruct (Hn1 dep d)| | |].
    + right. apply Hr0. by apply (ext_visiting _ _ _ _ He1).
    + left. by apply (wf_done _ _ Hw1).
    + apply lookup_ge_None in E. rewrite (wf_len _ _ Hw1) in E.
      apply nameIndex_lt in Hd. lia.
  - simpl. rewrite list_lookup_insert_eq by (by eapply lookup_lt_Some). done.
Qed.

(** The loop over the roots. *)
Lemma roots_ok fuel l s o :
  (length steps < fuel)%nat → wf s o → (∀ i, i ∈ l → (i < length steps)%nat) →
  (∀ v, state s !! v ≠ Some Visiting) →
  ∃ s' o', foldl (visit_root steps fuel) (Some s) l = Some s' ∧ wf s' o' ∧ ext s o s' o' ∧
    ∀ i, i ∈ l → state s' !! i ≠ Some Unvisited.
Proof.
  intros Hf. revert s o. induction l as [|i l IHl]; intros s o Hw Hl Hnv.
  { exists s, o. split_and!; [done..|apply ext_refl|]. intros j Hj. by apply elem_of_nil in Hj. }
  assert (∃ s1 o1, visit_root steps fuel (Some s) i = Some s1 ∧ wf s1 o1 ∧ ext s o s1 o1 ∧
            state s1 !! i ≠ Some Unvisited) as (s1 & o1 & Hs1 & Hw1 & He1 & Hn1).
  { simpl. case_decide as Hi; [|exists s, o; split_and!; [done..|apply ext_refl|done]].
    apply visit_ok_all; [done|apply Hl; by left| |intros v Hv; by destruct (Hnv v)].
    unfold unvisited. eapply Nat.le_lt_trans; [apply length_filter|]. by rewrite (wf_len _ _ Hw). }
  destruct (IHl s1 o1 Hw1) as (s2 & o2 & Hs2 & Hw2 & He2 & Hn2).
  { intros j Hj. apply Hl. by right. }
  { intros v Hv. apply (ext_visiting _ _ _ _ He1) in Hv. by destruct (Hnv v). }
  exists s2, o2. split_and!; [|done|by eapply ext_trans|].
  - change (foldl (visit_root steps fuel) (visit_root steps fuel (Some s) i) l = Some s2).
    by rewrite Hs1.
  - intros j Hj. apply elem_of_cons in Hj as [->|Hj]; [|by apply Hn2].
    apply (ext_not_unvisited s1 o1 s2 o2); try done. apply Hl. by left.
Qed.

(** [j] is emitted before [i]. *)
Definition before (order : list nat) (j i : nat) : Prop :=
  ∃ a b c, order = a ++ j :: b ++ i :: c.

Lemma topo_before order i j :
  topo order → i ∈ order → edge i j → ¬ reach j i → before order j i.
Proof.
  intros Ht Hi He Hr. apply list_elem_of_split in Hi as (pre & post & ->).
  destruct (Ht pre i post eq_refl j He) as [Hj|Hj]; [|done].
  apply list_elem_of_split in Hj as (a & b & ->). exists a, b, post.
  by rewrite <- app_assoc.
Qed.

Lemma search_ok fuel :
  (length steps < fuel)%nat →
  ∃ s o, search steps fuel = Some s ∧ wf s o ∧ o ≡ₚ seq 0 (length steps).
Proof.
  intros Hf. unfold search.
  destruct (roots_ok fuel (seq 0 (length steps))
              {| state := replicate (length steps) Unvisited; sorted := [] |} [])
    as (s & o & -> & Hw & He & Hn); [done| | | |].
  - split; simpl; [by rewrite length_replicate|constructor| |constructor|].
    + intros i. rewrite elem_of_nil, lookup_replicate. naive_solver.
    + intros pre j post E. by destruct pre.
  - intros i Hi. apply elem_of_seq in Hi. lia.
  - intros v. simpl. rewrite lookup_replicate. naive_solver.
  - exists s, o. split_and!; [done..|].
    apply NoDup_Permutation; [by apply Hw|apply NoDup_seq|]. intros i.
    rewrite (wf_done _ _ Hw), elem_of_seq. split.
    + intros Hi%lookup_lt_Some. rewrite (wf_len _ _ Hw) in Hi. lia.
    + intros Hi. destruct (lookup_lt_is_Some_2 (state s) i) as [m Hm].
      { rewrite (wf_len _ _ Hw). lia. }
      rewrite Hm. f_equal. destruct m; [|exfalso|done].
      * destruct (Hn i); [by apply elem_of_seq|done].
      * apply (ext_visiting _ _ _ _ He) in Hm. simpl in Hm.
        apply lookup_replicate in Hm. naive_solver.
Qed.

Lemma omap_seq_suffix {A} (pre l : list A) :
  omap (λ i, (pre ++ l) !! i) (seq (length pre) (length l)) = l.
Proof.
  revert pre. induction l as [|x l IH]; intros pre; [done|]. simpl.
  rewrite list_lookup_middle by done. f_equal.
  specialize (IH (pre ++ [x])). rewrite length_app, Nat.add_1_r, <- app_assoc in IH. exact IH.
Qed.

(** Emitting a permutation of the indices emits a permutation of the steps. *)
Lemma emit_permutation (order : list nat) (l : list PlannedStep) :
  Forall2 (λ i st, steps !! i = Some st) order l → order ≡ₚ seq 0 (length steps) → l ≡ₚ steps.
Proof.
  intros H Hp.
  assert (l = omap (λ i, steps !! i) order) as ->.
  { clear Hp. induction H as [|i st o l Hi _ IH]; simpl; [done|]. by rewrite Hi, IH. }
  rewrite Hp. apply reflexive_eq, (omap_seq_suffix []).
Qed.

End Proofs.

(** Sorting always returns a permutation of the steps. *)
Lemma sort_total (steps : list PlannedStep) :
  ∃ sorted_steps, SortStepsByDependencies steps = Some sorted_steps ∧ sorted_steps ≡ₚ steps.
Proof.
  unfold SortStepsByDependencies. case_decide; [by exists steps|].
  destruct (search_ok steps (S (length steps))) as (s & o & -> & Hw & Hp); [lia|].
  exists (sorted s). split; [done|]. eapply emit_permutation; [by apply Hw|done].
Qed.

(** ** Properties *)

(** Sorting the steps of a plan always terminates with a permutation of the
    plan: no step is lost and none is run twice, whatever the dependencies,
    unknown names and cycles included. *)
Theorem SortSteps_permutation (steps : list PlannedStep) :
  ∃ sorted_steps, SortStepsByDependencies steps = Some sorted_steps ∧ sorted_steps ≡ₚ steps.
Proof. apply sort_total. Qed.

(** C3: the order is topological.  The result emits the step indices in an order
    in which step [j] comes before step [i] whenever [i] depends on [j] and [j]
    does not itself depend, directly or not, on [i]. *)
Theorem SortSteps_topological (steps : list PlannedStep) :
  ∃ order sorted_steps,
    SortStepsByDependencies steps = Some sorted_steps ∧
    Forall2 (λ i st, steps !! i = Some st) order sorted_steps ∧
    order ≡ₚ seq 0 (length steps) ∧
    ∀ i j, edge steps i j → ¬ reach steps j i → before order j i.
Proof.
  unfold SortStepsByDependencies. case_decide as Hl.
  - exists (seq 0 (length steps)), steps. split_and!; [done| |done|].
    + destruct steps as [|x [|]]; simpl in *; repeat constructor; lia || done.
    + intros i j (st & dep & Hi & _ & Hj) Hr. destruct Hr.
      apply nameIndex_lt in Hj. apply lookup_lt_Some in Hi.
      assert (i = j) as -> by lia. apply star_refl.
  - destruct (search_ok steps (S (length steps))) as (s & o & -> & Hw & Hp); [lia|].
    exists o, (sorted s). split_and!; [done|by apply Hw|done|].
    intros i j He Hr. apply topo_before with steps; [by apply Hw| |done|done].
    rewrite Hp. destruct He as (st & dep & Hi & _). apply elem_of_seq.
    apply lookup_lt_Some in Hi. lia.
Qed.

Definition named (name : string) (deps : list string) : PlannedStep := {|
  ToolName := name; Arguments_ := []; ExpectedOutcome := ""; RequiresConfirmation := false;
  Depends := deps; Rationale := ""; Fallback := "" |}.

(** The sort is not stable, contrary to its comment: with steps A (which
    depends on C), B and C, the independent steps B and C change places. *)
Theorem SortSteps_not_stable :
  SortStepsByDependencies [named "A" ["C"]; named "B" []; named "C" []]
  = Some [named "C" []; named "A" ["C"]; named "B" []].
Proof. vm_compute. reflexivity. Qed.

(** A step is skipped exactly when one of the tools it depends on has failed
    in the results so far. *)
Theorem ShouldSkipStep_iff (step : PlannedStep) (results : list ActResult) :
  ShouldSkipStep step (FailedStepNames results) = true ↔
  ∃ r, r ∈ results ∧ ActError r ≠ "" ∧ ToolName (ActStep r) ∈ Depends step.
Proof.
  unfold ShouldSkipStep, FailedStepNames. rewrite existsb_exists. split.
  - intros (dep & Hin & Hf). apply list_elem_of_In in Hin. decide_bools.
    apply elem_of_list_to_set, list_elem_of_fmap in Hf as (r & -> & Hr).
    apply list_elem_of_filter in Hr as [He Hr]. by exists r.
  - intros (r & Hr & He & Hd). exists (ToolName (ActStep r)).
    split; [by apply list_elem_of_In|]. apply bool_decide_eq_true_2.
    apply elem_of_list_to_set, list_elem_of_fmap. exists r. split; [done|].
    by apply list_elem_of_filter.
Qed.

End StepSort.
