(* ===== verification/DecisionEngine.v ===== *)
(** * The decision engine (internal/decision)

    The engine of engine.go with its Plan, Act, Observe, Reflect and Admit
    phases, the free-standing DefaultObserver (observer.go), DefaultAdmitter
    (admitter.go), tool-name validation (planner.go) and the adapters to the
    repository and the registry (adapters.go).

    What the engine calls through an interface is a field of the engine record:
    the language-model provider, the tool executor, the tool repository, the
    component registry and the link predictor.  The clock reading that gives a
    step's duration is an argument. *)

From S2P Require Import Prelude GoStrings GoValues DslAst DecisionTypes Reflector.

Module Engine.

Record toolExecutionHistory := { successes : Z; failures : Z }.
Definition total (h : toolExecutionHistory) : Z := successes h + failures h.

Record ToolCall := { CallName : string; CallArguments : list (string * any) }.
Record CompletionRequest := {
  ReqModel : string; ReqMessages : list any; ReqTools : list any;
  ReqSystemPrompt : string; ReqApiKey : string; ReqBaseURL : string;
}.
Record CompletionResponse := { Content : string; ToolCalls : list ToolCall }.
Definition Provider : Type := CompletionRequest → result string CompletionResponse.

(** The fields of the agent record that planning reads. *)
Record Agent := { AgentModel : string; AgentApiKey : string; AgentBaseUrl : string }.

(** The interfaces, for an abstract graph type. *)
Record LinkPredictor (Graph : Type) := {
  PredictLinks : Graph → string → result string (list f64);
  IsTrained : bool;
}.
Arguments PredictLinks {Graph}.
Arguments IsTrained {Graph}.

(** What an executor returns: the output, whether the tool asks for
    confirmation, and the error text if there is an error. *)
Record ExecOutcome := { ExecOutput : string; ExecConfirm : bool; ExecErr : option string }.
Definition ToolExecutor : Type := string → list (string * any) → string → string → ExecOutcome.
Definition PluginRegistry : Type := string → result string (option ComponentMetadata).
Definition ToolRepository : Type := result string (list ToolDef).

Record EngineConfig (Graph : Type) := {
  CfgProvider : option Provider;
  CfgProviderBaseURL : string;
  CfgMetaRepo : option ToolRepository;
  CfgExecutor : ToolExecutor;
  CfgRegistry : option PluginRegistry;
  CfgMaxAttempts : Z;
  CfgLinkPredictor : option (LinkPredictor Graph);
  CfgGraph : option Graph;
  CfgReflector : option (option PlanResult → list Observation → result string PlanResult);
  CfgConfirmationThreshold : f64;
  CfgTruncationThreshold : Z;
}.
Arguments CfgProvider {Graph}. Arguments CfgProviderBaseURL {Graph}.
Arguments CfgMetaRepo {Graph}. Arguments CfgExecutor {Graph}.
Arguments CfgRegistry {Graph}. Arguments CfgMaxAttempts {Graph}.
Arguments CfgLinkPredictor {Graph}. Arguments CfgGraph {Graph}.
Arguments CfgReflector {Graph}. Arguments CfgConfirmationThreshold {Graph}.
Arguments CfgTruncationThreshold {Graph}.

Record engine (Graph : Type) := {
  provider : option Provider;
  providerBaseURL : string;
  metaRepo : option ToolRepository;
  executor : ToolExecutor;
  registry : option PluginRegistry;
  maxAttempts : Z;
  linkPredictor : option (LinkPredictor Graph);
  graph : option Graph;
  reflector : option PlanResult → list Observation → result string PlanResult;
  confirmationThreshold : f64;
  truncationThreshold : Z;
  toolHistory : gmap string toolExecutionHistory;
}.
Arguments provider {Graph}. Arguments providerBaseURL {Graph}. Arguments metaRepo {Graph}.
Arguments executor {Graph}. Arguments registry {Graph}. Arguments maxAttempts {Graph}.
Arguments linkPredictor {Graph}. Arguments graph {Graph}. Arguments reflector {Graph}.
Arguments confirmationThreshold {Graph}. Arguments truncationThreshold {Graph}.
Arguments toolHistory {Graph}.

Definition with_history {G} (h : gmap string toolExecutionHistory) (e : engine G) : engine G := {|
  provider := provider e; providerBaseURL := providerBaseURL e; metaRepo := metaRepo e;
  executor := executor e; registry := registry e; maxAttempts := maxAttempts e;
  linkPredictor := linkPredictor e; graph := graph e; reflector := reflector e;
  confirmationThreshold := confirmationThreshold e; truncationThreshold := truncationThreshold e;
  toolHistory := h |}.

(** ** Tool names *)

Definition is_builtin (name : string) : bool :=
  bool_decide (name ∈ ["search_data"; "analyze_sentiment"; "get_trust_score"]).

Definition validateToolName (name : string) (reg : option PluginRegistry) : bool :=
  if is_builtin name then true
  else match reg with
       | None => false
       | Some lookup_component =>
         match lookup_component name with Ok (Some _) => true | _ => false end
       end.

Definition isKnownTool {G} (e : engine G) (name : string) : bool :=
  if is_builtin name then true else validateToolName name (registry e).

(** [MetaRepoAdapter.ListTools] and [RegistryAdapter.GetComponentByID]: errors
    pass through, records are copied field by field. *)
Definition adapt_list_tools (tools : result string (list ToolDef)) : result string (list ToolDef) :=
  let? ts := tools in
  Ok ((λ t, {| ToolDefName := ToolDefName t; ToolDefDescription := ToolDefDescription t;
               ToolDefCode := ToolDefCode t |}) <$> ts).
Definition adapt_component (comp : result string (option ComponentMetadata)) :
    result string (option ComponentMetadata) :=
  match comp with
  | Err e => Err e
  | Ok None => Ok None
  | Ok (Some c) =>
    Ok (Some {| ComponentID := ComponentID c; ComponentName := ComponentName c;
                ComponentCategory := ComponentCategory c; ComponentStatus := ComponentStatus c |})
  end.

(** ** Tool definitions *)

Definition builtin_definitions : list ToolDefinition := [
  {| TDType := "function"; TDFunction :=
     {| FnName := "search_data";
        FnDescription := "Search records from a specific business object defined in the ontology.";
        FnParameters := Some
          {| ParamType := "object";
             ParamProperties :=
               [("object_name", {| PropType := "string"; PropDescription := ""; PropDefault := None |});
                ("limit", {| PropType := "integer"; PropDescription := "";
                             PropDefault := Some (AnyNum (f64_of_int 10)) |})];
             ParamRequired := ["object_name"] |} |} |};
  {| TDType := "function"; TDFunction :=
     {| FnName := "analyze_sentiment";
        FnDescription := "Analyze the sentiment of text data. Returns a score from -1.0 (negative) to 1.0 (positive) and a label (positive/negative/neutral).";
        FnParameters := Some
          {| ParamType := "object";
             ParamProperties :=
               [("text", {| PropType := "string"; PropDescription := "The text to analyze";
                            PropDefault := None |})];
             ParamRequired := ["text"] |} |} |};
  {| TDType := "function"; TDFunction :=
     {| FnName := "get_trust_score";
        FnDescription := "Get the trust score for a prediction entity. Returns the Brier score (0.0 = perfect, 1.0 = worst) and trust level.";
        FnParameters := Some
          {| ParamType := "object";
             ParamProperties :=
               [("entity_id", {| PropType := "string";
                                 PropDescription := "The entity ID to check trust for";
                                 PropDefault := None |})];
             ParamRequired := ["entity_id"] |} |} |} ].

Definition registered_definition (t : ToolDef) : ToolDefinition :=
  {| TDType := "function";
     TDFunction := {| FnName := ToolDefName t; FnDescription := ToolDefDescription t;
                      FnParameters := None |} |}.

Definition registered_tools {G} (e : engine G) : list ToolDef :=
  match metaRepo e with Some (Ok tools) => tools | _ => [] end.

Definition buildToolDefinitions {G} (e : engine G) : list ToolDefinition :=
  builtin_definitions ++ (registered_definition <$> registered_tools e).

Definition property_map (v : PropertyDef) : any :=
  AnyMap ([("type", AnyStr (PropType v))]
    ++ (if bool_decide (PropDescription v ≠ "")
        then [("description", AnyStr (PropDescription v))] else [])
    ++ (match PropDefault v with Some d => [("default", d)] | None => [] end)).

Definition tool_map (d : ToolDefinition) : any :=
  let fn := TDFunction d in
  AnyMap [("type", AnyStr "function");
          ("function", AnyMap
            ([("name", AnyStr (FnName fn)); ("description", AnyStr (FnDescription fn))]
             ++ (match FnParameters fn with
                 | Some p =>
                   [("parameters", AnyMap
                      [("type", AnyStr "object");
                       ("properties", AnyMap ((λ kv, (kv.1, property_map kv.2)) <$> ParamProperties p));
                       ("required", AnyList (AnyStr <$> ParamRequired p))])]
                 | None => []
                 end)))].

Definition BuildToolsMap {G} (e : engine G) : list any := tool_map <$> buildToolDefinitions e.

(** ** Reading the user's message *)

Section Text.
Context `{Unicode, UnicodeFold}.

Definition any_keyword (lower : string) (ks : list string) : bool := existsb (str_contains lower) ks.

Definition inferToolsFromMessage {G} (e : engine G) (msg : string) : list string :=
  let lower := ToLower msg in
  (if any_keyword lower ["search"; "find"; "query"; "show"; "data"; "object"]
   then ["search_data"] else []) ++
  (if any_keyword lower ["sentiment"; "feeling"; "opinion"] then ["analyze_sentiment"] else []) ++
  (if any_keyword lower ["trust"; "score"; "brier"; "prediction"] then ["get_trust_score"] else []) ++
  (ToolDefName <$> filter (λ t, str_contains lower (ToLower (ToolDefName t)) = true)
                     (registered_tools e)).

(** The cutset of [strings.TrimRight], quotes last. *)
Definition punctuation : string :=
  ".,;:!?()[]{}" +:+ String squote (String dquote "").

Definition starts_upper (w : string) : bool :=
  match w with "" => false | String c _ => is_upper c end.

(** One word of the loop: keep it if it is capitalised and not seen before. *)
Definition add_reference (refs : list string) (word : string) : list string :=
  let w := trim_right_set punctuation word in
  if starts_upper w && bool_decide (w ∉ refs) then refs ++ [w] else refs.

Definition extractObjectReferences (msg : string) : list string :=
  foldl add_reference [] (Fields msg).

Definition object_names (prog : Program) : list string :=
  omap (λ s, match s with SObject o => Some (ObjName o) | _ => None end) (Statements prog).

Definition add_match (lowerMsg : string) (matched : list string) (name : string) : list string :=
  if bool_decide (name ∈ matched) then matched
  else if regexp_match_word name lowerMsg then matched ++ [name] else matched.

(** [parse] is the generated parser. *)
Definition extractObjectReferencesWithOntology (parse : string → result string Program)
    (msg ontContent : string) : list string :=
  if bool_decide (ontContent = "") then extractObjectReferences msg
  else match parse ontContent with
       | Err _ => extractObjectReferences msg
       | Ok prog => foldl (add_match (ToLower msg)) [] (object_names prog)
       end.

(** ** Plan *)

(** Sigmoid of the largest score, with [math.Exp] a parameter. *)
Definition ConfidenceFromPredictions (math_exp : f64 → f64) (scores : list f64) : f64 :=
  if bool_decide (scores = []) then f64_lit 1 2
  else
    let maxScore := foldl (λ m s, if f64_lt m s then s else m) (f64_of_int 0) scores in
    f64_div (f64_of_int 1) (f64_add (f64_of_int 1) (math_exp (f64_neg maxScore))).

(** The sum and count of the confidences of the tools the predictor scores. *)
Definition blend_scores {G} (math_exp : f64 → f64) (lp : LinkPredictor G) (g : G)
    (tools : list string) : f64 * Z :=
  foldl (λ acc tool,
      match PredictLinks lp g tool with
      | Ok scores => (f64_add acc.1 (ConfidenceFromPredictions math_exp scores), acc.2 + 1)
      | Err _ => acc
      end) (f64_of_int 0, 0) tools.

Definition plan_confidence {G} (math_exp : f64 → f64) (e : engine G) (tools : list string) : f64 :=
  match linkPredictor e, graph e with
  | Some lp, Some g =>
    if IsTrained lp && bool_decide (tools ≠ []) then
      let '(totalScore, count) := blend_scores math_exp lp g tools in
      if bool_decide (count > 0) then
        let gnnConf := f64_div totalScore (f64_of_int count) in
        f64_add (f64_mul (f64_lit 7 10) (f64_lit 8 10)) (f64_mul (f64_lit 3 10) gnnConf)
      else f64_lit 8 10
    else f64_lit 8 10
  | _, _ => f64_lit 8 10
  end.

Definition planned_tool {G} (e : engine G) (toolName : string) : PlannedStep := {|
  ToolName := toolName; Arguments_ := [];
  ExpectedOutcome := "execute " +:+ toolName +:+ " to fulfill user request";
  RequiresConfirmation := negb (isKnownTool e toolName);
  Depends := []; Rationale := ""; Fallback := "" |}.

Definition Plan {G} (parse : string → result string Program) (math_exp : f64 → f64)
    (e : engine G) (msg ontContent : string) : PlanResult :=
  let neededTools := inferToolsFromMessage e msg in
  let targets := extractObjectReferencesWithOntology parse msg ontContent in
  match provider e with
  | None =>
    {| PlanIntent := {| PrimaryGoal := msg; NeededTools := neededTools;
                        TargetObjects := targets; Confidence := f64_lit 1 2 |};
       Steps := [step_of "query_dispatch" [("query", AnyStr msg)]];
       CanProceed := true;
       Reason := "degraded mode: heuristic planning (no LLM provider)";
       CorrectionSteps := []; ReplanType := ReplanNone |}
  | Some _ =>
    {| PlanIntent := {| PrimaryGoal := msg; NeededTools := neededTools;
                        TargetObjects := targets;
                        Confidence := plan_confidence math_exp e neededTools |};
       Steps := planned_tool e <$> neededTools;
       CanProceed := true; Reason := "plan ready";
       CorrectionSteps := []; ReplanType := ReplanNone |}
  end.

Definition completion_request {G} (e : engine G) (msg : string) (agent : option Agent) :
    CompletionRequest :=
  let model := match agent with Some a => AgentModel a | None => "" end in
  let apiKey := match agent with Some a => AgentApiKey a | None => "" end in
  let baseURL := match agent with Some a => AgentBaseUrl a | None => "" end in
  {| ReqModel := if bool_decide (model = "") then "llama3" else model;
     ReqMessages := [AnyMap [("role", AnyStr "user"); ("content", AnyStr msg)]];
     ReqTools := BuildToolsMap e;
     ReqSystemPrompt := "You are a planning agent. Analyze the user's request and determine which tools to call.";
     ReqApiKey := apiKey;
     ReqBaseURL :=
       if bool_decide (baseURL = "") then
         if bool_decide (providerBaseURL e ≠ "") then providerBaseURL e
         else "http://localhost:11434"
       else baseURL |}.

(** [provider.Complete]: every call of it is added to the log of requests. *)
Definition Complete_ (complete : Provider) (req : CompletionRequest) (log : list CompletionRequest) :
    list CompletionRequest * result string CompletionResponse := (log ++ [req], complete req).

Definition PlanWithProvider {G} (parse : string → result string Program) (math_exp : f64 → f64)
    (e : engine G) (msg ontContent : string) (agent : option Agent) (prov : option Provider)
    (log : list CompletionRequest) : list CompletionRequest * PlanResult :=
  match prov with
  | None => (log, Plan parse math_exp e msg ontContent)
  | Some complete =>
    let '(log, answer) := Complete_ complete (completion_request e msg agent) log in
    (log, match answer with
    | Err _ => Plan parse math_exp e msg ontContent
    | Ok completion =>
      {| PlanIntent := {| PrimaryGoal := msg; NeededTools := [];
                          TargetObjects := extractObjectReferencesWithOntology parse msg ontContent;
                          Confidence := f64_lit 7 10 |};
         Steps := (λ tc, step_of (CallName tc) (CallArguments tc)) <$> ToolCalls completion;
         CanProceed := true; Reason := "planned via LLM";
         CorrectionSteps := []; ReplanType := ReplanNone |}
    end)
  end.

(** ** Construction *)

Definition NewEngine {G} (cfg : EngineConfig G) : engine G :=
  let conf := CfgConfirmationThreshold cfg in
  let conf := if f64_lt conf (f64_of_int 0) then f64_of_int 0 else conf in
  let conf := if f64_lt (f64_of_int 1) conf then f64_of_int 1 else conf in
  {| provider := CfgProvider cfg; providerBaseURL := CfgProviderBaseURL cfg;
     metaRepo := CfgMetaRepo cfg; executor := CfgExecutor cfg; registry := CfgRegistry cfg;
     maxAttempts := if bool_decide (CfgMaxAttempts cfg ≤ 0) then 5 else CfgMaxAttempts cfg;
     linkPredictor := CfgLinkPredictor cfg; graph := CfgGraph cfg;
     reflector := default Reflector.Reflect (CfgReflector cfg);
     confirmationThreshold := conf;
     truncationThreshold :=
       if bool_decide (CfgTruncationThreshold cfg ≤ 0) then 1900 else CfgTruncationThreshold cfg;
     toolHistory := ∅ |}.

End Text.

(** ** Act *)

Definition record_outcome (failed : bool) (h : toolExecutionHistory) : toolExecutionHistory :=
  if failed then {| successes := successes h; failures := failures h + 1 |}
  else {| successes := successes h + 1; failures := failures h |}.

Definition Act {G} (e : engine G) (step : PlannedStep) (projectID : string) (durationMs : Z) :
    engine G * ActResult :=
  let out := executor e (ToolName step) (Arguments_ step) projectID "" in
  let failed := bool_decide (is_Some (ExecErr out)) in
  let hist := default {| successes := 0; failures := 0 |} (toolHistory e !! ToolName step) in
  let step' := if ExecConfirm out then set_confirmation true step else step in
  (with_history (<[ToolName step := record_outcome failed hist]> (toolHistory e)) e,
   {| ActStep := step';
      Output := match ExecErr out with Some _ => "" | None => ExecOutput out end;
      ActError := default "" (ExecErr out);
      DurationMs := durationMs |}).

(** ** Observe *)

Definition trust_delta (hist : option toolExecutionHistory) (errText : string) : f64 :=
  match hist with
  | Some h =>
    if bool_decide (total h > 0) then
      f64_sub (f64_div (f64_of_int (successes h)) (f64_of_int (total h))) (f64_lit 1 2)
    else if bool_decide (errText = "") then f64_lit 5 100 else f64_neg (f64_lit 1 10)
  | None => if bool_decide (errText = "") then f64_lit 5 100 else f64_neg (f64_lit 1 10)
  end.

(** The issues both observers collect: the error, an empty output, an output
    longer than the threshold. *)
Definition collect_issues (threshold : Z) (r : ActResult) : list string :=
  (if bool_decide (ActError r ≠ "") then [ActError r] else []) ++
  (if bool_decide (Output r = "") && bool_decide (ActError r = "")
   then ["tool returned empty output"] else []) ++
  (if bool_decide (str_len (Output r) > threshold)
   then ["output was truncated due to context limits (" +:+ fmt_d (str_len (Output r))
           +:+ " > " +:+ fmt_d threshold +:+ ")"] else []).

Definition Observe {G} (e : engine G) (step : PlannedStep) (r : ActResult) : Observation :=
  let threshold :=
    if bool_decide (truncationThreshold e ≤ 0) then 1900 else truncationThreshold e in
  {| ObsStep := step; ObsActResult := r;
     Success := bool_decide (ActError r = "");
     TrustDelta := trust_delta (toolHistory e !! ToolName step) (ActError r);
     Issues := collect_issues threshold r |}.

(** [DefaultObserver] (observer.go), with its constructor's default. *)
Definition observer_threshold (threshold : Z) : Z :=
  if bool_decide (threshold ≤ 0) then 1900 else threshold.

Definition DefaultObserve (threshold : Z) (step : PlannedStep) (r : ActResult) : Observation :=
  {| ObsStep := step; ObsActResult := r;
     Success := bool_decide (ActError r = "");
     TrustDelta := if bool_decide (ActError r ≠ "") then f64_neg (f64_lit 1 10) else f64_of_int 0;
     Issues := collect_issues threshold r |}.

(** ** Reflect and Admit *)

(** The engine returns the plan it was given together with the error. *)
Definition EngineReflect {G} (e : engine G) (plan : option PlanResult) (obs : list Observation) :
    option PlanResult * option string :=
  match reflector e plan obs with
  | Err err => (plan, Some ("reflection failed: " +:+ err))
  | Ok r => (Some r, None)
  end.

Definition Admit {G} (e : engine G) (results : list ActResult) (maxAtt : Z) : bool :=
  let maxAtt := if bool_decide (maxAtt ≤ 0) then maxAttempts e else maxAtt in
  if bool_decide (maxAtt ≤ Z.of_nat (length results)) then true
  else match last results with
       | Some r => bool_decide (ActError r ≠ "")
       | None => false
       end.

Definition DefaultAdmit (results : list ActResult) (maxAtt : Z) : bool :=
  match last results with
  | None => false
  | Some r =>
    if bool_decide (maxAtt > 0 ∧ maxAtt ≤ Z.of_nat (length results)) then true
    else bool_decide (ActError r ≠ "")
  end.

Definition ShouldAutoSkip {G} (e : engine G) (step : PlannedStep) : bool :=
  RequiresConfirmation step && f64_lt (f64_of_int 0) (confirmationThreshold e).

(** [TrainLinkModel], given the graph's node count and the predictor's
    training function. *)
Definition TrainLinkModel {G} (e : engine G) (train : G → Z → option string) (numNodes : G → Z)
    (g : option G) (epochs : Z) : option string :=
  match linkPredictor e with
  | None => None
  | Some _ =>
    match g with
    | None => Some "decision: cannot train link model on empty graph"
    | Some g =>
      if bool_decide (numNodes g = 0) then Some "decision: cannot train link model on empty graph"
      else train g epochs
    end
  end.

(** ** Sequences of executions *)

(** One entry per call of [Act]: the step, the project and the duration. *)
Definition call : Type := PlannedStep * string * Z.

Fixpoint run_acts {G} (e : engine G) (calls : list call) : engine G * list ActResult :=
  match calls with
  | [] => (e, [])
  | (step, project, ms) :: calls =>
    let '(e1, r) := Act e step project ms in
    let '(e2, rs) := run_acts e1 calls in
    (e2, r :: rs)
  end.

Definition call_fails {G} (e : engine G) (c : call) : Prop :=
  is_Some (ExecErr (executor e (ToolName c.1.1) (Arguments_ c.1.1) c.1.2 "")).
#[global] Instance call_fails_dec {G} (e : engine G) c : Decision (call_fails e c).
Proof. unfold call_fails. apply _. Defined.

(** Calls of one tool that fail, and that succeed. *)
Definition n_failed {G} (e : engine G) (tool : string) (calls : list call) : Z :=
  Z.of_nat (length (filter (λ c, ToolName c.1.1 = tool ∧ call_fails e c) calls)).
Definition n_succeeded {G} (e : engine G) (tool : string) (calls : list call) : Z :=
  Z.of_nat (length (filter (λ c, ToolName c.1.1 = tool ∧ ¬ call_fails e c) calls)).

Lemma Act_executor {G} (e : engine G) step project ms :
  executor (Act e step project ms).1 = executor e.
Proof. done. Qed.

Lemma call_fails_ext {G} (e e' : engine G) c :
  executor e' = executor e → call_fails e' c ↔ call_fails e c.
Proof. unfold call_fails. by intros ->. Qed.

Lemma counts_ext {G} (e e' : engine G) tool calls :
  executor e' = executor e →
  n_failed e' tool calls = n_failed e tool calls ∧
  n_succeeded e' tool calls = n_succeeded e tool calls.
Proof.
  intros He. unfold n_failed, n_succeeded.
  split; do 2 f_equal; apply list_filter_iff; intros c;
    pose proof (call_fails_ext e e' c He); tauto.
Qed.

Lemma length_filter_cons_Z {A} (P : A → Prop) `{∀ x, Decision (P x)} x l :
  Z.of_nat (length (filter P (x :: l)))
  = (if decide (P x) then 1 else 0) + Z.of_nat (length (filter P l)).
Proof. rewrite filter_cons. case_decide; simpl; lia. Qed.

Lemma n_failed_cons {G} (e : engine G) tool c calls :
  n_failed e tool (c :: calls)
  = (if decide (ToolName c.1.1 = tool) then if decide (call_fails e c) then 1 else 0 else 0)
    + n_failed e tool calls.
Proof.
  unfold n_failed. rewrite length_filter_cons_Z. f_equal. repeat case_decide; tauto.
Qed.

Lemma n_succeeded_cons {G} (e : engine G) tool c calls :
  n_succeeded e tool (c :: calls)
  = (if decide (ToolName c.1.1 = tool) then if decide (call_fails e c) then 0 else 1 else 0)
    + n_succeeded e tool calls.
Proof.
  unfold n_succeeded. rewrite length_filter_cons_Z. f_equal. repeat case_decide; tauto.
Qed.

Lemma run_acts_history_gen {G} (e : engine G) calls tool :
  let h := default {| successes := 0; failures := 0 |} (toolHistory e !! tool) in
  let h' := default {| successes := 0; failures := 0 |} (toolHistory (run_acts e calls).1 !! tool) in
  successes h' = successes h + n_succeeded e tool calls ∧
  failures h' = failures h + n_failed e tool calls.
Proof.
  revert e. induction calls as [|[[step project] ms] calls IH]; intros e.
  { unfold n_succeeded, n_failed. simpl. lia. }
  cbn [run_acts].
  destruct (Act e step project ms) as [e1 r] eqn:HA.
  assert (executor e1 = executor e) as Hex by (by rewrite <- (Act_executor e step project ms), HA).
  assert (toolHistory e1 = <[ToolName step := record_outcome (bool_decide (call_fails e (step, project, ms)))
            (default {| successes := 0; failures := 0 |} (toolHistory e !! ToolName step))]> (toolHistory e))
    as Hh by (unfold Act in HA; by simplify_eq).
  specialize (IH e1). destruct (run_acts e1 calls) as [e2 rs]. simpl in *.
  destruct IH as [-> ->]. destruct (counts_ext e e1 tool calls Hex) as [-> ->].
  rewrite n_failed_cons, n_succeeded_cons, Hh, lookup_insert. simpl.
  destruct (decide (ToolName step = tool)) as [Ht|Ht]; [subst tool|simpl; lia].
  destruct (decide (call_fails e (step, project, ms))) as [Hf|Hf];
    [rewrite (bool_decide_eq_true_2 _ Hf)|rewrite (bool_decide_eq_false_2 _ Hf)]; simpl; lia.
Qed.

(** ** Properties *)

(** The trust history is an exact count.  After any sequence of executions
    on a new engine, the successes and failures recorded for a tool are the
    numbers of its executions that returned no error and that returned one. *)
Theorem run_acts_history `{Unicode} {G} (cfg : EngineConfig G) (calls : list call) (tool : string) :
  let e := NewEngine cfg in
  let h := default {| successes := 0; failures := 0 |} (toolHistory (run_acts e calls).1 !! tool) in
  successes h = n_succeeded e tool calls ∧ failures h = n_failed e tool calls.
Proof. apply (run_acts_history_gen (NewEngine cfg) calls tool). Qed.

(** One failure of a tool with no history stops the plan.  [Act] records the
    outcome before [Observe] reads it, so the first failing execution is observed
    with trust -0.5 (never the -0.1 announced for a tool without history), is
    classified critical, and [Reflect] answers with a full replan. *)
Theorem first_failure_is_critical `{Unicode} {G} (e : engine G) (step : PlannedStep)
    (project err : string) (ms : Z) (plan : PlanResult) :
  toolHistory e !! ToolName step = None →
  ExecErr (executor e (ToolName step) (Arguments_ step) project "") = Some err → err ≠ "" →
  CanProceed plan = true →
  let '(e', r) := Act e step project ms in
  let obs := Observe e' step r in
  TrustDelta obs = f64_neg (f64_lit 1 2) ∧ Reflector.is_critical obs ∧
  ∃ p, Reflector.Reflect (Some plan) [obs] = Ok p ∧ CanProceed p = false ∧ ReplanType p = ReplanFull.
Proof.
  intros Hh He Hne Hp. unfold Act. rewrite He, Hh. simpl.
  set (e' := with_history _ e). set (r := Build_ActResult _ _ _ _). cbv zeta.
  assert (TrustDelta (Observe e' step r) = f64_neg (f64_lit 1 2)) as Ht.
  { unfold Observe, e', with_history. simpl. rewrite lookup_insert_eq. done. }
  assert (Success (Observe e' step r) = false) as Hs by (by apply bool_decide_eq_false_2).
  assert (Reflector.is_critical (Observe e' step r)) as Hc.
  { split; [exact Hs|]. apply Reflector.distrust. rewrite Ht. done. }
  split; [done|]. split; [done|].
  destruct (Reflector.Reflect_critical plan [Observe e' step r] (Observe e' step r)) as (p & ? & ? & ?);
    [done|left|done|eauto].
Qed.

(** The loop is bounded and stops on errors: [Admit] ends the loop exactly
    when the number of results has reached the attempt limit (the engine's own
    limit when the caller gives none) or the last result is an error. *)
Theorem Admit_iff {G} (e : engine G) (results : list ActResult) (maxAtt : Z) :
  Admit e results maxAtt = true ↔
    (if decide (maxAtt ≤ 0) then maxAttempts e else maxAtt) ≤ Z.of_nat (length results) ∨
    ∃ r, last results = Some r ∧ ActError r ≠ "".
Proof.
  unfold Admit. rewrite (bool_decide_decide (maxAtt ≤ 0)).
  destruct (decide (maxAtt ≤ 0)); case_bool_decide; simpl;
    (destruct (last results); [rewrite ?bool_decide_eq_true|]); naive_solver.
Qed.

(** The two Admit implementations agree for every positive attempt limit,
    and the two Observe implementations agree on success and on the issues. *)
Theorem default_phases_agree {G} (e : engine G) (step : PlannedStep) (r : ActResult)
    (results : list ActResult) (maxAtt : Z) :
  0 < maxAtt →
  Admit e results maxAtt = DefaultAdmit results maxAtt ∧
  Success (Observe e step r) = Success (DefaultObserve (observer_threshold (truncationThreshold e)) step r) ∧
  Issues (Observe e step r) = Issues (DefaultObserve (observer_threshold (truncationThreshold e)) step r).
Proof.
  intros Hm. split; [|done]. unfold Admit, DefaultAdmit.
  rewrite (bool_decide_eq_false_2 (maxAtt ≤ 0)) by lia.
  destruct (last results) as [x|] eqn:E.
  - repeat case_bool_decide; naive_solver lia.
  - apply last_None in E as ->. simpl. by rewrite bool_decide_eq_false_2 by lia.
Qed.

(** The constructor's limits are sane whatever the configuration: a positive
    attempt limit, a positive truncation threshold, a confirmation threshold
    that is neither below 0 nor above 1. *)
Theorem NewEngine_limits `{Unicode} {G} (cfg : EngineConfig G) :
  let e := NewEngine cfg in
  0 < maxAttempts e ∧ 0 < truncationThreshold e ∧
  f64_lt (confirmationThreshold e) (f64_of_int 0) = false ∧
  f64_lt (f64_of_int 1) (confirmationThreshold e) = false ∧ toolHistory e = ∅.
Proof.
  unfold NewEngine. cbn [maxAttempts truncationThreshold confirmationThreshold toolHistory].
  split_and!; [by case_bool_decide; lia | by case_bool_decide; lia | | |done];
    (destruct (f64_lt (CfgConfirmationThreshold cfg) (f64_of_int 0)) eqn:E1; [reflexivity|]);
    destruct (f64_lt (f64_of_int 1) (CfgConfirmationThreshold cfg)) eqn:E2;
    first [assumption | reflexivity].
Qed.

(** With a provider configured, the plan has one step per inferred tool, in
    order, and a step asks for confirmation exactly when its tool is neither
    built in nor found in the registry by its exact name. *)
Theorem Plan_steps `{Unicode, UnicodeFold} {G} (parse : string → result string Program)
    (math_exp : f64 → f64) (e : engine G) (msg ont : string) :
  is_Some (provider e) →
  let p := Plan parse math_exp e msg ont in
  CanProceed p = true ∧ ToolName <$> Steps p = NeededTools (PlanIntent p) ∧
  ∀ s, s ∈ Steps p →
    (RequiresConfirmation s = true ↔
     is_builtin (ToolName s) = false ∧
     (∀ reg c, registry e = Some reg → reg (ToolName s) ≠ Ok (Some c))).
Proof.
  intros [prov Hp] p. subst p. unfold Plan. rewrite Hp. simpl. split_and!; [done| |].
  - rewrite <- list_fmap_compose. apply list_fmap_id.
  - intros s (t & -> & Ht)%list_elem_of_fmap. simpl.
    unfold isKnownTool, validateToolName.
    destruct (is_builtin t); simpl; [by split; [|intros []]|].
    destruct (registry e) as [reg|]; simpl; [|by split].
    destruct (reg t) as [[c|]|err] eqn:E; simpl.
    + split; [done|]. intros [_ Hn]. by destruct (Hn reg c).
    + split; [|done]. intros _. split; [done|]. intros reg' c' [= <-]. congruence.
    + split; [|done]. intros _. split; [done|]. intros reg' c' [= <-]. congruence.
Qed.

(** A concrete engine for the examples: its executor fails. *)
Definition failing_config : EngineConfig unit := {|
  CfgProvider := Some (λ _, Err "down"); CfgProviderBaseURL := ""; CfgMetaRepo := None;
  CfgExecutor := λ _ _ _ _, {| ExecOutput := ""; ExecConfirm := false; ExecErr := Some "timeout" |};
  CfgRegistry := None; CfgMaxAttempts := 0; CfgLinkPredictor := None; CfgGraph := None;
  CfgReflector := None; CfgConfirmationThreshold := f64_lit 0 1; CfgTruncationThreshold := 0 |}.
Definition failing_engine : engine unit := @NewEngine ascii_tables unit failing_config.

Lemma first_failure_is_critical_witness :
  let '(e', r) := Act failing_engine (step_of "fetch" []) "p" 3 in
  let obs := Observe e' (step_of "fetch" []) r in
  TrustDelta obs = f64_neg (f64_lit 1 2) ∧ @Reflector.is_critical ascii_tables obs ∧
  ∃ p, @Reflector.Reflect ascii_tables (Some Reflector.sample_plan) [obs] = Ok p ∧
       CanProceed p = false ∧ ReplanType p = ReplanFull.
Proof.
  apply (@first_failure_is_critical ascii_tables unit failing_engine (step_of "fetch" []) "p"
           "timeout" 3 Reflector.sample_plan); reflexivity || discriminate.
Defined.

Lemma default_phases_agree_witness :
  Admit failing_engine [] 3 = DefaultAdmit [] 3.
Proof.
  apply (default_phases_agree failing_engine (step_of "x" [])
           {| ActStep := step_of "x" []; Output := "ok"; ActError := ""; DurationMs := 1 |} [] 3).
  reflexivity.
Defined.

Lemma Plan_steps_witness :
  CanProceed (@Plan ascii_tables ascii_fold_tables unit (λ _, Err "x") (λ x, x)
                failing_engine "find the trust score" "") = true.
Proof.
  apply (@Plan_steps ascii_tables ascii_fold_tables unit (λ _, Err "x") (λ x, x)
           failing_engine "find the trust score" "").
  exists (λ _, Err "down"). reflexivity.
Defined.

End Engine.
