(* ===== verification/CircuitBreaker.v ===== *)
(** * Circuit breakers

    The program has three.  [Middleware] is the reusable one of
    internal/middleware/circuitbreaker.go; it releases its lock while the
    protected function runs, so calls overlap, and it is modelled as a
    transition system whose steps are the two critical sections.  [Nlp] is the
    one of internal/api/handler/breaker.go in front of the NLP sidecar.  The
    third, inside the language-model provider, is in file LlmProvider.  Class
    [Breaker] states what all three promise to the code they protect. *)

From S2P Require Import Prelude GoStrings.

(** ** The promise of a breaker

    [br_admit now s] is the decision on a request at time [now]; a request that
    is refused does not reach the protected dependency.  [br_since] is the time
    of the event that last touched the state.  An open breaker refuses every
    request from then on up to its deadline, stays open, and does not bring the
    deadline forward. *)
Class Breaker (B : Type) := {
  br_admit : Time → B → B * bool;
  br_open : B → Prop;
  br_since : B → Time;
  br_deadline : B → Time;
  br_refuses : ∀ now s, br_open s → br_since s ≤ now ≤ br_deadline s →
    (br_admit now s).2 = false ∧ br_open (br_admit now s).1 ∧
    br_since (br_admit now s).1 ≤ now ∧
    br_deadline s ≤ br_deadline (br_admit now s).1;
}.

(** The requests of a client, one per time: how many reach the dependency. *)
Fixpoint reached {B} `{Breaker B} (times : list Time) (s : B) : nat :=
  match times with
  | [] => 0
  | now :: times =>
    let '(s', ok) := br_admit now s in
    ((if ok then 1 else 0) + reached times s')%nat
  end.

(** Times from a clock that does not go backwards, none after [limit]. *)
Fixpoint clock (last limit : Time) (times : list Time) : Prop :=
  match times with
  | [] => True
  | now :: times => last ≤ now ≤ limit ∧ clock now limit times
  end.

Lemma clock_weaken last last' limit limit' times :
  last' ≤ last → limit ≤ limit' → clock last limit times → clock last' limit' times.
Proof.
  intros Hl Hm. revert last last' Hl. induction times as [|now times IH]; simpl; [done|].
  intros last last' Hl [Hn Hc]. split; [lia|]. by apply (IH now).
Qed.

Lemma reached_open_zero {B} `{Breaker B} (times : list Time) (s : B) :
  br_open s → clock (br_since s) (br_deadline s) times → reached times s = 0%nat.
Proof.
  revert s. induction times as [|now times IH]; intros s Ho Ht; simpl; [done|].
  destruct Ht as [Hn Hc].
  destruct (br_refuses now s Ho Hn) as (Hr & Ho' & Hs & Hd).
  destruct (br_admit now s) as [s' ok]. simpl in *. subst ok. simpl.
  apply IH; [done|]. by apply (clock_weaken now _ (br_deadline s)).
Qed.

(** ** internal/middleware/circuitbreaker.go *)

Module Middleware.

Inductive State := StateClosed | StateOpen | StateHalfOpen.
#[global] Instance State_eq_dec : EqDecision State.
Proof. solve_decision. Defined.

Record CircuitBreaker := {
  state : State;
  failureCount : Z;
  lastFailureTime : Time;
  threshold : Z;
  cooldown : Duration;
}.

Definition NewCircuitBreaker (thr : Z) (cool : Duration) : CircuitBreaker := {|
  state := StateClosed; failureCount := 0; lastFailureTime := 0;
  threshold := if bool_decide (thr ≤ 0) then 5 else thr;
  cooldown := if bool_decide (cool ≤ 0) then 30 * second else cool |}.

(** The first critical section of [Execute]: refuse, or let the call run. *)
Definition before (now : Time) (cb : CircuitBreaker) : option CircuitBreaker :=
  match state cb with
  | StateOpen =>
    if bool_decide (time_sub now (lastFailureTime cb) > cooldown cb) then
      Some {| state := StateHalfOpen; failureCount := failureCount cb;
              lastFailureTime := lastFailureTime cb;
              threshold := threshold cb; cooldown := cooldown cb |}
    else None
  | _ => Some cb
  end.

(** The second one, after the call has returned. *)
Definition after (now : Time) (failed : bool) (cb : CircuitBreaker) : CircuitBreaker :=
  if failed then
    let count := failureCount cb + 1 in
    {| state := if bool_decide (threshold cb ≤ count) then StateOpen else state cb;
       failureCount := count; lastFailureTime := now;
       threshold := threshold cb; cooldown := cooldown cb |}
  else
    {| state := StateClosed; failureCount := 0; lastFailureTime := lastFailureTime cb;
       threshold := threshold cb; cooldown := cooldown cb |}.

Definition Reset (cb : CircuitBreaker) : CircuitBreaker := {|
  state := StateClosed; failureCount := 0; lastFailureTime := lastFailureTime cb;
  threshold := threshold cb; cooldown := cooldown cb |}.

Inductive exec_error (E : Type) := ErrCircuitOpen | ErrInner (e : E).
Arguments ErrCircuitOpen {E}.
Arguments ErrInner {E} _.

(** [Execute] of a call that starts at [now], ends at [done] and returns [fn],
    with no other call in between. *)
Definition Execute {E A} (now done : Time) (fn : result E A) (cb : CircuitBreaker) :
    CircuitBreaker * result (exec_error E) A :=
  match before now cb with
  | None => (cb, Err ErrCircuitOpen)
  | Some cb1 =>
    match fn with
    | Err e => (after done true cb1, Err (ErrInner e))
    | Ok a => (after done false cb1, Ok a)
    end
  end.

(** [WrapUnary] and [WrapStreamingHandler] run the handler through [Execute]. *)
Definition WrapUnary {E A} (now done : Time) (next : result E A) (cb : CircuitBreaker) :
    CircuitBreaker * result (exec_error E) A := Execute now done next cb.

(** *** Overlapping calls *)

(** What can happen to a shared breaker: a call asks to start, a running call
    ends, somebody resets it. *)
Inductive event :=
| EvStart (now : Time)
| EvEnd (now : Time) (failed : bool)
| EvReset.

(** The breaker and the number of calls running. *)
Record sys := { brk : CircuitBreaker; running : nat }.

Definition apply_event (ev : event) (s : sys) : option sys :=
  match ev with
  | EvStart now =>
    match before now (brk s) with
    | Some cb => Some {| brk := cb; running := S (running s) |}
    | None => Some s
    end
  | EvEnd now failed =>
    match running s with
    | O => None
    | S n => Some {| brk := after now failed (brk s); running := n |}
    end
  | EvReset => Some {| brk := Reset (brk s); running := running s |}
  end.

Inductive step : sys → sys → Prop :=
| step_event s ev s' : apply_event ev s = Some s' → step s s'.

Definition initial (thr : Z) (cool : Duration) : sys :=
  {| brk := NewCircuitBreaker thr cool; running := 0 |}.

(** The breaker is closed exactly when fewer failures than the threshold have
    been counted. *)
Record inv (cb : CircuitBreaker) : Prop := {
  inv_threshold : 0 < threshold cb;
  inv_cooldown : 0 < cooldown cb;
  inv_count : 0 ≤ failureCount cb;
  inv_closed : state cb = StateClosed ↔ failureCount cb < threshold cb;
}.

Lemma New_inv thr cool : inv (NewCircuitBreaker thr cool).
Proof.
  unfold NewCircuitBreaker. split; simpl; try lia; try (case_bool_decide; unfold second; lia).
  split; [|done]. intros _. case_bool_decide; lia.
Qed.

Lemma before_inv now cb cb' : inv cb → before now cb = Some cb' → inv cb'.
Proof.
  intros [Ht Hc Hn Hs]. unfold before.
  destruct (state cb) eqn:E; [intros [= <-]; by split; rewrite ?E| |intros [= <-]; by split; rewrite ?E].
  case_bool_decide; [|done]. intros [= <-]. split; simpl; try done.
  rewrite <- Hs. done.
Qed.

Lemma after_inv now failed cb : inv cb → inv (after now failed cb).
Proof.
  intros [Ht Hc Hn Hs]. unfold after. destruct failed; split; simpl; try done; try lia.
  case_bool_decide; [split; [done|lia]|]. rewrite Hs. lia.
Qed.

Lemma Reset_inv cb : inv cb → inv (Reset cb).
Proof. intros [Ht Hc Hn Hs]. by split. Qed.

#[export] Hint Resolve New_inv before_inv after_inv Reset_inv : aleph.

Lemma step_inv s s' : step s s' → inv (brk s) → inv (brk s').
Proof.
  intros [s0 ev s1 H] Hi. destruct ev; simpl in H; repeat case_match; simplify_eq/=;
    eauto with aleph.
Qed.

(** *** Counting failures on traces *)

(** The specification: the number of failures since the last success or reset. *)
Definition consecutive (evs : list event) : Z :=
  foldl (λ n ev, match ev with
                 | EvStart _ => n
                 | EvEnd _ failed => if failed then n + 1 else 0
                 | EvReset => 0
                 end) 0 evs.

Fixpoint run (evs : list event) (s : sys) : option sys :=
  match evs with
  | [] => Some s
  | ev :: evs => s' ← apply_event ev s; run evs s'
  end.

Lemma run_app evs1 evs2 s : run (evs1 ++ evs2) s = (s' ← run evs1 s; run evs2 s').
Proof.
  revert s. induction evs1 as [|ev evs IH]; intros s; simpl; [done|].
  destruct (apply_event ev s); simpl; auto.
Qed.

Lemma apply_event_count ev s s' n :
  apply_event ev s = Some s' → failureCount (brk s) = n →
  failureCount (brk s') =
    match ev with
    | EvStart _ => n
    | EvEnd _ failed => if failed then n + 1 else 0
    | EvReset => 0
    end.
Proof.
  intros H Hn. destruct ev as [now|now failed|]; simpl in H.
  - unfold before in H. repeat case_match; simplify_eq/=; done.
  - destruct (running s); [done|]. destruct failed; simplify_eq/=; done.
  - by simplify_eq/=.
Qed.

Lemma run_inv evs s s' : run evs s = Some s' → inv (brk s) → inv (brk s').
Proof.
  revert s. induction evs as [|ev evs IH]; intros s Hr Hi; simpl in Hr; [by simplify_eq|].
  destruct (apply_event ev s) as [s1|] eqn:E; simplify_eq/=.
  apply (IH s1 Hr). eapply step_inv; [by econstructor|done].
Qed.

Lemma run_count evs s s' :
  run evs s = Some s' → failureCount (brk s) = 0 → failureCount (brk s') = consecutive evs.
Proof.
  revert s'. induction evs as [|ev evs IH] using rev_ind; intros s' Hr H0; [by simplify_eq/=|].
  rewrite run_app in Hr. destruct (run evs s) as [s1|] eqn:E1; simplify_eq/=.
  destruct (apply_event ev s1) as [s2|] eqn:E2; simplify_eq/=.
  unfold consecutive. rewrite foldl_app. simpl.
  by rewrite (apply_event_count _ _ _ _ E2 (IH s1 eq_refl H0)).
Qed.

#[global] Program Instance middleware_breaker : Breaker CircuitBreaker := {|
  br_admit now cb := match before now cb with Some cb' => (cb', true) | None => (cb, false) end;
  br_open cb := state cb = StateOpen ∧ 0 ≤ cooldown cb ≤ max_int64;
  br_since cb := lastFailureTime cb;
  br_deadline cb := lastFailureTime cb + cooldown cb |}.
Next Obligation.
  intros now s [Ho Hc] [Hs Hd]. simpl in *. unfold before. rewrite Ho.
  rewrite bool_decide_eq_false_2; [simpl; split_and!; done || lia|].
  go_unfold_time. unfold min_int64, max_int64 in *. lia.
Qed.

(** *** Properties *)

(** In every state reachable by any interleaving of starting calls, ending
    calls and resets, the breaker is closed exactly when it has counted fewer
    failures than the threshold; hence a call that fails while the breaker is
    half-open opens it again. *)
Theorem reachable_closed_iff (thr : Z) (cool : Duration) (s : sys) :
  star step (initial thr cool) s →
  (state (brk s) = StateClosed ↔ failureCount (brk s) < threshold (brk s)) ∧
  (state (brk s) = StateHalfOpen → ∀ now, state (after now true (brk s)) = StateOpen).
Proof.
  intros Hs.
  assert (inv (brk s)) as [Ht Hc Hn Hi]
    by exact (star_invariant _ (λ s, inv (brk s)) step_inv _ _ Hs (New_inv thr cool)).
  split; [done|]. intros Hh now. simpl. rewrite bool_decide_eq_true_2; [done|].
  destruct (decide (failureCount (brk s) < threshold (brk s))) as [Hlt|]; [|lia].
  apply Hi in Hlt. congruence.
Qed.

Lemma reachable_closed_iff_witness :
  state (brk (initial 3 0)) = StateClosed.
Proof.
  apply (reachable_closed_iff 3 0 (initial 3 0)); [apply star_refl | reflexivity].
Defined.

(** C22: the failure counter refines its specification: after any trace of events
    the breaker is closed exactly when the number of failures since the last
    success or reset is below the threshold. *)
Theorem run_consecutive (thr : Z) (cool : Duration) (evs : list event) (s : sys) :
  run evs (initial thr cool) = Some s →
  failureCount (brk s) = consecutive evs ∧
  (state (brk s) = StateClosed ↔ consecutive evs < threshold (brk s)).
Proof.
  intros Hr. rewrite <- (run_count _ _ _ Hr eq_refl). split; [done|].
  apply (run_inv _ _ _ Hr), New_inv.
Qed.

Lemma run_consecutive_witness :
  ∃ s, run [EvStart 1; EvEnd 2 true; EvStart 3; EvEnd 4 true] (initial 2 5) = Some s ∧
       state (brk s) = StateOpen ∧ failureCount (brk s) = 2.
Proof.
  eexists. split; [reflexivity|]. split; [reflexivity|].
  apply (run_consecutive 2 5 [EvStart 1; EvEnd 2 true; EvStart 3; EvEnd 4 true]). reflexivity.
Defined.

(** An open breaker shields the dependency: of any requests made no later
    than the cooldown after the last failure, none runs the protected function,
    and the first one after it does. *)
Theorem open_shields (cb : CircuitBreaker) (times : list Time) :
  state cb = StateOpen → 0 ≤ cooldown cb < max_int64 →
  (clock (lastFailureTime cb) (lastFailureTime cb + cooldown cb) times →
     reached times cb = 0%nat) ∧
  (∀ now, lastFailureTime cb + cooldown cb < now → ∃ cb', before now cb = Some cb' ∧
     state cb' = StateHalfOpen).
Proof.
  intros Ho Hc. split.
  - intros Ht. apply reached_open_zero; [split; [done|lia]|done].
  - intros now Hn. unfold before. rewrite Ho, bool_decide_eq_true_2; [by eexists|].
    go_unfold_time. unfold min_int64, max_int64 in *. lia.
Qed.

Definition open_sample : CircuitBreaker := {|
  state := StateOpen; failureCount := 5; lastFailureTime := 1000; threshold := 5;
  cooldown := 30 * second |}.

Lemma open_shields_witness : reached [2000; 3000; 30 * second] open_sample = 0%nat.
Proof.
  apply (open_shields open_sample [2000; 3000; 30 * second]).
  - reflexivity.
  - vm_compute. split; [discriminate|reflexivity].
  - vm_compute. repeat split; discriminate.
Defined.

End Middleware.

(** ** internal/api/handler/breaker.go *)

Module Nlp.

Definition cbClosed : Z := 0.
Definition cbHalfOpen : Z := 1.
Definition cbOpen : Z := 2.

(** The atomics of [CircuitBreakerClient]: an int32 counter, an int32 state and
    the Unix second of the last failure.  [client] says whether the wrapped
    client is non-nil. *)
Record CircuitBreakerClient := {
  client : bool;
  failureCnt : Z;
  state : Z;
  lastFail : Z;
}.

Definition NewCircuitBreakerClient (has_client : bool) : CircuitBreakerClient :=
  {| client := has_client; failureCnt := 0; state := cbClosed; lastFail := 0 |}.

Definition set_state (s : Z) (c : CircuitBreakerClient) : CircuitBreakerClient :=
  {| client := client c; failureCnt := failureCnt c; state := s; lastFail := lastFail c |}.

Definition compare_and_swap (old new : Z) (c : CircuitBreakerClient) :
    CircuitBreakerClient * bool :=
  if bool_decide (state c = old) then (set_state new c, true) else (c, false).

Definition currentState (now : Time) (c : CircuitBreakerClient) : CircuitBreakerClient * Z :=
  if bool_decide (state c = cbOpen) then
    let elapsed := time_sub now (unix_time (lastFail c)) in
    if bool_decide (30 * second ≤ elapsed) then
      ((compare_and_swap cbOpen cbHalfOpen c).1, cbHalfOpen)
    else (c, state c)
  else (c, state c).

Definition recordFailure (now : Time) (c : CircuitBreakerClient) : CircuitBreakerClient :=
  let count := wrap32 (failureCnt c + 1) in
  let c := {| client := client c; failureCnt := count; state := state c;
              lastFail := time_unix now |} in
  if bool_decide (3 ≤ count) then
    let '(c1, swapped) := compare_and_swap cbClosed cbOpen c in
    if swapped then c1 else (compare_and_swap cbHalfOpen cbOpen c1).1
  else c.

Definition recordSuccess (c : CircuitBreakerClient) : CircuitBreakerClient :=
  {| client := client c; failureCnt := 0; state := cbClosed; lastFail := lastFail c |}.



(** The error of a refused call: unavailable, with the retry metadata of
    [NewAPIErrorWithMeta(.., true, 30000)], whose last argument is a
    [time.Duration]. *)
Record unavailable_error := { Recoverable : bool; RetryAfterMs : Z }.
Definition degraded_error : unavailable_error :=
  {| Recoverable := true; RetryAfterMs := Z.quot 30000 millisecond |}.

Inductive call_error (E : Type) := ErrDegraded (e : unavailable_error) | ErrCall (e : E).
Arguments ErrDegraded {E} _.
Arguments ErrCall {E} _.

(** [AnalyzeSentiment] and [RecordFeedback]: the same body around two calls of
    the client; [now] is read by [currentState], [done] by [recordFailure]. *)
Definition AnalyzeSentiment {E A} (now done : Time) (call : result E A)
    (c : CircuitBreakerClient) : CircuitBreakerClient * result (call_error E) A :=
  let '(c, st) := currentState now c in
  if bool_decide (st = cbOpen) || negb (client c) then
    (recordFailure done c, Err (ErrDegraded degraded_error))
  else match call with
       | Err e => (recordFailure done c, Err (ErrCall e))
       | Ok a => (recordSuccess c, Ok a)
       end.



(** Everything that reaches the breaker: a request through one of the three
    methods, at its time and answered as the sidecar would, and the marks of the
    watchdog after a health check. *)
Inductive method := MSentiment | MFeedback | MStream.
Inductive event (E A : Type) :=
| Request (m : method) (now : Time) (call : result E A)
| Healthy
| Unhealthy (now : Time).
Arguments Request {E A} _ _ _.
Arguments Healthy {E A}.
Arguments Unhealthy {E A} _.




Lemma unix_time_bounds t : t - second < unix_time (time_unix t) ≤ t.
Proof.
  unfold unix_time, time_unix. pose proof (Z.mod_pos_bound t second ltac:(unfold second; lia)).
  pose proof (Z.div_mod t second ltac:(unfold second; lia)). lia.
Qed.

Lemma currentState_open now c :
  state c = cbOpen → now < unix_time (lastFail c) + 30 * second →
  currentState now c = (c, cbOpen).
Proof.
  intros Ho Hn. unfold currentState. rewrite Ho, bool_decide_eq_true_2 by done.
  rewrite bool_decide_eq_false_2; [done|].
  go_unfold_time. unfold min_int64, max_int64, second in *. lia.
Qed.

Lemma recordFailure_open now c :
  state c = cbOpen →
  state (recordFailure now c) = cbOpen ∧ lastFail (recordFailure now c) = time_unix now.
Proof.
  intros Ho. unfold recordFailure, compare_and_swap. simpl. rewrite Ho.
  by case_bool_decide.
Qed.

Lemma unix_mono t u : t ≤ u → time_unix t ≤ time_unix u.
Proof.
  intros H. unfold time_unix. pose proof (Z.div_le_mono t u second ltac:(unfold second; lia) H). lia.
Qed.

Lemma unix_time_unix z : time_unix (unix_time z) = z.
Proof. unfold time_unix, unix_time. rewrite Z.div_mul by (unfold second; lia). lia. Qed.

#[global] Program Instance nlp_breaker : Breaker CircuitBreakerClient := {|
  br_admit now c :=
    let '(c1, st) := currentState now c in
    if bool_decide (st = cbOpen) || negb (client c1)
    then (recordFailure now c1, false) else (c1, true);
  br_open c := state c = cbOpen;
  br_since c := unix_time (lastFail c);
  br_deadline c := unix_time (lastFail c) + 30 * second - 1 |}.
Next Obligation.
  intros now c Ho [Hs Hd]. simpl in *.
  rewrite currentState_open by (done || lia). simpl.
  destruct (recordFailure_open now c Ho) as [Ho' ->]. split_and!; [done|done| |].
  - pose proof (unix_time_bounds now). lia.
  - apply unix_mono in Hs. rewrite unix_time_unix in Hs.
    unfold unix_time, second in *. lia.
Qed.

(** *** Properties *)





Definition tripped : CircuitBreakerClient :=
  {| client := true; failureCnt := 3; state := cbOpen; lastFail := time_unix 0 |}.



(** The retry hint of the degraded-mode error is lost: 30000 is passed as a
    duration in nanoseconds, which is 0 milliseconds. *)
Theorem degraded_error_no_hint : RetryAfterMs degraded_error = 0 ∧ Recoverable degraded_error = true.
Proof. vm_compute. split; reflexivity. Qed.

(** An idle breaker recovers: an open breaker with a client that is left
    alone for 30 seconds past the second of its last failure lets the next call
    through, and closes with a zero count when that call succeeds. *)
Theorem idle_recovers {E A} (c : CircuitBreakerClient) (now : Time) (a : A) :
  state c = cbOpen → client c = true →
  unix_time (lastFail c) + 30 * second ≤ now →
  ∃ c', AnalyzeSentiment (E := E) now now (Ok a) c = (c', Ok a) ∧
        state c' = cbClosed ∧ failureCnt c' = 0.
Proof.
  intros Ho Hc Hn. unfold AnalyzeSentiment, currentState, compare_and_swap.
  rewrite Ho, (bool_decide_eq_true_2 (cbOpen = cbOpen)) by done.
  rewrite (bool_decide_eq_true_2 (30 * second ≤ _)).
  - simpl. rewrite Hc. by eexists.
  - go_unfold_time. unfold min_int64, max_int64, second in *. lia.
Qed.

Lemma idle_recovers_witness :
  ∃ c', AnalyzeSentiment (E := unit) (30 * second) (30 * second) (Ok tt) tripped = (c', Ok tt) ∧
        state c' = cbClosed ∧ failureCnt c' = 0.
Proof.
  apply (idle_recovers (E := unit) tripped (30 * second) tt); [reflexivity..|].
  vm_compute. discriminate.
Defined.

End Nlp.
