(* ===== verification/LlmProvider.v ===== *)
(** * The retrying language-model provider (internal/llm/retry_provider.go)

    Retry, response cache and circuit breaker around a [Provider].  The wrapped
    provider, the clock and the cancellation of the request context are the
    environment: one [attempt] record per iteration of the retry loop. *)

From S2P Require Import Prelude GoStrings GoValues CircuitBreaker.

Module RetryProvider.

Definition stateClosed : Z := 0.
Definition stateHalfOpen : Z := 1.
Definition stateOpen : Z := 2.

Record CompletionRequest := {
  Model : string; Messages : list (list (string * any)); Tools : list (list (string * any));
  SystemPrompt : string; ApiKey : string; BaseURL : string;
}.

Section Provider.
Context {Resp : Type}.

Record cacheEntry := { entry_resp : Resp; expiresAt : Time }.

(** The counters are int32 and updated atomically. *)
Record retryProvider := {
  maxRetries : Z;
  cache : gmap string cacheEntry;
  ttl : Duration;
  cbState : Z;
  cbFailureCnt : Z;
  cbThreshold : Z;
  cbHalfOpenCnt : Z;
  cbLastOpen : Time;
  cbTimeout : Duration;
}.

(** [inner] is whether there is a provider to wrap. *)
Definition NewRetryProvider (inner : bool) (retries : Z) (t : Duration) : result string retryProvider :=
  if negb inner then Err "llm: cannot wrap nil provider"
  else Ok {|
    maxRetries := retries; cache := ∅; ttl := t; cbState := stateClosed; cbFailureCnt := 0;
    cbThreshold := 5; cbHalfOpenCnt := 0; cbLastOpen := 0; cbTimeout := 30 * second |}.

Definition with_breaker (st cnt half : Z) (last : Time) (r : retryProvider) : retryProvider := {|
  maxRetries := maxRetries r; cache := cache r; ttl := ttl r; cbState := st;
  cbFailureCnt := cnt; cbThreshold := cbThreshold r; cbHalfOpenCnt := half;
  cbLastOpen := last; cbTimeout := cbTimeout r |}.

Definition with_cache (c : gmap string cacheEntry) (r : retryProvider) : retryProvider := {|
  maxRetries := maxRetries r; cache := c; ttl := ttl r; cbState := cbState r;
  cbFailureCnt := cbFailureCnt r; cbThreshold := cbThreshold r;
  cbHalfOpenCnt := cbHalfOpenCnt r; cbLastOpen := cbLastOpen r; cbTimeout := cbTimeout r |}.

Inductive llm_error :=
| LlmOpen
| LlmProbeInProgress
| LlmContext
| LlmFailed (retries : Z) (last : option string).

Definition allowRequest (now : Time) (r : retryProvider) : retryProvider * option llm_error :=
  if bool_decide (cbState r = stateClosed) then (r, None)
  else if bool_decide (cbState r = stateOpen) then
    if bool_decide (time_sub now (cbLastOpen r) > cbTimeout r) then
      (with_breaker stateHalfOpen (cbFailureCnt r) 1 (cbLastOpen r) r, None)
    else (r, Some LlmOpen)
  else if bool_decide (cbState r = stateHalfOpen) then
    let cnt := wrap32 (cbHalfOpenCnt r + 1) in
    if bool_decide (cnt > 1) then
      (with_breaker (cbState r) (cbFailureCnt r) (wrap32 (cnt - 1)) (cbLastOpen r) r,
       Some LlmProbeInProgress)
    else (with_breaker (cbState r) (cbFailureCnt r) cnt (cbLastOpen r) r, None)
  else (r, None).

Definition recordSuccess (r : retryProvider) : retryProvider :=
  with_breaker stateClosed 0 0 (cbLastOpen r) r.

Definition tripOpen (now : Time) (r : retryProvider) : retryProvider :=
  with_breaker stateOpen (cbFailureCnt r) 0 now r.

Definition recordFailure (now : Time) (r : retryProvider) : retryProvider :=
  let cnt := wrap32 (cbFailureCnt r + 1) in
  let r := with_breaker (cbState r) cnt (cbHalfOpenCnt r) (cbLastOpen r) r in
  if bool_decide (cbState r = stateHalfOpen) then tripOpen now r
  else if bool_decide (cbState r = stateClosed) && bool_decide (cbThreshold r ≤ cnt)
  then tripOpen now r
  else r.

(** [base - base/2 + jitter/2] for a random [jitter]; the multiplications are on
    64-bit integers, the divisions truncate. *)
Definition backoff_base (attempt : Z) : Duration :=
  wrap64 (wrap64 (attempt * attempt) * (100 * millisecond)).
Definition jitterBackoff (attempt jitter : Z) : Duration :=
  let base := backoff_base attempt in
  let halfJitter := Z.quot jitter 2 in
  wrap64 (base - Z.quot base 2 + halfJitter).

Fixpoint assoc (k : string) (m : list (string * any)) : option any :=
  match m with
  | [] => None
  | (k', v) :: m => if bool_decide (k = k') then Some v else assoc k m
  end.

(** The text that is hashed: model, system prompt, then role and the first 500
    bytes of the content of each message. *)
Definition message_text (m : list (string * any)) : string :=
  (match assoc "role" m with Some (AnyStr role) => "|" +:+ role | _ => "" end) +:+
  (match assoc "content" m with
   | Some (AnyStr content) =>
     ":" +:+ (if bool_decide (str_len content > 500) then str_take 500 content else content)
   | _ => ""
   end).
Definition cacheKeyText (req : CompletionRequest) : string :=
  Model req +:+ "|" +:+ SystemPrompt req +:+ foldr (λ m acc, message_text m +:+ acc) "" (Messages req).

(** [hex(sha256(text))] is the parameter [digest]. *)
Definition cacheKey (digest : string → string) (req : CompletionRequest) : string :=
  digest (cacheKeyText req).

(** One iteration of the loop: whether the context ends the wait before it, what
    the wrapped provider answers, whether the context has ended after it, and
    the time. *)
Record attempt := {
  cancelled : bool; answer : result string Resp; ctx_err : bool; at_ : Time;
}.

Definition remember (digest : string → string) (req : CompletionRequest) (resp : Resp)
    (now : Time) (r : retryProvider) : retryProvider :=
  if bool_decide (ttl r > 0) then
    with_cache (<[cacheKey digest req := {| entry_resp := resp; expiresAt := now + ttl r |}]> (cache r)) r
  else r.

(** [n] iterations left, [i] done; the last component counts the calls of the
    wrapped provider. *)
Fixpoint retry_loop (digest : string → string) (req : CompletionRequest) (world : nat → attempt)
    (n i : nat) (lastErr : option string) (r : retryProvider) :
    retryProvider * result llm_error Resp * nat :=
  match n with
  | O => (r, Err (LlmFailed (maxRetries r) lastErr), O)
  | S n =>
    let a := world i in
    if bool_decide (0 < i)%nat && cancelled a then (r, Err LlmContext, O)
    else match answer a with
         | Ok resp => (remember digest req resp (at_ a) (recordSuccess r), Ok resp, 1%nat)
         | Err e =>
           let r := recordFailure (at_ a) r in
           if ctx_err a then (r, Err LlmContext, 1%nat)
           else
             let '(r, res, k) := retry_loop digest req world n (S i) (Some e) r in
             (r, res, S k)
         end
  end.

Definition lookup_cache (digest : string → string) (req : CompletionRequest) (now : Time)
    (r : retryProvider) : option Resp :=
  if bool_decide (ttl r > 0) then
    match cache r !! cacheKey digest req with
    | Some e => if time_before now (expiresAt e) then Some (entry_resp e) else None
    | None => None
    end
  else None.

Definition Complete (digest : string → string) (req : CompletionRequest) (now : Time)
    (world : nat → attempt) (r : retryProvider) : retryProvider * result llm_error Resp * nat :=
  let '(r, refused) := allowRequest now r in
  match refused with
  | Some e => (r, Err e, O)
  | None =>
    match lookup_cache digest req now r with
    | Some resp => (r, Ok resp, O)
    | None => retry_loop digest req world (Z.to_nat (maxRetries r + 1)) 0 None r
    end
  end.

(** A sequence of requests, each with its time and environment. *)
Definition request : Type := CompletionRequest * Time * (nat → attempt).
Fixpoint serve (digest : string → string) (reqs : list request) (r : retryProvider) :
    retryProvider * list (result llm_error Resp) :=
  match reqs with
  | [] => (r, [])
  | (req, now, world) :: reqs =>
    let '(r1, res, _) := Complete digest req now world r in
    let '(r2, out) := serve digest reqs r1 in (r2, res :: out)
  end.

(** ** Lemmas *)

Lemma recordFailure_cfg now r :
  maxRetries (recordFailure now r) = maxRetries r ∧ ttl (recordFailure now r) = ttl r.
Proof. unfold recordFailure. repeat case_match; done. Qed.

Lemma retry_loop_calls digest req world n i last r :
  let '(_, res, k) := retry_loop digest req world n i last r in
  (k ≤ n)%nat ∧ (∀ m e, res = Err (LlmFailed m e) → k = n).
Proof.
  revert i last r. induction n as [|n IH]; intros i last r; simpl; [done|].
  destruct (bool_decide (0 < i)%nat && cancelled (world i)); [split; [lia|done]|].
  destruct (answer (world i)) as [resp|e]; [split; [lia|done]|].
  destruct (ctx_err (world i)); [split; [lia|done]|].
  specialize (IH (S i) (Some e) (recordFailure (at_ (world i)) r)).
  destruct (retry_loop digest req world n (S i) (Some e) _) as [[r' res] k].
  destruct IH as [IHk IHf]. split; [lia|]. intros m e' ->. by rewrite (IHf m e').
Qed.

Lemma retry_loop_kind digest req world n i last r :
  match (retry_loop digest req world n i last r).1.2 with
  | Err LlmOpen | Err LlmProbeInProgress => False
  | _ => True
  end.
Proof.
  revert i last r. induction n as [|n IH]; intros i last r; simpl; [done|].
  destruct (bool_decide (0 < i)%nat && cancelled (world i)); [done|].
  destruct (answer (world i)) as [resp|e]; [done|].
  destruct (ctx_err (world i)); [done|].
  specialize (IH (S i) (Some e) (recordFailure (at_ (world i)) r)).
  by destruct (retry_loop digest req world n (S i) (Some e) _) as [[r' res] k].
Qed.

Lemma retry_loop_ok digest req world n i last r :
  let '(r', res, k) := retry_loop digest req world n i last r in
  ∀ resp, res = Ok resp →
    cbState r' = stateClosed ∧ cbFailureCnt r' = 0 ∧ cbHalfOpenCnt r' = 0.
Proof.
  revert i last r. induction n as [|n IH]; intros i last r; simpl; [done|].
  destruct (bool_decide (0 < i)%nat && cancelled (world i)); [done|].
  destruct (answer (world i)) as [resp|e].
  { intros ? _. unfold remember, with_cache. by case_bool_decide. }
  destruct (ctx_err (world i)); [done|].
  specialize (IH (S i) (Some e) (recordFailure (at_ (world i)) r)).
  by destruct (retry_loop digest req world n (S i) (Some e) _) as [[r' res] k].
Qed.

(** A half-open breaker whose probe slot is taken. *)
Definition wedged (r : retryProvider) : Prop :=
  cbState r = stateHalfOpen ∧ 1 ≤ cbHalfOpenCnt r < 2 ^ 31 - 1.

Lemma wedged_refuses now r :
  wedged r → allowRequest now r = (r, Some LlmProbeInProgress).
Proof.
  intros [Hs Hc]. unfold allowRequest. rewrite Hs.
  rewrite (bool_decide_eq_false_2 (stateHalfOpen = stateClosed)) by done.
  rewrite (bool_decide_eq_false_2 (stateHalfOpen = stateOpen)) by done.
  rewrite (bool_decide_eq_true_2 (stateHalfOpen = stateHalfOpen)) by done.
  rewrite swrap_id by lia. rewrite bool_decide_eq_true_2 by lia.
  rewrite swrap_id by lia. rewrite Z.add_simpl_r.
  destruct r. unfold with_breaker. simpl in *. by subst.
Qed.

#[global] Program Instance llm_breaker : Breaker retryProvider := {|
  br_admit now r := let '(r', e) := allowRequest now r in (r', bool_decide (e = None));
  br_open r := cbState r = stateOpen ∧ 0 ≤ cbTimeout r ≤ max_int64;
  br_since r := cbLastOpen r;
  br_deadline r := cbLastOpen r + cbTimeout r |}.
Next Obligation.
  intros now r [Ho Ht] [Hs Hd]. simpl in *. unfold allowRequest. rewrite Ho.
  rewrite (bool_decide_eq_false_2 (stateOpen = stateClosed)) by done.
  rewrite (bool_decide_eq_true_2 (stateOpen = stateOpen)) by done.
  rewrite (bool_decide_eq_false_2 (time_sub _ _ > _)).
  - simpl. split_and!; done || lia.
  - go_unfold_time. unfold min_int64, max_int64 in *. lia.
Qed.

(** ** Properties *)

(** The number of calls of the wrapped provider is bounded: at most
    [maxRetries + 1] per request, none for a request the breaker refuses or the
    cache answers, and exactly [maxRetries + 1] when the request fails for good. *)
Theorem Complete_calls (digest : string → string) (req : CompletionRequest) (now : Time)
    (world : nat → attempt) (r : retryProvider) :
  let '(_, res, calls) := Complete digest req now world r in
  (calls ≤ Z.to_nat (maxRetries r + 1))%nat ∧
  (res = Err LlmOpen ∨ res = Err LlmProbeInProgress → calls = 0%nat) ∧
  (∀ n e, res = Err (LlmFailed n e) → calls = Z.to_nat (maxRetries r + 1)).
Proof.
  unfold Complete.
  assert (maxRetries (allowRequest now r).1 = maxRetries r ∧
          match (allowRequest now r).2 with Some (LlmFailed _ _) | Some LlmContext => False | _ => True end)
    as [Hm He] by (unfold allowRequest; repeat case_match; done).
  destruct (allowRequest now r) as [r1 [e|]]; simpl in *; rewrite <- Hm.
  { split_and!; [lia|done|]. intros n e' [= ->]. done. }
  destruct (lookup_cache digest req now r1); [split_and!; [lia|done|done]|].
  pose proof (retry_loop_calls digest req world (Z.to_nat (maxRetries r1 + 1)) 0 None r1) as Hc.
  pose proof (retry_loop_kind digest req world (Z.to_nat (maxRetries r1 + 1)) 0 None r1) as Hk.
  destruct (retry_loop _ _ _ _ _ _ _) as [[r2 res] k]. destruct Hc as [Hc1 Hc2].
  split_and!; [done| |done]. intros [-> | ->]; done.
Qed.

(** An answer from the wrapped provider closes the breaker and clears its
    counters, whatever state the breaker was in and however many attempts the
    answer took. *)
Theorem Complete_success_closes (digest : string → string) (req : CompletionRequest) (now : Time)
    (world : nat → attempt) (r : retryProvider) :
  let '(r', res, calls) := Complete digest req now world r in
  ∀ resp, res = Ok resp → (0 < calls)%nat →
    cbState r' = stateClosed ∧ cbFailureCnt r' = 0 ∧ cbHalfOpenCnt r' = 0.
Proof.
  unfold Complete. destruct (allowRequest now r) as [r1 [e|]]; [done|].
  destruct (lookup_cache digest req now r1); [intros; lia|].
  pose proof (retry_loop_ok digest req world (Z.to_nat (maxRetries r1 + 1)) 0 None r1) as Ho.
  destruct (retry_loop _ _ _ _ _ _ _) as [[r2 res] k]. intros resp Hres _. by eapply Ho.
Qed.

(** A cache hit on the probe request wedges the breaker for ever.  When the
    open breaker's timeout has passed, the next request takes the half-open
    probe slot; if the cache answers it, the slot is never given back, and every
    later request, at any time and for any prompt, is refused. *)
Theorem cache_hit_wedges (digest : string → string) (req : CompletionRequest) (now : Time)
    (world : nat → attempt) (r : retryProvider) (resp : Resp) (later : list request) :
  cbState r = stateOpen → time_sub now (cbLastOpen r) > cbTimeout r →
  lookup_cache digest req now r = Some resp →
  let '(r1, res, calls) := Complete digest req now world r in
  res = Ok resp ∧ calls = 0%nat ∧
  Forall (λ x, x = Err LlmProbeInProgress) (serve digest later r1).2.
Proof.
  intros Ho Ht Hl. unfold Complete, allowRequest. rewrite Ho.
  rewrite (bool_decide_eq_false_2 (stateOpen = stateClosed)) by done.
  rewrite (bool_decide_eq_true_2 (stateOpen = stateOpen)) by done.
  rewrite (bool_decide_eq_true_2 _ Ht). cbv iota beta.
  set (r1 := with_breaker _ _ _ _ r).
  change (lookup_cache digest req now r1) with (lookup_cache digest req now r). rewrite Hl.
  split_and!; [done..|]. assert (wedged r1) as Hw by (split; simpl; [done|lia]).
  clearbody r1. clear -Hw. induction later as [|[[req now] world] later IH]; simpl; [done|].
  unfold Complete. rewrite (wedged_refuses now r1 Hw).
  destruct (serve digest later r1) as [r2 out]. simpl in *. auto.
Qed.

(** The backoff before attempt [k] lies in [base/2, base) for the base of
    [k^2 * 100ms], so it never reaches the [base * 1.5] of its description. *)
Theorem jitterBackoff_range (attempt jitter : Z) :
  1 ≤ attempt ≤ 300000 → 0 ≤ jitter < backoff_base attempt →
  backoff_base attempt = attempt * attempt * (100 * millisecond) ∧
  backoff_base attempt ≤ 2 * jitterBackoff attempt jitter ∧
  jitterBackoff attempt jitter < backoff_base attempt.
Proof.
  intros Ha Hj.
  assert (backoff_base attempt = attempt * attempt * (100 * millisecond)) as Hb.
  { unfold backoff_base, millisecond.
    rewrite (wrap64_id (attempt * attempt)) by (unfold is_int64, min_int64, max_int64; nia).
    apply wrap64_id. unfold is_int64, min_int64, max_int64. nia. }
  assert (0 ≤ backoff_base attempt ≤ 9 * 10 ^ 18) as Hr
    by (rewrite Hb; unfold millisecond; nia).
  assert (∃ h, backoff_base attempt = 2 * h) as [h Hh]
    by (exists (attempt * attempt * (50 * millisecond)); rewrite Hb; unfold millisecond; lia).
  split; [done|]. unfold jitterBackoff. cbv zeta. rewrite Hh in *.
  rewrite !Z.quot_div_nonneg by lia. rewrite (Z.mul_comm 2 h), Z.div_mul by lia.
  assert (0 ≤ jitter / 2 < h) by (split; [apply Z.div_pos; lia|apply Z.div_lt_upper_bound; lia]).
  rewrite wrap64_id by (unfold is_int64, min_int64, max_int64; lia). lia.
Qed.

End Provider.

Lemma jitterBackoff_range_witness : jitterBackoff 2 1000 < backoff_base 2.
Proof.
  apply (jitterBackoff_range 2 1000); vm_compute; split; discriminate || reflexivity.
Defined.

(** An open breaker whose timeout has passed, with a cached answer. *)
Definition probe_sample : @retryProvider string := {|
  maxRetries := 2; ttl := minute; cbState := stateOpen; cbFailureCnt := 5; cbThreshold := 5;
  cbHalfOpenCnt := 0; cbLastOpen := 0; cbTimeout := 30 * second;
  cache := {[ "m|s" := {| entry_resp := "cached"; expiresAt := 100 * second |} ]} |}.
Definition plain_request : CompletionRequest :=
  {| Model := "m"; Messages := []; Tools := []; SystemPrompt := "s"; ApiKey := ""; BaseURL := "" |}.
Definition healthy_world : nat → @attempt string :=
  λ _, {| cancelled := false; answer := Ok "fresh"; ctx_err := false; at_ := 40 * second |}.

Lemma cache_hit_wedges_witness :
  let '(r1, res, calls) := Complete id plain_request (40 * second) healthy_world probe_sample in
  res = Ok "cached" ∧ calls = 0%nat ∧
  Forall (λ x, x = Err LlmProbeInProgress)
    (serve id [(plain_request, 1000 * second, healthy_world)] r1).2.
Proof.
  apply (cache_hit_wedges id plain_request (40 * second) healthy_world probe_sample "cached"
           [(plain_request, 1000 * second, healthy_world)]); vm_compute; reflexivity.
Defined.

Fixpoint repeat_char (c : ascii) (n : nat) : string :=
  match n with O => "" | S n => String c (repeat_char c n) end.
Definition user_request (content : string) : CompletionRequest :=
  {| Model := "m"; SystemPrompt := "s"; Tools := []; ApiKey := ""; BaseURL := "";
     Messages := [[("role", AnyStr "user"); ("content", AnyStr content)]] |}.

Lemma message_text_truncates prefix a :
  str_len prefix = 500 → a ≠ "" →
  message_text [("role", AnyStr "user"); ("content", AnyStr (prefix +:+ a))]
  = "|user:" +:+ prefix.
Proof.
  intros Hl Ha. unfold message_text. cbn [assoc].
  rewrite bool_decide_eq_true_2 by done.
  rewrite (bool_decide_eq_false_2 ("content" = "role")) by done.
  rewrite (bool_decide_eq_true_2 ("content" = "content")) by done.
  assert (str_len (prefix +:+ a) > 500) as Hlen.
  { unfold str_len in *. rewrite str_length_app. destruct a; [done|simpl; lia]. }
  rewrite bool_decide_eq_true_2 by done.
  rewrite str_take_app_exact by (unfold str_len in Hl; lia). done.
Qed.

(** Two different prompts can share a cache key: the content of a message
    enters the key only up to its 500th byte, so two requests that differ later
    get each other's cached answers, whatever the hash function. *)
Theorem cacheKey_collides (digest : string → string) (prefix a b : string) :
  str_len prefix = 500 → a ≠ "" → b ≠ "" → a ≠ b →
  user_request (prefix +:+ a) ≠ user_request (prefix +:+ b) ∧
  cacheKey digest (user_request (prefix +:+ a)) = cacheKey digest (user_request (prefix +:+ b)).
Proof.
  intros Hl Ha Hb Hab. split.
  { intros E. unfold user_request in E. simplify_eq. }
  unfold cacheKey, cacheKeyText, user_request. cbn [Model Messages SystemPrompt foldr].
  by rewrite (message_text_truncates prefix a), (message_text_truncates prefix b).
Qed.

(** Requests that differ in their tools, their credentials or the server they
    are for share a cache key, though the key is described as covering the fields
    that affect the output. *)
Theorem cacheKey_ignores_tools (digest : string → string) (req : CompletionRequest)
    (tools : list (list (string * any))) (key url : string) :
  cacheKey digest req =
  cacheKey digest {| Model := Model req; Messages := Messages req; Tools := tools;
                     SystemPrompt := SystemPrompt req; ApiKey := key; BaseURL := url |}.
Proof. reflexivity. Qed.

Lemma cacheKey_collides_witness :
  cacheKey id (user_request (repeat_char "x" 500 +:+ "yes"))
  = cacheKey id (user_request (repeat_char "x" 500 +:+ "no")).
Proof. apply (cacheKey_collides id (repeat_char "x" 500) "yes" "no"); reflexivity || discriminate. Defined.

End RetryProvider.
