(* ===== verification/RateLimit.v ===== *)
(** * Rate limiting (internal/middleware/ratelimit.go)

    Module [ClientIP]: which address a request is counted under.  Module
    [SlidingWindow]: the store behind the limits of the authentication endpoints.
    Module [AuthLimiter]: the endpoints and their limits.  Module [MultiKey]: the
    token-bucket middleware; the buckets (golang.org/x/time/rate) are its
    parameter. *)

From S2P Require Import Prelude GoStrings GoValues GoNet.

(** [h.Get(name)]: the first value of a header, the empty string if absent. *)
Definition Header : Type := string → string.

Module ClientIP.

Record Request := { RemoteAddr : string; hdr : Header; Path : string }.

Definition trustedProxyCIDRs : list string :=
  ["127.0.0.0/8"; "10.0.0.0/8"; "172.16.0.0/12"; "192.168.0.0/16"; "::1/128"].

Definition isTrustedProxy (ip : string) : bool :=
  existsb (λ cidr,
    match ParseCIDR cidr with
    | None => false
    | Some network =>
      match ParseIP ip with Some parsed => Contains network parsed | None => false end
    end) trustedProxyCIDRs.

Section WithUnicode.
Context `{Unicode}.

(** The loop over the comma-separated entries, from the last to the first. *)
Fixpoint rightmost_untrusted (entries : list string) : option string :=
  match entries with
  | [] => None
  | e :: entries =>
    let ip := TrimSpace e in
    if negb (bool_decide (ip = "")) && negb (isTrustedProxy ip) then Some ip
    else rightmost_untrusted entries
  end.

Definition forwarded_for (h : Header) : option string :=
  let xff := h "X-Forwarded-For" in
  if bool_decide (xff = "") then None else rightmost_untrusted (reverse (str_split "," xff)).

Definition extractClientIP (r : Request) : string :=
  let remoteIP := match SplitHostPort (RemoteAddr r) with Some (h, _) => h | None => "" end in
  let remoteIP := if bool_decide (remoteIP = "") then RemoteAddr r else remoteIP in
  if negb (isTrustedProxy remoteIP) then remoteIP
  else match forwarded_for (hdr r) with
       | Some ip => ip
       | None =>
         let xri := hdr r "X-Real-IP" in
         if bool_decide (xri = "") then remoteIP else TrimSpace xri
       end.

Definition extractClientIPFromHeaders (h : Header) : string :=
  match forwarded_for h with
  | Some ip => ip
  | None =>
    let xri := h "X-Real-IP" in
    if negb (bool_decide (xri = "")) then TrimSpace xri
    else
      let addr := h "X-Remote-Addr" in
      if negb (bool_decide (addr = "")) then
        match SplitHostPort addr with
        | Some (ip, _) => if bool_decide (ip = "") then TrimSpace addr else ip
        | None => TrimSpace addr
        end
      else "unknown"
  end.

(** ** Lemmas *)

Lemma rightmost_untrusted_Some es ip :
  rightmost_untrusted es = Some ip ↔
  ∃ later e earlier, es = later ++ e :: earlier ∧ ip = TrimSpace e ∧ ip ≠ "" ∧
    isTrustedProxy ip = false ∧
    Forall (λ e', TrimSpace e' = "" ∨ isTrustedProxy (TrimSpace e') = true) later.
Proof.
  induction es as [|e es IH]; simpl.
  - split; [done|]. intros (l & e & r & E & _). destruct l; discriminate.
  - case_match eqn:E; [|rewrite IH]; split.
    + intros [= <-]. apply andb_true_iff in E as [E1 E2].
      apply negb_true_iff in E1, E2. decide_bools. exists [], e, es. eauto.
    + intros (l & e' & r & Hes & -> & Hne & Ht & Hl). destruct l as [|e0 l]; simplify_eq/=; [done|].
      apply Forall_cons in Hl as [[Hz|Hz] _]; rewrite Hz in E; simpl in E;
        [done|by rewrite andb_false_r in E].
    + intros (l & e' & r & -> & Hrest & Hne & Ht & Hl).
      exists (e :: l), e', r. split_and!; try done. constructor; [|done].
      apply andb_false_iff in E as [E|E]; apply negb_false_iff in E; decide_bools; auto.
    + intros (l & e' & r & Hes & -> & Hne & Ht & Hl). destruct l as [|e0 l]; simplify_eq/=.
      * rewrite Ht, bool_decide_eq_false_2 in E by done. done.
      * apply Forall_cons in Hl as [_ Hl]. eauto 10.
Qed.

(** [extractClientIP] lets no untrusted peer choose its address: unless the
    connection comes from a trusted proxy its result is that peer's own address,
    whatever the headers say; behind a proxy an X-Forwarded-For header with an
    untrusted entry yields the last such entry, everything after it being blank
    or trusted. *)
Theorem extractClientIP_sound (r : Request) (peer port : string) :
  SplitHostPort (RemoteAddr r) = Some (peer, port) → peer ≠ "" →
  (isTrustedProxy peer = false → extractClientIP r = peer) ∧
  (∀ before e after,
     isTrustedProxy peer = true →
     str_split "," (hdr r "X-Forwarded-For") = before ++ e :: after →
     TrimSpace e ≠ "" → isTrustedProxy (TrimSpace e) = false →
     Forall (λ e', TrimSpace e' = "" ∨ isTrustedProxy (TrimSpace e') = true) after →
     hdr r "X-Forwarded-For" ≠ "" →
     extractClientIP r = TrimSpace e).
Proof.
  intros Hs Hp. unfold extractClientIP. rewrite Hs.
  rewrite bool_decide_eq_false_2 by done. split; [by intros ->|].
  intros before e after Hpt Hsp Hne Hu Hafter Hx. rewrite Hpt. simpl.
  unfold forwarded_for. rewrite bool_decide_eq_false_2 by done. rewrite Hsp.
  assert (rightmost_untrusted (reverse (before ++ e :: after)) = Some (TrimSpace e)) as ->; [|done].
  apply rightmost_untrusted_Some. exists (reverse after), e, (reverse before).
  rewrite reverse_app, reverse_cons, <- (assoc_L (++)). split_and!; try done.
  by apply Forall_reverse.
Qed.

(** The address the RPC interceptor counts under is chosen by the caller: any
    public address put in X-Forwarded-For is taken, whoever the peer is, so a
    caller can draw a fresh counter for every request. *)
Theorem extractClientIPFromHeaders_spoofable (h : Header) (ip : string) :
  h "X-Forwarded-For" = ip → str_mem "," ip = false → TrimSpace ip = ip → ip ≠ "" →
  isTrustedProxy ip = false →
  extractClientIPFromHeaders h = ip.
Proof.
  intros Hh Hc Ht Hne Hu. unfold extractClientIPFromHeaders, forwarded_for. rewrite Hh.
  rewrite bool_decide_eq_false_2 by done.
  rewrite (str_split_no_sep _ _ Hc).
  simpl. rewrite Ht. rewrite bool_decide_eq_false_2 by done. by rewrite Hu.
Qed.

End WithUnicode.

Definition sample_headers : Header :=
  λ name, if bool_decide (name = "X-Forwarded-For") then "8.8.8.8, 9.9.9.9, 10.0.0.7" else "".

Lemma extractClientIP_sound_witness :
  extractClientIP (H := ascii_tables)
    {| RemoteAddr := "127.0.0.1:5000"; hdr := sample_headers; Path := "/" |} = "9.9.9.9" ∧
  extractClientIP (H := ascii_tables)
    {| RemoteAddr := "7.7.7.7:5000"; hdr := sample_headers; Path := "/" |} = "7.7.7.7".
Proof.
  split.
  - apply (proj2 (extractClientIP_sound (H := ascii_tables)
      {| RemoteAddr := "127.0.0.1:5000"; hdr := sample_headers; Path := "/" |} "127.0.0.1" "5000"
      ltac:(vm_compute; reflexivity) ltac:(discriminate)) ["8.8.8.8"] " 9.9.9.9" [" 10.0.0.7"]).
    1-4: vm_compute; reflexivity || discriminate.
    + constructor; [right; vm_compute; reflexivity|constructor].
    + vm_compute. discriminate.
  - apply (proj1 (extractClientIP_sound (H := ascii_tables)
      {| RemoteAddr := "7.7.7.7:5000"; hdr := sample_headers; Path := "/" |} "7.7.7.7" "5000"
      ltac:(vm_compute; reflexivity) ltac:(discriminate))). vm_compute. reflexivity.
Defined.

Lemma extractClientIPFromHeaders_spoofable_witness :
  extractClientIPFromHeaders (H := ascii_tables) (λ _, "8.8.8.8") = "8.8.8.8".
Proof.
  apply extractClientIPFromHeaders_spoofable; vm_compute; reflexivity || discriminate.
Defined.

End ClientIP.

Module SlidingWindow.

(** The timestamps of the accepted requests of each key, oldest first. *)
Abbreviation store := (gmap string (list Time)) (only parsing).

Inductive decision := Allowed | Refused (retryAfter : Duration) | Panics.

Definition two_minutes : Duration := 2 * minute.

(** [make([]time.Time, 0, limit)] panics on a negative limit, and a refusal with
    no timestamp left reads past the end of the slice; memory is unbounded. *)
Definition Allow (now : Time) (key : string) (limit : Z) (window : Duration) (s : store) :
    store * decision :=
  let cutoff := now + wrap64 (- window) in
  match s !! key with
  | None =>
    if bool_decide (limit < 0) then (s, Panics)
    else if bool_decide (limit ≤ 0) then (<[key := []]> s, Panics)
    else (<[key := [now]]> s, Allowed)
  | Some timestamps =>
    let valid := filter (λ t, time_after t cutoff = true) timestamps in
    if bool_decide (limit ≤ Z.of_nat (length valid)) then
      (<[key := valid]> s,
       match valid with
       | [] => Panics
       | t0 :: _ =>
         let retryAfter := wrap64 (window - time_sub now t0) in
         Refused (if bool_decide (retryAfter < 0) then 0 else retryAfter)
       end)
    else (<[key := valid ++ [now]]> s, Allowed)
  end.

(** One tick of the cleanup loop: each entry independently. *)
Definition cleanup_entry (now : Time) (timestamps : list Time) : option (list Time) :=
  match filter (λ t, time_sub now t < two_minutes) timestamps with
  | [] => None
  | valid => Some valid
  end.
Definition cleanup (now : Time) (s : store) : store := omap (cleanup_entry now) s.

(** ** Reference limiter

    It keeps every accepted request for ever, and accepts one when fewer than
    [limit] requests of its key were accepted in the [window] before it. *)
Abbreviation log := (list (string * Time)) (only parsing).

Definition accepted (key : string) (lo hi : Time) (l : log) : list Time :=
  (filter (λ e, e.1 = key ∧ lo < e.2 ≤ hi) l).*2.

Section Config.
(** Each key has one limit and one window, as [checkLimit] gives it. *)
Context (limit window : string → Z).

Inductive event := EvRequest (key : string) | EvTick.

Definition spec_step (now : Time) (e : event) (l : log) : log * option bool :=
  match e with
  | EvTick => (l, None)
  | EvRequest key =>
    if bool_decide (Z.of_nat (length (accepted key (now - window key) now l)) < limit key)
    then (l ++ [(key, now)], Some true) else (l, Some false)
  end.

Definition impl_step (now : Time) (e : event) (s : store) : store * option decision :=
  match e with
  | EvTick => (cleanup now s, None)
  | EvRequest key => let '(s, d) := Allow now key (limit key) (window key) s in (s, Some d)
  end.

Definition verdict (d : decision) : option bool :=
  match d with Allowed => Some true | Refused _ => Some false | Panics => None end.

(** A run: the decisions on a sequence of events with their times. *)
Fixpoint spec_run (evs : list (Time * event)) (l : log) : log * list (option bool) :=
  match evs with
  | [] => (l, [])
  | (now, e) :: evs =>
    let '(l, d) := spec_step now e l in
    let '(l, ds) := spec_run evs l in (l, d :: ds)
  end.

Fixpoint impl_run (evs : list (Time * event)) (s : store) : store * list (option bool) :=
  match evs with
  | [] => (s, [])
  | (now, e) :: evs =>
    let '(s, d) := impl_step now e s in
    let '(s, ds) := impl_run evs s in (s, (d ≫= verdict) :: ds)
  end.

(** Times do not go back, from [now] on. *)
Fixpoint clocked (now : Time) (evs : list (Time * event)) : Prop :=
  match evs with [] => True | (t, _) :: evs => now ≤ t ∧ clocked t evs end.

(** Limits are positive, windows positive and within the cleanup horizon. *)
Definition sane : Prop :=
  ∀ key, 0 < limit key ∧ 0 < window key ≤ two_minutes.

(** ** The simulation *)

Definition key_log (key : string) (l : log) : list Time := (filter (λ e, e.1 = key) l).*2.

(** The store holds, for each key, the accepted times after some bound that is
    no later than the start of the current window. *)
Definition sim (now : Time) (l : log) (s : store) : Prop :=
  (∀ key, ∃ c, c ≤ now - window key ∧
     default [] (s !! key) = filter (λ t, c < t) (key_log key l)) ∧
  Forall (λ e, e.2 ≤ now) l.

Lemma key_log_snoc key k t l :
  key_log key (l ++ [(k, t)]) = key_log key l ++ (if decide (k = key) then [t] else []).
Proof.
  unfold key_log. rewrite filter_app, fmap_app. f_equal. rewrite filter_cons. simpl.
  by destruct (decide (k = key)).
Qed.

Lemma accepted_key_log key lo now l :
  Forall (λ e, e.2 ≤ now) l →
  accepted key lo now l = filter (λ t, lo < t) (key_log key l).
Proof.
  unfold accepted, key_log. induction 1 as [|[k t] l Ht Hl IH]; [done|]. simpl in Ht.
  rewrite !filter_cons. simpl.
  destruct (decide (k = key)) as [->|Hk]; simpl.
  - rewrite filter_cons. destruct (decide (lo < t)) as [Hlo|Hlo].
    + rewrite decide_True by (split; [done|lia]). cbn. f_equal. exact IH.
    + rewrite decide_False by (intros [? ?]; lia). done.
  - rewrite decide_False by (intros [? ?]; done). done.
Qed.

Lemma accepted_filter key lo hi l :
  accepted key lo hi l = filter (λ t, lo < t ≤ hi) (key_log key l).
Proof.
  unfold accepted, key_log. induction l as [|[k t] l IH]; [done|].
  rewrite !filter_cons. simpl. destruct (decide (k = key)) as [->|Hk]; simpl.
  - rewrite filter_cons. destruct (decide (lo < t ≤ hi)) as [Hlo|Hlo].
    + rewrite decide_True by done. cbn. f_equal. exact IH.
    + rewrite decide_False by (intros [_ ?]; done). done.
  - rewrite decide_False by (intros [? _]; done). done.
Qed.

Lemma filter_filter_lt (a b : Z) (l : list Z) :
  filter (λ t, a < t) (filter (λ t, b < t) l) = filter (λ t, Z.max a b < t) l.
Proof.
  rewrite list_filter_filter. apply list_filter_iff. intros t. lia.
Qed.

Lemma Allow_valid now w (ts : list Time) :
  0 < w ≤ two_minutes →
  filter (λ t, time_after t (now + wrap64 (- w)) = true) ts = filter (λ t, now - w < t) ts.
Proof.
  intros Hw. rewrite wrap64_id by (unfold is_int64, min_int64, max_int64, two_minutes, minute, second in *; lia).
  apply list_filter_iff. intros t. unfold time_after. rewrite bool_decide_eq_true.
  replace (now + - w) with (now - w) by lia. done.
Qed.

(** [Allow] in one equation, for a sane limit: the entry is what is left of the
    window, with the request itself when it is accepted. *)
Lemma Allow_eq now key lim w s :
  0 < lim → 0 < w ≤ two_minutes →
  let valid := filter (λ t, now - w < t) (default [] (s !! key)) in
  Allow now key lim w s =
  if bool_decide (Z.of_nat (length valid) < lim)
  then (<[key := valid ++ [now]]> s, Allowed)
  else (<[key := valid]> s,
        let d := wrap64 (w - time_sub now (hd 0 valid)) in
        Refused (if bool_decide (d < 0) then 0 else d)).
Proof.
  intros Hl Hw valid. subst valid. unfold Allow.
  destruct (s !! key) as [ts|] eqn:E; simpl.
  - rewrite Allow_valid by done. set (v := filter _ ts).
    case_bool_decide as H1; case_bool_decide as H2; try lia; [|done].
    destruct v; simpl in *; [lia|done].
  - rewrite !bool_decide_eq_false_2 by lia. rewrite bool_decide_eq_true_2 by lia. done.
Qed.

Lemma sim_later now now' l s : now ≤ now' → sim now l s → sim now' l s.
Proof.
  intros Hn [Hs Hl]. split.
  - intros key. destruct (Hs key) as (c & Hc & E). exists c. split; [lia|done].
  - eapply Forall_impl; [done|]. simpl. lia.
Qed.

Lemma sim_valid now l s key :
  sim now l s →
  filter (λ t, now - window key < t) (default [] (s !! key)) = accepted key (now - window key) now l.
Proof.
  intros [Hs Hl]. destruct (Hs key) as (c & Hc & ->). rewrite filter_filter_lt.
  rewrite accepted_key_log by done. apply list_filter_iff. lia.
Qed.

Lemma sim_request now l s key :
  sane → sim now l s →
  let '(l', ok) := spec_step now (EvRequest key) l in
  let '(s', d) := impl_step now (EvRequest key) s in
  sim now l' s' ∧ d ≫= verdict = ok.
Proof.
  intros Hsane Hsim. destruct (Hsane key) as [Hlim Hw]. simpl.
  rewrite Allow_eq by done. rewrite (sim_valid now l s key) by done. set (v := accepted _ _ _ _).
  pose proof (accepted_key_log key (now - window key) now l (proj2 Hsim)) as Hv. fold v in Hv.
  destruct Hsim as [Hs Hl].
  case_bool_decide as Hlt; (split; [|done]); split.
  - intros k. rewrite key_log_snoc. destruct (decide (key = k)) as [<-|Hk].
    + exists (now - window key). split; [lia|]. rewrite lookup_insert_eq. simpl.
      rewrite filter_app, Hv. f_equal. rewrite filter_cons, decide_True by lia. done.
    + rewrite lookup_insert_ne, app_nil_r by done. apply Hs.
  - apply Forall_app. split; [done|]. repeat constructor; simpl; lia.
  - intros k. destruct (decide (key = k)) as [<-|Hk].
    + exists (now - window key). split; [lia|]. by rewrite lookup_insert_eq.
    + rewrite lookup_insert_ne by done. apply Hs.
  - done.
Qed.

Lemma cleanup_entry_default now ts :
  default [] (cleanup_entry now ts) = filter (λ t, now - two_minutes < t) ts.
Proof.
  unfold cleanup_entry.
  assert (filter (λ t, time_sub now t < two_minutes) ts = filter (λ t, now - two_minutes < t) ts) as ->.
  { apply list_filter_iff. intros t. go_unfold_time.
    unfold min_int64, max_int64, two_minutes, minute, second. lia. }
  by destruct (filter _ ts).
Qed.

Lemma sim_tick now l s : sane → sim now l s → sim now l (cleanup now s).
Proof.
  intros Hsane [Hs Hl]. split; [|done]. intros key.
  destruct (Hs key) as (c & Hc & E). destruct (Hsane key) as [_ Hw].
  exists (Z.max (now - two_minutes) c). split; [lia|].
  rewrite <- filter_filter_lt, <- E. unfold cleanup. rewrite lookup_omap.
  destruct (s !! key) as [ts|]; [apply cleanup_entry_default|done].
Qed.

Lemma sim_run evs : ∀ now l s,
  sane → sim now l s → clocked now evs →
  (impl_run evs s).2 = (spec_run evs l).2.
Proof.
  induction evs as [|[t e] evs IH]; intros now l s Hsane Hsim Hc; [done|].
  destruct Hc as [Hnow Hc]. apply (sim_later now t) in Hsim; [|done].
  cbn [impl_run spec_run]. destruct e as [key|].
  - pose proof (sim_request t l s key Hsane Hsim) as Hstep.
    destruct (spec_step t (EvRequest key) l) as [l' ok].
    destruct (impl_step t (EvRequest key) s) as [s' d]. destruct Hstep as [Hsim' Hd].
    specialize (IH t l' s' Hsane Hsim' Hc).
    destruct (impl_run evs s'), (spec_run evs l'). simpl in *. congruence.
  - specialize (IH t l (cleanup t s) Hsane (sim_tick _ _ _ Hsane Hsim) Hc). simpl.
    destruct (impl_run evs (cleanup t s)), (spec_run evs l). simpl in *. congruence.
Qed.

Lemma sim_empty now : sim now [] ∅.
Proof.
  split; [|constructor]. intros key. exists (now - window key). split; [lia|].
  by rewrite lookup_empty.
Qed.

(** ** The bound on the reference limiter *)

Definition bounded (l : log) : Prop :=
  ∀ key t, Z.of_nat (length (accepted key (t - window key) t l)) ≤ limit key.

Lemma accepted_snoc key lo hi k t l :
  accepted key lo hi (l ++ [(k, t)]) =
  accepted key lo hi l ++ (if decide (k = key ∧ lo < t ≤ hi) then [t] else []).
Proof.
  unfold accepted. rewrite filter_app, fmap_app. f_equal. rewrite filter_cons. cbn [fst snd].
  by destruct (decide (k = key ∧ lo < t ≤ hi)).
Qed.

(** Later windows hold fewer of the requests accepted up to now. *)
Lemma accepted_le key lo lo' now hi l :
  Forall (λ e, e.2 ≤ now) l → lo ≤ lo' →
  (length (accepted key lo' hi l) ≤ length (accepted key lo now l))%nat.
Proof.
  intros Hl Hlo. unfold accepted. rewrite !length_fmap.
  induction Hl as [|[k t] l Ht Hl IH]; [done|]. simpl in Ht. rewrite !filter_cons. cbn [fst snd].
  destruct (decide (k = key ∧ lo' < t ≤ hi)) as [H1|H1];
    destruct (decide (k = key ∧ lo < t ≤ now)) as [H2|H2]; simpl; try lia.
  exfalso. apply H2. split; [tauto|lia].
Qed.

Lemma spec_run_bounded evs : ∀ now l,
  sane → clocked now evs → Forall (λ e, e.2 ≤ now) l → bounded l → bounded (spec_run evs l).1.
Proof.
  induction evs as [|[t e] evs IH]; intros now l Hsane Hc Hl Hb; [done|].
  destruct Hc as [Hnow Hc].
  assert (Forall (λ e : string * Time, e.2 ≤ t) l) as Hlt
    by (eapply Forall_impl; [exact Hl|simpl; lia]).
  cbn [spec_run]. destruct e as [key|]; simpl.
  2:{ specialize (IH t l Hsane Hc Hlt Hb). by destruct (spec_run evs l). }
  case_bool_decide as Hlim.
  - enough (bounded (l ++ [(key, t)])) as Hb'.
    { specialize (IH t (l ++ [(key, t)]) Hsane Hc). destruct (spec_run evs (l ++ [(key, t)])). apply IH; [|done].
      apply Forall_app. split; [done|]. repeat constructor; simpl; lia. }
    intros k u. rewrite accepted_snoc, length_app. specialize (Hb k u).
    destruct (decide (key = k ∧ u - window k < t ≤ u)) as [[<- Hu]|]; simpl; [|lia].
    pose proof (accepted_le key (t - window key) (u - window key) t u l Hlt). lia.
  - specialize (IH t l Hsane Hc Hlt Hb). by destruct (spec_run evs l).
Qed.

(** C1: the in-memory store implements the sliding window: on every sequence of
    requests and cleanup ticks with a monotone clock it decides exactly as a
    reference limiter that keeps all accepted requests for ever, for any positive
    limits and any windows up to the two-minute horizon of the cleanup, and it
    never panics. *)
Theorem store_refines_sliding_window (now : Time) (evs : list (Time * event)) :
  sane → clocked now evs →
  (impl_run evs ∅).2 = (spec_run evs []).2.
Proof. intros Hsane Hc. apply (sim_run evs now); auto using sim_empty. Qed.

(** The accepted requests of a run, read off its decisions. *)
Fixpoint accepted_of (evs : list (Time * event)) (ds : list (option bool)) : log :=
  match evs, ds with
  | (now, EvRequest key) :: evs, Some true :: ds => (key, now) :: accepted_of evs ds
  | _ :: evs, _ :: ds => accepted_of evs ds
  | _, _ => []
  end.

Lemma spec_run_log evs : ∀ l, (spec_run evs l).1 = l ++ accepted_of evs (spec_run evs l).2.
Proof.
  induction evs as [|[t e] evs IH]; intros l; [by rewrite app_nil_r|].
  cbn [spec_run]. destruct e as [key|]; simpl.
  - case_bool_decide; simpl.
    + specialize (IH (l ++ [(key, t)])). destruct (spec_run evs (l ++ [(key, t)])). simpl in *.
      by rewrite IH, <- (assoc_L (++)).
    + specialize (IH l). by destruct (spec_run evs l).
  - specialize (IH l). by destruct (spec_run evs l).
Qed.

Lemma run_bounded (now : Time) (evs : list (Time * event)) (key : string) (t : Time) :
  sane → clocked now evs →
  Z.of_nat (length (accepted key (t - window key) t (accepted_of evs (impl_run evs ∅).2))) ≤ limit key.
Proof.
  intros Hsane Hc. rewrite (sim_run evs now [] ∅ Hsane (sim_empty now) Hc).
  pose proof (spec_run_log evs []) as Hlog. rewrite app_nil_l in Hlog. rewrite <- Hlog.
  apply (spec_run_bounded evs now); try done.
  intros k u. simpl. destruct (Hsane k). unfold accepted. simpl. lia.
Qed.

(** No window is ever overrun: in any run of the store from empty, for every
    key and every instant, the requests accepted in the window that ends there
    are at most the key's limit. *)
Theorem sliding_window_bound (now : Time) (evs : list (Time * event)) (key : string) (t : Time) :
  sane → clocked now evs →
  Z.of_nat (length (accepted key (t - window key) t (accepted_of evs (impl_run evs ∅).2))) ≤ limit key.
Proof. apply run_bounded. Qed.

(** ** The retry hint *)

(** Timestamps are in order, in the past, and no more than the limit. *)
Definition wf_entry (now : Time) (key : string) (ts : list Time) : Prop :=
  StronglySorted Z.le ts ∧ Forall (λ t, t ≤ now) ts ∧ Z.of_nat (length ts) ≤ limit key.
Definition wf (now : Time) (s : store) : Prop := map_Forall (wf_entry now) s.

Lemma wf_entry_filter now key (P : Z → Prop) `{∀ x, Decision (P x)} ts :
  wf_entry now key ts → wf_entry now key (filter P ts).
Proof.
  intros (Hs & Hf & Hl). split_and!; [by apply StronglySorted_filter|by apply Forall_filter_keep|].
  pose proof (length_filter P ts). lia.
Qed.

Lemma wf_entry_lookup now key s :
  sane → wf now s → wf_entry now key (default [] (s !! key)).
Proof.
  intros Hsane Hs. destruct (s !! key) as [ts|] eqn:E; [by apply (Hs key)|].
  simpl. split_and!; [constructor|constructor|]. destruct (Hsane key). simpl. lia.
Qed.

Lemma wf_entry_snoc now key ts :
  wf_entry now key ts → Z.of_nat (length ts) < limit key → wf_entry now key (ts ++ [now]).
Proof.
  intros (Hs & Hf & Hl) Hlt. split_and!.
  - clear Hl Hlt. induction Hs as [|x l Hl IH Hx]; simpl; [repeat constructor|].
    apply Forall_cons in Hf as [Hxn Hf]. constructor; [by apply IH|].
    apply Forall_app. split; [done|]. by repeat constructor.
  - apply Forall_app. split; [done|]. repeat constructor. lia.
  - rewrite length_app. simpl. lia.
Qed.

Lemma wf_later now now' s : now ≤ now' → wf now s → wf now' s.
Proof.
  intros Hn Hs key ts E. destruct (Hs key ts E) as (H1 & H2 & H3). split_and!; [done| |done].
  eapply Forall_impl; [done|]. simpl. lia.
Qed.

Lemma wf_step now e s : sane → wf now s → wf now (impl_step now e s).1.
Proof.
  intros Hsane Hs. destruct e as [key|]; simpl.
  - destruct (Hsane key) as [Hlim Hw]. rewrite Allow_eq by done.
    pose proof (wf_entry_filter now key (λ t, now - window key < t) _ (wf_entry_lookup now key s Hsane Hs)) as Hv.
    case_bool_decide; simpl; apply map_Forall_insert_2; try done. by apply wf_entry_snoc.
  - intros key ts. unfold cleanup. rewrite lookup_omap.
    destruct (s !! key) as [ts0|] eqn:E; [|done]. simpl. unfold cleanup_entry.
    pose proof (wf_entry_filter now key (λ t, time_sub now t < two_minutes) ts0 (Hs _ _ E)) as Hv.
    destruct (filter _ ts0); [done|]. by intros [= <-].
Qed.

Lemma wf_run evs : ∀ now now' s,
  sane → wf now s → clocked now evs → Forall (λ e, e.1 ≤ now') evs → now ≤ now' →
  wf now' (impl_run evs s).1.
Proof.
  induction evs as [|[t e] evs IH]; intros now now' s Hsane Hs Hc Hle Hn; [by apply (wf_later now)|].
  destruct Hc as [Ht Hc]. apply Forall_cons in Hle as [Ht' Hle]. cbn [impl_run].
  pose proof (wf_step t e s Hsane (wf_later _ _ _ Ht Hs)) as Hs'.
  destruct (impl_step t e s) as [s' d]. specialize (IH t now' s' Hsane Hs' Hc Hle Ht').
  by destruct (impl_run evs s').
Qed.

Lemma sorted_drop_first (t0 c : Z) ts :
  StronglySorted Z.le (t0 :: ts) → c < t0 → filter (λ t, c < t) (t0 :: ts) = t0 :: ts.
Proof.
  intros [_ Hf]%StronglySorted_inv Hc. apply filter_all_keep.
  constructor; [done|]. eapply Forall_impl; [exact Hf|]. simpl. lia.
Qed.

(** The retry hint is exact: after any run, when a request is refused with
    [retryAfter], that duration lies within the window, and the next request of
    the key is accepted if it comes at or after that time and refused if it
    comes before. *)
Theorem retryAfter_exact (start now : Time) (evs : list (Time * event)) (key : string) (d : Duration) :
  sane → clocked start evs → start ≤ now → Forall (λ e, e.1 ≤ now) evs →
  let s := (impl_run evs ∅).1 in
  (Allow now key (limit key) (window key) s).2 = Refused d →
  let s' := (Allow now key (limit key) (window key) s).1 in
  0 < d ≤ window key ∧
  ∀ t, now ≤ t →
    (Allow t key (limit key) (window key) s').2 = Allowed ↔ now + d ≤ t.
Proof.
  intros Hsane Hc Hst Hle s. destruct (Hsane key) as [Hlim Hw].
  assert (wf now s) as Hwf by (apply (wf_run evs start); auto; intros ? ? ?; simplify_map_eq).
  rewrite Allow_eq by done.
  pose proof (wf_entry_filter now key (λ t, now - window key < t) _ (wf_entry_lookup now key s Hsane Hwf))
    as (Hsort & Hpast & Hlen).
  pose proof (Forall_filter_sat (λ t, now - window key < t) (default [] (s !! key))) as Hin.
  set (v := filter _ _) in *.
  case_bool_decide as Hfull; [done|]. simpl. intros [= Hd].
  destruct v as [|t0 ts] eqn:Ev; [simpl in Hfull; lia|].
  assert (time_sub now t0 = now - t0 ∧ 0 ≤ now - t0 < window key) as [Ets Ht0].
  { apply Forall_cons in Hin as [Hin _]. apply Forall_cons in Hpast as [Hpast _]. go_unfold_time.
    unfold min_int64, max_int64, two_minutes, minute, second in *. lia. }
  cbn [hd] in Hd. rewrite Ets, wrap64_id in Hd
    by (unfold is_int64, min_int64, max_int64, two_minutes, minute, second in *; lia).
  rewrite bool_decide_eq_false_2 in Hd by lia. split; [lia|].
  intros t Ht. rewrite Allow_eq by done. rewrite lookup_insert_eq. cbn [default from_option id].
  destruct (decide (t - window key < t0)) as [Hlt|Hge].
  - rewrite sorted_drop_first by done. rewrite bool_decide_eq_false_2 by lia. simpl.
    split; [done|lia].
  - rewrite filter_cons, decide_False by lia.
    pose proof (length_filter (λ t', t - window key < t') ts). simpl in Hlen.
    rewrite bool_decide_eq_true_2 by lia. simpl. split; [lia|done].
Qed.

End Config.

(** The default limits of the endpoints, and a run that reaches one of them. *)
Definition sample_limit (key : string) : Z := 2.
Definition sample_window (key : string) : Z := minute.
Definition sample_run : list (Time * event) :=
  [(0, EvRequest "a"); (10 * second, EvRequest "a"); (20 * second, EvRequest "a"); (30 * second, EvTick);
   (40 * second, EvRequest "b"); (60 * second, EvRequest "a")].

Lemma sample_sane : sane sample_limit sample_window.
Proof. intros key. unfold sample_limit, sample_window, two_minutes, minute, second. lia. Qed.
Lemma sample_clocked : clocked 0 sample_run.
Proof. unfold sample_run, second. simpl. lia. Qed.

Lemma store_refines_sliding_window_witness :
  (impl_run sample_limit sample_window sample_run ∅).2
  = [Some true; Some true; Some false; None; Some true; Some true].
Proof.
  rewrite (store_refines_sliding_window sample_limit sample_window 0 sample_run
             sample_sane sample_clocked). vm_compute. reflexivity.
Defined.

Lemma sliding_window_bound_witness :
  Z.of_nat (length (accepted "a" (65 * second - minute) (65 * second)
    (accepted_of sample_run (impl_run sample_limit sample_window sample_run ∅).2))) ≤ 2.
Proof.
  apply (sliding_window_bound sample_limit sample_window 0 sample_run "a" (65 * second)
           sample_sane sample_clocked).
Defined.

Definition full_run : list (Time * event) := [(0, EvRequest "a"); (10 * second, EvRequest "a")].

Lemma full_clocked : clocked 0 full_run.
Proof. unfold full_run, second. simpl. lia. Qed.
Lemma full_past : Forall (λ e, e.1 ≤ 20 * second) full_run.
Proof. repeat constructor; vm_compute; discriminate. Qed.

Lemma retryAfter_exact_witness :
  let s := (impl_run sample_limit sample_window full_run ∅).1 in
  let s' := (Allow (20 * second) "a" (sample_limit "a") (sample_window "a") s).1 in
  (Allow (60 * second) "a" (sample_limit "a") (sample_window "a") s').2 = Allowed.
Proof.
  pose proof (retryAfter_exact sample_limit sample_window 0 (20 * second) full_run "a"
    (40 * second) sample_sane full_clocked) as H.
  destruct H as [_ H]; [unfold second; lia|exact full_past|vm_compute; reflexivity|].
  apply H; unfold second; lia.
Defined.

(** The two-minute horizon is needed: with a window of five minutes and a
    limit of one, a cleanup tick forgets an accepted request that is still inside
    the window, and a second one is let through. *)
Theorem long_window_forgets :
  let five := 5 * minute in
  let s1 := (Allow 0 "k" 1 five ∅).1 in
  (Allow (2 * minute) "k" 1 five s1).2 = Refused (3 * minute) ∧
  (Allow (2 * minute) "k" 1 five (cleanup (2 * minute) s1)).2 = Allowed.
Proof. vm_compute. auto. Qed.

End SlidingWindow.

(** ** The interface [RateLimitStore]

    Its operations, and what a client relies on: no window of any key is overrun
    in a run from the empty store. *)
Class RateLimitStore (St : Type) := {
  st_empty : St;
  st_allow : Time → string → Z → Duration → St → St * SlidingWindow.decision;
  st_tick : Time → St → St;
}.

Section StoreRuns.
Context {St : Type} `{RateLimitStore St}.
Context (limit window : string → Z).
Import SlidingWindow.

Definition store_step (now : Time) (e : event) (s : St) : St * option decision :=
  match e with
  | EvTick => (st_tick now s, None)
  | EvRequest key => let '(s, d) := st_allow now key (limit key) (window key) s in (s, Some d)
  end.

Fixpoint store_run (evs : list (Time * event)) (s : St) : St * list (option bool) :=
  match evs with
  | [] => (s, [])
  | (now, e) :: evs =>
    let '(s, d) := store_step now e s in
    let '(s, ds) := store_run evs s in (s, (d ≫= verdict) :: ds)
  end.
End StoreRuns.

Class BoundedStore (St : Type) `{RateLimitStore St} : Prop :=
  store_bounded : ∀ limit window now evs key t,
    SlidingWindow.sane limit window → SlidingWindow.clocked now evs →
    Z.of_nat (length (SlidingWindow.accepted key (t - window key) t
      (SlidingWindow.accepted_of evs (store_run limit window evs st_empty).2))) ≤ limit key.

#[export] Instance memoryRateLimitStore : RateLimitStore SlidingWindow.store := {|
  st_empty := ∅; st_allow := SlidingWindow.Allow; st_tick := SlidingWindow.cleanup |}.

#[export] Instance memory_bounded : BoundedStore SlidingWindow.store.
Proof. intros limit window now evs key t. apply SlidingWindow.run_bounded. Qed.

Module AuthLimiter.
Import ClientIP SlidingWindow.

Record AuthRateLimitConfig := {
  SessionCreateLimit : Z; SessionCreateWindow : Duration;
  ApiKeyCreateLimit : Z; ApiKeyCreateWindow : Duration;
  ApiKeyRevokeLimit : Z; ApiKeyRevokeWindow : Duration;
  ApiKeyListLimit : Z; ApiKeyListWindow : Duration;
}.

Definition DefaultAuthRateLimitConfig : AuthRateLimitConfig := {|
  SessionCreateLimit := 5; SessionCreateWindow := minute;
  ApiKeyCreateLimit := 10; ApiKeyCreateWindow := minute;
  ApiKeyRevokeLimit := 10; ApiKeyRevokeWindow := minute;
  ApiKeyListLimit := 30; ApiKeyListWindow := minute |}.

Definition AuthRateLimitProcedureMap (procedure : string) : option string :=
  if bool_decide (procedure = "/aleph.v1.AuthService/CreateApiKey") then Some "apikey_create"
  else if bool_decide (procedure = "/aleph.v1.AuthService/DeleteApiKey") then Some "apikey_revoke"
  else if bool_decide (procedure = "/aleph.v1.AuthService/RevokeApiKey") then Some "apikey_revoke"
  else if bool_decide (procedure = "/aleph.v1.AuthService/ListApiKeys") then Some "apikey_list"
  else None.

(** The switch of [checkLimit]. *)
Definition endpoint_limit (c : AuthRateLimitConfig) (endpoint : string) : option (Z * Duration) :=
  if bool_decide (endpoint = "session_create") then Some (SessionCreateLimit c, SessionCreateWindow c)
  else if bool_decide (endpoint = "apikey_create") then Some (ApiKeyCreateLimit c, ApiKeyCreateWindow c)
  else if bool_decide (endpoint = "apikey_revoke") then Some (ApiKeyRevokeLimit c, ApiKeyRevokeWindow c)
  else if bool_decide (endpoint = "apikey_list") then Some (ApiKeyListLimit c, ApiKeyListWindow c)
  else None.

Definition limit_key (ip endpoint : string) : string := ip +:+ ":" +:+ endpoint.

Section Limiter.
Context `{Unicode} {St : Type} `{RateLimitStore St} (config : AuthRateLimitConfig).

Definition checkLimit (now : Time) (ip endpoint : string) (s : St) : St * decision :=
  match endpoint_limit config endpoint with
  | None => (s, Allowed)
  | Some (limit, window) => st_allow now (limit_key ip endpoint) limit window s
  end.

(** [writeAuthRateLimitResponse] and the interceptor's message: whole seconds, at
    least one. *)
Definition retryAfterSec (retryAfter : Duration) : Z :=
  if bool_decide (int_seconds retryAfter < 1) then 1 else int_seconds retryAfter.

(** A cleanup tick answers nobody. *)
Inductive reply := Next | TooMany (seconds : Z) | Crash | NoReply.

Definition reply_of (d : decision) : reply :=
  match d with
  | Allowed => Next
  | Refused retryAfter => TooMany (retryAfterSec retryAfter)
  | Panics => Crash
  end.

(** [Middleware], [RateLimitHTTPFunc] and [CheckHTTP] share this body. *)
Definition AuthMiddleware (now : Time) (endpoint : string) (r : Request) (s : St) : St * reply :=
  let '(s, d) := checkLimit now (extractClientIP r) endpoint s in (s, reply_of d).

Definition RateLimitInterceptor (now : Time) (procedure : string) (h : Header) (s : St) : St * reply :=
  match AuthRateLimitProcedureMap procedure with
  | None => (s, Next)
  | Some endpoint =>
    let '(s, d) := checkLimit now (extractClientIPFromHeaders h) endpoint s in (s, reply_of d)
  end.

(** ** Runs of the limiter *)

Inductive auth_event :=
| Http (endpoint : string) (r : Request)
| Rpc (procedure : string) (h : Header)
| CleanupTick.

Definition auth_step (now : Time) (e : auth_event) (s : St) : St * reply :=
  match e with
  | Http endpoint r => AuthMiddleware now endpoint r s
  | Rpc procedure h => RateLimitInterceptor now procedure h s
  | CleanupTick => (st_tick now s, NoReply)
  end.

Fixpoint auth_run (evs : list (Time * auth_event)) (s : St) : St * list reply :=
  match evs with
  | [] => (s, [])
  | (now, e) :: evs =>
    let '(s, r) := auth_step now e s in
    let '(s, rs) := auth_run evs s in (s, r :: rs)
  end.

(** The client and the endpoint a request counts for, if it is limited. *)
Definition subject (e : auth_event) : option (string * string) :=
  match e with
  | Http endpoint r => endpoint_limit config endpoint ≫= λ _, Some (extractClientIP r, endpoint)
  | Rpc procedure h =>
    AuthRateLimitProcedureMap procedure ≫= λ endpoint,
    endpoint_limit config endpoint ≫= λ _, Some (extractClientIPFromHeaders h, endpoint)
  | CleanupTick => None
  end.

(** The times at which requests of a client for an endpoint were passed on. *)
Fixpoint passed (who : string * string) (evs : list (Time * auth_event)) (rs : list reply) : list Time :=
  match evs, rs with
  | (now, e) :: evs, r :: rs =>
    match r with
    | Next => if decide (subject e = Some who) then now :: passed who evs rs else passed who evs rs
    | _ => passed who evs rs
    end
  | _, _ => []
  end.

(** ** Reduction to runs of the store *)

(** The configured limit of a key, read off the endpoint after its last colon. *)
Definition key_config (key : string) : Z * Duration :=
  match last_index ":" key with
  | Some i => default (1, minute) (endpoint_limit config (str_drop (S i) key))
  | None => (1, minute)
  end.
Definition key_limit (key : string) : Z := (key_config key).1.
Definition key_window (key : string) : Duration := (key_config key).2.

Definition to_event (e : auth_event) : option event :=
  match e with
  | CleanupTick => Some EvTick
  | _ => (λ who, EvRequest (limit_key who.1 who.2)) <$> subject e
  end.
Definition to_events (evs : list (Time * auth_event)) : list (Time * event) :=
  omap (λ te, (λ e, (te.1, e)) <$> to_event te.2) evs.

Definition sane_config : Prop :=
  ∀ endpoint limit window, endpoint_limit config endpoint = Some (limit, window) →
    0 < limit ∧ 0 < window ≤ two_minutes.

Fixpoint auth_clocked (now : Time) (evs : list (Time * auth_event)) : Prop :=
  match evs with [] => True | (t, _) :: evs => now ≤ t ∧ auth_clocked t evs end.

Lemma endpoint_no_colon endpoint lw :
  endpoint_limit config endpoint = Some lw → str_mem ":" endpoint = false.
Proof.
  unfold endpoint_limit. intros E. case_bools; subst; vm_compute; reflexivity.
Qed.

Lemma last_index_app c a b : str_mem c b = false → last_index c (a +:+ String c b) = Some (String.length a).
Proof.
  intros Hb. assert (last_index c b = None) as E.
  { induction b as [|d b IH]; [done|]. simpl in *. apply orb_false_iff in Hb as [H1 H2].
    by rewrite (IH H2), H1. }
  induction a as [|d a IH]; simpl.
  - rewrite E. by rewrite bool_decide_eq_true_2.
  - by rewrite IH.
Qed.

Lemma str_drop_past a c b : str_drop (S (String.length a)) (a +:+ String c b) = b.
Proof. induction a as [|d a IH]; [by destruct b|]. exact IH. Qed.

Lemma key_config_eq ip endpoint lw :
  endpoint_limit config endpoint = Some lw → key_config (limit_key ip endpoint) = lw.
Proof.
  intros E. unfold key_config, limit_key.
  change (ip +:+ ":" +:+ endpoint) with (ip +:+ String ":" endpoint).
  rewrite last_index_app by (eapply endpoint_no_colon; eauto).
  by rewrite str_drop_past, E.
Qed.

Lemma key_sane : sane_config → sane key_limit key_window.
Proof.
  intros Hc key. unfold key_limit, key_window, key_config.
  destruct (last_index ":" key) as [i|]; [|unfold two_minutes, minute, second; simpl; lia].
  destruct (endpoint_limit config (str_drop (S i) key)) as [[l w]|] eqn:E; simpl; [by eapply Hc|].
  unfold two_minutes, minute, second. lia.
Qed.

(** The endpoint and client of a limited request reach [st_allow] under their key. *)
Lemma auth_step_subject now e s ip endpoint :
  subject e = Some (ip, endpoint) →
  auth_step now e s =
    (let key := limit_key ip endpoint in
     let '(s, d) := st_allow now key (key_limit key) (key_window key) s in (s, reply_of d)) ∧
  ∃ lw, endpoint_limit config endpoint = Some lw.
Proof.
  destruct e as [ep r|proc h|]; simpl; [| |done].
  - destruct (endpoint_limit config ep) as [[l w]|] eqn:E; simpl; [|done]. intros [= <- <-].
    split; [|eauto]. unfold AuthMiddleware, checkLimit, key_limit, key_window.
    rewrite E, (key_config_eq _ _ _ E). done.
  - unfold RateLimitInterceptor. destruct (AuthRateLimitProcedureMap proc) as [ep|]; simpl; [|done].
    destruct (endpoint_limit config ep) as [[l w]|] eqn:E; simpl; [|done]. intros [= <- <-].
    split; [|eauto]. unfold checkLimit, key_limit, key_window.
    rewrite E, (key_config_eq _ _ _ E). done.
Qed.

(** Requests without a limit do not touch the store. *)
Lemma auth_step_unlimited now e s : e ≠ CleanupTick → subject e = None → auth_step now e s = (s, Next).
Proof.
  destruct e as [ep r|proc h|]; simpl; [| |done]; intros _.
  - unfold AuthMiddleware, checkLimit. by destruct (endpoint_limit config ep).
  - unfold RateLimitInterceptor. destruct (AuthRateLimitProcedureMap proc) as [ep|]; [|done].
    unfold checkLimit. simpl. by destruct (endpoint_limit config ep).
Qed.

(** What is passed on is accepted by the store. *)
Lemma passed_accepted who evs : ∀ s,
  passed who evs (auth_run evs s).2 `sublist_of`
  key_log (limit_key who.1 who.2)
    (accepted_of (to_events evs) (store_run key_limit key_window (to_events evs) s).2).
Proof.
  induction evs as [|[now e] evs IH]; intros s; [constructor|].
  cbn [auth_run]. unfold to_events in *. cbn [omap list_omap fst snd].
  destruct (subject e) as [[ip ep]|] eqn:Es.
  - destruct (auth_step_subject now e s ip ep Es) as [-> _].
    assert (to_event e = Some (EvRequest (limit_key ip ep))) as ->
      by (destruct e; simpl in *; by rewrite ?Es).
    cbn [fmap option_fmap option_map store_run store_step]. set (key := limit_key ip ep).
    destruct (st_allow now key (key_limit key) (key_window key) s) as [s' d].
    specialize (IH s'). destruct (auth_run evs s') as [s1 rs].
    destruct (store_run _ _ _ s') as [s2 ds]. cbn [snd passed mbind option_bind]. simpl in IH.
    destruct d as [|ra|]; simpl; [|exact IH|exact IH].
    unfold key_log. rewrite filter_cons. cbn [fst].
    destruct (decide (subject e = Some who)) as [Hw|Hw].
    + rewrite Es in Hw. simplify_eq. rewrite decide_True by done. by apply sublist_skip.
    + destruct (decide _); [by apply sublist_cons|done].
  - assert (e = CleanupTick ∨ e ≠ CleanupTick) as [->|He] by (destruct e; auto).
    + simpl. specialize (IH (st_tick now s)). destruct (auth_run evs _) as [s1 rs].
      by destruct (store_run _ _ _ _) as [s2 ds].
    + rewrite auth_step_unlimited by done.
      assert (to_event e = None) as -> by (destruct e; simpl in *; by rewrite ?Es).
      simpl. specialize (IH s). destruct (auth_run evs s) as [s1 rs]. simpl.
      rewrite decide_False by congruence. exact IH.
Qed.

Lemma to_events_clocked evs : ∀ now, auth_clocked now evs → clocked now (to_events evs).
Proof.
  induction evs as [|[t e] evs IH]; intros now; [done|]. intros [Ht Hc]. unfold to_events in *.
  cbn [omap list_omap fst snd]. destruct (to_event e) as [e'|]; simpl.
  - split; [done|]. by apply IH.
  - clear -IH Hc Ht. specialize (IH t Hc). destruct (omap _ evs) as [|[u x] l]; [done|].
    simpl in *. destruct IH. split; [lia|done].
Qed.

(** C6: the authentication endpoints are limited as configured, for any store
    that keeps its promise and a configuration whose limits are positive and whose
    windows are at most two minutes, the horizon of the store's cleanup: in every run
    of HTTP requests, RPC calls and cleanup ticks with a monotone clock, the requests
    for one endpoint from one client address, as the limiter derives it from the
    headers and the connection, that are passed on within any window number at most
    the endpoint's limit.  (A client that can choose these headers has as many
    addresses as it likes.) *)
Theorem auth_limit_enforced `{!BoundedStore St} (start t : Time) (evs : list (Time * auth_event))
    (ip endpoint : string) (limit : Z) (window : Duration) :
  sane_config → auth_clocked start evs →
  endpoint_limit config endpoint = Some (limit, window) →
  Z.of_nat (length (filter (λ u, t - window < u ≤ t)
    (passed (ip, endpoint) evs (auth_run evs st_empty).2))) ≤ limit.
Proof.
  intros Hsane Hc He. set (key := limit_key ip endpoint).
  pose proof (store_bounded key_limit key_window start (to_events evs) key t
    (key_sane Hsane) (to_events_clocked evs start Hc)) as Hb.
  rewrite accepted_filter in Hb.
  assert (key_limit key = limit ∧ key_window key = window) as [El Ew]
    by (unfold key_limit, key_window, key; by rewrite (key_config_eq _ _ _ He)).
  rewrite El, Ew in Hb.
  pose proof (sublist_length _ _ (filter_sublist_mono (λ u, t - window < u ≤ t) _ _
    (passed_accepted (ip, endpoint) evs st_empty))) as Hlen.
  unfold key in *. simpl in Hlen. lia.
Qed.

End Limiter.

Lemma default_config_sane : sane_config DefaultAuthRateLimitConfig.
Proof.
  intros ep l w. unfold endpoint_limit. intros E. unfold two_minutes, minute, second.
  case_bools; unfold minute, second; lia.
Qed.

Definition login (port : string) : auth_event :=
  Http "session_create" {| RemoteAddr := "7.7.7.7:" +:+ port; hdr := λ _, ""; Path := "/" |}.
Definition login_run : list (Time * auth_event) :=
  [(0, login "1"); (1, login "2"); (2, login "3"); (3, CleanupTick); (3, login "4"); (4, login "5");
   (5, login "6")].
Lemma login_clocked : auth_clocked 0 login_run.
Proof. simpl. lia. Qed.

Lemma auth_limit_enforced_witness :
  (auth_run (H := ascii_tables) (St := SlidingWindow.store) DefaultAuthRateLimitConfig login_run st_empty).2
    = [Next; Next; Next; NoReply; Next; Next; TooMany 59] ∧
  Z.of_nat (length (filter (λ u, 10 - minute < u ≤ 10)
    (passed (H := ascii_tables) DefaultAuthRateLimitConfig ("7.7.7.7", "session_create") login_run
      (auth_run (H := ascii_tables) (St := SlidingWindow.store) DefaultAuthRateLimitConfig login_run
         st_empty).2))) ≤ 5.
Proof.
  split; [vm_compute; reflexivity|].
  apply (auth_limit_enforced (H := ascii_tables) DefaultAuthRateLimitConfig 0 10 login_run
    "7.7.7.7" "session_create" 5 minute default_config_sane login_clocked).
  vm_compute. reflexivity.
Defined.

(** The Retry-After header can be too early: it drops the fraction of the
    exact hint, and a client that waits just as long as it is told is refused
    again. *)
Theorem retry_header_early :
  let s0 := (Allow 0 "k" 1 minute ∅).1 in
  let '(s1, d) := Allow (100 * millisecond) "k" 1 minute s0 in
  reply_of d = TooMany 59 ∧
  reply_of (Allow (100 * millisecond + 59 * second) "k" 1 minute s1).2 = TooMany 1.
Proof. vm_compute. auto. Qed.

End AuthLimiter.

Module MultiKey.
Import ClientIP.

(** The byte-wise search of this file: every start position in turn. *)
Fixpoint contains_from (n i : nat) (s substr : string) : bool :=
  match n with
  | O => false
  | S n =>
    if bool_decide (str_take (String.length substr) (str_drop i s) = substr) then true
    else contains_from n (S i) s substr
  end.
Definition contains (s substr : string) : bool :=
  contains_from (Z.to_nat (str_len s - str_len substr + 1)) 0 s substr.

Record RateLimitConfig := {
  ChatLimit : f64; HealthLimit : f64; DefaultLimit : f64;
  ChatBurst : Z; HealthBurst : Z; DefaultBurst : Z;
}.

Definition DefaultRateLimitConfig : RateLimitConfig := {|
  ChatLimit := f64_lit 10 60; HealthLimit := f64_lit 100 60; DefaultLimit := f64_lit 500 60;
  ChatBurst := 5; HealthBurst := 20; DefaultBurst := 50 |}.

Definition limitForPath (c : RateLimitConfig) (path : string) : f64 * Z * string :=
  if contains path "/Chat" || contains path "/chat" then (ChatLimit c, ChatBurst c, "chat")
  else if contains path "/healthz" || contains path "/readyz" || contains path "/livez"
  then (HealthLimit c, HealthBurst c, "health")
  else (DefaultLimit c, DefaultBurst c, "default").

Definition ExtractAPIKey (h : Header) : string :=
  let key := h "X-Aleph-Api-Key" in
  if negb (bool_decide (key = "")) then key
  else
    let auth := h "Authorization" in
    if negb (bool_decide (auth = "")) then
      if String.prefix "Bearer " auth then str_drop 7 auth else auth
    else "".

(** A token bucket of golang.org/x/time/rate. *)
Class TokenBucket (L : Type) := {
  NewLimiter : f64 → Z → L;
  bucket_allow : Time → L → L * bool;
}.

Section Limiter.
Context `{Unicode} {L : Type} `{TokenBucket L} (config : RateLimitConfig).

Record multiKeyLimiter := {
  ipLimits : gmap string L; keyLimits : gmap string L; lastSeen : gmap string Time;
}.
Definition newMultiKeyLimiter : multiKeyLimiter := {| ipLimits := ∅; keyLimits := ∅; lastSeen := ∅ |}.

(** The bucket of a key: the one in the map, or a new one. *)
Definition bucket_of (store : gmap string L) (key : string) (limit : f64) (burst : Z) : L :=
  match store !! key with Some l => l | None => NewLimiter limit burst end.

(** [getLimiter] on one of the two maps: the map and the last-seen times
    after it, and the bucket. *)
Definition getLimiter (now : Time) (store : gmap string L) (seen : gmap string Time) (key : string)
    (limit : f64) (burst : Z) : gmap string L * gmap string Time * L :=
  let limiter := bucket_of store key limit burst in
  (<[key := limiter]> store, <[key := now]> seen, limiter).

(** One tick of the cleanup loop. *)
Definition stale (now seen : Time) : Prop := time_sub now seen > 10 * minute.
#[global] Instance stale_dec now seen : Decision (stale now seen).
Proof. unfold stale. apply _. Defined.
Definition mk_cleanup (now : Time) (rl : multiKeyLimiter) : multiKeyLimiter :=
  let idle := filter (λ kv, stale now kv.2) (lastSeen rl) in
  {| ipLimits := filter (λ kv, idle !! kv.1 = None) (ipLimits rl);
     keyLimits := filter (λ kv, idle !! kv.1 = None) (keyLimits rl);
     lastSeen := filter (λ kv, ¬ stale now kv.2) (lastSeen rl) |}.

Definition ip_key (r : Request) : string :=
  let '(_, _, category) := limitForPath config (Path r) in
  "ip:" +:+ extractClientIP r +:+ ":" +:+ category.
Definition api_key (r : Request) : string :=
  let '(_, _, category) := limitForPath config (Path r) in
  let apiKey := ExtractAPIKey (hdr r) in
  let keyPrefix := if bool_decide (str_len apiKey > 16) then str_take 16 apiKey else apiKey in
  "ak:" +:+ keyPrefix +:+ ":" +:+ category.

(** The handler: the answer is the call of the next handler or a 429 with the
    limit it reports.  Taking a token changes the bucket in its map. *)
Definition RateLimitMiddleware (now : Time) (r : Request) (rl : multiKeyLimiter) :
    multiKeyLimiter * option f64 :=
  let '(limit, burst, _) := limitForPath config (Path r) in
  let ipKey := ip_key r in
  let '(ips, seen, ipLimiter) := getLimiter now (ipLimits rl) (lastSeen rl) ipKey limit burst in
  let '(ipLimiter, ok) := bucket_allow now ipLimiter in
  let rl := {| ipLimits := <[ipKey := ipLimiter]> ips; keyLimits := keyLimits rl;
               lastSeen := seen |} in
  if negb ok then (rl, Some limit)
  else if negb (bool_decide (ExtractAPIKey (hdr r) = "")) then
    let keyKey := api_key r in
    let '(keys, seen, keyLimiter) :=
      getLimiter now (keyLimits rl) (lastSeen rl) keyKey limit (wrap64 (burst * 2)) in
    let '(keyLimiter, ok) := bucket_allow now keyLimiter in
    let rl := {| ipLimits := ipLimits rl; keyLimits := <[keyKey := keyLimiter]> keys;
                 lastSeen := seen |} in
    if negb ok then (rl, Some limit) else (rl, None)
  else (rl, None).

(** Every bucket has a last-seen time, so the cleanup can find it. *)
Definition tracked (rl : multiKeyLimiter) : Prop :=
  dom (ipLimits rl) ⊆ dom (lastSeen rl) ∧ dom (keyLimits rl) ⊆ dom (lastSeen rl).

Inductive mk_step : multiKeyLimiter → multiKeyLimiter → Prop :=
| step_request now r rl : mk_step rl (RateLimitMiddleware now r rl).1
| step_cleanup now rl : mk_step rl (mk_cleanup now rl).

(** ** Lemmas *)

Lemma tracked_request now r rl : tracked rl → tracked (RateLimitMiddleware now r rl).1.
Proof.
  intros [Hi Hk]. unfold RateLimitMiddleware, getLimiter, tracked.
  destruct (limitForPath config (Path r)) as [[limit burst] cat].
  destruct (bucket_allow now _) as [l1 ok1]. destruct ok1; simpl.
  - case_match; [destruct (bucket_allow now _) as [l2 ok2]; destruct ok2|];
      simpl; rewrite !dom_insert_L; set_solver.
  - rewrite !dom_insert_L. set_solver.
Qed.

Lemma cleanup_lookup {V} now (seen : gmap string Time) (m : gmap string V) k :
  filter (λ kv, filter (λ kv, stale now kv.2) seen !! kv.1 = None) m !! k =
  match seen !! k with
  | Some t => if decide (stale now t) then None else m !! k
  | None => m !! k
  end.
Proof.
  apply option_eq. intros v. rewrite map_lookup_filter_Some. simpl. rewrite map_lookup_filter_None.
  destruct (seen !! k) as [t|] eqn:E; simpl.
  - destruct (decide (stale now t)); split.
    + intros [_ [?|Hs]]; [done|]. destruct (Hs t); done.
    + done.
    + by intros [? _].
    + intros ->. split; [done|]. right. intros t' [= <-]. done.
  - split; [by intros [? _]|]. intros ->. auto.
Qed.

Lemma tracked_cleanup now rl : tracked rl → tracked (mk_cleanup now rl).
Proof.
  unfold tracked. intros [Hi Hk]. split; intros k; simpl;
    rewrite !elem_of_dom, cleanup_lookup, map_lookup_filter.
  - intros Hl. assert (is_Some (ipLimits rl !! k)) as Hl'%elem_of_dom
      by (destruct (lastSeen rl !! k); [case_decide; [by destruct Hl|]|]; done).
    apply Hi, elem_of_dom in Hl' as [t Ht]. rewrite Ht in *. simpl.
    case_decide; [by destruct Hl|]. case_guard; [eauto|done].
  - intros Hl. assert (is_Some (keyLimits rl !! k)) as Hl'%elem_of_dom
      by (destruct (lastSeen rl !! k); [case_decide; [by destruct Hl|]|]; done).
    apply Hk, elem_of_dom in Hl' as [t Ht]. rewrite Ht in *. simpl.
    case_decide; [by destruct Hl|]. case_guard; [eauto|done].
Qed.

Lemma tracked_reachable rl : star mk_step newMultiKeyLimiter rl → tracked rl.
Proof.
  intros Hs. refine (star_invariant mk_step tracked _ _ _ Hs _).
  - intros a b Hab Ha. destruct Hab; [by apply tracked_request|by apply tracked_cleanup].
  - unfold tracked. simpl. rewrite !dom_empty_L. done.
Qed.

(** No bucket is leaked: in every state reachable by requests and cleanup
    ticks, a cleanup removes exactly the buckets not used for more than ten
    minutes, and keeps the others with their tokens. *)
Theorem cleanup_exact (now : Time) (rl : multiKeyLimiter) (k : string) :
  star mk_step newMultiKeyLimiter rl →
  (∀ l, ipLimits (mk_cleanup now rl) !! k = Some l ↔
     ipLimits rl !! k = Some l ∧ ∃ t, lastSeen rl !! k = Some t ∧ now - t ≤ 10 * minute) ∧
  (∀ l, keyLimits (mk_cleanup now rl) !! k = Some l ↔
     keyLimits rl !! k = Some l ∧ ∃ t, lastSeen rl !! k = Some t ∧ now - t ≤ 10 * minute).
Proof.
  intros [Hi Hk]%tracked_reachable.
  assert (∀ t, ¬ stale now t ↔ now - t ≤ 10 * minute) as Hst.
  { intros t. unfold stale. go_unfold_time. unfold min_int64, max_int64, minute, second. lia. }
  split; intros l; simpl; rewrite cleanup_lookup;
    (destruct (lastSeen rl !! k) as [t|] eqn:E;
     [destruct (decide (stale now t)) as [Hs|Hs]; split;
        [done|intros (_ & t' & [= <-] & Ht%Hst); done|
         intros ->; split; [done|]; exists t; split; [done|by apply Hst]|by intros [? _]]|]).
  all: split; [|by intros [? _]]; intros Hl; exfalso.
  - assert (k ∈ dom (lastSeen rl)) as [t Ht]%elem_of_dom by (apply Hi, elem_of_dom; eauto). congruence.
  - assert (k ∈ dom (lastSeen rl)) as [t Ht]%elem_of_dom by (apply Hk, elem_of_dom; eauto). congruence.
Qed.

(** A request is passed on exactly when the bucket of its address and, if it
    carries an API key, the bucket of that key both have a token; a request
    refused by address spends no token of the key; and no bucket but its own two
    is touched. *)
Theorem RateLimitMiddleware_spec (now : Time) (r : Request) (rl : multiKeyLimiter) :
  let '(limit, burst, _) := limitForPath config (Path r) in
  let ip_bucket := bucket_of (ipLimits rl) (ip_key r) limit burst in
  let key_bucket := bucket_of (keyLimits rl) (api_key r) limit (wrap64 (burst * 2)) in
  let '(rl', answer) := RateLimitMiddleware now r rl in
  (answer = None ↔ (bucket_allow now ip_bucket).2 = true ∧
     (ExtractAPIKey (hdr r) ≠ "" → (bucket_allow now key_bucket).2 = true)) ∧
  ((bucket_allow now ip_bucket).2 = false → keyLimits rl' = keyLimits rl) ∧
  (∀ k, k ≠ ip_key r → ipLimits rl' !! k = ipLimits rl !! k) ∧
  (∀ k, k ≠ api_key r → keyLimits rl' !! k = keyLimits rl !! k).
Proof.
  unfold RateLimitMiddleware, getLimiter. destruct (limitForPath config (Path r)) as [[limit burst] cat].
  cbv zeta. destruct (bucket_allow now (bucket_of (ipLimits rl) _ _ _)) as [l1 ok1].
  destruct ok1; simpl; [|split_and!; try done; [naive_solver|intros; by rewrite !lookup_insert_ne]].
  destruct (bool_decide (ExtractAPIKey (hdr r) = "")) eqn:Ek; simpl; decide_bools.
  - split_and!; try done; intros; by rewrite !lookup_insert_ne.
  - destruct (bucket_allow now _) as [l2 ok2]. destruct ok2; simpl;
      split_and!; try done; try (intros; by rewrite !lookup_insert_ne).
    split; [done|]. intros [_ Hf]. by specialize (Hf Ek).
Qed.

End Limiter.

(** ** The search loop *)

Lemma str_take_length_prefix sub t : bool_decide (str_take (String.length sub) t = sub) = String.prefix sub t.
Proof.
  apply eq_bool_prop_intro. rewrite bool_decide_spec, Is_true_true, prefix_iff. split.
  - intros E. exists (str_drop (String.length sub) t). rewrite <- E at 1. clear E.
    generalize (String.length sub). intros n. revert t.
    induction n as [|n IH]; intros [|c t]; simpl; try done. rewrite str_app_cons. by rewrite <- IH.
  - intros [u ->]. by rewrite str_take_app_exact.
Qed.

Lemma contains_from_skip n i c s sub : contains_from n (S i) (String c s) sub = contains_from n i s sub.
Proof. revert i. induction n as [|n IH]; intros i; [done|]. simpl. by rewrite IH. Qed.

Lemma prefix_longer s sub : (String.length s < String.length sub)%nat → String.prefix sub s = false.
Proof.
  intros Hl. destruct (String.prefix sub s) eqn:E; [|done]. apply prefix_iff in E as [t ->].
  rewrite str_length_app in Hl. lia.
Qed.

(** The hand-written search agrees with the library's substring test, so the
    path classification sees a marker wherever it occurs. *)
Theorem contains_correct (s sub : string) : contains s sub = str_contains s sub.
Proof.
  unfold contains, str_len. induction s as [|c s IH].
  - rewrite str_contains_nil, orb_false_r. destruct sub as [|d sub]; [done|].
    replace (Z.to_nat _) with O by (simpl String.length; lia). done.
  - rewrite str_contains_cons.
    destruct (decide (String.length sub ≤ String.length (String c s))%nat) as [Hle|Hgt].
    + replace (Z.to_nat (Z.of_nat (String.length (String c s)) - Z.of_nat (String.length sub) + 1))
        with (S (Z.to_nat (Z.of_nat (String.length s) - Z.of_nat (String.length sub) + 1)))
        by (simpl in *; lia).
      simpl contains_from. rewrite contains_from_skip, IH.
      change (str_drop 0 (String c s)) with (String c s). rewrite str_take_length_prefix.
      by destruct (String.prefix sub (String c s)).
    + rewrite prefix_longer by lia.
      replace (Z.to_nat _) with O by lia. simpl in *. rewrite <- IH.
      replace (Z.to_nat _) with O by lia. done.
Qed.

(** A bucket that counts its tokens down and is never refilled. *)
#[local] Instance counting_bucket : TokenBucket Z := {|
  NewLimiter := λ _ burst, burst;
  bucket_allow := λ _ l, if bool_decide (0 < l) then (l - 1, true) else (l, false) |}.

Definition idle_limiter : multiKeyLimiter (L := Z) :=
  (RateLimitMiddleware (H := ascii_tables) DefaultRateLimitConfig 0
     {| RemoteAddr := "7.7.7.7:1"; hdr := λ _, ""; Path := "/api" |} newMultiKeyLimiter).1.

Lemma cleanup_exact_witness :
  ipLimits idle_limiter !! "ip:7.7.7.7:default" = Some 49 ∧
  ipLimits (mk_cleanup (11 * minute) idle_limiter) !! "ip:7.7.7.7:default" ≠ Some 49.
Proof.
  split; [vm_compute; reflexivity|]. intros Hc.
  apply (cleanup_exact (H := ascii_tables) DefaultRateLimitConfig (11 * minute) idle_limiter
           "ip:7.7.7.7:default") in Hc as [_ (t & Ht & Hle)].
  - assert (t = 0) as -> by (vm_compute in Ht; congruence). by vm_compute in Hle.
  - eapply star_step; [apply step_request|]. apply star_refl.
Defined.

End MultiKey.
