(* ===== verification/Errors.v ===== *)
(** * Structured errors (internal/errors, internal/middleware/error_handler.go,
    subsystem.go)

    Module [Errors]: error values, their chains and the APIError constructors.
    Module [Subsystem]: the subsystem and operation of a procedure.  Module
    [ErrorHandler]: the interceptor that gives every error a structured form. *)

From S2P Require Import Prelude GoStrings GoValues GoNet.

(** ** The codes of connectrpc.com/connect

    The library's constants and the text of an error from its code and message;
    the documented numbering of the codes is [numbered]. *)
Class Connect := {
  CodeCanceled : Z; CodeUnknown : Z; CodeInvalidArgument : Z; CodeDeadlineExceeded : Z;
  CodeNotFound : Z; CodeAlreadyExists : Z; CodePermissionDenied : Z; CodeResourceExhausted : Z;
  CodeFailedPrecondition : Z; CodeAborted : Z; CodeOutOfRange : Z; CodeUnimplemented : Z;
  CodeInternal : Z; CodeUnavailable : Z; CodeDataLoss : Z; CodeUnauthenticated : Z;
  connect_text : Z → string → string;
}.

Definition all_codes `{Connect} : list Z :=
  [CodeCanceled; CodeUnknown; CodeInvalidArgument; CodeDeadlineExceeded; CodeNotFound;
   CodeAlreadyExists; CodePermissionDenied; CodeResourceExhausted; CodeFailedPrecondition;
   CodeAborted; CodeOutOfRange; CodeUnimplemented; CodeInternal; CodeUnavailable; CodeDataLoss;
   CodeUnauthenticated].

Class NumberedCodes `{Connect} : Prop :=
  numbered : all_codes = [1; 2; 3; 4; 5; 6; 7; 8; 9; 10; 11; 12; 13; 14; 15; 16].

Definition connect_codes : Connect := {|
  CodeCanceled := 1; CodeUnknown := 2; CodeInvalidArgument := 3; CodeDeadlineExceeded := 4;
  CodeNotFound := 5; CodeAlreadyExists := 6; CodePermissionDenied := 7; CodeResourceExhausted := 8;
  CodeFailedPrecondition := 9; CodeAborted := 10; CodeOutOfRange := 11; CodeUnimplemented := 12;
  CodeInternal := 13; CodeUnavailable := 14; CodeDataLoss := 15; CodeUnauthenticated := 16;
  connect_text := λ c msg, "code_" +:+ Itoa c +:+ ": " +:+ msg |}.
#[global] Instance connect_codes_numbered : NumberedCodes (H := connect_codes).
Proof. reflexivity. Qed.

Module Errors.

(** A Go [error] value: a plain one, one of [fmt.Errorf] with [%w], the two
    context errors, a [net.Error], a connect error around an optional cause, and
    the program's [*APIError]. *)
Inductive error :=
| EText (msg : string)
| EWrap (prefix : string) (inner : error)
| EDeadlineExceeded
| ECanceled
| ENet (msg : string)
| EConnect (code : Z) (cause : option error)
| EApi (Code Message : string) (Details : option (list (string * any))) (Err_ : option error)
    (Subsystem Operation : string) (Recoverable : bool) (RetryAfterMs : Z).

(** The struct behind [EApi]. *)
Record APIError := {
  Code : string; Message : string; Details : option (list (string * any)); Err_ : option error;
  Subsystem : string; Operation : string; Recoverable : bool; RetryAfterMs : Z;
}.
Definition of_api (a : APIError) : error :=
  EApi (Code a) (Message a) (Details a) (Err_ a) (Subsystem a) (Operation a) (Recoverable a)
    (RetryAfterMs a).

Definition Unwrap (e : error) : option error :=
  match e with
  | EWrap _ inner => Some inner
  | EConnect _ cause => cause
  | EApi _ _ _ err _ _ _ _ => err
  | _ => None
  end.

(** [errors.As]/[errors.Is]: the first error of the chain a test accepts. *)
Fixpoint find_chain {A} (test : error → option A) (e : error) : option A :=
  match test e with
  | Some a => Some a
  | None =>
    match e with
    | EWrap _ inner => find_chain test inner
    | EConnect _ (Some inner) => find_chain test inner
    | EApi _ _ _ (Some inner) _ _ _ _ => find_chain test inner
    | _ => None
    end
  end.

Definition is_api (e : error) : option APIError :=
  match e with
  | EApi c m d err s o r ms =>
    Some {| Code := c; Message := m; Details := d; Err_ := err; Subsystem := s; Operation := o;
            Recoverable := r; RetryAfterMs := ms |}
  | _ => None
  end.
Definition is_connect (e : error) : option (Z * option error) :=
  match e with EConnect c cause => Some (c, cause) | _ => None end.
Definition is_context (e : error) : option unit :=
  match e with EDeadlineExceeded | ECanceled => Some tt | _ => None end.
(** [context.DeadlineExceeded] is a [net.Error] too. *)
Definition is_net (e : error) : option unit :=
  match e with ENet _ | EDeadlineExceeded => Some tt | _ => None end.

Definition AsAPIError (e : error) : option APIError := find_chain is_api e.
Definition IsAPIError (e : error) : bool := match is_api e with Some _ => true | None => false end.

(** ** Constructors *)

Definition ErrNotFound : string := "ERR_NOT_FOUND".
Definition ErrUnauthorized : string := "ERR_UNAUTHORIZED".
Definition ErrForbidden : string := "ERR_FORBIDDEN".
Definition ErrInternal : string := "ERR_INTERNAL".
Definition ErrValidation : string := "ERR_VALIDATION".
Definition ErrUnavailable : string := "ERR_UNAVAILABLE".
Definition ErrDeadlineExceeded : string := "ERR_DEADLINE_EXCEEDED".
Definition ErrFailedPrecondition : string := "ERR_FAILED_PRECONDITION".
Definition ErrInvalidArgument : string := "ERR_INVALID_ARGUMENT".

Definition userMessages : list (string * string) :=
  [(ErrNotFound, "Resource not found"); (ErrUnauthorized, "Authentication required");
   (ErrForbidden, "Insufficient permissions"); (ErrInternal, "Internal system error");
   (ErrValidation, "Invalid input data"); (ErrUnavailable, "Service temporarily unavailable");
   (ErrDeadlineExceeded, "Operation timed out"); (ErrFailedPrecondition, "Precondition not met");
   (ErrInvalidArgument, "Invalid argument")].

Fixpoint assoc_str {V} (k : string) (m : list (string * V)) : option V :=
  match m with
  | [] => None
  | (k', v) :: m => if bool_decide (k = k') then Some v else assoc_str k m
  end.

Definition GetUserMessage (code : string) : string :=
  default "An error occurred" (assoc_str code userMessages).

Definition NewAPIError (code userMsg : string) (err : option error) : APIError := {|
  Code := code; Message := userMsg; Details := None; Err_ := err; Subsystem := "";
  Operation := ""; Recoverable := false; RetryAfterMs := 0 |}.

Definition NewAPIErrorWithDetails (code userMsg : string) (details : list (string * any))
    (err : option error) : APIError := {|
  Code := code; Message := userMsg; Details := Some details; Err_ := err; Subsystem := "";
  Operation := ""; Recoverable := false; RetryAfterMs := 0 |}.

Definition NewAPIErrorWithMeta (code userMsg : string) (err : option error)
    (subsystem operation : string) (recoverable : bool) (retryAfter : Duration) : APIError := {|
  Code := code; Message := userMsg; Details := None; Err_ := err; Subsystem := subsystem;
  Operation := operation; Recoverable := recoverable;
  RetryAfterMs := Z.quot retryAfter millisecond |}.

(** [NewLLMError], [NewDuckDBError], ...: the constructor of a subsystem. *)
Definition subsystem_error (subsystem : string) (code userMsg : string) (err : option error)
    (operation : string) (recoverable : bool) (retryAfter : Duration) : APIError :=
  NewAPIErrorWithMeta code userMsg err subsystem operation recoverable retryAfter.
Definition NewLLMError := subsystem_error "llm".
Definition NewDuckDBError := subsystem_error "duckdb".
Definition NewPostgresError := subsystem_error "postgres".
Definition NewMCPError := subsystem_error "mcp".
Definition NewNLPError := subsystem_error "nlp".
Definition NewHandlerError := subsystem_error "handler".
Definition NewSandboxError := subsystem_error "sandbox".
Definition NewIngestionError := subsystem_error "ingestion".

Definition RetryAfter (e : APIError) : Duration :=
  if negb (Recoverable e) then 0 else wrap64 (RetryAfterMs e * millisecond).

(** The constructors of codes.go: an empty message becomes the default one. *)
Definition coded (code userMsg : string) (err : option error) : APIError :=
  NewAPIError code (if bool_decide (userMsg = "") then GetUserMessage code else userMsg) err.
Definition NewNotFound := coded ErrNotFound.
Definition NewUnauthorized := coded ErrUnauthorized.
Definition NewForbidden := coded ErrForbidden.
Definition NewInternal := coded ErrInternal.
Definition NewValidation := coded ErrValidation.
Definition NewUnavailable := coded ErrUnavailable.
Definition NewDeadlineExceeded := coded ErrDeadlineExceeded.
Definition NewFailedPrecondition := coded ErrFailedPrecondition.
Definition NewInvalidArgument := coded ErrInvalidArgument.

(** ** Texts *)

Section Texts.
Context `{Connect}.

Definition net_deadline_text : string := "context deadline exceeded".

(** [err.Error()]. *)
Fixpoint Error (e : error) : string :=
  match e with
  | EText msg => msg
  | EWrap prefix inner => prefix +:+ ": " +:+ Error inner
  | EDeadlineExceeded => net_deadline_text
  | ECanceled => "context canceled"
  | ENet msg => msg
  | EConnect code cause =>
    connect_text code (match cause with Some inner => Error inner | None => "" end)
  | EApi code _ _ err _ _ _ _ =>
    match err with Some inner => code +:+ ": " +:+ Error inner | None => code end
  end.

(** The message of a connect error, without its code. *)
Definition connect_message (cause : option error) : string :=
  match cause with Some e => Error e | None => "" end.

End Texts.

(** ** Lemmas *)

Lemma AsAPIError_of_api a : AsAPIError (of_api a) = Some a.
Proof. by destruct a. Qed.

Lemma find_chain_here {A} (test : error → option A) e a : test e = Some a → find_chain test e = Some a.
Proof. intros E. destruct e; simpl; by rewrite E. Qed.

Lemma find_chain_unwrap {A} (test : error → option A) e inner :
  test e = None → Unwrap e = Some inner → find_chain test e = find_chain test inner.
Proof.
  destruct e as [| | | | |c [?|]|c m d [?|] s o r ms]; simpl; intros E Hu; simplify_eq; by rewrite E.
Qed.

(** The retry delay an error carries survives the round trip through its
    millisecond field: rounded down to whole milliseconds, never longer than
    asked, and gone exactly when the error is not recoverable. *)
Theorem RetryAfter_roundtrip (code msg sub op : string) (err : option error) (recoverable : bool)
    (d : Duration) :
  0 ≤ d ≤ max_int64 →
  let e := NewAPIErrorWithMeta code msg err sub op recoverable d in
  RetryAfter e = (if recoverable then d - d mod millisecond else 0) ∧
  (recoverable = true → d - millisecond < RetryAfter e ≤ d).
Proof.
  intros Hd e. unfold e, RetryAfter. cbn [Recoverable RetryAfterMs NewAPIErrorWithMeta].
  destruct recoverable; simpl; [|done].
  rewrite Z.quot_div_nonneg by (unfold millisecond; lia).
  pose proof (Z.div_mod d millisecond ltac:(done)) as Hdm.
  pose proof (Z.mod_pos_bound d millisecond ltac:(done)) as Hb.
  rewrite wrap64_id by (unfold is_int64, min_int64, max_int64, millisecond in *; lia).
  split; [lia|]. intros _. lia.
Qed.

Lemma RetryAfter_roundtrip_witness :
  RetryAfter (NewLLMError ErrUnavailable "" None "complete" true (1500 * 1000)) = 1000000.
Proof.
  apply (RetryAfter_roundtrip ErrUnavailable "" "llm" "complete" None true (1500 * 1000)).
  vm_compute. split; discriminate.
Defined.

End Errors.

Module Subsystem.

Definition procedureSubsystems : list (string * string) :=
  [("aleph.v1.QueryService/", "handler"); ("aleph.v1.ProjectService/", "handler");
   ("aleph.v1.AgentService/", "handler"); ("aleph.v1.SkillService/", "handler");
   ("aleph.v1.ToolService/", "handler"); ("aleph.v1.LibraryService/", "handler");
   ("aleph.v1.NotificationService/", "handler"); ("aleph.v1.AuthService/", "handler");
   ("aleph.v1.IngestionService/", "ingestion"); ("aleph.v1.SandboxService/", "sandbox");
   ("aleph.registry.v1.RegistryService/", "handler"); ("aleph.nlp.v1.NLPService/", "nlp")].

Definition procedureOperations : list (string * string) :=
  [("ExecuteQuery", "query"); ("GetChatHistory", "query"); ("ConfirmAction", "execute");
   ("HealthCheck", "health"); ("CreateProject", "insert"); ("DeleteProject", "delete");
   ("GetProject", "query"); ("ListProjects", "query"); ("CreateAgent", "insert");
   ("UpdateAgent", "update"); ("DeleteAgent", "delete"); ("GetAgent", "query");
   ("ListAgents", "query"); ("CreateSkill", "insert"); ("UpdateSkill", "update");
   ("DeleteSkill", "delete"); ("GetSkill", "query"); ("ListSkills", "query");
   ("InstallTool", "insert"); ("UninstallTool", "delete"); ("GetTool", "query");
   ("ListTools", "query"); ("GetToolHealth", "health"); ("ExecuteTool", "execute");
   ("Execute", "execute"); ("ListComponents", "query"); ("GetComponent", "query");
   ("RegisterComponent", "insert"); ("UpdateComponentStatus", "update");
   ("IngestFromRSS", "insert"); ("IngestFromGitHub", "insert"); ("IngestFromFile", "insert");
   ("IngestFromSitemap", "insert"); ("IngestFromGoogleSheets", "insert");
   ("IngestFromEmail", "insert"); ("IngestFromURL", "insert"); ("GetIngestionStatus", "query");
   ("ListIngestions", "query"); ("StreamPredictions", "execute"); ("RecordFeedback", "insert");
   ("AnalyzeSentiment", "execute")].

(** The first entry, in the order the map is ranged over, whose prefix matches. *)
Definition match_prefix (table : list (string * string)) (path : string) : string :=
  match list_find (λ e, String.prefix e.1 path = true) table with
  | Some (_, (_, sub)) => sub
  | None => ""
  end.

Definition trim_prefix (p s : string) : string :=
  if String.prefix p s then str_drop (String.length p) s else s.

(** [table] is the order in which Go ranges over the map of prefixes. *)
Definition deriveSubsystem `{Unicode} (table : list (string * string)) (procedure : string) :
    string * string :=
  let path := trim_prefix "/" procedure in
  (match_prefix table path,
   match last_index "/" path with
   | Some idx =>
     let op := str_drop (S idx) path in
     match Errors.assoc_str op procedureOperations with
     | Some mapped => mapped
     | None => ToLower op
     end
   | None => ""
   end).

(** ** The order of the map does not matter *)

Lemma prefix_comparable p q s :
  String.prefix p s = true → String.prefix q s = true →
  String.prefix p q = true ∨ String.prefix q p = true.
Proof.
  rewrite !prefix_iff. revert q s. induction p as [|c p IH]; intros q s [t Hp] [u Hq].
  - left. by exists q.
  - destruct q as [|d q]; [right; by exists (String c p)|].
    rewrite !str_app_cons in *. subst s. simplify_eq.
    destruct (IH q (p +:+ t)) as [[x Hx]|[x Hx]]; [by eexists|by eexists| |].
    + left. exists x. rewrite str_app_cons. congruence.
    + right. exists x. rewrite str_app_cons. congruence.
Qed.

(** No prefix of the table is a prefix of another. *)
Definition incomparable (table : list (string * string)) : Prop :=
  ∀ e f, e ∈ table → f ∈ table → String.prefix e.1 f.1 = true → e = f.

Definition incomparable_b (table : list (string * string)) : bool :=
  forallb (λ e, forallb (λ f, negb (String.prefix e.1 f.1) || bool_decide (e = f)) table) table.

Lemma table_incomparable : incomparable procedureSubsystems.
Proof.
  assert (incomparable_b procedureSubsystems = true) as Hb by (vm_compute; reflexivity).
  unfold incomparable_b in Hb. rewrite forallb_forall in Hb. intros e f He Hf Hp.
  apply list_elem_of_In in He, Hf. specialize (Hb e He). rewrite forallb_forall in Hb.
  specialize (Hb f Hf). rewrite Hp in Hb. simpl in Hb. by apply bool_decide_eq_true_1 in Hb.
Qed.

Lemma match_prefix_iff table path e :
  incomparable table → e ∈ table → String.prefix e.1 path = true → match_prefix table path = e.2.
Proof.
  intros Hi He Hp. unfold match_prefix.
  destruct (list_find _ table) as [[i [p sub]]|] eqn:E.
  - apply list_find_Some in E as (Hl & Hp' & _). simpl in *.
    apply list_elem_of_lookup_2 in Hl.
    destruct (prefix_comparable _ _ _ Hp Hp') as [Hc|Hc].
    + by rewrite (Hi e (p, sub) He Hl Hc).
    + by rewrite <- (Hi (p, sub) e Hl He Hc).
  - apply list_find_None in E. rewrite Forall_forall in E. by destruct (E e He).
Qed.

(** The subsystem of a procedure does not depend on the order in which Go
    ranges over the map of prefixes: any order gives the answer of the table. *)
Theorem deriveSubsystem_deterministic `{Unicode} (order : list (string * string)) (procedure : string) :
  order ≡ₚ procedureSubsystems →
  deriveSubsystem order procedure = deriveSubsystem procedureSubsystems procedure.
Proof.
  intros Hperm. unfold deriveSubsystem. f_equal. set (path := trim_prefix "/" procedure).
  assert (incomparable order) as Hi.
  { intros e f He Hf. rewrite Hperm in He, Hf. by apply table_incomparable. }
  destruct (list_find (λ e, String.prefix e.1 path = true) procedureSubsystems) as [[i e]|] eqn:E.
  - apply list_find_Some in E as (Hl & Hp & _). apply list_elem_of_lookup_2 in Hl.
    rewrite (match_prefix_iff procedureSubsystems path e) by auto using table_incomparable.
    apply match_prefix_iff; [done| |done]. by rewrite Hperm.
  - unfold match_prefix at 2. rewrite E. apply list_find_None in E. unfold match_prefix.
    destruct (list_find _ order) as [[i e]|] eqn:E2; [|done].
    apply list_find_Some in E2 as (Hl & Hp & _). apply list_elem_of_lookup_2 in Hl.
    rewrite Hperm in Hl. rewrite Forall_forall in E. by destruct (E e Hl).
Qed.

Lemma deriveSubsystem_deterministic_witness :
  deriveSubsystem (H := ascii_tables) (reverse procedureSubsystems) "/aleph.v1.QueryService/ExecuteQuery"
  = ("handler", "query").
Proof.
  rewrite (deriveSubsystem_deterministic (H := ascii_tables) (reverse procedureSubsystems)).
  - vm_compute. reflexivity.
  - apply reverse_Permutation.
Defined.

End Subsystem.

Module ErrorHandler.
Import Errors.

Section Handler.
Context `{Connect}.

Definition apiErrorCodeToConnectCode (code : string) : Z :=
  if bool_decide (code = ErrNotFound) then CodeNotFound
  else if bool_decide (code = ErrUnauthorized) then CodeUnauthenticated
  else if bool_decide (code = ErrForbidden) then CodePermissionDenied
  else if bool_decide (code = ErrValidation) || bool_decide (code = ErrInvalidArgument)
  then CodeInvalidArgument
  else if bool_decide (code = ErrFailedPrecondition) then CodeFailedPrecondition
  else if bool_decide (code = ErrDeadlineExceeded) then CodeDeadlineExceeded
  else if bool_decide (code = ErrUnavailable) then CodeUnavailable
  else CodeInternal.

(** The switch of [wrapConnectError]: the API constructor for a connect code. *)
Definition api_for_code (code : Z) (msg : string) (err : option error) : APIError :=
  if bool_decide (code = CodeInvalidArgument) then NewInvalidArgument msg err
  else if bool_decide (code = CodeNotFound) then NewNotFound msg err
  else if bool_decide (code = CodeAlreadyExists) then NewFailedPrecondition msg err
  else if bool_decide (code = CodePermissionDenied) then NewForbidden msg err
  else if bool_decide (code = CodeUnauthenticated) then NewUnauthorized msg err
  else if bool_decide (code = CodeResourceExhausted) then NewUnavailable msg err
  else if bool_decide (code = CodeFailedPrecondition) then NewFailedPrecondition msg err
  else if bool_decide (code = CodeAborted) then NewFailedPrecondition msg err
  else if bool_decide (code = CodeOutOfRange) then NewInvalidArgument msg err
  else if bool_decide (code = CodeUnimplemented) then NewUnavailable msg err
  else if bool_decide (code = CodeInternal) then NewInternal msg err
  else if bool_decide (code = CodeUnavailable) then NewUnavailable msg err
  else if bool_decide (code = CodeDeadlineExceeded) then NewDeadlineExceeded msg err
  else NewInternal msg err.

Definition with_origin (subsystem operation : string) (a : APIError) : APIError := {|
  Code := Code a; Message := Message a; Details := Details a; Err_ := Err_ a;
  Subsystem := subsystem; Operation := operation; Recoverable := Recoverable a;
  RetryAfterMs := RetryAfterMs a |}.

(** A field that is empty takes the value of the context. *)
Definition enrich (subsystem operation : string) (a : APIError) : APIError :=
  with_origin (if bool_decide (Subsystem a = "") then subsystem else Subsystem a)
    (if bool_decide (Operation a = "") then operation else Operation a) a.

(** A non-empty value of the context replaces the field. *)
Definition override (subsystem operation : string) (a : APIError) : APIError :=
  with_origin (if bool_decide (subsystem = "") then Subsystem a else subsystem)
    (if bool_decide (operation = "") then Operation a else operation) a.

Definition wrapConnectError (code : Z) (cause : option error) (subsystem operation : string) : error :=
  let apiErr := api_for_code code (connect_message cause) (Some (EConnect code cause)) in
  EConnect code (Some (of_api (override subsystem operation apiErr))).

(** [origin] is what [SubsystemFromContext] returns. *)
Definition wrapError (origin : string * string) (err : error) : error :=
  let '(subsystem, operation) := origin in
  match AsAPIError err with
  | Some apiErr =>
    EConnect (apiErrorCodeToConnectCode (Code apiErr))
      (Some (of_api (enrich subsystem operation apiErr)))
  | None =>
    match err with
    | EConnect code cause => wrapConnectError code cause subsystem operation
    | _ =>
      EConnect CodeInternal
        (Some (of_api (override subsystem operation (NewInternal "unexpected error occurred" (Some err)))))
    end
  end.

(** [WrapUnary]: the response is dropped when there is an error. *)
Definition WrapUnary {Resp} (origin : string * string) (r : result error Resp) : result error Resp :=
  match r with Ok resp => Ok resp | Err e => Err (wrapError origin e) end.

(** ** Lemmas *)

Lemma wrapError_api origin err a :
  AsAPIError err = Some a →
  wrapError origin err =
    EConnect (apiErrorCodeToConnectCode (Code a)) (Some (of_api (enrich origin.1 origin.2 a))).
Proof. intros E. unfold wrapError. destruct origin. by rewrite E. Qed.

Lemma enrich_idem s o a : Code (enrich s o a) = Code a ∧ enrich s o (enrich s o a) = enrich s o a.
Proof.
  split; [done|]. unfold enrich, with_origin. cbn. f_equal;
    repeat case_bool_decide; congruence.
Qed.

(** Every error is turned into a connect error around an API error. *)
Lemma wrapError_form origin err :
  ∃ code a, wrapError origin err = EConnect code (Some (of_api a)) ∧
    (AsAPIError err = None → Err_ a = Some err).
Proof.
  unfold wrapError. destruct origin as [s o]. destruct (AsAPIError err) eqn:E; [by eexists _, _|].
  destruct err; try (eexists _, _; split; [reflexivity|done]).
  - unfold wrapConnectError. eexists _, _. split; [reflexivity|]. intros _.
    unfold api_for_code. by repeat case_bool_decide.
Qed.

(** Every handler error leaves the interceptor as one connect error around
    one API error, which carries the subsystem and the operation of the context
    wherever it had none, and around an unstructured error that error itself as
    its cause; successes are untouched. *)
Theorem wrapError_structured {Resp} (sub op : string) (r : result error Resp) :
  match r with
  | Ok resp => WrapUnary (sub, op) r = Ok resp
  | Err err =>
    ∃ code a, WrapUnary (sub, op) r = Err (EConnect code (Some (of_api a))) ∧
      AsAPIError (EConnect code (Some (of_api a))) = Some a ∧
      match AsAPIError err with
      | Some b => Code a = Code b ∧ Message a = Message b ∧ Err_ a = Err_ b ∧
                  (Subsystem b = "" → Subsystem a = sub) ∧ (Operation b = "" → Operation a = op) ∧
                  (Subsystem b ≠ "" → Subsystem a = Subsystem b)
      | None => Err_ a = Some err ∧ (sub ≠ "" → Subsystem a = sub) ∧ (op ≠ "" → Operation a = op)
      end
  end.
Proof.
  destruct r as [resp|err]; [done|]. cbn [WrapUnary].
  destruct (AsAPIError err) as [b|] eqn:E.
  - rewrite (wrapError_api _ _ b E). eexists _, _. split; [reflexivity|]. split.
    { unfold AsAPIError. rewrite (find_chain_unwrap _ _ (of_api (enrich sub op b))) by done.
      apply AsAPIError_of_api. }
    unfold enrich, with_origin. cbn. split_and!; try done; intros Hb.
    + by rewrite bool_decide_eq_true_2.
    + by rewrite bool_decide_eq_true_2.
    + by rewrite bool_decide_eq_false_2.
  - assert (∃ code b, wrapError (sub, op) err = EConnect code (Some (of_api (override sub op b))) ∧
              Err_ b = Some err) as (code & b & -> & Hb).
    { unfold wrapError. rewrite E. destruct err; try (eexists _, _; split; [reflexivity|done]).
      unfold wrapConnectError. eexists _, _. split; [reflexivity|].
      unfold api_for_code. by repeat case_bool_decide. }
    eexists _, _. split; [reflexivity|]. split.
    { unfold AsAPIError. rewrite (find_chain_unwrap _ _ (of_api (override sub op b))) by done.
      apply AsAPIError_of_api. }
    unfold override, with_origin. cbn. split_and!; [done|..]; intros Hn; by rewrite bool_decide_eq_false_2.
Qed.

Lemma AsAPIError_wrapped code a : AsAPIError (EConnect code (Some (of_api a))) = Some a.
Proof.
  unfold AsAPIError. rewrite (find_chain_unwrap _ _ (of_api a)) by done. apply AsAPIError_of_api.
Qed.

(** Stacked interceptors settle on the code of the API error: one pass
    settles an error that holds an API error, two passes settle any error. *)
Theorem wrapError_settles (origin : string * string) (err : error) :
  let e1 := wrapError origin err in
  let e2 := wrapError origin e1 in
  wrapError origin e2 = e2 ∧ (AsAPIError err ≠ None → e2 = e1).
Proof.
  assert (∀ e, AsAPIError e ≠ None → wrapError origin (wrapError origin e) = wrapError origin e) as Hidem.
  { intros e He. destruct (AsAPIError e) as [b|] eqn:E; [|done].
    rewrite (wrapError_api origin e b E), (wrapError_api _ _ _ (AsAPIError_wrapped _ _)).
    by destruct (enrich_idem origin.1 origin.2 b) as [-> ->]. }
  intros e1 e2. split; [|apply Hidem]. unfold e2, e1. apply Hidem.
  destruct (wrapError_form origin err) as (code & a & -> & _). by rewrite AsAPIError_wrapped.
Qed.

(** A connect error that already holds an API error is not passed through
    unchanged: its code is replaced by the one its API error maps to.  So a
    rate-limit refusal keeps its code through one interceptor and is reported as
    unavailable after a second one. *)
Theorem wrapError_rewrites `{!NumberedCodes} (origin : string * string) (msg : string) :
  ∃ a b,
    let e1 := wrapError origin (EConnect CodeResourceExhausted (Some (EText msg))) in
    e1 = EConnect CodeResourceExhausted (Some (of_api a)) ∧
    wrapError origin e1 = EConnect CodeUnavailable (Some (of_api b)) ∧
    CodeResourceExhausted ≠ CodeUnavailable.
Proof.
  pose proof numbered as Hn. unfold all_codes in Hn.
  injection Hn as H1 H2 H3 H4 H5 H6 H7 H8 H9 H10 H11 H12 H13 H14 H15 H16.
  eexists _, _. cbv zeta.
  assert (wrapError origin (EConnect CodeResourceExhausted (Some (EText msg))) =
    EConnect CodeResourceExhausted (Some (of_api (override origin.1 origin.2
      (NewUnavailable msg (Some (EConnect CodeResourceExhausted (Some (EText msg))))))))) as ->.
  { unfold wrapError. destruct origin as [s o]. cbn [AsAPIError find_chain is_api].
    unfold wrapConnectError, api_for_code. rewrite H3, H5, H6, H7, H8, H16. done. }
  split; [reflexivity|]. rewrite (wrapError_api _ _ _ (AsAPIError_wrapped _ _)).
  split; [reflexivity|]. rewrite H8, H14. done.
Qed.

End Handler.

Lemma wrapError_settles_witness :
  wrapError (H := connect_codes) ("llm", "chat") (wrapError (H := connect_codes) ("llm", "chat")
    (EWrap "chat" (of_api (NewNotFound "" None))))
  = wrapError (H := connect_codes) ("llm", "chat") (EWrap "chat" (of_api (NewNotFound "" None))).
Proof.
  apply (wrapError_settles (H := connect_codes) ("llm", "chat")
           (EWrap "chat" (of_api (NewNotFound "" None)))). vm_compute. discriminate.
Defined.

Lemma wrapError_rewrites_witness :
  ∃ a b,
    let e1 := wrapError (H := connect_codes) ("", "") (EConnect 8 (Some (EText "slow down"))) in
    e1 = EConnect 8 (Some (of_api a)) ∧
    wrapError (H := connect_codes) ("", "") e1 = EConnect 14 (Some (of_api b)) ∧ 8 ≠ 14.
Proof. apply (wrapError_rewrites (H := connect_codes) ("", "") "slow down"). Defined.

End ErrorHandler.
