(* ===== verification/Resilience.v ===== *)
(** * Retry, bulkhead and timeout interceptors (internal/middleware/retry.go,
    bulkhead.go, timeout.go) *)

From Stdlib Require Import SpecFloat.
From S2P Require Import Prelude GoStrings GoValues Errors.

Module Retry.
Import Errors.

Record RetryConfig := {
  MaxRetries : Z; InitialDelay : Duration; MaxDelay : Duration; JitterFactor : f64;
}.

Definition DefaultRetryConfig : RetryConfig := {|
  MaxRetries := 3; InitialDelay := 497 * millisecond; MaxDelay := 5 * second;
  JitterFactor := f64_lit 1 10 |}.

(** One round of the loop: what the operation answers, the random number drawn
    for the jitter, and whether the context ends before the timer. *)
Record round (T : Type) := { answer : result error T; rand : f64; ctx_done : option error }.
Arguments answer {T}.
Arguments rand {T}.
Arguments ctx_done {T}.

Inductive outcome (T : Type) :=
| Value (v : T)
| Failed (e : error)
| NilResult.
Arguments Value {T}.
Arguments Failed {T}.
Arguments NilResult {T}.

Section Retry.
Context `{Connect}.

Definition ShouldRetry (err : option error) : bool :=
  match err with
  | None => false
  | Some err =>
    match find_chain is_context err, find_chain is_net err with
    | Some _, _ => true
    | None, Some _ => true
    | None, None =>
      let by_text := str_contains (Error err) "status code 5" in
      match find_chain is_connect err with
      | Some (code, _) =>
        if bool_decide (CodeInternal ≤ code) && bool_decide (code ≤ CodeDataLoss) then true
        else if bool_decide (CodeInvalidArgument ≤ code) && bool_decide (code ≤ CodeUnauthenticated)
        then false
        else by_text
      | None => by_text
      end
    end
  end.

Arguments ShouldRetry : simpl never.

Definition backoff (config : RetryConfig) (delay : Duration) (rand : f64) : Duration :=
  let nextDelay :=
    if f64_lt (f64_of_int 0) (JitterFactor config) then
      wrap64 (delay + f64_trunc (f64_mul rand (f64_mul (f64_of_int delay) (JitterFactor config))))
    else delay in
  if bool_decide (MaxDelay config < nextDelay) then MaxDelay config else nextDelay.

(** [n] rounds left, the next one is number [attempt]; the calls made and the
    waits between them are returned. *)
Fixpoint retry_loop {T} (config : RetryConfig) (world : Z → round T) (n : nat) (attempt : Z)
    (delay : Duration) : outcome T * list Duration :=
  match n with
  | O => (NilResult, [])
  | S n =>
    match answer (world attempt) with
    | Ok v => (Value v, [])
    | Err err =>
      if negb (ShouldRetry (Some err)) || bool_decide (MaxRetries config ≤ attempt)
      then (Failed err, [])
      else
        let wait := backoff config delay (rand (world attempt)) in
        match ctx_done (world attempt) with
        | Some e => (Failed e, [wait])
        | None =>
          let '(res, waits) := retry_loop config world n (attempt + 1) (wrap64 (delay * 2)) in
          (res, wait :: waits)
        end
    end
  end.

(** The loop runs while [attempt <= MaxRetries]; with a negative bound it is not
    entered, and the zero value is returned with a nil error. *)
Definition Retry {T} (config : RetryConfig) (world : Z → round T) : outcome T * list Duration :=
  retry_loop config world (Z.to_nat (MaxRetries config + 1)) 0 (InitialDelay config).

(** ** Lemmas *)

Definition transient (e : error) : Prop := ShouldRetry (Some e) = true.

(** Round [i] ends in a retryable error and the wait after it is not cut short. *)
Definition retried {T} (world : Z → round T) (i : Z) : Prop :=
  ∃ e, answer (world i) = Err e ∧ transient e ∧ ctx_done (world i) = None.

Lemma retry_loop_value {T} config (world : Z → round T) n attempt delay v waits :
  retry_loop config world n attempt delay = (Value v, waits) →
  ∃ k : nat, (k < n)%nat ∧ length waits = k ∧ answer (world (attempt + Z.of_nat k)) = Ok v ∧
    ∀ j : nat, (j < k)%nat → retried world (attempt + Z.of_nat j).
Proof.
  revert attempt delay waits. induction n as [|n IH]; intros attempt delay waits; simpl; [done|].
  destruct (answer (world attempt)) as [v'|err] eqn:Ea.
  { intros [= <- <-]. exists 0%nat. rewrite Z.add_0_r. split_and!; [lia|done|done|lia]. }
  case_match eqn:Es; [done|].
  apply orb_false_iff in Es as [Hs _]. apply negb_false_iff in Hs.
  destruct (ctx_done (world attempt)) as [e|] eqn:Ec; [done|].
  destruct (retry_loop config world n (attempt + 1) _) as [res ws] eqn:El. intros [= -> <-].
  destruct (IH _ _ _ El) as (k & Hk & Hw & Hv & Hr). exists (S k).
  split_and!; [lia|simpl; lia|by replace (attempt + Z.of_nat (S k)) with (attempt + 1 + Z.of_nat k) by lia|].
  intros [|j] Hj; [rewrite Z.add_0_r; by exists err|].
  replace (attempt + Z.of_nat (S j)) with (attempt + 1 + Z.of_nat j) by lia. apply Hr. lia.
Qed.

Lemma retry_loop_reaches {T} config (world : Z → round T) k : ∀ n attempt delay v,
  (k < n)%nat → attempt + Z.of_nat k ≤ MaxRetries config →
  answer (world (attempt + Z.of_nat k)) = Ok v →
  (∀ j : nat, (j < k)%nat → retried world (attempt + Z.of_nat j)) →
  (retry_loop config world n attempt delay).1 = Value v.
Proof.
  induction k as [|k IH]; intros n attempt delay v Hn Hm Hv Hr; (destruct n as [|n]; [lia|]); simpl.
  - rewrite Z.add_0_r in Hv. by rewrite Hv.
  - destruct (Hr 0%nat) as (e & He & Ht & Hc); [lia|]. rewrite Z.add_0_r in He, Hc.
    unfold transient in Ht. rewrite He, Ht, Hc. rewrite bool_decide_eq_false_2 by lia. simpl.
    specialize (IH n (attempt + 1) (wrap64 (delay * 2)) v).
    destruct (retry_loop config world n (attempt + 1) _) as [res ws]. apply IH; [lia|lia| |].
    + by replace (attempt + 1 + Z.of_nat k) with (attempt + Z.of_nat (S k)) by lia.
    + intros j Hj. replace (attempt + 1 + Z.of_nat j) with (attempt + Z.of_nat (S j)) by lia.
      apply Hr. lia.
Qed.

Lemma retry_loop_no_nil {T} config (world : Z → round T) n : ∀ attempt delay,
  Z.of_nat n = MaxRetries config - attempt + 1 → (0 < n)%nat →
  (retry_loop config world n attempt delay).1 ≠ NilResult.
Proof.
  induction n as [|n IH]; intros attempt delay Hn Hpos; [lia|]. simpl.
  destruct (answer (world attempt)) as [v|err]; [done|].
  destruct (negb (ShouldRetry (Some err))); [done|]. simpl.
  case_bool_decide as Hm; [done|]. destruct (ctx_done (world attempt)); [done|].
  specialize (IH (attempt + 1) (wrap64 (delay * 2))).
  destruct (retry_loop config world n (attempt + 1) _). apply IH; lia.
Qed.

(** [Retry] returns a value exactly when some attempt within the bound
    succeeds and every earlier one failed with a retryable error whose wait was
    not cut short; with a bound of zero or more it never returns an empty
    result. *)
Theorem Retry_value_iff {T} (config : RetryConfig) (world : Z → round T) (v : T) :
  0 ≤ MaxRetries config →
  ((Retry config world).1 = Value v ↔
   ∃ k, 0 ≤ k ≤ MaxRetries config ∧ answer (world k) = Ok v ∧ ∀ j, 0 ≤ j < k → retried world j) ∧
  (Retry config world).1 ≠ NilResult.
Proof.
  intros Hm. unfold Retry. split; [|apply retry_loop_no_nil; lia]. split.
  - destruct (retry_loop _ _ _ _ _) as [res ws] eqn:E. simpl. intros ->.
    apply retry_loop_value in E as (k & Hk & _ & Hv & Hr). exists (Z.of_nat k).
    split_and!; [lia|lia|done|]. intros j Hj. specialize (Hr (Z.to_nat j)).
    rewrite Z.add_0_l, Z2Nat.id in Hr by lia. apply Hr. lia.
  - intros (k & Hk & Hv & Hr). apply (retry_loop_reaches config world (Z.to_nat k)); [lia|lia| |].
    + by rewrite Z.add_0_l, Z2Nat.id by lia.
    + intros j Hj. rewrite Z.add_0_l. apply Hr. lia.
Qed.

(** With a negative bound the operation is never called, and the caller gets
    the zero value with a nil error. *)
Theorem Retry_negative_bound {T} (config : RetryConfig) (world : Z → round T) :
  MaxRetries config < 0 → Retry config world = (NilResult, []).
Proof. intros Hm. unfold Retry. by replace (Z.to_nat _) with O by lia. Qed.

(** On a connect error with neither a context nor a network error in its
    chain, [ShouldRetry] follows the code: internal, unavailable and data-loss
    errors are retried, every other numbered code from invalid-argument on is not,
    and canceled or unknown errors only when their text mentions a 5xx status.
    A connect error with code deadline-exceeded is therefore not retried, although
    timeouts are documented as transient. *)
Theorem ShouldRetry_connect `{!NumberedCodes} (code : Z) (cause : option error) :
  1 ≤ code ≤ 16 →
  let err := EConnect code cause in
  find_chain is_context err = None → find_chain is_net err = None →
  ShouldRetry (Some err) =
    (bool_decide (code = CodeInternal ∨ code = CodeUnavailable ∨ code = CodeDataLoss) ||
     bool_decide (code = CodeCanceled ∨ code = CodeUnknown) &&
       str_contains (Error err) "status code 5").
Proof.
  pose proof numbered as Hn. unfold all_codes in Hn.
  injection Hn as H1 H2 H3 H4 H5 H6 H7 H8 H9 H10 H11 H12 H13 H14 H15 H16.
  intros Hc err Hctx Hnet. unfold ShouldRetry. rewrite Hctx, Hnet.
  rewrite (find_chain_here is_connect err (code, cause)) by done.
  rewrite H1, H2, H3, H13, H14, H15, H16. set (b := str_contains _ _).
  repeat case_bool_decide; simpl; try done; lia.
Qed.

(** ** The waits *)

Lemma round_sign s m e l :
  match binary_round_aux f64_prec f64_emax s m e l with
  | S754_finite s' _ _ => s' = s
  | _ => True
  end.
Proof.
  unfold binary_round_aux. destruct (shr_fexp _ _ _ _ _) as [mrs e'].
  destruct (shr_fexp _ _ _ _ _) as [mrs' e'']. destruct (shr_m mrs'); [done| |done].
  by destruct (Z.leb _ _).
Qed.

(** A float that is not a negative number. *)
Definition nonneg (x : f64) : Prop := match x with S754_finite true _ _ => False | _ => True end.

Lemma nonneg_mul x y : nonneg x → nonneg y → nonneg (f64_mul x y).
Proof.
  intros Hx Hy. unfold f64_mul, SFmul.
  destruct x as [| | |[] mx ex]; try done; destruct y as [| | |[] my ey]; try done; simpl.
  pose proof (round_sign false (Z.pos (mx * my)) (ex + ey) loc_Exact) as Hs.
  unfold nonneg. simpl in *. destruct (binary_round_aux _ _ _ _ _ _) as [| | |s m e]; [done..|]. by subst.
Qed.

Lemma nonneg_of_int z : 0 ≤ z → nonneg (f64_of_int z).
Proof.
  intros Hz. unfold f64_of_int, binary_normalize. destruct z as [|p|p]; [done| |lia].
  unfold binary_round. destruct (shl_align _ _ _) as [mz ez].
  pose proof (round_sign false (Z.pos mz) ez loc_Exact) as Hs. unfold nonneg.
  simpl in *. destruct (binary_round_aux _ _ _ _ _ _) as [| | |s m e]; [done..|]. by subst.
Qed.

Lemma f64_trunc_nonneg x : nonneg x → 0 ≤ f64_trunc x.
Proof.
  destruct x as [| | |[] m e]; simpl; try done. intros _. case_bool_decide.
  - by apply Z.shiftl_nonneg.
  - by apply Z.shiftr_nonneg.
Qed.

Lemma backoff_bounds config delay r :
  0 ≤ delay → nonneg r → nonneg (JitterFactor config) →
  delay + f64_trunc (f64_mul r (f64_mul (f64_of_int delay) (JitterFactor config))) ≤ max_int64 →
  Z.min delay (MaxDelay config) ≤ backoff config delay r ≤ MaxDelay config.
Proof.
  intros Hd Hr Hj Hov. unfold backoff.
  assert (0 ≤ f64_trunc (f64_mul r (f64_mul (f64_of_int delay) (JitterFactor config)))) as Hn
    by auto using f64_trunc_nonneg, nonneg_mul, nonneg_of_int.
  rewrite wrap64_id by (unfold is_int64, min_int64; lia).
  destruct (f64_lt _ _); case_bool_decide; lia.
Qed.

(** While the doubled delay fits 64 bits, the wait after failed attempt [k]
    lies between [min(InitialDelay * 2^k, MaxDelay)] and [MaxDelay]; at most
    [MaxRetries] waits happen. *)
Theorem waits_bounds {T} (config : RetryConfig) (world : Z → round T) (k : nat) (w : Duration) :
  0 ≤ InitialDelay config → nonneg (JitterFactor config) → (∀ i, nonneg (rand (world i))) →
  (∀ delay i, delay ≤ InitialDelay config * 2 ^ Z.of_nat k →
     delay + f64_trunc (f64_mul (rand (world i)) (f64_mul (f64_of_int delay) (JitterFactor config)))
       ≤ max_int64) →
  InitialDelay config * 2 ^ Z.of_nat k ≤ max_int64 →
  (Retry config world).2 !! k = Some w →
  Z.of_nat k < MaxRetries config ∧
  Z.min (InitialDelay config * 2 ^ Z.of_nat k) (MaxDelay config) ≤ w ≤ MaxDelay config.
Proof.
  intros Hi Hj Hr Hov Hfit. unfold Retry.
  assert (∀ n attempt delay k0,
    0 ≤ delay → delay * 2 ^ Z.of_nat k0 ≤ InitialDelay config * 2 ^ Z.of_nat k →
    (retry_loop config world n attempt delay).2 !! k0 = Some w →
    attempt + Z.of_nat k0 < MaxRetries config ∧
    Z.min (delay * 2 ^ Z.of_nat k0) (MaxDelay config) ≤ w ≤ MaxDelay config) as Hgen.
  2:{ intros E. apply (Hgen _ 0 (InitialDelay config) k) in E; [|done|lia]. lia. }
  induction n as [|n IH]; intros attempt delay k0 Hd Hle; simpl; [done|].
  destruct (answer (world attempt)) as [v|err]; [done|].
  case_match eqn:Es; [done|]. apply orb_false_iff in Es as [_ Ha]. decide_bools.
  assert (0 < 2 ^ Z.of_nat k0) as Hpow by (apply Z.pow_pos_nonneg; lia).
  assert (delay ≤ InitialDelay config * 2 ^ Z.of_nat k) as Hdk by nia.
  pose proof (backoff_bounds config delay (rand (world attempt)) Hd (Hr attempt) Hj
    (Hov delay attempt Hdk)) as Hb.
  destruct (ctx_done (world attempt)) as [e|].
  { destruct k0 as [|k0]; simpl; [|done]. intros [= <-]. rewrite Z.mul_1_r. lia. }
  destruct k0 as [|k0]; simpl.
  { destruct (retry_loop _ _ _ _ _). simpl. intros [= <-]. rewrite Z.mul_1_r. lia. }
  assert (delay * 2 ^ Z.of_nat (S k0) = delay * 2 * 2 ^ Z.of_nat k0) as Ek.
  { rewrite Nat2Z.inj_succ, Z.pow_succ_r by lia. lia. }
  assert (wrap64 (delay * 2) = delay * 2) as Ew.
  { apply wrap64_id. unfold is_int64, min_int64. rewrite Ek in Hle.
    assert (0 < 2 ^ Z.of_nat k0) by (apply Z.pow_pos_nonneg; lia). nia. }
  specialize (IH (attempt + 1) (delay * 2) k0). rewrite Ew.
  destruct (retry_loop _ _ _ _ _). simpl in *. intros Hw. rewrite Ek in *.
  apply IH in Hw; [lia|lia|lia].
Qed.

End Retry.

Definition flaky : Z → round Z := λ i, {|
  answer := if bool_decide (i < 2) then Err (ENet "reset") else Ok 7;
  rand := f64_lit 1 2; ctx_done := None |}.
Definition plain_config (retries : Z) : RetryConfig := {|
  MaxRetries := retries; InitialDelay := 497 * millisecond; MaxDelay := 5 * second;
  JitterFactor := f64_of_int 0 |}.
Definition hopeless : Z → round Z := λ i, {|
  answer := Err (ENet "reset"); rand := f64_of_int 0; ctx_done := None |}.

Lemma Retry_value_iff_witness : (Retry (H := connect_codes) DefaultRetryConfig flaky).1 = Value 7.
Proof.
  apply (Retry_value_iff (H := connect_codes) DefaultRetryConfig flaky 7); [vm_compute; discriminate|].
  exists 2. split_and!; [lia|vm_compute; discriminate|vm_compute; reflexivity|].
  intros j Hj. exists (ENet "reset"). split_and!; [|vm_compute; reflexivity|done].
  unfold flaky. cbn. by rewrite bool_decide_eq_true_2 by lia.
Defined.

Lemma ShouldRetry_connect_witness :
  ShouldRetry (H := connect_codes) (Some (EConnect 4 (Some (EText "upstream timeout")))) = false.
Proof.
  rewrite (ShouldRetry_connect (H := connect_codes) 4 (Some (EText "upstream timeout")));
    [vm_compute; reflexivity|lia|done|done].
Defined.

Lemma Retry_negative_bound_witness :
  Retry (H := connect_codes) (plain_config (-1)) hopeless = (NilResult, []).
Proof. apply (Retry_negative_bound (H := connect_codes)). reflexivity. Defined.

Lemma waits_bounds_witness :
  Z.min (InitialDelay (plain_config 10) * 2 ^ Z.of_nat 3) (MaxDelay (plain_config 10))
    ≤ 3976 * millisecond ≤ MaxDelay (plain_config 10).
Proof.
  apply (waits_bounds (H := connect_codes) (plain_config 10) hopeless 3).
  - vm_compute. discriminate.
  - exact I.
  - intros i. exact I.
  - intros delay i Hd. cbn [rand hopeless plain_config JitterFactor].
    assert (f64_trunc (f64_mul (f64_of_int 0) (f64_mul (f64_of_int delay) (f64_of_int 0))) = 0) as ->
      by (by destruct (f64_of_int delay)).
    change (InitialDelay (plain_config 10) * 2 ^ Z.of_nat 3) with 3976000000 in Hd.
    unfold max_int64. lia.
  - vm_compute. discriminate.
  - vm_compute. reflexivity.
Defined.

(** The doubling is not capped: with the default delays, from the 36th wait
    on the doubled delay has wrapped to a negative number or to zero, the cap
    lets it pass, and the operation is retried without any pause. *)
Theorem waits_overflow :
  let waits := (Retry (H := connect_codes) (plain_config 80) hopeless).2 in
  length waits = 80%nat ∧ waits !! 34%nat = Some (5 * second) ∧
  Forall (λ w, w ≤ 0) (drop 63 waits) ∧ (∃ w, waits !! 35%nat = Some w ∧ w < 0).
Proof.
  cbv zeta. split_and!; [vm_compute; reflexivity|vm_compute; reflexivity| |].
  - vm_compute. repeat constructor; discriminate.
  - eexists. split; vm_compute; reflexivity.
Qed.

End Retry.

Module Timeout.

Record TimeoutConfig := {
  DBTimeout : Duration; LLMTimeout : Duration; NLPTimeout : Duration;
  ExternalHTTPTimeout : Duration; DefaultTimeout : Duration;
}.

Definition DefaultTimeoutConfig : TimeoutConfig := {|
  DBTimeout := 10 * second; LLMTimeout := 5 * minute; NLPTimeout := 30 * second;
  ExternalHTTPTimeout := 30 * second; DefaultTimeout := 5 * minute |}.

Definition mentions (procedure : string) (names : list string) : bool :=
  existsb (str_contains procedure) names.

Definition timeoutForProcedure (c : TimeoutConfig) (procedure : string) : Duration :=
  if mentions procedure ["/Chat"] then LLMTimeout c
  else if mentions procedure ["QueryService"; "ProjectService"; "RegistryService"; "LibraryService"]
  then DBTimeout c
  else if mentions procedure ["AgentService"; "SkillService"; "ToolService"] then LLMTimeout c
  else if mentions procedure ["NLPService"] then NLPTimeout c
  else if mentions procedure ["IngestionService"] then ExternalHTTPTimeout c
  else DefaultTimeout c.

End Timeout.

Module Bulkhead.

Record BulkheadConfig := { QueryPoolSize : Z; IngestionPoolSize : Z; ChatPoolSize : Z }.
Definition DefaultBulkheadConfig : BulkheadConfig :=
  {| QueryPoolSize := 20; IngestionPoolSize := 5; ChatPoolSize := 10 |}.

Definition domainForProcedure (procedure : string) : string :=
  if Timeout.mentions procedure ["QueryService"; "ProjectService"; "RegistryService"; "LibraryService"]
  then "query"
  else if Timeout.mentions procedure ["IngestionService"] then "ingestion"
  else if Timeout.mentions procedure ["AgentService"; "SkillService"; "ToolService"; "NLPService"]
  then "chat"
  else "".

Definition configForDomain (c : BulkheadConfig) (domain : string) : Z :=
  if bool_decide (domain = "query") then QueryPoolSize c
  else if bool_decide (domain = "ingestion") then IngestionPoolSize c
  else if bool_decide (domain = "chat") then ChatPoolSize c
  else 0.

(** ** The semaphore of golang.org/x/sync

    Its operations with weight one, and their documented effect on the number of
    tokens in use. *)
Class Semaphore (Sem : Type) := {
  NewWeighted : Z → Sem;
  TryAcquire : Sem → option Sem;
  Release : Sem → Sem;
}.

Class SemaphoreLaws (Sem : Type) `{Semaphore Sem} := {
  size : Sem → Z;
  in_use : Sem → Z;
  new_size n : size (NewWeighted n) = n;
  new_in_use n : in_use (NewWeighted n) = 0;
  acquire_some s s' : TryAcquire s = Some s' →
    in_use s < size s ∧ in_use s' = in_use s + 1 ∧ size s' = size s;
  acquire_none s : TryAcquire s = None → size s ≤ in_use s;
  release_in_use s : 0 < in_use s → in_use (Release s) = in_use s - 1 ∧ size (Release s) = size s;
}.

Section Interceptor.
Context {Sem : Type} `{Semaphore Sem} (config : BulkheadConfig).

(** The pools by domain. *)
Definition NewBulkheadInterceptor : gmap string Sem :=
  <["query" := NewWeighted (QueryPoolSize config)]>
  (<["ingestion" := NewWeighted (IngestionPoolSize config)]>
  (<["chat" := NewWeighted (ChatPoolSize config)]> ∅)).

Definition poolForProcedure (pools : gmap string Sem) (procedure : string) : option Sem :=
  pools !! domainForProcedure procedure.

(** The start of a call: passed on without a pool, refused, or passed on with a
    token of its domain, which the deferred release gives back at its end. *)
Definition begin_call (procedure : string) (pools : gmap string Sem) : option (gmap string Sem) :=
  match poolForProcedure pools procedure with
  | None => Some pools
  | Some pool =>
    match TryAcquire pool with
    | None => None
    | Some pool => Some (<[domainForProcedure procedure := pool]> pools)
    end
  end.

Definition end_call (procedure : string) (pools : gmap string Sem) : gmap string Sem :=
  match poolForProcedure pools procedure with
  | None => pools
  | Some pool => <[domainForProcedure procedure := Release pool]> pools
  end.

(** Calls interleave: the state holds the procedures that are running. *)
Inductive call_step : gmap string Sem * list string → gmap string Sem * list string → Prop :=
| call_begins p pools pools' running :
    begin_call p pools = Some pools' → call_step (pools, running) (pools', p :: running)
| call_refused p pools running :
    begin_call p pools = None → call_step (pools, running) (pools, running)
| call_ends p pools before after :
    call_step (pools, before ++ p :: after) (end_call p pools, before ++ after).

Definition running_in (domain : string) (running : list string) : list string :=
  filter (λ p, domainForProcedure p = domain) running.

Context `{!SemaphoreLaws Sem}.

(** The tokens in use of every pool are its running calls. *)
Definition pools_inv (st : gmap string Sem * list string) : Prop :=
  dom st.1 = {["query"; "ingestion"; "chat"]} ∧
  ∀ d pool, st.1 !! d = Some pool →
    size pool = configForDomain config d ∧
    in_use pool = Z.of_nat (length (running_in d st.2)) ∧
    in_use pool ≤ Z.max 0 (size pool).

Lemma pools_inv_init : pools_inv (NewBulkheadInterceptor, []).
Proof.
  unfold pools_inv, NewBulkheadInterceptor. cbn [fst snd]. split; [rewrite !dom_insert_L; set_solver|].
  intros d pool Hl. unfold running_in. rewrite filter_nil. simpl.
  repeat (apply lookup_insert_Some in Hl as [[<- <-]|[_ Hl]];
    [rewrite new_size, new_in_use; split_and!; [reflexivity|lia|lia]|]).
  by rewrite lookup_empty in Hl.
Qed.

Lemma running_in_cons d p l :
  length (running_in d (p :: l)) =
    (if decide (domainForProcedure p = d) then S (length (running_in d l)) else length (running_in d l)).
Proof. unfold running_in. rewrite filter_cons. by case_decide. Qed.

Lemma running_in_middle d p a b :
  length (running_in d (a ++ p :: b)) =
    (if decide (domainForProcedure p = d) then S (length (running_in d (a ++ b)))
     else length (running_in d (a ++ b))).
Proof.
  unfold running_in. rewrite !filter_app, filter_cons, !length_app. case_decide; simpl; lia.
Qed.

Lemma pools_inv_step st st' : call_step st st' → pools_inv st → pools_inv st'.
Proof.
  intros Hs [Hd Hp]. destruct Hs as [p pools pools' running Hb| |p pools before after]; [|done|].
  - unfold begin_call, poolForProcedure in Hb. simpl in *.
    destruct (pools !! domainForProcedure p) as [pool|] eqn:El.
    + destruct (TryAcquire pool) as [pool'|] eqn:Ea; [|done]. injection Hb as <-.
      apply acquire_some in Ea as (Hlt & Hu & Hsz). destruct (Hp _ _ El) as (Hs & Hr & Hm).
      split; simpl.
      { rewrite dom_insert_L, Hd. apply elem_of_dom_2 in El. rewrite Hd in El. set_solver. }
      intros d q [[<- <-]|[Hne Hl]]%lookup_insert_Some; rewrite running_in_cons.
      * rewrite decide_True by done. split_and!; [congruence|lia|lia].
      * rewrite decide_False by done. by apply Hp.
    + injection Hb as <-. split; [done|]. simpl. intros d q Hl. rewrite running_in_cons.
      rewrite decide_False by congruence. by apply Hp.
  - unfold end_call, poolForProcedure. simpl in *.
    destruct (pools !! domainForProcedure p) as [pool|] eqn:El.
    + destruct (Hp _ _ El) as (Hs & Hr & Hm). rewrite running_in_middle, decide_True in Hr by done.
      destruct (release_in_use pool) as [Hu Hsz]; [lia|]. split; simpl.
      { rewrite dom_insert_L, Hd. apply elem_of_dom_2 in El. rewrite Hd in El. set_solver. }
      intros d q [[<- <-]|[Hne Hl]]%lookup_insert_Some.
      * split_and!; [congruence|lia|lia].
      * destruct (Hp _ _ Hl) as (H1 & H2 & H3). rewrite running_in_middle, decide_False in H2 by done.
        done.
    + split; [done|]. simpl. intros d q Hl. destruct (Hp _ _ Hl) as (H1 & H2 & H3).
      rewrite running_in_middle, decide_False in H2 by congruence. done.
Qed.

(** C33: bulkheads isolate the domains: however calls begin and end, at most the
    configured number run in a domain; a call is refused only while its own
    domain is full, and a procedure outside the three domains never is. *)
Theorem bulkhead_isolation (pools : gmap string Sem) (running : list string) (p : string) :
  star call_step (NewBulkheadInterceptor, []) (pools, running) →
  let d := domainForProcedure p in
  (d ≠ "" → Z.of_nat (length (running_in d running)) ≤ Z.max 0 (configForDomain config d)) ∧
  (begin_call p pools = None ↔
     d ≠ "" ∧ configForDomain config d ≤ Z.of_nat (length (running_in d running))).
Proof.
  intros Hs d. destruct (star_invariant call_step pools_inv pools_inv_step _ _ Hs pools_inv_init)
    as [Hd Hp]. simpl in *.
  assert (d ≠ "" ↔ is_Some (pools !! d)) as Hdom.
  { rewrite <- elem_of_dom, Hd. unfold d, domainForProcedure. repeat case_match; set_solver. }
  unfold begin_call, poolForProcedure. fold d. split.
  - intros [pool Hl]%Hdom. destruct (Hp _ _ Hl) as (H1 & H2 & H3). lia.
  - destruct (pools !! d) as [pool|] eqn:Hl.
    + destruct (Hp _ _ Hl) as (H1 & H2 & H3). destruct (TryAcquire pool) as [q|] eqn:Ea.
      * apply acquire_some in Ea. split; [done|]. lia.
      * apply acquire_none in Ea. split; [|done]. intros _. split; [by apply Hdom|lia].
    + split; [done|]. intros [Hne _]. apply Hdom in Hne as [? ?]. done.
Qed.

End Interceptor.

(** A semaphore as a pair of its size and its tokens in use. *)
#[local] Instance counting_semaphore : Semaphore (Z * Z) := {|
  NewWeighted := λ n, (n, 0);
  TryAcquire := λ s, if decide (s.2 < s.1) then Some (s.1, s.2 + 1) else None;
  Release := λ s, (s.1, s.2 - 1) |}.
#[local] Program Instance counting_semaphore_laws : SemaphoreLaws (Z * Z) :=
  {| size := fst; in_use := snd |}.
Next Obligation. done. Qed.
Next Obligation. done. Qed.
Next Obligation. intros [n u] s'. simpl. case_decide; [|done]. by intros [= <-]. Qed.
Next Obligation. intros [n u]. simpl. case_decide; [done|]. intros _. lia. Qed.
Next Obligation. intros [n u]. done. Qed.

Definition one_each : BulkheadConfig := {| QueryPoolSize := 1; IngestionPoolSize := 1; ChatPoolSize := 1 |}.

Lemma bulkhead_isolation_witness :
  begin_call "/aleph.v1.QueryService/ExecuteQuery"
    (<["query" := (1, 1)]> (NewBulkheadInterceptor (Sem := Z * Z) one_each)) = None.
Proof.
  apply (bulkhead_isolation (Sem := Z * Z) one_each
    (<["query" := (1, 1)]> (NewBulkheadInterceptor (Sem := Z * Z) one_each))
    ["/aleph.v1.ProjectService/ListProjects"] "/aleph.v1.QueryService/ExecuteQuery").
  - eapply star_step; [|apply star_refl]. apply call_begins. vm_compute. reflexivity.
  - split; vm_compute; discriminate.
Defined.

End Bulkhead.
