(* ===== verification/Caches.v ===== *)
(** * Caches (internal/suggestion/cache.go, internal/repository/cache.go,
    internal/api/handler/program_cache.go)

    Module [EmbedCache]: a bounded map with an eviction queue.  Module
    [Oldest]: the scan for the oldest entry the other two caches share.  Modules
    [ToolCache] and [ProgramCache]: bounded maps whose entries expire.  The order
    in which Go ranges over a map is a parameter. *)

From S2P Require Import Prelude GoStrings GoValues.

(** The last [n] elements of a list. *)
Definition lastn {A} (n : nat) (l : list A) : list A := drop (length l - n) l.

Lemma lastn_length {A} n (l : list A) : length (lastn n l) = Nat.min n (length l).
Proof. unfold lastn. rewrite length_drop. lia. Qed.

Lemma lastn_all {A} n (l : list A) : (length l ≤ n)%nat → lastn n l = l.
Proof. intros H. unfold lastn. by replace (length l - n)%nat with 0%nat by lia. Qed.

Lemma lastn_app_exact {A} n (a b : list A) : length b = n → lastn n (a ++ b) = b.
Proof.
  intros <-. unfold lastn. rewrite length_app.
  replace (length a + length b - length b)%nat with (length a) by lia. by rewrite drop_app_length.
Qed.

Lemma lastn_split {A} n (l : list A) : ∃ a, l = a ++ lastn n l.
Proof. exists (take (length l - n) l). unfold lastn. by rewrite take_drop. Qed.

Lemma lastn_snoc {A} n (l : list A) x : lastn (S n) (l ++ [x]) = lastn n l ++ [x].
Proof.
  unfold lastn. rewrite length_app. simpl.
  replace (length l + 1 - S n)%nat with (length l - n)%nat by lia.
  rewrite drop_app. replace (length l - n - length l)%nat with 0%nat by lia. done.
Qed.

Lemma lastn_NoDup {A} n (l : list A) : NoDup l → NoDup (lastn n l).
Proof. intros H. eapply sublist_NoDup; [exact H|]. apply sublist_drop. Qed.

Module EmbedCache.

Section Cache.
Context {V : Type}.

Record embedCache := { entries : gmap string V; order : list string; maxSize : Z }.

Definition newEmbedCache (size : Z) : embedCache :=
  {| entries := ∅; order := []; maxSize := if bool_decide (size ≤ 0) then 100 else size |}.

Definition get (key : string) (c : embedCache) : option V := entries c !! key.

(** The first occurrence of [key] is cut out of the queue. *)
Fixpoint cut_first (key : string) (l : list string) : list string :=
  match l with
  | [] => []
  | k :: l => if bool_decide (k = key) then l else k :: cut_first key l
  end.

(** The eviction loop: it ends when the queue is empty, which bounds it. *)
Fixpoint evict (max : Z) (queue : list string) (m : gmap string V) : list string * gmap string V :=
  if bool_decide (max ≤ Z.of_nat (size m)) then
    match queue with
    | [] => (queue, m)
    | oldest :: queue => evict max queue (delete oldest m)
    end
  else (queue, m).

Definition put (key : string) (emb : V) (c : embedCache) : embedCache :=
  match entries c !! key with
  | Some _ =>
    {| entries := <[key := emb]> (entries c);
       order := cut_first key (order c) ++ [key]; maxSize := maxSize c |}
  | None =>
    let '(queue, m) := evict (maxSize c) (order c) (entries c) in
    {| entries := <[key := emb]> m; order := queue ++ [key]; maxSize := maxSize c |}
  end.

Definition cache_size (c : embedCache) : Z := Z.of_nat (size (entries c)).

(** ** Specification: the most recent puts *)

(** The distinct keys of a history of puts, by their last put. *)
Definition recency (puts : list (string * V)) : list string :=
  foldl (λ r kv, filter (λ k, k ≠ kv.1) r ++ [kv.1]) [] puts.
(** The value last put under each key. *)
Definition latest (puts : list (string * V)) : gmap string V :=
  foldl (λ m kv, <[kv.1 := kv.2]> m) ∅ puts.

Definition puts_from (c : embedCache) (puts : list (string * V)) : embedCache :=
  foldl (λ c kv, put kv.1 kv.2 c) c puts.

(** What the cache holds after a history, in terms of the history. *)
Definition holds (n : nat) (puts : list (string * V)) (c : embedCache) : Prop :=
  maxSize c = Z.of_nat n ∧
  order c = lastn n (recency puts) ∧
  (∀ k, entries c !! k = if decide (k ∈ lastn n (recency puts)) then latest puts !! k else None).

Lemma recency_snoc puts k v :
  recency (puts ++ [(k, v)]) = filter (λ k', k' ≠ k) (recency puts) ++ [k].
Proof. unfold recency. by rewrite foldl_snoc. Qed.
Lemma latest_snoc puts k v : latest (puts ++ [(k, v)]) = <[k := v]> (latest puts).
Proof. unfold latest. by rewrite foldl_snoc. Qed.

Lemma recency_NoDup puts : NoDup (recency puts).
Proof.
  induction puts as [|[k v] puts IH] using rev_ind; [constructor|]. rewrite recency_snoc.
  apply NoDup_app. split_and!; [by apply NoDup_filter| |apply NoDup_singleton].
  intros x [Hx _]%list_elem_of_filter ->%list_elem_of_singleton. done.
Qed.

Lemma recency_latest puts k : k ∈ recency puts ↔ is_Some (latest puts !! k).
Proof.
  induction puts as [|[k' v] puts IH] using rev_ind.
  - unfold recency, latest. simpl. rewrite lookup_empty, elem_of_nil. split; [done|by intros []].
  - rewrite recency_snoc, latest_snoc, elem_of_app, list_elem_of_filter, list_elem_of_singleton, IH.
    destruct (decide (k = k')) as [->|Hne].
    + rewrite lookup_insert_eq. split; [eauto|by right].
    + rewrite lookup_insert_ne by done. split; [intros [[_ ?]|?]; done|]. intros Hs. by left.
Qed.

Lemma cut_first_filter key l : NoDup l → cut_first key l = filter (λ k, k ≠ key) l.
Proof.
  induction 1 as [|k l Hk Hl IH]; [done|]. simpl. rewrite filter_cons.
  case_bool_decide as E; subst.
  - rewrite decide_False by (intros []; done). symmetry. apply filter_all_keep.
    apply Forall_forall. intros x Hx ->. done.
  - rewrite decide_True by done. by rewrite IH.
Qed.

Lemma holds_dom n puts c : holds n puts c → dom (entries c) = list_to_set (order c).
Proof.
  intros (_ & Ho & He). apply set_eq. intros k. rewrite elem_of_dom, He, elem_of_list_to_set, Ho.
  destruct (decide (k ∈ lastn n (recency puts))) as [Hk|Hk].
  - split; [done|]. intros _. apply recency_latest.
    destruct (lastn_split n (recency puts)) as [a ->]. rewrite elem_of_app. auto.
  - split; [by intros []|done].
Qed.

Lemma holds_size n puts c : holds n puts c → size (entries c) = length (order c).
Proof.
  intros Hh. rewrite <- size_dom, (holds_dom _ _ _ Hh), size_list_to_set; [done|].
  destruct Hh as (_ & -> & _). apply lastn_NoDup, recency_NoDup.
Qed.

(** One eviction makes room when the queue holds at most [max] keys. *)
Lemma evict_one (n : nat) queue (m : gmap string V) :
  (0 < n)%nat → size m = length queue → (length queue ≤ n)%nat → NoDup queue →
  dom m = list_to_set queue →
  evict (Z.of_nat n) queue m =
    if decide (length queue = n) then (tail queue, delete (hd "" queue) m) else (queue, m).
Proof.
  intros Hn Hsz Hle Hnd Hdom. destruct queue as [|k queue]; simpl in *.
  - rewrite bool_decide_eq_false_2 by lia. by rewrite decide_False by lia.
  - case_decide as Hl.
    + rewrite bool_decide_eq_true_2 by lia.
      assert (size (delete k m) < n)%nat as Hlt.
      { apply NoDup_cons in Hnd as [Hk Hnd].
        assert (dom (delete k m) = list_to_set queue) as E
          by (rewrite dom_delete_L, Hdom; set_solver).
        rewrite <- size_dom, E, size_list_to_set by done. lia. }
      destruct queue; simpl; by rewrite bool_decide_eq_false_2 by lia.
    + by rewrite bool_decide_eq_false_2 by lia.
Qed.

Lemma filter_ne_notin k (l : list string) : k ∉ l → filter (λ k', k' ≠ k) l = l.
Proof. intros Hk. apply filter_all_keep, Forall_forall. intros x Hx ->. done. Qed.

Lemma filter_ne_length k (l : list string) :
  NoDup l → k ∈ l → length (filter (λ k', k' ≠ k) l) = (length l - 1)%nat.
Proof.
  induction 1 as [|x l Hx Hl IH]; [by intros ?%elem_of_nil|]. rewrite filter_cons, elem_of_cons.
  destruct (decide (k = x)) as [->|Hne].
  - intros _. rewrite decide_False by (intros []; done). rewrite filter_ne_notin by done. simpl. lia.
  - intros [?|Hk]; [done|]. rewrite decide_True by done. simpl. rewrite IH by done.
    destruct l; [by apply elem_of_nil in Hk|simpl; lia].
Qed.

(** The queue after a put, in terms of the recency list. *)
Lemma lastn_put n (r : list string) k :
  (0 < n)%nat → NoDup r →
  lastn n (filter (λ k', k' ≠ k) r ++ [k]) =
    (if decide (k ∈ lastn n r) then filter (λ k', k' ≠ k) (lastn n r)
     else if decide (length (lastn n r) = n) then tail (lastn n r) else lastn n r) ++ [k].
Proof.
  intros Hn Hnd. destruct n as [|n]; [lia|]. rewrite lastn_snoc. f_equal.
  destruct (lastn_split (S n) r) as [front Hr]. set (l := lastn (S n) r) in *.
  pose proof (lastn_length (S n) r) as Hlen. fold l in Hlen.
  assert (length front = 0%nat ∨ length l = S n) as Hf.
  { apply (f_equal length) in Hr. rewrite length_app in Hr. lia. }
  rewrite Hr in Hnd. apply NoDup_app in Hnd as (_ & Hdis & Hnl).
  rewrite Hr, filter_app.
  destruct (decide (k ∈ l)) as [Hk|Hk].
  - pose proof (filter_ne_length k l Hnl Hk) as Hfl. destruct Hf as [Hf|Hf].
    + apply nil_length_inv in Hf as ->. simpl. apply lastn_all. lia.
    + apply lastn_app_exact. lia.
  - rewrite (filter_ne_notin k l) by done. case_decide as Hl.
    + destruct l as [|x l]; [done|]. simpl in *.
      change (x :: l) with ([x] ++ l). rewrite (assoc_L (++)). apply lastn_app_exact. lia.
    + destruct Hf as [Hf|Hf]; [|done]. apply nil_length_inv in Hf as ->. simpl.
      apply lastn_all. lia.
Qed.

Lemma put_holds n puts c k v :
  (0 < n)%nat → holds n puts c → holds n (puts ++ [(k, v)]) (put k v c).
Proof.
  intros Hn Hh. pose proof (holds_dom n puts c Hh) as Hd. pose proof (holds_size n puts c Hh) as Hs.
  destruct Hh as (Hm & Ho & He). pose proof (lastn_NoDup n _ (recency_NoDup puts)) as Hnd.
  pose proof (lastn_put n (recency puts) k Hn (recency_NoDup puts)) as Hl.
  unfold holds. rewrite recency_snoc, latest_snoc. unfold put.
  destruct (entries c !! k) as [w|] eqn:Ek.
  - assert (k ∈ lastn n (recency puts)) as Hk by (rewrite He in Ek; case_decide; done).
    rewrite Hl, decide_True by done. cbn [maxSize order entries]. split_and!; [done| |].
    + rewrite Ho, cut_first_filter by done. done.
    + intros k'. destruct (decide (k = k')) as [<-|Hne].
      * rewrite !lookup_insert_eq, decide_True; [done|]. set_solver.
      * rewrite !lookup_insert_ne by done. rewrite He.
        apply decide_ext. rewrite elem_of_app, list_elem_of_filter, list_elem_of_singleton.
        split; [intros Hk'; left; split; [done|done]|intros [[_ ?]|?]; [done|congruence]].
  - assert (k ∉ lastn n (recency puts)) as Hk.
    { rewrite He in Ek. case_decide as Hin; [|done]. intros _.
      assert (k ∈ recency puts) as [x Hx]%recency_latest; [|congruence].
      destruct (lastn_split n (recency puts)) as [a ->]. rewrite elem_of_app. auto. }
    rewrite Hl, decide_False by done. rewrite Hm, Ho in *.
    rewrite evict_one; [|done|done|rewrite lastn_length; lia|done|done].
    destruct (decide (length (lastn n (recency puts)) = n)) as [Hfull|Hfree];
      cbn [maxSize order entries]; split_and!; try done; intros k'.
    + destruct (decide (k = k')) as [<-|Hne].
      * rewrite !lookup_insert_eq, decide_True; [done|]. set_solver.
      * rewrite !lookup_insert_ne by done.
        destruct (lastn n (recency puts)) as [|x l] eqn:El; [simpl in Hfull; lia|]. simpl.
        apply NoDup_cons in Hnd as [Hx Hnd].
        destruct (decide (x = k')) as [<-|Hxk].
        -- rewrite lookup_delete_eq, decide_False; [done|]. set_solver.
        -- rewrite lookup_delete_ne by done. rewrite He. apply decide_ext. set_solver.
    + destruct (decide (k = k')) as [<-|Hne].
      * rewrite !lookup_insert_eq, decide_True; [done|]. set_solver.
      * rewrite !lookup_insert_ne by done. rewrite He. apply decide_ext. set_solver.
Qed.

Lemma puts_hold n puts :
  (0 < n)%nat → holds n puts (puts_from (newEmbedCache (Z.of_nat n)) puts).
Proof.
  intros Hn. induction puts as [|[k v] puts IH] using rev_ind.
  - unfold holds, newEmbedCache. cbn. rewrite bool_decide_eq_false_2 by lia.
    split_and!; [done|done|]. intros k. rewrite lookup_empty. by case_decide.
  - unfold puts_from. rewrite foldl_snoc. by apply put_holds.
Qed.

(** C18: after any history of puts the embedding cache holds exactly the keys of
    the last [maxSize] distinct puts, each with the value put last, and never
    more than [maxSize] of them. *)
Theorem embedCache_spec (n : nat) (puts : list (string * V)) (k : string) (v : V) :
  (0 < n)%nat →
  let c := puts_from (newEmbedCache (Z.of_nat n)) puts in
  (get k c = Some v ↔ k ∈ lastn n (recency puts) ∧ latest puts !! k = Some v) ∧
  cache_size c ≤ Z.of_nat n.
Proof.
  intros Hn c. pose proof (puts_hold n puts Hn) as Hh. fold c in Hh. split.
  - unfold get. destruct Hh as (_ & _ & ->). case_decide; naive_solver.
  - unfold cache_size. rewrite (holds_size _ _ _ Hh). destruct Hh as (_ & -> & _).
    rewrite lastn_length. lia.
Qed.

(** Eviction follows the last put, not the last use: a key read any number of
    times since is still the next to go, although the cache is described as an
    LRU cache. *)
Theorem get_does_not_protect (a b c : string) (va vb vc : V) :
  a ≠ b → a ≠ c → b ≠ c →
  let full := put b vb (put a va (newEmbedCache 2)) in
  get a full = Some va ∧ get a (put c vc full) = None ∧ get b (put c vc full) = Some vb.
Proof.
  intros Hab Hac Hbc full.
  pose proof (puts_hold 2 [(a, va); (b, vb)] ltac:(lia)) as (_ & _ & H2).
  pose proof (puts_hold 2 [(a, va); (b, vb); (c, vc)] ltac:(lia)) as (_ & _ & H3).
  assert (recency [(a, va); (b, vb)] = [a; b]) as R2.
  { unfold recency. cbn [foldl fst]. rewrite filter_nil. cbn [app].
    by rewrite (filter_ne_notin b) by set_solver. }
  assert (recency [(a, va); (b, vb); (c, vc)] = [a; b; c]) as R3.
  { change ([(a, va); (b, vb); (c, vc)]) with ([(a, va); (b, vb)] ++ [(c, vc)]).
    by rewrite recency_snoc, R2, (filter_ne_notin c) by set_solver. }
  rewrite R2 in H2. rewrite R3 in H3. unfold lastn, latest in H2, H3. cbn in H2, H3.
  unfold get, full. split_and!.
  - rewrite H2, decide_True by set_solver. by simplify_map_eq.
  - by rewrite H3, decide_False by set_solver.
  - rewrite H3, decide_True by set_solver. by simplify_map_eq.
Qed.

End Cache.

Lemma embedCache_spec_witness :
  get "a" (puts_from (newEmbedCache (Z.of_nat 2)) [("a", 1); ("b", 2); ("a", 3); ("c", 4)]) = Some 3.
Proof.
  apply (embedCache_spec 2 [("a", 1); ("b", 2); ("a", 3); ("c", 4)] "a" 3); [lia|].
  split; [|vm_compute; reflexivity]. vm_compute. constructor.
Defined.

Lemma get_does_not_protect_witness :
  get "a" (put "c" 3 (put "b" 2 (put "a" 1 (newEmbedCache 2)))) = None.
Proof. apply (get_does_not_protect "a" "b" "c" 1 2 3); discriminate. Defined.

End EmbedCache.

(** The scans for the entry with the least time.  [scan_first] starts from a
    flag, [scan_empty] takes the empty key for "none yet". *)
Module Oldest.

Definition scan_first (l : list (string * Time)) : string :=
  (foldl (λ acc kt, let '(first, key, time) := acc in
            if first || time_before kt.2 time then (false, kt.1, kt.2) else acc)
     (true, "", 0) l).1.2.

Definition scan_empty (l : list (string * Time)) : string :=
  (foldl (λ acc kt, let '(key, time) := acc in
            if bool_decide (key = "") || time_before kt.2 time then (kt.1, kt.2) else acc)
     ("", 0) l).1.

Definition oldest_of (l : list (string * Time)) (k : string) : Prop :=
  ∃ t, (k, t) ∈ l ∧ ∀ k' t', (k', t') ∈ l → t ≤ t'.

Lemma scan_first_spec l : l ≠ [] → oldest_of l (scan_first l).
Proof.
  unfold scan_first. set (step := λ acc kt, _).
  enough (∀ l, match foldl step (true, "", 0) l with
    | (first, key, time) => (first = true ↔ l = []) ∧
        (l ≠ [] → (key, time) ∈ l ∧ ∀ k' t', (k', t') ∈ l → time ≤ t')
    end) as Hinv.
  { intros Hl. specialize (Hinv l). destruct (foldl step _ l) as [[first key] time].
    destruct Hinv as [_ Hinv]. exists time. by apply Hinv. }
  clear l. intros l. induction l as [|[k t] l IH] using rev_ind; [done|].
  rewrite foldl_snoc. destruct (foldl step _ l) as [[first key] time]. destruct IH as [Hf IH].
  unfold step. simpl. unfold time_before.
  destruct first; simpl.
  - assert (l = []) as -> by tauto. split; [done|]. intros _. split; [set_solver|].
    intros k' t' [= -> ->]%list_elem_of_singleton. lia.
  - assert (l ≠ []) as Hl by (intros ->; naive_solver). destruct (IH Hl) as [Hin Hmin].
    case_bool_decide as Ht; (split; [split; [done|by destruct l]|]); intros _.
    + split; [set_solver|]. intros k' t' [Hk|[= -> ->]%list_elem_of_singleton]%elem_of_app; [|lia].
      specialize (Hmin _ _ Hk). lia.
    + split; [set_solver|]. intros k' t' [Hk|[= -> ->]%list_elem_of_singleton]%elem_of_app; [eauto|lia].
Qed.

(** On non-empty keys the two scans agree. *)
Lemma scan_agree l : Forall (λ kt, kt.1 ≠ "") l → scan_empty l = scan_first l.
Proof.
  unfold scan_empty, scan_first. set (s1 := λ acc kt, _). set (s2 := λ acc kt, _).
  intros Hl.
  enough (foldl s1 ("", 0) l = ((foldl s2 (true, "", 0) l).1.2, (foldl s2 (true, "", 0) l).2) ∧
          ((foldl s2 (true, "", 0) l).1.1 = true ↔ (foldl s2 (true, "", 0) l).1.2 = "")) as [-> _]; [done|].
  induction l as [|[k t] l IH] using rev_ind; [done|].
  apply Forall_app in Hl as [Hl Hk]. apply Forall_cons in Hk as [Hk _]. simpl in Hk.
  rewrite !foldl_snoc. destruct (IH Hl) as [-> Hiff].
  destruct (foldl s2 _ l) as [[first key] time]. unfold s1, s2. simpl in *.
  assert (first = bool_decide (key = "")) as ->.
  { symmetry. apply eq_bool_prop_intro. rewrite bool_decide_spec, Is_true_true. tauto. }
  destruct (bool_decide (key = "") || time_before t time); simpl; [|by split].
  split; [done|]. split; [done|]. intros ->. done.
Qed.

End Oldest.

Module ToolCache.
Import Oldest.

Section Cache.
Context {V : Type}.

Record cacheEntry := { value : V; expiresAt : Time; accessed : Time }.
Record cache := { entries : gmap string cacheEntry; ttl : Duration; maxSize : Z }.

(** The order in which [sync.Map] is ranged over. *)
Context (range : gmap string cacheEntry → list (string * cacheEntry)).

Definition NewToolCache : cache := {| entries := ∅; ttl := 5 * minute; maxSize := 500 |}.

Definition with_entries (m : gmap string cacheEntry) (c : cache) : cache :=
  {| entries := m; ttl := ttl c; maxSize := maxSize c |}.

Definition Get (now : Time) (key : string) (c : cache) : cache * option V :=
  match entries c !! key with
  | None => (c, None)
  | Some e =>
    if time_after now (expiresAt e) then (with_entries (delete key (entries c)) c, None)
    else
      let e' := {| value := value e; expiresAt := expiresAt e; accessed := now |} in
      (with_entries (<[key := e']> (entries c)) c, Some (value e))
  end.

Definition len (c : cache) : Z := Z.of_nat (size (entries c)).

Definition evictLRU (c : cache) : cache :=
  let oldestKey := scan_first ((λ ke, (ke.1, accessed ke.2)) <$> range (entries c)) in
  if bool_decide (oldestKey = "") then c else with_entries (delete oldestKey (entries c)) c.

Definition Set_ (now : Time) (key : string) (v : V) (c : cache) : cache :=
  let c := if bool_decide (maxSize c ≤ len c) then evictLRU c else c in
  with_entries (<[key := {| value := v; expiresAt := now + ttl c; accessed := now |}]> (entries c)) c.

Definition Invalidate (key : string) (c : cache) : cache := with_entries (delete key (entries c)) c.

Definition SetMaxSize (size : Z) (c : cache) : cache :=
  let c := if bool_decide (size > 0)
           then {| entries := entries c; ttl := ttl c; maxSize := size |} else c in
  if bool_decide (len c > maxSize c) then evictLRU c else c.

(** One tick of the expiry loop. *)
Definition cleanupExpired (now : Time) (c : cache) : cache :=
  with_entries (filter (λ ke, ¬ (expiresAt ke.2 < now)) (entries c)) c.

Inductive cache_step : cache → cache → Prop :=
| step_get now key c : cache_step c (Get now key c).1
| step_set now key v c : key ≠ "" → cache_step c (Set_ now key v c)
| step_invalidate key c : cache_step c (Invalidate key c)
| step_cleanup now c : cache_step c (cleanupExpired now c).

(** ** Lemmas *)

Definition keys_ok (c : cache) : Prop := entries c !! "" = None.

Context (range_perm : ∀ m, range m ≡ₚ map_to_list m).

Lemma evict_spec c :
  keys_ok c → (0 < size (entries c))%nat →
  ∃ k e, entries c !! k = Some e ∧ evictLRU c = with_entries (delete k (entries c)) c ∧
    ∀ k' e', entries c !! k' = Some e' → accessed e ≤ accessed e'.
Proof.
  intros Hk Hs. unfold evictLRU. set (l := _ <$> range (entries c)).
  assert (∀ k t, (k, t) ∈ l ↔ ∃ e, entries c !! k = Some e ∧ t = accessed e) as Hl.
  { intros k t. unfold l. rewrite list_elem_of_fmap. setoid_rewrite range_perm. split.
    - intros ([k' e] & [= -> ->] & He%elem_of_map_to_list). eauto.
    - intros (e & He & ->). exists (k, e). split; [done|]. by apply elem_of_map_to_list. }
  assert (l ≠ []) as Hne.
  { intros E.
    assert (entries c ≠ ∅) as (k & e & He)%map_choose.
    { intros Em. rewrite Em, map_size_empty in Hs. lia. }
    assert ((k, accessed e) ∈ l) as Hin by (apply Hl; eauto). rewrite E in Hin. set_solver. }
  destruct (scan_first_spec l Hne) as (t & Hin & Hmin). apply Hl in Hin as (e & He & ->).
  exists (scan_first l), e. split_and!; [done| |].
  - rewrite bool_decide_eq_false_2; [done|]. intros E. unfold keys_ok in Hk. congruence.
  - intros k' e' He'. apply (Hmin k'). apply Hl. eauto.
Qed.

Lemma evict_size c : keys_ok c → (0 < size (entries c))%nat →
  size (entries (evictLRU c)) = (size (entries c) - 1)%nat ∧ keys_ok (evictLRU c) ∧
  maxSize (evictLRU c) = maxSize c ∧ ttl (evictLRU c) = ttl c.
Proof.
  intros Hk Hs. destruct (evict_spec c Hk Hs) as (k & e & He & -> & _). simpl.
  rewrite map_size_delete, He. split_and!; [simpl; lia| |done|done].
  unfold keys_ok. simpl. apply lookup_delete_None. auto.
Qed.

Lemma size_insert_le k e (m : gmap string cacheEntry) : (size (<[k := e]> m) ≤ S (size m))%nat.
Proof. rewrite map_size_insert. by destruct (m !! k); simpl; unfold id; lia. Qed.

Lemma set_size now key v c :
  keys_ok c → key ≠ "" → 0 < maxSize c → len c ≤ maxSize c →
  keys_ok (Set_ now key v c) ∧ len (Set_ now key v c) ≤ maxSize c ∧
  maxSize (Set_ now key v c) = maxSize c.
Proof.
  intros Hk Hne Hpos Hle. unfold Set_. case_bool_decide as Hfull.
  - assert (0 < size (entries c))%nat as Hs by (unfold len in *; lia).
    destruct (evict_size c Hk Hs) as (Hsz & Hk' & Hm & _). unfold len in *. simpl.
    split_and!; [|etrans; [apply inj_le, size_insert_le|]; lia|done].
    unfold keys_ok in *. simpl. by rewrite lookup_insert_ne.
  - unfold len in *. simpl. split_and!; [|etrans; [apply inj_le, size_insert_le|]; lia|done].
    unfold keys_ok in *. simpl. by rewrite lookup_insert_ne.
Qed.

Definition cache_inv (max : Z) (c : cache) : Prop := keys_ok c ∧ len c ≤ max ∧ maxSize c = max.

Lemma map_size_filter_le {K A} `{Countable K} (P : K * A → Prop) `{∀ x, Decision (P x)} (m : gmap K A) :
  (size (filter P m) ≤ size m)%nat.
Proof. apply map_subseteq_size, map_filter_subseteq. Qed.

Lemma cache_inv_step max c c' : 0 < max → cache_step c c' → cache_inv max c → cache_inv max c'.
Proof.
  intros Hpos Hstep (Hk & Hle & Hm). destruct Hstep as [now key c|now key v c Hne|key c|now c].
  - unfold Get. destruct (entries c !! key) as [e|] eqn:E; [|done].
    destruct (time_after now (expiresAt e)); unfold cache_inv, keys_ok, len in *; simpl.
    + split_and!; [apply lookup_delete_None; auto|rewrite map_size_delete, E; simpl; lia|done].
    + rewrite map_size_insert, E. split_and!; [|simpl; lia|done].
      rewrite lookup_insert_ne; [done|]. intros ->. congruence.
  - destruct (set_size now key v c) as (H1 & H2 & H3); [done..|lia|lia|]. split_and!; [done|lia|lia].
  - unfold cache_inv, keys_ok, len in *. simpl.
    split_and!; [apply lookup_delete_None; auto| |done].
    rewrite map_size_delete. destruct (entries c !! key); simpl; unfold id; lia.
  - unfold cache_inv, keys_ok, len in *. simpl. split_and!; [| |done].
    + apply map_lookup_filter_None_2. auto.
    + pose proof (map_size_filter_le (λ ke : string * cacheEntry, ¬ (expiresAt ke.2 < now)) (entries c)). lia.
Qed.

(** The tool cache is bounded and evicts the least recently used entry: in
    every state reachable by reads, writes under non-empty keys, invalidations
    and expiry, it holds at most 500 entries, and a write to a full cache removes
    an entry whose last access is the earliest. *)
Theorem toolCache_lru (c : cache) (now : Time) (key : string) (v : V) :
  star cache_step NewToolCache c → key ≠ "" →
  len c ≤ 500 ∧
  (len c = 500 → entries c !! key = None →
   ∃ k e, entries c !! k = Some e ∧
     entries (Set_ now key v c) !! k = None ∧
     (∀ k' e', entries c !! k' = Some e' → accessed e ≤ accessed e') ∧
     (∀ k', k' ≠ k → k' ≠ key → entries (Set_ now key v c) !! k' = entries c !! k')).
Proof.
  intros Hs Hkey.
  assert (cache_inv 500 c) as (Hk & Hle & Hm).
  { refine (star_invariant cache_step (cache_inv 500) _ _ _ Hs _).
    - intros a b Hab Ha. by apply (cache_inv_step 500 a b).
    - unfold cache_inv, keys_ok, len. simpl. rewrite map_size_empty. split_and!; [done|lia|done]. }
  split; [done|]. intros Hfull Hnone.
  destruct (evict_spec c Hk) as (k & e & He & Hev & Hmin); [unfold len in Hfull; lia|].
  assert (k ≠ key) as Hkk by congruence.
  exists k, e. unfold Set_. rewrite bool_decide_eq_true_2 by lia. rewrite Hev. simpl.
  split_and!; [done| |done|].
  - by rewrite lookup_insert_ne, lookup_delete_eq.
  - intros k' Hk' Hk''. by rewrite lookup_insert_ne, lookup_delete_ne.
Qed.

(** A value read back is the value written until its time to live has passed,
    however often it is read in between, and is gone afterwards. *)
Theorem toolCache_get_set (c : cache) (now : Time) (key : string) (v : V) (reads : list Time) (t : Time) :
  Forall (λ u, u ≤ now + ttl c) reads →
  let c1 := foldl (λ c u, (Get u key c).1) (Set_ now key v c) reads in
  (Get t key c1).2 = if bool_decide (t ≤ now + ttl c) then Some v else None.
Proof.
  intros Hr c1.
  assert (∃ e, entries c1 !! key = Some e ∧ value e = v ∧ expiresAt e = now + ttl c) as (e & He & Hv & Hx).
  { unfold c1. clear c1. induction reads as [|u reads IH] using rev_ind.
    - simpl. unfold Set_. eexists. simpl. rewrite lookup_insert_eq. split; [done|]. simpl.
      split; [done|]. f_equal. case_bool_decide; [|done]. unfold evictLRU. by case_bool_decide.
    - apply Forall_app in Hr as [Hr Hu]. apply Forall_cons in Hu as [Hu _].
      rewrite foldl_snoc. destruct (IH Hr) as (e & He & Hv & Hx). unfold Get at 1. rewrite He.
      unfold time_after. rewrite bool_decide_eq_false_2 by lia. simpl.
      eexists. rewrite lookup_insert_eq. split; [done|]. done. }
  unfold Get. rewrite He. unfold time_after. rewrite Hx.
  case_bool_decide; case_bool_decide; try lia; simpl; by rewrite ?Hv.
Qed.

(** Lowering the limit of the tool cache removes one entry, whatever the
    excess, and a later write to the full cache adds as many entries as it
    removes: the cache stays above the limit it was given. *)
Theorem SetMaxSize_keeps_excess (c : cache) (size' : Z) (now : Time) (key : string) (v : V) :
  keys_ok c → key ≠ "" → 0 < size' → size' + 1 < len c → entries c !! key = None →
  let c1 := SetMaxSize size' c in
  entries c1 !! key = None →
  maxSize c1 = size' ∧ len c1 = len c - 1 ∧ size' < len (Set_ now key v c1) ∧
  len (Set_ now key v c1) = len c1.
Proof.
  intros Hk Hkey Hpos Hlen Hnone c1. unfold c1. clear c1. unfold SetMaxSize.
  rewrite (bool_decide_eq_true_2 (size' > 0)) by lia. cbn [maxSize].
  set (c0 := {| entries := entries c; ttl := ttl c; maxSize := size' |}).
  assert (len c0 = len c) as El by done. rewrite El, bool_decide_eq_true_2 by lia.
  assert (0 < size (entries c0))%nat as Hs by (unfold len in *; simpl in *; lia).
  destruct (evict_size c0 Hk Hs) as (Hsz & Hk1 & Hm & _). intros Hn1.
  set (c1 := evictLRU c0) in *. change (maxSize c0) with size' in Hm.
  assert (len c1 = len c - 1) as E1 by (unfold len in *; simpl in *; lia).
  assert (0 < size (entries c1))%nat as Hs1 by (unfold len in *; lia).
  destruct (evict_size c1 Hk1 Hs1) as (Hsz2 & Hk2 & Hm2 & _).
  assert (len (Set_ now key v c1) = len c1) as E2.
  { unfold Set_. rewrite bool_decide_eq_true_2 by lia. unfold len. simpl.
    destruct (evict_spec c1 Hk1 Hs1) as (k & e & He & Hev & _). rewrite Hev in *. simpl in *.
    rewrite map_size_insert, (proj2 (lookup_delete_None _ _ _)) by auto. lia. }
  split_and!; [done|done|lia|done].
Qed.

End Cache.

Definition three : cache (V := Z) :=
  Set_ map_to_list 3 "c" 3 (Set_ map_to_list 2 "b" 2 (Set_ map_to_list 1 "a" 1 NewToolCache)).

Lemma toolCache_lru_witness : len three ≤ 500.
Proof.
  apply (toolCache_lru map_to_list ltac:(done) three 4 "d" 4); [|done].
  unfold three. eapply star_step; [by apply (step_set map_to_list 1 "a" 1)|].
  eapply star_step; [by apply (step_set map_to_list 2 "b" 2)|].
  eapply star_step; [by apply (step_set map_to_list 3 "c" 3)|]. apply star_refl.
Defined.

Lemma toolCache_get_set_witness :
  (Get (minute + 5) "k" (foldl (λ c u, (Get u "k" c).1) (Set_ map_to_list 5 "k" 7 three) [10; 20])).2 = Some 7.
Proof.
  rewrite (toolCache_get_set map_to_list three 5 "k" 7 [10; 20] (minute + 5)); [vm_compute; reflexivity|].
  repeat constructor; vm_compute; discriminate.
Defined.

Lemma SetMaxSize_keeps_excess_witness :
  1 < len (Set_ map_to_list 9 "d" 4 (SetMaxSize map_to_list 1 three)).
Proof.
  apply (SetMaxSize_keeps_excess map_to_list ltac:(done) three 1 9 "d" 4);
    try (vm_compute; reflexivity || discriminate).
Defined.

End ToolCache.

Module ProgramCache.
Import Oldest.

Section Cache.
Context {P : Type}.

Record progEntry := { program : P; createdAt : Time }.
Record programCache := { progs : gmap string progEntry; maxEntries : Z; prog_ttl : Duration }.

Context (range : gmap string progEntry → list (string * progEntry)).

Definition newProgramCache : programCache :=
  {| progs := ∅; maxEntries := 64; prog_ttl := 30 * minute |}.

Definition prog_get (now : Time) (key : string) (c : programCache) : programCache * option P :=
  match progs c !! key with
  | None => (c, None)
  | Some e =>
    if bool_decide (time_sub now (createdAt e) > prog_ttl c) then
      ({| progs := delete key (progs c); maxEntries := maxEntries c; prog_ttl := prog_ttl c |}, None)
    else (c, Some (program e))
  end.

Definition prog_set (now : Time) (key : string) (p : P) (c : programCache) : programCache :=
  let m :=
    if bool_decide (maxEntries c ≤ Z.of_nat (size (progs c))) then
      let oldestKey := scan_empty ((λ ke, (ke.1, createdAt ke.2)) <$> range (progs c)) in
      if bool_decide (oldestKey = "") then progs c else delete oldestKey (progs c)
    else progs c in
  {| progs := <[key := {| program := p; createdAt := now |}]> m; maxEntries := maxEntries c;
     prog_ttl := prog_ttl c |}.

Inductive prog_step : programCache → programCache → Prop :=
| step_prog_get now key c : prog_step c (prog_get now key c).1
| step_prog_set now key p c : key ≠ "" → prog_step c (prog_set now key p c).

Definition prog_inv (max : Z) (c : programCache) : Prop :=
  progs c !! "" = None ∧ Z.of_nat (size (progs c)) ≤ max ∧ maxEntries c = max ∧ prog_ttl c = 30 * minute.

Context (range_perm : ∀ m, range m ≡ₚ map_to_list m).

(** A full cache gives up an entry of the earliest creation time. *)
Lemma prog_evicts c :
  progs c !! "" = None → (0 < size (progs c))%nat →
  ∃ k e, progs c !! k = Some e ∧ k ≠ "" ∧
    scan_empty ((λ ke, (ke.1, createdAt ke.2)) <$> range (progs c)) = k ∧
    ∀ k' e', progs c !! k' = Some e' → createdAt e ≤ createdAt e'.
Proof.
  intros Hk Hs. set (l := _ <$> range (progs c)).
  assert (∀ k t, (k, t) ∈ l ↔ ∃ e, progs c !! k = Some e ∧ t = createdAt e) as Hl.
  { intros k t. unfold l. rewrite list_elem_of_fmap. setoid_rewrite range_perm. split.
    - intros ([k' e] & [= -> ->] & He%elem_of_map_to_list). eauto.
    - intros (e & He & ->). exists (k, e). split; [done|]. by apply elem_of_map_to_list. }
  assert (∃ k e, progs c !! k = Some e) as (k0 & e0 & He0).
  { destruct (map_choose (progs c)) as (k & e & He); [|eauto].
    intros Em. rewrite Em, map_size_empty in Hs. lia. }
  assert (l ≠ []) as Hne.
  { intros E. assert ((k0, createdAt e0) ∈ l) as Hin by (apply Hl; eauto). rewrite E in Hin. set_solver. }
  rewrite scan_agree.
  2:{ apply Forall_forall. intros [k t] Hin E. simpl in E. subst k. apply Hl in Hin as (e & He & _). congruence. }
  destruct (scan_first_spec l Hne) as (t & Hin & Hmin). apply Hl in Hin as (e & He & ->).
  exists (scan_first l), e. split_and!; [done| |done|].
  - intros E. congruence.
  - intros k' e' He'. apply (Hmin k'). apply Hl. eauto.
Qed.

Lemma prog_inv_step max c c' : 0 < max → prog_step c c' → prog_inv max c → prog_inv max c'.
Proof.
  intros Hpos Hstep (Hk & Hle & Hm & Ht). destruct Hstep as [now key c|now key p c Hne].
  - unfold prog_get. destruct (progs c !! key) as [e|] eqn:E; [|done].
    case_bool_decide; [|done]. unfold prog_inv. simpl.
    rewrite map_size_delete, E. split_and!; [apply lookup_delete_None; auto|simpl; lia|done|done].
  - unfold prog_inv, prog_set. simpl. rewrite lookup_insert_ne by done. split_and!; [| |done|done].
    + case_bool_decide; [|done]. case_bool_decide; [done|]. apply lookup_delete_None. auto.
    + rewrite map_size_insert. case_bool_decide as Hfull.
      * destruct (prog_evicts c Hk) as (k & e & He & Hke & -> & _); [lia|].
        rewrite bool_decide_eq_false_2 by done. rewrite map_size_delete, He.
        destruct (delete k (progs c) !! key); simpl; unfold id; lia.
      * destruct (progs c !! key); simpl; unfold id; lia.
Qed.

(** The cache of parsed programs is bounded and never serves a stale program:
    in every state reachable by reads and writes under non-empty keys it holds at
    most 64 entries, and a read returns a program only within half an hour of its
    creation. *)
Theorem programCache_bounded (c : programCache) (now : Time) (key : string) (p : P) :
  star prog_step newProgramCache c →
  Z.of_nat (size (progs c)) ≤ 64 ∧
  ((prog_get now key c).2 = Some p ↔
   ∃ e, progs c !! key = Some e ∧ program e = p ∧ now - createdAt e ≤ 30 * minute).
Proof.
  intros Hs. assert (prog_inv 64 c) as (Hk & Hle & Hm & Ht).
  { refine (star_invariant prog_step (prog_inv 64) _ _ _ Hs _).
    - intros a b Hab Ha. by apply (prog_inv_step 64 a b).
    - unfold prog_inv. simpl. rewrite map_size_empty. split_and!; [done|lia|done|done]. }
  split; [done|]. unfold prog_get. destruct (progs c !! key) as [e|] eqn:E.
  - assert (time_sub now (createdAt e) > prog_ttl c ↔ ¬ now - createdAt e ≤ 30 * minute) as Hiff.
    { rewrite Ht. go_unfold_time. unfold min_int64, max_int64, minute, second. lia. }
    case_bool_decide as Hc; simpl; split.
    + done.
    + intros (e' & [= <-] & _ & Hn). tauto.
    + intros [= <-]. exists e. split_and!; [done|done|]. apply dec_stable. tauto.
    + intros (e' & [= <-] & -> & _). done.
  - simpl. split; [done|]. by intros (e & ? & _).
Qed.

End Cache.

Lemma programCache_bounded_witness :
  Z.of_nat (size (progs (prog_set map_to_list 3 "k" 7 newProgramCache))) ≤ 64.
Proof.
  apply (programCache_bounded map_to_list ltac:(done)
           (prog_set map_to_list 3 "k" 7 newProgramCache) 4 "k" 7).
  eapply star_step; [apply (step_prog_set map_to_list 3 "k" 7); discriminate|apply star_refl].
Defined.

End ProgramCache.
