(* ===== verification/Ssrf.v ===== *)
(** * Protection against server-side request forgery (internal/ssrf/validator.go)

    The DNS resolver and the dialer are the environment.  [url.Parse] is taken
    through its result. *)

From S2P Require Import Prelude GoStrings GoNet.

Module Ssrf.

(** ** Private networks *)

Definition cidrStrs : list string :=
  ["10.0.0.0/8"; "172.16.0.0/12"; "192.168.0.0/16"; "100.64.0.0/10"; "169.254.0.0/16";
   "127.0.0.0/8"; "0.0.0.0/8"; "::1/128"; "fc00::/7"; "fe80::/10"].

(** The networks, or the first string that does not parse. *)
Fixpoint init_nets (l : list string) : result string (list IPNet) :=
  match l with
  | [] => Ok []
  | s :: l =>
    match ParseCIDR s with
    | None => Err ("internal/ssrf/validator: invalid hardcoded CIDR " +:+ s)
    | Some n => let? ns := init_nets l in Ok (n :: ns)
    end
  end.
Definition initPrivateNets : result string (list IPNet) := init_nets cidrStrs.

Definition isPrivateIP (ip : IP) : result string bool :=
  let? privateNets := initPrivateNets in
  Ok (existsb (λ n, Contains n ip) privateNets).

Arguments isPrivateIP : simpl never.

(** ** Spellings of addresses that escape a comparison of strings *)

Definition looksLikeNonDecimalPart (part : string) : bool :=
  match part with
  | "" => false
  | String c0 rest =>
    let octal := bool_decide (c0 = "0"%char) &&
      match rest with
      | "" => false
      | String c1 _ => negb (bool_decide (c1 = "x"%char)) && negb (bool_decide (c1 = "X"%char))
      end in
    if octal then true
    else bool_decide (str_len part > 2) &&
         (bool_decide (str_take 2 part = "0x") || bool_decide (str_take 2 part = "0X"))
  end.

Definition is_number (p : string) : bool := match Atoi p with Some _ => true | None => false end.

Definition isBypassHost (host : string) : bool :=
  if bool_decide (host = "") then false
  else
    let parts := str_split "." host in
    match length parts with
    | 4%nat => existsb looksLikeNonDecimalPart parts
    | 1%nat =>
      if is_number host then bool_decide (str_len host > 3) || bool_decide (host = "0") else false
    | 2%nat | 3%nat => forallb is_number parts
    | _ => false
    end.

(** ** Validation *)

Inductive ssrf_error :=
| ErrLocalhost
| ErrInternalName
| ErrSuspicious
| ErrResolve (msg : string)
| ErrCheck (msg : string)
| ErrPrivate (ip : IP)
| ErrInvalidURL
| ErrScheme
| ErrEmptyHost
| ErrPort.

(** The loop over the resolved addresses; [None] when all of them pass. *)
Fixpoint check_ips (ips : list IP) : option ssrf_error :=
  match ips with
  | [] => None
  | ip :: ips =>
    match isPrivateIP ip with
    | Err e => Some (ErrCheck e)
    | Ok true => Some (ErrPrivate ip)
    | Ok false => check_ips ips
    end
  end.

Section Validation.
Context `{Unicode}.

(** What the resolver answers for a name. *)
Definition Resolver : Type := string → result string (list IP).

Definition validateHost (lookup : Resolver) (host : string) : option ssrf_error :=
  let lowerHost := ToLower host in
  if bool_decide (lowerHost = "localhost") || bool_decide (lowerHost = "127.0.0.1") ||
     bool_decide (lowerHost = "::1") then Some ErrLocalhost
  else if has_suffix lowerHost ".local" || has_suffix lowerHost ".internal" then Some ErrInternalName
  else if isBypassHost host then Some ErrSuspicious
  else match lookup host with
       | Err e => Some (ErrResolve e)
       | Ok ips => check_ips ips
       end.

Record URL := { Scheme : string; Host : string }.

Fixpoint all_digits (s : string) : bool :=
  match s with "" => true | String c s => is_digit c && all_digits s end.

(** [u.Hostname()]: the host without a port and without brackets. *)
Definition Hostname (u : URL) : string :=
  let host :=
    match last_index ":" (Host u) with
    | Some i => if all_digits (str_drop (S i) (Host u)) then str_take i (Host u) else Host u
    | None => Host u
    end in
  if String.prefix "[" host && has_suffix host "]"
  then str_take (String.length host - 2) (str_drop 1 host) else host.

Definition ValidateURL (lookup : Resolver) (parsed : option URL) : option ssrf_error :=
  match parsed with
  | None => Some ErrInvalidURL
  | Some u =>
    if negb (bool_decide (Scheme u = "http")) && negb (bool_decide (Scheme u = "https"))
    then Some ErrScheme
    else if bool_decide (Hostname u = "") then Some ErrEmptyHost
    else validateHost lookup (Hostname u)
  end.

Definition ValidateHostname (lookup : Resolver) (host port : string) : option ssrf_error :=
  if bool_decide (host = "") then Some ErrEmptyHost
  else if negb (bool_decide (port = "")) &&
          match Atoi port with
          | None => true
          | Some p => bool_decide (p < 1) || bool_decide (p > 65535)
          end then Some ErrPort
  else validateHost lookup host.

(** [dialContext]: the checks resolve the name, then the dialer is given the name
    and resolves it again; its answer is the address it connects to. *)
Definition dialContext (lookup redial : Resolver) (addr : string) : result ssrf_error (list IP) :=
  let host := match SplitHostPort addr with Some (h, _) => h | None => addr end in
  if isBypassHost host then Err ErrSuspicious
  else match lookup host with
       | Err e => Err (ErrResolve e)
       | Ok ips =>
         match check_ips ips with
         | Some e => Err e
         | None => match redial host with Ok ips => Ok ips | Err e => Err (ErrResolve e) end
         end
       end.

(** [CheckRedirect]: [Some None] is the error for too many redirects.  The target
    is printed and parsed again by [ValidateURL]; [reparse] is that round trip. *)
Definition CheckRedirect (lookup : Resolver) (reparse : URL → option URL) (via : list URL)
    (target : option URL) : option (option ssrf_error) :=
  if bool_decide (10 ≤ Z.of_nat (length via)) then Some None
  else match target with
       | Some u => match ValidateURL lookup (reparse u) with Some e => Some (Some e) | None => None end
       | None => None
       end.

End Validation.

(** ** What is private *)

(** The blocked ranges in arithmetic: the leading bits of the 32-bit value of an
    IPv4 address, or of the 128-bit value of an IPv6 address. *)
Definition private_v4 (v : Z) : bool :=
  bool_decide (v / 2 ^ 24 = 10) || bool_decide (v / 2 ^ 20 = 172 * 16 + 1) ||
  bool_decide (v / 2 ^ 16 = 192 * 256 + 168) || bool_decide (v / 2 ^ 22 = 100 * 4 + 1) ||
  bool_decide (v / 2 ^ 16 = 169 * 256 + 254) || bool_decide (v / 2 ^ 24 = 127) ||
  bool_decide (v / 2 ^ 24 = 0).
Definition private_v6 (ip : Z) : bool :=
  bool_decide (ip = 1) || bool_decide (ip / 2 ^ 121 = 126) || bool_decide (ip / 2 ^ 118 = 1018).
Definition private (ip : IP) : bool :=
  match To4 ip with Some v => private_v4 v | None => private_v6 ip end.

Lemma Contains_eq w b s x a :
  s = w - b → 0 ≤ b ≤ w → 0 ≤ x < 2 ^ w →
  bool_decide (Z.land x (mask_of w b) = Z.shiftl a s) = bool_decide (x / 2 ^ s = a).
Proof.
  intros -> Hb Hx. rewrite land_ones_shift by done. apply bool_decide_ext.
  rewrite !Z.shiftl_mul_pow2, Z.shiftr_div_pow2 by lia.
  assert (0 < 2 ^ (w - b)) by (apply Z.pow_pos_nonneg; lia). nia.
Qed.

Lemma To4_range ip v : To4 ip = Some v → 0 ≤ v < 2 ^ 32.
Proof.
  unfold To4. case_bool_decide; [|done]. intros [= <-]. rewrite Z.land_ones by lia.
  apply Z.mod_pos_bound. lia.
Qed.

Definition nets : list IPNet :=
  match initPrivateNets with Ok ns => ns | Err _ => [] end.

Lemma nets_eq :
  initPrivateNets = Ok
    [ {| net_v4 := true; net_addr := Z.shiftl 10 24; net_bits := 8 |};
      {| net_v4 := true; net_addr := Z.shiftl (172 * 16 + 1) 20; net_bits := 12 |};
      {| net_v4 := true; net_addr := Z.shiftl (192 * 256 + 168) 16; net_bits := 16 |};
      {| net_v4 := true; net_addr := Z.shiftl (100 * 4 + 1) 22; net_bits := 10 |};
      {| net_v4 := true; net_addr := Z.shiftl (169 * 256 + 254) 16; net_bits := 16 |};
      {| net_v4 := true; net_addr := Z.shiftl 127 24; net_bits := 8 |};
      {| net_v4 := true; net_addr := Z.shiftl 0 24; net_bits := 8 |};
      {| net_v4 := false; net_addr := Z.shiftl 1 0; net_bits := 128 |};
      {| net_v4 := false; net_addr := Z.shiftl 126 121; net_bits := 7 |};
      {| net_v4 := false; net_addr := Z.shiftl 1018 118; net_bits := 10 |} ].
Proof. vm_compute. reflexivity. Qed.

Lemma isPrivateIP_eq ip : 0 ≤ ip < 2 ^ 128 → isPrivateIP ip = Ok (private ip).
Proof.
  intros Hip. unfold isPrivateIP. rewrite nets_eq. cbn [res_bind existsb]. f_equal.
  unfold Contains, private. cbn [net_v4 net_addr net_bits].
  destruct (To4 ip) as [v|] eqn:E; cbv beta iota.
  - pose proof (To4_range ip v E) as Hv. unfold private_v4. rewrite !Contains_eq by lia.
    by rewrite !orb_false_r, !orb_assoc.
  - unfold private_v6. rewrite !Contains_eq by lia.
    by rewrite Z.pow_0_r, Z.div_1_r, !orb_false_r, !orb_assoc.
Qed.

Lemma check_ips_None ips :
  Forall (λ ip, 0 ≤ ip < 2 ^ 128) ips →
  check_ips ips = None ↔ Forall (λ ip, private ip = false) ips.
Proof.
  induction 1 as [|ip ips Hip Hips IH]; cbn [check_ips]; [by split|].
  rewrite isPrivateIP_eq by done.
  rewrite Forall_cons. destruct (private ip); rewrite ?IH; naive_solver.
Qed.

(** ** Soundness *)

Section Soundness.
Context `{Unicode}.

Lemma validateHost_None lookup host :
  validateHost lookup host = None →
  isBypassHost host = false ∧ ∃ ips, lookup host = Ok ips ∧ check_ips ips = None.
Proof.
  unfold validateHost. cbv zeta.
  destruct (bool_decide _ || bool_decide _ || bool_decide _); [done|].
  destruct (has_suffix _ _ || has_suffix _ _); [done|].
  destruct (isBypassHost host); [done|]. destruct (lookup host) as [ips|e]; [|done]. eauto.
Qed.

(** C19: a URL that passes validation is an http or https URL whose host resolves,
    and no address it resolves to lies in a private, loopback, link-local,
    carrier-grade NAT or current-network range, nor (for IPv6) in the loopback,
    unique-local or link-local range. *)
Theorem ValidateURL_sound (lookup : Resolver) (parsed : option URL) :
  (∀ host ips, lookup host = Ok ips → Forall (λ ip, 0 ≤ ip < 2 ^ 128) ips) →
  ValidateURL lookup parsed = None →
  ∃ u ips, parsed = Some u ∧ (Scheme u = "http" ∨ Scheme u = "https") ∧ Hostname u ≠ "" ∧
    lookup (Hostname u) = Ok ips ∧ Forall (λ ip, private ip = false) ips.
Proof.
  intros Hl. unfold ValidateURL. destruct parsed as [u|]; [|done].
  destruct (negb _ && negb _) eqn:Es; [done|]. destruct (bool_decide (Hostname u = "")) eqn:Hh; [done|]. intros Hv. apply bool_decide_eq_false_1 in Hh.
  apply validateHost_None in Hv as (_ & ips & Hi & Hc). exists u, ips.
  apply check_ips_None in Hc; [|by eapply Hl]. split_and!; try done.
  apply andb_false_iff in Es as [Es|Es]; apply negb_false_iff in Es; decide_bools; auto.
Qed.

(** The check fails closed: a host whose name cannot be resolved, or one of
    whose addresses is private, is refused by the validation and by the dialer. *)
Theorem ssrf_fails_closed (lookup redial : Resolver) (host port : string) :
  SplitHostPort (host +:+ ":" +:+ port) = Some (host, port) →
  (∃ e, lookup host = Err e) ∨
    (∃ ips ip, lookup host = Ok ips ∧ Forall (λ ip, 0 ≤ ip < 2 ^ 128) ips ∧ ip ∈ ips ∧ private ip = true) →
  validateHost lookup host ≠ None ∧
  ∃ e, dialContext lookup redial (host +:+ ":" +:+ port) = Err e.
Proof.
  intros Hs Hbad.
  assert (∀ ips, lookup host = Ok ips → check_ips ips ≠ None) as Hc.
  { intros ips Hi Hn. destruct Hbad as [[e He]|(ips' & ip & Hi' & Hr & Hin & Hp)]; [congruence|].
    rewrite Hi in Hi'. injection Hi' as <-. apply check_ips_None in Hn; [|exact Hr].
    rewrite Forall_forall in Hn.
    specialize (Hn ip Hin). congruence. }
  split.
  - intros (_ & ips & Hi & Hn)%validateHost_None. by apply (Hc ips).
  - unfold dialContext. rewrite Hs. destruct (isBypassHost host); [eauto|].
    destruct (lookup host) as [ips|e] eqn:E; [|eauto].
    destruct (check_ips ips) as [e|] eqn:Ec; [eauto|]. by destruct (Hc ips).
Qed.

(** The dialer does not close the rebinding race: it checks the addresses of
    one resolution and connects to those of a second one, so a name that answers
    with a public address first and a loopback address next is dialled. *)
Theorem dialContext_rebinds (addr : string) (public : IP) (host port : string) :
  SplitHostPort addr = Some (host, port) → isBypassHost host = false →
  0 ≤ public < 2 ^ 128 → private public = false →
  ∃ loopback, private loopback = true ∧
    dialContext (λ _, Ok [public]) (λ _, Ok [loopback]) addr = Ok [loopback].
Proof.
  intros Hs Hb Hr Hp. exists (of_v4 (127 * 2 ^ 24 + 1)). split; [vm_compute; reflexivity|].
  unfold dialContext. rewrite Hs, Hb.
  assert (check_ips [public] = None) as -> by (apply check_ips_None; (constructor; [exact Hr || exact Hp|constructor])).
  done.
Qed.

End Soundness.

(** The unspecified IPv6 address is not blocked: a URL with the host [::] is
    accepted, though connecting to it reaches the local machine just as the
    blocked 0.0.0.0 does. *)
Theorem unspecified_v6_accepted :
  let literal : Resolver := λ host, match ParseIP host with Some ip => Ok [ip] | None => Err "no such host" end in
  ValidateURL (H := ascii_tables) literal (Some {| Scheme := "http"; Host := "[::]:8080" |}) = None ∧
  (∃ e, ValidateURL (H := ascii_tables) literal (Some {| Scheme := "http"; Host := "0.0.0.0:8080" |}) = Some e) ∧
  (∃ e, ValidateURL (H := ascii_tables) literal (Some {| Scheme := "http"; Host := "[::1]:8080" |}) = Some e).
Proof. cbv zeta. split_and!; [vm_compute; reflexivity|eexists; vm_compute; reflexivity..]. Qed.

(** ** Canonical addresses pass the spelling test *)

Lemma v4_field_decimal p v : v4_field p 0 0 = Some v → looksLikeNonDecimalPart p = false.
Proof.
  destruct p as [|c0 p]; [done|]. unfold looksLikeNonDecimalPart. intros Hf. cbn [v4_field] in Hf.
  destruct (digit_val c0) as [d|] eqn:Ed; [|done].
  rewrite bool_decide_eq_false_2 in Hf by lia. case_bool_decide; [done|].
  destruct (decide (c0 = "0"%char)) as [->|Hc].
  - assert (d = 0) as -> by (vm_compute in Ed; congruence).
    destruct p as [|c1 p]; [done|]. cbn [v4_field] in Hf.
    destruct (digit_val c1); [|done]. rewrite bool_decide_eq_true_2 in Hf; [done|]. split; [done|lia].
  - rewrite (bool_decide_eq_false_2 (c0 = _)) by done. cbn [andb].
    apply andb_false_iff. right. apply orb_false_iff.
    split; apply bool_decide_eq_false_2; intros E; destruct p; simplify_eq/=.
Qed.

Lemma is_digit_not_dot c d : digit_val c = Some d → c ≠ "."%char.
Proof. intros Hd ->. vm_compute in Hd. done. Qed.

(** No address in canonical dotted-decimal form is taken for a disguised one:
    whatever [net.ParseIP] reads as IPv4 passes the spelling test. *)
Theorem isBypassHost_canonical (host : string) (v : Z) :
  parseIPv4 host = Some v → isBypassHost host = false.
Proof.
  unfold parseIPv4, isBypassHost. intros Hp. case_bool_decide; [done|].
  destruct (str_split "." host) as [|a [|b [|c [|d [|]]]]]; try done; simpl in *;
    repeat (case_match; try done); simplify_eq.
  erewrite !v4_field_decimal by eassumption. done.
Qed.

Definition web : Resolver := λ _, Ok [of_v4 (93 * 2 ^ 24 + 1)].

Lemma ValidateURL_sound_witness :
  ∃ u ips, Some {| Scheme := "https"; Host := "example.com:443" |} = Some u ∧
    (Scheme u = "http" ∨ Scheme u = "https") ∧ Hostname u ≠ "" ∧
    web (Hostname u) = Ok ips ∧ Forall (λ ip, private ip = false) ips.
Proof.
  apply (ValidateURL_sound (H := ascii_tables) web).
  - intros host ips [= <-]. repeat constructor; vm_compute; discriminate || reflexivity.
  - vm_compute. reflexivity.
Defined.

Lemma ssrf_fails_closed_witness :
  validateHost (H := ascii_tables) (λ _, Err "nxdomain") "example.com" ≠ None.
Proof.
  apply (ssrf_fails_closed (H := ascii_tables) (λ _, Err "nxdomain") web "example.com" "80");
    [vm_compute; reflexivity|left; eauto].
Defined.

Lemma dialContext_rebinds_witness :
  ∃ loopback, private loopback = true ∧
    dialContext (λ _, Ok [of_v4 (93 * 2 ^ 24 + 1)]) (λ _, Ok [loopback]) "example.com:80" = Ok [loopback].
Proof.
  apply (dialContext_rebinds "example.com:80" (of_v4 (93 * 2 ^ 24 + 1)) "example.com" "80");
    [vm_compute; reflexivity|vm_compute; reflexivity|split; vm_compute; [discriminate|reflexivity]|vm_compute; reflexivity].
Defined.

Lemma isBypassHost_canonical_witness : isBypassHost "10.0.200.7" = false.
Proof. apply (isBypassHost_canonical "10.0.200.7" (((10 * 256 + 0) * 256 + 200) * 256 + 7)). vm_compute. reflexivity. Defined.

End Ssrf.
