(* ===== verification/Dsl.v ===== *)
(** * The ontology compiler (internal/dsl/compiler.go)

    From a parsed program to the SQL that DuckDB runs.  SQL text is built as a
    rope of template text and quoted pieces; [render] is the concatenation the
    source does with [fmt.Sprintf] and [strings.Join]. *)

From S2P Require Import Prelude GoStrings GoValues SafeIdent DslAst.
Import SafeIdent.

Module Sql.

(** Template text, [QuoteIdentifier name], [QuoteStringLiteral text]. *)
Inductive piece := Raw (s : string) | Ident (name : string) | Lit (text : string).
Abbreviation rope := (list piece) (only parsing).

Definition render_piece (p : piece) : string :=
  match p with Raw s => s | Ident n => QuoteIdentifier n | Lit t => QuoteStringLiteral t end.
Fixpoint render (r : rope) : string :=
  match r with [] => "" | p :: r => render_piece p +:+ render r end.

(** [strings.Join]. *)
Fixpoint join (sep : string) (rs : list rope) : rope :=
  match rs with
  | [] => []
  | [r] => r
  | r :: rs => r ++ Raw sep :: join sep rs
  end.

(** ** The SQL lexer, as far as quoting goes *)

Inductive token := TChar (c : ascii) | TIdent (name : string) | TLit (text : string).

Fixpoint scan (fuel : nat) (s : string) : option (list token) :=
  match fuel with
  | O => None
  | S fuel =>
    match s with
    | "" => Some []
    | String c s' =>
      if bool_decide (c = dquote) then
        match lex_quoted dquote s with
        | Some (n, rest) => (TIdent n ::.) <$> scan fuel rest
        | None => None
        end
      else if bool_decide (c = squote) then
        match lex_quoted squote s with
        | Some (t, rest) => (TLit t ::.) <$> scan fuel rest
        | None => None
        end
      else (TChar c ::.) <$> scan fuel s'
    end
  end.
Definition lex (s : string) : option (list token) := scan (S (String.length s)) s.

Fixpoint chars (s : string) : list token :=
  match s with "" => [] | String c s => TChar c :: chars s end.
Definition piece_tokens (p : piece) : list token :=
  match p with Raw s => chars s | Ident n => [TIdent n] | Lit t => [TLit t] end.
Definition tokens (r : rope) : list token := r ≫= piece_tokens.

(** ** Ropes that lex piece by piece *)

Definition no_quotes (s : string) : bool := negb (str_mem dquote s) && negb (str_mem squote s).
Definition is_raw (p : piece) : bool := match p with Raw _ => true | _ => false end.

Section Good.
(** The template texts: non-empty and free of quotes. *)
Context (template : string → Prop).
Context (template_plain : ∀ s, template s → s ≠ "" ∧ no_quotes s = true).

Definition raw_ok (p : piece) : Prop := match p with Raw s => template s | _ => True end.

(** No two quoted pieces touch. *)
Fixpoint spaced (prev_raw : bool) (r : rope) : Prop :=
  match r with
  | [] => True
  | p :: r => (prev_raw = true ∨ is_raw p = true) ∧ spaced (is_raw p) r
  end.
Definition good (r : rope) : Prop := spaced true r ∧ Forall raw_ok r.
(** A rope that may follow anything. *)
Definition soft (r : rope) : Prop := spaced false r.

Lemma spaced_weaken r : spaced false r → spaced true r.
Proof. destruct r; simpl; [done|]. intros [[?|?] ?]; auto. Qed.

Lemma spaced_app b r1 r2 :
  spaced b r1 → spaced false r2 → spaced b (r1 ++ r2).
Proof.
  revert b. induction r1 as [|p r1 IH]; intros b H1 H2; simpl in *.
  - destruct b; [by apply spaced_weaken|done].
  - destruct H1. auto.
Qed.

Lemma good_app r1 r2 : good r1 → good r2 → soft r2 → good (r1 ++ r2).
Proof.
  intros [H1 F1] [H2 F2] Hs. split; [by apply spaced_app|]. by apply Forall_app.
Qed.

Lemma good_raw_cons s r : raw_ok (Raw s) → good r → good (Raw s :: r) ∧ soft (Raw s :: r).
Proof.
  intros Hs [H1 H2]. unfold good, soft. simpl. auto.
Qed.

Lemma good_join sep rs : raw_ok (Raw sep) → Forall good rs → good (join sep rs).
Proof.
  intros Hs. induction 1 as [|r rs Hr Hrs IH]; [by split|].
  destruct rs as [|r2 rs]; [done|]. change (join sep (r :: r2 :: rs)) with (r ++ Raw sep :: join sep (r2 :: rs)).
  destruct (good_raw_cons sep _ Hs IH). by apply good_app.
Qed.

Lemma soft_app r1 r2 : soft r1 → soft r2 → soft (r1 ++ r2).
Proof. apply spaced_app. Qed.

(** Whatever follows a quoted piece does not start with its quote. *)
Lemma render_soft_head q r :
  q = dquote ∨ q = squote → soft r → Forall raw_ok r → String.prefix (String q "") (render r) = false.
Proof.
  intros Hq Hs Hf. destruct r as [|p r]; [done|]. destruct Hs as [[?|Hp] _]; [done|].
  destruct p as [s| |]; try done. apply Forall_cons in Hf as [Hf _].
  destruct (template_plain s Hf) as [Hne Hnq].
  destruct s as [|c s]; [done|]. simpl. unfold no_quotes in Hnq. simpl in Hnq.
  rewrite andb_true_iff, !negb_true_iff, !orb_false_iff in Hnq. destruct Hnq as [[H1 _] [H2 _]].
  decide_bools. destruct (ascii_dec q c) as [<-|]; [|done]. destruct Hq as [-> | ->]; done.
Qed.

Lemma QuoteIdentifier_head n : ∃ t, QuoteIdentifier n = String dquote t.
Proof. eexists. unfold QuoteIdentifier. rewrite str_app_cons. reflexivity. Qed.
Lemma QuoteStringLiteral_head n : ∃ t, QuoteStringLiteral n = String squote t.
Proof. eexists. unfold QuoteStringLiteral. rewrite str_app_cons. reflexivity. Qed.

Lemma scan_raw s fuel rest :
  no_quotes s = true →
  scan (String.length s + fuel) (s +:+ rest) = (λ ts, chars s ++ ts) <$> scan fuel rest.
Proof.
  induction s as [|c s IH]; intros Hn.
  - rewrite str_app_nil_l. cbn [String.length Nat.add chars app]. by destruct (scan fuel rest).
  - rewrite str_app_cons. cbn [String.length Nat.add scan]. unfold no_quotes in Hn. simpl in Hn.
    rewrite andb_true_iff, !negb_true_iff, !orb_false_iff in Hn. destruct Hn as [[H1 H2] [H3 H4]].
    decide_bools. rewrite !bool_decide_eq_false_2 by congruence.
    rewrite IH by (unfold no_quotes; by rewrite H2, H4).
    by destruct (scan fuel rest).
Qed.

(** A good rope is lexed piece by piece: every quoted piece comes back as one
    token with its own contents. *)
Lemma scan_rope r : ∀ extra, good r →
  scan (S (String.length (render r)) + extra) (render r) = Some (tokens r).
Proof.
  induction r as [|p r IH]; intros extra [Hs Hf]; [done|].
  simpl in Hs. destruct Hs as [_ Hs]. apply Forall_cons in Hf as [Hp Hf].
  assert (good r) as Hg by (split; [destruct (is_raw p); [done|by apply spaced_weaken]|done]).
  unfold tokens. rewrite bind_cons. cbn [render]. rewrite str_length_app.
  destruct p as [s|n|t]; cbn [render_piece piece_tokens is_raw] in *.
  - destruct (template_plain s Hp) as [_ Hp'].
    replace (S (String.length s + String.length (render r)) + extra)%nat
      with (String.length s + (S (String.length (render r)) + extra))%nat by lia.
    rewrite scan_raw by done. by rewrite (IH extra Hg).
  - destruct (QuoteIdentifier_head n) as [u Hu].
    pose proof (lex_quoted_quote dquote n (render r) (render_soft_head dquote r ltac:(auto) Hs Hf)) as Hl.
    fold (QuoteIdentifier n) in Hl. rewrite Hu in *. rewrite str_app_cons in *.
    set (k := (String.length u + String.length (render r) + extra)%nat).
    replace (S (String.length (String dquote u) + String.length (render r)) + extra)%nat
      with (S (S (String.length (render r)) + (String.length u + extra)))%nat by (simpl; lia).
    cbn [scan]. rewrite bool_decide_eq_true_2 by done. rewrite Hl.
    by rewrite (IH _ Hg).
  - destruct (QuoteStringLiteral_head t) as [u Hu].
    pose proof (lex_quoted_quote squote t (render r) (render_soft_head squote r ltac:(auto) Hs Hf)) as Hl.
    fold (QuoteStringLiteral t) in Hl. rewrite Hu in *. rewrite str_app_cons in *.
    replace (S (String.length (String squote u) + String.length (render r)) + extra)%nat
      with (S (S (String.length (render r)) + (String.length u + extra)))%nat by (simpl; lia).
    cbn [scan]. rewrite (bool_decide_eq_false_2 (squote = dquote)) by done.
    rewrite bool_decide_eq_true_2 by done. rewrite Hl. by rewrite (IH _ Hg).
Qed.

Lemma lex_good r : good r → lex (render r) = Some (tokens r).
Proof. intros Hg. pose proof (scan_rope r 0 Hg) as H. by rewrite Nat.add_0_r in H. Qed.

End Good.

Lemma good_weaken (P Q : string → Prop) r : (∀ s, P s → Q s) → good P r → good Q r.
Proof.
  intros HPQ [Hs Hf]. split; [done|]. eapply Forall_impl; [exact Hf|]. intros [s| |]; [apply HPQ|done|done].
Qed.

(** Template text: free of quotes. *)
Definition plain (s : string) : Prop := s ≠ "" ∧ no_quotes s = true.
Lemma plain_app a b : plain a → plain b → plain (a +:+ b).
Proof.
  unfold plain, no_quotes. rewrite !str_mem_app. intros [Ha Ha'] [Hb Hb']. split; [by destruct a|].
  by destruct (str_mem dquote a), (str_mem dquote b), (str_mem squote a), (str_mem squote b).
Qed.

Ltac plain_text := first [assumption | done | split; [done|vm_compute; reflexivity]
                         | apply plain_app; [plain_text|plain_text]].
Ltac good_pieces := split; [simpl; tauto|];
  repeat (apply Forall_cons_2; [first [exact Logic.I | plain_text]|]); apply Forall_nil_2.
End Sql.

Module Compiler.
Import Sql.

Record Compiler := { Program_ : Program; DataRoot : string; UseViews : bool }.

Inductive dsl_error :=
| ObjectNotFound (name : string)
| InvalidSourceInRelation (name : string) (e : path_error)
| InvalidFilterValue (v : string)
| InvalidSource (name : string) (e : path_error).

(** A loop that collects results and stops at the first error. *)
Fixpoint res_map {E A B} (f : A → result E B) (l : list A) : result E (list B) :=
  match l with
  | [] => Ok []
  | a :: l => let? b := f a in let? bs := res_map f l in Ok (b :: bs)
  end.

Fixpoint find_object (name : string) (stmts : list Statement) : option ObjectDefinition :=
  match stmts with
  | [] => None
  | SObject o :: stmts => if bool_decide (ObjName o = name) then Some o else find_object name stmts
  | _ :: stmts => find_object name stmts
  end.

Definition validFilterChar (c : ascii) : bool :=
  is_lower c || is_upper c || is_digit c || str_mem c " _-.%".
Definition validFilterValue (s : string) : bool := negb (bool_decide (s = "")) && str_all validFilterChar s.

Section Compile.
Context `{Unicode}.
(** Whether [strconv.ParseFloat(s, 64)] succeeds. *)
Context (parse_float : string → bool).

Definition isNumeric (s : string) : bool :=
  match Atoi s with Some _ => true | None => parse_float s end.

Definition parquet_path (c : Compiler) (source : string) : string :=
  DataRoot c +:+ "/" +:+ source +:+ "/latest/*.parquet".

(** ** The parts of a query *)

Definition source_field (p : Property) : string :=
  if bool_decide (PropFrom p = "") then PropName p else PropFrom p.

Definition map_case (m : Map_) : rope :=
  [Raw " WHEN "; Lit (MapFrom m); Raw " THEN "; Lit (MapTo m)].

(** The select clauses one property adds, in order. *)
Definition property_clauses (obj : ObjectDefinition) (name : string) (p : Property) : list rope :=
  let safeSource := [Ident name; Raw "."; Ident (source_field p)] in
  (if Predict p then
     [[Raw "0.0 AS "; Ident (PropName p); Raw "_probability"];
      [Raw "NULL AS "; Ident (PropName p); Raw "_vector"]]
   else []) ++
  ((λ f, [Raw "0.0 AS "; Ident ("_factor_" +:+ FactorName f)]) <$> Factors obj) ++
  [(match Maps p with
    | [] => safeSource
    | _ => Raw "CASE " :: safeSource ++ (Maps p ≫= map_case) ++ [Raw " END"]
    end) ++ [Raw " AS "; Ident (PropName p)]].

Definition join_clause (c : Compiler) (name : string) (stmt : Statement) : result dsl_error (list rope) :=
  match stmt with
  | SRelation r =>
    if bool_decide (RelFrom r = name) then
      match find_object (RelTo r) (Statements (Program_ c)) with
      | None => Ok []
      | Some target =>
        let? source :=
          if UseViews c then Ok [Ident (RelTo r)]
          else
            let filePath := parquet_path c (FromSource target) in
            match SanitizeFilePath filePath with
            | Some e => Err (InvalidSourceInRelation (RelName r) e)
            | None => Ok [Raw "read_parquet("; Lit filePath; Raw ") AS "; Ident (RelTo r)]
            end in
        Ok [Raw " LEFT JOIN " :: source ++
            [Raw " ON "; Ident name; Raw "."; Ident (LeftOn r); Raw " = ";
             Ident (RelTo r); Raw "."; Ident (RightOn r)]]
      end
    else Ok []
  | _ => Ok []
  end.

Definition aggregate_clause (name : string) (a : AggregateDefinition) : rope :=
  [Raw (ToUpper (AggFunction a)); Raw "("; Ident name; Raw "."; Ident (AggField a); Raw ") AS ";
   Ident (AggAlias a)].

Definition group_by (obj : ObjectDefinition) (name : string) : list rope :=
  match Aggregates obj with
  | [] => []
  | _ =>
    (λ p, [Ident name; Raw "."; Ident (PropName p)]) <$>
      filter (λ p, PropName p ∉ AggField <$> Aggregates obj) (Properties obj)
  end.

Definition opMap (op : string) : string :=
  if bool_decide (op = "eq") then "=" else if bool_decide (op = "neq") then "<>"
  else if bool_decide (op = "gt") then ">" else if bool_decide (op = "gte") then ">="
  else if bool_decide (op = "lt") then "<" else if bool_decide (op = "lte") then "<="
  else if bool_decide (op = "like") then "LIKE" else "".

Definition where_clause (name : string) (f : FilterDefinition) : result dsl_error rope :=
  let? val :=
    if isNumeric (FilterValue f) then Ok (Raw (FilterValue f))
    else if negb (validFilterValue (FilterValue f)) then Err (InvalidFilterValue (FilterValue f))
    else Ok (Lit (FilterValue f)) in
  Ok [Ident name; Raw "."; Ident (FilterField f); Raw (" " +:+ opMap (FilterOp f) +:+ " "); val].

(** A clause that is left out when it has no parts. *)
Definition optional (keyword sep : string) (parts : list rope) : rope :=
  match parts with [] => [] | _ => Raw keyword :: join sep parts end.

Definition from_clause (c : Compiler) (obj : ObjectDefinition) (name : string) : result dsl_error rope :=
  if UseViews c then Ok [Ident name]
  else
    let filePath := parquet_path c (FromSource obj) in
    match SanitizeFilePath filePath with
    | Some e => Err (InvalidSource (ObjName obj) e)
    | None => Ok [Raw "read_parquet("; Lit filePath; Raw ") AS "; Ident name]
    end.

Definition select_clauses (obj : ObjectDefinition) (name : string) : list rope :=
  (Properties obj ≫= property_clauses obj name) ++ (aggregate_clause name <$> Aggregates obj).

Definition CompileObject (c : Compiler) (objName : string) : result dsl_error rope :=
  match find_object objName (Statements (Program_ c)) with
  | None => Err (ObjectNotFound objName)
  | Some obj =>
    let? joins := res_map (join_clause c objName) (Statements (Program_ c)) in
    let? wheres := res_map (where_clause objName) (Filters obj) in
    let? from := from_clause c obj objName in
    Ok (Raw "SELECT " :: join ", " (select_clauses obj objName) ++ Raw " FROM " :: from ++
        join " " (concat joins) ++ optional " WHERE " " AND " wheres ++
        optional " GROUP BY " ", " (group_by obj objName))
  end.

(** ** Views *)

Definition view_column (p : Property) : rope :=
  [Raw "source."; Ident (source_field p); Raw " AS "; Ident (PropName p)].

Definition compile_view (c : Compiler) (stmt : Statement) : result dsl_error (list rope) :=
  match stmt with
  | SObject obj =>
    match SanitizeFilePath (FromSource obj) with
    | Some e => Err (InvalidSource (ObjName obj) e)
    | None =>
      Ok [[Raw "CREATE OR REPLACE VIEW "; Ident (ObjName obj); Raw " AS SELECT "] ++
          join ", " (view_column <$> Properties obj) ++
          [Raw " FROM read_parquet("; Lit (parquet_path c (FromSource obj)); Raw ") AS source"]]
    end
  | _ => Ok []
  end.

Definition CompileDDL (c : Compiler) : result dsl_error (list rope) :=
  let? ddls := res_map (compile_view c) (Statements (Program_ c)) in Ok (concat ddls).

(** ** Actions as tools *)

Definition compile_action (a : ActionDefinition) : any :=
  AnyMap
    [("type", AnyStr "function");
     ("function", AnyMap
        [("name", AnyStr (ActionName a));
         ("description", AnyStr ("Execute action " +:+ ActionName a +:+ " on object " +:+ OnObject a));
         ("parameters", AnyMap
            [("type", AnyStr "object");
             ("properties", AnyMap
                ((λ n, (n, AnyMap [("type", AnyStr "string")])) <$>
                   remove_dups (PropName <$> ActionParameters a)));
             ("required", AnyList ((λ p, AnyStr (PropName p)) <$> ActionParameters a))])])].

Definition CompileActions (c : Compiler) : list any :=
  omap (λ s, match s with SAction a => Some (compile_action a) | _ => None end) (Statements (Program_ c)).

(** ** Safety *)

(** The fixed texts of the templates, the operators and the aggregates. *)
Definition vocabulary : list string :=
  ["SELECT "; ", "; " FROM "; "."; " AS "; "0.0 AS "; "_probability"; "NULL AS "; "_vector"; "CASE ";
   " WHEN "; " THEN "; " END"; " LEFT JOIN "; "read_parquet("; ") AS "; " ON "; " = "; " "; "(";
   " WHERE "; " AND "; " GROUP BY "; " <> "; " > "; " >= "; " < "; " <= "; " LIKE "; "  ";
   "COUNT"; "SUM"; "AVG"; "MIN"; "MAX"; "CREATE OR REPLACE VIEW "; " AS SELECT "; "source.";
   " FROM read_parquet("; ") AS source"].
Definition template (s : string) : Prop := s ∈ vocabulary ∨ isNumeric s = true.

(** The aggregate functions the grammar admits. *)
Definition parsed_object (obj : ObjectDefinition) : Prop :=
  Forall (λ a, AggFunction a ∈ ["count"; "sum"; "avg"; "min"; "max"]) (Aggregates obj).

(** Floating-point literals hold no quote. *)
Context (float_plain : ∀ s, parse_float s = true → s ≠ "" ∧ no_quotes s = true).

Lemma in_vocabulary s : bool_decide (s ∈ vocabulary) = true → template s.
Proof. intros Hs. left. by apply bool_decide_eq_true_1 in Hs. Qed.

Lemma template_plain s : template s → s ≠ "" ∧ no_quotes s = true.
Proof.
  intros [Hv|Hn].
  - assert (forallb (λ s, negb (bool_decide (s = "")) && no_quotes s) vocabulary = true) as Hall
      by (vm_compute; reflexivity).
    rewrite forallb_forall in Hall. apply list_elem_of_In in Hv.
    specialize (Hall s Hv). apply andb_true_iff in Hall as [H1 H2]. apply negb_true_iff in H1.
    by decide_bools.
  - unfold isNumeric in Hn. destruct (Atoi s) as [z|] eqn:Ea; [|by apply float_plain].
    apply Atoi_chars in Ea as [Hne Hall]. split; [done|]. unfold no_quotes.
    by rewrite !(str_all_not_mem int_char) by done.
Qed.

(** Ropes of the compiler: spaced, and template text from the vocabulary. *)
Abbreviation ok := (good template) (only parsing).

(** The pieces of a rope written out in a template. *)
Ltac ok_pieces :=
  repeat (apply Forall_cons_2; [first [exact I | assumption | by apply in_vocabulary]|]);
  apply Forall_nil_2.
Ltac ok_rope := split; [simpl; tauto | ok_pieces].
Ltac soft_rope := unfold soft; simpl; tauto.

Lemma ok_raw s r : bool_decide (s ∈ vocabulary) = true → ok r → ok (Raw s :: r) ∧ soft (Raw s :: r).
Proof. intros Hs. apply good_raw_cons. by apply in_vocabulary. Qed.

Lemma ok_join sep rs : bool_decide (sep ∈ vocabulary) = true → Forall ok rs → ok (join sep rs).
Proof. intros Hs. apply good_join. by apply in_vocabulary. Qed.

Lemma ok_nil : ok [].
Proof. by split. Qed.

Lemma ok_optional kw sep rs :
  bool_decide (kw ∈ vocabulary) = true → bool_decide (sep ∈ vocabulary) = true →
  Forall ok rs → ok (optional kw sep rs) ∧ soft (optional kw sep rs).
Proof.
  intros Hk Hs Hrs. unfold optional. destruct rs as [|r rs]; [split; [apply ok_nil|done]|].
  apply ok_raw; [done|]. by apply ok_join.
Qed.

Lemma soft_bind {A} (f : A → list piece) l : (∀ a, soft (f a)) → soft (l ≫= f).
Proof.
  intros Hf. induction l as [|a l IH]; [done|]. rewrite bind_cons. by apply soft_app.
Qed.

Lemma ok_bind {A} (f : A → list piece) l :
  (∀ a, ok (f a) ∧ soft (f a)) → ok (l ≫= f) ∧ soft (l ≫= f).
Proof.
  intros Hf. induction l as [|a l [IH1 IH2]]; [split; [apply ok_nil|done]|]. rewrite bind_cons.
  destruct (Hf a) as [H1 H2]. split; [by apply good_app|by apply soft_app].
Qed.

Lemma ok_map_case m : ok (map_case m) ∧ soft (map_case m).
Proof. split; [ok_rope|soft_rope]. Qed.

Lemma ok_property obj name p : Forall ok (property_clauses obj name p).
Proof.
  unfold property_clauses. apply Forall_app. split; [|apply Forall_app; split].
  - destruct (Predict p); repeat (apply Forall_cons_2; [ok_rope|]); apply Forall_nil_2.
  - apply Forall_forall. intros r (f & -> & _)%list_elem_of_fmap. ok_rope.
  - constructor; [|constructor]. apply good_app; [|ok_rope|soft_rope].
    destruct (Maps p) as [|m ms]; [ok_rope|]. destruct (ok_bind map_case (m :: ms) ok_map_case) as [H1 H2].
    apply ok_raw; [done|]. apply good_app; [ok_rope| |].
    + apply good_app; [done|ok_rope|soft_rope].
    + apply soft_app; [done|soft_rope].
Qed.

Lemma ToUpper_aggregate f :
  f ∈ ["count"; "sum"; "avg"; "min"; "max"] → bool_decide (ToUpper f ∈ vocabulary) = true.
Proof.
  rewrite !elem_of_cons, elem_of_nil. intros Hf.
  destruct_or! Hf; subst; try done; vm_compute; reflexivity.
Qed.

Lemma ok_aggregates obj name : parsed_object obj → Forall ok (aggregate_clause name <$> Aggregates obj).
Proof.
  unfold parsed_object. rewrite !Forall_forall. intros Hp r (a & -> & Ha)%list_elem_of_fmap.
  pose proof (in_vocabulary _ (ToUpper_aggregate _ (Hp a Ha))).
  ok_rope.
Qed.

Lemma ok_select obj name : parsed_object obj → Forall ok (select_clauses obj name).
Proof.
  intros Hp. apply Forall_app. split; [|by apply ok_aggregates].
  apply Forall_forall. intros r (p & Hr & _)%list_elem_of_bind.
  pose proof (ok_property obj name p) as Hall. rewrite Forall_forall in Hall. by apply Hall.
Qed.

Lemma ok_group_by obj name : Forall ok (group_by obj name).
Proof.
  unfold group_by. destruct (Aggregates obj); [constructor|].
  apply Forall_forall. intros r (p & -> & _)%list_elem_of_fmap. ok_rope.
Qed.

Lemma op_vocabulary op : bool_decide ((" " +:+ opMap op +:+ " ") ∈ vocabulary) = true.
Proof.
  unfold opMap. repeat (destruct (bool_decide (op = _)); [vm_compute; reflexivity|]).
  vm_compute. reflexivity.
Qed.

Lemma ok_where name f r : where_clause name f = Ok r → ok r.
Proof.
  unfold where_clause. intros Hw. pose proof (in_vocabulary _ (op_vocabulary (FilterOp f))) as Hop.
  destruct (isNumeric (FilterValue f)) eqn:En; [|destruct (negb _); [done|]]; simpl in Hw; injection Hw as <-;
    [assert (template (FilterValue f)) by (by right)|]; ok_rope.
Qed.

Lemma res_map_Forall {E A B} (P : B → Prop) (f : A → result E B) l bs :
  (∀ a b, f a = Ok b → P b) → res_map f l = Ok bs → Forall P bs.
Proof.
  intros Hf. revert bs. induction l as [|a l IH]; intros bs; simpl; [intros [= <-]; constructor|].
  destruct (f a) as [b|e] eqn:Ea; simpl; [|done].
  destruct (res_map f l) as [bs'|e]; simpl; [|done]. intros [= <-]. constructor; eauto.
Qed.

Lemma ok_source_pieces path name :
  ok [Raw "read_parquet("; Lit path; Raw ") AS "; Ident name].
Proof. ok_rope. Qed.

Lemma ok_join_clause c name stmt rs :
  join_clause c name stmt = Ok rs → Forall (λ r, ok r ∧ soft r) rs.
Proof.
  unfold join_clause. destruct stmt as [|r| | |]; try (intros [= <-]; constructor).
  case_bool_decide; [|intros [= <-]; constructor].
  destruct (find_object _ _) as [target|]; [|intros [= <-]; constructor].
  set (tail := [Raw " ON "; _; _; _; _; _; _; _]).
  assert (ok tail ∧ soft tail) as [Ht Hts] by (split; [ok_rope|soft_rope]).
  assert (∀ source, ok source →
    Forall (λ r, ok r ∧ soft r) [Raw " LEFT JOIN " :: source ++ tail]) as Hgen.
  { intros source Hs. constructor; [|constructor]. apply ok_raw; [done|]. by apply good_app. }
  destruct (UseViews c); cbn [res_bind].
  - intros [= <-]. apply (Hgen [Ident (RelTo r)]). ok_rope.
  - destruct (SanitizeFilePath _); cbn [res_bind]; [done|]. intros [= <-].
    apply (Hgen [Raw "read_parquet("; _; _; _]), ok_source_pieces.
Qed.

Lemma ok_from c obj name r : from_clause c obj name = Ok r → ok r.
Proof.
  unfold from_clause. destruct (UseViews c); [intros [= <-]; ok_rope|].
  destruct (SanitizeFilePath _); [done|]. intros [= <-]. apply ok_source_pieces.
Qed.

Lemma ok_joins js :
  Forall (λ r, ok r ∧ soft r) js → ok (join " " js) ∧ soft (join " " js).
Proof.
  induction 1 as [|r js [Hr Hs] Hjs [IH1 IH2]]; [split; [apply ok_nil|done]|].
  destruct js as [|r2 js]; [done|].
  change (join " " (r :: r2 :: js)) with (r ++ Raw " " :: join " " (r2 :: js)).
  destruct (ok_raw " " _ eq_refl IH1). split; [by apply good_app|by apply soft_app].
Qed.

Lemma CompileObject_ok c name r :
  (∀ obj, find_object name (Statements (Program_ c)) = Some obj → parsed_object obj) →
  CompileObject c name = Ok r → ok r.
Proof.
  intros Hp. unfold CompileObject. destruct (find_object _ _) as [obj|]; [|done].
  specialize (Hp obj eq_refl).
  destruct (res_map (join_clause c name) _) as [joins|e] eqn:Ej; simpl; [|done].
  destruct (res_map (where_clause name) _) as [wheres|e] eqn:Ew; simpl; [|done].
  destruct (from_clause c obj name) as [from|e] eqn:Ef; simpl; [|done]. intros [= <-].
  assert (Forall (λ r, ok r ∧ soft r) (concat joins)) as Hj.
  { apply (res_map_Forall _ _ _ _ (ok_join_clause c name)) in Ej. by apply Forall_concat. }
  apply ok_joins in Hj as [Hj Hjs].
  destruct (ok_optional " WHERE " " AND " wheres) as [Hw Hws]; [done|done| |].
  { by apply (res_map_Forall _ _ _ _ (ok_where name) Ew). }
  destruct (ok_optional " GROUP BY " ", " (group_by obj name)) as [Hg Hgs]; [done|done|apply ok_group_by|].
  apply ok_raw; [done|]. apply good_app; [by apply ok_join, ok_select| |].
  - apply ok_raw; [done|]. apply good_app; [by eapply ok_from| |].
    + apply good_app; [done|by apply good_app|by apply soft_app].
    + apply soft_app; [done|by apply soft_app].
  - split; [by right|]. cbn [is_raw].
    enough (ok (from ++ join " " (concat joins) ++ optional " WHERE " " AND " wheres ++
      optional " GROUP BY " ", " (group_by obj name))) as [H1 _]; [done|].
    apply good_app; [by eapply ok_from| |].
    + apply good_app; [done|by apply good_app|by apply soft_app].
    + apply soft_app; [done|by apply soft_app].
Qed.

(** C4: compiled queries are injection free: whatever bytes the names, mapped
    values, paths and filter values of a parsed program hold, the SQL lexer reads
    the compiled text back as the intended tokens, each name and each text one
    quoted token with its own contents; outside the quotes there is only template
    text or a numeric filter value. *)
Theorem CompileObject_injection_free (c : Compiler) (name : string) (r : list piece) :
  (∀ obj, find_object name (Statements (Program_ c)) = Some obj → parsed_object obj) →
  CompileObject c name = Ok r →
  lex (render r) = Some (tokens r) ∧
  Forall (λ p, match p with Raw s => s ∈ vocabulary ∨ isNumeric s = true | _ => True end) r.
Proof.
  intros Hp Hc. pose proof (CompileObject_ok c name r Hp Hc) as Hok. split; [|apply Hok].
  by apply (lex_good template template_plain).
Qed.

Lemma ok_view c stmt rs : compile_view c stmt = Ok rs → Forall ok rs.
Proof.
  unfold compile_view. destruct stmt as [obj| | | |]; try (intros [= <-]; constructor).
  destruct (SanitizeFilePath _); [done|]. intros [= <-]. constructor; [|constructor].
  assert (ok (join ", " (view_column <$> Properties obj))) as Hj.
  { apply ok_join; [done|]. apply Forall_forall. intros r (p & -> & _)%list_elem_of_fmap. ok_rope. }
  set (tail := [Raw " FROM read_parquet("; _; _]).
  assert (ok tail ∧ soft tail) as [Ht Hts] by (split; [ok_rope|soft_rope]).
  apply ok_raw; [done|]. apply (good_app template [Ident _]); [ok_rope| |].
  - apply ok_raw; [done|]. by apply good_app.
  - split; [by right|]. cbn [is_raw]. by apply (good_app template).
Qed.

Definition statement_object (s : Statement) : option ObjectDefinition :=
  match s with SObject o => Some o | _ => None end.

(** View definitions are injection free in the same sense, one statement per
    object of the program. *)
Theorem CompileDDL_injection_free (c : Compiler) (ddls : list (list piece)) :
  CompileDDL c = Ok ddls →
  Forall (λ r, lex (render r) = Some (tokens r)) ddls ∧
  length ddls = length (omap statement_object (Statements (Program_ c))).
Proof.
  unfold CompileDDL. destruct (res_map _ _) as [rs|e] eqn:E; simpl; [|done]. intros [= <-]. split.
  - apply (res_map_Forall _ _ _ _ (ok_view c)) in E. apply Forall_concat in E.
    eapply Forall_impl; [exact E|]. intros r Hr. by apply (lex_good template template_plain).
  - revert rs E. induction (Statements (Program_ c)) as [|stmt stmts IH]; intros rs; simpl; [by intros [= <-]|].
    destruct (compile_view c stmt) as [r|e] eqn:Ev; simpl; [|done].
    destruct (res_map (compile_view c) stmts) as [rs'|e]; simpl; [|done]. intros [= <-].
    cbn [concat]. rewrite length_app, (IH rs' eq_refl). unfold compile_view in Ev.
    destruct stmt; simpl in *; [destruct (SanitizeFilePath _)|..]; simplify_eq; done.
Qed.

(** The columns of a predicted property are misspelt: the quoted name is
    followed by a bare suffix, so the lexer reads an alias and then a stray word
    instead of one alias; and each property adds the factor columns again, so an
    object has them once per property. *)
Theorem select_clause_defects (obj : ObjectDefinition) (name : string) (p : Property) :
  (Predict p = true →
   ∃ r, r ∈ property_clauses obj name p ∧
     lex (render r) = Some (chars "0.0 AS " ++ TIdent (PropName p) :: chars "_probability")) ∧
  length (select_clauses obj name) =
    (length (Properties obj) * (length (Factors obj) + 1) +
     2 * length (filter (λ p, Predict p = true) (Properties obj)) + length (Aggregates obj))%nat.
Proof.
  split.
  - intros Hp. exists [Raw "0.0 AS "; Ident (PropName p); Raw "_probability"]. split.
    + unfold property_clauses. rewrite Hp. simpl. constructor.
    + apply (lex_good template template_plain). ok_rope.
  - unfold select_clauses. rewrite length_app, length_fmap. f_equal.
    induction (Properties obj) as [|q ps IH]; [done|]. rewrite bind_cons, length_app, IH, filter_cons.
    unfold property_clauses. rewrite !length_app, length_fmap. simpl.
    destruct (Predict q); simpl; lia.
Qed.

End Compile.

Definition order_object : ObjectDefinition := {|
  ObjName := "Order"; FromSource := "orders"; ObjID := "id";
  Properties := [{| PropName := "state"; PropTyp := "string"; PropFrom := "st"; Predict := false;
                    Maps := [{| MapFrom := "o'k"; MapTo := "fine" |}] |}];
  Factors := []; Filters := [{| FilterField := "n"; FilterOp := "gt"; FilterValue := "3" |}];
  Aggregates := [{| AggFunction := "sum"; AggField := "n"; AggAlias := "total" |}] |}.
Definition order_compiler : Compiler :=
  {| Program_ := {| Statements := [SObject order_object] |}; DataRoot := "/data"; UseViews := false |}.
Definition no_floats (s : string) : bool := false.

Definition compiled (c : Compiler) (name : string) : list piece :=
  match CompileObject (H := ascii_tables) no_floats c name with Ok r => r | Err _ => [] end.

Lemma CompileObject_injection_free_witness :
  lex (render (compiled order_compiler "Order")) = Some (tokens (compiled order_compiler "Order")).
Proof.
  refine (proj1 (CompileObject_injection_free (H := ascii_tables) no_floats ltac:(done) order_compiler
    "Order" (compiled order_compiler "Order") _ _)).
  - intros obj Ho. assert (Some obj = Some order_object) as [= ->] by (rewrite <- Ho; vm_compute; reflexivity).
    repeat constructor.
  - vm_compute. reflexivity.
Defined.

Definition compiled_views (c : Compiler) : list (list piece) :=
  match CompileDDL c with Ok rs => rs | Err _ => [] end.

Lemma CompileDDL_injection_free_witness : length (compiled_views order_compiler) = 1%nat.
Proof.
  apply (CompileDDL_injection_free no_floats ltac:(done) order_compiler).
  vm_compute. reflexivity.
Defined.

Lemma select_clause_defects_witness :
  length (select_clauses (H := ascii_tables) order_object "Order") = 2%nat.
Proof.
  apply (select_clause_defects (H := ascii_tables) no_floats ltac:(done) order_object "Order"
    {| PropName := ""; PropTyp := ""; PropFrom := ""; Predict := false; Maps := [] |}).
Defined.

End Compiler.
