(* ===== verification/Workflow.v ===== *)
(** * Workflows (internal/workflow/engine.go, orchestrator.go, types.go)

    Module [Workflow]: the sequential engine.  Module [Orchestrator]: the bound on
    concurrently running workflows.  Step functions and the context are the
    environment. *)

From S2P Require Import Prelude GoStrings GoValues.

Module Workflow.

Inductive Status := StatusPending | StatusRunning | StatusCompleted | StatusFailed | StatusCancelled.
#[global] Instance Status_eq_dec : EqDecision Status.
Proof. solve_decision. Defined.

Section Engine.
(** The values of [map[string]any] and the errors of steps. *)
Context {Value Error : Type}.

Definition Output : Type := gmap string Value.

(** A nil output map is [None]. *)
Record StepResult := { SRName : string; SRError : option Error; SROutput : option Output }.

Record Workflow := {
  ID : string; WStatus : Status; Steps : list string; Result : list StepResult;
}.

Inductive wf_error :=
| Cancelled
| NotRegistered (id step : string)
| StepFailed (id step : string) (e : Error).

(** A step function: the inputs to an output map (possibly nil) or an error. *)
Definition StepFunc : Type := gmap string Output → result Error (option Output).

Record engine := { eng_steps : gmap string StepFunc; statuses : gmap string Status }.

Definition NewEngine : engine := {| eng_steps := ∅; statuses := ∅ |}.

Definition RegisterStep (name : string) (fn : StepFunc) (e : engine) : engine :=
  {| eng_steps := <[name := fn]> (eng_steps e); statuses := statuses e |}.

Definition set_status (id : string) (s : Status) (e : engine) : engine :=
  {| eng_steps := eng_steps e; statuses := <[id := s]> (statuses e) |}.

(** Later results of the same name replace earlier ones; nil outputs are left
    out. *)
Definition collectInputs (results : list StepResult) : gmap string Output :=
  foldl (λ m r, match SROutput r with Some o => <[SRName r := o]> m | None => m end) ∅ results.

(** The loop: [done i] is whether the context has ended before step [i].  It
    returns the status the body leaves, the results and the error. *)
Fixpoint run_steps (e : engine) (id : string) (ctx_done : nat → bool) (i : nat)
    (steps : list string) (results : list StepResult) : Status * list StepResult * option wf_error :=
  match steps with
  | [] => (StatusCompleted, results, None)
  | step :: steps =>
    if ctx_done i then (StatusCancelled, results, Some Cancelled)
    else match eng_steps e !! step with
         | None => (StatusRunning, results, Some (NotRegistered id step))
         | Some fn =>
           match fn (collectInputs results) with
           | Err err =>
             (StatusRunning,
              results ++ [{| SRName := step; SRError := Some err; SROutput := None |}],
              Some (StepFailed id step err))
           | Ok out =>
             run_steps e id ctx_done (S i) steps
               (results ++ [{| SRName := step; SRError := None; SROutput := out |}])
           end
         end
  end.

(** [Execute] with its deferred function, which runs on every return. *)
Definition Execute (ctx_done : nat → bool) (w : Workflow) (e : engine) :
    engine * Workflow * option wf_error :=
  let e := set_status (ID w) StatusRunning e in
  let '(status, results, err) := run_steps e (ID w) ctx_done 0 (Steps w) (Result w) in
  let status := if bool_decide (status = StatusCompleted) then status else StatusFailed in
  (set_status (ID w) status e,
   {| ID := ID w; WStatus := status; Steps := Steps w; Result := results |}, err).

Definition GetStatus (id : string) (e : engine) : option Status := statuses e !! id.

(** ** Lemmas *)

(** The outputs of a run in which every step succeeds. *)
Fixpoint successes (e : engine) (steps : list string) (results : list StepResult) : option (list StepResult) :=
  match steps with
  | [] => Some results
  | step :: steps =>
    match eng_steps e !! step with
    | None => None
    | Some fn =>
      match fn (collectInputs results) with
      | Err _ => None
      | Ok out => successes e steps (results ++ [{| SRName := step; SRError := None; SROutput := out |}])
      end
    end
  end.

Lemma run_steps_completed e id ctx steps : ∀ i results,
  (run_steps e id ctx i steps results).1.1 = StatusCompleted ↔
  (∀ j, (j < length steps)%nat → ctx (i + j)%nat = false) ∧ is_Some (successes e steps results).
Proof.
  induction steps as [|step steps IH]; intros i results; simpl.
  - split; [|done]. intros _. split; [lia|eauto].
  - destruct (ctx i) eqn:Ec.
    + simpl. split; [done|]. intros [Hc _]. specialize (Hc 0%nat ltac:(lia)).
      rewrite Nat.add_0_r in Hc. congruence.
    + assert (∀ P : Prop, ((∀ j, (j < S (length steps))%nat → ctx (i + j)%nat = false) ∧ P ↔
        (∀ j, (j < length steps)%nat → ctx (S i + j)%nat = false) ∧ P)) as Hshift.
      { intros P. split; intros [Hc HP]; (split; [|done]).
        - intros j Hj. specialize (Hc (S j) ltac:(lia)). by replace (S i + j)%nat with (i + S j)%nat by lia.
        - intros [|j] Hj; [by rewrite Nat.add_0_r|]. specialize (Hc j ltac:(lia)).
          by replace (i + S j)%nat with (S i + j)%nat by lia. }
      rewrite Hshift. destruct (eng_steps e !! step) as [fn|]; simpl.
      * destruct (fn (collectInputs results)) as [out|err]; [apply IH|].
        simpl. split; [done|]. by intros [_ []].
      * split; [done|]. by intros [_ []].
Qed.

Lemma run_steps_error e id ctx steps : ∀ i results,
  (run_steps e id ctx i steps results).2 = None ↔
  (run_steps e id ctx i steps results).1.1 = StatusCompleted.
Proof.
  induction steps as [|step steps IH]; intros i results; simpl; [done|].
  destruct (ctx i); [done|]. destruct (eng_steps e !! step) as [fn|]; [|done].
  destruct (fn (collectInputs results)); [apply IH|done].
Qed.

Lemma successes_steps e e' steps : eng_steps e = eng_steps e' →
  ∀ rs, successes e steps rs = successes e' steps rs.
Proof.
  intros He. induction steps as [|s l IH]; intros rs; simpl; [done|]. rewrite He.
  destruct (eng_steps e' !! s) as [fn|]; [|done].
  destruct (fn (collectInputs rs)) as [out|err]; [apply IH|done].
Qed.

(** A workflow ends completed exactly when the context outlives every step
    and every step is registered and succeeds on the outputs of the steps before
    it; this is also exactly when no error is returned, and the recorded status is
    the workflow's. *)
Theorem Execute_completed_iff (ctx_done : nat → bool) (w : Workflow) (e : engine) :
  let '(e', w', err) := Execute ctx_done w e in
  (WStatus w' = StatusCompleted ↔
     (∀ j, (j < length (Steps w))%nat → ctx_done j = false) ∧ is_Some (successes e (Steps w) (Result w))) ∧
  (err = None ↔ WStatus w' = StatusCompleted) ∧
  GetStatus (ID w) e' = Some (WStatus w').
Proof.
  unfold Execute.
  pose proof (run_steps_completed (set_status (ID w) StatusRunning e) (ID w) ctx_done (Steps w) 0 (Result w)) as Hc.
  pose proof (run_steps_error (set_status (ID w) StatusRunning e) (ID w) ctx_done (Steps w) 0 (Result w)) as He.
  assert (∀ rs, successes (set_status (ID w) StatusRunning e) (Steps w) rs = successes e (Steps w) rs) as Hs.
  { apply successes_steps. done. }
  rewrite Hs in Hc. destruct (run_steps _ _ _ _ _ _) as [[status results] err]. simpl in *.
  split_and!.
  - rewrite <- Hc. by case_bool_decide.
  - rewrite He. by case_bool_decide.
  - unfold GetStatus. simpl. by rewrite lookup_insert_eq.
Qed.

(** A workflow that the context cancels is reported as failed: the cancelled
    status the loop sets is overwritten by the deferred function, so no workflow
    ever ends in it. *)
Theorem Execute_never_cancelled (ctx_done : nat → bool) (w : Workflow) (e : engine) :
  let '(e', w', err) := Execute ctx_done w e in
  (err = Some Cancelled → WStatus w' = StatusFailed ∧ GetStatus (ID w) e' = Some StatusFailed) ∧
  WStatus w' ≠ StatusCancelled.
Proof.
  unfold Execute.
  pose proof (run_steps_error (set_status (ID w) StatusRunning e) (ID w) ctx_done (Steps w) 0 (Result w)) as He.
  destruct (run_steps _ _ _ _ _ _) as [[status results] err]. simpl in *.
  case_bool_decide as Hs; simpl.
  - split; [|by rewrite Hs]. intros ->. apply He in Hs. done.
  - split; [|done]. intros _. split; [done|]. unfold GetStatus. simpl. by rewrite lookup_insert_eq.
Qed.

(** Each step runs on the outputs of the steps before it: after a completed
    run the results list the steps in order, and the inputs of the step at any
    position are collected from exactly the results before that position. *)
Theorem Execute_inputs (ctx_done : nat → bool) (w : Workflow) (e : engine) :
  Result w = [] →
  let '(_, w', err) := Execute ctx_done w e in
  err = None →
  SRName <$> Result w' = Steps w ∧
  ∀ i r, Result w' !! i = Some r →
    ∃ fn out, eng_steps e !! SRName r = Some fn ∧
      fn (collectInputs (take i (Result w'))) = Ok out ∧ SROutput r = out.
Proof.
  intros Hr. unfold Execute. rewrite Hr.
  assert (∀ steps i results,
    let '(_, rs, err) := run_steps (set_status (ID w) StatusRunning e) (ID w) ctx_done i steps results in
    err = None → ∃ new, rs = results ++ new ∧ SRName <$> new = steps ∧
      ∀ k r, new !! k = Some r → ∃ fn out, eng_steps e !! SRName r = Some fn ∧
        fn (collectInputs (results ++ take k new)) = Ok out ∧ SROutput r = out) as Hrun.
  { induction steps as [|step steps IH]; intros i results; simpl.
    - intros _. exists []. rewrite app_nil_r. done.
    - destruct (ctx_done i); [done|]. destruct (eng_steps e !! step) as [fn|] eqn:Ef; [|done].
      destruct (fn (collectInputs results)) as [out|err] eqn:Eo; [|done].
      set (r0 := {| SRName := step; SRError := None; SROutput := out |}).
      specialize (IH (S i) (results ++ [r0])).
      destruct (run_steps _ _ _ _ _ _) as [[st rs] err]. intros Hn.
      destruct (IH Hn) as (new & -> & Hnames & Hk). exists (r0 :: new).
      rewrite <- (assoc_L (++)). split_and!; [done|by rewrite fmap_cons, Hnames|].
      intros [|k] r; simpl.
      + intros [= <-]. exists fn, out. by rewrite app_nil_r.
      + intros Hl. destruct (Hk k r Hl) as (fn' & out' & H1 & H2 & H3). exists fn', out'.
        rewrite <- (assoc_L (++)) in H2. done. }
  specialize (Hrun (Steps w) 0%nat []). destruct (run_steps _ _ _ _ _ _) as [[st rs] err]. simpl.
  intros Hn. destruct (Hrun Hn) as (new & -> & Hnames & Hk). split; [done|]. simpl in *. done.
Qed.

End Engine.

Definition double_step : StepFunc (Value := Z) (Error := string) :=
  λ inputs, Ok (Some {[ "n" := Z.of_nat (size inputs) ]}).
Definition two_steps : Workflow (Value := Z) (Error := string) :=
  {| ID := "wf-1"; WStatus := StatusPending; Steps := ["a"; "b"]; Result := [] |}.
Definition two_engine : engine (Value := Z) (Error := string) :=
  RegisterStep "a" double_step (RegisterStep "b" double_step NewEngine).

Lemma Execute_inputs_witness :
  SRName <$> Result (Execute (λ _, false) two_steps two_engine).1.2 = ["a"; "b"].
Proof.
  pose proof (Execute_inputs (λ _, false) two_steps two_engine eq_refl) as H.
  destruct (Execute (λ _, false) two_steps two_engine) as [[e' w'] err] eqn:E.
  apply H. vm_compute in E. congruence.
Defined.

End Workflow.

Module Orchestrator.

Record Orchestrator := { maxAgents : Z; active : Z }.

Definition NewOrchestrator (max : Z) : Orchestrator :=
  {| maxAgents := if bool_decide (max ≤ 0) then 3 else max; active := 0 |}.

(** The guarded increment at the start of [DecomposeTask] and the deferred
    decrement at its end; the workflow runs in between. *)
Definition begin_task (o : Orchestrator) : option Orchestrator :=
  if bool_decide (maxAgents o ≤ active o) then None
  else Some {| maxAgents := maxAgents o; active := wrap64 (active o + 1) |}.
Definition end_task (o : Orchestrator) : Orchestrator :=
  {| maxAgents := maxAgents o; active := wrap64 (active o - 1) |}.

(** Tasks interleave: the state counts the tasks that are running. *)
Inductive task_step : Orchestrator * nat → Orchestrator * nat → Prop :=
| task_begins o o' n : begin_task o = Some o' → task_step (o, n) (o', S n)
| task_refused o n : begin_task o = None → task_step (o, n) (o, n)
| task_ends o n : task_step (o, S n) (end_task o, n).

Definition bound_inv (st : Orchestrator * nat) : Prop :=
  active st.1 = Z.of_nat st.2 ∧ Z.of_nat st.2 ≤ maxAgents st.1 ≤ max_int64 ∧ 0 < maxAgents st.1.

Lemma bound_inv_step st st' : task_step st st' → bound_inv st → bound_inv st'.
Proof.
  intros Hstep (H1 & H2 & H3). unfold bound_inv. destruct Hstep as [o o' n Hb| |o n]; simpl in *.
  - unfold begin_task in Hb. case_bool_decide; [done|]. simplify_eq/=.
    rewrite wrap64_id by (unfold is_int64, min_int64, max_int64 in *; lia). lia.
  - lia.
  - rewrite wrap64_id by (unfold is_int64, min_int64, max_int64 in *; lia). lia.
Qed.

(** However tasks interleave, at most the configured number run at once, and
    one is refused only when that many are running. *)
Theorem orchestrator_bound (max : Z) (o : Orchestrator) (n : nat) :
  max ≤ max_int64 →
  star task_step (NewOrchestrator max, 0%nat) (o, n) →
  Z.of_nat n ≤ maxAgents o ∧ (begin_task o = None ↔ Z.of_nat n = maxAgents o).
Proof.
  intros Hmax Hs.
  assert (bound_inv (o, n)) as (Ha & Hb & Hc).
  { refine (star_invariant task_step bound_inv bound_inv_step _ _ Hs _).
    unfold bound_inv, NewOrchestrator. simpl. case_bool_decide; unfold max_int64 in *; lia. }
  simpl in *.
  split; [lia|]. unfold begin_task. case_bool_decide; split; try done; lia.
Qed.

Lemma orchestrator_bound_witness :
  1 ≤ maxAgents (NewOrchestrator 1) ∧
  (begin_task {| maxAgents := 1; active := 1 |} = None).
Proof.
  split; [vm_compute; discriminate|].
  apply (orchestrator_bound 1 {| maxAgents := 1; active := 1 |} 1);
    [vm_compute; discriminate| |vm_compute; reflexivity].
  eapply star_step; [|apply star_refl]. apply task_begins. vm_compute. reflexivity.
Defined.

End Orchestrator.
