(* ===== verification/Health.v ===== *)
(** * Tool health (internal/health/history.go, checker.go)

    Module [History]: the last records of each tool.  Module [Checker]: one pass
    of the periodic check and its alerts. *)

From S2P Require Import Prelude GoStrings GoValues Caches.

Module History.

Definition StatusHealthy : string := "healthy".
Definition StatusDegraded : string := "degraded".
Definition StatusDown : string := "down".
Definition StatusUnknown : string := "unknown".

Record HealthRecord := {
  ToolID : string; HStatus : string; CheckedAt : Time; ResponseTime : string; HError : string;
}.
Definition with_tool (id : string) (r : HealthRecord) : HealthRecord := {|
  ToolID := id; HStatus := HStatus r; CheckedAt := CheckedAt r; ResponseTime := ResponseTime r;
  HError := HError r |}.

Record HistoryStore := { records : gmap string (list HealthRecord); maxLen : Z }.

Definition NewHistoryStore (n : Z) : HistoryStore :=
  {| records := ∅; maxLen := if bool_decide (n ≤ 0) then 10 else n |}.

Definition Add (toolID : string) (record : HealthRecord) (s : HistoryStore) : HistoryStore :=
  let rs := default [] (records s !! toolID) ++ [with_tool toolID record] in
  let rs := if bool_decide (Z.of_nat (length rs) > maxLen s)
            then drop (Z.to_nat (Z.of_nat (length rs) - maxLen s)) rs else rs in
  {| records := <[toolID := rs]> (records s); maxLen := maxLen s |}.

Definition GetHistory (toolID : string) (s : HistoryStore) : list HealthRecord :=
  default [] (records s !! toolID).

Definition failing (r : HealthRecord) : bool :=
  bool_decide (HStatus r = StatusDown) || bool_decide (HStatus r = StatusDegraded).

(** The failing records at the end of a list; the source counts them backwards. *)
Fixpoint count_failing (rev_records : list HealthRecord) : Z :=
  match rev_records with
  | [] => 0
  | r :: rs => if failing r then 1 + count_failing rs else 0
  end.
Definition ConsecutiveFailures (toolID : string) (s : HistoryStore) : Z :=
  count_failing (reverse (GetHistory toolID s)).

Definition UptimePercentage (toolID : string) (s : HistoryStore) : f64 :=
  let rs := GetHistory toolID s in
  match rs with
  | [] => f64_of_int 0
  | _ =>
    let healthy := Z.of_nat (length (filter (λ r, HStatus r = StatusHealthy) rs)) in
    f64_mul (f64_div (f64_of_int healthy) (f64_of_int (Z.of_nat (length rs)))) (f64_of_int 100)
  end.

Definition GetLatestStatus (toolID : string) (s : HistoryStore) : string :=
  match last (GetHistory toolID s) with Some r => HStatus r | None => StatusUnknown end.

(** ** The history as a function of what was added *)

Definition adds (l : list (string * HealthRecord)) (s : HistoryStore) : HistoryStore :=
  foldl (λ s tr, Add tr.1 tr.2 s) s l.
Definition added (toolID : string) (l : list (string * HealthRecord)) : list HealthRecord :=
  (λ tr, with_tool toolID tr.2) <$> filter (λ tr, tr.1 = toolID) l.

Lemma lastn_lastn_snoc {A} n (l : list A) x : lastn n (lastn n l ++ [x]) = lastn n (l ++ [x]).
Proof.
  destruct n as [|n]; [unfold lastn; rewrite !Nat.sub_0_r, !drop_all; done|].
  rewrite !lastn_snoc. f_equal. unfold lastn. rewrite length_drop, drop_drop. f_equal. lia.
Qed.

Lemma Add_lookup t r s id n :
  maxLen s = Z.of_nat n →
  GetHistory id (Add t r s) =
    (if decide (t = id) then lastn n (GetHistory id s ++ [with_tool t r]) else GetHistory id s).
Proof.
  intros Hn. unfold GetHistory, Add. simpl. destruct (decide (t = id)) as [<-|Hne].
  - rewrite lookup_insert_eq. simpl. set (rs := default [] (records s !! t) ++ [with_tool t r]).
    unfold lastn. case_bool_decide; [f_equal; lia|].
    by replace (length rs - n)%nat with 0%nat by lia.
  - by rewrite lookup_insert_ne.
Qed.

Lemma adds_spec n l id :
  (0 < n)%nat → GetHistory id (adds l (NewHistoryStore (Z.of_nat n))) = lastn n (added id l).
Proof.
  intros Hn.
  assert (∀ l, maxLen (adds l (NewHistoryStore (Z.of_nat n))) = Z.of_nat n) as Hm.
  { clear l. induction l as [|tr l IH] using rev_ind.
    - simpl. by rewrite bool_decide_eq_false_2 by lia.
    - unfold adds in *. by rewrite foldl_snoc. }
  induction l as [|[t r] l IH] using rev_ind; [done|].
  unfold adds, added in *. rewrite foldl_snoc, filter_app, fmap_app, filter_cons. cbn [fst snd].
  rewrite (Add_lookup t r _ id n) by apply Hm. rewrite IH.
  destruct (decide (t = id)) as [<-|Hne]; simpl.
  - by rewrite lastn_lastn_snoc.
  - by rewrite app_nil_r.
Qed.

Lemma count_failing_nonneg rs : 0 ≤ count_failing rs ≤ Z.of_nat (length rs).
Proof. induction rs as [|r rs IH]; simpl; [lia|]. destruct (failing r); lia. Qed.

Lemma count_failing_take n rs : count_failing (take n rs) = Z.min (Z.of_nat n) (count_failing rs).
Proof.
  revert rs. induction n as [|n IH]; intros [|r rs]; simpl; try done.
  - destruct (failing r); [|done]. pose proof (count_failing_nonneg rs). lia.
  - destruct (failing r); [rewrite IH; lia|lia].
Qed.

Lemma reverse_lastn {A} n (l : list A) : reverse (lastn n l) = take n (reverse l).
Proof.
  destruct (decide (length l ≤ n)%nat) as [Hle|Hgt].
  - rewrite lastn_all by done. rewrite take_ge; [done|]. rewrite length_reverse. lia.
  - destruct (lastn_split n l) as [a Ha]. pose proof (lastn_length n l) as Hl.
    rewrite Ha at 2. rewrite reverse_app.
    rewrite take_app_length'; [done|]. rewrite length_reverse. lia.
Qed.

(** After any additions the history of a tool is its last [maxLen] records in
    order, and its consecutive failures are those at the end of everything that
    was recorded, up to [maxLen]. *)
Theorem history_window (n : nat) (l : list (string * HealthRecord)) (id : string) :
  (0 < n)%nat →
  let s := adds l (NewHistoryStore (Z.of_nat n)) in
  GetHistory id s = lastn n (added id l) ∧
  ConsecutiveFailures id s = Z.min (Z.of_nat n) (count_failing (reverse (added id l))).
Proof.
  intros Hn s. unfold ConsecutiveFailures, s. rewrite adds_spec by done. split; [done|].
  by rewrite reverse_lastn, count_failing_take.
Qed.

Definition down_record : HealthRecord :=
  {| ToolID := ""; HStatus := StatusDown; CheckedAt := 0; ResponseTime := ""; HError := "exit" |}.

Lemma history_window_witness :
  ConsecutiveFailures "t" (adds (replicate 5 ("t", down_record)) (NewHistoryStore (Z.of_nat 3))) = 3.
Proof.
  rewrite (proj2 (history_window 3 (replicate 5 ("t", down_record)) "t" ltac:(lia))).
  vm_compute. reflexivity.
Defined.

End History.

Module Checker.
Import History.

Record MCPToolHealth := {
  MName : string; MStatus : string; LastPing : string; LastError : string; RestartCount : Z;
}.

Record HealthChecker := { history : HistoryStore; alertCount : Z }.

Definition NewHealthChecker (historyLen alerts : Z) : HealthChecker :=
  {| history := NewHistoryStore historyLen; alertCount := alerts |}.

Definition mcp_status (s : string) : string :=
  if bool_decide (s = "down") then StatusDown
  else if bool_decide (s = "unknown") then StatusUnknown
  else if bool_decide (s = "up") then StatusHealthy
  else StatusUnknown.

Inductive alarm := NoAlert | Alert (consecutive : Z) | DivideByZero.

(** One tool of [checkMCPHealth]: [consecutive % alertCount] panics when the
    threshold is zero. *)
Definition check_mcp_tool (now : Time) (hc : HealthChecker) (t : MCPToolHealth) : HealthChecker * alarm :=
  if bool_decide (MName t = "") then (hc, NoAlert)
  else
    let status := mcp_status (MStatus t) in
    let record := {| ToolID := MName t; HStatus := status; CheckedAt := now;
                     ResponseTime := LastPing t; HError := LastError t |} in
    let hc := {| history := Add (MName t) record (history hc); alertCount := alertCount hc |} in
    if bool_decide (status = StatusDown) then
      let consecutive := ConsecutiveFailures (MName t) (history hc) in
      if bool_decide (alertCount hc ≤ consecutive) then
        if bool_decide (alertCount hc = 0) then (hc, DivideByZero)
        else if bool_decide (Z.rem consecutive (alertCount hc) = 0) then (hc, Alert consecutive)
        else (hc, NoAlert)
      else (hc, NoAlert)
    else (hc, NoAlert).

(** One built-in tool of [checkAll], with the record its checker returned. *)
Definition check_builtin (hc : HealthChecker) (toolID : string) (record : HealthRecord) :
    HealthChecker * alarm :=
  if bool_decide (toolID = "") then (hc, NoAlert)
  else
    let hc := {| history := Add toolID record (history hc); alertCount := alertCount hc |} in
    let consecutive := ConsecutiveFailures toolID (history hc) in
    (hc, if bool_decide (alertCount hc ≤ consecutive) then Alert consecutive else NoAlert).

(** [BuiltinChecker.CheckToolHealth]: whether the context has ended, and what the
    repository returned for the tool's code. *)
Definition CheckToolHealth (now : Time) (elapsed : string) (ctx_err : bool)
    (code : result string string) (toolID : string) : HealthRecord :=
  let mk status err := {| ToolID := toolID; HStatus := status; CheckedAt := now;
                          ResponseTime := elapsed; HError := err |} in
  if ctx_err then mk StatusDown "context cancelled"
  else match code with
       | Err e => mk StatusDown e
       | Ok code =>
         if bool_decide (code = "") then mk StatusDegraded "tool code is empty" else mk StatusHealthy ""
       end.

(** A subprocess that stays down over [k] checks, and the alarms raised. *)
Fixpoint stays_down (now : Time) (t : MCPToolHealth) (k : nat) (hc : HealthChecker) :
    HealthChecker * list alarm :=
  match k with
  | O => (hc, [])
  | S k =>
    let '(hc, a) := check_mcp_tool now hc t in
    let '(hc, rest) := stays_down now t k hc in (hc, a :: rest)
  end.

Lemma consecutive_bound id s n : maxLen s = Z.of_nat n → (length (GetHistory id s) ≤ n)%nat →
  0 ≤ ConsecutiveFailures id s ≤ Z.of_nat n.
Proof.
  intros Hn Hl. unfold ConsecutiveFailures.
  pose proof (count_failing_nonneg (reverse (GetHistory id s))) as H. rewrite length_reverse in H. lia.
Qed.

(** After [m] failures in a row of a fresh tool the count is [m], up to the
    length of the history. *)
Definition down_for (n m : nat) (t : MCPToolHealth) (hc : HealthChecker) : Prop :=
  ∃ l, history hc = adds l (NewHistoryStore (Z.of_nat n)) ∧
    count_failing (reverse (added (MName t) l)) = Z.of_nat m.

Lemma check_down now t n m hc :
  (0 < n)%nat → 0 < alertCount hc → MName t ≠ "" → MStatus t = "down" → down_for n m t hc →
  let '(hc', a) := check_mcp_tool now hc t in
  down_for n (S m) t hc' ∧ alertCount hc' = alertCount hc ∧
  a = (let c := Z.min (Z.of_nat n) (Z.of_nat (S m)) in
       if bool_decide (alertCount hc ≤ c ∧ c mod alertCount hc = 0) then Alert c else NoAlert).
Proof.
  intros Hn Ha Hname Hst (l & Hl & Hc). unfold check_mcp_tool.
  rewrite (bool_decide_eq_false_2 (MName t = "")) by done.
  unfold mcp_status. rewrite Hst. rewrite !(bool_decide_eq_true_2 (_ = _)) by done.
  set (r := {| ToolID := _ |}).
  assert (Add (MName t) r (history hc) = adds (l ++ [(MName t, r)]) (NewHistoryStore (Z.of_nat n))) as Eh.
  { rewrite Hl. unfold adds. by rewrite foldl_snoc. }
  assert (count_failing (reverse (added (MName t) (l ++ [(MName t, r)]))) = Z.of_nat (S m)) as Em.
  { unfold added. rewrite filter_app, fmap_app, filter_cons. cbn [fst]. rewrite decide_True by done.
    rewrite reverse_app. simpl. unfold failing. simpl.
    fold (added (MName t) l). rewrite Hc. lia. }
  assert (down_for n (S m) t {| history := Add (MName t) r (history hc); alertCount := alertCount hc |}) as Hd
    by (exists (l ++ [(MName t, r)]); done).
  cbn [history alertCount].
  assert (ConsecutiveFailures (MName t) (Add (MName t) r (history hc)) =
          Z.min (Z.of_nat n) (Z.of_nat (S m))) as Ecf.
  { unfold ConsecutiveFailures. by rewrite Eh, adds_spec, reverse_lastn, count_failing_take, Em by done. }
  rewrite Ecf.
  set (c := Z.min (Z.of_nat n) (Z.of_nat (S m))) in *.
  rewrite (bool_decide_eq_false_2 (alertCount hc = 0)) by lia.
  rewrite Z.rem_mod_nonneg by lia.
  destruct (decide (alertCount hc ≤ c)) as [Hle|Hle].
  - rewrite (bool_decide_eq_true_2 (alertCount hc ≤ c)) by done.
    destruct (decide (c mod alertCount hc = 0)).
    + rewrite !bool_decide_eq_true_2 by done. done.
    + rewrite !bool_decide_eq_false_2 by tauto. done.
  - rewrite !bool_decide_eq_false_2 by tauto. done.
Qed.

Lemma stays_down_alarms now t n k : ∀ m hc,
  (0 < n)%nat → 0 < alertCount hc → MName t ≠ "" → MStatus t = "down" → down_for n m t hc →
  ∀ i, (i < k)%nat →
    (stays_down now t k hc).2 !! i =
      Some (let c := Z.min (Z.of_nat n) (Z.of_nat (m + S i)) in
            if bool_decide (alertCount hc ≤ c ∧ c mod alertCount hc = 0) then Alert c else NoAlert).
Proof.
  induction k as [|k IH]; intros m hc Hn Ha Hname Hst Hd i Hi; [lia|]. cbn [stays_down].
  pose proof (check_down now t n m hc Hn Ha Hname Hst Hd) as Hc.
  destruct (check_mcp_tool now hc t) as [hc' a]. destruct Hc as (Hd' & Hac & ->).
  specialize (IH (S m) hc' Hn). rewrite Hac in IH.
  destruct (stays_down now t k hc') as [hc'' rest]. destruct i as [|i]; simpl.
  - by replace (m + 1)%nat with (S m) by lia.
  - simpl in IH. rewrite IH by (done || lia). by replace (m + S (S i))%nat with (S (m + S i)) by lia.
Qed.

(** Alerts for a dead subprocess fall silent: with a history length that is no
    multiple of the threshold, the alert is raised at every multiple of the
    threshold up to the length, and never again after that, however long the
    subprocess stays down. *)
Theorem mcp_alerts_fall_silent (now : Time) (t : MCPToolHealth) (n : nat) (alerts : Z) (k i : nat) :
  (0 < n)%nat → 0 < alerts → Z.of_nat n mod alerts ≠ 0 → MName t ≠ "" → MStatus t = "down" →
  (i < k)%nat →
  let alarms := (stays_down now t k (NewHealthChecker (Z.of_nat n) alerts)).2 in
  (Z.of_nat (S i) ≤ Z.of_nat n → Z.of_nat (S i) mod alerts = 0 → alarms !! i = Some (Alert (Z.of_nat (S i)))) ∧
  (Z.of_nat n ≤ Z.of_nat (S i) → alarms !! i = Some NoAlert).
Proof.
  intros Hn Ha Hmod Hname Hst Hi alarms.
  assert (down_for n 0 t (NewHealthChecker (Z.of_nat n) alerts)) as Hd by (exists []; done).
  pose proof (stays_down_alarms now t n k 0 (NewHealthChecker (Z.of_nat n) alerts) Hn Ha Hname Hst Hd i Hi) as E. fold alarms in E.
  rewrite E. cbv zeta. simpl alertCount. rewrite Nat.add_0_l. split.
  - intros Hle Hm. rewrite Z.min_r by lia. rewrite bool_decide_eq_true_2; [done|]. split; [|done].
    apply Z.mod_divide in Hm as [q Hq]; [|lia]. assert (0 < q) by nia. nia.
  - intros Hge. rewrite Z.min_l by lia. rewrite bool_decide_eq_false_2; [done|]. tauto.
Qed.

Definition dead_tool : MCPToolHealth :=
  {| MName := "fetch"; MStatus := "down"; LastPing := ""; LastError := "exit"; RestartCount := 0 |}.

Lemma mcp_alerts_fall_silent_witness :
  (stays_down 0 dead_tool 50 (NewHealthChecker (Z.of_nat 10) 3)).2 !! 40%nat = Some NoAlert.
Proof.
  apply (mcp_alerts_fall_silent 0 dead_tool 10 3 50 40); try lia; done.
Defined.

End Checker.
