(* ===== verification/ToolRegistry.v ===== *)
(** * The registry of tools (internal/tools/registry.go) *)

From S2P Require Import Prelude GoStrings GoValues.

Module ToolRegistry.

Record ParamDef := { PName : string; PType : string; PDescription : string; Required : bool }.

Section Registry.
(** What a tool returns and how it fails. *)
Context {Out : Type}.

Definition Exec : Type := list (string * any) → result string Out.

(** A nil [Execute] is [None]. *)
Record ToolDefinition := {
  Name : string; Category : string; Description : string; Params : list ParamDef;
  Execute_ : option Exec;
}.

Definition ToolRegistry : Type := gmap string ToolDefinition.
Definition NewToolRegistry : ToolRegistry := ∅.

Definition toolKey (category name : string) : string := category +:+ ":" +:+ name.
Definition def_key (d : ToolDefinition) : string := toolKey (Category d) (Name d).

Inductive reg_error :=
| NameRequired
| CategoryRequired (name : string)
| NilExecute (name : string)
| Duplicate (name category : string)
| NotFound (name category : string).

Definition check_def (d : ToolDefinition) : option reg_error :=
  if bool_decide (Name d = "") then Some NameRequired
  else if bool_decide (Category d = "") then Some (CategoryRequired (Name d))
  else match Execute_ d with None => Some (NilExecute (Name d)) | Some _ => None end.

Definition Register (d : ToolDefinition) (r : ToolRegistry) : ToolRegistry * option reg_error :=
  match check_def d with
  | Some e => (r, Some e)
  | None =>
    match r !! def_key d with
    | Some _ => (r, Some (Duplicate (Name d) (Category d)))
    | None => (<[def_key d := d]> r, None)
    end
  end.

(** The validation loop of [RegisterAll]. *)
Fixpoint check_defs (defs : list ToolDefinition) : option reg_error :=
  match defs with
  | [] => None
  | d :: defs => match check_def d with Some e => Some e | None => check_defs defs end
  end.

(** The duplicate check against the registry and within the batch. *)
Fixpoint check_duplicates (existing : gset string) (defs : list ToolDefinition) : option reg_error :=
  match defs with
  | [] => None
  | d :: defs =>
    if decide (def_key d ∈ existing) then Some (Duplicate (Name d) (Category d))
    else check_duplicates ({[def_key d]} ∪ existing) defs
  end.

Definition RegisterAll (defs : list ToolDefinition) (r : ToolRegistry) : ToolRegistry * option reg_error :=
  match check_defs defs with
  | Some e => (r, Some e)
  | None =>
    match check_duplicates (dom r) defs with
    | Some e => (r, Some e)
    | None => (foldl (λ r d, <[def_key d := d]> r) r defs, None)
    end
  end.

Definition Get (category name : string) (r : ToolRegistry) : option ToolDefinition :=
  r !! toolKey category name.

(** [range] is the order in which Go ranges over the map. *)
Definition List_ (range : ToolRegistry → list (string * ToolDefinition)) (category : string)
    (r : ToolRegistry) : list ToolDefinition :=
  filter (λ d, category = "" ∨ Category d = category) ((range r).*2).

(** [Execute] and [ExecuteContext]; they differ in the deadline of the context. *)
Definition Execute (category name : string) (params : list (string * any)) (r : ToolRegistry) :
    result reg_error (result string Out) :=
  match Get category name r with
  | None => Err (NotFound name category)
  | Some d =>
    match Execute_ d with Some f => Ok (f params) | None => Err (NilExecute (Name d)) end
  end.

(** ** Lemmas *)

Lemma check_duplicates_None existing defs :
  check_duplicates existing defs = None ↔
  NoDup (def_key <$> defs) ∧ Forall (λ d, def_key d ∉ existing) defs.
Proof.
  revert existing. induction defs as [|d defs IH]; intros existing; simpl.
  - split; [|done]. intros _. split; constructor.
  - rewrite NoDup_cons, Forall_cons. case_decide as Hd; [split; [done|tauto]|]. rewrite IH, !Forall_forall.
    rewrite list_elem_of_fmap. split.
    + intros [Hnd Hall]. split_and!; [|done|done|].
      * intros (d' & E & Hd'). specialize (Hall d' Hd'). set_solver.
      * intros d' Hd'. specialize (Hall d' Hd'). set_solver.
    + intros [[Hni Hnd] [_ Hall]]. split; [done|]. intros d' Hd' Hin.
      apply elem_of_union in Hin as [Hin%elem_of_singleton|Hin]; [|by apply (Hall d')].
      apply Hni. exists d'. by rewrite Hin.
Qed.

Lemma insert_all_lookup defs (r : gmap string ToolDefinition) :
  NoDup (def_key <$> defs) →
  (∀ d, d ∈ defs → foldl (λ r d, <[def_key d := d]> r) r defs !! def_key d = Some d) ∧
  (∀ k, k ∉ def_key <$> defs → foldl (λ r d, <[def_key d := d]> r) r defs !! k = r !! k).
Proof.
  revert r. induction defs as [|d defs IH]; intros r Hnd; simpl; [split; [set_solver|done]|].
  rewrite fmap_cons in Hnd. apply NoDup_cons in Hnd as [Hd Hnd].
  destruct (IH (<[def_key d := d]> r) Hnd) as [IH1 IH2]. split.
  - intros d' [->|Hd']%elem_of_cons; [|by apply IH1]. by rewrite IH2, lookup_insert_eq.
  - intros k Hk. rewrite IH2; [|set_solver]. rewrite lookup_insert_ne; [done|set_solver].
Qed.

(** Batch registration is atomic: on an error the registry is unchanged, on
    success every definition of the batch is found under its category and name
    and every other entry is kept; it succeeds exactly when all definitions are
    complete and their keys are new and distinct. *)
Theorem RegisterAll_atomic (defs : list ToolDefinition) (r : ToolRegistry) :
  let '(r', err) := RegisterAll defs r in
  (err = None ↔
     check_defs defs = None ∧ NoDup (def_key <$> defs) ∧ Forall (λ d, r !! def_key d = None) defs) ∧
  match err with
  | Some _ => r' = r
  | None =>
    (∀ d, d ∈ defs → Get (Category d) (Name d) r' = Some d) ∧
    (∀ k, k ∉ def_key <$> defs → r' !! k = r !! k)
  end.
Proof.
  unfold RegisterAll. destruct (check_defs defs) as [e|] eqn:Ec; [split; [naive_solver|done]|].
  assert (Forall (λ d, def_key d ∉ dom r) defs ↔ Forall (λ d, r !! def_key d = None) defs) as Hd.
  { rewrite !Forall_forall. setoid_rewrite not_elem_of_dom. done. }
  destruct (check_duplicates (dom r) defs) as [e|] eqn:Ed.
  - split; [|done]. split; [done|]. rewrite <- Hd. intros (_ & H1 & H2).
    assert (check_duplicates (dom r) defs = None) by (by apply check_duplicates_None). congruence.
  - apply check_duplicates_None in Ed as [Hnd Hall]. split; [split; [|done]|].
    + intros _. rewrite <- Hd. done.
    + by apply insert_all_lookup.
Qed.

(** Keys of the form category:name keep tools apart when categories hold no
    colon, but not in general: with one they can make two different tools
    collide. *)
Theorem toolKey_injective (c1 n1 c2 n2 : string) :
  (str_mem ":" c1 = false → str_mem ":" c2 = false →
   toolKey c1 n1 = toolKey c2 n2 → c1 = c2 ∧ n1 = n2) ∧
  toolKey "a:b" "c" = toolKey "a" "b:c".
Proof.
  split; [|reflexivity]. unfold toolKey. revert c2.
  induction c1 as [|x c1 IH]; intros [|y c2] H1 H2 E; simpl in *.
  - by injection E.
  - rewrite !str_app_cons in E. injection E as <- _. by vm_compute in H2.
  - rewrite !str_app_cons in E. injection E as -> _. by vm_compute in H1.
  - rewrite !str_app_cons in E. injection E as -> E.
    apply orb_false_iff in H1 as [_ H1], H2 as [_ H2]. destruct (IH c2 H1 H2 E) as [-> ->]. done.
Qed.

End Registry.
End ToolRegistry.
