(* ===== verification/Sse.v ===== *)
(** * Server-sent events (internal/api/sse/sse.go)

    Module [Wire]: the text of an event and how a client reads it back.  Module
    [Broker]: the event loop with its channels as a transition system.  JSON
    marshalling of the payload is a parameter. *)

From Stdlib Require Import DecimalString.
From S2P Require Import Prelude GoStrings GoValues.

Module Wire.

(** [Data] is the payload after [json.Marshal]; [None] when it is nil. *)
Record Event := { Event_ : string; Data : option (result string string); ID : string; Retry : Z }.

(** The loop of [splitLines]: the line being read, reversed order avoided by
    carrying it as a string. *)
Fixpoint split_from (cur s : string) : list string :=
  match s with
  | "" => if bool_decide (cur = "") then [] else [cur]
  | String c s =>
    if bool_decide (c = newline) then cur :: split_from "" s
    else split_from (cur +:+ String c "") s
  end.
Definition splitLines (s : string) : list string :=
  match split_from "" s with [] => [s] | lines => lines end.

Definition nl : string := String newline "".

(** The lines written before the payload, and those of the payload. *)
Definition event_lines (e : Event) : list string :=
  (if bool_decide (ID e = "") then [] else ["id: " +:+ ID e]) ++
  (if bool_decide (Event_ e = "") || bool_decide (Event_ e = ":keepalive") then []
   else ["event: " +:+ Event_ e]) ++
  (if bool_decide (Retry e > 0) then ["retry: " +:+ Itoa (Retry e)] else []).
Definition data_lines (e : Event) : result string (list string) :=
  match Data e with
  | Some (Ok data) => Ok ((λ line, "data: " +:+ line) <$> splitLines data)
  | Some (Err err) => Err ("sse marshal event data: " +:+ err)
  | None => Ok (if bool_decide (Event_ e = ":keepalive") then [": keepalive"] else [])
  end.

(** Lines, each with its newline, before [rest]. *)
Fixpoint render_lines (lines : list string) (rest : string) : string :=
  match lines with [] => rest | l :: lines => l +:+ nl +:+ render_lines lines rest end.

(** The text written, and the error: a payload that cannot be marshalled leaves
    the lines before it on the wire, without the empty line. *)
Definition WriteEvent (e : Event) : string * option string :=
  match data_lines e with
  | Err err => (render_lines (event_lines e) "", Some err)
  | Ok data => (render_lines (event_lines e ++ data) nl, None)
  end.

(** ** The client

    The event-stream format of the HTML standard, for a stream that has begun.  A
    line ends at a line feed, a carriage return or the two together; a line the
    stream has not ended yet is not read. *)
Definition cr : ascii := "013".
Fixpoint stream_lines (cur s : string) : list string :=
  match s with
  | "" => []
  | String c s =>
    if bool_decide (c = newline) then cur :: stream_lines "" s
    else if bool_decide (c = cr) then
      match s with
      | String d s' =>
        if bool_decide (d = newline) then cur :: stream_lines "" s' else cur :: stream_lines "" s
      | "" => [cur]
      end
    else stream_lines (cur +:+ String c "") s
  end.

(** The fields of the block being read; the identifier and the reconnection time
    belong to the stream and outlive the block. *)
Record block := { b_type : string; b_data : list string; b_id : string; b_retry : string }.
Definition new_block (id retry : string) : block :=
  {| b_type := ""; b_data := []; b_id := id; b_retry := retry |}.

Definition drop_space (s : string) : string := match s with String " " s => s | _ => s end.

(** One line: the text before the first colon names the field (the whole line
    when there is none), one space after the colon is dropped.  A line that
    begins with a colon is a comment; an identifier with a zero byte and a
    reconnection time that is not of digits are ignored. *)
Definition set_field (b : block) (field value : string) : block :=
  if bool_decide (field = "event") then
    {| b_type := value; b_data := b_data b; b_id := b_id b; b_retry := b_retry b |}
  else if bool_decide (field = "data") then
    {| b_type := b_type b; b_data := b_data b ++ [value]; b_id := b_id b; b_retry := b_retry b |}
  else if bool_decide (field = "id") && negb (str_mem "000" value) then
    {| b_type := b_type b; b_data := b_data b; b_id := value; b_retry := b_retry b |}
  else if bool_decide (field = "retry") && str_all is_digit value then
    {| b_type := b_type b; b_data := b_data b; b_id := b_id b; b_retry := value |}
  else b.
Definition read_field (b : block) (line : string) : block :=
  match str_cut ":" line with
  | None => set_field b line ""
  | Some (field, value) => set_field b field (drop_space value)
  end.

(** An empty line ends the block: a message is dispatched when there was data;
    its type is "message" when none was given. *)
Record message := { m_type : string; m_data : string; m_id : string; m_retry : string }.
Definition dispatch (b : block) : list message :=
  match b_data b with
  | [] => []
  | lines => [{| m_type := if bool_decide (b_type b = "") then "message" else b_type b;
                 m_data := str_join nl lines; m_id := b_id b; m_retry := b_retry b |}]
  end.
Fixpoint read_lines (b : block) (lines : list string) : list message :=
  match lines with
  | [] => []
  | "" :: lines => dispatch b ++ read_lines (new_block (b_id b) (b_retry b)) lines
  | l :: lines => read_lines (read_field b l) lines
  end.

(** The messages of a text, from a state of the stream. *)
Definition read_stream (id retry : string) (s : string) : list message :=
  read_lines (new_block id retry) (stream_lines "" s).

(** ** Lemmas *)

(** Text a client reads as part of one line. *)
Definition line_char (c : ascii) : bool := negb (bool_decide (c = newline) || bool_decide (c = cr)).
Definition one_line (s : string) : Prop := str_all line_char s = true.

Lemma stream_line l rest : one_line l → ∀ cur,
  stream_lines cur (l +:+ nl +:+ rest) = (cur +:+ l) :: stream_lines "" rest.
Proof.
  unfold one_line. induction l as [|c l IH]; intros Hl cur.
  - unfold nl. rewrite str_app_nil_l, str_app_cons, !str_app_nil_l, str_app_nil_r. done.
  - cbn [str_all] in Hl. apply andb_true_iff in Hl as [Hc Hl].
    unfold line_char in Hc. apply negb_true_iff, orb_false_iff in Hc as [H1 H2].
    rewrite str_app_cons. cbn [stream_lines]. rewrite H1, H2, (IH Hl).
    rewrite str_app_assoc, str_app_cons, str_app_nil_l. done.
Qed.

Lemma stream_render lines rest : Forall one_line lines →
  stream_lines "" (render_lines lines nl +:+ rest) = lines ++ "" :: stream_lines "" rest.
Proof.
  induction 1 as [|l lines Hl Hls IH]; cbn [render_lines app].
  - exact (stream_line "" rest eq_refl "").
  - rewrite !str_app_assoc, stream_line, IH by done. done.
Qed.

Lemma one_line_app s t : one_line s → one_line t → one_line (s +:+ t).
Proof. unfold one_line. intros Hs Ht. by rewrite str_all_app, Hs, Ht. Qed.

Lemma split_from_lines s : str_mem cr s = false → ∀ cur, one_line cur → Forall one_line (split_from cur s).
Proof.
  induction s as [|c s IH]; intros Hs cur Hc; simpl.
  - case_bool_decide; repeat constructor. done.
  - simpl in Hs. apply orb_false_iff in Hs as [Hr Hs].
    destruct (bool_decide (c = newline)) eqn:Hn; decide_bools.
    + constructor; [done|]. by apply IH.
    + apply IH; [done|]. apply one_line_app; [done|]. unfold one_line. cbn. unfold line_char.
      decide_bools. by rewrite !bool_decide_eq_false_2 by congruence.
Qed.

Fixpoint ends_in_newline (s : string) : bool :=
  match s with
  | "" => false
  | String c "" => bool_decide (c = newline)
  | String _ s => ends_in_newline s
  end.

Lemma split_from_join s : ∀ cur,
  ends_in_newline s = false → s ≠ "" ∨ cur ≠ "" →
  split_from cur s ≠ [] ∧ str_join nl (split_from cur s) = cur +:+ s.
Proof.
  induction s as [|c s IH]; intros cur He Hne; simpl.
  - destruct Hne as [?|Hne]; [done|]. rewrite bool_decide_eq_false_2 by done.
    split; [done|]. simpl. by rewrite str_app_nil_r.
  - case_bool_decide as Hc.
    + subst c. destruct s as [|d s]; [done|].
      destruct (IH "" He) as [H1 H2]; [by left|]. split; [done|].
      rewrite str_join_cons, H2, str_app_nil_l by done. done.
    + assert (cur +:+ String c "" ≠ "") as Hcur by (destruct cur; discriminate).
      destruct (IH (cur +:+ String c "")) as [H1 H2]; [|by right|].
      { destruct s; [done|exact He]. }
      split; [done|]. rewrite H2, str_app_assoc, str_app_cons, str_app_nil_l. done.
Qed.

Lemma splitLines_lines s : str_mem cr s = false → Forall one_line (splitLines s).
Proof.
  intros Hs. unfold splitLines. pose proof (split_from_lines s Hs "" eq_refl) as H.
  destruct (split_from "" s) as [|l ls] eqn:E; [|done]. constructor; [|constructor].
  destruct s as [|c s]; [done|]. simpl in E. case_bool_decide; [done|].
  assert (∀ s cur, cur ≠ "" → split_from cur s ≠ []) as Hne.
  { clear. induction s as [|c s IH]; intros cur Hc; simpl.
    - by rewrite bool_decide_eq_false_2.
    - case_bool_decide; [done|]. apply IH. by destruct cur. }
  exfalso. revert E. apply Hne. done.
Qed.

Lemma splitLines_join s : ends_in_newline s = false → str_join nl (splitLines s) = s.
Proof.
  intros He. unfold splitLines. destruct (decide (s = "")) as [->|Hne]; [done|].
  destruct (split_from_join s "" He) as [H1 H2]; [by left|].
  by destruct (split_from "" s).
Qed.

Lemma str_cut_app c a b : str_mem c a = false → str_cut c (a +:+ String c b) = Some (a, b).
Proof. intros Ha. by apply str_cut_spec. Qed.

Lemma read_lines_cons b l rest : l ≠ "" → read_lines b (l :: rest) = read_lines (read_field b l) rest.
Proof. by destruct l. Qed.

Lemma read_field_cut name pre b value :
  pre = name +:+ ": " → str_mem ":" name = false → read_field b (pre +:+ value) = set_field b name value.
Proof.
  intros -> Hn. unfold read_field.
  assert ((name +:+ ": ") +:+ value = name +:+ String ":" (String " " value)) as ->
    by (rewrite str_app_assoc; done).
  by rewrite str_cut_app.
Qed.

Lemma read_data lines : ∀ b rest,
  read_lines b (((λ line, "data: " +:+ line) <$> lines) ++ rest) =
  read_lines {| b_type := b_type b; b_data := b_data b ++ lines; b_id := b_id b; b_retry := b_retry b |} rest.
Proof.
  induction lines as [|l lines IH]; intros b rest; [rewrite app_nil_r; by destruct b|].
  rewrite fmap_cons. cbn [app]. rewrite read_lines_cons by done.
  rewrite (read_field_cut "data" "data: ") by done. rewrite IH.
  change (set_field b "data" l) with
    {| b_type := b_type b; b_data := b_data b ++ [l]; b_id := b_id b; b_retry := b_retry b |}.
  cbn [b_type b_data b_id b_retry]. by rewrite <- (assoc_L (++)).
Qed.

(** A header line that is only written when there is something to write. *)
Lemma read_optional name pre (here : bool) b value rest :
  pre = name +:+ ": " → str_mem ":" name = false →
  read_lines b ((if here then [] else [pre +:+ value]) ++ rest)
  = read_lines (if here then b else set_field b name value) rest.
Proof.
  intros Hp Hn. destruct here; [done|]. cbn [app].
  rewrite read_lines_cons by (subst pre; destruct name; done). by erewrite read_field_cut.
Qed.

Lemma Itoa_one_line z : one_line (Itoa z).
Proof. eapply str_all_impl; [|apply Itoa_int_chars]. by intros [[] [] [] [] [] [] [] []]. Qed.
Lemma Itoa_digits z : z > 0 → str_all is_digit (Itoa z) = true.
Proof.
  intros Hz. destruct z as [|p|p]; [lia| |lia]. unfold Itoa. cbn.
  unfold NilZero.string_of_uint. destruct (Pos.to_uint p) eqn:E; [done|apply string_of_uint_digits..].
Qed.

(** The state of the stream after an event: an event without an identifier or
    a retry time leaves them. *)
Definition id_after (id : string) (e : Event) : string := if bool_decide (ID e = "") then id else ID e.
Definition retry_after (retry : string) (e : Event) : string :=
  if bool_decide (Retry e > 0) then Itoa (Retry e) else retry.

Lemma read_headers id retry e rest :
  Event_ e ≠ ":keepalive" → str_mem "000" (ID e) = false →
  read_lines (new_block id retry) (event_lines e ++ rest) =
  read_lines {| b_type := Event_ e; b_data := []; b_id := id_after id e; b_retry := retry_after retry e |} rest.
Proof.
  intros Hk Hz. unfold event_lines. rewrite (bool_decide_eq_false_2 (Event_ e = ":keepalive")), orb_false_r by done.
  rewrite <- !(assoc_L (++)).
  rewrite (read_optional "id" "id: "), (read_optional "event" "event: ") by done.
  assert (∀ b, read_lines b ((if bool_decide (Retry e > 0) then ["retry: " +:+ Itoa (Retry e)] else []) ++ rest)
    = read_lines (if bool_decide (Retry e > 0) then set_field b "retry" (Itoa (Retry e)) else b) rest) as Hr.
  { intros b. pose proof (read_optional "retry" "retry: " (negb (bool_decide (Retry e > 0))) b (Itoa (Retry e)) rest eq_refl eq_refl) as H.
    destruct (bool_decide (Retry e > 0)); exact H. }
  rewrite Hr. f_equal. unfold id_after, retry_after, set_field. cbn [bool_decide andb]. rewrite Hz.
  destruct (bool_decide (ID e = "")) eqn:E1; destruct (bool_decide (Event_ e = "")) eqn:E2;
    destruct (bool_decide (Retry e > 0)) eqn:E3; decide_bools; rewrite ?E2;
    cbn; rewrite ?Itoa_digits by done; done.
Qed.

(** C21: an event survives the wire.  Let the event be no keepalive, with a
    payload that json.Marshal turned into [data], a text without a carriage return
    and with no newline at its end (it contains neither, which the theorem does
    not need); let its type and its identifier be single lines, free of line feeds
    and carriage returns, and the identifier free of zero bytes.  Then, whatever
    the stream did before and brings after, a client that follows the event-stream
    format reads exactly one message from the text written: with the type of the
    event ("message" when it has none), with [data], and with its identifier and
    retry time where it has them; it then reads on in what follows. *)
Theorem WriteEvent_roundtrip (e : Event) (data text id retry rest : string) :
  Data e = Some (Ok data) → WriteEvent e = (text, None) →
  Event_ e ≠ ":keepalive" → one_line (Event_ e) → one_line (ID e) → str_mem "000" (ID e) = false →
  str_mem cr data = false → ends_in_newline data = false →
  read_stream id retry (text +:+ rest)
  = {| m_type := if bool_decide (Event_ e = "") then "message" else Event_ e; m_data := data;
       m_id := id_after id e; m_retry := retry_after retry e |}
    :: read_stream (id_after id e) (retry_after retry e) rest.
Proof.
  intros Hd Hw Hk He Hi Hz Hc Hn. unfold WriteEvent, data_lines in Hw. rewrite Hd in Hw.
  injection Hw as <-. unfold read_stream. rewrite stream_render.
  - rewrite <- !(assoc_L (++)), read_headers, read_data by done. cbn [read_lines]. unfold dispatch.
    cbn [b_type b_data b_id b_retry new_block app].
    pose proof (splitLines_join data Hn) as Hj.
    destruct (splitLines data) eqn:E; [|by rewrite Hj].
    unfold splitLines in E. by destruct (split_from "" data).
  - unfold event_lines. repeat (apply Forall_app; split).
    + destruct (bool_decide (ID e = "")); repeat constructor. by apply one_line_app.
    + destruct (bool_decide (Event_ e = "") || _); repeat constructor. by apply one_line_app.
    + destruct (bool_decide (Retry e > 0)); repeat constructor. apply one_line_app; [done|apply Itoa_one_line].
    + apply Forall_fmap. eapply Forall_impl; [by apply splitLines_lines|].
      intros l Hl. by apply one_line_app.
Qed.

(** An event the hypotheses leave out: a carriage return in the type ends the
    line for the client, who reads the rest of it as a line of its own. *)
Example carriage_return_splits :
  read_stream "" "" (WriteEvent {| Event_ := "a" +:+ String cr "data: x"; Data := Some (Ok "{}"); ID := ""; Retry := 0 |}).1
  = [{| m_type := "a"; m_data := "x" +:+ nl +:+ "{}"; m_id := ""; m_retry := "" |}].
Proof. reflexivity. Qed.

Definition sample_event : Event :=
  {| Event_ := "status"; Data := Some (Ok "{}"); ID := "evt-1"; Retry := 0 |}.

Lemma WriteEvent_roundtrip_witness :
  read_stream "evt-0" "" (("id: evt-1" +:+ nl +:+ "event: status" +:+ nl +:+ "data: {}" +:+ nl +:+ nl) +:+ ": keepalive")
  = [{| m_type := "status"; m_data := "{}"; m_id := "evt-1"; m_retry := "" |}].
Proof.
  apply (WriteEvent_roundtrip sample_event "{}" _ "evt-0" "" ": keepalive");
    vm_compute; reflexivity || discriminate.
Defined.

End Wire.

Module Broker.

Definition DefaultChannelBuffer : nat := 64.
Definition register_cap : nat := 16.
Definition unregister_cap : nat := 16.
Definition broadcast_cap : nat := 256.

(** A published event with its number, type and payload, or a keepalive, which
    has none.  The identifier on the wire is evt- and the number. *)
Inductive event := Msg (n : Z) (etype : string) (data : any) | Keepalive.
Definition number (e : event) : option Z := match e with Msg n _ _ => Some n | Keepalive => None end.

(** A client: the events in its channel, whether it is closed, and (for the
    statements only) the numbers ever put into its channel. *)
Record Client := { cid : string; events : list event; done_ : bool; delivered : list Z }.

(** Clients are shared between the broker and their streams, so they live in a
    heap; the broker's map holds their addresses.  [pending] and [targeted] are
    the publishers between drawing their number and sending; [running] is
    whether the event loop has returned.  The counter does not wrap: that takes
    2^63 events. *)
Record Broker := {
  heap : gmap nat Client; next : nat; clients : gmap string nat;
  register : list nat; unregister : list string; broadcast : list event;
  eventID : Z; pending : list event; targeted : list (string * event);
  quit : bool; running : bool;
}.

Definition NewBroker : Broker := {|
  heap := ∅; next := 0; clients := ∅; register := []; unregister := []; broadcast := [];
  eventID := 0; pending := []; targeted := []; quit := false; running := true |}.

Definition with_heap (h : gmap nat Client) (b : Broker) : Broker := {|
  heap := h; next := next b; clients := clients b; register := register b;
  unregister := unregister b; broadcast := broadcast b; eventID := eventID b;
  pending := pending b; targeted := targeted b; quit := quit b; running := running b |}.
Definition with_clients (m : gmap string nat) (b : Broker) : Broker := {|
  heap := heap b; next := next b; clients := m; register := register b;
  unregister := unregister b; broadcast := broadcast b; eventID := eventID b;
  pending := pending b; targeted := targeted b; quit := quit b; running := running b |}.
Definition with_queues (r : list nat) (u : list string) (q : list event) (b : Broker) : Broker := {|
  heap := heap b; next := next b; clients := clients b; register := r; unregister := u;
  broadcast := q; eventID := eventID b; pending := pending b; targeted := targeted b;
  quit := quit b; running := running b |}.
Definition with_publishers (n : Z) (p : list event) (t : list (string * event)) (b : Broker) : Broker := {|
  heap := heap b; next := next b; clients := clients b; register := register b;
  unregister := unregister b; broadcast := broadcast b; eventID := n; pending := p; targeted := t;
  quit := quit b; running := running b |}.
Definition with_flags (q r : bool) (b : Broker) : Broker := {|
  heap := heap b; next := next b; clients := clients b; register := register b;
  unregister := unregister b; broadcast := broadcast b; eventID := eventID b;
  pending := pending b; targeted := targeted b; quit := q; running := r |}.

(** The non-blocking send into a client's channel: a full channel drops. *)
Definition offer (e : event) (c : Client) : Client :=
  if bool_decide (length (events c) < DefaultChannelBuffer)%nat then
    {| cid := cid c; events := events c ++ [e]; done_ := done_ c;
       delivered := delivered c ++ option_list (number e) |}
  else c.

Definition close_client (c : Client) : Client :=
  {| cid := cid c; events := events c; done_ := true; delivered := delivered c |}.

(** An update of every client the broker's map points to. *)
Definition on_clients (f : Client → Client) (b : Broker) : Broker :=
  with_heap (map_imap (λ a c, Some (if decide (a ∈ (map_to_list (clients b)).*2) then f c else c)) (heap b)) b.

(** ** Calls of the clients of the broker *)

Definition Subscribe (id : string) (b : Broker) : Broker := {|
  heap := <[next b := {| cid := id; events := []; done_ := false; delivered := [] |}]> (heap b);
  next := S (next b); clients := clients b; register := register b ++ [next b];
  unregister := unregister b; broadcast := broadcast b; eventID := eventID b;
  pending := pending b; targeted := targeted b; quit := quit b; running := running b |}.
Definition Unsubscribe (id : string) (b : Broker) : Broker :=
  with_queues (register b) (unregister b ++ [id]) (broadcast b) b.

(** [Publish] and [PublishTo] draw a number, then send; another goroutine can
    run in between. *)
Definition publish_draw (etype : string) (data : any) (b : Broker) : Broker :=
  with_publishers (eventID b + 1) (pending b ++ [Msg (eventID b + 1) etype data]) (targeted b) b.
Definition publish_send (e : event) (before after : list event) (b : Broker) : Broker :=
  with_queues (register b) (unregister b) (broadcast b ++ [e])
    (with_publishers (eventID b) (before ++ after) (targeted b) b).
Definition publish_to_draw (id etype : string) (data : any) (b : Broker) : Broker :=
  with_publishers (eventID b + 1) (pending b)
    (targeted b ++ [(id, Msg (eventID b + 1) etype data)]) b.
Definition publish_to_send (id : string) (e : event) (before after : list (string * event))
    (b : Broker) : Broker :=
  let b := with_publishers (eventID b) (pending b) (before ++ after) b in
  match clients b !! id with
  | None => b
  | Some a => with_heap (alter (offer e) a (heap b)) b
  end.

(** [Close] closes the quit channel, then, under the lock, every client. *)
Definition close_quit (b : Broker) : Broker := with_flags true (running b) b.
Definition close_clients (b : Broker) : Broker := with_clients ∅ (on_clients close_client b).

(** ** The cases of the event loop *)

Definition loop_register (a : nat) (rest : list nat) (b : Broker) : Broker :=
  let b := with_queues rest (unregister b) (broadcast b) b in
  match heap b !! a with
  | Some c => with_clients (<[cid c := a]> (clients b)) b
  | None => b
  end.
Definition loop_unregister (id : string) (rest : list string) (b : Broker) : Broker :=
  let b := with_queues (register b) rest (broadcast b) b in
  match clients b !! id with
  | Some a => with_clients (delete id (clients b)) (with_heap (alter close_client a (heap b)) b)
  | None => b
  end.
Definition loop_broadcast (e : event) (rest : list event) (b : Broker) : Broker :=
  on_clients (offer e) (with_queues (register b) (unregister b) rest b).
Definition loop_keepalive (b : Broker) : Broker := on_clients (offer Keepalive) b.
Definition loop_exit (b : Broker) : Broker := with_flags (quit b) false b.

(** A stream takes the first event of its channel. *)
Definition receive (a : nat) (b : Broker) : Broker :=
  with_heap (alter (λ c, {| cid := cid c; events := tail (events c); done_ := done_ c;
                            delivered := delivered c |}) a (heap b)) b.

(** The loop's select picks any ready case, so that after the quit channel is
    closed it may serve other cases before it returns. *)
Inductive broker_step : Broker → Broker → Prop :=
| step_subscribe id b : (length (register b) < register_cap)%nat → broker_step b (Subscribe id b)
| step_unsubscribe id b : (length (unregister b) < unregister_cap)%nat → broker_step b (Unsubscribe id b)
| step_draw etype data b : broker_step b (publish_draw etype data b)
| step_send e before after b :
    pending b = before ++ e :: after → (length (broadcast b) < broadcast_cap)%nat →
    broker_step b (publish_send e before after b)
| step_to_draw id etype data b : broker_step b (publish_to_draw id etype data b)
| step_to_send id e before after b :
    targeted b = before ++ (id, e) :: after → broker_step b (publish_to_send id e before after b)
| step_close_quit b : broker_step b (close_quit b)
| step_close_clients b : quit b = true → broker_step b (close_clients b)
| step_register a rest b : running b = true → register b = a :: rest → broker_step b (loop_register a rest b)
| step_unregister id rest b :
    running b = true → unregister b = id :: rest → broker_step b (loop_unregister id rest b)
| step_broadcast e rest b :
    running b = true → broadcast b = e :: rest → broker_step b (loop_broadcast e rest b)
| step_keepalive b : running b = true → broker_step b (loop_keepalive b)
| step_exit b : running b = true → quit b = true → broker_step b (loop_exit b)
| step_receive a b : broker_step b (receive a b).

(** ** At most once *)

Definition on_the_way (b : Broker) : list Z := omap number (pending b ++ (targeted b).*2 ++ broadcast b).

(** Channels are within bounds, numbers on the way are distinct and drawn, and no
    client was given a number twice or one that is still on the way. *)
Record client_ok (b : Broker) (c : Client) : Prop := {
  ok_len : (length (events c) ≤ DefaultChannelBuffer)%nat;
  ok_once : NoDup (delivered c);
  ok_drawn : Forall (λ n, n ≤ eventID b) (delivered c);
  ok_fresh : ∀ n, n ∈ delivered c → n ∉ on_the_way b;
}.
Record broker_inv (b : Broker) : Prop := {
  inv_way : NoDup (on_the_way b);
  inv_drawn : Forall (λ n, n ≤ eventID b) (on_the_way b);
  inv_queue : (length (broadcast b) ≤ broadcast_cap)%nat;
  inv_clients : map_Forall (λ _, client_ok b) (heap b);
}.

Lemma client_ok_mono b b' c :
  client_ok b c → eventID b ≤ eventID b' →
  (∀ n, n ∈ on_the_way b' → n ∈ on_the_way b ∨ eventID b < n) → client_ok b' c.
Proof.
  intros [H1 H2 H3 H4] He Hw. split; [done|done| |].
  - eapply Forall_impl; [done|]. simpl. lia.
  - intros n Hn Hin. destruct (Hw n Hin) as [?|Hlt]; [by apply (H4 n)|].
    rewrite Forall_forall in H3. specialize (H3 n Hn). simpl in H3. lia.
Qed.

Lemma offer_ok b e c :
  client_ok b c →
  (∀ n, number e = Some n → n ≤ eventID b ∧ n ∉ delivered c ∧ n ∉ on_the_way b) →
  client_ok b (offer e c).
Proof.
  intros [H1 H2 H3 H4] He. unfold offer. case_bool_decide as Hl; [|done].
  destruct (number e) as [n|] eqn:En; split; simpl; rewrite ?app_nil_r; try done.
  - rewrite length_app. simpl. lia.
  - destruct (He n eq_refl) as (_ & Hn & _). apply NoDup_app. split_and!; [done| |apply NoDup_singleton].
    intros x Hx ->%list_elem_of_singleton. done.
  - apply Forall_app. split; [done|]. constructor; [|constructor]. by destruct (He n eq_refl).
  - intros x [Hx| ->%list_elem_of_singleton]%elem_of_app; [by apply H4|]. by destruct (He n eq_refl) as (_ & _ & ?).
  - rewrite length_app. simpl. lia.
Qed.

Lemma close_ok b c : client_ok b c → client_ok b (close_client c).
Proof. intros [H1 H2 H3 H4]. by split. Qed.

(** An update of clients that keeps them well formed keeps the heap so. *)
Lemma on_clients_ok f b b' :
  map_Forall (λ _ c, client_ok b' c ∧ client_ok b' (f c)) (heap b) →
  map_Forall (λ _, client_ok b') (heap (on_clients f b)).
Proof.
  intros Hall a c. unfold on_clients. simpl. rewrite map_lookup_imap.
  destruct (heap b !! a) as [c0|] eqn:E; simpl; [|done]. intros [= <-].
  destruct (Hall a c0 E). by case_decide.
Qed.

Lemma alter_ok f a b b' :
  map_Forall (λ _ c, client_ok b' c ∧ client_ok b' (f c)) (heap b) →
  map_Forall (λ _, client_ok b') (alter f a (heap b)).
Proof.
  intros Hall a' c. destruct (decide (a = a')) as [<-|Hne].
  - rewrite lookup_alter_eq. destruct (heap b !! a) as [c0|] eqn:E; simpl; [|done]. intros [= <-].
    by destruct (Hall a c0 E).
  - rewrite lookup_alter_ne by done. intros E. by destruct (Hall a' c E).
Qed.

Lemma heap_impl (P Q : Client → Prop) (h : gmap nat Client) :
  (∀ c, P c → Q c) → map_Forall (λ _, P) h → map_Forall (λ _, Q) h.
Proof. intros HPQ Hh a c E. by apply HPQ, (Hh a). Qed.

(** A step that draws no number and delivers none only has to keep the clients. *)
Lemma inv_same b b' :
  broker_inv b → eventID b' = eventID b → on_the_way b' ≡ₚ on_the_way b →
  (length (broadcast b') ≤ broadcast_cap)%nat →
  map_Forall (λ _, client_ok b) (heap b') → broker_inv b'.
Proof.
  intros [H1 H2 _ H4] E1 Ew Hq Hh. split; rewrite ?Ew, ?E1; try done.
  revert Hh. apply heap_impl. intros c Hc. apply (client_ok_mono b); [done|lia|].
  intros n. rewrite Ew. auto.
Qed.

(** A step that draws the next number and puts it on the way. *)
Lemma inv_drawing b b' :
  broker_inv b → eventID b' = eventID b + 1 → on_the_way b' ≡ₚ (eventID b + 1) :: on_the_way b →
  broadcast b' = broadcast b → heap b' = heap b → broker_inv b'.
Proof.
  intros [H1 H2 H3 H4] E1 Ew Eq Eh.
  assert ((eventID b + 1) ∉ on_the_way b) as Hn.
  { intros Hin. rewrite Forall_forall in H2. specialize (H2 _ Hin). simpl in H2. lia. }
  split; rewrite ?Ew, ?E1, ?Eq, ?Eh; try done.
  - by constructor.
  - constructor; [lia|]. eapply Forall_impl; [done|]. simpl. lia.
  - revert H4. apply heap_impl. intros c Hc. apply (client_ok_mono b); [done|lia|].
    intros n. rewrite Ew, elem_of_cons. intros [->|?]; [right; lia|by left].
Qed.

(** A step that takes an event off the way may offer it to clients. *)
Lemma delivery_ok b b' e c :
  broker_inv b → eventID b' = eventID b →
  on_the_way b ≡ₚ option_list (number e) ++ on_the_way b' →
  client_ok b c → client_ok b' c ∧ client_ok b' (offer e c).
Proof.
  intros [H1 H2 _ _] E1 Ew Hc. rewrite Ew in H1, H2.
  apply NoDup_app in H1 as (_ & Hdis & _). apply Forall_app in H2 as [He _].
  assert (client_ok b' c) as Hok.
  { apply (client_ok_mono b); [done|lia|]. intros n Hn. left. rewrite Ew, elem_of_app. auto. }
  split; [done|]. apply offer_ok; [done|]. intros n Hn. rewrite Hn in *. simpl in *. split_and!.
  - apply Forall_cons in He as [? _]. lia.
  - intros Hd. apply (ok_fresh _ _ Hc n Hd). rewrite Ew. by left.
  - apply Hdis. by left.
Qed.

Lemma inv_delivery b b' e :
  broker_inv b → eventID b' = eventID b →
  on_the_way b ≡ₚ option_list (number e) ++ on_the_way b' →
  (length (broadcast b') ≤ broadcast_cap)%nat →
  map_Forall (λ _, client_ok b') (heap b') → broker_inv b'.
Proof.
  intros [H1 H2 _ _] E1 Ew Hq Hh. rewrite Ew in H1, H2. apply NoDup_app in H1 as (_ & _ & H1).
  apply Forall_app in H2 as [_ H2]. by split; rewrite ?E1.
Qed.

Lemma inv_broadcast e rest b :
  broadcast b = e :: rest → broker_inv b → broker_inv (loop_broadcast e rest b).
Proof.
  intros Hb Hi. set (b1 := loop_broadcast e rest b).
  assert (on_the_way b ≡ₚ option_list (number e) ++ on_the_way b1) as Ew.
  { unfold on_the_way. simpl. rewrite Hb, (assoc_L (++)), <- Permutation_middle, (assoc_L (++)).
    simpl. by destruct (number e). }
  apply (inv_delivery b b1 e); try done.
  - pose proof (inv_queue _ Hi) as Hq. rewrite Hb in Hq. simpl in *. lia.
  - apply on_clients_ok. intros a c Hc. apply (delivery_ok b); try done. by apply (inv_clients _ Hi a).
Qed.

Lemma inv_publish_to id e before after b :
  targeted b = before ++ (id, e) :: after → broker_inv b →
  broker_inv (publish_to_send id e before after b).
Proof.
  intros Ht Hi. set (b1 := publish_to_send id e before after b).
  assert (eventID b1 = eventID b ∧ pending b1 = pending b ∧ targeted b1 = before ++ after ∧
          broadcast b1 = broadcast b) as (E1 & E2 & E3 & E4)
    by (unfold b1, publish_to_send; by case_match).
  assert (on_the_way b ≡ₚ option_list (number e) ++ on_the_way b1) as Ew.
  { unfold on_the_way. rewrite E2, E3, E4, Ht, !fmap_app, fmap_cons. simpl.
    rewrite <- (assoc_L (++)). simpl. rewrite !(assoc_L (++)), <- Permutation_middle, <- !(assoc_L (++)).
    simpl. by destruct (number e). }
  apply (inv_delivery b b1 e); try done; [rewrite E4; apply (inv_queue _ Hi)|].
  assert (map_Forall (λ _ c, client_ok b1 c ∧ client_ok b1 (offer e c)) (heap b)) as Hall.
  { intros a c Hc. apply (delivery_ok b); try done. by apply (inv_clients _ Hi a). }
  unfold b1 at 2, publish_to_send. simpl. destruct (clients b !! id) as [a|]; simpl.
  - by apply alter_ok.
  - intros a c Hc. by destruct (Hall a c Hc).
Qed.

Lemma way_snoc {A} (e : A) (xs ys zs : list A) : xs ++ ys ++ zs ++ [e] ≡ₚ e :: xs ++ ys ++ zs.
Proof. rewrite !(assoc_L (++)). by rewrite (Permutation_app_comm _ [e]). Qed.

Lemma broker_inv_step b b' : broker_step b b' → broker_inv b → broker_inv b'.
Proof.
  intros Hs Hi. pose proof (inv_clients _ Hi) as Hc. pose proof (inv_queue _ Hi) as Hq. destruct Hs.
  - apply (inv_same b); try done. simpl. apply map_Forall_insert_2; [|done].
    split; simpl; [lia|constructor|constructor|]. intros n Hn%elem_of_nil. done.
  - by apply (inv_same b).
  - apply (inv_drawing b); try done. unfold on_the_way. simpl. rewrite <- (assoc_L (++)). simpl.
    by rewrite <- Permutation_middle.
  - apply (inv_same b); try done; [|simpl; rewrite length_app; simpl; lia].
    unfold on_the_way. cbn [pending targeted broadcast publish_send with_queues with_publishers].
    rewrite H, way_snoc. f_equiv. rewrite <- !(assoc_L (++)). by apply Permutation_middle.
  - apply (inv_drawing b); try done. unfold on_the_way. simpl. rewrite fmap_app, <- (assoc_L (++)).
    simpl. by rewrite !(assoc_L (++)), <- Permutation_middle.
  - by apply inv_publish_to.
  - by apply (inv_same b).
  - apply (inv_same b); try done. apply (on_clients_ok close_client b). intros a c E.
    specialize (Hc a c E). split; [done|by apply close_ok].
  - apply (inv_same b); try done; unfold loop_register; by case_match.
  - apply (inv_same b); try done; unfold loop_unregister; case_match; try done.
    simpl. apply (alter_ok close_client _ b). intros a' c E. specialize (Hc a' c E).
    split; [done|by apply close_ok].
  - by apply inv_broadcast.
  - apply (inv_same b); try done. apply (on_clients_ok (offer Keepalive) b). intros a c E.
    specialize (Hc a c E). split; [done|]. by apply offer_ok.
  - by apply (inv_same b).
  - apply (inv_same b); try done. simpl. apply (alter_ok _ a b). intros a' c E.
    specialize (Hc a' c E). split; [done|]. destruct Hc as [H1 H2 H3 H4]. split; simpl; try done.
    destruct (events c); simpl in *; lia.
Qed.

(** C15: in every interleaving of subscribers, publishers and the event loop, no
    client channel exceeds its 64 events and no client is given the same event
    twice. *)
Theorem broker_at_most_once (b : Broker) (a : nat) (c : Client) :
  star broker_step NewBroker b → heap b !! a = Some c →
  (length (events c) ≤ 64)%nat ∧ NoDup (delivered c) ∧ Forall (λ n, n ≤ eventID b) (delivered c).
Proof.
  intros Hs Hc.
  assert (broker_inv b) as Hi.
  { refine (star_invariant broker_step broker_inv broker_inv_step _ _ Hs _).
    split; simpl; [constructor|constructor|lia|apply map_Forall_empty]. }
  destruct (inv_clients _ Hi a c Hc) as [H1 H2 H3 _]. done.
Qed.

(** One client, registered. *)
Definition one_client : Broker := loop_register 0 [] (Subscribe "c" NewBroker).
Lemma one_client_reachable : star broker_step NewBroker one_client.
Proof.
  eapply star_step; [apply (step_subscribe "c"); apply Nat.ltb_lt; vm_compute; reflexivity|].
  eapply star_step; [by apply (step_register 0 [])|]. apply star_refl.
Qed.

Lemma broker_at_most_once_witness : (length (events (offer Keepalive
  {| cid := "c"; events := []; done_ := false; delivered := [] |})) ≤ 64)%nat.
Proof.
  apply (broker_at_most_once (loop_keepalive one_client) 0); [|vm_compute; reflexivity].
  eapply star_trans; [exact one_client_reachable|].
  eapply star_step; [by apply step_keepalive|]. apply star_refl.
Defined.

(** The numbers of a client's events need not increase: a targeted event
    overtakes a broadcast one that waits in the queue, although the identifiers
    are described as monotonically increasing. *)
Theorem event_numbers_out_of_order :
  ∃ b c, star broker_step NewBroker b ∧ heap b !! 0%nat = Some c ∧
    events c = [Msg 2 "second" (AnyStr ""); Msg 1 "first" (AnyStr "")].
Proof.
  eexists _, _. split.
  - eapply star_trans; [exact one_client_reachable|].
    eapply star_step; [apply (step_draw "first" (AnyStr ""))|].
    eapply star_step; [apply (step_send (Msg 1 "first" (AnyStr "")) [] []); [reflexivity|apply Nat.ltb_lt; vm_compute; reflexivity]|].
    eapply star_step; [apply (step_to_draw "c" "second" (AnyStr ""))|].
    eapply star_step; [by apply (step_to_send "c" (Msg 2 "second" (AnyStr "")) [] [])|].
    eapply star_step; [by apply (step_broadcast (Msg 1 "first" (AnyStr "")) [])|]. apply star_refl.
  - split; vm_compute; reflexivity.
Qed.

(** A client that subscribes under an identifier already in use displaces the
    first one without closing it: closing the broker then leaves the first
    client open, though the event loop has returned. *)
Theorem displaced_client_stays_open :
  ∃ b c, star broker_step NewBroker b ∧ quit b = true ∧ running b = false ∧ clients b = ∅ ∧
    heap b !! 0%nat = Some c ∧
    done_ c = false ∧ (∃ c', heap b !! 1%nat = Some c' ∧ done_ c' = true).
Proof.
  eexists _, _. split.
  - eapply star_trans; [exact one_client_reachable|].
    eapply star_step; [apply (step_subscribe "c"); apply Nat.ltb_lt; vm_compute; reflexivity|].
    eapply star_step; [by apply (step_register 1 [])|].
    eapply star_step; [apply step_close_quit|].
    eapply star_step; [by apply step_close_clients|].
    eapply star_step; [by apply step_exit|]. apply star_refl.
  - split_and!; [vm_compute; reflexivity..|]. eexists. split; vm_compute; reflexivity.
Qed.

(** A client that registers while the broker is closing is never closed: the
    loop may serve the registration after [Close] has closed the clients it
    knew, and then return. *)
Theorem late_client_stays_open :
  ∃ b c, star broker_step NewBroker b ∧ quit b = true ∧ running b = false ∧
    heap b !! 0%nat = Some c ∧ done_ c = false.
Proof.
  eexists _, _. split.
  - eapply star_step; [apply (step_subscribe "c"); apply Nat.ltb_lt; vm_compute; reflexivity|].
    eapply star_step; [apply step_close_quit|].
    eapply star_step; [by apply step_close_clients|].
    eapply star_step; [by apply (step_register 0 [])|].
    eapply star_step; [by apply step_exit|]. apply star_refl.
  - split_and!; vm_compute; reflexivity.
Qed.

End Broker.
