(* ===== verification/Tokens.v ===== *)
(** * Secrets: API-key hashes, encrypted values and session tokens

    Module [Hex] is [encoding/hex]; [ApiKeyHash] models auth/hash.go, [AesGcm]
    crypto/aesgcm.go and [Jwt] auth/jwt.go.  The primitives are parameters:
    argon2 is a function, AES-GCM the class [Aead] and the token library the
    class [JwtLib], each with the documented laws the code relies on.  Random
    bytes are an argument, [None] when the generator fails. *)

From S2P Require Import Prelude GoStrings Cursor.

(** ** [encoding/hex] *)
Module Hex.

Definition hex_digit (n : nat) : ascii :=
  default "0"%char (String.get n "0123456789abcdef").
Definition hex_val (c : ascii) : option nat :=
  if is_digit c then Some (nat_of_ascii c - 48)%nat
  else if in_range "a" "f" c then Some (nat_of_ascii c - 87)%nat
  else if in_range "A" "F" c then Some (nat_of_ascii c - 55)%nat
  else None.

Fixpoint EncodeToString (b : string) : string :=
  match b with
  | "" => ""
  | String c b' =>
    String (hex_digit (nat_of_ascii c / 16)%nat)
      (String (hex_digit (nat_of_ascii c mod 16)%nat) (EncodeToString b'))
  end.

Fixpoint DecodeString (s : string) : option string :=
  match s with
  | "" => Some ""
  | String hi (String lo s') =>
    h ← hex_val hi; l ← hex_val lo; b ← DecodeString s';
    Some (String (ascii_of_nat (16 * h + l)) b)
  | _ => None
  end.

Definition is_hex_char (c : ascii) : bool := is_digit c || in_range "a" "f" c.

Lemma hex_byte c :
  hex_val (hex_digit (nat_of_ascii c / 16)) = Some (nat_of_ascii c / 16)%nat ∧
  hex_val (hex_digit (nat_of_ascii c mod 16)) = Some (nat_of_ascii c mod 16)%nat ∧
  ascii_of_nat (16 * (nat_of_ascii c / 16) + nat_of_ascii c mod 16) = c.
Proof. by destruct c as [[] [] [] [] [] [] [] []]. Qed.

Lemma hex_digit_char c :
  is_hex_char (hex_digit (nat_of_ascii c / 16)) = true ∧
  is_hex_char (hex_digit (nat_of_ascii c mod 16)) = true.
Proof. by destruct c as [[] [] [] [] [] [] [] []]. Qed.

#[local] Arguments hex_val : simpl never.
#[local] Arguments hex_digit : simpl never.

Lemma hex_Decode_Encode b : DecodeString (EncodeToString b) = Some b.
Proof.
  induction b as [|c b IH]; [done|]. destruct (hex_byte c) as (Hh & Hl & Hc).
  cbn [EncodeToString DecodeString]. rewrite Hh, Hl, IH.
  cbn [mbind option_bind]. by rewrite Hc.
Qed.

Lemma Encode_length b : String.length (EncodeToString b) = (2 * String.length b)%nat.
Proof. induction b as [|c b IH]; [done|]. cbn [EncodeToString String.length]. rewrite IH. lia. Qed.

Lemma Encode_chars b : str_all is_hex_char (EncodeToString b) = true.
Proof.
  induction b as [|c b IH]; [done|]. destruct (hex_digit_char c) as [Hh Hl].
  cbn [EncodeToString str_all]. by rewrite Hh, Hl, IH.
Qed.

Lemma Encode_app a b : EncodeToString (a +:+ b) = EncodeToString a +:+ EncodeToString b.
Proof.
  induction a as [|c a IH]; [done|]. rewrite str_app_cons. cbn [EncodeToString].
  by rewrite IH, !str_app_cons.
Qed.
End Hex.

(** ** Hashed API keys (auth/hash.go) *)
Module ApiKeyHash.

Definition argonMemory : Z := 64 * 1024.
Definition argonTime : Z := 1.
Definition argonThreads : Z := 4.
Definition argonKeyLen : Z := 32.
Definition argonSaltLen : nat := 16.

Inductive hash_error :=
| SaltFailed
| InvalidFormat (parts : nat)
| UnexpectedAlgorithm (alg : string)
| UnexpectedVersion (v : string)
| BadSalt
| BadHash.

Section Argon2.
(** [argon2.IDKey(key, salt, time, memory, threads, keyLen)] and
    [argon2.Version]. *)
Context (IDKey : string → string → Z → Z → Z → Z → string) (argon2_Version : Z).

Definition derive (key salt : string) : string :=
  IDKey key salt argonTime argonMemory argonThreads argonKeyLen.

(** The salt is the generator's answer to a request for [argonSaltLen] bytes. *)
Definition HashAPIKey (salt : option string) (key : string) : result hash_error string :=
  match salt with
  | None => Err SaltFailed
  | Some salt =>
    let hash := derive key salt in
    let b64Salt := Base64.EncodeToString false salt in
    let b64Hash := Base64.EncodeToString false hash in
    Ok ("$argon2id$v=" +:+ Itoa argon2_Version +:+ "$m=" +:+ Itoa argonMemory +:+
        ",t=" +:+ Itoa argonTime +:+ ",p=" +:+ Itoa argonThreads +:+
        "$" +:+ b64Salt +:+ "$" +:+ b64Hash)
  end.

Definition VerifyAPIKey (key encodedHash : string) : result hash_error bool :=
  match str_split "$" encodedHash with
  | [p0; p1; p2; p3; p4; p5] =>
    if negb (bool_decide (p1 = "argon2id")) then Err (UnexpectedAlgorithm p1)
    else if negb (bool_decide (p2 = "v=" +:+ Itoa argon2_Version)) then Err (UnexpectedVersion p2)
    else match Base64.DecodeString false p4 with
    | None => Err BadSalt
    | Some salt =>
      match Base64.DecodeString false p5 with
      | None => Err BadHash
      | Some storedHash =>
        let computedHash := derive key salt in
        if negb (bool_decide (String.length storedHash = String.length computedHash)) then Ok false
        else Ok (bool_decide (storedHash = computedHash))
      end
    end
  | parts => Err (InvalidFormat (length parts))
  end.

(** Base64 text holds no separator of the encoded form. *)
Lemma b64_no_dollar s : str_mem "$" (Base64.EncodeToString false s) = false.
Proof.
  assert (∀ l, str_mem "$" (String.string_of_list_ascii l) = bool_decide ("$"%char ∈ l)) as Hm.
  { induction l as [|c l IH]; [done|]. simpl. rewrite IH.
    apply Bool.eq_iff_eq_true. rewrite orb_true_iff, !bool_decide_eq_true, elem_of_cons.
    done. }
  assert (∀ s, Base64.b64_char s ≠ "$"%char) as Hc
    by (by intros [[] [] [] [] [] []]).
  assert (∀ l, Forall (λ c, c ≠ "$"%char) (Base64.enc false l)) as Hf.
  { intros l. induction l as [|a|a b|a b c r IH] using Base64.list_ind3;
      cbn [Base64.enc app]; repeat constructor; auto. }
  unfold Base64.EncodeToString. rewrite Hm. apply bool_decide_eq_false_2. intros Hin.
  by apply (proj1 (Forall_forall _ _) (Hf (String.list_ascii_of_string s)) _ Hin).
Qed.

Lemma verify_hashed salt key key' h :
  HashAPIKey (Some salt) key = Ok h →
  VerifyAPIKey key' h = Ok (bool_decide (derive key salt = derive key' salt)).
Proof.
  intros [= <-]. unfold VerifyAPIKey.
  assert (str_mem "$" (Itoa argon2_Version) = false) as Hv
    by (eapply str_all_not_mem; [apply Itoa_int_chars|done]).
  set (m := "m=" +:+ Itoa argonMemory +:+ ",t=" +:+ Itoa argonTime +:+ ",p=" +:+ Itoa argonThreads).
  assert (str_mem "$" m = false) as Hm by done.
  change (str_split "$" ("$argon2id$v=" +:+ _)) with
    (str_split "$" ("" +:+ String "$" ("argon2id" +:+ String "$" (("v=" +:+ Itoa argon2_Version) +:+
       String "$" (m +:+ String "$" (Base64.EncodeToString false salt +:+
       String "$" (Base64.EncodeToString false (derive key salt)))))))).
  rewrite !str_split_cons, str_split_no_sep by (apply b64_no_dollar || done).
  rewrite !bool_decide_eq_true_2 by done. cbn [negb].
  rewrite !Base64.Decode_Encode.
  destruct (decide (derive key salt = derive key' salt)) as [->|Hne].
  - by rewrite !bool_decide_eq_true_2.
  - rewrite (bool_decide_eq_false_2 (_ = derive key' salt)) by done. by case_match.
Qed.

(** A hashed key verifies: the stored text is parsed back completely, the key
    it was made from is accepted, and another key is accepted exactly when
    argon2 derives the same bytes from it with the stored salt.  Only a failing
    random generator makes hashing fail. *)
Theorem HashAPIKey_roundtrip (salt : option string) (key : string) :
  match HashAPIKey salt key with
  | Ok h =>
    VerifyAPIKey key h = Ok true ∧
    ∃ s, salt = Some s ∧ ∀ key', VerifyAPIKey key' h = Ok true ↔ derive key' s = derive key s
  | Err e => salt = None ∧ e = SaltFailed
  end.
Proof.
  destruct salt as [s|]; [|done]. cbn [HashAPIKey].
  match goal with |- context [VerifyAPIKey key ?x] => set (h := x) end.
  assert (∀ k, VerifyAPIKey k h = Ok (bool_decide (derive key s = derive k s))) as Hv
    by (intros k; by apply verify_hashed).
  split; [rewrite Hv; by rewrite bool_decide_eq_true_2|]. exists s. split; [done|].
  intros k. rewrite Hv. split; [intros [= ->%bool_decide_eq_true_1]; done|].
  intros ->. by rewrite bool_decide_eq_true_2.
Qed.

(** The cost parameters written into the hash are not read back: two hashes that
    differ only there verify alike. *)
Theorem VerifyAPIKey_ignores_parameters (key p0 p0' p3 p3' p4 p5 : string) :
  Forall (λ p, str_mem "$" p = false) [p0; p0'; p3; p3'; p4; p5] →
  let enc q0 q3 := str_join "$" [q0; "argon2id"; "v=" +:+ Itoa argon2_Version; q3; p4; p5] in
  VerifyAPIKey key (enc p0 p3) = VerifyAPIKey key (enc p0' p3').
Proof.
  intros Hall enc. rewrite !Forall_cons in Hall. destruct Hall as (H0 & H0' & H3 & H3' & H4 & H5 & _).
  assert (str_mem "$" ("v=" +:+ Itoa argon2_Version) = false) as Hv.
  { change (str_mem "$" (Itoa argon2_Version) = false).
    eapply str_all_not_mem; [apply Itoa_int_chars|done]. }
  assert (∀ q0 q3, str_mem "$" q0 = false → str_mem "$" q3 = false →
    str_split "$" (enc q0 q3) = [q0; "argon2id"; "v=" +:+ Itoa argon2_Version; q3; p4; p5]) as Hs.
  { intros q0 q3 Hq0 Hq3.
    change (enc q0 q3) with (q0 +:+ String "$" ("argon2id" +:+ String "$"
      (("v=" +:+ Itoa argon2_Version) +:+ String "$" (q3 +:+ String "$" (p4 +:+ String "$" p5))))).
    by rewrite !str_split_cons, str_split_no_sep by done. }
  unfold VerifyAPIKey. by rewrite !Hs.
Qed.
End Argon2.
End ApiKeyHash.

(** ** Encrypted values (crypto/aesgcm.go) *)
Module AesGcm.

Inductive crypto_error :=
| ErrInvalidKey
| ErrInvalidCipher
| ErrDecryptFailed
| ErrKeyNotSet
| CipherInit
| NonceGeneration
| HexDecode.

Definition KeyLength : nat := 32.

(** AES in Galois/counter mode, as [cipher.NewGCM] returns it: [Open] undoes
    [Seal] under the same key and nonce. *)
Class Aead := {
  NonceSize : nat;
  gcm_seal : string → string → string → string;
  gcm_open : string → string → string → option string;
  NonceSize_pos : (0 < NonceSize)%nat;
  gcm_open_seal key nonce p : gcm_open key nonce (gcm_seal key nonce p) = Some p;
}.

(** [aes.NewCipher] takes keys of 16, 24 or 32 bytes. *)
Definition NewCipher (key : string) : option string :=
  if bool_decide (String.length key ∈ [16; 24; 32]%nat) then Some key else None.

Section Aead.
Context `{Aead}.

(** [nonce]: the answer of the random source to a request for [NonceSize] bytes. *)
Definition Encrypt (nonce : option string) (plaintext key : string) : result crypto_error string :=
  if bool_decide (String.length key = 0)%nat then Err ErrKeyNotSet
  else if negb (bool_decide (String.length key = KeyLength)) then Err ErrInvalidKey
  else match NewCipher key with
  | None => Err CipherInit
  | Some block =>
    match nonce with
    | None => Err NonceGeneration
    | Some nonce => Ok (Hex.EncodeToString (nonce +:+ gcm_seal block nonce plaintext))
    end
  end.

Definition Decrypt (cipherHex key : string) : result crypto_error string :=
  if bool_decide (String.length key = 0)%nat then Err ErrKeyNotSet
  else if negb (bool_decide (String.length key = KeyLength)) then Err ErrInvalidKey
  else match Hex.DecodeString cipherHex with
  | None => Err HexDecode
  | Some ciphertext =>
    match NewCipher key with
    | None => Err CipherInit
    | Some block =>
      if bool_decide (String.length ciphertext < NonceSize)%nat then Err ErrInvalidCipher
      else match gcm_open block (str_take NonceSize ciphertext) (str_drop NonceSize ciphertext) with
           | None => Err ErrDecryptFailed
           | Some plaintext => Ok plaintext
           end
    end
  end.

Definition LoadEncryptionKey (encodedKey : string) : result crypto_error string :=
  if bool_decide (encodedKey = "") then Err ErrKeyNotSet
  else match Hex.DecodeString encodedKey with
  | None => Err HexDecode
  | Some key =>
    if negb (bool_decide (String.length key = KeyLength)) then Err ErrInvalidKey else Ok key
  end.

Lemma NewCipher_ok key : String.length key = KeyLength → NewCipher key = Some key.
Proof. intros Hk. unfold NewCipher. rewrite Hk. done. Qed.

(** With a key of the right length the key checks are over. *)
Ltac key_ok Hk :=
  rewrite (NewCipher_ok _ Hk), Hk;
  change (bool_decide (KeyLength = 0)%nat) with false;
  change (bool_decide (KeyLength = KeyLength)) with true; cbn [negb].

(** A key that was loaded is of the right length, which is the only thing the
    two operations ask of it. *)
Lemma LoadEncryptionKey_length e key :
  LoadEncryptionKey e = Ok key → String.length key = KeyLength.
Proof.
  unfold LoadEncryptionKey. intros Hl. repeat case_match; simplify_eq.
  by match goal with H : negb _ = false |- _ => apply negb_false_iff in H end; decide_bools.
Qed.

Lemma Encrypt_ok nonce p key :
  String.length key = KeyLength →
  Encrypt (Some nonce) p key = Ok (Hex.EncodeToString (nonce +:+ gcm_seal key nonce p)).
Proof.
  intros Hk. unfold Encrypt. rewrite Hk, (NewCipher_ok _ Hk). done.
Qed.

Lemma Decrypt_sealed n p key :
  String.length key = KeyLength → String.length n = NonceSize →
  Decrypt (Hex.EncodeToString (n +:+ gcm_seal key n p)) key = Ok p.
Proof.
  intros Hk Hn. unfold Decrypt. rewrite Hex.hex_Decode_Encode. key_ok Hk.
  rewrite bool_decide_eq_false_2 by (rewrite str_length_app; lia).
  by rewrite str_take_app_exact, str_drop_app_exact, gcm_open_seal.
Qed.

Lemma sealed_nonempty n p key :
  String.length n = NonceSize → Hex.EncodeToString (n +:+ gcm_seal key n p) ≠ "".
Proof.
  intros Hn E. pose proof (Hex.Encode_length (n +:+ gcm_seal key n p)) as Hl.
  rewrite E, str_length_app in Hl. pose proof NonceSize_pos. cbn in Hl. lia.
Qed.

(** With a key that [LoadEncryptionKey] accepted, encryption fails only when
    the random source does, and what it returns decrypts to the plaintext,
    whatever bytes it has. *)
Theorem Decrypt_Encrypt (encodedKey key p : string) (nonce : option string) :
  LoadEncryptionKey encodedKey = Ok key →
  (∀ n, nonce = Some n → String.length n = NonceSize) →
  match Encrypt nonce p key with
  | Ok c => Decrypt c key = Ok p
  | Err e => nonce = None ∧ e = NonceGeneration
  end.
Proof.
  intros Hl Hn. pose proof (LoadEncryptionKey_length _ _ Hl) as Hk.
  destruct nonce as [n|].
  - rewrite Encrypt_ok by done. apply Decrypt_sealed; auto.
  - unfold Encrypt. by rewrite Hk, (NewCipher_ok _ Hk).
Qed.

(** What is accepted by decryption is authentic: a plaintext is returned only
    for the hex form of a nonce followed by a ciphertext that the cipher opens
    under this key; every other input is an error. *)
Theorem Decrypt_authentic (c key p : string) :
  Decrypt c key = Ok p ↔
  String.length key = KeyLength ∧
  ∃ n ct, Hex.DecodeString c = Some (n +:+ ct) ∧ String.length n = NonceSize ∧
          gcm_open key n ct = Some p.
Proof.
  unfold Decrypt. destruct (decide (String.length key = KeyLength)) as [Hk|Hk].
  2: { rewrite (bool_decide_eq_false_2 _ Hk). split; [intros; case_bools|tauto]. }
  key_ok Hk. destruct (Hex.DecodeString c) as [b|].
  2: { split; [done|]. intros (_ & ? & ? & ? & _). done. }
  destruct (decide (String.length b < NonceSize)%nat) as [Hs|Hs].
  - rewrite bool_decide_eq_true_2 by done. split; [done|].
    intros (_ & n & ct & [= ->] & Hn & _). rewrite str_length_app in Hs. lia.
  - rewrite bool_decide_eq_false_2 by done. split.
    + destruct (gcm_open key _ _) eqn:E; [|done]. intros [= ->]. split; [done|].
      exists (str_take NonceSize b), (str_drop NonceSize b).
      destruct (str_take_drop NonceSize b) as [Hb ?]; [lia|]. by rewrite Hb.
    + intros (_ & n & ct & [= ->] & Hn & Ho).
      by rewrite str_take_app_exact, str_drop_app_exact, Ho.
Qed.

(** An empty key is refused in both directions, in place of the pass-through
    that the comments of the two functions announce. *)
Theorem empty_key_refused (nonce : option string) (s : string) :
  Encrypt nonce s "" = Err ErrKeyNotSet ∧ Decrypt s "" = Err ErrKeyNotSet.
Proof. done. Qed.
End Aead.

(** A transparent cipher with a one-byte tag, for concrete runs. *)
#[export] Instance plain_aead : Aead.
Proof.
  refine {| NonceSize := 12; gcm_seal key nonce p := "#" +:+ p;
            gcm_open key nonce c := match c with String "#" p => Some p | _ => None end |}.
  - lia.
  - done.
Defined.

Definition sample_key : string := "0123456789abcdef0123456789abcdef".
Definition sample_nonce : string := "nonce-nonce-".

Lemma Decrypt_Encrypt_witness :
  match Encrypt (Some sample_nonce) "secret" sample_key with
  | Ok c => Decrypt c sample_key = Ok "secret"
  | Err e => Some sample_nonce = None ∧ e = NonceGeneration
  end.
Proof.
  refine (Decrypt_Encrypt (Hex.EncodeToString sample_key) sample_key "secret" (Some sample_nonce) _ _).
  - vm_compute. reflexivity.
  - intros n [= <-]. reflexivity.
Defined.
End AesGcm.

(** ** Session tokens (auth/jwt.go) *)
Module Jwt.

Definition JWTAudience : string := "aleph-v2-api".
Definition JWTIssuer : string := "aleph-v2".
Definition JWTTTL : Duration := 60 * minute.

(** The session's own claims and the registered claims embedded beside them. *)
Record SessionToken := {
  UserID : string;
  ProjectID : string;
  Role : string;
  Scopes : string;
  Issuer : string;
  Subject : string;
  Audience : list string;
  ExpiresAt : option Time;
  NotBefore : option Time;
  IssuedAt : option Time;
  ID : string;
}.
#[global] Instance SessionToken_eq_dec : EqDecision SessionToken.
Proof. solve_decision. Defined.

(** A session before it is signed: the registered claims are still empty. *)
Definition session (user project role : string) : SessionToken :=
  {| UserID := user; ProjectID := project; Role := role; Scopes := ""; Issuer := "";
     Subject := ""; Audience := []; ExpiresAt := None; NotBefore := None; IssuedAt := None;
     ID := "" |}.

Inductive SigningMethod := SigningMethodHMAC | OtherMethod (alg : string).

Inductive jwt_error :=
| SecretEmpty
| JtiFailed
| SecretRandFailed
| SignFailed
| UnexpectedSigningMethod (alg : string)
| ValidationFailed
| TokenInvalid
| ErrMissingSubject
| ErrInvalidIssuer
| ErrInvalidAudience
| ErrMissingTokenID.

(** The claims travel as JSON, which keeps ASCII text as it is. *)
Definition claims_ascii (c : SessionToken) : bool :=
  forallb (str_all is_ascii_char) [UserID c; ProjectID c; Role c; Scopes c; Subject c; ID c].

(** The characters of a compact token. *)
Definition token_char (c : ascii) : bool :=
  is_digit c || is_upper c || is_lower c || bool_decide (c ∈ ["-"; "_"; "."]%char).

(** The token library: signing, and parsing with a key function and the
    expected issuer and audience.  A parsed token comes with its validity flag. *)
Class JwtLib := {
  NewNumericDate : Time → Time;
  SignedString : SessionToken → string → option string;
  ParseWithClaims : Time → (SigningMethod → result jwt_error string) → string → string →
    string → option (SessionToken * bool);
  jwt_date t : t - second < NewNumericDate t ≤ t;
  jwt_parse_signed c key t now keyfunc :
    SignedString c key = Some t → claims_ascii c = true →
    keyfunc SigningMethodHMAC = Ok key →
    (∀ e, ExpiresAt c = Some e → now < e) → (∀ n, NotBefore c = Some n → n ≤ now) →
    JWTAudience ∈ Audience c →
    ParseWithClaims now keyfunc (Issuer c) JWTAudience t = Some (c, true);
  jwt_parse_time now keyfunc iss aud t c valid :
    ParseWithClaims now keyfunc iss aud t = Some (c, valid) →
    ∀ e, ExpiresAt c = Some e → now < e;
  jwt_parse_stable now now' keyfunc iss aud t c c' v v' :
    ParseWithClaims now keyfunc iss aud t = Some (c, v) →
    ParseWithClaims now' keyfunc iss aud t = Some (c', v') → c = c';
  jwt_token_chars c key t :
    SignedString c key = Some t → t ≠ "" ∧ str_all token_char t = true;
}.

Definition generateJTI (b : option string) : result jwt_error string :=
  match b with None => Err JtiFailed | Some b => Ok (Hex.EncodeToString b) end.

Definition GenerateJWTSecret (b : option string) : result jwt_error string :=
  match b with None => Err SecretRandFailed | Some b => Ok (Hex.EncodeToString b) end.

Section Lib.
Context `{JwtLib}.

Definition registered (now ttl : Z) (jti : string) (c : SessionToken) : SessionToken :=
  {| UserID := UserID c; ProjectID := ProjectID c; Role := Role c; Scopes := Scopes c;
     Issuer := JWTIssuer;
     Subject := UserID c;
     Audience := [JWTAudience];
     ExpiresAt := Some (NewNumericDate (now + ttl));
     NotBefore := Some (NewNumericDate now);
     IssuedAt := Some (NewNumericDate now);
     ID := jti |}.

Definition GenerateToken (now : Time) (rand : option string) (claims : SessionToken)
    (secret : string) (ttl : Duration) : result jwt_error string :=
  if bool_decide (secret = "") then Err SecretEmpty
  else
    let ttl := if bool_decide (ttl ≤ 0) then JWTTTL else ttl in
    let? jti := generateJTI rand in
    match SignedString (registered now ttl jti claims) secret with
    | None => Err SignFailed
    | Some signed => Ok signed
    end.

Definition keyfunc (secret : string) (m : SigningMethod) : result jwt_error string :=
  match m with
  | SigningMethodHMAC => Ok secret
  | OtherMethod alg => Err (UnexpectedSigningMethod alg)
  end.

Definition validateClaims (claims : SessionToken) : option jwt_error :=
  if bool_decide (Subject claims = "") then Some ErrMissingSubject
  else if negb (bool_decide (Issuer claims = JWTIssuer)) then Some ErrInvalidIssuer
  else if negb (existsb (λ aud, bool_decide (aud = JWTAudience)) (Audience claims))
  then Some ErrInvalidAudience
  else if bool_decide (ID claims = "") then Some ErrMissingTokenID
  else None.

Definition ValidateToken (now : Time) (tokenString secret : string) : result jwt_error SessionToken :=
  if bool_decide (secret = "") then Err SecretEmpty
  else match ParseWithClaims now (keyfunc secret) JWTIssuer JWTAudience tokenString with
  | None => Err ValidationFailed
  | Some (claims, valid) =>
    if negb valid then Err TokenInvalid
    else match validateClaims claims with
         | Some err => Err err
         | None => Ok claims
         end
  end.

Lemma GenerateToken_inv now rand c secret ttl t :
  GenerateToken now rand c secret ttl = Ok t →
  secret ≠ "" ∧ ∃ b, rand = Some b ∧
  SignedString (registered now (if bool_decide (ttl ≤ 0) then JWTTTL else ttl)
                  (Hex.EncodeToString b) c) secret = Some t.
Proof.
  unfold GenerateToken. destruct (bool_decide (secret = "")) eqn:Es; [done|]. decide_bools.
  destruct rand as [b|]; [|done]. cbn [generateJTI res_bind].
  destruct (SignedString _ _) eqn:E; [|done]. intros [= <-]. eauto.
Qed.

(** What a validated token promises, whoever made it. *)
Lemma ValidateToken_inv now t secret c :
  ValidateToken now t secret = Ok c →
  Subject c ≠ "" ∧ Issuer c = JWTIssuer ∧ JWTAudience ∈ Audience c ∧ ID c ≠ "" ∧
  ∃ v, ParseWithClaims now (keyfunc secret) JWTIssuer JWTAudience t = Some (c, v).
Proof.
  unfold ValidateToken, validateClaims.
  destruct (bool_decide (secret = "")); [done|].
  destruct (ParseWithClaims _ _ _ _ _) as [[c' v]|] eqn:Ep; [|done].
  destruct v; [|done]. cbn [negb].
  destruct (bool_decide (Subject c' = "")) eqn:E1; [done|].
  destruct (bool_decide (Issuer c' = JWTIssuer)) eqn:E2; [|done].
  destruct (existsb _ (Audience c')) eqn:E3; [|done].
  destruct (bool_decide (ID c' = "")) eqn:E4; [done|]. intros [= ->]. decide_bools.
  apply existsb_exists in E3 as (a & Ha & ->%bool_decide_eq_true_1).
  rewrite list_elem_of_In. eauto 10.
Qed.

Lemma Encode_ascii b : str_all is_ascii_char (Hex.EncodeToString b) = true.
Proof.
  eapply str_all_impl; [|apply Hex.Encode_chars]. intros c. by destruct c as [[] [] [] [] [] [] [] []].
Qed.

(** The claims of a token signed now, when it is given [ttl] to live. *)
Definition issued (now ttl : Z) (b : string) (c : SessionToken) : SessionToken :=
  registered now (if bool_decide (ttl ≤ 0) then JWTTTL else ttl) (Hex.EncodeToString b) c.

Lemma GenerateToken_valid now now' ttl b user project role secret t :
  GenerateToken now (Some b) (session user project role) secret ttl = Ok t →
  user ≠ "" → b ≠ "" → claims_ascii (session user project role) = true →
  now ≤ now' → (∀ e, ExpiresAt (issued now ttl b (session user project role)) = Some e → now' < e) →
  ValidateToken now' t secret = Ok (issued now ttl b (session user project role)).
Proof.
  intros (Hs & b' & [= <-] & Hsig)%GenerateToken_inv Hu Hb Ha Hn He.
  fold (issued now ttl b (session user project role)) in Hsig.
  set (c := issued now ttl b (session user project role)) in *.
  unfold ValidateToken. rewrite bool_decide_eq_false_2 by done.
  change JWTIssuer with (Issuer c).
  rewrite (jwt_parse_signed c secret t now' (keyfunc secret) Hsig); try done.
  - unfold validateClaims. cbn [negb c issued registered session Subject UserID Issuer Audience existsb ID].
    rewrite (bool_decide_eq_false_2 (user = "")) by done.
    rewrite !bool_decide_eq_true_2 by done. cbn [negb orb].
    destruct b as [|x b]; [done|]. by rewrite bool_decide_eq_false_2.
  - unfold claims_ascii in *. cbn [forallb c issued registered session UserID ProjectID Role Scopes Subject ID] in *.
    rewrite Encode_ascii. destruct (str_all _ user), (str_all _ project), (str_all _ role); done.
  - intros n [= <-]. pose proof (jwt_date now). lia.
  - by left.
Qed.

(** The token is accepted with the claims it was issued with, and not after it
    expired. *)
Lemma GenerateToken_only now now' ttl b user project role secret t c :
  GenerateToken now (Some b) (session user project role) secret ttl = Ok t →
  user ≠ "" → b ≠ "" → claims_ascii (session user project role) = true →
  (∀ e, ExpiresAt (issued now ttl b (session user project role)) = Some e → now < e) →
  ValidateToken now' t secret = Ok c →
  c = issued now ttl b (session user project role) ∧
  now' < NewNumericDate (now + (if bool_decide (ttl ≤ 0) then JWTTTL else ttl)).
Proof.
  intros Hg Hu Hb Ha He Hv.
  pose proof (GenerateToken_valid now now _ _ _ _ _ _ _ Hg Hu Hb Ha ltac:(lia) He) as Hnow.
  destruct (ValidateToken_inv _ _ _ _ Hv) as (_ & _ & _ & _ & v & Hp).
  destruct (ValidateToken_inv _ _ _ _ Hnow) as (_ & _ & _ & _ & v' & Hp').
  pose proof (jwt_parse_stable _ _ _ _ _ _ _ _ _ _ Hp Hp') as ->.
  split; [done|]. exact (jwt_parse_time _ _ _ _ _ _ _ Hp _ eq_refl).
Qed.

(** A token validates with the secret it was signed with, from the second it
    was made until it expires, and gives back the claims of the session: the
    user as subject, the project, the role and a fresh identifier.  It lives at
    most its time to live, one hour when none is given. *)
Theorem GenerateToken_roundtrip (now now' ttl : Z) (b user project role secret t : string) :
  GenerateToken now (Some b) (session user project role) secret ttl = Ok t →
  user ≠ "" → b ≠ "" → claims_ascii (session user project role) = true →
  let life := if bool_decide (ttl ≤ 0) then JWTTTL else ttl in
  now ≤ now' < NewNumericDate (now + life) →
  NewNumericDate (now + life) ≤ now + life ∧
  ∃ c, ValidateToken now' t secret = Ok c ∧ UserID c = user ∧ Subject c = user ∧
    ProjectID c = project ∧ Role c = role ∧ ID c = Hex.EncodeToString b ∧
    ExpiresAt c = Some (NewNumericDate (now + life)).
Proof.
  intros Hg Hu Hb Ha life Hn. split; [apply jwt_date|].
  exists (issued now ttl b (session user project role)). split; [|done].
  apply GenerateToken_valid; try done; [lia|]. intros e [= <-]. unfold life in Hn. lia.
Qed.
End Lib.

(** A library that can sign one token only, for concrete runs. *)
Definition date_floor (t : Time) : Time := t - t mod second.

Definition one_parse (c0 : SessionToken) (k0 : string) (now : Time)
    (keyfunc : SigningMethod → result jwt_error string) (iss aud t : string) :
    option (SessionToken * bool) :=
  if bool_decide (t = "h.p.s") && bool_decide (iss = Issuer c0) &&
     bool_decide (aud ∈ Audience c0) &&
     match keyfunc SigningMethodHMAC with Ok k => bool_decide (k = k0) | Err _ => false end &&
     match ExpiresAt c0 with Some e => bool_decide (now < e) | None => true end &&
     match NotBefore c0 with Some n => bool_decide (n ≤ now) | None => true end
  then Some (c0, true) else None.

Lemma one_parse_inv c0 k0 now kf iss aud t c v :
  one_parse c0 k0 now kf iss aud t = Some (c, v) →
  c = c0 ∧ ∀ e, ExpiresAt c = Some e → now < e.
Proof.
  unfold one_parse. destruct (_ && _) eqn:E; [|done]. intros [= <- <-]. split; [done|].
  intros e He. rewrite He, !andb_true_iff, !bool_decide_eq_true in E. tauto.
Qed.

Program Definition one_token (c0 : SessionToken) (k0 : string) : JwtLib := {|
  NewNumericDate := date_floor;
  SignedString c k := if bool_decide (c = c0 ∧ k = k0) then Some "h.p.s" else None;
  ParseWithClaims := one_parse c0 k0;
|}.
Next Obligation. intros. unfold date_floor. pose proof (Z.mod_pos_bound t second). unfold second in *. lia. Qed.
Next Obligation.
  simpl. intros * Hs _ Hk He Hn Ha. destruct (bool_decide _) eqn:E; [|done].
  injection Hs as <-. apply bool_decide_eq_true_1 in E as [-> ->]. unfold one_parse.
  rewrite Hk, !bool_decide_eq_true_2 by done. cbn [andb].
  destruct (ExpiresAt c0) as [e|]; [rewrite bool_decide_eq_true_2 by auto|]; cbn [andb];
    (destruct (NotBefore c0) as [n|]; [rewrite bool_decide_eq_true_2 by auto|]; done).
Qed.
Next Obligation. simpl. intros * Hp. by apply one_parse_inv in Hp as [_ ?]. Qed.
Next Obligation.
  simpl. intros * [-> _]%one_parse_inv [-> _]%one_parse_inv. done.
Qed.
Next Obligation. simpl. intros * Hs. case_match; simplify_eq. done. Qed.

Definition sample_now : Time := unix_time 1700000000.
Definition sample_rand : string := "0123456789abcdef".
Definition sample_claims : SessionToken :=
  @registered (one_token (session "" "" "") "") sample_now JWTTTL
    (Hex.EncodeToString sample_rand) (session "-key" "p1" "user").

Lemma GenerateToken_roundtrip_witness :
  let lib := one_token sample_claims "k" in
  GenerateToken sample_now (Some sample_rand) (session "-key" "p1" "user") "k" JWTTTL = Ok "h.p.s" ∧
  ∃ c, ValidateToken (sample_now + minute) "h.p.s" "k" = Ok c ∧ ProjectID c = "p1".
Proof.
  intros lib. assert (GenerateToken sample_now (Some sample_rand) (session "-key" "p1" "user") "k" JWTTTL
    = Ok "h.p.s") as Hg by (vm_compute; reflexivity).
  split; [exact Hg|].
  destruct (GenerateToken_roundtrip sample_now (sample_now + minute) JWTTTL sample_rand
    "-key" "p1" "user" "k" "h.p.s" Hg) as [_ (c & Hv & _ & _ & Hp & _)];
    try (vm_compute; reflexivity || discriminate).
  - split; vm_compute; [discriminate|reflexivity].
  - exists c. split; [exact Hv|exact Hp].
Defined.
End Jwt.
