(* ===== verification/Auth.v ===== *)
(** * Authentication, authorisation and sessions

    Module [Http] is the part of net/http the code uses: headers and request
    cookies.  Module [Revocation] is the store of revoked tokens and [Auth] the
    rest of middleware/auth.go and middleware/auth_middleware.go: API keys,
    roles, the procedure table, the interceptor and the HTTP middleware; with
    them the handlers of api/handler/session.go and api/handler/auth.go and the
    API-key rows of repository/metadata.go.  The clock, the random bytes and the
    environment variable with the backend key are arguments. *)

From S2P Require Import Prelude GoStrings Cursor Tokens.

(** ** Headers and cookies *)
Module Http.

(** [h.Values(name)]; names are in canonical form. *)
Definition Header : Type := string → list string.
Definition Get (h : Header) (name : string) : string := default "" (head (h name)).

(** [textproto.TrimString]: spaces and tabs at both ends. *)
Definition is_ows (c : ascii) : bool := bool_decide (c = " "%char ∨ c = "009"%char).
Fixpoint trim_ows_left (s : string) : string :=
  match s with
  | "" => ""
  | String c s' => if is_ows c then trim_ows_left s' else s
  end.
Fixpoint trim_ows_right (s : string) : string :=
  match s with
  | "" => ""
  | String c s' =>
    let r := trim_ows_right s' in
    if bool_decide (r = "") && is_ows c then "" else String c r
  end.
Definition TrimString (s : string) : string := trim_ows_right (trim_ows_left s).

Definition valid_cookie_char (c : ascii) : bool :=
  in_range " " "~" c && negb (bool_decide (c ∈ [dquote; ";"%char; "\"%char])).

(** A value may stand in double quotes, which are taken off. *)
Definition strip_quotes (s : string) : string :=
  if bool_decide (2 ≤ String.length s)%nat && bool_decide (String.get 0 s = Some dquote) &&
     bool_decide (String.get (String.length s - 1) s = Some dquote)
  then String.substring 1 (String.length s - 2) s else s.

Definition cookie_value (s : string) : option string :=
  let v := strip_quotes s in
  if str_all valid_cookie_char v then Some v else None.

Definition cookie_part (name part : string) : option string :=
  let part := TrimString part in
  let '(n, v) := default (part, "") (str_cut "=" part) in
  if bool_decide (part = "") then None
  else if bool_decide (TrimString n = name) then cookie_value v else None.

(** [r.Cookie(name)]: the first well-formed cookie of that (valid) name. *)
Definition Cookie (h : Header) (name : string) : option string :=
  head (omap (cookie_part name) (mjoin (str_split ";" ∘ TrimString <$> h "Cookie"))).

(** [strings.CutPrefix] and [strings.TrimPrefix]. *)
Definition CutPrefix (s p : string) : option string :=
  if String.prefix p s then Some (str_drop (String.length p) s) else None.
Definition TrimPrefix (s p : string) : string := default s (CutPrefix s p).
End Http.

(** ** Revoked tokens *)
Module Revocation.

Record TokenRevocationStore := { revoked : gmap string Time; ttl : Duration }.

Definition NewTokenRevocationStore (ttl : Duration) : TokenRevocationStore :=
  {| revoked := ∅; ttl := ttl |}.

Definition Revoke (now : Time) (jti : string) (s : TokenRevocationStore) : TokenRevocationStore :=
  {| revoked := <[jti := now]> (revoked s); ttl := ttl s |}.

Definition IsRevoked (jti : string) (s : TokenRevocationStore) : bool :=
  bool_decide (is_Some (revoked s !! jti)).

(** One tick of [cleanupLoop]. *)
Definition cleanup_tick (now : Time) (s : TokenRevocationStore) : TokenRevocationStore :=
  {| revoked := filter (λ p, ¬ time_sub now p.2 > ttl s) (revoked s); ttl := ttl s |}.

Inductive event := DoRevoke (jti : string) | DoTick.

Definition apply_event (e : Time * event) (s : TokenRevocationStore) : TokenRevocationStore :=
  match e.2 with DoRevoke jti => Revoke e.1 jti s | DoTick => cleanup_tick e.1 s end.

Definition run_events (es : list (Time * event)) (s : TokenRevocationStore) :
    TokenRevocationStore := foldl (λ s e, apply_event e s) s es.

Lemma run_events_ttl es s : ttl (run_events es s) = ttl s.
Proof.
  revert s. induction es as [|[t []] es IH]; intros s; [done| |];
    exact (IH _).
Qed.

(** A revocation is remembered while it is no older than the time to live. *)
Lemma revoked_kept es s jti r now :
  is_int64 (ttl s) →
  (∃ ra, revoked s !! jti = Some ra ∧ r ≤ ra) →
  Forall (λ e, e.1 ≤ now) es → Forall (λ e, r ≤ e.1) es → now - r ≤ ttl s →
  IsRevoked jti (run_events es s) = true.
Proof.
  revert s. induction es as [|[t e] es IH]; intros s Ht (ra & Hra & Hr) Hn Hf Hl.
  - unfold IsRevoked. cbn. rewrite Hra. by apply bool_decide_eq_true_2.
  - apply Forall_cons in Hn as [Ht' Hn], Hf as [Hr' Hf]. cbn in Ht', Hr'. cbn [run_events foldl].
    apply IH; try done; destruct e as [j|]; cbn; try done.
    + destruct (decide (j = jti)) as [->|Hne].
      * exists t. by rewrite lookup_insert_eq.
      * exists ra. by rewrite lookup_insert_ne by done.
    + exists ra. split; [|done]. apply map_lookup_filter_Some. split; [done|]. cbn.
      unfold time_sub, clamp64. unfold is_int64 in Ht. lia.
Qed.
End Revocation.

(** ** API keys, roles and the interceptor *)
Module Auth.
Import Http Revocation.

(** [Role] is a string type; the three constants are the roles the code names. *)
Definition Role : Type := string.
Definition RoleAdmin : Role := "admin".
Definition RoleUser : Role := "user".
Definition RoleReadOnly : Role := "readonly".
#[global] Instance Role_eq_dec : EqDecision Role := String.eq_dec.

Inductive auth_error :=
| ErrNoAPIKey
| ErrInvalidAPIKey
| ErrForbidden
| InvalidSession (e : Jwt.jwt_error)
| TokenRevoked.
#[global] Instance jwt_error_eq_dec : EqDecision Jwt.jwt_error.
Proof. solve_decision. Defined.
#[global] Instance auth_error_eq_dec : EqDecision auth_error.
Proof. solve_decision. Defined.

(** *** The rows of system_api_keys *)
Record APIKeyRow := { key_hash : string; project_id : string; label : string; role : string }.
Abbreviation Repo := (gmap string APIKeyRow) (only parsing).

(** A new row takes the column default as its role; the identifier is the
    primary key. *)
Definition CreateAPIKey (id projectID lab hashedKey : string) (db : Repo) : option Repo :=
  if bool_decide (is_Some (db !! id)) then None
  else Some (<[id := {| key_hash := hashedKey; project_id := projectID; label := lab;
                        role := "user" |}]> db).

Definition GetAPIKeyByID (id : string) (db : Repo) : option (string * string * string) :=
  r ← db !! id; Some (key_hash r, project_id r, role r).

Definition ListAPIKeys (projectID : string) (db : Repo) : list (string * APIKeyRow) :=
  map_to_list (filter (λ p, project_id p.2 = projectID) db).

Definition DeleteAPIKey (id projectID : string) (db : Repo) : Repo :=
  match db !! id with
  | Some r => if bool_decide (project_id r = projectID) then delete id db else db
  | None => db
  end.

(** *** Roles of keys that are not in the database *)
Definition bootstrapRole (backendKey apiKey : string) : Role :=
  if negb (bool_decide (backendKey = "")) && bool_decide (apiKey = backendKey) then RoleAdmin
  else if String.prefix "user_" apiKey then RoleUser
  else if String.prefix "ro_" apiKey then RoleReadOnly
  else "".

Definition roleFromEnvImpl (backendKey apiKey : string) : Role :=
  if negb (bool_decide (backendKey = "")) && bool_decide (apiKey = backendKey) then RoleAdmin
  else if String.prefix "user_" apiKey then RoleUser
  else if String.prefix "ro_" apiKey then RoleReadOnly
  else RoleUser.

(** *** The request context *)
Record auth_ctx := { ctxProjectID : option string; ctxRole : option Role }.
Definition empty_ctx : auth_ctx := {| ctxProjectID := None; ctxRole := None |}.

Definition ProjectIDFromContext (c : auth_ctx) : string := default "" (ctxProjectID c).
Definition RoleFromContext (c : auth_ctx) : Role := default RoleUser (ctxRole c).
Definition projectIDToContext (c : auth_ctx) (projectID : string) (r : Role) : auth_ctx :=
  {| ctxProjectID := Some projectID; ctxRole := Some r |}.

Fixpoint RequireRole (c : auth_ctx) (allowed : list Role) : option auth_error :=
  match allowed with
  | [] => Some ErrForbidden
  | r :: rest => if bool_decide (RoleFromContext c = r) then None else RequireRole c rest
  end.

Definition IsAdmin (c : auth_ctx) : bool := bool_decide (RoleFromContext c = RoleAdmin).

(** Replies of an HTTP middleware: an error status, or the next handler. *)
Inductive http_reply (A : Type) := HttpError (code : Z) (body : string) | Next (a : A).
Arguments HttpError {A} _ _.
Arguments Next {A} _.

Definition RequireRoleHTTP {A} (allowed : list Role) (next : auth_ctx → A) (c : auth_ctx) :
    http_reply A :=
  let allowedSet : gset Role := list_to_set allowed in
  if negb (bool_decide (RoleFromContext c ∈ allowedSet))
  then HttpError 403 "insufficient permissions for this operation"
  else Next (next c).

(** [path] and [query] are the values of project_id in the URL. *)
Definition RequireProjectRole {A} (path query : string) (next : auth_ctx → A) (c : auth_ctx) :
    http_reply A :=
  let authProjectID := ProjectIDFromContext c in
  if bool_decide (authProjectID = "") then Next (next c)
  else
    let urlProject := if bool_decide (path = "") then query else path in
    if negb (bool_decide (urlProject = "")) && negb (bool_decide (urlProject = authProjectID))
    then HttpError 403 "project access denied"
    else Next (next c).

(** *** Credentials of a request *)
Definition ExtractAPIKey (h : Header) : string :=
  let key := Get h "X-Aleph-Api-Key" in
  if negb (bool_decide (key = "")) then key
  else
    let auth := Get h "Authorization" in
    if negb (bool_decide (auth = "")) then TrimPrefix auth "Bearer " else "".

Definition ExtractAPIKeyFromCookie (h : Header) : string := default "" (Cookie h "aleph_session").

Definition extractApiKey (h : Header) : string :=
  let key := Get h "X-Aleph-Api-Key" in
  if negb (bool_decide (key = "")) then key
  else
    let authH := Get h "Authorization" in
    if negb (bool_decide (authH = "")) then TrimPrefix authH "Bearer " else "".

Definition jwtFromCookie `{Unicode} (h : Header) : string :=
  default "" (head (omap (λ c, CutPrefix (TrimSpace c) "aleph_jwt=")
                      (mjoin (str_split ";" <$> h "Cookie")))).

(** *** Authorisation of procedures *)
Record procedureRole := { adminOnly : bool; minRole : Role }.

Definition procedureRBAC : list (string * procedureRole) :=
  [
   ("/aleph.v1.AuthService/CreateApiKey", {| adminOnly := true; minRole := "" |});
   ("/aleph.v1.AuthService/ListApiKeys", {| adminOnly := true; minRole := "" |});
   ("/aleph.v1.AuthService/DeleteApiKey", {| adminOnly := true; minRole := "" |});
   ("/aleph.v1.ProjectService/CreateProject", {| adminOnly := false; minRole := RoleUser |});
   ("/aleph.v1.ProjectService/DeleteProject", {| adminOnly := true; minRole := "" |});
   ("/aleph.v1.ProjectService/ListProjects", {| adminOnly := false; minRole := "" |});
   ("/aleph.v1.ProjectService/EmergeOntology", {| adminOnly := false; minRole := RoleUser |});
   ("/aleph.v1.ProjectService/GetOntology", {| adminOnly := false; minRole := "" |});
   ("/aleph.v1.ProjectService/SaveOntology", {| adminOnly := false; minRole := RoleUser |});
   ("/aleph.v1.AgentService/CreateAgent", {| adminOnly := false; minRole := RoleUser |});
   ("/aleph.v1.AgentService/UpdateAgent", {| adminOnly := false; minRole := RoleUser |});
   ("/aleph.v1.AgentService/DeleteAgent", {| adminOnly := false; minRole := RoleUser |});
   ("/aleph.v1.AgentService/ListAgents", {| adminOnly := false; minRole := "" |});
   ("/aleph.v1.AgentService/ListModels", {| adminOnly := false; minRole := "" |});
   ("/aleph.v1.SkillService/ListSkills", {| adminOnly := false; minRole := "" |});
   ("/aleph.v1.SkillService/CreateSkill", {| adminOnly := false; minRole := RoleUser |});
   ("/aleph.v1.SkillService/UpdateSkill", {| adminOnly := false; minRole := RoleUser |});
   ("/aleph.v1.SkillService/DeleteSkill", {| adminOnly := false; minRole := RoleUser |});
   ("/aleph.v1.ToolService/ListTools", {| adminOnly := false; minRole := "" |});
   ("/aleph.v1.ToolService/CreateTool", {| adminOnly := false; minRole := RoleUser |});
   ("/aleph.v1.ToolService/UpdateTool", {| adminOnly := false; minRole := RoleUser |});
   ("/aleph.v1.ToolService/DeleteTool", {| adminOnly := false; minRole := RoleUser |});
   ("/aleph.v1.LibraryService/ListAssets", {| adminOnly := false; minRole := "" |});
   ("/aleph.v1.LibraryService/GetAssetContent", {| adminOnly := false; minRole := "" |});
   ("/aleph.v1.LibraryService/DeleteAsset", {| adminOnly := false; minRole := RoleUser |});
   ("/aleph.v1.LibraryService/GeneratePdf", {| adminOnly := false; minRole := "" |});
   ("/aleph.v1.LibraryService/UploadAsset", {| adminOnly := false; minRole := RoleUser |});
   ("/aleph.v1.QueryService/ExecuteQuery", {| adminOnly := false; minRole := "" |});
   ("/aleph.v1.QueryService/Chat", {| adminOnly := false; minRole := "" |});
   ("/aleph.v1.QueryService/GetChatHistory", {| adminOnly := false; minRole := "" |});
   ("/aleph.v1.QueryService/GetDataStats", {| adminOnly := false; minRole := "" |});
   ("/aleph.v1.QueryService/ConfirmAction", {| adminOnly := false; minRole := RoleUser |});
   ("/aleph.v1.QueryService/GlobalQuery", {| adminOnly := false; minRole := "" |});
   ("/aleph.v1.QueryService/GetDataLineage", {| adminOnly := false; minRole := "" |});
   ("/aleph.v1.QueryService/GetChecksum", {| adminOnly := false; minRole := "" |});
   ("/aleph.v1.IngestionService/RunTask", {| adminOnly := false; minRole := RoleUser |});
   ("/aleph.v1.IngestionService/CreateTask", {| adminOnly := false; minRole := RoleUser |});
   ("/aleph.v1.IngestionService/DeleteTask", {| adminOnly := false; minRole := RoleUser |});
   ("/aleph.v1.IngestionService/ListTasks", {| adminOnly := false; minRole := "" |});
   ("/aleph.v1.IngestionService/GetTaskLogs", {| adminOnly := false; minRole := "" |});
   ("/aleph.v1.IngestionService/GetProgress", {| adminOnly := false; minRole := "" |});
   ("/aleph.v1.NotificationService/ListChannels", {| adminOnly := false; minRole := "" |});
   ("/aleph.v1.NotificationService/SendWebhook", {| adminOnly := false; minRole := RoleUser |});
   ("/aleph.registry.v1.RegistryService/RegisterComponent", {| adminOnly := false; minRole := RoleUser |});
   ("/aleph.registry.v1.RegistryService/GetComponent", {| adminOnly := false; minRole := "" |});
   ("/aleph.registry.v1.RegistryService/ListComponents", {| adminOnly := false; minRole := "" |});
   ("/aleph.registry.v1.RegistryService/UpdateComponentStatus", {| adminOnly := false; minRole := RoleUser |});
   ("/aleph.tool.v1.SandboxService/ExecuteTool", {| adminOnly := false; minRole := RoleUser |});
   ("/aleph.tool.v1.SandboxService/RunSkill", {| adminOnly := false; minRole := RoleUser |});
   ("/aleph.nlp.v1.NLPService/AnalyzeSentiment", {| adminOnly := false; minRole := RoleUser |});
   ("/aleph.nlp.v1.NLPService/ExtractEntities", {| adminOnly := false; minRole := RoleUser |})].

Definition rbac_of (procedure : string) : option procedureRole :=
  snd <$> head (filter (λ e, e.1 = procedure) procedureRBAC).

Definition roleRank (r : Role) : Z :=
  if bool_decide (r = RoleAdmin) then 3
  else if bool_decide (r = RoleUser) then 2
  else if bool_decide (r = RoleReadOnly) then 1
  else 0.

Definition checkProcedureRBAC (procedure : string) (r : Role) : option auth_error :=
  match rbac_of procedure with
  | None => None
  | Some rbac =>
    if adminOnly rbac && negb (bool_decide (r = RoleAdmin)) then Some ErrForbidden
    else if bool_decide (roleRank r < roleRank (minRole rbac)) then Some ErrForbidden
    else None
  end.

Definition ValidateScopes `{Unicode} (required tokenScopes : string) : bool :=
  if bool_decide (required = "") then true
  else
    let scopeSet : gset string := list_to_set (TrimSpace <$> str_split "," tokenScopes) in
    forallb (λ r, negb (negb (bool_decide (TrimSpace r = "")) &&
                        negb (bool_decide (TrimSpace r ∈ scopeSet))))
      (str_split "," required).

(** *** Validation *)
Section Auth.
Context `{Unicode, Jwt.JwtLib}.
Context (IDKey : string → string → Z → Z → Z → Z → string) (argon2_Version : Z).
(** The value of ALEPH_API_KEY_SECRET_BACKEND. *)
Context (backendKey : string).

Abbreviation verify := (ApiKeyHash.VerifyAPIKey IDKey argon2_Version).

Definition ValidateAPIKey (db : Repo) (apiKey : string) : result auth_error (string * Role) :=
  if bool_decide (String.length apiKey < 8)%nat then Err ErrInvalidAPIKey
  else
    let r := bootstrapRole backendKey apiKey in
    if negb (bool_decide (r = "")) then Ok ("bootstrap", r)
    else
      let keyID := str_take 8 apiKey in
      match GetAPIKeyByID keyID db with
      | None => Err ErrInvalidAPIKey
      | Some (storedHash, projectID, dbrole) =>
        match verify apiKey storedHash with
        | Ok true =>
          let effectiveRole :=
            if bool_decide (dbrole = "") then roleFromEnvImpl backendKey apiKey else dbrole in
          Ok (projectID, effectiveRole)
        | _ => Err ErrInvalidAPIKey
        end
      end.

(** The role a session carries; an empty one is the user's. *)
Definition session_role (c : Jwt.SessionToken) : Role :=
  if bool_decide (Jwt.Role c = "") then RoleUser else Jwt.Role c.

Definition validateJWT (now : Time) (tokenStr secret : string) :
    result auth_error (string * Role) :=
  match Jwt.ValidateToken now tokenStr secret with
  | Err e => Err (InvalidSession e)
  | Ok claims => Ok (Jwt.ProjectID claims, session_role claims)
  end.

Definition validateJWTWithRevocation (now : Time) (tokenStr secret : string)
    (store : option TokenRevocationStore) : result auth_error (string * Role) :=
  match Jwt.ValidateToken now tokenStr secret with
  | Err e => Err (InvalidSession e)
  | Ok claims =>
    if match store with Some s => IsRevoked (Jwt.ID claims) s | None => false end
    then Err TokenRevoked
    else Ok (Jwt.ProjectID claims, session_role claims)
  end.

(** The interceptor and the repository it reads. *)
Record AuthInterceptor := {
  metaRepo : Repo;
  jwtSecret : string;
  revocationStore : option TokenRevocationStore;
}.

Definition NewAuthInterceptor (db : Repo) (secret : string) : AuthInterceptor :=
  {| metaRepo := db; jwtSecret := secret;
     revocationStore := Some (NewTokenRevocationStore (60 * minute)) |}.

Definition authenticate (a : AuthInterceptor) (now : Time) (h : Header) :
    result auth_error (string * Role) :=
  let tokenStr := jwtFromCookie h in
  if negb (bool_decide (tokenStr = ""))
  then validateJWTWithRevocation now tokenStr (jwtSecret a) (revocationStore a)
  else
    let apiKey := extractApiKey h in
    if negb (bool_decide (apiKey = "")) then ValidateAPIKey (metaRepo a) apiKey
    else Err ErrNoAPIKey.

(** Errors of an intercepted call: its own code, or the handler's. *)
Inductive call_error (E : Type) :=
| Unauthenticated (e : auth_error)
| PermissionDenied (e : auth_error)
| HandlerError (e : E).

Definition authSkipSet : list string := [].

Definition WrapUnary {E A} (a : AuthInterceptor) (now : Time) (procedure : string) (h : Header)
    (next : auth_ctx → result (call_error E) A) (ctx : auth_ctx) : result (call_error E) A :=
  if bool_decide (procedure ∈ authSkipSet) then next ctx
  else match authenticate a now h with
  | Err e => Err (Unauthenticated _ e)
  | Ok (projectID, r) =>
    let ctx := projectIDToContext ctx projectID r in
    match checkProcedureRBAC procedure r with
    | Some e => Err (PermissionDenied _ e)
    | None => next ctx
    end
  end.

(** The HTTP side: the same credentials, with the session cookie as a second
    place for an API key, and without the store of revoked tokens. *)
Definition authenticateHTTP (db : Repo) (secret : string) (now : Time) (h : Header) :
    result auth_error (string * Role) :=
  let jwtStr := jwtFromCookie h in
  if negb (bool_decide (jwtStr = "")) then validateJWT now jwtStr secret
  else
    let apiKey := ExtractAPIKey h in
    let apiKey := if bool_decide (apiKey = "") then ExtractAPIKeyFromCookie h else apiKey in
    if negb (bool_decide (apiKey = "")) then ValidateAPIKey db apiKey
    else Err ErrNoAPIKey.

Definition error_text (e : auth_error) : string :=
  match e with
  | ErrNoAPIKey => "missing api key: provide X-Aleph-Api-Key header"
  | ErrInvalidAPIKey => "invalid api key"
  | ErrForbidden => "insufficient permissions for this operation"
  | InvalidSession _ => "invalid session"
  | TokenRevoked => "token has been revoked"
  end.

Definition AuthMiddleware {A} (db : Repo) (secret : string) (now : Time) (h : Header)
    (next : auth_ctx → A) (ctx : auth_ctx) : http_reply A :=
  match authenticateHTTP db secret now h with
  | Err e => HttpError 401 (error_text e)
  | Ok (projectID, r) => Next (next (projectIDToContext ctx projectID r))
  end.

(** *** Session handlers *)
Definition maskAPIKey (key : string) : string :=
  if bool_decide (String.length key ≤ 4)%nat then "****"
  else str_drop (String.length key - 4) key.

Inductive session_reply :=
| Refused (code : Z) (body : string)
| SessionCookie (value : string) (maxAge : Z) (project : string)
| SessionInfo (project : string).

(** [body]: the api_key of the decoded request, [None] when it is not JSON. *)
Definition HandleCreateSession (a : AuthInterceptor) (now : Time) (rand : option string)
    (body : option string) : session_reply :=
  match body with
  | None => Refused 400 "invalid request body"
  | Some apiKey =>
    if bool_decide (apiKey = "") then Refused 400 "api_key is required"
    else match ValidateAPIKey (metaRepo a) apiKey with
    | Err _ => Refused 401 "invalid api key"
    | Ok (projectID, r) =>
      match Jwt.GenerateToken now rand (Jwt.session (maskAPIKey apiKey) projectID r)
              (jwtSecret a) Jwt.JWTTTL with
      | Err _ => Refused 500 "failed to create session"
      | Ok token => SessionCookie token 3600 projectID
      end
    end
  end.

(** The handler shares the store of the interceptor. *)
Definition HandleDeleteSession (a : AuthInterceptor) (now : Time) (h : Header) :
    AuthInterceptor * session_reply :=
  let store :=
    match Cookie h "aleph_jwt", revocationStore a with
    | Some c, Some s =>
      match Jwt.ValidateToken now c (jwtSecret a) with
      | Ok claims =>
        if negb (bool_decide (Jwt.ID claims = "")) then Some (Revoke now (Jwt.ID claims) s)
        else Some s
      | Err _ => Some s
      end
    | _, s => s
    end in
  ({| metaRepo := metaRepo a; jwtSecret := jwtSecret a; revocationStore := store |},
   SessionCookie "" (-1) "").

Definition HandleValidateSession (a : AuthInterceptor) (now : Time) (method : string)
    (h : Header) : session_reply :=
  if negb (bool_decide (method = "GET")) then Refused 405 "method not allowed"
  else match Cookie h "aleph_jwt" with
  | None => Refused 401 "no session"
  | Some c =>
    match Jwt.ValidateToken now c (jwtSecret a) with
    | Err _ => Refused 401 "invalid session"
    | Ok claims => SessionInfo (Jwt.ProjectID claims)
    end
  end.

(** *** Key handlers (api/handler/auth.go) *)
Record ApiKey := { Id : string; Label : string; Key : string }.

Definition CreateApiKey (rand salt : option string) (projectID lab : string) (db : Repo) :
    Repo * option ApiKey :=
  match rand with
  | None => (db, None)
  | Some b =>
    let key := Hex.EncodeToString b in
    let id := Hex.EncodeToString (str_take 4 b) in
    match ApiKeyHash.HashAPIKey IDKey argon2_Version salt key with
    | Err _ => (db, None)
    | Ok hashedKey =>
      match CreateAPIKey id projectID lab hashedKey db with
      | None => (db, None)
      | Some db' => (db', Some {| Id := id; Label := lab; Key := key |})
      end
    end
  end.

Definition ListApiKeys (projectID : string) (db : Repo) : list ApiKey :=
  (λ p, {| Id := p.1; Label := label p.2; Key := "********" |}) <$> ListAPIKeys projectID db.

Definition DeleteApiKey (id projectID : string) (db : Repo) : Repo := DeleteAPIKey id projectID db.

(** *** Roles *)

(** The three ways in which a string is taken for an API key, with the project and the role
    that each gives: the key of the environment; a prefix, whatever follows it; a row of the
    repository whose hash the string verifies against. *)
Inductive known_key (db : Repo) (key : string) : string → Role → Prop :=
| known_backend : backendKey ≠ "" → key = backendKey → known_key db key "bootstrap" RoleAdmin
| known_prefix p r rest : (p, r) ∈ [("user_", RoleUser); ("ro_", RoleReadOnly)] → key = p +:+ rest → known_key db key "bootstrap" r
| known_stored row : db !! str_take 8 key = Some row → verify key (key_hash row) = Ok true →
    known_key db key (project_id row) (if bool_decide (role row = "") then RoleUser else role row).

Lemma ValidateAPIKey_known db key project r : ValidateAPIKey db key = Ok (project, r) →
  (8 ≤ String.length key)%nat ∧ known_key db key project r.
Proof.
  unfold ValidateAPIKey. destruct (bool_decide (_ < 8)%nat) eqn:El; [done|]. apply bool_decide_eq_false in El. intros Hv. split; [lia|]. revert Hv.
  unfold bootstrapRole, roleFromEnvImpl, GetAPIKeyByID.
  destruct (negb (bool_decide (backendKey = "")) && bool_decide (key = backendKey)) eqn:Eb.
  { cbn. intros [= <- <-]. apply andb_true_iff in Eb as [?%negb_true_iff%bool_decide_eq_false ?%bool_decide_eq_true]. by constructor. }
  destruct (String.prefix "user_" key) eqn:Eu.
  { cbn. intros [= <- <-]. apply prefix_iff in Eu as [rest ->]. apply (known_prefix _ _ "user_" RoleUser rest); [set_solver|done]. }
  destruct (String.prefix "ro_" key) eqn:Er.
  { cbn. intros [= <- <-]. apply prefix_iff in Er as [rest ->]. apply (known_prefix _ _ "ro_" RoleReadOnly rest); [set_solver|done]. }
  rewrite bool_decide_eq_true_2 by done. cbn [negb]. destruct (db !! str_take 8 key) as [row|] eqn:Ed; cbn [mbind option_bind]; [|done]. destruct (verify key (key_hash row)) as [[]|] eqn:Ev; [|done..].
  intros [= <- <-]. by apply known_stored.
Qed.

(** C2: the interceptor admits no one without credentials: a call that returns a value was
    made with a session token that validates now and is not revoked, or, without a session
    cookie, with a string of at least eight bytes that is taken for an API key: the backend
    key of the environment, as administrator; any string that begins with "user_" or "ro_",
    in the role of the prefix and the project "bootstrap"; or a string that verifies against
    the hash of the repository's row for its first eight bytes, in that row's project and
    role.  The role meets the requirement of the procedure, and the handler runs under
    exactly that project and role. *)
Theorem WrapUnary_authorised {E A} (a : AuthInterceptor) (now : Time) (procedure : string)
    (h : Header) (next : auth_ctx → result (call_error E) A) (ctx : auth_ctx) (v : A) :
  WrapUnary a now procedure h next ctx = Ok v →
  ∃ project r,
    next (projectIDToContext ctx project r) = Ok v ∧
    ((∃ c, Jwt.ValidateToken now (jwtFromCookie h) (jwtSecret a) = Ok c ∧
           project = Jwt.ProjectID c ∧ r = session_role c ∧
           ∀ s, revocationStore a = Some s → revoked s !! Jwt.ID c = None) ∨
     (jwtFromCookie h = "" ∧ (8 ≤ String.length (extractApiKey h))%nat ∧ known_key (metaRepo a) (extractApiKey h) project r)) ∧
    ∀ rbac, rbac_of procedure = Some rbac →
      (adminOnly rbac = true → r = RoleAdmin) ∧ roleRank (minRole rbac) ≤ roleRank r.
Proof.
  unfold WrapUnary. rewrite bool_decide_eq_false_2 by (apply not_elem_of_nil).
  destruct (authenticate a now h) as [[project r]|e] eqn:Ea; [|done].
  destruct (checkProcedureRBAC procedure r) eqn:Ec; [done|]. intros Hn.
  exists project, r. split; [done|]. split.
  - unfold authenticate, validateJWTWithRevocation in Ea.
    destruct (bool_decide (jwtFromCookie h = "")) eqn:Ej; cbn [negb] in Ea; decide_bools.
    + right. split; [done|]. destruct (bool_decide (extractApiKey h = "")); [done|]. by apply ValidateAPIKey_known.
    + left. destruct (Jwt.ValidateToken _ _ _) as [c|]; [|done]. exists c.
      destruct (revocationStore a) as [s|]; [destruct (IsRevoked _ _) eqn:Er|]; simplify_eq;
        split_and!; try done.
      intros s' [= <-]. unfold IsRevoked in Er. decide_bools. by apply eq_None_not_Some.
  - intros rbac Hr. unfold checkProcedureRBAC in Ec. rewrite Hr in Ec.
    destruct (adminOnly rbac), (bool_decide (r = RoleAdmin)) eqn:Ed; cbn in Ec; try done;
      destruct (bool_decide (_ < _)) eqn:El; try done; decide_bools; split; try done; lia.
Qed.

(** The four ranks, and that only the administrator has the highest. *)
Lemma roleRank_admin r : 3 ≤ roleRank r → r = RoleAdmin.
Proof. unfold roleRank. intros. case_bools; (done || lia). Qed.

(** Authorisation is monotone: whatever a role may call, every role of at
    least its rank may call too. *)
Theorem checkProcedureRBAC_monotone (procedure : string) (r r' : Role) :
  roleRank r ≤ roleRank r' →
  checkProcedureRBAC procedure r = None → checkProcedureRBAC procedure r' = None.
Proof.
  intros Hr. unfold checkProcedureRBAC. destruct (rbac_of procedure) as [rbac|]; [|done].
  destruct (adminOnly rbac); cbn [andb].
  - destruct (decide (r = RoleAdmin)) as [->|Hne]; [|by rewrite (bool_decide_eq_false_2 (r = _))].
    by rewrite (roleRank_admin r' Hr).
  - intros Hc. destruct (bool_decide (roleRank r < _)) eqn:E; [done|]. decide_bools.
    by rewrite bool_decide_eq_false_2 by lia.
Qed.

Lemma checkProcedureRBAC_monotone_witness :
  checkProcedureRBAC "/aleph.v1.ToolService/DeleteTool" RoleAdmin = None.
Proof.
  apply (checkProcedureRBAC_monotone _ RoleUser RoleAdmin).
  - vm_compute. discriminate.
  - vm_compute. reflexivity.
Defined.

Definition method_of (procedure : string) : string := List.last (str_split "/" procedure) "".
Definition mutates (procedure : string) : bool :=
  existsb (λ p, String.prefix p (method_of procedure))
    ["Create"; "Update"; "Delete"; "Save"; "Upload"; "Register"; "Run"; "Send"; "Confirm"; "Execute"]
  && negb (bool_decide (method_of procedure = "ExecuteQuery")).

Lemma table_mutations :
  forallb (λ e, negb (mutates e.1) ||
    bool_decide (checkProcedureRBAC e.1 RoleReadOnly = Some ErrForbidden)) procedureRBAC = true.
Proof. vm_compute. reflexivity. Qed.

(** *** Session cookies *)

Definition cookie_char (c : ascii) : bool := Jwt.token_char c || bool_decide (c = "="%char).

Lemma cookie_char_plain c :
  cookie_char c = true →
  is_ascii_char c = true ∧ is_space_char c = false ∧ is_ows c = false ∧ c ≠ ";"%char ∧
  valid_cookie_char c = true.
Proof. by destruct c as [[] [] [] [] [] [] [] []]; vm_compute; intros. Qed.

Lemma trim_plain s :
  str_all cookie_char s = true → TrimSpace s = s ∧ TrimString s = s ∧ str_mem ";" s = false.
Proof.
  intros Hs. assert (str_all is_ascii_char s = true) as Ha
    by (eapply str_all_impl; [|exact Hs]; intros c Hc; by apply cookie_char_plain).
  unfold TrimSpace, TrimString. rewrite Ha. clear Ha.
  assert (trim_right s = s ∧ trim_ows_right s = s ∧ str_mem ";" s = false) as (Hr & Ho & Hm).
  { induction s as [|c s IH]; [done|]. simpl in *. apply andb_true_iff in Hs as [Hc Hs].
    destruct (cookie_char_plain c Hc) as (_ & Hsp & How & Hne & _).
    destruct (IH Hs) as (-> & -> & ->).
    rewrite Hsp, How, !andb_false_r, orb_false_r. split_and!; try done.
    apply bool_decide_eq_false_2. by intros <-. }
  destruct s as [|c s]; [done|]. simpl in Hs. apply andb_true_iff in Hs as [Hc _].
  destruct (cookie_char_plain c Hc) as (_ & Hsp & How & _ & _).
  cbn [trim_left trim_ows_left]. rewrite Hsp, How. done.
Qed.

(** The request a browser makes with the session cookie [t]. *)
Definition with_session (t : string) : Header :=
  λ name, if bool_decide (name = "Cookie") then ["aleph_jwt=" +:+ t] else [].

Lemma with_session_cookies t :
  t ≠ "" → str_all Jwt.token_char t = true →
  jwtFromCookie (with_session t) = t ∧ Cookie (with_session t) "aleph_jwt" = Some t.
Proof.
  intros Hne Ht.
  assert (str_all cookie_char t = true) as Hc
    by (eapply str_all_impl; [|exact Ht]; unfold cookie_char; by intros c ->).
  assert (str_all cookie_char ("aleph_jwt=" +:+ t) = true) as Hl by (by rewrite str_all_app, Hc).
  destruct (trim_plain _ Hl) as (Hs & Ho & Hm).
  assert (CutPrefix ("aleph_jwt=" +:+ t) "aleph_jwt=" = Some t) as Hp.
  { unfold CutPrefix. replace (String.prefix "aleph_jwt=" ("aleph_jwt=" +:+ t)) with true.
    - by rewrite str_drop_app_exact.
    - symmetry. apply prefix_iff. eauto. }
  unfold jwtFromCookie, Cookie.
  change (with_session t "Cookie") with ["aleph_jwt=" +:+ t].
  cbn [fmap list_fmap mjoin list_join]. unfold compose. rewrite Ho, str_split_no_sep by done.
  cbn [app omap list_omap]. rewrite Hs, Hp. split; [done|].
  unfold cookie_part. rewrite Ho.
  assert (str_cut "=" ("aleph_jwt=" +:+ t) = Some ("aleph_jwt", t)) as ->
    by (by apply str_cut_spec).
  cbn [default from_option id]. change (TrimString "aleph_jwt") with "aleph_jwt".
  rewrite (bool_decide_eq_false_2 (_ = "")) by done. rewrite bool_decide_eq_true_2 by done.
  unfold cookie_value, strip_quotes.
  assert (String.get 0 t ≠ Some dquote) as Hq.
  { destruct t as [|c t]; [done|]. simpl in Ht. apply andb_true_iff in Ht as [Hc0 _].
    intros [= ->]. done. }
  rewrite (bool_decide_eq_false_2 (String.get 0 t = _)) by done.
  rewrite andb_false_r, andb_false_l.
  assert (str_all valid_cookie_char t = true) as ->
    by (eapply str_all_impl; [|exact Hc]; intros c Hcc; by apply cookie_char_plain).
  done.
Qed.

Lemma ValidateAPIKey_role db key p r : ValidateAPIKey db key = Ok (p, r) → r ≠ "".
Proof.
  unfold ValidateAPIKey. destruct (bool_decide (_ < 8)%nat); [done|].
  destruct (bool_decide (bootstrapRole _ _ = "")) eqn:E; cbn [negb]; decide_bools; [|naive_solver].
  destruct (GetAPIKeyByID _ _) as [[[h p'] dr]|]; [|done].
  destruct (verify key h) as [[]|]; [|done|done]. intros [= <- <-].
  destruct (bool_decide (dr = "")) eqn:E'; decide_bools; [|done].
  unfold roleFromEnvImpl. by repeat case_match.
Qed.

Lemma maskAPIKey_nonempty key : maskAPIKey key ≠ "".
Proof.
  unfold maskAPIKey. case_bools; [done|].
  assert (∀ n s, (n < String.length s)%nat → str_drop n s ≠ "") as Hd.
  { induction n as [|n IH]; intros [|c s]; simpl; intros; try lia; try done. apply IH. lia. }
  apply Hd. lia.
Qed.

(** What a created session consists of. *)
Lemma HandleCreateSession_inv a now rand key t age project :
  HandleCreateSession a now rand (Some key) = SessionCookie t age project →
  ∃ r b, ValidateAPIKey (metaRepo a) key = Ok (project, r) ∧ rand = Some b ∧ r ≠ "" ∧
    Jwt.GenerateToken now (Some b) (Jwt.session (maskAPIKey key) project r) (jwtSecret a)
      Jwt.JWTTTL = Ok t ∧
    jwtFromCookie (with_session t) = t ∧ Cookie (with_session t) "aleph_jwt" = Some t ∧ t ≠ "".
Proof.
  unfold HandleCreateSession. destruct (bool_decide (key = "")); [done|].
  destruct (ValidateAPIKey (metaRepo a) key) as [[p r]|] eqn:Ev; [|done].
  destruct (Jwt.GenerateToken _ _ _ _ _) as [t'|] eqn:Eg; [|done]. intros [= -> <- ->].
  destruct (Jwt.GenerateToken_inv _ _ _ _ _ _ Eg) as (_ & b & -> & Hs).
  apply Jwt.jwt_token_chars in Hs as [Hne Hc].
  destruct (with_session_cookies t Hne Hc) as [Hj Hk].
  exists r, b. eauto 10 using ValidateAPIKey_role.
Qed.

(** The text of a session, as far as the token library must carry it. *)
Definition session_ascii (a : AuthInterceptor) (key : string) : Prop :=
  ∀ p r, ValidateAPIKey (metaRepo a) key = Ok (p, r) →
         Jwt.claims_ascii (Jwt.session (maskAPIKey key) p r) = true.

(** C24: a session works: the cookie that the session endpoint sets for an API key
    authenticates later requests as the project and role of that key, until it
    expires, as long as its identifier is not revoked. *)
Theorem session_authenticates (a a' : AuthInterceptor) (now now' : Time)
    (b key t project : string) (age : Z) :
  HandleCreateSession a now (Some b) (Some key) = SessionCookie t age project →
  b ≠ "" → session_ascii a key → jwtSecret a' = jwtSecret a →
  (∀ s, revocationStore a' = Some s → revoked s !! Hex.EncodeToString b = None) →
  now ≤ now' < Jwt.NewNumericDate (now + Jwt.JWTTTL) →
  ∃ r, ValidateAPIKey (metaRepo a) key = Ok (project, r) ∧
       authenticate a' now' (with_session t) = Ok (project, r).
Proof.
  intros (r & b' & Hv & [= <-] & Hr & Hg & Hj & _ & Hne)%HandleCreateSession_inv Hb Ha Hs Hrev Hn.
  exists r. split; [done|]. unfold authenticate. rewrite Hj, bool_decide_eq_false_2 by done.
  cbn [negb]. unfold validateJWTWithRevocation. rewrite Hs.
  rewrite (Jwt.GenerateToken_valid _ now' _ _ _ _ _ _ _ Hg); auto using maskAPIKey_nonempty; [|lia|].
  2: { intros e [= <-]. tauto. }
  unfold session_role. cbn [Jwt.issued Jwt.registered Jwt.session Jwt.ProjectID Jwt.Role Jwt.ID].
  rewrite bool_decide_eq_false_2 by done. destruct (revocationStore a') as [s|]; [|done].
  unfold IsRevoked. rewrite (Hrev s eq_refl). by rewrite bool_decide_eq_false_2 by (by intros [? ?]).
Qed.

(** The store of an interceptor after further revocations and cleanup ticks. *)
Definition later (es : list (Time * event)) (a : AuthInterceptor) : AuthInterceptor :=
  {| metaRepo := metaRepo a; jwtSecret := jwtSecret a;
     revocationStore := run_events es <$> revocationStore a |}.

(** C5: logging out is final for the interceptor: once the session's token is
    handed in for deletion, no later request with it is authenticated, whatever
    revocations and cleanup ticks come between; the store forgets a revocation
    only when the token has expired. *)
Theorem logout_is_final (a : AuthInterceptor) (s : TokenRevocationStore)
    (now out now' : Time) (b key t project : string) (age : Z) (es : list (Time * event)) :
  HandleCreateSession a now (Some b) (Some key) = SessionCookie t age project →
  b ≠ "" → session_ascii a key →
  revocationStore a = Some s → ttl s = Jwt.JWTTTL →
  now ≤ out → out ≤ now' →
  Forall (λ e, out ≤ e.1) es → Forall (λ e, e.1 ≤ now') es →
  ∃ e, authenticate (later es (HandleDeleteSession a out (with_session t)).1) now'
         (with_session t) = Err e.
Proof.
  intros (r & b' & Hv & [= <-] & Hr & Hg & Hj & Hk & Hne)%HandleCreateSession_inv
    Hb Ha Hs Httl Ho Hn Hes Hes'.
  pose proof (Jwt.jwt_date (now + Jwt.JWTTTL)) as Hd.
  unfold authenticate. rewrite Hj, (bool_decide_eq_false_2 (t = "")) by done. cbn [negb].
  unfold validateJWTWithRevocation, HandleDeleteSession. rewrite Hk, Hs.
  cbn [later jwtSecret revocationStore fst].
  destruct (Jwt.ValidateToken now' t (jwtSecret a)) as [c'|e] eqn:Ev; [|by eauto].
  eapply Jwt.GenerateToken_only in Ev as [-> Hlt]; eauto using maskAPIKey_nonempty.
  2: { intros e [= <-]. unfold Jwt.JWTTTL, minute, second in *. cbn in *. lia. }
  change (now' < Jwt.NewNumericDate (now + Jwt.JWTTTL)) in Hlt.
  rewrite (Jwt.GenerateToken_valid _ out _ _ _ _ _ _ _ Hg);
    auto using maskAPIKey_nonempty.
  2: { intros e [= <-]. change (out < Jwt.NewNumericDate (now + Jwt.JWTTTL)). lia. }
  set (c := Jwt.issued now Jwt.JWTTTL b _).
  assert (Jwt.ID c ≠ "") as Hid by (cbn; by destruct b).
  rewrite bool_decide_eq_false_2 by done. cbn [negb fmap option_fmap option_map].
  rewrite (revoked_kept es _ (Jwt.ID c) out now'); [by eauto| | |done|done|].
  - cbn. rewrite Httl. by vm_compute.
  - exists out. cbn. by rewrite lookup_insert_eq.
  - cbn. rewrite Httl. lia.
Qed.

(** *** What the code does not intend *)

(** Every string of eight bytes or more that starts with "user_" or "ro_" is
    accepted as an API key, with an empty database too: the check meant for the
    backend key takes the prefix for a proof of identity. *)
Theorem prefix_authenticates (a : AuthInterceptor) (now : Time) (suffix : string) (h : Header) :
  (3 ≤ String.length suffix)%nat → "user_" +:+ suffix ≠ backendKey →
  jwtFromCookie h = "" → extractApiKey h = "user_" +:+ suffix →
  authenticate a now h = Ok ("bootstrap", RoleUser).
Proof.
  intros Hl Hk Hj He. unfold authenticate. rewrite Hj, He, bool_decide_eq_true_2 by done. cbn [negb].
  rewrite bool_decide_eq_false_2 by done. cbn [negb]. unfold ValidateAPIKey.
  rewrite bool_decide_eq_false_2 by (rewrite str_length_app; cbn; lia).
  unfold bootstrapRole. rewrite (bool_decide_eq_false_2 (_ = backendKey)), andb_false_r by done.
  replace (String.prefix "user_" ("user_" +:+ suffix)) with true by (symmetry; apply prefix_iff; eauto).
  done.
Qed.

(** The HTTP routes accept a token that the interceptor refuses as revoked. *)
Theorem http_ignores_revocation (a : AuthInterceptor) (s : TokenRevocationStore) (now : Time)
    (h : Header) (c : Jwt.SessionToken) :
  jwtFromCookie h ≠ "" →
  Jwt.ValidateToken now (jwtFromCookie h) (jwtSecret a) = Ok c →
  revocationStore a = Some s → IsRevoked (Jwt.ID c) s = true →
  authenticate a now h = Err TokenRevoked ∧
  authenticateHTTP (metaRepo a) (jwtSecret a) now h = Ok (Jwt.ProjectID c, session_role c).
Proof.
  intros Hj Hv Hs Hr. unfold authenticate, authenticateHTTP, validateJWTWithRevocation, validateJWT.
  by rewrite bool_decide_eq_false_2, Hv, Hs, Hr by done.
Qed.

(** *** The roles that exist *)

(** The repositories that the key handlers build from the empty one. *)
Inductive repo_step : Repo → Repo → Prop :=
| repo_create rand salt p l db : repo_step db (CreateApiKey rand salt p l db).1
| repo_delete id p db : repo_step db (DeleteApiKey id p db).

Lemma repo_step_roles db db' :
  repo_step db db' → map_Forall (λ _ row, role row = RoleUser) db →
  map_Forall (λ _ row, role row = RoleUser) db'.
Proof.
  destruct 1 as [rand salt p l db|id p db]; intros Hf.
  - unfold CreateApiKey, CreateAPIKey. destruct rand as [b|]; [|done].
    destruct (ApiKeyHash.HashAPIKey _ _ _ _); [|done].
    destruct (bool_decide (is_Some _)); [done|]. by apply map_Forall_insert_2.
  - unfold DeleteApiKey, DeleteAPIKey. repeat (case_match; try done). by apply map_Forall_delete.
Qed.

(** C30: on every repository built by the key handlers an API key has one of the
    three roles, and is an administrator's only if it is the backend key of the
    environment: no key that was created or guessed can become one. *)
Theorem ValidateAPIKey_roles (db : Repo) (apiKey project : string) (r : Role) :
  star repo_step ∅ db → ValidateAPIKey db apiKey = Ok (project, r) →
  (r = RoleAdmin ∧ apiKey = backendKey ∧ backendKey ≠ "") ∨ r = RoleUser ∨ r = RoleReadOnly.
Proof.
  intros Hdb. assert (map_Forall (λ _ row, role row = RoleUser) db) as Hf.
  { eapply star_invariant; [exact repo_step_roles|exact Hdb|]. apply map_Forall_empty. }
  unfold ValidateAPIKey, bootstrapRole, roleFromEnvImpl, GetAPIKeyByID.
  destruct (bool_decide (_ < 8)%nat); [done|].
  destruct (bool_decide (backendKey = "")) eqn:Eb, (bool_decide (apiKey = backendKey)) eqn:Ek;
    cbn [negb andb]; decide_bools; try (intros [= <- <-]; by left);
    (destruct (String.prefix "user_" apiKey); [intros [= <- <-]; by right; left|]);
    (destruct (String.prefix "ro_" apiKey); [intros [= <- <-]; by right; right|]);
    cbn; (destruct (db !! _) as [row|] eqn:El; [|done]); cbn;
    destruct (verify apiKey _) as [[]|]; try done; intros [= <- <-];
    rewrite (Hf _ _ El); by right; left.
Qed.

(** A key that was created is accepted: validating it finds the new row by the
    first eight characters, verifies the hash and answers the project with the
    role of a user. *)
Theorem CreateApiKey_validates (db db' : Repo) (rand salt : option string)
    (project lab : string) (k : ApiKey) :
  CreateApiKey rand salt project lab db = (db', Some k) →
  (∀ b, rand = Some b → String.length b = 16%nat) → Key k ≠ backendKey →
  ValidateAPIKey db' (Key k) = Ok (project, RoleUser) ∧
  ∀ id, id ≠ Id k → db' !! id = db !! id.
Proof.
  unfold CreateApiKey. destruct rand as [b|]; [|done]. intros Hc Hb Hk.
  specialize (Hb b eq_refl). destruct salt as [salt|]; [|done].
  destruct (ApiKeyHash.HashAPIKey _ _ _ _) as [h|] eqn:Eh; [|done].
  apply (ApiKeyHash.verify_hashed _ _ _ _ (Hex.EncodeToString b)) in Eh.
  unfold CreateAPIKey in Hc. destruct (bool_decide (is_Some _)); [done|]. simplify_eq/=.
  split; [|intros id Hid; by rewrite lookup_insert_ne].
  unfold ValidateAPIKey, bootstrapRole, GetAPIKeyByID. rewrite Hex.Encode_length, Hb.
  cbn [bool_decide]. rewrite bool_decide_eq_false_2 by lia.
  rewrite (bool_decide_eq_false_2 (_ = backendKey)), andb_false_r by done.
  assert (∀ p, str_all Hex.is_hex_char p = false →
    String.prefix p (Hex.EncodeToString b) = false) as Hp.
  { intros p Hp. apply not_true_iff_false. intros [q Hq]%prefix_iff.
    pose proof (Hex.Encode_chars b) as Ha. rewrite Hq, str_all_app, Hp in Ha. done. }
  rewrite !Hp by done. cbn [negb].
  destruct (str_take_drop 4 b) as [Htd Hl4]; [lia|].
  assert (str_take 8 (Hex.EncodeToString b) = Hex.EncodeToString (str_take 4 b)) as ->.
  { rewrite <- Htd at 1. rewrite Hex.Encode_app. apply str_take_app_exact.
    by rewrite Hex.Encode_length, Hl4. }
  rewrite lookup_insert_eq. cbn.
  by rewrite Eh, !bool_decide_eq_true_2 by done.
Qed.
End Auth.

(** The two role checks agree: the middleware, which looks the role up in a
    set, lets a request pass exactly when the linear check of the handlers
    returns no error, whatever the context holds. *)
Theorem RequireRoleHTTP_equiv {A} (allowed : list Role) (next : auth_ctx → A) (c : auth_ctx) :
  RequireRoleHTTP allowed next c =
  match RequireRole c allowed with
  | None => Next (next c)
  | Some e => HttpError 403 (error_text e)
  end.
Proof.
  unfold RequireRoleHTTP. induction allowed as [|r l IH]; [done|]. cbn [RequireRole list_to_set].
  destruct (decide (RoleFromContext c = r)) as [->|Hne].
  - rewrite !bool_decide_eq_true_2 by set_solver. done.
  - rewrite (bool_decide_eq_false_2 (_ = r)) by done. rewrite <- IH.
    rewrite (bool_decide_ext _ (RoleFromContext c ∈ (list_to_set l : gset Role))) by set_solver.
    done.
Qed.

(** Scopes are inclusion of sets: access is granted exactly when every
    non-empty required scope is, up to surrounding space, among the token's. *)
Theorem ValidateScopes_spec `{Unicode} (required tokenScopes : string) :
  ValidateScopes required tokenScopes = true ↔
  ∀ r, r ∈ str_split "," required → TrimSpace r ≠ "" →
       ∃ s, s ∈ str_split "," tokenScopes ∧ TrimSpace s = TrimSpace r.
Proof.
  unfold ValidateScopes. destruct (decide (required = "")) as [->|Hne].
  { rewrite bool_decide_eq_true_2 by done. split; [|done]. intros _ r.
    cbn. rewrite list_elem_of_singleton. intros ->. done. }
  rewrite bool_decide_eq_false_2 by done. rewrite forallb_forall.
  setoid_rewrite <- list_elem_of_In.
  split; intros Ha r Hr; specialize (Ha r Hr).
  - intros Hn. rewrite (bool_decide_eq_false_2 (_ = "")) in Ha by done. cbn in Ha.
    rewrite negb_involutive, bool_decide_eq_true, elem_of_list_to_set, list_elem_of_fmap in Ha.
    destruct Ha as (s & -> & Hs). eauto.
  - destruct (decide (TrimSpace r = "")) as [E|E]; [by rewrite bool_decide_eq_true_2|].
    rewrite (bool_decide_eq_false_2 (_ = "")) by done. cbn.
    rewrite negb_involutive, bool_decide_eq_true, elem_of_list_to_set, list_elem_of_fmap.
    destruct (Ha E) as (s & Hs & Ht). eauto.
Qed.

(** A read-only caller can change nothing through a procedure of the table,
    and a caller whose role is unknown even less. *)
Theorem readonly_cannot_mutate (procedure : string) (rbac : procedureRole) (r : Role) :
  (procedure, rbac) ∈ procedureRBAC → mutates procedure = true → roleRank r ≤ 1 →
  checkProcedureRBAC procedure r = Some ErrForbidden.
Proof.
  intros Hin Hm Hr. pose proof table_mutations as Ht. rewrite forallb_forall in Ht.
  apply list_elem_of_In in Hin. apply Ht in Hin. cbn in Hin. rewrite Hm in Hin. cbn in Hin.
  apply bool_decide_eq_true_1 in Hin.
  destruct (checkProcedureRBAC procedure r) as [[]|] eqn:E; try (unfold checkProcedureRBAC in E; repeat case_match; congruence).
  assert (checkProcedureRBAC procedure RoleReadOnly = None) as Hn; [|congruence].
  unfold checkProcedureRBAC in *. destruct (rbac_of procedure) as [q|]; [|done].
  destruct (adminOnly q); cbn [andb] in *.
  - destruct (bool_decide (r = RoleAdmin)) eqn:Ea; [|done]. decide_bools. subst. done.
  - destruct (bool_decide (roleRank r < _)) eqn:El; [done|]. decide_bools.
    rewrite bool_decide_eq_false_2; [done|]. change (roleRank RoleReadOnly) with 1. lia.
Qed.

Lemma readonly_cannot_mutate_witness :
  checkProcedureRBAC "/aleph.v1.ToolService/DeleteTool" RoleReadOnly = Some ErrForbidden.
Proof.
  apply (readonly_cannot_mutate _ {| adminOnly := false; minRole := RoleUser |} _).
  - apply list_elem_of_In. vm_compute. tauto.
  - vm_compute. reflexivity.
  - vm_compute. discriminate.
Defined.

(** *** A concrete deployment *)
#[local] Instance sample_tables : Unicode := ascii_tables.
Definition sample_hash (key salt : string) (_ _ _ _ : Z) : string := key +:+ salt.
Definition sample_backend : string := "root-key".
Definition sample_session : Jwt.SessionToken :=
  @Jwt.registered (Jwt.one_token (Jwt.session "" "" "") "") Jwt.sample_now Jwt.JWTTTL
    (Hex.EncodeToString Jwt.sample_rand) (Jwt.session "-key" "bootstrap" "admin").
#[local] Instance sample_lib : Jwt.JwtLib := Jwt.one_token sample_session "k".
Definition sample_auth : AuthInterceptor := NewAuthInterceptor ∅ "k".
Definition key_header (key : string) : Header :=
  λ name, if bool_decide (name = "X-Aleph-Api-Key") then [key] else [].

Lemma sample_create :
  HandleCreateSession sample_hash 19 sample_backend sample_auth Jwt.sample_now
    (Some Jwt.sample_rand) (Some sample_backend) = SessionCookie "h.p.s" 3600 "bootstrap".
Proof. vm_compute. reflexivity. Defined.

Lemma sample_ascii : session_ascii sample_hash 19 sample_backend sample_auth sample_backend.
Proof. intros p r [= <- <-]. vm_compute. reflexivity. Defined.

Lemma session_authenticates_witness :
  ∃ r, authenticate sample_hash 19 sample_backend sample_auth (Jwt.sample_now + minute)
         (with_session "h.p.s") = Ok ("bootstrap", r).
Proof.
  destruct (session_authenticates sample_hash 19 sample_backend sample_auth sample_auth Jwt.sample_now
    (Jwt.sample_now + minute) Jwt.sample_rand sample_backend "h.p.s" "bootstrap" 3600) as (r & _ & Hr).
  - exact sample_create.
  - discriminate.
  - exact sample_ascii.
  - reflexivity.
  - intros s [= <-]. reflexivity.
  - split; vm_compute; [discriminate|reflexivity].
  - exists r. exact Hr.
Defined.

Lemma logout_is_final_witness :
  ∃ e, authenticate sample_hash 19 sample_backend
         (later [(Jwt.sample_now + 2 * minute, DoTick)]
            (HandleDeleteSession sample_auth (Jwt.sample_now + minute) (with_session "h.p.s")).1)
         (Jwt.sample_now + 3 * minute) (with_session "h.p.s") = Err e.
Proof.
  apply (logout_is_final sample_hash 19 sample_backend sample_auth
    (NewTokenRevocationStore (60 * minute)) Jwt.sample_now
    (Jwt.sample_now + minute) (Jwt.sample_now + 3 * minute) Jwt.sample_rand sample_backend
    "h.p.s" "bootstrap" 3600).
  - exact sample_create.
  - discriminate.
  - exact sample_ascii.
  - reflexivity.
  - reflexivity.
  - vm_compute. discriminate.
  - vm_compute. discriminate.
  - repeat constructor; vm_compute; discriminate.
  - repeat constructor; vm_compute; discriminate.
Defined.

Lemma WrapUnary_authorised_witness :
  ∃ project r, known_key sample_hash 19 sample_backend ∅ sample_backend project r.
Proof.
  destruct (WrapUnary_authorised (E := unit) sample_hash 19 sample_backend sample_auth Jwt.sample_now
    "/aleph.v1.AuthService/CreateApiKey" (key_header sample_backend)
    (λ c, Ok (ProjectIDFromContext c)) empty_ctx "bootstrap") as (p & r & _ & [(c & Hc & _)|(_ & _ & Hv)] & _).
  - vm_compute. reflexivity.
  - exfalso. revert Hc. vm_compute. discriminate.
  - exists p, r. exact Hv.
Defined.

Lemma prefix_authenticates_witness :
  authenticate sample_hash 19 sample_backend sample_auth Jwt.sample_now (key_header "user_123")
  = Ok ("bootstrap", RoleUser).
Proof.
  apply (prefix_authenticates sample_hash 19 sample_backend sample_auth Jwt.sample_now "123").
  - vm_compute. lia.
  - discriminate.
  - reflexivity.
  - vm_compute. reflexivity.
Defined.

Lemma http_ignores_revocation_witness :
  let a := (HandleDeleteSession sample_auth (Jwt.sample_now + minute) (with_session "h.p.s")).1 in
  let now := Jwt.sample_now + 2 * minute in
  authenticate sample_hash 19 sample_backend a now (with_session "h.p.s") = Err TokenRevoked ∧
  authenticateHTTP sample_hash 19 sample_backend (metaRepo a) (jwtSecret a) now (with_session "h.p.s")
  = Ok ("bootstrap", RoleAdmin).
Proof.
  intros a now.
  apply (http_ignores_revocation sample_hash 19 sample_backend a
    (Revoke (Jwt.sample_now + minute) (Jwt.ID sample_session) (NewTokenRevocationStore (60 * minute)))
    now (with_session "h.p.s") sample_session); vm_compute; reflexivity || discriminate.
Defined.

Definition sample_created :=
  CreateApiKey sample_hash 19 (Some "0123456789abcdef") (Some "salt") "p1" "ci" ∅.

Lemma ValidateAPIKey_roles_witness :
  ValidateAPIKey sample_hash 19 sample_backend sample_created.1 (Hex.EncodeToString "0123456789abcdef")
    = Ok ("p1", RoleUser) ∧
  (RoleUser = RoleAdmin ∧ Hex.EncodeToString "0123456789abcdef" = sample_backend ∧ sample_backend ≠ ""
   ∨ RoleUser = RoleUser ∨ RoleUser = RoleReadOnly).
Proof.
  assert (ValidateAPIKey sample_hash 19 sample_backend sample_created.1
    (Hex.EncodeToString "0123456789abcdef") = Ok ("p1", RoleUser)) as Hv by (vm_compute; reflexivity).
  split; [exact Hv|].
  apply (ValidateAPIKey_roles sample_hash 19 sample_backend sample_created.1 _ "p1" RoleUser); [|exact Hv].
  eapply star_step; [|apply star_refl].
  exact (repo_create _ _ (Some "0123456789abcdef") (Some "salt") "p1" "ci" ∅).
Defined.

Lemma CreateApiKey_validates_witness :
  ValidateAPIKey sample_hash 19 sample_backend sample_created.1 (Hex.EncodeToString "0123456789abcdef")
    = Ok ("p1", RoleUser).
Proof.
  apply (CreateApiKey_validates sample_hash 19 sample_backend ∅ sample_created.1
    (Some "0123456789abcdef") (Some "salt") "p1" "ci"
    {| Id := "30313233"; Label := "ci"; Key := Hex.EncodeToString "0123456789abcdef" |}).
  - vm_compute. reflexivity.
  - intros b [= <-]. reflexivity.
  - vm_compute. discriminate.
Defined.
End Auth.
