(* ===== verification/Chat.v ===== *)
(** * The chat session (api/handler/chat_session.go) and its tool executor

    Module [Executor] models tool_executor.go, module [Chat] the loop of a chat
    session over the decision engine: planning, running the planned steps in
    dependency order, completions, tool calls, observation and reflection.

    The outside world is the record [World]: when the context is cancelled, when
    a message cannot be sent or stored, which provider each completion meets,
    and the durations that the engine measures.  The session's history, stream
    and stored messages are its state. *)

From S2P Require Import Prelude GoStrings GoValues DslAst DecisionTypes Reflector StepSort DecisionEngine.

(** ** The tool executor *)
Module Executor.
Import Engine.

(** [args[k].(string)], the empty string when it is not one. *)
Definition arg_string (k : string) (args : list (string * any)) : string :=
  match snd <$> head (filter (λ p, p.1 = k) args) with Some (AnyStr s) => s | _ => "" end.

Definition arg_float (k : string) (args : list (string * any)) : option f64 :=
  match snd <$> head (filter (λ p, p.1 = k) args) with Some (AnyNum f) => Some f | _ => None end.

Record QueryRequest := { ObjectType : string; ProjectId : string; Limit : Z }.

(** The handler's query, the sentiment service and the registry; [json] is
    [json.Marshal] of the rows, the sentiment and the component. *)
Record toolExecutor (Rows Sentiment Comp : Type) := {
  executeQuery : QueryRequest → result string Rows;
  nlpHandler : option (string → result string Sentiment);
  reg : option (string → option Comp);
  json_rows : Rows → string;
  json_sentiment : Sentiment → string;
  json_trust : string → Comp → string;
}.
Arguments executeQuery {_ _ _}. Arguments nlpHandler {_ _ _}. Arguments reg {_ _ _}.
Arguments json_rows {_ _ _}. Arguments json_sentiment {_ _ _}. Arguments json_trust {_ _ _}.

Section Executor.
Context {Rows Sentiment Comp : Type} (e : toolExecutor Rows Sentiment Comp).

Definition outcome (out : string) : ExecOutcome :=
  {| ExecOutput := out; ExecConfirm := false; ExecErr := None |}.
Definition failure (err : string) : ExecOutcome :=
  {| ExecOutput := ""; ExecConfirm := false; ExecErr := Some err |}.

Definition truncation_note : string :=
  String newline "... [Results truncated due to context limits.]".

Definition search_limit (args : list (string * any)) : Z :=
  match arg_float "limit" args with
  | Some l => wrap32 (wrap64 (f64_trunc l))
  | None => wrap32 10
  end.

Definition executeSearchData (args : list (string * any)) (projectID : string) : ExecOutcome :=
  let objName := arg_string "object_name" args in
  if bool_decide (objName = "") then failure "Error: object_name parameter missing"
  else match executeQuery e {| ObjectType := objName; ProjectId := projectID;
                               Limit := search_limit args |} with
  | Err err => failure ("Error: " +:+ err)
  | Ok rows =>
    let resultStr := json_rows e rows in
    outcome (if bool_decide (2000 < str_len resultStr)
             then str_take 2000 resultStr +:+ truncation_note else resultStr)
  end.

Definition executeAnalyzeSentiment (args : list (string * any)) : ExecOutcome :=
  let text := arg_string "text" args in
  if bool_decide (text = "") then failure "Error: text parameter missing for analyze_sentiment"
  else match nlpHandler e with
  | Some analyze =>
    match analyze text with
    | Err err => failure ("Sentiment analysis error: " +:+ err)
    | Ok resp => outcome (json_sentiment e resp)
    end
  | None => outcome ("{" +:+ String dquote "error" +:+ String dquote ": " +:+
                     String dquote "sentiment service unavailable" +:+ String dquote "}")
  end.

Definition executeGetTrustScore (args : list (string * any)) : ExecOutcome :=
  let entityID := arg_string "entity_id" args in
  if bool_decide (entityID = "") then failure "Error: entity_id parameter missing for get_trust_score"
  else match reg e with
  | Some lookup_component =>
    match lookup_component entityID with
    | None => failure ("{" +:+ String dquote "error" +:+ String dquote ": " +:+
                       String dquote "entity " +:+ entityID +:+ " not found" +:+ String dquote "}")
    | Some comp => outcome (json_trust e entityID comp)
    end
  | None => outcome ("{" +:+ String dquote "error" +:+ String dquote ": " +:+
                     String dquote "registry unavailable" +:+ String dquote "}")
  end.

Definition ExecuteTool (toolName : string) (args : list (string * any))
    (projectID agentID : string) : ExecOutcome :=
  if bool_decide (toolName = "search_data") then executeSearchData args projectID
  else if bool_decide (toolName = "analyze_sentiment") then executeAnalyzeSentiment args
  else if bool_decide (toolName = "get_trust_score") then executeGetTrustScore args
  else {| ExecOutput := "Proposta azione '" +:+ toolName +:+ "' in attesa di conferma.";
          ExecConfirm := true; ExecErr := None |}.

Lemma builtin_no_confirm name args p a :
  is_builtin name = true → ExecConfirm (ExecuteTool name args p a) = false.
Proof.
  unfold is_builtin, ExecuteTool. intros Hb%bool_decide_eq_true_1.
  rewrite !elem_of_cons in Hb.
  destruct Hb as [-> | [-> | [-> | Hb]]]; cbn [bool_decide]; [| | |by apply elem_of_nil in Hb].
  all: unfold executeSearchData, executeAnalyzeSentiment, executeGetTrustScore;
       repeat (rewrite bool_decide_eq_true_2 by done || rewrite bool_decide_eq_false_2 by done);
       repeat case_match; done.
Qed.

(** The handler's executor and the planner agree on what a known tool is: a
    tool asks for confirmation exactly when it is not one of the three built-in
    ones, and such a tool is never executed, only proposed. *)
Theorem ExecuteTool_confirmation (name : string) (args : list (string * any)) (p a : string) :
  ExecConfirm (ExecuteTool name args p a) = negb (is_builtin name) ∧
  (is_builtin name = false →
   ExecuteTool name args p a =
     {| ExecOutput := "Proposta azione '" +:+ name +:+ "' in attesa di conferma.";
        ExecConfirm := true; ExecErr := None |}).
Proof.
  destruct (is_builtin name) eqn:E; [by split; [apply builtin_no_confirm|]|].
  assert (ExecuteTool name args p a =
     {| ExecOutput := "Proposta azione '" +:+ name +:+ "' in attesa di conferma.";
        ExecConfirm := true; ExecErr := None |}) as ->; [|done].
  unfold is_builtin in E. apply bool_decide_eq_false_1 in E.
  rewrite !not_elem_of_cons in E. destruct E as (H1 & H2 & H3 & _).
  unfold ExecuteTool. by rewrite !bool_decide_eq_false_2.
Qed.

(** The output of a search never exceeds 2000 bytes and the note, and when
    rows were cut off the observation reports it: with the default threshold the
    note of the truncation is always among the issues, so the cut is never taken
    for a complete answer. *)
Theorem search_truncation_observed {G} (en : engine G) (step : PlannedStep) (project : string)
    (ms : Z) :
  executor en = ExecuteTool → ToolName step = "search_data" →
  truncationThreshold en ≤ 2000 →
  let '(en', r) := Act en step project ms in
  str_len (Output r) ≤ 2000 + str_len truncation_note ∧
  ∀ rows, executeQuery e {| ObjectType := arg_string "object_name" (Arguments_ step);
                            ProjectId := project; Limit := search_limit (Arguments_ step) |} = Ok rows →
    arg_string "object_name" (Arguments_ step) ≠ "" → 2000 < str_len (json_rows e rows) →
    ActError r = "" ∧ ∃ issue, issue ∈ Issues (Observe en' step r) ∧
      String.prefix "output was truncated" issue = true.
Proof.
  intros He Hn Ht. unfold Act. rewrite He, Hn.
  change (ExecuteTool "search_data" (Arguments_ step) project "") with
    (executeSearchData (Arguments_ step) project).
  assert (∀ n s, String.length (str_take n s) = Nat.min n (String.length s)) as Hlen.
  { intros n. induction n as [|n IH]; intros [|c s]; simpl; [lia..|]. by rewrite IH. }
  assert (∀ s, 2000 < str_len s → str_len (str_take 2000 s +:+ truncation_note) = 2000 + str_len truncation_note) as Hcut.
  { intros s Hs. unfold str_len in *. rewrite str_length_app, Hlen. lia. }
  assert (0 < str_len truncation_note) as Hpos by done.
  unfold executeSearchData. cbn [Output ActError]. split.
  - destruct (bool_decide (arg_string _ _ = "")); [done|].
    destruct (executeQuery e _) as [rows|err]; [|done]. cbn [outcome ExecErr ExecOutput].
    destruct (bool_decide _) eqn:E; decide_bools; [rewrite Hcut by done|]; lia.
  - intros rows Hq Ho Hl. rewrite (bool_decide_eq_false_2 _ Ho), Hq.
    cbn [ExecErr outcome default ExecOutput Output ActError].
    rewrite (bool_decide_eq_true_2 (2000 < _)) by done. split; [done|].
    unfold Observe. cbn [Issues]. unfold collect_issues. cbn [ActError Output truncationThreshold with_history].
    match goal with |- context [bool_decide (str_len ?o > ?t)] =>
      rewrite (bool_decide_eq_true_2 (str_len o > t)) end.
    + eexists. split; [apply elem_of_app; right; apply elem_of_app; right; left|]. done.
    + rewrite Hcut by done. destruct (bool_decide (_ ≤ 0)); lia.
Qed.
End Executor.

(** A query that answers with 3000 rows' worth of text. *)
Definition long_rows : string := String.string_of_list_ascii (replicate 3000 "x"%char).
Definition sample_executor : toolExecutor string unit unit :=
  {| executeQuery _ := Ok long_rows; nlpHandler := None; reg := None;
     json_rows r := r; json_sentiment _ := ""; json_trust _ _ := "" |}.
Definition sample_engine : engine unit :=
  {| provider := None; providerBaseURL := ""; metaRepo := None;
     executor := ExecuteTool sample_executor; registry := None; maxAttempts := 5;
     linkPredictor := None; graph := None; reflector := @Reflector.Reflect ascii_tables;
     confirmationThreshold := f64_of_int 0; truncationThreshold := 1900; toolHistory := ∅ |}.
Definition sample_step : PlannedStep := step_of "search_data" [("object_name", AnyStr "Order")].

Lemma search_truncation_observed_witness :
  let '(en', r) := Act sample_engine sample_step "p" 1 in
  ActError r = "" ∧ ∃ issue, issue ∈ Issues (Observe en' sample_step r) ∧
    String.prefix "output was truncated" issue = true.
Proof.
  refine (proj2 (search_truncation_observed sample_executor sample_engine sample_step "p" 1 _ _ _)
    long_rows _ _ _).
  - reflexivity.
  - reflexivity.
  - discriminate.
  - reflexivity.
  - discriminate.
  - vm_compute. reflexivity.
Defined.
End Executor.

(** ** The session *)
Module Chat.
Import Engine StepSort.

Record AgentInfo := {
  AgProvider : string; AgModel : string; AgApiKey : string;
  AgSystemPrompt : string; AgBaseURL : string;
}.

(** A row of the chat history, and a message sent on the stream. *)
Record ChatMessage := { MsgRole : string; MsgContent : string; MsgToolCall : string }.
Inductive response := Token (s : string) | ToolCallNote (s : string) | Confirm.

Inductive chat_error :=
| CtxError (e : string)
| SendError (e : string)
| SaveError (e : string)
| UnsupportedProvider (name : string)
| CompletionFailed (e : string).

Record World := {
  ctx_err : list response → option string;
  send_err : list response → response → option string;
  save_err : list ChatMessage → ChatMessage → option string;
  new_provider : nat → result string Provider;
  act_ms : nat → Z;
  json_args : list (string * any) → string;
  parse_ontology : string → result string Program;
  math_exp : f64 → f64;
}.

(** What the session had of the outside: how many providers it made, and every
    request that was handed to [Complete] of one of them, in order. *)
Record Calls := { providers : nat; asked : list CompletionRequest }.

Record ChatSession (G : Type) := {
  projectID : string;
  agentID : string;
  fullSystemPrompt : string;
  chatMessages : list any;
  tools : list any;
  agent : AgentInfo;
  baseURL : string;
  needsPlanning : bool;
  eng : option (engine G);
  fallback : option ToolExecutor;
  plan : option PlanResult;
  observations : list Observation;
  actResults : list ActResult;
  maxAttempts : Z;
  replanState : string;
  sent : list response;
  stored : list ChatMessage;
  calls : Calls;
}.
Arguments projectID {G}. Arguments agentID {G}. Arguments fullSystemPrompt {G}.
Arguments chatMessages {G}. Arguments tools {G}. Arguments agent {G}. Arguments baseURL {G}.
Arguments needsPlanning {G}. Arguments eng {G}. Arguments fallback {G}. Arguments plan {G}.
Arguments observations {G}. Arguments actResults {G}. Arguments maxAttempts {G}.
Arguments replanState {G}. Arguments sent {G}. Arguments stored {G}. Arguments calls {G}.

(** The parts of the session that the loop writes. *)
Record update (G : Type) := {
  u_messages : list any; u_needs : bool; u_eng : option (engine G); u_plan : option PlanResult;
  u_obs : list Observation; u_results : list ActResult; u_replan : string;
  u_sent : list response; u_stored : list ChatMessage; u_calls : Calls;
}.
Arguments Build_update {G}.

Definition with_ {G} (s : ChatSession G) (u : update G) : ChatSession G := {|
  projectID := projectID s; agentID := agentID s; fullSystemPrompt := fullSystemPrompt s;
  chatMessages := u_messages _ u; tools := tools s; agent := agent s; baseURL := baseURL s;
  needsPlanning := u_needs _ u; eng := u_eng _ u; fallback := fallback s; plan := u_plan _ u;
  observations := u_obs _ u; actResults := u_results _ u; maxAttempts := maxAttempts s;
  replanState := u_replan _ u; sent := u_sent _ u; stored := u_stored _ u; calls := u_calls _ u |}.

Definition set_messages {G} (l : list any) (s : ChatSession G) : ChatSession G :=
  with_ s (Build_update l (needsPlanning s) (eng s) (plan s) (observations s) (actResults s)
             (replanState s) (sent s) (stored s) (calls s)).
Definition set_planning {G} (b : bool) (p : option PlanResult) (r : string) (obs : list Observation)
    (s : ChatSession G) : ChatSession G :=
  with_ s (Build_update (chatMessages s) b (eng s) p obs (actResults s) r (sent s) (stored s)
             (calls s)).
Definition set_results {G} (en : option (engine G)) (rs : list ActResult) (obs : list Observation)
    (s : ChatSession G) : ChatSession G :=
  with_ s (Build_update (chatMessages s) (needsPlanning s) en (plan s) obs rs (replanState s)
             (sent s) (stored s) (calls s)).
Definition set_io {G} (snt : list response) (st : list ChatMessage) (n : Calls) (s : ChatSession G) :
    ChatSession G :=
  with_ s (Build_update (chatMessages s) (needsPlanning s) (eng s) (plan s) (observations s)
             (actResults s) (replanState s) snt st n).

(** A step of the session: the new session and an error or a value. *)
Definition M (G A : Type) : Type := ChatSession G → ChatSession G * result chat_error A.
Definition ret {G A} (a : A) : M G A := λ s, (s, Ok a).
Definition fail {G A} (e : chat_error) : M G A := λ s, (s, Err e).
Definition bind {G A B} (m : M G A) (f : A → M G B) : M G B :=
  λ s, match m s with (s', Ok a) => f a s' | (s', Err e) => (s', Err e) end.
Definition modify {G} (f : ChatSession G → ChatSession G) : M G unit := λ s, (f s, Ok tt).
Notation "'do!' x := m 'in' k" := (bind m (λ x, k))
  (at level 10, x pattern, m at level 100, k at level 200).

Section World.
Context `{Unicode, UnicodeFold} {G : Type} (W : World).

(** [select { case <-ctx.Done(): return ctx.Err() }]. *)
Definition check_ctx : M G unit :=
  λ s, match ctx_err W (sent s) with Some e => (s, Err (CtxError e)) | None => (s, Ok tt) end.

Definition send (r : response) : M G unit :=
  λ s, match send_err W (sent s) r with
       | Some e => (s, Err (SendError e))
       | None => (set_io (sent s ++ [r]) (stored s) (calls s) s, Ok tt)
       end.

(** A send whose error is dropped. *)
Definition send_ignored (r : response) : M G unit := λ s, ((send r s).1, Ok tt).

Definition SaveChatMessage (m : ChatMessage) : M G unit :=
  λ s, match save_err W (stored s) m with
       | Some e => (s, Err (SaveError e))
       | None => (set_io (sent s) (stored s ++ [m]) (calls s) s, Ok tt)
       end.
Definition save_ignored (m : ChatMessage) : M G unit := λ s, ((SaveChatMessage m s).1, Ok tt).

Definition streamResponse (content : string) : M G unit :=
  do! _ := send (Token content) in
  SaveChatMessage {| MsgRole := "assistant"; MsgContent := content; MsgToolCall := "" |}.

(** [llm.NewProvider]; the counter tells the providers apart. *)
Definition NewProvider : M G (result string Provider) :=
  λ s, (set_io (sent s) (stored s)
          {| providers := S (providers (calls s)); asked := asked (calls s) |} s,
        Ok (new_provider W (providers (calls s)))).
Definition set_asked (log : list CompletionRequest) (s : ChatSession G) : ChatSession G :=
  set_io (sent s) (stored s) {| providers := providers (calls s); asked := log |} s.

Definition appendToolResult (iteration : Z) (resultStr : string) : M G unit :=
  modify (λ s, set_messages (chatMessages s ++
    [AnyMap [("role", AnyStr "tool"); ("content", AnyStr resultStr);
             ("tool_call_id", AnyStr ("call_" +:+ fmt_d iteration +:+ "_tools_0"))]]) s).

Definition call_id (iteration : Z) (j : nat) : string :=
  "call_" +:+ fmt_d iteration +:+ "_" +:+ fmt_d (Z.of_nat j).

Definition appendToolCallToMessages (toolCalls : list ToolCall) (responseContent : string)
    (iteration : Z) : M G unit :=
  modify (λ s, set_messages (chatMessages s ++
    [AnyMap [("role", AnyStr "assistant"); ("content", AnyStr responseContent);
             ("tool_calls", AnyList (imap (λ j tc,
               AnyMap [("id", AnyStr (call_id iteration j)); ("type", AnyStr "function");
                       ("function", AnyMap [("name", AnyStr (CallName tc));
                                            ("arguments", AnyStr (json_args W (CallArguments tc)))])])
               toolCalls))]]) s).

Definition field (k : string) (m : any) : option any :=
  match m with AnyMap es => snd <$> head (filter (λ p, p.1 = k) es) | _ => None end.

Definition user_content (m : any) : option string :=
  match field "role" m, field "content" m with
  | Some (AnyStr r), Some (AnyStr c) => if bool_decide (r = "user") then Some c else None
  | _, _ => None
  end.

Definition lastUserMessage (s : ChatSession G) : string :=
  default "" (head (omap user_content (rev (chatMessages s)))).

(** The text of a result in the conversation. *)
Definition result_text (r : ActResult) : string :=
  if bool_decide (ActError r = "") then Output r else "Errore: " +:+ ActError r.

Definition skipped_result (step : PlannedStep) (why : string) : ActResult :=
  {| ActStep := step; Output := why; ActError := ""; DurationMs := 0 |}.

Definition skip_step (iteration : Z) (step : PlannedStep) (note output : string) : M G unit :=
  let skipMsg := "Skipping tool " +:+ ToolName step +:+ ": " +:+ note in
  do! _ := send (ToolCallNote skipMsg) in
  do! _ := appendToolResult iteration ("SKIPPED: " +:+ skipMsg) in
  modify (λ s, set_results (eng s) (actResults s ++ [skipped_result step output]) (observations s) s).

(** Act on a step and keep the engine's new history. *)
Definition act (en : engine G) (step : PlannedStep) : M G ActResult :=
  λ s, let '(en', r) := Act en step (projectID s) (act_ms W (length (actResults s))) in
       (set_results (Some en') (actResults s) (observations s) s, Ok r).

Definition record (step : PlannedStep) (r : ActResult) : M G unit :=
  modify (λ s, set_results (eng s) (actResults s ++ [r])
    (match eng s with
     | Some en => observations s ++ [Observe en step r]
     | None => observations s
     end) s).

(** One planned step; the value says whether it failed. *)
Definition plan_step (iteration : Z) (en : engine G) (step : PlannedStep) (failedDeps : gset string) :
    M G bool :=
  do! _ := check_ctx in
  if ShouldSkipStep step failedDeps then
    do! _ := skip_step iteration step "dependency failed" "SKIPPED: dependency failed" in ret false
  else if ShouldAutoSkip en step then
    do! _ := skip_step iteration step "requires confirmation (threshold active)"
               "SKIPPED: requires confirmation" in ret false
  else
    let reasoning := "Executing planned tool: " +:+ ToolName step in
    do! _ := send (ToolCallNote reasoning) in
    do! _ := save_ignored {| MsgRole := "assistant"; MsgContent := ""; MsgToolCall := reasoning |} in
    do! r := act en step in
    do! _ := (if RequiresConfirmation (ActStep r) then send_ignored Confirm else ret tt) in
    do! _ := appendToolResult iteration (result_text r) in
    do! _ := record step r in
    ret (bool_decide (ActError r ≠ "")).

Fixpoint plan_steps (iteration : Z) (steps : list PlannedStep) (failedDeps : gset string) : M G unit :=
  match steps with
  | [] => ret tt
  | step :: rest => λ s,
    match eng s with
    | None => (s, Ok tt)
    | Some en =>
      bind (plan_step iteration en step failedDeps) (λ failed,
        plan_steps iteration rest (if failed then {[ToolName step]} ∪ failedDeps else failedDeps)) s
    end
  end.

(** Run only with an engine and a plan. *)
Definition executePlanSteps (iteration : Z) : M G unit :=
  λ s, match plan s with
       | None => (s, Ok tt)
       | Some p => plan_steps iteration (default [] (SortStepsByDependencies (Steps p))) ∅ s
       end.

Definition is_skipped (r : ActResult) : bool :=
  bool_decide (Output r = "SKIPPED: dependency failed" ∨ Output r = "SKIPPED: requires confirmation").

Record tally := { t_total : Z; t_succeeded : Z; t_skipped : Z; t_failed : Z }.
Definition count_result (t : tally) (r : ActResult) : tally :=
  if is_skipped r then {| t_total := t_total t + 1; t_succeeded := t_succeeded t;
                          t_skipped := t_skipped t + 1; t_failed := t_failed t |}
  else if bool_decide (ActError r ≠ "")
  then {| t_total := t_total t + 1; t_succeeded := t_succeeded t;
          t_skipped := t_skipped t; t_failed := t_failed t + 1 |}
  else {| t_total := t_total t + 1; t_succeeded := t_succeeded t + 1;
          t_skipped := t_skipped t; t_failed := t_failed t |}.
Definition tally_of (rs : list ActResult) : tally :=
  foldl count_result {| t_total := 0; t_succeeded := 0; t_skipped := 0; t_failed := 0 |} rs.

Definition buildMultiStepSummary (s : ChatSession G) : string :=
  if bool_decide (length (actResults s) = 0)%nat then ""
  else
    let t := tally_of (actResults s) in
    "Multi-step execution complete: " +:+ fmt_d (t_total t) +:+ " steps (" +:+ fmt_d (t_succeeded t)
      +:+ " succeeded, " +:+ fmt_d (t_failed t) +:+ " failed, " +:+ fmt_d (t_skipped t) +:+ " skipped)".

Definition stream_summary : M G unit :=
  λ s, let summary := buildMultiStepSummary s in
       if bool_decide (summary ≠ "") then streamResponse summary s else (s, Ok tt).

Definition request (s : ChatSession G) : CompletionRequest :=
  {| ReqModel := AgModel (agent s); ReqMessages := chatMessages s; ReqTools := tools s;
     ReqSystemPrompt := if bool_decide (AgProvider (agent s) = "anthropic")
                        then fullSystemPrompt s else "";
     ReqApiKey := AgApiKey (agent s); ReqBaseURL := baseURL s |}.

Definition callLLM : M G (string * list ToolCall) :=
  do! p := NewProvider in
  λ s, match p with
       | Err _ => (s, Err (UnsupportedProvider (AgProvider (agent s))))
       | Ok complete =>
         let '(log, answer) := Complete_ complete (request s) (asked (calls s)) in
         let s := set_asked log s in
         match answer with
         | Err e => (s, Err (CompletionFailed e))
         | Ok c => (s, Ok (Content c, ToolCalls c))
         end
       end.

Definition executeAndStreamTool (iteration : Z) (tc : ToolCall) : M G unit :=
  let reasoning := "Executing tool: " +:+ CallName tc in
  do! _ := send (ToolCallNote reasoning) in
  do! _ := save_ignored {| MsgRole := "assistant"; MsgContent := ""; MsgToolCall := reasoning |} in
  λ s, match eng s with
  | Some en =>
    bind (act en (step_of (CallName tc) (CallArguments tc))) (λ r,
      do! _ := (if RequiresConfirmation (ActStep r) then send_ignored Confirm else ret tt) in
      do! _ := appendToolResult iteration (result_text r) in
      record (ActStep r) r) s
  | None =>
    match fallback s with
    | Some execute =>
      let out := execute (CallName tc) (CallArguments tc) (projectID s) (agentID s) in
      let resultStr := match ExecErr out with
                       | Some e => "Errore: " +:+ e | None => ExecOutput out end in
      bind (if ExecConfirm out then send_ignored Confirm else ret tt) (λ _,
        appendToolResult iteration resultStr) s
    | None =>
      bind (send_ignored Confirm) (λ _,
        appendToolResult iteration
          ("Proposta azione '" +:+ CallName tc +:+ "' in attesa di conferma.")) s
    end
  end.

Fixpoint run_tools (iteration : Z) (calls : list ToolCall) : M G unit :=
  match calls with
  | [] => ret tt
  | tc :: rest => do! _ := executeAndStreamTool iteration tc in run_tools iteration rest
  end.

(** How an iteration ends: leave the loop, or go on. *)
Inductive flow := Break | Continue.

(** The planning phase; [Break] when a plan was executed. *)
Definition execute_and_summarise (iteration : Z) : M G flow :=
  do! _ := executePlanSteps iteration in
  do! _ := stream_summary in ret Break.

(** A new plan from the provider, for the last message of the user; without a
    provider the plan stays as it is. *)
Definition plan_fresh (iteration : Z) (en : engine G) : M G flow :=
  do! p := NewProvider in
  λ s,
  let s := match p with
    | Err _ => s
    | Ok prov =>
      let '(log, pl) := PlanWithProvider (parse_ontology W) (math_exp W) en (lastUserMessage s) "" None
                          (Some prov) (asked (calls s)) in
      set_planning (needsPlanning s) (Some pl) (replanState s) (observations s) (set_asked log s)
    end in
  match plan s with
  | Some pl => if bool_decide (Steps pl ≠ []) then execute_and_summarise iteration s
               else (s, Ok Continue)
  | None => (s, Ok Continue)
  end.

Definition plan_phase (iteration : Z) : M G flow :=
  λ s, match eng s with
  | Some en =>
    if needsPlanning s then
      let s := set_planning false (plan s) (replanState s) (observations s) s in
      match plan s with
      | Some p =>
        if bool_decide (replanState s = "partial") && bool_decide (CorrectionSteps p ≠ []) then
          let p' := {| PlanIntent := PlanIntent p; Steps := CorrectionSteps p;
                       CanProceed := CanProceed p;
                       Reason := "replanning using correction steps from reflection";
                       CorrectionSteps := CorrectionSteps p; ReplanType := ReplanType p |} in
          execute_and_summarise iteration (set_planning false (Some p') "" (observations s) s)
        else plan_fresh iteration en s
      | None => plan_fresh iteration en s
      end
    else (s, Ok Continue)
  | None => (s, Ok Continue)
  end.

(** Reflection after the tools of a round. *)
Definition reflect_phase : M G flow :=
  λ s, match eng s with
  | Some en =>
    if bool_decide (observations s = []) then (s, Ok Continue)
    else match EngineReflect en (plan s) (observations s) with
    | (Some reflected, None) =>
      if bool_decide (ReplanType reflected ≠ "") && bool_decide (ReplanType reflected ≠ ReplanNone) then
        if bool_decide (ReplanType reflected = ReplanFull)
        then (set_planning true None "full" [] s, Ok Continue)
        else (set_planning true (Some reflected) "partial" (observations s) s, Ok Continue)
      else
        (set_planning (needsPlanning s) (Some reflected) (replanState s) (observations s) s,
         Ok (if CanProceed reflected then Continue else Break))
    | _ => (s, Ok Continue)
    end
  | None => (s, Ok Continue)
  end.

Definition iterate (i : Z) : M G flow :=
  do! _ := check_ctx in
  do! f := plan_phase i in
  match f with
  | Break => ret Break
  | Continue =>
    do! (responseContent, toolCalls) := callLLM in
    do! _ := (if bool_decide (responseContent ≠ "") then streamResponse responseContent else ret tt) in
    if bool_decide (length toolCalls = 0)%nat then ret Break
    else
      do! _ := appendToolCallToMessages toolCalls responseContent i in
      do! _ := run_tools i toolCalls in
      reflect_phase
  end.

Fixpoint loop (n : nat) (i : Z) : M G unit :=
  match n with
  | O => ret tt
  | S n => do! f := iterate i in match f with Break => ret tt | Continue => loop n (i + 1) end
  end.

(** The admission at the end: its answer is dropped. *)
Definition admitted (s : ChatSession G) : option bool :=
  match eng s with
  | Some en =>
    if bool_decide (actResults s = []) then None
    else
      let achieved := match plan s with
        | Some p => bool_decide (Steps p ≠ []) &&
                    bool_decide (length (Steps p) ≤ length (actResults s))%nat &&
                    forallb (λ r, bool_decide (ActError r = "")) (actResults s)
        | None => false
        end in
      if achieved then None else Some (Admit en (actResults s) (maxAttempts s))
  | None => None
  end.

Definition Run : M G unit :=
  λ s, match loop (Z.to_nat (maxAttempts s)) 0 s with
       | (s', Err e) => (s', Err e)
       | (s', Ok _) => let _ := admitted s' in (s', Ok tt)
       end.

(** *** Opening a session *)

(** The rows of one project and agent in the order they were written, of which
    the query returns the first twenty. *)
Definition GetChatMessages (rows : list ChatMessage) : list ChatMessage := take 20 rows.

Definition history_message (m : ChatMessage) : option any :=
  if bool_decide (MsgRole m = "user")
  then Some (AnyMap [("role", AnyStr "user"); ("content", AnyStr (MsgContent m))])
  else if bool_decide (MsgRole m = "assistant") && bool_decide (MsgToolCall m = "")
  then Some (AnyMap [("role", AnyStr "assistant"); ("content", AnyStr (MsgContent m))])
  else None.

Definition system_message (prompt : string) : any :=
  AnyMap [("role", AnyStr "system"); ("content", AnyStr prompt)].
Definition user_message (msg : string) : any :=
  AnyMap [("role", AnyStr "user"); ("content", AnyStr msg)].

Fixpoint trim_right_slash (s : string) : string :=
  match s with
  | "" => ""
  | String c s' =>
    let r := trim_right_slash s' in
    if bool_decide (r = "") && bool_decide (c = "/"%char) then "" else String c r
  end.

(** [minimal]: the tool list of the degraded mode. *)
Definition NewChatSession (en : option (engine G)) (exec : option ToolExecutor)
    (minimal : list any) (history : result string (list ChatMessage))
    (project agent_id msg : string) (ag : AgentInfo) (prompt : string)
    (rows : list ChatMessage) : ChatSession G :=
  {| projectID := project; agentID := agent_id; fullSystemPrompt := prompt;
     chatMessages := [system_message prompt] ++
       match history with Ok h => omap history_message h | Err _ => [] end ++ [user_message msg];
     tools := match en with Some e => BuildToolsMap e | None => minimal end;
     agent := ag; baseURL := trim_right_slash (AgBaseURL ag); needsPlanning := true;
     eng := en; fallback := exec; plan := None; observations := []; actResults := [];
     maxAttempts := 5; replanState := ""; sent := []; stored := rows; calls := {| providers := 0; asked := [] |} |}.

(** The tail of the Chat handler: the user's message is stored (an error is
    ignored), the history read back, the session run. *)
Definition Chat (en : option (engine G)) (exec : option ToolExecutor) (minimal : list any)
    (project agent_id msg : string) (ag : AgentInfo) (prompt : string) (rows : list ChatMessage) :
    ChatSession G * result chat_error unit :=
  let m := {| MsgRole := "user"; MsgContent := msg; MsgToolCall := "" |} in
  let rows := match save_err W rows m with Some _ => rows | None => rows ++ [m] end in
  Run (NewChatSession en exec minimal (Ok (GetChatMessages rows)) project agent_id msg ag prompt rows).

(** *** Planned steps without the input and output *)

(** The result of one step, given the tools that failed before it. *)
Definition step_outcome (en : engine G) (project : string) (ms : Z) (failedDeps : gset string)
    (step : PlannedStep) : engine G * ActResult :=
  if ShouldSkipStep step failedDeps then (en, skipped_result step "SKIPPED: dependency failed")
  else if ShouldAutoSkip en step then (en, skipped_result step "SKIPPED: requires confirmation")
  else Act en step project ms.

Fixpoint pure_steps (en : engine G) (project : string) (n : nat) (failedDeps : gset string)
    (steps : list PlannedStep) : engine G * list ActResult :=
  match steps with
  | [] => (en, [])
  | step :: rest =>
    let '(en1, r) := step_outcome en project (act_ms W n) failedDeps step in
    let fd := if bool_decide (ActError r ≠ "") then {[ToolName step]} ∪ failedDeps else failedDeps in
    let '(en2, rs) := pure_steps en1 project (S n) fd rest in (en2, r :: rs)
  end.

(** Sending and storing touch nothing else. *)
Definition same_core (s s' : ChatSession G) : Prop :=
  eng s' = eng s ∧ plan s' = plan s ∧ actResults s' = actResults s ∧
  observations s' = observations s ∧ projectID s' = projectID s ∧ calls s' = calls s ∧
  needsPlanning s' = needsPlanning s ∧ replanState s' = replanState s ∧ maxAttempts s' = maxAttempts s.

Lemma same_core_trans s1 s2 s3 : same_core s1 s2 → same_core s2 s3 → same_core s1 s3.
Proof. unfold same_core. intuition congruence. Qed.

Lemma send_core r s : same_core s (send r s).1.
Proof. unfold send. destruct (send_err _ _ _); done. Qed.
Lemma save_core m s : same_core s (SaveChatMessage m s).1.
Proof. unfold SaveChatMessage. destruct (save_err _ _ _); done. Qed.

(** The session's loop over planned steps computes what the pure one does. *)
Lemma plan_step_pure i en step fd s s' failed :
  eng s = Some en → plan_step i en step fd s = (s', Ok failed) →
  let '(en', r) := step_outcome en (projectID s) (act_ms W (length (actResults s))) fd step in
  eng s' = Some en' ∧ actResults s' = actResults s ++ [r] ∧ plan s' = plan s ∧
  projectID s' = projectID s ∧ calls s' = calls s ∧ failed = bool_decide (ActError r ≠ "").
Proof.
  intros He. unfold plan_step, step_outcome, bind, check_ctx, ret, skip_step, modify, appendToolResult.
  destruct (ctx_err W (sent s)); [done|].
  destruct (ShouldSkipStep step fd); [|destruct (ShouldAutoSkip en step)].
  - pose proof (send_core (ToolCallNote ("Skipping tool " +:+ ToolName step +:+ ": " +:+ "dependency failed")) s) as Hc.
    unfold bind. destruct (send _ s) as [s1 [[]|]]; [|done]. intros [= <- <-].
    destruct Hc as (E1 & E2 & E3 & E4 & E5 & E6 & _). cbn in *. by rewrite E1, E3, He.
  - pose proof (send_core (ToolCallNote ("Skipping tool " +:+ ToolName step +:+ ": " +:+
      "requires confirmation (threshold active)")) s) as Hc.
    unfold bind. destruct (send _ s) as [s1 [[]|]]; [|done]. intros [= <- <-].
    destruct Hc as (E1 & E2 & E3 & E4 & E5 & E6 & _). cbn in *. by rewrite E1, E3, He.
  - pose proof (send_core (ToolCallNote ("Executing planned tool: " +:+ ToolName step)) s) as Hc.
    destruct (send _ s) as [s1 [[]|]]; [|done]. cbn [fst] in Hc.
    unfold save_ignored. set (m := Build_ChatMessage _ _ _).
    pose proof (save_core m s1) as Hd. set (s2 := (SaveChatMessage m s1).1) in *.
    destruct (same_core_trans _ _ _ Hc Hd) as (E1 & E2 & E3 & E4 & E5 & E6 & _).
    unfold act. rewrite E5, E3. destruct (Act en step _ _) as [en' r] eqn:Ea. cbn.
    destruct (RequiresConfirmation (ActStep r)); intros Hs; cbn in Hs.
    + set (s3 := set_results _ _ _ s2) in Hs. pose proof (send_core Confirm s3) as Hf.
      unfold send_ignored in Hs. destruct Hf as (F1 & F2 & F3 & F4 & F5 & F6 & _).
      injection Hs as <- <-. cbn in *. rewrite F1, F3.
      split_and!; congruence.
    + injection Hs as <- <-. cbn in *. done.
Qed.

Lemma plan_steps_pure i steps : ∀ fd s s' en,
  eng s = Some en → plan_steps i steps fd s = (s', Ok tt) →
  let '(en', rs) := pure_steps en (projectID s) (length (actResults s)) fd steps in
  eng s' = Some en' ∧ actResults s' = actResults s ++ rs ∧ plan s' = plan s ∧
  calls s' = calls s.
Proof.
  induction steps as [|step rest IH]; intros fd s s' en He.
  { intros [= <-]. cbn. by rewrite app_nil_r. }
  cbn [plan_steps pure_steps]. rewrite He. unfold bind.
  destruct (plan_step i en step fd s) as [s1 [failed|]] eqn:Ep; [|done].
  apply plan_step_pure in Ep; [|done]. destruct (step_outcome _ _ _ _ _) as [en1 r].
  destruct Ep as (He1 & Hr1 & Hp1 & Hq1 & Hl1 & ->). intros Hs.
  apply (IH _ _ _ _ He1) in Hs. rewrite Hq1, Hr1, length_app, Nat.add_1_r in Hs.
  destruct (pure_steps en1 _ _ _ rest) as [en2 rs]. destruct Hs as (-> & -> & -> & ->).
  rewrite <- app_assoc. split_and!; done || congruence.
Qed.

(** What stays of the engine: acting changes only the history. *)
Lemma step_outcome_spec en project ms fd step en' r :
  step_outcome en project ms fd step = (en', r) →
  executor en' = executor en ∧ confirmationThreshold en' = confirmationThreshold en ∧
  ToolName (ActStep r) = ToolName step ∧
  (ShouldSkipStep step fd = true → r = skipped_result step "SKIPPED: dependency failed") ∧
  (ShouldSkipStep step fd = false →
     (ShouldAutoSkip en step = true ∧ r = skipped_result step "SKIPPED: requires confirmation") ∨
     (ShouldAutoSkip en step = false ∧ r = (Act en step project ms).2)).
Proof.
  unfold step_outcome. destruct (ShouldSkipStep step fd); [by intros [= <- <-]|].
  destruct (ShouldAutoSkip en step); [intros [= <- <-]; split_and!; try done; by left|].
  intros Ha. rewrite Ha. unfold Act in Ha. injection Ha as <- <-. cbn.
  split_and!; try done; [by destruct (ExecConfirm _)|by right].
Qed.

(** The names of the failed steps among the first [k]. *)
Definition failed_before (steps : list PlannedStep) (rs : list ActResult) (k : nat) (name : string) : Prop :=
  ∃ j st r, (j < k)%nat ∧ steps !! j = Some st ∧ rs !! j = Some r ∧ ActError r ≠ "" ∧
            name = ToolName st.

(** A step waits for one that failed. *)
Definition blocked (steps : list PlannedStep) (rs : list ActResult) (fd : gset string) (k : nat)
    (step : PlannedStep) : Prop :=
  ∃ dep, dep ∈ Depends step ∧ (dep ∈ fd ∨ failed_before steps rs k dep).

Lemma ShouldSkipStep_true step fd :
  ShouldSkipStep step fd = true ↔ ∃ dep, dep ∈ Depends step ∧ dep ∈ fd.
Proof.
  unfold ShouldSkipStep. rewrite existsb_exists. setoid_rewrite <- list_elem_of_In.
  by setoid_rewrite bool_decide_eq_true.
Qed.

Lemma failed_before_cons st steps r rs k name :
  failed_before (st :: steps) (r :: rs) (S k) name ↔
  (ActError r ≠ "" ∧ name = ToolName st) ∨ failed_before steps rs k name.
Proof.
  split.
  - intros ([|j] & st' & r' & Hj & Hs & Hr & He & ->); cbn in *; simplify_eq; [by left|].
    right. exists j, st', r'. split_and!; (done || lia).
  - intros [[He ->]|(j & st' & r' & Hj & Hs & Hr & He & ->)].
    + exists 0%nat, st, r. split_and!; (done || lia).
    + exists (S j), st', r'. split_and!; (done || lia).
Qed.

(** Every step has one result, and it is skipped for a dependency exactly when it
    is blocked. *)
Lemma pure_steps_spec steps : ∀ en project n fd en' rs,
  pure_steps en project n fd steps = (en', rs) →
  length rs = length steps ∧
  ∀ k st r, steps !! k = Some st → rs !! k = Some r →
    ToolName (ActStep r) = ToolName st ∧
    (blocked steps rs fd k st → r = skipped_result st "SKIPPED: dependency failed") ∧
    (¬ blocked steps rs fd k st →
      (RequiresConfirmation st = true ∧ r = skipped_result st "SKIPPED: requires confirmation") ∨
      ∃ (enk : engine G) ms, executor enk = executor en ∧ ShouldAutoSkip en st = false ∧ r = (Act enk st project ms).2).
Proof.
  induction steps as [|st0 steps IH]; intros en project n fd en' rs; cbn [pure_steps].
  { intros [= <- <-]. split; [done|]. intros k st r Hk. by rewrite lookup_nil in Hk. }
  destruct (step_outcome _ _ _ _ _) as [en1 r0] eqn:Eo.
  destruct (pure_steps en1 _ _ _ steps) as [en2 rs'] eqn:Ep. intros [= <- <-].
  apply step_outcome_spec in Eo as (Hx & Hc & Hn & Hskip & Hrun).
  apply IH in Ep as [Hl Hall]. cbn [length]. split; [lia|].
  intros [|k] st r Hst Hr; cbn in Hst, Hr; simplify_eq.
  - split; [done|]. unfold blocked. split.
    + intros (dep & Hd & [Hf|(j & ? & ? & Hj & _)]); [|lia].
      apply Hskip, ShouldSkipStep_true. eauto.
    + intros Hnb. destruct (ShouldSkipStep st fd) eqn:E.
      { destruct Hnb. apply ShouldSkipStep_true in E as (dep & ? & ?). eauto. }
      destruct (Hrun eq_refl) as [[Ha Hr]|[Ha Hr]]; [left|right; eauto].
      unfold ShouldAutoSkip in Ha. apply andb_true_iff in Ha as [? _]. done.
  - destruct (Hall k st r Hst Hr) as (Ht & Hb & Hnb). split; [done|].
    assert (blocked (st0 :: steps) (r0 :: rs') fd (S k) st ↔
      blocked steps rs' (if bool_decide (ActError r0 ≠ "") then {[ToolName st0]} ∪ fd else fd) k st) as Hbl.
    { unfold blocked. setoid_rewrite failed_before_cons.
      destruct (bool_decide (ActError r0 ≠ "")) eqn:E; decide_bools; set_solver. }
    rewrite Hbl. split; [done|]. intros H'. destruct (Hnb H') as [?|(enk & ms & He & Ha & Hr')]; [by left|].
    right. exists enk, ms. split_and!; [congruence| |done].
    unfold ShouldAutoSkip in *. by rewrite <- Hc.
Qed.

(** C7: a plan is executed completely and in dependency order.  When the stream
    stays open, every planned step gets exactly one result, in the order of the
    topological sort; a step is skipped for a dependency exactly when a step it
    names as one failed before it, and every other step is executed, unless it
    waits for a confirmation. *)
Theorem executePlanSteps_complete (i : Z) (s s' : ChatSession G) (en : engine G) (p : PlanResult) :
  eng s = Some en → plan s = Some p → executePlanSteps i s = (s', Ok tt) →
  ∃ sorted_steps rs,
    SortStepsByDependencies (Steps p) = Some sorted_steps ∧ sorted_steps ≡ₚ Steps p ∧
    actResults s' = actResults s ++ rs ∧ length rs = length (Steps p) ∧
    ∀ k st r, sorted_steps !! k = Some st → rs !! k = Some r →
      ToolName (ActStep r) = ToolName st ∧
      (blocked sorted_steps rs ∅ k st → r = skipped_result st "SKIPPED: dependency failed") ∧
      (¬ blocked sorted_steps rs ∅ k st →
        (RequiresConfirmation st = true ∧ r = skipped_result st "SKIPPED: requires confirmation") ∨
        ∃ (enk : engine G) ms, executor enk = executor en ∧ ShouldAutoSkip en st = false ∧
                  r = (Act enk st (projectID s) ms).2).
Proof.
  intros He Hp. unfold executePlanSteps. rewrite Hp.
  destruct (sort_total (Steps p)) as (l & Hl & Hperm). rewrite Hl. cbn [default from_option id].
  intros Hs. apply (plan_steps_pure _ _ _ _ _ _ He) in Hs.
  destruct (pure_steps _ _ _ _ l) as [en' rs] eqn:Ep. destruct Hs as (_ & Hr & _ & _).
  apply pure_steps_spec in Ep as [Hlen Hall]. exists l, rs. split_and!; try done.
  by rewrite Hlen, Hperm.
Qed.

(** *** What a run may change *)

(** [m] only makes changes that [R] allows, whether it fails or not. *)
Definition within (R : ChatSession G → ChatSession G → Prop) {A} (m : M G A) : Prop :=
  ∀ s, R s (m s).1.

Section Within.
Context (R : ChatSession G → ChatSession G → Prop) `{!PreOrder R}.

Lemma within_ret {A} (a : A) : within R (ret a).
Proof. intros s. cbn. reflexivity. Qed.

Lemma within_bind {A B} (m : M G A) (f : A → M G B) :
  within R m → (∀ a, within R (f a)) → within R (bind m f).
Proof.
  intros Hm Hf s. unfold bind. specialize (Hm s).
  destruct (m s) as [s' [a|e]]; cbn in *; [|done]. etransitivity; [exact Hm|apply Hf].
Qed.

Lemma within_if {A} (b : bool) (m1 m2 : M G A) :
  within R m1 → within R m2 → within R (if b then m1 else m2).
Proof. by destruct b. Qed.

(** The primitives, and the operations made of them. *)
Context (R_send : ∀ r, within R (send r)) (R_save : ∀ m, within R (SaveChatMessage m))
  (R_ctx : within R check_ctx) (R_result : ∀ i t, within R (appendToolResult i t))
  (R_calls : ∀ l c i, within R (appendToolCallToMessages l c i))
  (R_act : ∀ en step, within R (act en step)) (R_record : ∀ step r, within R (record step r))
  (R_skip : ∀ step w, within R (modify (λ s, set_results (eng s)
     (actResults s ++ [skipped_result step w]) (observations s) s)))
  (R_planning : ∀ b p r obs s, R s (set_planning b p r obs s))
  (R_provider : within R NewProvider) (R_asked : ∀ log s, R s (set_asked log s)).

Lemma within_send_ignored r : within R (send_ignored r).
Proof. intros s. apply R_send. Qed.
Lemma within_save_ignored m : within R (save_ignored m).
Proof. intros s. apply R_save. Qed.

Create HintDb chat_within.
#[local] Hint Resolve within_ret within_bind within_if within_send_ignored within_save_ignored
  R_send R_save R_ctx R_result R_calls R_act R_record R_skip R_provider : chat_within.

Ltac solve_within := repeat first
  [ apply within_bind; [|intros]
  | apply within_if
  | solve [auto with chat_within]
  | match goal with |- within R (let '_ := ?x in _) => destruct x end ].

Lemma within_plan_step i en step fd : within R (plan_step i en step fd).
Proof. unfold plan_step, skip_step. solve_within. Qed.

Lemma within_plan_steps i steps : ∀ fd, within R (plan_steps i steps fd).
Proof.
  induction steps as [|step rest IH]; intros fd; [apply within_ret|].
  intros s. cbn [plan_steps]. destruct (eng s) as [en|]; [|reflexivity].
  apply within_bind; [apply within_plan_step|]. auto.
Qed.

Lemma within_execute i : within R (execute_and_summarise i).
Proof.
  unfold execute_and_summarise. apply within_bind; [|intros _; apply within_bind; auto with chat_within].
  - intros s. unfold executePlanSteps. destruct (plan s); [apply within_plan_steps|reflexivity].
  - intros s. unfold stream_summary, streamResponse. cbv zeta. case_match; [|reflexivity].
    apply within_bind; auto with chat_within.
Qed.

Lemma within_plan_fresh i en : within R (plan_fresh i en).
Proof.
  unfold plan_fresh. apply within_bind; [done|]. intros p s.
  set (s' := match p with Ok _ => _ | Err _ => _ end).
  assert (R s s') as Hs by (unfold s'; destruct p; cbn; [etransitivity; [apply R_asked|apply R_planning]|reflexivity]).
  destruct (plan s') as [pl|]; [|done]. case_match; [|done].
  etransitivity; [exact Hs|apply within_execute].
Qed.

Lemma within_plan_phase i : within R (plan_phase i).
Proof.
  intros s. unfold plan_phase. destruct (eng s) as [en|]; [|reflexivity].
  destruct (needsPlanning s); [|reflexivity]. cbv zeta.
  set (s1 := set_planning false _ _ _ s). assert (R s s1) as Hs by apply R_planning.
  etransitivity; [exact Hs|]. destruct (plan s1) as [p|]; [|apply within_plan_fresh].
  case_match; [|apply within_plan_fresh]. etransitivity; [|apply within_execute]. apply R_planning.
Qed.

Lemma within_tool i tc : within R (executeAndStreamTool i tc).
Proof.
  unfold executeAndStreamTool. apply within_bind; [done|intros _].
  apply within_bind; [auto with chat_within|intros _]. intros s. destruct (eng s) as [en|].
  - apply within_bind; [done|intros r]. solve_within.
  - destruct (fallback s) as [ex|]; apply within_bind; solve_within.
Qed.

Lemma within_tools i calls : within R (run_tools i calls).
Proof.
  induction calls; cbn; [apply within_ret|]. apply within_bind; auto using within_tool.
Qed.

Lemma within_reflect : within R reflect_phase.
Proof.
  intros s. unfold reflect_phase. destruct (eng s) as [en|]; [|reflexivity].
  case_match; [reflexivity|]. destruct (EngineReflect _ _ _) as [[r|] [e|]]; try reflexivity.
  repeat case_match; apply R_planning.
Qed.

Lemma within_llm : within R callLLM.
Proof.
  unfold callLLM. apply within_bind; [done|]. intros p s. destruct p as [complete|]; [|reflexivity].
  cbn. destruct (complete _); apply R_asked.
Qed.

Lemma within_iterate i : within R (iterate i).
Proof.
  unfold iterate. apply within_bind; [done|intros _].
  apply within_bind; [apply within_plan_phase|]. intros []; [apply within_ret|].
  apply within_bind; [apply within_llm|]. intros [c l].
  apply within_bind; [unfold streamResponse; solve_within|intros _].
  apply within_if; [apply within_ret|]. apply within_bind; [done|intros _].
  apply within_bind; [apply within_tools|intros _]. apply within_reflect.
Qed.

Lemma within_loop n : ∀ i, within R (loop n i).
Proof.
  induction n as [|n IH]; intros i; [apply within_ret|]. cbn [loop].
  apply within_bind; [apply within_iterate|]. intros []; auto with chat_within.
Qed.

Lemma within_Run : within R Run.
Proof.
  intros s. unfold Run. pose proof (within_loop (Z.to_nat (maxAttempts s)) 0 s) as Hl.
  by destruct (loop _ _ s) as [s' [[]|]].
Qed.
End Within.

(** Messages, results, the stream and the stored rows only grow, and no message
    of the user is added. *)
Definition extends (s s' : ChatSession G) : Prop :=
  (∃ l, chatMessages s' = chatMessages s ++ l ∧ omap user_content l = []) ∧
  actResults s `prefix_of` actResults s' ∧ sent s `prefix_of` sent s' ∧ stored s `prefix_of` stored s'.

#[local] Instance extends_preorder : PreOrder extends.
Proof.
  split.
  - intros s. split_and!; [exists []; by rewrite app_nil_r|done..].
  - intros s1 s2 s3 ((l1 & E1 & N1) & ? & ? & ?) ((l2 & E2 & N2) & ? & ? & ?).
    split_and!; [|by etransitivity..]. exists (l1 ++ l2).
    by rewrite E2, E1, app_assoc, omap_app, N1, N2.
Qed.

Ltac solve_extends :=
  split_and!; cbn; try (by exists []; rewrite app_nil_r); try done;
  try (apply prefix_app_r; reflexivity); try (eexists; split; [reflexivity|done]).

Lemma within_extends_Run : within extends Run.
Proof.
  apply within_Run.
  - exact extends_preorder.
  - intros r s. unfold send. destruct (send_err _ _ _); solve_extends.
  - intros m s. unfold SaveChatMessage. destruct (save_err _ _ _); solve_extends.
  - intros s. unfold check_ctx. destruct (ctx_err _ _); solve_extends.
  - intros i t s. solve_extends.
  - intros l c i s. solve_extends.
  - intros en step s. unfold act. destruct (Act _ _ _ _). solve_extends.
  - intros step r s. solve_extends.
  - intros step w s. solve_extends.
  - intros b p r obs s. solve_extends.
  - intros s. solve_extends.
  - intros log s. solve_extends.
Qed.

Lemma extends_user s s' : extends s s' → lastUserMessage s' = lastUserMessage s.
Proof.
  intros [(l & E & N) _]. unfold lastUserMessage. rewrite E, rev_app_distr, omap_app.
  assert (omap user_content (rev l) = []) as ->; [|done].
  assert (∀ k : list any, omap user_content k = [] ↔ Forall (λ m, user_content m = None) k) as Hf.
  { induction k as [|m k IH]; [split; auto|]. rewrite Forall_cons. cbn.
    destruct (user_content m); naive_solver. }
  rewrite Hf in N |- *. by apply Forall_rev.
Qed.

(** A run never rewrites the past: messages, results, the stream and the
    stored history are only appended to, and every planning request of the run
    is about the message the user sent. *)
Theorem Run_appends (s : ChatSession G) :
  let s' := (Run s).1 in
  chatMessages s `prefix_of` chatMessages s' ∧ actResults s `prefix_of` actResults s' ∧
  sent s `prefix_of` sent s' ∧ stored s `prefix_of` stored s' ∧
  lastUserMessage s' = lastUserMessage s.
Proof.
  destruct (within_extends_Run s) as ((l & E & N) & Hr & Hs & Ht). split_and!; try done.
  - rewrite E. by apply prefix_app_r.
  - apply extends_user, within_extends_Run.
Qed.

(** *** The requests made to providers *)

(** What the session sends to a provider stays the same but for the messages,
    which are only added to. *)
Definition follows (s s' : ChatSession G) : Prop :=
  extends s s' ∧ agent s' = agent s ∧ tools s' = tools s ∧ baseURL s' = baseURL s ∧
  fullSystemPrompt s' = fullSystemPrompt s.
#[local] Instance follows_preorder : PreOrder follows.
Proof.
  split; [intros s; split; [reflexivity|done]|].
  intros s1 s2 s3 [He1 K1] [He2 K2]. split; [by etransitivity|]. intuition congruence.
Qed.

(** Steps that ask no provider. *)
Definition quiet (s s' : ChatSession G) : Prop := follows s s' ∧ asked (calls s') = asked (calls s).
#[local] Instance quiet_preorder : PreOrder quiet.
Proof.
  split; [intros s; split; [reflexivity|done]|].
  intros s1 s2 s3 [? K1] [? K2]. split; [by etransitivity|congruence].
Qed.

Ltac solve_quiet := split; [split; [solve_extends|cbn; done]|cbn; done].

Lemma quiet_send r : within quiet (send r).
Proof. intros s. unfold send. destruct (send_err _ _ _); solve_quiet. Qed.
Lemma quiet_save m : within quiet (SaveChatMessage m).
Proof. intros s. unfold SaveChatMessage. destruct (save_err _ _ _); solve_quiet. Qed.
Lemma quiet_ctx : within quiet check_ctx.
Proof. intros s. unfold check_ctx. destruct (ctx_err _ _); solve_quiet. Qed.
Lemma quiet_act en step : within quiet (act en step).
Proof. intros s. unfold act. destruct (Act _ _ _ _). solve_quiet. Qed.
Lemma quiet_planning b p r obs s : quiet s (set_planning b p r obs s).
Proof. solve_quiet. Qed.
Lemma quiet_provider : within quiet NewProvider.
Proof. intros s. solve_quiet. Qed.
Lemma quiet_calls l c i : within quiet (appendToolCallToMessages l c i).
Proof. intros s. solve_quiet. Qed.

Lemma quiet_execute i : within quiet (execute_and_summarise i).
Proof.
  apply within_execute; try apply _; intros; auto using quiet_send, quiet_save, quiet_ctx, quiet_act;
    intros s; solve_quiet.
Qed.
Lemma quiet_tools i l : within quiet (run_tools i l).
Proof.
  apply within_tools; try apply _; intros; auto using quiet_send, quiet_save, quiet_ctx, quiet_act;
    intros s; solve_quiet.
Qed.
Lemma quiet_reflect : within quiet reflect_phase.
Proof. apply within_reflect; [apply _|]. intros. apply quiet_planning. Qed.
Lemma quiet_stream c : within quiet (streamResponse c).
Proof. apply within_bind; [apply _|apply quiet_send|intros _; apply quiet_save]. Qed.

(** The two kinds of request: one for a plan, about the message of the user and
    without the agent; one for an answer, with the agent's settings, the session's
    tools and the conversation as it began and what was added since. *)
Definition plan_request (s : ChatSession G) (r : CompletionRequest) : Prop :=
  ∃ en : engine G, r = completion_request en (lastUserMessage s) None.
Definition reply_request (s : ChatSession G) (r : CompletionRequest) : Prop :=
  chatMessages s `prefix_of` ReqMessages r ∧
  r = {| ReqModel := AgModel (agent s); ReqMessages := ReqMessages r; ReqTools := tools s;
         ReqSystemPrompt := if bool_decide (AgProvider (agent s) = "anthropic")
                            then fullSystemPrompt s else "";
         ReqApiKey := AgApiKey (agent s); ReqBaseURL := baseURL s |}.

(** What one attempt asks: for a plan, for an answer, for both in this order, or
    for nothing. *)
Record attempt := { for_plan : option CompletionRequest; for_reply : option CompletionRequest }.
Definition requests (a : attempt) : list CompletionRequest :=
  option_list (for_plan a) ++ option_list (for_reply a).
Definition attempt_ok (s : ChatSession G) (a : attempt) : Prop :=
  (∀ r, for_plan a = Some r → plan_request s r) ∧ (∀ r, for_reply a = Some r → reply_request s r).

Lemma follows_messages s s' : follows s s' → chatMessages s `prefix_of` chatMessages s'.
Proof. intros [[(l & -> & _) _] _]. by apply prefix_app_r. Qed.

Lemma attempt_ok_follows s s' a : follows s s' → attempt_ok s' a → attempt_ok s a.
Proof.
  intros Hf [Hp Hr]. pose proof Hf as (He & Ha & Ht & Hb & Hs). split.
  - intros r [en ->]%Hp. exists en. by rewrite (extends_user _ _ He).
  - intros r [Hm Heq]%Hr. rewrite Ha, Ht, Hb, Hs in Heq. split; [|exact Heq].
    etransitivity; [by apply follows_messages|done].
Qed.

(** A step that asks at most once, and what. *)
Definition asks (P : ChatSession G → CompletionRequest → Prop) {A} (m : M G A) : Prop :=
  ∀ s, follows s (m s).1 ∧
    ∃ o, asked (calls (m s).1) = asked (calls s) ++ option_list o ∧ ∀ r, o = Some r → P s r.

Lemma asks_quiet P {A} (m : M G A) : within quiet m → asks P m.
Proof. intros Hm s. destruct (Hm s) as [Hf Ha]. split; [done|]. exists None. by rewrite app_nil_r. Qed.

Lemma asks_fresh i en : asks plan_request (plan_fresh i en).
Proof.
  intros s. unfold plan_fresh, bind. destruct (NewProvider s) as [s0 [p|]] eqn:E0; [|done].
  assert (quiet s s0) as K0 by (pose proof (quiet_provider s) as K0'; by rewrite E0 in K0').
  set (s' := match p with Ok _ => _ | Err _ => _ end).
  assert (follows s s' ∧ ∃ o, asked (calls s') = asked (calls s) ++ option_list o ∧
    ∀ r, o = Some r → plan_request s r) as (Hf & o & Ha & Ho).
  { destruct K0 as [Hf0 Ha0]. unfold s'. destruct p as [prov|e].
    - split; [etransitivity; [exact Hf0|]; cbn; split; [solve_extends|done]|].
      exists (Some (completion_request en (lastUserMessage s0) None)).
      split; [cbn; by rewrite Ha0|]. intros r [= <-]. exists en.
      by rewrite (extends_user s s0) by apply Hf0.
    - split; [done|]. exists None. by rewrite app_nil_r. }
  destruct (plan s') as [pl|]; [case_match|]; [|split; [done|eauto]..].
  destruct (quiet_execute i s') as [Hf' Ha']. split; [by etransitivity|].
  exists o. by rewrite Ha'.
Qed.

Lemma asks_plan i : asks plan_request (plan_phase i).
Proof.
  intros s. unfold plan_phase. destruct (eng s) as [en|]; [|apply (asks_quiet _ (ret Continue)), within_ret, _].
  destruct (needsPlanning s); [|apply (asks_quiet _ (ret Continue)), within_ret, _]. cbv zeta.
  set (s1 := set_planning false _ _ _ s). assert (quiet s s1) as [Hf Ha] by apply quiet_planning.
  assert (asks plan_request (plan_fresh i en)) as Hfresh by apply asks_fresh.
  assert (follows s (plan_fresh i en s1).1 ∧ ∃ o, asked (calls (plan_fresh i en s1).1)
    = asked (calls s) ++ option_list o ∧ ∀ r, o = Some r → plan_request s r) as Hnew.
  { destruct (Hfresh s1) as (Hf1 & o & Ha1 & Ho). split; [by etransitivity|].
    exists o. split; [congruence|]. intros r Hr. destruct (Ho r Hr) as [en' ->]. by exists en'. }
  destruct (plan s1) as [p|]; [|exact Hnew]. case_match; [|exact Hnew].
  match goal with |- context [execute_and_summarise i ?x] =>
    destruct (quiet_execute i x) as [Hf2 Ha2] end.
  split; [etransitivity; [exact Hf|]; etransitivity; [|exact Hf2]; apply quiet_planning|].
  exists None. rewrite Ha2. by rewrite app_nil_r.
Qed.

Lemma asks_llm : asks (λ s r, r = request s) callLLM.
Proof.
  intros s. unfold callLLM, bind. destruct (NewProvider s) as [s0 [p|]] eqn:E0; [|done].
  injection E0 as <- <-. destruct (new_provider W _) as [complete|e]; cbn.
  - split.
    + destruct (complete _); cbn; split; try done; solve_extends.
    + exists (Some (request s)). split; [by destruct (complete _)|]. by intros r [= <-].
  - split; [split; [solve_extends|done]|]. exists None. by rewrite app_nil_r.
Qed.

(** The rest of an attempt, after the answer. *)
Definition use_reply (i : Z) (reply : string * list ToolCall) : M G flow :=
  let '(responseContent, toolCalls) := reply in
  do! _ := (if bool_decide (responseContent ≠ "") then streamResponse responseContent else ret tt) in
  if bool_decide (length toolCalls = 0)%nat then ret Break
  else
    do! _ := appendToolCallToMessages toolCalls responseContent i in
    do! _ := run_tools i toolCalls in
    reflect_phase.

Lemma quiet_use_reply i reply : within quiet (use_reply i reply).
Proof.
  destruct reply as [c l]. apply within_bind; [apply _|case_match|intros _; case_match];
    try apply within_ret, _; try apply quiet_stream.
  apply within_bind; [apply _|apply quiet_calls|intros _].
  apply within_bind; [apply _|apply quiet_tools|intros _]. apply quiet_reflect.
Qed.

Lemma request_reply s s' : follows s s' → reply_request s (request s').
Proof.
  intros Hf. pose proof Hf as (_ & Ha & Ht & Hb & Hs).
  split; [by apply follows_messages|]. unfold request. cbn. by rewrite Ha, Ht, Hb, Hs.
Qed.

(** One attempt; its answer was asked for with messages that are still there. *)
Definition attempts_once (s s' : ChatSession G) : Prop :=
  follows s s' ∧ ∃ a, asked (calls s') = asked (calls s) ++ requests a ∧ attempt_ok s a ∧
    ∀ r, for_reply a = Some r → ReqMessages r `prefix_of` chatMessages s'.

Lemma iterate_asks i s : attempts_once s (iterate i s).1.
Proof.
  unfold iterate. unfold bind at 1. pose proof (quiet_ctx s) as K0.
  assert (∀ s', quiet s s' → attempts_once s s') as Hq.
  { intros s' [Hf Ha]. split; [done|]. exists {| for_plan := None; for_reply := None |}.
    split; [cbn; by rewrite app_nil_r|]. done. }
  destruct (check_ctx s) as [s0 [[]|e]]; [|by apply Hq]. cbn [fst] in K0. destruct K0 as [Hf0 Ha0].
  unfold bind at 1. destruct (asks_plan i s0) as (Hf1 & o & Ha1 & Ho).
  destruct (plan_phase i s0) as [s1 x] eqn:E1. cbn [fst] in *.
  assert (follows s s1) as Hf01 by (by etransitivity).
  assert (∀ r, o = Some r → plan_request s r) as Hplan.
  { intros r Hr. destruct (Ho r Hr) as [en ->]. exists en. by rewrite (extends_user s s0) by apply Hf0. }
  assert (attempts_once s s1) as Honly.
  { split; [done|]. exists {| for_plan := o; for_reply := None |}.
    split; [unfold requests; cbn; rewrite app_nil_r; congruence|]. done. }
  destruct x as [[]|e]; [exact Honly| |exact Honly].
  change (attempts_once s (bind callLLM (use_reply i) s1).1). unfold bind at 1.
  destruct (asks_llm s1) as (Hf2 & o' & Ha2 & Ho').
  destruct (callLLM s1) as [s2 y]. cbn [fst] in *.
  assert (∀ s', quiet s2 s' → attempts_once s s') as Hend.
  { intros s' [Hf3 Ha3]. split; [by do 2 (etransitivity; [eassumption|])|].
    exists {| for_plan := o; for_reply := o' |}. split; [unfold requests; cbn; rewrite (assoc_L (++)); congruence|].
    split; [split; [exact Hplan|]|].
    - intros r Hr. rewrite (Ho' r Hr). by apply request_reply.
    - intros r Hr. rewrite (Ho' r Hr). cbn. apply follows_messages. by etransitivity. }
  destruct y as [reply|e]; [apply Hend, quiet_use_reply|apply Hend; reflexivity].
Qed.

(** All attempts of a run. *)
Definition conversation (r1 r2 : CompletionRequest) : Prop := ReqMessages r1 `prefix_of` ReqMessages r2.
Record asked_in (s : ChatSession G) (rounds : list attempt) (s' : ChatSession G) : Prop := {
  asked_all : asked (calls s') = asked (calls s) ++ concat (requests <$> rounds);
  asked_ok : Forall (attempt_ok s) rounds;
  asked_grow : StronglySorted conversation (omap for_reply rounds);
}.

Lemma loop_asks n : ∀ i s, ∃ rounds, (length rounds ≤ n)%nat ∧ asked_in s rounds (loop n i s).1.
Proof.
  assert (∀ s, asked_in s [] s) as Hnil by (intros s; split; [by rewrite app_nil_r|constructor..]).
  induction n as [|n IH]; intros i s; [exists []; split; [done|apply Hnil]|].
  cbn [loop]. unfold bind. destruct (iterate_asks i s) as (Hf & a & Ha & Hok & Hm).
  destruct (iterate i s) as [s1 [f|e]] eqn:E; cbn [fst] in *.
  2: { exists [a]. split; [cbn; lia|]. split; [cbn; by rewrite app_nil_r|by constructor|].
       cbn. destruct (for_reply a); repeat constructor. }
  assert (∀ s2 rounds, asked_in s1 rounds s2 → asked_in s (a :: rounds) s2) as Hcons.
  { intros s2 rounds [K1 K2 K3]. split.
    - cbn. by rewrite K1, Ha, (assoc_L (++)).
    - constructor; [done|]. eapply Forall_impl; [exact K2|]. intros b. by apply attempt_ok_follows.
    - cbn. destruct (for_reply a) as [r|] eqn:Er; [|exact K3]. constructor; [exact K3|].
      apply Forall_forall. intros r' (b & Hb & Hr')%list_elem_of_omap. unfold conversation.
      rewrite Forall_forall in K2. destruct (K2 b Hb) as [_ Hrep]. destruct (Hrep r' Hr') as [Hpre _].
      etransitivity; [by apply Hm|exact Hpre]. }
  destruct f; [exists [a]; split; [cbn; lia|apply Hcons, Hnil]|].
  destruct (IH (i + 1) s1) as (rounds & Hl & Hr). exists (a :: rounds). split; [cbn; lia|by apply Hcons].
Qed.

(** C31: what a chat asks of its providers.  Every request handed to [Complete]
    during a run belongs to one of at most [maxAttempts] attempts, and an attempt
    makes at most two, in this order: one for a plan, about the message of the
    user, and one for an answer.  A request for an answer carries the agent's
    model, key and address, the session's tools and the conversation the session
    started from, to which later requests only add; however the run ends. *)
Theorem Run_requests (s : ChatSession G) :
  ∃ rounds, Z.of_nat (length rounds) ≤ Z.max 0 (maxAttempts s) ∧
    asked_in s rounds (Run s).1 ∧
    Z.of_nat (length (asked (calls (Run s).1))) ≤
      Z.of_nat (length (asked (calls s))) + 2 * Z.max 0 (maxAttempts s).
Proof.
  destruct (loop_asks (Z.to_nat (maxAttempts s)) 0 s) as (rounds & Hl & Hr).
  assert ((Run s).1 = (loop (Z.to_nat (maxAttempts s)) 0 s).1) as ->
    by (unfold Run; by destruct (loop _ 0 s) as [? [[]|]]).
  exists rounds. split; [lia|]. split; [done|]. destruct Hr as [-> _ _]. rewrite length_app.
  assert (length (concat (requests <$> rounds)) ≤ 2 * length rounds)%nat; [|lia].
  clear. induction rounds as [|[[] []] rounds IH]; cbn in *; lia.
Qed.

(** *** What the code does not intend *)

Lemma plan_steps_plan i l fd s s' en :
  eng s = Some en → plan_steps i l fd s = (s', Ok tt) →
  plan s' = plan s ∧ calls s' = calls s.
Proof.
  intros He Hs. apply (plan_steps_pure _ _ _ _ _ _ He) in Hs.
  destruct (pure_steps _ _ _ _ _). tauto.
Qed.

Lemma stream_summary_frame s s' x :
  stream_summary s = (s', x) → plan s' = plan s ∧ calls s' = calls s.
Proof.
  unfold stream_summary, streamResponse, bind, send, SaveChatMessage. cbv zeta.
  repeat (case_match; simplify_eq/=; try done); by intros [= <- <-].
Qed.

(** A plan made from the provider's tool calls is executed without reflection:
    the run ends with the plan it started from, after a single call of the
    provider, whatever the observations of its steps; the replanning that the
    comments announce after the planned steps is never reached. *)
Theorem planned_run_skips_reflection (s s' : ChatSession G) (en : engine G) (prov : Provider) :
  eng s = Some en → needsPlanning s = true → plan s = None → 0 < maxAttempts s →
  new_provider W (providers (calls s)) = Ok prov →
  let '(log, p) := PlanWithProvider (parse_ontology W) (math_exp W) en (lastUserMessage s) "" None
                     (Some prov) (asked (calls s)) in
  Steps p ≠ [] → Run s = (s', Ok tt) →
  plan s' = Some p ∧ asked (calls s') = log.
Proof.
  intros He Hn Hp Hm Hprov. destruct (PlanWithProvider _ _ en _ _ _ _ _) as [log p] eqn:Epl.
  intros Hs. unfold Run.
  destruct (Z.to_nat (maxAttempts s)) as [|n] eqn:En; [lia|]. cbn [loop].
  unfold bind at 1, iterate. unfold bind at 1, check_ctx.
  destruct (ctx_err W (sent s)); [done|]. unfold bind at 1, plan_phase. rewrite He, Hn. cbn [plan set_planning with_ u_plan].
  rewrite Hp. unfold plan_fresh, bind at 1, NewProvider.
  cbn [calls set_planning with_ u_calls]. rewrite Hprov.
  match goal with |- context [PlanWithProvider ?a ?b en ?m "" None (Some prov) ?l] =>
    change (PlanWithProvider a b en m "" None (Some prov) l) with
      (PlanWithProvider a b en (lastUserMessage s) "" None (Some prov) (asked (calls s))) end.
  rewrite Epl. cbn [set_asked set_planning set_io with_ plan u_plan].
  rewrite (bool_decide_eq_true_2 (Steps p ≠ [])) by done.
  unfold execute_and_summarise, bind, executePlanSteps. cbn [plan u_plan set_planning with_].
  match goal with |- context [plan_steps 0 ?l ∅ ?x] => set (s1 := x);
    destruct (plan_steps 0 l ∅ s1) as [s2 [[]|]] eqn:E2; [|done] end.
  eapply (plan_steps_plan _ _ _ _ _ en) in E2 as [Hp2 Hl2]; [|done].
  destruct (stream_summary s2) as [s3 [[]|]] eqn:E3; [|done].
  apply stream_summary_frame in E3 as [Hp3 Hl3]. cbn. intros [= <-].
  by rewrite Hp3, Hl3, Hp2, Hl2.
Qed.

(** The identifiers under which tool results enter the conversation are never
    those of the calls they answer. *)
Theorem tool_call_ids_never_match (i i' : Z) (j : nat) :
  "call_" +:+ fmt_d i +:+ "_tools_0" ≠ call_id i' j.
Proof.
  unfold call_id, fmt_d. intros Heq%str_app_inv_l.
  assert (∀ z, str_mem "_" (Itoa z) = false) as Hz
    by (intros z; eapply str_all_not_mem; [apply Itoa_int_chars|done]).
  assert (str_cut "_" (Itoa i +:+ "_tools_0") = Some (Itoa i, "tools_0")) as H1
    by (apply str_cut_spec; auto).
  assert (str_cut "_" (Itoa i +:+ "_tools_0") = Some (Itoa i', Itoa (Z.of_nat j))) as H2
    by (rewrite Heq; apply str_cut_spec; auto).
  assert (Itoa (Z.of_nat j) = "tools_0") as Hj by congruence.
  pose proof (Itoa_int_chars (Z.of_nat j)) as Hc. by rewrite Hj in Hc.
Qed.

(** The conversation a session starts from.  The stored message of the user is
    read back and then added once more, so it stands there twice; and once
    twenty messages are stored, the history of every later session is the same:
    the first twenty, never the latest. *)
Theorem chat_context (en : option (engine G)) (exec : option ToolExecutor) (minimal : list any)
    (project agent_id msg prompt : string) (ag : AgentInfo) (rows : list ChatMessage) :
  let m := {| MsgRole := "user"; MsgContent := msg; MsgToolCall := "" |} in
  let open rs := chatMessages (NewChatSession en exec minimal (Ok (GetChatMessages rs)) project
                                 agent_id msg ag prompt rs) in
  ((length rows < 20)%nat →
     ∃ before_, open (rows ++ [m]) = before_ ++ [user_message msg; user_message msg]) ∧
  (∀ later_, (20 ≤ length rows)%nat → open (rows ++ later_) = open rows).
Proof.
  intros m open. unfold open, NewChatSession, GetChatMessages. cbn [chatMessages]. split.
  - intros Hl. rewrite take_ge by (rewrite length_app; cbn; lia).
    exists ([system_message prompt] ++ omap history_message rows).
    rewrite omap_app, <- !app_assoc. done.
  - intros later_ Hl. by rewrite take_app_le.
Qed.

(** A provider that needs the agent's API key never makes a plan: the session
    asks for one without the agent, so the request has no key and names the
    default model. *)
Theorem planning_ignores_agent (s : ChatSession G) (en : engine G) (prov : Provider) (e : string) :
  (∀ r, ReqApiKey r = "" → prov r = Err e) →
  (PlanWithProvider (parse_ontology W) (math_exp W) en (lastUserMessage s) "" None (Some prov)
     (asked (calls s))).2
  = Plan (parse_ontology W) (math_exp W) en (lastUserMessage s) "" ∧
  ReqModel (completion_request en (lastUserMessage s) None) = "llama3".
Proof. intros Hk. split; [|done]. unfold PlanWithProvider, Complete_. cbn. by rewrite Hk. Qed.

(** The counts are consistent, and one more result is counted once. *)
Definition tally_ok (t : tally) : Prop :=
  t_total t = t_succeeded t + t_failed t + t_skipped t ∧
  0 ≤ t_succeeded t ∧ 0 ≤ t_failed t ∧ 0 ≤ t_skipped t.

Lemma count_result_ok t r :
  tally_ok t → tally_ok (count_result t r) ∧ t_total (count_result t r) = t_total t + 1.
Proof. unfold tally_ok, count_result. intros. repeat case_match; cbn; lia. Qed.

(** The counts of the summary add up: every result is counted once, as
    succeeded, failed or skipped. *)
Theorem summary_counts (rs : list ActResult) :
  tally_ok (tally_of rs) ∧ t_total (tally_of rs) = Z.of_nat (length rs).
Proof.
  unfold tally_of. enough (∀ t0, tally_ok t0 → tally_ok (foldl count_result t0 rs) ∧
    t_total (foldl count_result t0 rs) = t_total t0 + Z.of_nat (length rs)) as He.
  { apply (He {| t_total := 0; t_succeeded := 0; t_skipped := 0; t_failed := 0 |}).
    unfold tally_ok. cbn. lia. }
  induction rs as [|r rs IH]; intros t0 Ht; [cbn; split; [done|lia]|].
  destruct (count_result_ok t0 r Ht) as [Hc Hn]. cbn [foldl length].
  destruct (IH _ Hc) as [? ->]. split; [done|lia].
Qed.
End World.

(** *** A concrete session *)

#[local] Instance sample_tables : Unicode := ascii_tables.
#[local] Instance sample_fold : UnicodeFold := ascii_fold_tables.

(** An executor whose tool "a" fails. *)
Definition sample_exec : ToolExecutor := λ name _ _ _,
  if bool_decide (name = "a")
  then {| ExecOutput := ""; ExecConfirm := false; ExecErr := Some "no rows" |}
  else {| ExecOutput := "done"; ExecConfirm := false; ExecErr := None |}.

Definition sample_engine : engine unit := NewEngine
  {| CfgProvider := None; CfgProviderBaseURL := ""; CfgMetaRepo := None; CfgExecutor := sample_exec;
     CfgRegistry := None; CfgMaxAttempts := 5; CfgLinkPredictor := None; CfgGraph := None;
     CfgReflector := None; CfgConfirmationThreshold := f64_of_int 0; CfgTruncationThreshold := 0 |}.

(** The provider asks for tool "a". *)
Definition sample_provider : Provider := λ _,
  Ok {| Content := ""; ToolCalls := [{| CallName := "a"; CallArguments := [] |}] |}.

Definition sample_world : World :=
  {| ctx_err _ := None; send_err _ _ := None; save_err _ _ := None;
     new_provider _ := Ok sample_provider; act_ms _ := 1; json_args _ := "{}";
     parse_ontology _ := Err "none"; math_exp x := x |}.

Definition sample_agent : AgentInfo :=
  {| AgProvider := "openai"; AgModel := "m"; AgApiKey := "k"; AgSystemPrompt := ""; AgBaseURL := "" |}.

Definition sample_session : ChatSession unit :=
  NewChatSession (Some sample_engine) None [] (Ok []) "p" "ag" "run it" sample_agent "" [].

(** Steps "a", then "b" which needs "a", then "c" which needs "b". *)
Definition sample_plan : PlanResult :=
  {| PlanIntent := {| PrimaryGoal := ""; NeededTools := []; TargetObjects := []; Confidence := f64_of_int 1 |};
     Steps := [named "a" []; named "b" ["a"]; named "c" ["b"]]; CanProceed := true; Reason := "";
     CorrectionSteps := []; ReplanType := ReplanNone |}.

Definition planned_session : ChatSession unit :=
  set_planning false (Some sample_plan) "" [] sample_session.

(** A skipped step does not block its own dependents: when "a" fails, "b"
    is skipped because it needs "a", and "c", which needs the result of "b", is
    executed all the same. *)
Theorem skip_is_not_transitive :
  let '(s', r) := executePlanSteps sample_world 0 planned_session in
  r = Ok tt ∧
  (λ a, (ToolName (ActStep a), Output a, ActError a)) <$> actResults s'
  = [("a", "", "no rows"); ("b", "SKIPPED: dependency failed", ""); ("c", "done", "")].
Proof. vm_compute. split; reflexivity. Qed.

Lemma executePlanSteps_complete_witness :
  ∃ s' rs, executePlanSteps sample_world 0 planned_session = (s', Ok tt) ∧
    actResults s' = [] ++ rs ∧ length rs = 3%nat.
Proof.
  destruct (executePlanSteps sample_world 0 planned_session) as [s' x] eqn:E.
  assert (x = Ok tt) as -> by (change x with ((s', x).2); rewrite <- E; vm_compute; reflexivity).
  destruct (executePlanSteps_complete sample_world 0 planned_session s' sample_engine sample_plan
    eq_refl eq_refl E) as (l & rs & _ & _ & Hr & Hl & _).
  exists s', rs. split; [reflexivity|]. split; [exact Hr|exact Hl].
Defined.

Lemma planned_run_skips_reflection_witness :
  ∃ s', Run sample_world sample_session = (s', Ok tt) ∧ length (asked (calls s')) = 1%nat.
Proof.
  destruct (Run sample_world sample_session) as [s' x] eqn:E.
  assert (x = Ok tt) as -> by (change x with ((s', x).2); rewrite <- E; vm_compute; reflexivity).
  destruct (planned_run_skips_reflection sample_world sample_session s' sample_engine sample_provider
    eq_refl eq_refl eq_refl eq_refl eq_refl ltac:(discriminate) E) as [_ Hl].
  exists s'. split; [reflexivity|]. rewrite Hl. reflexivity.
Defined.
End Chat.
