(* ===== verification/Web.v ===== *)
(** * Browser-facing middleware: CSRF and CORS

    Module [Csrf] models middleware/csrf.go and [Cors] middleware/cors.go.  A
    handler is the value the next handler would produce.  [url.Parse] and
    [strings.EqualFold] are parameters: a parsed address has a scheme, a host
    and a printed form. *)

From S2P Require Import Prelude GoStrings.

(** What a middleware does with a request. *)
Inductive reply (A : Type) :=
| PassOn (a : A)
| HttpError (code : Z) (body : string)
| NoContent
| NilPanic.
Arguments PassOn {A} _. Arguments HttpError {A} _ _. Arguments NoContent {A}. Arguments NilPanic {A}.

Record Request := { Method : string; Path : string; Origin : string; Referer : string }.

(** ** Cross-site request forgery *)
Module Csrf.

Record URL := { Scheme : string; Host : string; Text : string }.

Section Csrf.
Context `{Unicode} (parse : string → option URL) (EqualFold : string → string → bool).

Definition originMap (allowedOrigins : list string) : gset string := list_to_set allowedOrigins.
Definition hostMap (allowedOrigins : list string) : gset string :=
  list_to_set (Host <$> omap parse allowedOrigins).

(** The loop over the allowed origins; [u] is nil when the referer did not parse. *)
Fixpoint match_allowed {A} (u : option URL) (referer : string) (next : A) (allowed : list string) : reply A :=
  match allowed with
  | [] => HttpError 403 "CSRF validation failed"
  | a :: rest =>
    match u with
    | None => NilPanic
    | Some u' =>
      if EqualFold (Text u') a || String.prefix (ToLower (a +:+ "/")) (ToLower referer) then
        match parse a with
        | Some p => if bool_decide (Host p = Host u') && bool_decide (Scheme p = Scheme u')
                    then PassOn next else match_allowed u referer next rest
        | None => match_allowed u referer next rest
        end
      else match_allowed u referer next rest
    end
  end.

Definition CSRFProtection {A} (allowedOrigins : list string) (next : A) (r : Request) : reply A :=
  if bool_decide (Method r = "GET" ∨ Method r = "HEAD" ∨ Method r = "OPTIONS") then PassOn next
  else if bool_decide (Method r = "POST") && bool_decide (Path r = "/api/v1/auth/session")
  then PassOn next
  else if bool_decide (Origin r = "") && bool_decide (Referer r = "")
  then HttpError 403 "CSRF validation failed: missing Origin and Referer"
  else if negb (bool_decide (Origin r = "")) && bool_decide (Origin r ∈ originMap allowedOrigins)
  then PassOn next
  else if bool_decide (Referer r = "") then HttpError 403 "CSRF validation failed"
  else
    let u := parse (Referer r) in
    if match u with
       | Some u' => negb (bool_decide (Host u' = "")) && bool_decide (Host u' ∈ hostMap allowedOrigins)
       | None => false
       end
    then PassOn next
    else match_allowed u (Referer r) next allowedOrigins.

(** Requests the check does not look at: reads and the creation of a session. *)
Definition exempt (r : Request) : Prop :=
  Method r = "GET" ∨ Method r = "HEAD" ∨ Method r = "OPTIONS" ∨
  (Method r = "POST" ∧ Path r = "/api/v1/auth/session").

Lemma match_allowed_pass {A} (next : A) u referer l :
  match_allowed u referer next l = PassOn next →
  ∃ u' a p, u = Some u' ∧ a ∈ l ∧ parse a = Some p ∧ Host p = Host u' ∧ Scheme p = Scheme u'.
Proof.
  induction l as [|a l IH]; cbn; [done|]. destruct u as [u'|]; [|done].
  assert (∀ P : Prop, (∃ u'' a' p, Some u' = Some u'' ∧ a' ∈ l ∧ parse a' = Some p ∧
    Host p = Host u'' ∧ Scheme p = Scheme u'') →
    ∃ u'' a' p, Some u' = Some u'' ∧ a' ∈ a :: l ∧ parse a' = Some p ∧
    Host p = Host u'' ∧ Scheme p = Scheme u'') as Hw.
  { intros _ (u'' & a' & p & ? & ? & ?). exists u'', a', p. split_and!; try tauto. by right. }
  destruct (_ || _); [|intros Hm; apply (Hw True), IH, Hm].
  destruct (parse a) as [p|] eqn:Ep; [|intros Hm; apply (Hw True), IH, Hm].
  destruct (bool_decide (Host p = _)) eqn:E1, (bool_decide (Scheme p = _)) eqn:E2; cbn;
    try (intros Hm; apply (Hw True), IH, Hm). decide_bools. intros _.
  exists u', a, p. split_and!; try done. by left.
Qed.

(** A forged cross-site request is stopped: whatever its headers, a request
    that changes state is passed on only if its Origin is one of the allowed
    origins, or its Referer parses to the host of an allowed one. *)
Theorem CSRFProtection_sound {A} (allowedOrigins : list string) (next : A) (r : Request) :
  CSRFProtection allowedOrigins next r = PassOn next → ¬ exempt r →
  (Origin r ≠ "" ∧ Origin r ∈ allowedOrigins) ∨
  ∃ u a p, parse (Referer r) = Some u ∧ a ∈ allowedOrigins ∧ parse a = Some p ∧ Host p = Host u.
Proof.
  unfold CSRFProtection, exempt. intros Hp He.
  rewrite bool_decide_eq_false_2 in Hp by tauto.
  destruct (bool_decide (Method r = "POST")) eqn:Em, (bool_decide (Path r = _)) eqn:Eq; cbn [andb] in Hp;
    decide_bools; try tauto;
    (destruct (bool_decide (Origin r = "")) eqn:Eo; cbn [andb negb] in Hp; decide_bools;
     [destruct (bool_decide (Referer r = "")) eqn:Er; [done|]
     |destruct (bool_decide (Origin r ∈ _)) eqn:Ei;
      [decide_bools; left; split; [done|]; by apply elem_of_list_to_set in Ei
      |destruct (bool_decide (Referer r = "")) eqn:Er; [done|]]]);
    right;
    (destruct (parse (Referer r)) as [u|] eqn:Eu;
      [destruct (bool_decide (Host u = "")) eqn:Eh, (bool_decide (Host u ∈ _)) eqn:Ehm; cbn [andb negb] in Hp|]);
    decide_bools;
    try (apply match_allowed_pass in Hp as (u' & a & p & Hu & Ha & Hpa & Hho & _); simplify_eq; by eauto 10).
  all: apply elem_of_list_to_set, list_elem_of_fmap in Ehm as (p & Hpe & Hin);
       apply list_elem_of_omap in Hin as (a & Ha & Hpa); by eauto 10.
Qed.

(** The scheme of a Referer is not compared, although the comment asks for
    scheme and host to match exactly: a page on the plain-text origin of an
    allowed host passes. *)
Theorem referer_scheme_ignored {A} (next : A) (u p : URL) (a referer method : string) :
  method = "POST" → referer ≠ "" → parse referer = Some u → parse a = Some p →
  Host u = Host p → Host u ≠ "" → Scheme u ≠ Scheme p →
  CSRFProtection [a] next {| Method := method; Path := "/x"; Origin := ""; Referer := referer |} = PassOn next.
Proof.
  intros -> Hr Hu Hp Hh Hne _. unfold CSRFProtection. cbn [Method Path Origin Referer].
  change (bool_decide ("POST" = "GET" ∨ _)) with false. cbn [andb].
  change (bool_decide ("/x" = _)) with false. rewrite andb_false_r.
  rewrite (bool_decide_eq_false_2 (referer = "")) by done. cbn [andb negb].
  rewrite Hu, (bool_decide_eq_false_2 (Host u = "")) by done. cbn [negb andb].
  rewrite (bool_decide_eq_true_2 ("" = "")) by done. cbn [negb andb].
  rewrite bool_decide_eq_true_2; [done|].
  unfold hostMap. apply elem_of_list_to_set, list_elem_of_fmap. exists p. split; [done|].
  apply list_elem_of_omap. exists a. split; [by left|done].
Qed.

(** A Referer that cannot be parsed crashes the handler: the nil address is
    printed as soon as there is an allowed origin to compare it with. *)
Theorem unparsable_referer_panics {A} (next : A) (r : Request) (a : string) (l : list string) :
  ¬ exempt r → Origin r ∉ a :: l → Referer r ≠ "" → parse (Referer r) = None →
  CSRFProtection (a :: l) next r = NilPanic.
Proof.
  unfold exempt, CSRFProtection. intros He Ho Hr Hp.
  rewrite bool_decide_eq_false_2 by tauto.
  assert (bool_decide (Method r = "POST") && bool_decide (Path r = "/api/v1/auth/session") = false) as ->.
  { destruct (bool_decide (Method r = _)) eqn:E1, (bool_decide (Path r = _)) eqn:E2; try done.
    decide_bools. tauto. }
  rewrite (bool_decide_eq_false_2 (Referer r = "")), andb_false_r by done.
  assert (Origin r ∉ originMap (a :: l)) as Hn by (unfold originMap; by rewrite elem_of_list_to_set).
  rewrite (bool_decide_eq_false_2 _ Hn), andb_false_r, Hp. done.
Qed.
End Csrf.

(** *** Concrete runs *)
Definition sample_parse (s : string) : option URL :=
  if bool_decide (s = "https://app.example") then Some {| Scheme := "https"; Host := "app.example"; Text := s |}
  else if bool_decide (s = "http://app.example/page")
  then Some {| Scheme := "http"; Host := "app.example"; Text := s |}
  else None.
#[local] Instance sample_tables : Unicode := ascii_tables.

Lemma CSRFProtection_sound_witness :
  let r := {| Method := "POST"; Path := "/x"; Origin := "https://app.example"; Referer := "" |} in
  (Origin r ≠ "" ∧ Origin r ∈ ["https://app.example"]) ∨
  ∃ u a p, sample_parse (Referer r) = Some u ∧ a ∈ ["https://app.example"] ∧
           sample_parse a = Some p ∧ Host p = Host u.
Proof.
  apply (CSRFProtection_sound sample_parse (λ a b, bool_decide (a = b)) ["https://app.example"] tt).
  - vm_compute. reflexivity.
  - unfold exempt. cbn. intros [H|[H|[H|[_ H]]]]; discriminate.
Defined.

Lemma referer_scheme_ignored_witness :
  CSRFProtection sample_parse (λ a b, bool_decide (a = b)) ["https://app.example"] tt
    {| Method := "POST"; Path := "/x"; Origin := ""; Referer := "http://app.example/page" |} = PassOn tt.
Proof.
  apply (referer_scheme_ignored sample_parse (λ a b, bool_decide (a = b)) tt
    {| Scheme := "http"; Host := "app.example"; Text := "http://app.example/page" |}
    {| Scheme := "https"; Host := "app.example"; Text := "https://app.example" |});
    (reflexivity || discriminate).
Defined.

Lemma unparsable_referer_panics_witness :
  CSRFProtection sample_parse (λ a b, bool_decide (a = b)) ["https://app.example"] tt
    {| Method := "POST"; Path := "/x"; Origin := "http://evil"; Referer := "http://[" |} = NilPanic.
Proof.
  apply unparsable_referer_panics.
  - unfold exempt. cbn. intros [H|[H|[H|[_ H]]]]; discriminate.
  - cbn. rewrite list_elem_of_singleton. discriminate.
  - discriminate.
  - reflexivity.
Defined.
End Csrf.

(** ** Cross-origin resource sharing *)
Module Cors.

Record CORSConfig := {
  AllowedOrigins : option (gmap string bool);
  AllowedMethods : string;
  AllowedHeaders : string;
  ExposeHeaders : string;
  AllowCredentials : bool;
  MaxAge : Z;
}.

Definition DefaultCORSAllowedOrigins : gmap string bool :=
  list_to_map [("http://localhost:5173", true); ("http://localhost:3000", true);
               ("http://localhost:8081", true); ("http://localhost:5174", true)].

Definition or_default (v dflt : string) : string := if bool_decide (v = "") then dflt else v.

(** The headers set on the response, and what happens to the request. *)
Definition CORS {A} (cfg : CORSConfig) (next : A) (r : Request) : gmap string string * reply A :=
  let origins := default ∅ (AllowedOrigins cfg) in
  let allowed := negb (bool_decide (Origin r = "")) && default false (origins !! Origin r) in
  let h : gmap string string := ∅ in
  let h := if allowed then <["Access-Control-Allow-Origin" := Origin r]> h else h in
  let h := if allowed && AllowCredentials cfg
           then <["Access-Control-Allow-Credentials" := "true"]> h else h in
  let h := <["Access-Control-Allow-Methods" :=
               or_default (AllowedMethods cfg) "GET, POST, PUT, DELETE, OPTIONS"]> h in
  let h := <["Access-Control-Allow-Headers" := or_default (AllowedHeaders cfg)
               "Content-Type, Authorization, X-Aleph-Api-Key, X-Request-Id, X-Project-Id"]> h in
  let h := <["Access-Control-Expose-Headers" :=
               or_default (ExposeHeaders cfg) "Grpc-Status, Grpc-Message"]> h in
  let h := if bool_decide (0 < MaxAge cfg)
           then <["Access-Control-Max-Age" := Itoa (MaxAge cfg)]> h else h in
  (h, if bool_decide (Method r = "OPTIONS") then NoContent else PassOn next).

(** The browser is told exactly about allowed origins: the response names an
    origin only if it is the request's own, non-empty and configured, never a
    wildcard; credentials are granted only together with it; with no origins
    configured every origin is blocked; a preflight never reaches the handler. *)
Theorem CORS_allows {A} (cfg : CORSConfig) (next : A) (r : Request) :
  let '(h, res) := CORS cfg next r in
  (h !! "Access-Control-Allow-Origin" =
     if bool_decide (Origin r ≠ "" ∧ AllowedOrigins cfg ≫= (.!! Origin r) = Some true)
     then Some (Origin r) else None) ∧
  (h !! "Access-Control-Allow-Credentials" = Some "true" →
     AllowCredentials cfg = true ∧ h !! "Access-Control-Allow-Origin" = Some (Origin r)) ∧
  (res = PassOn next ↔ Method r ≠ "OPTIONS").
Proof.
  unfold CORS. set (allowed := _ && default false _).
  assert (allowed = bool_decide (Origin r ≠ "" ∧ AllowedOrigins cfg ≫= (.!! Origin r) = Some true)) as Ha.
  { unfold allowed. apply Bool.eq_iff_eq_true. rewrite bool_decide_eq_true, andb_true_iff, negb_true_iff.
    rewrite bool_decide_eq_false. destruct (AllowedOrigins cfg) as [m|]; cbn;
      [destruct (m !! Origin r) as [[]|] eqn:E|]; cbn; naive_solver. }
  rewrite <- Ha. clearbody allowed. clear Ha.
  set (h := if bool_decide (0 < MaxAge cfg) then _ else _).
  assert (h !! "Access-Control-Allow-Origin" = if allowed then Some (Origin r) else None) as Ho.
  { unfold h. destruct (bool_decide (0 < _)), allowed, (AllowCredentials cfg); cbn [andb];
      rewrite ?lookup_insert_ne by done; rewrite ?lookup_insert_eq; done. }
  assert (h !! "Access-Control-Allow-Credentials" =
    if allowed && AllowCredentials cfg then Some "true" else None) as Hc.
  { unfold h. destruct (bool_decide (0 < _)), allowed, (AllowCredentials cfg); cbn [andb];
      rewrite ?lookup_insert_ne by done; rewrite ?lookup_insert_eq; done. }
  rewrite Ho, Hc. split_and!; [done| |].
  - by destruct allowed, (AllowCredentials cfg).
  - destruct (bool_decide (Method r = "OPTIONS")) eqn:E; decide_bools; naive_solver.
Qed.
End Cors.
