(* ===== verification/Genesis.v ===== *)
(** * Genesis: suggested tools, their validation and their veto (internal/genesis)

    Module [Veto] models veto.go, [Sandbox] sandbox.go, [Suggester]
    suggester.go and [Genesis] the engine of genesis.go that composes them.
    Matching with regular expressions, parsing Go source and running the vet
    command are parameters, as is the order in which a map is traversed. *)

From S2P Require Import Prelude GoStrings GoValues.

Record Suggestion := {
  ID : string;
  Name : string;
  Type_ : string;
  Description : string;
  Priority : Z;
  Confidence : f64;
  Code : string;
  Parameters_ : string;
  Status : string;
  CreatedAt : Time;
  ExpiresAt : Time;
}.

Definition set_status (st : string) (s : Suggestion) : Suggestion :=
  {| ID := ID s; Name := Name s; Type_ := Type_ s; Description := Description s;
     Priority := Priority s; Confidence := Confidence s; Code := Code s;
     Parameters_ := Parameters_ s; Status := st; CreatedAt := CreatedAt s; ExpiresAt := ExpiresAt s |}.
Definition set_times (c e : Time) (s : Suggestion) : Suggestion :=
  {| ID := ID s; Name := Name s; Type_ := Type_ s; Description := Description s;
     Priority := Priority s; Confidence := Confidence s; Code := Code s;
     Parameters_ := Parameters_ s; Status := Status s; CreatedAt := c; ExpiresAt := e |}.

(** ** The registry of suggestions *)
Module Veto.

Record VetoRegistry := { suggestions : gmap string Suggestion; ttl : Duration }.

Definition NewVetoRegistry (ttl : Duration) : VetoRegistry := {| suggestions := ∅; ttl := ttl |}.

Definition with_suggestions (m : gmap string Suggestion) (v : VetoRegistry) : VetoRegistry :=
  {| suggestions := m; ttl := ttl v |}.

(** How often the cleanup runs. *)
Definition cleanupInterval (v : VetoRegistry) : Duration :=
  let i := Z.quot (ttl v) 2 in if bool_decide (i < millisecond) then millisecond else i.

(** One tick of [cleanupLoop]. *)
Definition cleanup (now : Time) (v : VetoRegistry) : VetoRegistry :=
  with_suggestions (filter (λ p, ¬ time_after now (ExpiresAt p.2)) (suggestions v)) v.

Definition Register (now : Time) (s : Suggestion) (v : VetoRegistry) : VetoRegistry :=
  let s := set_times now (now + ttl v) s in
  let s := if bool_decide (Status s = "") then set_status "pending" s else s in
  with_suggestions (<[ID s := s]> (suggestions v)) v.

Definition decide_as (st : string) (id : string) (v : VetoRegistry) : VetoRegistry * option string :=
  match suggestions v !! id with
  | None => (v, Some ("suggestion " +:+ id +:+ " not found"))
  | Some s => (with_suggestions (<[id := set_status st s]> (suggestions v)) v, None)
  end.
Definition Approve : string → VetoRegistry → VetoRegistry * option string := decide_as "approved".
Definition Reject : string → VetoRegistry → VetoRegistry * option string := decide_as "rejected".

Definition is_pending (now : Time) (s : Suggestion) : bool :=
  bool_decide (Status s = "pending") && time_before now (ExpiresAt s).

Definition ListPending (now : Time) (v : VetoRegistry) : gmap string Suggestion :=
  filter (λ p, is_pending now p.2) (suggestions v).

(** *** Runs of the registry *)
Inductive event :=
| EvRegister (s : Suggestion)
| EvApprove (id : string)
| EvReject (id : string)
| EvTick.

Definition apply_event (e : Time * event) (v : VetoRegistry) : VetoRegistry :=
  match e.2 with
  | EvRegister s => Register e.1 s v
  | EvApprove id => (Approve id v).1
  | EvReject id => (Reject id v).1
  | EvTick => cleanup e.1 v
  end.
Definition run (es : list (Time * event)) (v : VetoRegistry) : VetoRegistry :=
  foldl (λ v e, apply_event e v) v es.

(** The registry that forgets nothing. *)
Definition is_tick (e : event) : bool := match e with EvTick => true | _ => false end.
Definition no_ticks (es : list (Time * event)) : list (Time * event) :=
  filter (λ e, is_tick e.2 = false) es.

Definition monotone (es : list (Time * event)) (now : Time) : Prop :=
  Sorted Z.le (es.*1 ++ [now]).

(** The two registries agree, up to entries that have expired. *)
Record agrees (now : Time) (v r : VetoRegistry) : Prop := {
  agrees_ttl : ttl v = ttl r;
  agrees_entry id :
    suggestions v !! id = suggestions r !! id ∨
    (suggestions v !! id = None ∧ ∃ s, suggestions r !! id = Some s ∧ ExpiresAt s < now);
}.

Lemma agrees_later now now' v r : now ≤ now' → agrees now v r → agrees now' v r.
Proof.
  intros Hn [Ht Ha]. split; [done|]. intros id. destruct (Ha id) as [?|(? & s & ? & ?)]; [by left|].
  right. split; [done|]. exists s. split; [done|lia].
Qed.

Lemma agrees_decide now st id v r :
  agrees now v r → agrees now (decide_as st id v).1 (decide_as st id r).1.
Proof.
  intros [Ht Ha]. unfold decide_as. destruct (Ha id) as [He|(Hv & s & Hr & Hx)].
  - rewrite He. destruct (suggestions r !! id) as [s|] eqn:Er; [|by split].
    split; [done|]. intros id'. cbn. destruct (decide (id = id')) as [<-|Hne].
    + left. by rewrite !lookup_insert_eq.
    + rewrite !lookup_insert_ne by done. apply Ha.
  - rewrite Hv, Hr. split; [done|]. intros id'. cbn. destruct (decide (id = id')) as [<-|Hne].
    + right. split; [done|]. exists (set_status st s). by rewrite lookup_insert_eq.
    + rewrite lookup_insert_ne by done. apply Ha.
Qed.

Lemma agrees_register now s v r : agrees now v r → agrees now (Register now s v) (Register now s r).
Proof.
  intros [Ht Ha]. split; [done|]. intros id. unfold Register. rewrite Ht.
  set (s' := if bool_decide _ then _ else _). cbn.
  destruct (decide (ID s' = id)) as [<-|Hne].
  - left. by rewrite !lookup_insert_eq.
  - rewrite !lookup_insert_ne by done. apply Ha.
Qed.

Lemma agrees_cleanup now v r : agrees now v r → agrees now (cleanup now v) r.
Proof.
  intros [Ht Ha]. split; [done|]. intros id. cbn. rewrite map_lookup_filter.
  destruct (Ha id) as [He|(Hv & s & Hr & Hx)].
  - rewrite He. destruct (suggestions r !! id) as [s|]; [|by left]. cbn. unfold time_after.
    destruct (bool_decide (ExpiresAt s < now)) eqn:E; decide_bools; cbn.
    + right. rewrite option_guard_False by tauto. eauto.
    + left. rewrite option_guard_True by tauto. done.
  - rewrite Hv. cbn. right. eauto.
Qed.

Lemma agrees_pending now v r : agrees now v r → ListPending now v = ListPending now r.
Proof.
  intros [_ Ha]. apply map_eq. intros id. unfold ListPending. rewrite !map_lookup_filter.
  destruct (Ha id) as [->|(-> & s & -> & Hx)]; [done|]. cbn.
  rewrite option_guard_False; [done|]. unfold is_pending, time_before.
  rewrite (bool_decide_eq_false_2 (now < ExpiresAt s)) by lia. rewrite andb_false_r. tauto.
Qed.

Lemma monotone_cons t e es now :
  monotone ((t, e) :: es) now → monotone es now ∧ Forall (λ x, t ≤ x.1) es ∧ t ≤ now.
Proof.
  unfold monotone. cbn. intros Hs. apply Sorted_StronglySorted in Hs; [|intros ???; lia].
  apply StronglySorted_inv in Hs as [Hs Hf]. split; [by apply StronglySorted_Sorted|].
  rewrite Forall_app, Forall_fmap in Hf. destruct Hf as [Hf Hn]. split; [done|]. by inversion Hn.
Qed.

Lemma run_agrees es : ∀ t v r now,
  agrees t v r → Forall (λ x, t ≤ x.1) es → t ≤ now → monotone es now →
  agrees now (run es v) (run (no_ticks es) r).
Proof.
  induction es as [|[t' e] es IH]; intros t v r now Ha Hf Ht Hm.
  { by apply agrees_later with t. }
  apply Forall_cons in Hf as [Htt _]. cbn in Htt. apply (agrees_later t t') in Ha; [|done].
  apply monotone_cons in Hm as (Hm & Hf & Hn).
  destruct e as [s|id|id|];
    (eapply (IH t'); [|exact Hf|exact Hn|exact Hm]);
    [by apply agrees_register|by apply agrees_decide|by apply agrees_decide|by apply agrees_cleanup].
Qed.

(** C29: the cleanup of expired suggestions cannot be seen: on every sequence of
    registrations, decisions and ticks with a monotone clock the pending
    suggestions are those of a registry that never forgets. *)
Theorem cleanup_invisible (es : list (Time * event)) (t0 now : Time) (d : Duration) :
  Forall (λ x, t0 ≤ x.1) es → t0 ≤ now → monotone es now →
  ListPending now (run es (NewVetoRegistry d)) = ListPending now (run (no_ticks es) (NewVetoRegistry d)).
Proof.
  intros Hf Ht Hm. apply agrees_pending. eapply run_agrees; eauto.
  split; [done|]. intros id. by left.
Qed.

(** *** Statuses *)

(** The status of what the engine registers is empty or pending. *)
Definition fresh (e : Time * event) : Prop :=
  match e.2 with EvRegister s => Status s = "" ∨ Status s = "pending" | _ => True end.

Definition entry_ok (d : Duration) (id : string) (s : Suggestion) : Prop :=
  ID s = id ∧ ExpiresAt s = CreatedAt s + d ∧
  (Status s = "pending" ∨ Status s = "approved" ∨ Status s = "rejected").

Lemma apply_event_ok e v :
  fresh e → map_Forall (entry_ok (ttl v)) (suggestions v) →
  map_Forall (entry_ok (ttl (apply_event e v))) (suggestions (apply_event e v)).
Proof.
  intros Hf Hv. destruct e as [t [s|id|id|]]; cbn [apply_event snd fst].
  - cbn. apply map_Forall_insert_2; [|done]. unfold entry_ok.
    case_bool_decide as E; cbn in *; [by eauto 10|]. cbn in Hf. split_and!; try done. tauto.
  - unfold Approve, decide_as. destruct (suggestions v !! id) as [s|] eqn:E; [|done]. cbn.
    apply map_Forall_insert_2; [|done]. destruct (Hv _ _ E) as (? & ? & _).
    split_and!; cbn; auto.
  - unfold Reject, decide_as. destruct (suggestions v !! id) as [s|] eqn:E; [|done]. cbn.
    apply map_Forall_insert_2; [|done]. destruct (Hv _ _ E) as (? & ? & _).
    split_and!; cbn; auto.
  - cbn. intros id s [Hs _]%map_lookup_filter_Some. by apply Hv.
Qed.

(** The registry is well formed in every reachable state: an entry is stored
    under its own identifier, expires exactly its time to live after it was
    registered, and is pending, approved or rejected. *)
Theorem registry_well_formed (es : list (Time * event)) (d : Duration) :
  Forall fresh es →
  map_Forall (entry_ok d) (suggestions (run es (NewVetoRegistry d))).
Proof.
  intros Hf.
  enough (∀ v, ttl v = d → map_Forall (entry_ok d) (suggestions v) →
    map_Forall (entry_ok d) (suggestions (run es v))) as He.
  { apply He; [done|]. apply map_Forall_empty. }
  induction Hf as [|e es He _ IH]; intros v Ht Hv; [done|]. cbn. apply IH.
  - destruct e as [t [s|id|id|]]; cbn; try done;
      unfold Approve, Reject, decide_as; by destruct (suggestions v !! id).
  - subst d. pose proof (apply_event_ok e v He Hv) as Ho.
    assert (ttl (apply_event e v) = ttl v) as Ht; [|by rewrite Ht in Ho].
    destruct e as [t [s|id|id|]]; cbn; try done;
      unfold Approve, Reject, decide_as; by destruct (suggestions v !! id).
Qed.

(** A veto is not final: a rejected suggestion can be approved afterwards,
    even when it has expired. *)
Theorem reject_then_approve (v : VetoRegistry) (id : string) (s : Suggestion) :
  suggestions v !! id = Some s →
  let v' := (Approve id (Reject id v).1).1 in
  (Approve id (Reject id v).1).2 = None ∧
  Status <$> suggestions v' !! id = Some "approved".
Proof.
  intros Hs. unfold Approve, Reject, decide_as. rewrite Hs. cbn. rewrite lookup_insert_eq. cbn.
  by rewrite lookup_insert_eq.
Qed.
End Veto.

(** ** Validation of suggested code *)
Module Sandbox.

Definition blockedGoImports : list (string * string) := [
   ("os", "os: filesystem manipulation");
   ("os/exec", "os/exec: arbitrary command execution");
   ("plugin", "plugin: dynamic library loading");
   ("runtime", "runtime: low-level runtime access");
   ("net", "net: network access");
   ("net/http", "net/http: HTTP client/server");
   ("net/url", "net/url: SSRF vector");
   ("net/smtp", "net/smtp: email sending");
   ("net/rpc", "net/rpc: remote procedure calls");
   ("syscall", "syscall: low-level system access");
   ("unsafe", "unsafe: memory unsafety");
   ("reflect", "reflect: runtime type manipulation");
   ("text/template", "text/template: code injection via templates");
   ("html/template", "html/template: code injection via templates")].

Definition blockedGoImportPrefixes : list (string * string) := [
   ("crypto/", "crypto/*: cryptographic operations");
   ("encoding/", "encoding/*: data encoding/decoding (potential obfuscation)");
   ("debug/", "debug/*: debugging and runtime introspection");
   ("internal/", "internal/*: internal packages");
   ("net/", "net/*: network sub-package")].

Definition blockedGoCalls : list (string * string) := [
   ("os.Remove", "file deletion");
   ("os.RemoveAll", "recursive directory deletion");
   ("os.Chmod", "permission manipulation");
   ("os.Rename", "file race condition");
   ("os.Symlink", "symlink escape");
   ("os.Create", "file creation");
   ("net.Listen", "network listener");
   ("net.Dial", "network dialer");
   ("plugin.Open", "dynamic library loading");
   ("runtime.Goexit", "goroutine termination");
   ("runtime.Stack", "goroutine stack introspection");
   ("runtime.Callers", "call stack introspection");
   ("runtime.Breakpoint", "trigger debugger breakpoint");
   ("os.Exit", "hard process termination")].

(** Name, score and printed score of each pattern; the patterns themselves are
    regular expressions. *)
Definition obfuscationPatterns : list (string * f64 * string) := [
   ("base64_decode", f64_lit 3 10, "0.3");
   ("base64_decode_call", f64_lit 5 10, "0.5");
   ("hex_decode", f64_lit 2 10, "0.2");
   ("hex_decode_call", f64_lit 4 10, "0.4");
   ("exec_command_dynamic", f64_lit 5 10, "0.5");
   ("exec_command_variable", f64_lit 4 10, "0.4");
   ("import_concat", f64_lit 6 10, "0.6");
   ("reflect_value_call", f64_lit 4 10, "0.4");
   ("plugin_open", f64_lit 7 10, "0.7");
   ("getenv_command", f64_lit 5 10, "0.5");
   ("runtime_mmap", f64_lit 6 10, "0.6");
   ("shell_redirect", f64_lit 7 10, "0.7");
   ("cgo_escape", f64_lit 6 10, "0.6")].

Record SandboxResult := {
  Passed : bool; Warnings : list string; RiskScore : f64; BlockedPatterns : list string;
}.

(** What the vet command can do. *)
Inductive vet_outcome :=
| NoToolchain
| TempModuleFailed (e : string)
| VetTimedOut
| VetFailed (output : string)
| VetDone (output : string).

Definition lookup_reason (k : string) (l : list (string * string)) : option string :=
  snd <$> head (filter (λ e, e.1 = k) l).

Definition reason_text (what reason : string) : string := what +:+ " (" +:+ reason +:+ ")".

(** The part of a parsed file that is looked at: the import paths as written,
    and the calls of the form X.Sel. *)
Record GoFile := { Imports : list string; SelectorCalls : list (string * string) }.

Section Sandbox.
Context `{Unicode} (parse_go : string → option GoFile) (pattern_matches : string → string → bool)
  (vet : string → vet_outcome).

(** The prefix loop stops at the first prefix that matches; at most one can. *)
Definition check_import (path : string) : list string :=
  let importPath := trim_set (String dquote "") path in
  match lookup_reason importPath blockedGoImports with
  | Some reason => [reason_text importPath reason]
  | None =>
    match filter (λ e, String.prefix e.1 importPath = true) blockedGoImportPrefixes with
    | e :: _ => [reason_text importPath e.2]
    | [] => []
    end
  end.

Definition check_call (c : string * string) : list string :=
  let fullCall := c.1 +:+ "." +:+ c.2 in
  match lookup_reason fullCall blockedGoCalls with
  | Some reason => [reason_text fullCall reason]
  | None => []
  end.

Definition checkDangerousPatternsFallback (code : string) : list string :=
  (λ e, reason_text e.1 e.2) <$>
    filter (λ e, str_contains code e.1 = true) (blockedGoImports ++ blockedGoCalls).

Definition checkDangerousPatternsAST (ctx_done : bool) (code : string) : list string :=
  if ctx_done then []
  else match parse_go code with
  | None => checkDangerousPatternsFallback code
  | Some node => (Imports node ≫= check_import) ++ (SelectorCalls node ≫= check_call)
  end.

Fixpoint count_char (c : ascii) (s : string) : Z :=
  match s with "" => 0 | String d s => (if bool_decide (c = d) then 1 else 0) + count_char c s end.

Definition add_pattern (code : string) (acc : list string * f64) (op : string * f64 * string) :
    list string * f64 :=
  let '(name, score, txt) := op in
  if pattern_matches name code
  then (acc.1 ++ ["obfuscation pattern detected: " +:+ name +:+ " (risk +" +:+ txt +:+ ")"],
        f64_add acc.2 score)
  else acc.

Definition detectObfuscation (code : string) : list string * f64 :=
  let '(warnings, totalScore) := foldl (add_pattern code) ([], f64_of_int 0) obfuscationPatterns in
  let stringLiteralCount := count_char dquote code / 2 in
  let lines := count_char newline code + 1 in
  if bool_decide (0 < lines) && bool_decide (3 * lines < stringLiteralCount)
  then (warnings ++ ["unusually high string literal density (possible packed payload)"],
        f64_add totalScore (f64_lit 3 10))
  else (warnings, totalScore).

Definition firstNLines (s : string) (n : nat) : string :=
  let lines := str_split newline s in
  if bool_decide (length lines ≤ n)%nat then s
  else str_join (String newline "") (take n lines) +:+ "...".

(** Its error result is always nil. *)
Definition validateInSubprocess (code : string) : bool * list string :=
  match vet code with
  | NoToolchain => (true, ["subprocess skipped: go toolchain not found"])
  | TempModuleFailed e => (false, ["temp module creation failed: " +:+ e])
  | VetTimedOut => (false, ["subprocess timed out"])
  | VetFailed out => (false, ["go vet failed: " +:+ firstNLines out 3])
  | VetDone out =>
    let vetOutput := TrimSpace out in
    if bool_decide (vetOutput ≠ "") then (true, ["vet warnings: " +:+ firstNLines vetOutput 3])
    else (true, [])
  end.

Definition clampRisk (v : f64) : f64 := if f64_lt (f64_of_int 1) v then f64_of_int 1 else v.

(** [ctx_done]: the context's error when it is cancelled before, and whether it
    is by the time the source is inspected. *)
Definition validateCode (ctx_err : option string) (ctx_done : bool) (code : string) :
    result string SandboxResult :=
  match ctx_err with
  | Some e => Err e
  | None =>
    let blocked := checkDangerousPatternsAST ctx_done code in
    if bool_decide (blocked ≠ []) then
      Ok {| Passed := false; Warnings := [];
            RiskScore := clampRisk (f64_mul (f64_of_int (Z.of_nat (length blocked))) (f64_lit 2 10));
            BlockedPatterns := blocked |}
    else
      let '(warnings, obfuscationScore) := detectObfuscation code in
      let risk := f64_add (f64_of_int 0) obfuscationScore in
      if f64_le (f64_lit 8 10) obfuscationScore then
        Ok {| Passed := false; Warnings := warnings; RiskScore := risk;
              BlockedPatterns := ["obfuscation_detected"] |}
      else
        let '(subprocessPassed, subprocessWarnings) := validateInSubprocess code in
        if negb subprocessPassed then
          Ok {| Passed := false; Warnings := warnings ++ subprocessWarnings;
                RiskScore := clampRisk (f64_add risk (f64_lit 3 10)); BlockedPatterns := [] |}
        else
          let risk := clampRisk risk in
          Ok {| Passed := negb (f64_le (f64_lit 6 10) risk); Warnings := warnings ++ subprocessWarnings;
                RiskScore := risk; BlockedPatterns := [] |}
  end.

Definition Validate (ctx_err : option string) (ctx_done : bool) (s : Suggestion) :
    result string SandboxResult :=
  if bool_decide (Code s = "")
  then Ok {| Passed := true; Warnings := []; RiskScore := f64_of_int 0; BlockedPatterns := [] |}
  else validateCode ctx_err ctx_done (Code s).

Lemma validateCode_passed ctx_err code r :
  validateCode ctx_err false code = Ok r → Passed r = true →
  checkDangerousPatternsAST false code = [] ∧
  f64_le (f64_lit 8 10) (detectObfuscation code).2 = false ∧
  (validateInSubprocess code).1 = true.
Proof.
  unfold validateCode. destruct ctx_err; [done|].
  destruct (bool_decide (_ ≠ [])) eqn:Eb; [by intros [= <-]|]. decide_bools.
  destruct (detectObfuscation code) as [w sc]. destruct (f64_le (f64_lit 8 10) sc) eqn:Eo; [by intros [= <-]|].
  destruct (validateInSubprocess code) as [[] w']; cbn [negb]; [|by intros [= <-]].
  intros _ _. split; [|done]. destruct (checkDangerousPatternsAST false code); [done|].
  by destruct Eb.
Qed.

Lemma bind_nil {A B} (f : A → list B) l x : l ≫= f = [] → x ∈ l → f x = [].
Proof. intros Hl Hx. induction l as [|y l IH]; [by apply elem_of_nil in Hx|].
  cbn in Hl. apply app_eq_nil in Hl as [? ?]. apply elem_of_cons in Hx as [-> |]; auto.
Qed.

Lemma check_import_nil p :
  check_import (String dquote "" +:+ p +:+ String dquote "") = [] →
  (∀ c, str_mem c p = true → c ≠ dquote) → p ≠ "" →
  lookup_reason p blockedGoImports = None ∧
  ∀ e, e ∈ blockedGoImportPrefixes → String.prefix e.1 p = false.
Proof.
  intros Hc Hq Hne. unfold check_import in Hc.
  assert (trim_set (String dquote "") (String dquote "" +:+ p +:+ String dquote "") = p) as Ht.
  { unfold trim_set. rewrite str_app_cons, str_app_nil_l. cbn [trim_left_set str_mem].
    rewrite bool_decide_eq_true_2 by done. cbn [orb].
    assert (∀ q, (∀ c, str_mem c q = true → c ≠ dquote) →
      trim_right_set (String dquote "") (q +:+ String dquote "") = q) as Hr.
    { induction q as [|c q IH]; intros Hq'; [done|]. rewrite str_app_cons. cbn [trim_right_set].
      rewrite IH by (intros d Hd; apply Hq'; cbn; rewrite Hd; apply orb_true_r).
      cbn [str_mem]. rewrite orb_false_r, (bool_decide_eq_false_2 (c = dquote)), andb_false_r; [done|].
      apply Hq'. cbn. by rewrite bool_decide_eq_true_2. }
    destruct p as [|c p]; [done|]. rewrite str_app_cons. cbn [trim_left_set str_mem].
    rewrite (bool_decide_eq_false_2 (c = dquote)) by (apply Hq; cbn; by rewrite bool_decide_eq_true_2).
    cbn [orb]. rewrite <- str_app_cons. by apply Hr. }
  rewrite Ht in Hc. destruct (lookup_reason p blockedGoImports); [done|]. split; [done|].
  intros e He. apply not_true_iff_false. intros Hp.
  assert (e ∈ filter (λ e, String.prefix e.1 p = true) blockedGoImportPrefixes) as Hin
    by (by apply list_elem_of_filter).
  destruct (filter _ _) as [|x l]; [by apply elem_of_nil in Hin|done].
Qed.

(** The sandbox lets no source through that imports what is blocked: when code
    that parses passes, none of its imports is on the list or under a blocked
    prefix, none of its calls is a blocked one, it is not obfuscated, and the
    vet command accepted it. *)
Theorem validateCode_sound (ctx_err : option string) (code : string) (f : GoFile) (r : SandboxResult) :
  validateCode ctx_err false code = Ok r → Passed r = true → parse_go code = Some f →
  (∀ p, String dquote "" +:+ p +:+ String dquote "" ∈ Imports f → p ≠ "" →
        (∀ c, str_mem c p = true → c ≠ dquote) →
        lookup_reason p blockedGoImports = None ∧
        ∀ e, e ∈ blockedGoImportPrefixes → String.prefix e.1 p = false) ∧
  (∀ x sel, (x, sel) ∈ SelectorCalls f → lookup_reason (x +:+ "." +:+ sel) blockedGoCalls = None) ∧
  f64_le (f64_lit 8 10) (detectObfuscation code).2 = false ∧ (validateInSubprocess code).1 = true.
Proof.
  intros Hv Hp Hf. destruct (validateCode_passed _ _ _ Hv Hp) as (Hb & Ho & Hs).
  unfold checkDangerousPatternsAST in Hb. rewrite Hf in Hb. apply app_eq_nil in Hb as [Hi Hc].
  split_and!; try done.
  - intros p Hin Hne Hq. apply check_import_nil; try done. by eapply bind_nil in Hi.
  - intros x sel Hin. eapply bind_nil in Hc; [|done]. unfold check_call in Hc. cbn in Hc.
    by destruct (lookup_reason _ _).
Qed.
End Sandbox.
End Sandbox.

(** ** Suggestions from the conversation *)
Module Suggester.

Record ChatMessage := { Role : string; Content : string }.
Record ToolUsageStat := { ToolName : string; Count : Z }.
Record SuggesterInput := {
  ProjectID : string; AgentID : string; ChatHistory : list ChatMessage;
  ToolUsage : list ToolUsageStat; ExistingTools : list string;
}.

Definition commonEnglishWords : list string :=
  ["i"; "II"; "III"; "IV"; "Hello"; "Hi"; "Hey"; "Thanks"; "Thank";
   "Please"; "Yes"; "No"; "Yeah"; "Sure"; "Ok"; "Okay"; "Let"; "Would";
   "Could"; "Should"; "Also"; "Then"; "Now"; "Here"; "Just"; "Like"].
Definition stopWords : list string :=
  ["the"; "this"; "that"; "what"; "with"; "from"; "have"; "been"; "were";
   "they"; "tell"; "will"; "there"; "when"; "where"; "which"; "their"; "your";
   "about"; "would"; "could"; "should"; "does"; "just"; "like"; "also"; "then";
   "than"; "more"; "some"; "into"; "over"; "such"; "only"; "other"; "these";
   "those"; "here"; "want"; "need"; "know"; "think"].
Definition cutset : string := ".,!?;:" +:+ String dquote (String squote "()[]{}").

(** [m[k]++]. *)
Definition bump (m : gmap string Z) (k : string) : gmap string Z := <[k := default 0 (m !! k) + 1]> m.

Section Suggester.
Context `{Unicode, UnicodeFold}.
(** The captured words of the four patterns in a text; whether the first rune is
    upper case; [strings.EqualFold]; the quoting of [%q]; the order in which a
    map is traversed. *)
Context (whatAbout howAbout isThere canYou : string → list string)
  (first_upper : string → bool) (equal_fold : string → string → bool) (quoted : string → string)
  (traverse : gmap string Z → list (string * Z)).

Definition user_messages (history : list ChatMessage) : list string :=
  Content <$> filter (λ m, Role m = "user") history.

Definition topics_of (content : string) : list string :=
  filter (λ t, t ≠ "") (TrimSpace <$> (whatAbout content ++ howAbout content ++ isThere content)).

Definition nouns_of (existingSet : gset string) (content : string) : list string :=
  filter (λ w, w ≠ "" ∧ first_upper w = true ∧ w ∉ commonEnglishWords ∧
               ToLower w ∉ existingSet ∧ 3 ≤ str_len w)
    (trim_set cutset <$> Fields content).

Definition suggestion (now : Time) (idprefix name typ desc : string) (prio : Z) (conf : f64) : Suggestion :=
  {| ID := idprefix +:+ fmt_d (time_unix now); Name := name; Type_ := typ; Description := desc;
     Priority := prio; Confidence := conf; Code := ""; Parameters_ := ""; Status := "pending";
     CreatedAt := now; ExpiresAt := 0 |}.

Definition noun_suggestion (now : Time) (e : string * Z) : option Suggestion :=
  let '(noun, count) := e in
  if bool_decide (count < 3) then None
  else
    let confidence := if bool_decide (5 ≤ count) then f64_lit 7 10
                      else if bool_decide (4 ≤ count) then f64_lit 5 10 else f64_lit 3 10 in
    let priority := if f64_le (f64_lit 7 10) confidence then 1
                    else if f64_le (f64_lit 5 10) confidence then 2 else 3 in
    Some (suggestion now ("onto-" +:+ ToLower noun +:+ "-") noun "ontology"
      ("New ontology object detected: " +:+ quoted noun +:+ " mentioned " +:+ fmt_d count
         +:+ " times in chat — consider adding to knowledge graph") priority confidence).

(** 0.3 and 0.15 for each time, at most 0.8. *)
Definition count_confidence (count : Z) : f64 :=
  let c := f64_add (f64_lit 3 10) (f64_mul (f64_of_int count) (f64_lit 15 100)) in
  if f64_lt (f64_lit 8 10) c then f64_lit 8 10 else c.

Definition topic_suggestion (now : Time) (existingSet : gset string) (acc : list Suggestion)
    (e : string * Z) : list Suggestion :=
  let '(topic, count) := e in
  if bool_decide (count < 1) then acc
  else if existsb (λ s, equal_fold (Name s) topic) acc then acc
  else if bool_decide (ToLower topic ∈ existingSet) then acc
  else acc ++ [suggestion now ("onto-inquiry-" +:+ ToLower topic +:+ "-") topic "ontology"
    ("User inquired about " +:+ quoted topic +:+ " " +:+ fmt_d count
       +:+ " time(s) — consider adding as a knowledge graph object")
    (if bool_decide (3 ≤ count) then 1 else 2) (count_confidence count)].

Definition analyzeChatPatterns (now : Time) (history : list ChatMessage) (existingSet : gset string) :
    list Suggestion :=
  if bool_decide (length history = 0)%nat then []
  else
    let msgs := user_messages history in
    let nounCounts := foldl bump ∅ (msgs ≫= nouns_of existingSet) in
    let whatAboutTopics := foldl bump ∅ (msgs ≫= topics_of) in
    foldl (topic_suggestion now existingSet) (omap (noun_suggestion now) (traverse nounCounts))
      (traverse whatAboutTopics).

Definition underused (now : Time) (stat : ToolUsageStat) : option Suggestion :=
  if bool_decide (2 ≤ Count stat) then None
  else Some (suggestion now ("tool-underused-" +:+ ToolName stat +:+ "-") (ToolName stat) "tool"
    ("Tool " +:+ quoted (ToolName stat) +:+ " is underused (" +:+ fmt_d (Count stat)
       +:+ " invocation(s)) — consider merging or deprecating") 3 (f64_lit 5 10)).

Definition actions_of (content : string) : list string :=
  filter (λ a, a ≠ "" ∧ 2 < str_len a) ((λ w, ToLower (TrimSpace w)) <$> canYou content).

Definition missing_tool (now : Time) (existingSet : gset string) (e : string * Z) : option Suggestion :=
  let '(action, count) := e in
  if existsb (λ ex, str_contains ex action || str_contains action ex) (elements existingSet) then None
  else if bool_decide (action ∈ ["help"; "do"; "make"; "tell"]) then None
  else Some (suggestion now ("tool-missing-" +:+ action +:+ "-") action "tool"
    ("Users requested " +:+ quoted action +:+ " " +:+ fmt_d count
       +:+ " time(s) with no matching tool — consider implementing") 2 (count_confidence count)).

Definition analyzeToolUsage (now : Time) (usage : list ToolUsageStat) (history : list ChatMessage)
    (existingSet : gset string) : list Suggestion :=
  omap (underused now) usage ++
  omap (missing_tool now existingSet)
    (traverse (foldl bump ∅ (user_messages history ≫= actions_of))).

Definition words_of (content : string) : list string :=
  filter (λ w, 4 ≤ str_len w ∧ w ∉ stopWords) ((λ w, trim_set cutset (ToLower w)) <$> Fields content).

Definition query_pattern (now : Time) (e : string * Z) : option Suggestion :=
  let '(word, count) := e in
  if bool_decide (count < 3) then None
  else
    let c := f64_add (f64_lit 4 10) (f64_mul (f64_of_int (count - 2)) (f64_lit 1 10)) in
    Some (suggestion now ("query-" +:+ word +:+ "-") word "query_pattern"
      ("Frequent query word " +:+ quoted word +:+ " appears " +:+ fmt_d count
         +:+ " time(s) — consider pre-computed view or cached response")
      (if bool_decide (5 ≤ count) then 1 else 2) (if f64_lt (f64_lit 9 10) c then f64_lit 9 10 else c)).

Definition analyzeQueryPatterns (now : Time) (history : list ChatMessage) : list Suggestion :=
  if bool_decide (length history = 0)%nat then []
  else
    let userMessages := user_messages history in
    if bool_decide (length userMessages = 0)%nat then []
    else omap (query_pattern now) (traverse (foldl bump ∅ (userMessages ≫= words_of))).

(** Descriptions are compared without case and surrounding space. *)
Definition dedup_key (s : Suggestion) : string := ToLower (TrimSpace (Description s)).

Definition add_unique (acc : gset string * list Suggestion) (s : Suggestion) :
    gset string * list Suggestion :=
  if bool_decide (dedup_key s ∈ acc.1) then acc
  else ({[dedup_key s]} ∪ acc.1, acc.2 ++ [s]).

Definition Analyze (now : Time) (input : SuggesterInput) : list Suggestion :=
  let existingSet : gset string := list_to_set (ToLower <$> ExistingTools input) in
  let results :=
    analyzeChatPatterns now (ChatHistory input) existingSet ++
    analyzeToolUsage now (ToolUsage input) (ChatHistory input) existingSet ++
    filter (λ qp, ToLower (Name qp) ∉ existingSet) (analyzeQueryPatterns now (ChatHistory input)) in
  (foldl add_unique (∅, []) results).2.

(** *** Properties *)

(** What every suggestion looks like. *)
Definition well_formed (s : Suggestion) : Prop :=
  Status s = "pending" ∧ Code s = "" ∧ 1 ≤ Priority s ≤ 3 ∧
  (Type_ s = "ontology" ∨ Type_ s = "tool" ∨ Type_ s = "query_pattern").

Lemma suggestion_wf now i n t d p c :
  1 ≤ p ≤ 3 → t = "ontology" ∨ t = "tool" ∨ t = "query_pattern" → well_formed (suggestion now i n t d p c).
Proof. done. Qed.

Lemma omap_wf {A} (f : A → option Suggestion) l :
  (∀ x s, f x = Some s → well_formed s) → Forall well_formed (omap f l).
Proof.
  intros Hf. apply Forall_forall. intros s (x & _ & Hx)%list_elem_of_omap. eauto.
Qed.

Ltac solve_wf := intros [? ?] ?; cbn; repeat case_match; intros; simplify_eq;
  (apply suggestion_wf; [repeat case_match; lia|tauto]).

Lemma analyzeChatPatterns_wf now h ex : Forall well_formed (analyzeChatPatterns now h ex).
Proof.
  unfold analyzeChatPatterns. case_match; [constructor|].
  assert (Forall well_formed (omap (noun_suggestion now) (traverse (foldl bump ∅ (user_messages h ≫= nouns_of ex)))))
    as H0' by (apply omap_wf; solve_wf).
  revert H0'. generalize (omap (noun_suggestion now) (traverse (foldl bump ∅ (user_messages h ≫= nouns_of ex)))).
  induction (traverse _) as [|[t c] l IH]; intros acc Ha; cbn; [done|]. apply IH.
  repeat case_match; try done; apply Forall_app; (split; [done|]); repeat constructor; cbn; lia.
Qed.

Lemma analyzeToolUsage_wf now u h ex : Forall well_formed (analyzeToolUsage now u h ex).
Proof.
  unfold analyzeToolUsage. apply Forall_app. split; apply omap_wf; [|solve_wf].
  intros stat s. unfold underused. case_match; [done|]. intros [= <-]. apply suggestion_wf; [lia|tauto].
Qed.

Lemma analyzeQueryPatterns_wf now h : Forall well_formed (analyzeQueryPatterns now h).
Proof.
  unfold analyzeQueryPatterns. repeat (case_match; [constructor|]). apply omap_wf. solve_wf.
Qed.

(** The deduplication keeps the first suggestion of each key. *)
Definition unique_inv (acc : gset string * list Suggestion) (l : list Suggestion) : Prop :=
  acc.1 = list_to_set (dedup_key <$> acc.2) ∧ NoDup (dedup_key <$> acc.2) ∧
  acc.2 `sublist_of` l ∧ (∀ s, s ∈ l → dedup_key s ∈ dedup_key <$> acc.2).

Lemma add_unique_inv acc l s : unique_inv acc l → unique_inv (add_unique acc s) (l ++ [s]).
Proof.
  intros (H1 & H2 & H3 & H4). unfold add_unique.
  destruct (bool_decide (dedup_key s ∈ acc.1)) eqn:E; decide_bools.
  - rewrite H1, elem_of_list_to_set in E. split_and!; try done.
    + etransitivity; [exact H3|]. apply sublist_inserts_r. done.
    + intros x [Hx| ->%list_elem_of_singleton]%elem_of_app; auto.
  - rewrite H1, elem_of_list_to_set in E. unfold unique_inv. cbn [fst snd].
    rewrite fmap_app. cbn [fmap list_fmap]. split_and!.
    + rewrite list_to_set_app_L, H1. cbn. set_solver.
    + apply NoDup_app. split; [done|]. split; [|apply NoDup_singleton].
      intros x Hx ->%list_elem_of_singleton. done.
    + by apply sublist_app.
    + intros x [Hx| ->%list_elem_of_singleton]%elem_of_app; apply elem_of_app; [left; auto|right; by left].
Qed.

Lemma unique_all l : unique_inv (foldl add_unique (∅, []) l) l.
Proof.
  induction l as [|s l IH] using rev_ind; [|rewrite foldl_app; by apply add_unique_inv].
  split_and!; cbn; try done; [apply NoDup_nil_2|]. intros s Hs. by apply elem_of_nil in Hs.
Qed.

Lemma analyze_unique now input :
  Forall well_formed (Analyze now input) ∧ NoDup (dedup_key <$> Analyze now input).
Proof.
  unfold Analyze. set (res := analyzeChatPatterns _ _ _ ++ _).
  destruct (unique_all res) as (_ & Hn & Hs & _). split; [|done].
  assert (Forall well_formed res) as Hw.
  { unfold res. rewrite !Forall_app. split_and!;
      auto using analyzeChatPatterns_wf, analyzeToolUsage_wf, Forall_filter_keep, analyzeQueryPatterns_wf. }
  clearbody res. revert Hw. generalize (foldl add_unique (∅, []) res).2 Hs. clear.
  induction 1; intros Hw; [done| |]; apply Forall_cons in Hw as [? ?]; auto.
Qed.

Lemma analyze_wf now input : Forall well_formed (Analyze now input).
Proof. apply analyze_unique. Qed.

(** What an analysis returns is well formed and free of repetition: every
    suggestion is pending, of a known type and priority, and no two have the
    same description up to case and surrounding space, whatever the order in
    which the counts are visited. *)
Theorem Analyze_well_formed (now : Time) (input : SuggesterInput) :
  Forall well_formed (Analyze now input) ∧ NoDup (dedup_key <$> Analyze now input).
Proof. apply analyze_unique. Qed.
End Suggester.
End Suggester.

(** ** The engine *)
Module Genesis.
Import Veto Sandbox Suggester.

Section Genesis.
Context `{Unicode, UnicodeFold}
  (whatAbout howAbout isThere canYou : string → list string)
  (first_upper : string → bool) (equal_fold : string → string → bool) (quoted : string → string)
  (traverse : gmap string Z → list (string * Z))
  (parse_go : string → option GoFile) (pattern_matches : string → string → bool)
  (vet : string → vet_outcome).
Context (traverse_empty : traverse ∅ = []).

Abbreviation analyze :=
  (Analyze whatAbout howAbout isThere canYou first_upper equal_fold quoted traverse).
Abbreviation validate := (Validate parse_go pattern_matches vet).

(** The status after validation. *)
Definition judge (ctx_err : option string) (s : Suggestion) : Suggestion :=
  match validate ctx_err false s with
  | Ok r => if Passed r then set_status "pending" s else set_status "invalid" s
  | Err _ => set_status "invalid" s
  end.

(** The two loops of [Suggest], after the analysis. *)
Definition process (now : Time) (ctx_err : option string) (suggestions : list Suggestion)
    (v : VetoRegistry) : VetoRegistry * list Suggestion :=
  let judged := judge ctx_err <$> suggestions in
  (foldl (λ v s, if bool_decide (Status s = "pending") then Register now s v else v) v judged, judged).

Definition Suggest (now : Time) (ctx_err : option string) (projectID agentID : string)
    (v : VetoRegistry) : VetoRegistry * list Suggestion :=
  process now ctx_err
    (analyze now {| ProjectID := projectID; AgentID := agentID; ChatHistory := [];
                    ToolUsage := []; ExistingTools := [] |}) v.

Lemma Register_pending now s v :
  Status s = "pending" →
  Register now s v = with_suggestions (<[ID s := set_times now (now + ttl v) s]> (suggestions v)) v.
Proof. intros Hs. unfold Register. cbn [Status set_times]. by rewrite Hs. Qed.

Lemma judge_no_code ctx_err s : Code s = "" → judge ctx_err s = set_status "pending" s.
Proof. intros Hc. unfold judge, Validate. by rewrite Hc. Qed.

(** Only validated suggestions reach the registry: after a round, an entry that
    was not there before is pending, was registered now, and is one of the
    suggestions that the sandbox passed. *)
Theorem process_registers (now : Time) (ctx_err : option string) (l : list Suggestion)
    (v : VetoRegistry) (id : string) (s : Suggestion) :
  suggestions (process now ctx_err l v).1 !! id = Some s → suggestions v !! id = None →
  Status s = "pending" ∧ CreatedAt s = now ∧ ExpiresAt s = now + ttl v ∧
  ∃ s0, s0 ∈ l ∧ ID s0 = id ∧ Code s = Code s0 ∧
    ∃ r, validate ctx_err false s0 = Ok r ∧ Passed r = true.
Proof.
  unfold process. cbn. intros Hs Hn.
  assert (∀ l v, ttl (foldl (λ v s, if bool_decide (Status s = "pending") then Register now s v else v) v l)
    = ttl v) as Htt.
  { intros l'. induction l' as [|x l' IH]; intros v'; [done|]. cbn. rewrite IH. by case_match. }
  revert Hs. induction l as [|x l IH] using rev_ind; [cbn; congruence|].
  rewrite fmap_app, foldl_app. cbn.
  set (w := foldl _ v (judge ctx_err <$> l)) in *.
  assert (∀ y, y ∈ l → y ∈ l ++ [x]) as Hsub by (intros; apply elem_of_app; by left).
  destruct (bool_decide (Status (judge ctx_err x) = "pending")) eqn:E; [|naive_solver].
  decide_bools. rewrite Register_pending by done. cbn.
  destruct (decide (ID (judge ctx_err x) = id)) as [Hid|Hid].
  2: { rewrite lookup_insert_ne by done. naive_solver. }
  rewrite Hid, lookup_insert_eq. intros [= <-]. cbn. rewrite E, <- (Htt (judge ctx_err <$> l) v).
  split_and!; try done. exists x. split; [apply elem_of_app; right; by left|].
  unfold judge in *. destruct (validate ctx_err false x) as [r|]; [|done].
  destruct (Passed r) eqn:Ep; [|done]. split; [done|]. split; [done|]. eauto.
Qed.

(** No suggestion is ever made: the engine hands the analysis neither the
    conversation nor the usage of tools nor the existing tools, so every request
    returns an empty list and leaves the registry as it is. *)
Theorem Suggest_empty (now : Time) (ctx_err : option string) (projectID agentID : string)
    (v : VetoRegistry) :
  Suggest now ctx_err projectID agentID v = (v, []).
Proof.
  unfold Suggest, Analyze, analyzeToolUsage. cbn.
  by rewrite traverse_empty.
Qed.

(** Nothing an analysis returns carries code, so the sandbox never has code to
    look at: every suggestion passes. *)
Theorem analyzed_always_pass (now : Time) (ctx_err : option string) (input : SuggesterInput) (s : Suggestion) :
  s ∈ analyze now input → ∃ r, validate ctx_err false s = Ok r ∧ Passed r = true.
Proof.
  intros Hs. eapply (Forall_forall _ _) in Hs; [|apply (analyze_wf whatAbout howAbout isThere canYou)].
  destruct Hs as (_ & Hc & _). unfold Validate. rewrite Hc. eauto.
Qed.

(** Two suggestions with one identifier overwrite each other: of words that
    differ only in case, found in the same second, only the last stays. *)
Theorem same_id_overwrites (now : Time) (v : VetoRegistry) (n1 n2 d1 d2 : string) (p1 p2 : Z) (c1 c2 : f64) :
  ToLower n1 = ToLower n2 →
  let s1 := suggestion now ("onto-" +:+ ToLower n1 +:+ "-") n1 "ontology" d1 p1 c1 in
  let s2 := suggestion now ("onto-" +:+ ToLower n2 +:+ "-") n2 "ontology" d2 p2 c2 in
  let '(v', l) := process now None [s1; s2] v in
  length l = 2%nat ∧ Name <$> suggestions v' !! ID s1 = Some n2.
Proof.
  intros Hn s1 s2. unfold process. cbn [fmap list_fmap foldl].
  rewrite !judge_no_code by done.
  assert (ID s1 = ID s2) as Hid by (unfold s1, s2, suggestion; cbn [ID]; by rewrite Hn).
  clearbody s1. split; [done|].
  rewrite !bool_decide_eq_true_2 by done. rewrite !Register_pending by done.
  cbn [suggestions with_suggestions]. change (ID (set_status "pending" s2)) with (ID s2).
  rewrite Hid, lookup_insert_eq. done.
Qed.
End Genesis.

(** *** Concrete runs *)
#[local] Instance sample_tables : Unicode := ascii_tables.
#[local] Instance sample_fold : UnicodeFold := ascii_fold_tables.

Lemma Suggest_empty_witness :
  Suggest (λ _, []) (λ _, []) (λ _, []) (λ _, []) (λ _, true) (λ a b, bool_decide (a = b)) (λ s, s)
    map_to_list (λ _, None) (λ _ _, false) (λ _, NoToolchain) 0 None "p" "a"
    (NewVetoRegistry minute) = (NewVetoRegistry minute, []).
Proof. apply Suggest_empty. reflexivity. Defined.

Definition sample_suggestion : Suggestion := suggestion 5 "onto-x-" "X" "ontology" "d" 1 (f64_of_int 0).
Definition sample_events : list (Time * event) :=
  [(5, EvRegister sample_suggestion); (7, EvApprove "nope"); (minute, EvTick)].

Lemma cleanup_invisible_witness :
  ListPending (2 * minute) (run sample_events (NewVetoRegistry second))
  = ListPending (2 * minute) (run (no_ticks sample_events) (NewVetoRegistry second)).
Proof.
  apply (cleanup_invisible sample_events 0).
  - repeat constructor; vm_compute; discriminate.
  - vm_compute. discriminate.
  - unfold monotone. repeat constructor; vm_compute; discriminate.
Defined.

Lemma registry_well_formed_witness :
  map_Forall (entry_ok second) (Veto.suggestions (run sample_events (NewVetoRegistry second))).
Proof.
  apply registry_well_formed. unfold sample_events.
  repeat (apply Forall_cons; split; [cbn; auto|]). apply Forall_nil.
  exact I.
Defined.

Definition sample_file : GoFile :=
  {| Imports := [String dquote "" +:+ "fmt" +:+ String dquote ""]; SelectorCalls := [("fmt", "Println")] |}.

Lemma validateCode_sound_witness :
  lookup_reason "fmt.Println" blockedGoCalls = None.
Proof.
  destruct (validateCode_sound (λ _, Some sample_file) (λ _ _, false) (λ _, NoToolchain) None "package main"
    sample_file {| Passed := true; Warnings := ["subprocess skipped: go toolchain not found"];
                   RiskScore := f64_of_int 0; BlockedPatterns := [] |}) as (_ & Hc & _).
  - vm_compute. reflexivity.
  - reflexivity.
  - reflexivity.
  - apply (Hc "fmt" "Println"). left.
Defined.
End Genesis.
