(* ===== verification/Migrate.v ===== *)
(** * Database migrations (internal/migrate/migrate.go)

    The database is its contents, of an abstract type, and the rows of
    schema_migrations.  Executing SQL text is a parameter: the text of a
    migration neither ends the transaction it runs in nor touches
    schema_migrations, as no file under migrations/ does, and a statement that
    fails leaves the transaction to be rolled back.  The migrations directory
    is the list of its files in the order of [os.ReadDir].  Versions are
    integers; the loop over them is the range up to the highest one, which in
    the source is below the largest int64. *)

From S2P Require Import Prelude GoStrings.

Module Migrate.

(** [fmt.Sscanf(s, "%d", &v)]: spaces, a sign and the leading digits. *)
Fixpoint leading_digits (s : string) : string :=
  match s with
  | "" => ""
  | String c s' => if is_digit c then String c (leading_digits s') else ""
  end.
Fixpoint skip_space (s : string) : string :=
  match s with
  | "" => ""
  | String c s' => if is_space_char c then skip_space s' else s
  end.
Definition Sscanf_d (s : string) : option Z :=
  match skip_space s with
  | String "-" s' => z ← parse_digits (leading_digits s'); check_int64 (- z)
  | String "+" s' => z ← parse_digits (leading_digits s'); check_int64 z
  | s' => z ← parse_digits (leading_digits s'); check_int64 z
  end.

Inductive migrate_error :=
| CreateTable
| ReadDirectory
| ReadFile (version : Z)
| BeginTx (version : Z)
| Execute (version : Z)
| Record_ (version : Z)
| CommitTx (version : Z).

Section Migrate.
Context {Data : Type} (exec : string → Data → option Data).

(** A file of the directory; its text is [None] when it cannot be read. *)
Record File := { FileName : string; FileText : option string }.

(** The contents and the rows of schema_migrations, with their dirty flag. *)
Record DB := { contents : Data; rows : gmap Z bool }.

(** For which versions a transaction cannot be started, the row of the version
    cannot be inserted (for another reason than its being there already), or the
    transaction cannot be committed. *)
Record Faults := { begin_fails : Z → bool; insert_fails : Z → bool; commit_fails : Z → bool }.

Definition current_version (db : DB) : Z :=
  foldr Z.max 0 (filter (λ v, rows db !! v = Some false) (map_to_list (rows db)).*1).

Definition version_of (f : File) : option Z :=
  if has_suffix (FileName f) ".up.sql" then
    match str_split "_" (FileName f) with
    | p :: _ => Sscanf_d p
    | [] => None
    end
  else None.

(** The versions above the current one with their files; a later file of the
    same version replaces an earlier one. *)
Definition add_file (currentVersion : Z) (m : gmap Z File) (f : File) : gmap Z File :=
  match version_of f with
  | Some v => if bool_decide (currentVersion < v) then <[v := f]> m else m
  | None => m
  end.
Definition upFiles (currentVersion : Z) (entries : list File) : gmap Z File :=
  foldl (add_file currentVersion) ∅ entries.
Definition highestVersion (ups : gmap Z File) : Z := foldr Z.max 0 (map_to_list ups).*1.

(** One migration in its transaction: both the statements and the row, or
    nothing. *)
Definition apply_one (faults : Faults) (version : Z) (f : File) (db : DB) : result migrate_error DB :=
  match FileText f with
  | None => Err (ReadFile version)
  | Some content =>
    if begin_fails faults version then Err (BeginTx version)
    else match exec content (contents db) with
    | None => Err (Execute version)
    | Some s' =>
      if insert_fails faults version || bool_decide (is_Some (rows db !! version))
      then Err (Record_ version)
      else if commit_fails faults version then Err (CommitTx version)
      else Ok {| contents := s'; rows := <[version := false]> (rows db) |}
    end
  end.

(** The loop over the versions; on an error the database is what the committed
    migrations made of it. *)
Fixpoint apply_range (faults : Faults) (ups : gmap Z File) (versions : list Z) (db : DB) :
    DB * option migrate_error :=
  match versions with
  | [] => (db, None)
  | v :: rest =>
    match ups !! v with
    | None => apply_range faults ups rest db
    | Some f =>
      match apply_one faults v f db with
      | Ok db' => apply_range faults ups rest db'
      | Err e => (db, Some e)
      end
    end
  end.

(** [table_ok]: whether schema_migrations could be created; [version_ok]: whether
    the current version could be read, taken as zero otherwise. *)
Definition runMigrations (faults : Faults) (table_ok version_ok : bool) (entries : option (list File))
    (db : DB) : DB * option migrate_error :=
  if negb table_ok then (db, Some CreateTable)
  else
    let currentVersion := if version_ok then current_version db else 0 in
    match entries with
    | None => (db, Some ReadDirectory)
    | Some entries =>
      let ups := upFiles currentVersion entries in
      let highest := highestVersion ups in
      apply_range faults ups (seqZ (currentVersion + 1) (highest - currentVersion)) db
    end.

(** Both databases; failures are only logged. *)
Definition RunAllMigrations (duckdb postgres : DB → DB * option migrate_error) (d p : DB) :
    DB * DB * option migrate_error := ((duckdb d).1, (postgres p).1, None).

(** *** Lemmas *)

Lemma foldr_max_ge l (x : Z) : x ∈ l → x ≤ foldr Z.max 0 l.
Proof.
  induction l as [|y l IH]; [by intros ?%elem_of_nil|]. cbn.
  intros [-> |Hx]%elem_of_cons; [lia|]. specialize (IH Hx). lia.
Qed.
Lemma foldr_max_in l : foldr Z.max 0 l = 0 ∨ foldr Z.max 0 l ∈ l.
Proof.
  induction l as [|y l IH]; [by left|]. cbn. destruct (Z.max_spec y (foldr Z.max 0 l)) as [[? ->]|[? ->]].
  - destruct IH as [?|?]; [by left|right; by right].
  - right. by left.
Qed.

Lemma upFiles_above cur entries v f : upFiles cur entries !! v = Some f → cur < v ∧ version_of f = Some v ∧ f ∈ entries.
Proof.
  unfold upFiles. enough (∀ m, (∀ v f, m !! v = Some f → cur < v ∧ version_of f = Some v ∧ f ∈ entries) →
    ∀ l, (∀ f, f ∈ l → f ∈ entries) → ∀ v f, foldl (add_file cur) m l !! v = Some f →
    cur < v ∧ version_of f = Some v ∧ f ∈ entries) as He.
  { apply (He ∅); [by intros ?? ?%lookup_empty_Some|done]. }
  intros m Hm l. revert m Hm. induction l as [|x l IH]; intros m Hm Hl v' f'; [apply Hm|]. cbn.
  apply IH; [|intros y Hy; apply Hl; by right]. intros w g. unfold add_file.
  destruct (version_of x) as [vx|] eqn:Ex; [|apply Hm].
  case_bool_decide as Hb; [|apply Hm].
  destruct (decide (vx = w)) as [->|Hne].
  - rewrite lookup_insert_eq. intros [= <-]. split_and!; try done. apply Hl. by left.
  - rewrite lookup_insert_ne by done. apply Hm.
Qed.

(** The versions with a file, in order, and applying their files one by one. *)
Definition pending (ups : gmap Z File) (versions : list Z) : list Z :=
  filter (λ v, is_Some (ups !! v)) versions.

Lemma apply_one_ok faults v f db db' :
  apply_one faults v f db = Ok db' →
  ∃ text, FileText f = Some text ∧ exec text (contents db) = Some (contents db') ∧
    rows db' = <[v := false]> (rows db) ∧ rows db !! v = None.
Proof.
  unfold apply_one. destruct (FileText f) as [text|]; [|done].
  destruct (begin_fails faults v); [done|]. destruct (exec text (contents db)) as [s'|] eqn:Ex; [|done].
  destruct (insert_fails faults v); [done|]. cbn [orb].
  destruct (bool_decide (is_Some _)) eqn:Er; [done|]. destruct (commit_fails faults v); [done|].
  intros [= <-]. decide_bools. exists text. cbn. split_and!; try done. by apply eq_None_not_Some.
Qed.

(** The contents after executing a list of files one after the other. *)
Definition exec_all (texts : list string) (s : Data) : option Data :=
  foldl (λ acc t, s ← acc; exec t s) (Some s) texts.

Lemma exec_all_None texts : foldl (λ acc t, s ← acc; exec t s) None texts = None.
Proof. by induction texts. Qed.

(** What a run leaves behind: the first [k] of the pending versions, all recorded
    and all executed. *)
Record applied (ups : gmap Z File) (db : DB) (vs : list Z) (db' : DB) : Prop := {
  applied_rows : rows db' = foldl (λ m v, <[v := false]> m) (rows db) vs;
  applied_contents : ∃ texts,
    Forall2 (λ v t, ∃ f, ups !! v = Some f ∧ FileText f = Some t) vs texts ∧
    exec_all texts (contents db) = Some (contents db');
}.

(** The migration an error names; the first two errors come before any. *)
Definition failed_version (e : migrate_error) : option Z :=
  match e with
  | CreateTable | ReadDirectory => None
  | ReadFile v | BeginTx v | Execute v | Record_ v | CommitTx v => Some v
  end.

Lemma apply_one_err faults v f db e :
  apply_one faults v f db = Err e → failed_version e = Some v.
Proof.
  unfold apply_one. destruct (FileText f); [|by intros [= <-]].
  destruct (begin_fails faults v); [by intros [= <-]|]. destruct (exec _ _); [|by intros [= <-]].
  destruct (insert_fails faults v || _); [by intros [= <-]|].
  destruct (commit_fails faults v); by intros [= <-].
Qed.

Lemma apply_range_spec faults ups versions : ∀ db db' e,
  apply_range faults ups versions db = (db', e) →
  ∃ k, applied ups db (take k (pending ups versions)) db' ∧
    (k ≤ length (pending ups versions))%nat ∧
    match e with
    | None => k = length (pending ups versions)
    | Some err => pending ups versions !! k = failed_version err ∧ is_Some (failed_version err)
    end.
Proof.
  induction versions as [|v versions IH]; intros db db' e; cbn [apply_range].
  { intros [= <- <-]. exists 0%nat. split; [|done]. split; [done|]. exists []. by split. }
  unfold pending. rewrite filter_cons. fold (pending ups versions).
  destruct (ups !! v) as [f|] eqn:Ef.
  2: { rewrite decide_False by (intros []; congruence). apply IH. }
  rewrite decide_True by eauto. destruct (apply_one faults v f db) as [db1|e1] eqn:E1.
  - intros (k & [Hr (texts & Ht & Hx)] & Hk & He)%IH.
    apply apply_one_ok in E1 as (text & Htext & Hex & Hrows & _).
    exists (S k). cbn [take length]. split; [|split; [lia|destruct e; [done|by f_equal]]].
    split; [by rewrite Hr, Hrows|]. exists (text :: texts). split; [constructor; eauto|].
    unfold exec_all. cbn. by rewrite Hex.
  - intros [= <- <-]. exists 0%nat. split; [|split; [lia|]].
    + split; [done|]. exists []. by split.
    + apply apply_one_err in E1. rewrite E1. split; [done|eauto].
Qed.

Lemma foldl_insert_rows vs : ∀ (m : gmap Z bool) v,
  foldl (λ m v, <[v := false]> m) m vs !! v = if bool_decide (v ∈ vs) then Some false else m !! v.
Proof.
  induction vs as [|w vs IH]; intros m v; cbn.
  { by rewrite bool_decide_eq_false_2 by (apply not_elem_of_nil). }
  rewrite IH. destruct (bool_decide (v ∈ vs)) eqn:E; decide_bools.
  - by rewrite bool_decide_eq_true_2 by (by right).
  - destruct (decide (w = v)) as [->|Hne].
    + rewrite lookup_insert_eq, bool_decide_eq_true_2 by (by left). done.
    + rewrite lookup_insert_ne, bool_decide_eq_false_2; try done. by intros [?|?]%elem_of_cons.
Qed.

Lemma seqZ_sorted m n : StronglySorted Z.lt (seqZ m n).
Proof.
  remember (Z.to_nat n) as k eqn:Hk. revert m n Hk. induction k as [|k IH]; intros m n Hk.
  - rewrite seqZ_nil by lia. constructor.
  - rewrite seqZ_cons by lia. constructor; [apply IH; lia|].
    apply Forall_forall. intros x Hx%elem_of_seqZ. lia.
Qed.

Lemma pending_range cur ups v :
  (∀ w f, ups !! w = Some f → cur < w) →
  v ∈ pending ups (seqZ (cur + 1) (highestVersion ups - cur)) ↔ is_Some (ups !! v).
Proof.
  intros Hab. unfold pending. rewrite list_elem_of_filter, elem_of_seqZ. split; [tauto|].
  intros [f Hf]. split; [by eauto|]. specialize (Hab v f Hf).
  assert (v ≤ highestVersion ups); [|lia]. apply foldr_max_ge. apply list_elem_of_fmap.
  exists (v, f). split; [done|]. by apply elem_of_map_to_list.
Qed.

Lemma run_complete faults entries db db' :
  runMigrations faults true true (Some entries) db = (db', None) →
  let ups := upFiles (current_version db) entries in
  (∃ vs texts, StronglySorted Z.lt vs ∧ (∀ v, v ∈ vs ↔ is_Some (ups !! v)) ∧
     Forall2 (λ v t, ∃ f, ups !! v = Some f ∧ FileText f = Some t) vs texts ∧
     exec_all texts (contents db) = Some (contents db')) ∧
  (∀ v, rows db' !! v = if bool_decide (is_Some (ups !! v)) then Some false else rows db !! v).
Proof.
  unfold runMigrations. cbn [negb]. cbv zeta. set (cur := current_version db).
  set (ups := upFiles cur entries). intros Hr.
  assert (∀ w f, ups !! w = Some f → cur < w) as Hab by (intros w f Hf; by apply upFiles_above in Hf as [? _]).
  apply apply_range_spec in Hr as (k & [Hrows (texts & Ht & Hx)] & Hk & He).
  cbn in He. rewrite He, take_ge in * by lia.
  assert (∀ v, v ∈ pending ups (seqZ (cur + 1) (highestVersion ups - cur)) ↔ is_Some (ups !! v)) as Hp
    by (intros v; by apply pending_range).
  split.
  - eexists _, texts. split; [|split; [exact Hp|split; [exact Ht|exact Hx]]].
    unfold pending. apply StronglySorted_filter, seqZ_sorted.
  - intros v. rewrite Hrows, foldl_insert_rows. by rewrite (bool_decide_ext _ _ (Hp v)).
Qed.

Lemma run_rows faults entries db db' :
  runMigrations faults true true (Some entries) db = (db', None) →
  ∀ v, rows db' !! v = if bool_decide (is_Some (upFiles (current_version db) entries !! v))
                       then Some false else rows db !! v.
Proof. intros Hr. by apply run_complete in Hr as [_ ?]. Qed.

(** A successful run brings the database up to date: every file above the
    current version has been executed, in ascending order and each in its own
    transaction, and is recorded; rows of older versions are untouched. *)
Theorem runMigrations_complete (faults : Faults) (entries : list File) (db db' : DB) :
  runMigrations faults true true (Some entries) db = (db', None) →
  let ups := upFiles (current_version db) entries in
  (∃ vs texts, StronglySorted Z.lt vs ∧ (∀ v, v ∈ vs ↔ is_Some (ups !! v)) ∧
     Forall2 (λ v t, ∃ f, ups !! v = Some f ∧ FileText f = Some t) vs texts ∧
     exec_all texts (contents db) = Some (contents db')) ∧
  (∀ v, rows db' !! v = if bool_decide (is_Some (ups !! v)) then Some false else rows db !! v).
Proof. apply run_complete. Qed.

Lemma current_version_ge db v : rows db !! v = Some false → v ≤ current_version db.
Proof.
  intros Hv. apply foldr_max_ge, list_elem_of_filter. split; [done|].
  apply list_elem_of_fmap. exists (v, false). split; [done|]. by apply elem_of_map_to_list.
Qed.

Lemma current_version_mono db db' :
  (∀ v, rows db !! v = Some false → rows db' !! v = Some false) →
  current_version db ≤ current_version db'.
Proof.
  intros Hr. destruct (foldr_max_in (filter (λ v, rows db !! v = Some false) (map_to_list (rows db)).*1))
    as [H0|[Hin _]%list_elem_of_filter].
  - unfold current_version at 1. rewrite H0.
    destruct (foldr_max_in (filter (λ v, rows db' !! v = Some false) (map_to_list (rows db')).*1)) as [H1|H1].
    + unfold current_version. lia.
    + unfold current_version. clear. induction (filter _ _) as [|x l IH]; cbn; lia.
  - apply current_version_ge, Hr, Hin.
Qed.

Lemma upFiles_has cur entries f v :
  f ∈ entries → version_of f = Some v → cur < v → is_Some (upFiles cur entries !! v).
Proof.
  intros Hf Hv Hc. unfold upFiles.
  assert (∀ l m, is_Some (m !! v) → is_Some (foldl (add_file cur) m l !! v)) as Hkeep.
  { induction l as [|x l IH]; intros m Hm; [done|]. cbn. apply IH. unfold add_file.
    destruct (version_of x) as [vx|]; [|done]. case_bool_decide; [|done].
    destruct (decide (vx = v)) as [->|]; [rewrite lookup_insert_eq; eauto|].
    by rewrite lookup_insert_ne. }
  assert (∀ l m, f ∈ l → is_Some (foldl (add_file cur) m l !! v)) as He; [|by apply He].
  induction l as [|x l IH]; intros m; cbn.
  - by intros ?%elem_of_nil.
  - intros [<- |Hl]%elem_of_cons; [|by apply IH]. apply Hkeep. unfold add_file. rewrite Hv.
    rewrite bool_decide_eq_true_2 by done. rewrite lookup_insert_eq. eauto.
Qed.

(** The pending migrations of a directory, from the file names alone: a version
    above the current one that some file carries, and the file of it that is last
    in the directory. *)
Definition pending_version (cur : Z) (entries : list File) (v : Z) : Prop :=
  cur < v ∧ ∃ f, f ∈ entries ∧ version_of f = Some v.
Definition file_of (entries : list File) (v : Z) : option File :=
  last (filter (λ f, version_of f = Some v) entries).

Lemma upFiles_file_of cur entries v :
  upFiles cur entries !! v = if bool_decide (cur < v) then file_of entries v else None.
Proof.
  unfold upFiles, file_of. induction entries as [|f entries IH] using rev_ind.
  { cbn. rewrite lookup_empty. by case_bool_decide. }
  rewrite foldl_app, filter_app, filter_cons, filter_nil. cbn [foldl].
  set (m := foldl _ _ _) in *. unfold add_file.
  destruct (version_of f) as [w|] eqn:Ew.
  2: { rewrite decide_False, app_nil_r by done. exact IH. }
  destruct (decide (Some w = Some v)) as [[= ->]|Hne].
  - rewrite last_snoc. case_bool_decide; [by rewrite lookup_insert_eq|by rewrite IH].
  - rewrite app_nil_r. destruct (bool_decide (cur < w)); [|exact IH].
    rewrite lookup_insert_ne by congruence. exact IH.
Qed.

Lemma upFiles_pending cur entries v :
  is_Some (upFiles cur entries !! v) ↔ pending_version cur entries v.
Proof.
  split.
  - intros [f (? & ? & ?)%upFiles_above]. split; eauto.
  - intros (Hc & f & Hf & Hv). by eapply upFiles_has.
Qed.

(** What the run applied: the rows gain exactly [vs], and the contents are what
    their files make of them, one after the other. *)
Record migrated_by (entries : list File) (db : DB) (vs : list Z) (db' : DB) : Prop := {
  recorded : ∀ v, rows db' !! v = if bool_decide (v ∈ vs) then Some false else rows db !! v;
  executed : ∃ texts,
    Forall2 (λ v t, ∃ f, file_of entries v = Some f ∧ FileText f = Some t) vs texts ∧
    exec_all texts (contents db) = Some (contents db');
}.

Lemma applied_migrated_by cur entries db vs db' :
  applied (upFiles cur entries) db vs db' → migrated_by entries db vs db'.
Proof.
  intros [Hr (texts & Ht & Hx)]. split.
  - intros v. rewrite Hr. apply foldl_insert_rows.
  - exists texts. split; [|exact Hx]. eapply Forall2_impl; [exact Ht|]. cbn.
    intros v t (f & Hf & ?). rewrite upFiles_file_of in Hf.
    destruct (bool_decide _); [eauto|done].
Qed.

Lemma migrated_by_nil entries db : migrated_by entries db [] db.
Proof. split; [done|]. exists []. by split. Qed.

(** C20: a run is atomic per migration and never skips one.  Let [todo] be the
    pending migrations: the versions above the current one that a file of the
    directory carries, in ascending order.  Whatever goes wrong and wherever, the
    run applied an initial part of [todo], and exactly these versions are recorded
    and their files executed in that order (of two files with one version, the
    last).  Without an error that is all of [todo]; an error of a migration names
    the very next one of [todo], of which nothing remains; an error before any
    migration (the table or the directory) leaves everything as it was. *)
Theorem runMigrations_atomic (faults : Faults) (table_ok version_ok : bool)
    (entries : option (list File)) (db db' : DB) (e : option migrate_error) :
  runMigrations faults table_ok version_ok entries db = (db', e) →
  let cur := if version_ok then current_version db else 0 in
  let files := default [] entries in
  ∃ todo ran, StronglySorted Z.lt todo ∧ (∀ v, v ∈ todo ↔ pending_version cur files v) ∧
    ran `prefix_of` todo ∧ migrated_by files db ran db' ∧
    match e with
    | None => ran = todo ∧ table_ok = true ∧ is_Some entries
    | Some err =>
      match failed_version err with
      | Some v => ran ++ [v] `prefix_of` todo
      | None => db' = db ∧ (table_ok = false ∨ entries = None)
      end
    end.
Proof.
  cbv zeta. set (cur := if version_ok then _ else _). set (ups := upFiles cur (default [] entries)).
  set (todo := pending ups (seqZ (cur + 1) (highestVersion ups - cur))). intros Hrun.
  exists todo.
  assert (StronglySorted Z.lt todo) as Hs by apply StronglySorted_filter, seqZ_sorted.
  assert (∀ v, v ∈ todo ↔ pending_version cur (default [] entries) v) as Hp.
  { intros v. unfold todo. rewrite pending_range; [apply upFiles_pending|].
    intros w f Hf. by apply upFiles_above in Hf as [? _]. }
  unfold runMigrations in Hrun. destruct table_ok; cbn [negb] in Hrun.
  2: { injection Hrun as <- <-. exists []. split_and!; cbn; auto using prefix_nil, migrated_by_nil. }
  destruct entries as [entries|].
  2: { injection Hrun as <- <-. exists []. split_and!; cbn; auto using prefix_nil, migrated_by_nil. }
  cbn [default from_option id] in *. fold cur ups in Hrun.
  apply apply_range_spec in Hrun as (k & Ha & Hk & He). fold todo in Ha, Hk, He.
  exists (take k todo). split_and!; try done; [apply prefix_take|by eapply applied_migrated_by|].
  destruct e as [err|].
  - destruct He as [He [v Hv]]. rewrite Hv in *. rewrite <- (take_S_r _ _ _ He). apply prefix_take.
  - subst k. rewrite take_ge by lia. eauto.
Qed.

(** Migrating is idempotent: a second run over the same directory finds
    nothing to do. *)
Theorem runMigrations_idempotent (faults : Faults) (entries : list File) (db db' : DB) :
  runMigrations faults true true (Some entries) db = (db', None) →
  runMigrations faults true true (Some entries) db' = (db', None).
Proof.
  intros Hrun. pose proof (run_rows _ _ _ _ Hrun) as Hr. unfold runMigrations. cbn [negb].
  assert (current_version db ≤ current_version db') as Hmono.
  { apply current_version_mono. intros v Hv. rewrite Hr. by case_bool_decide. }
  assert (upFiles (current_version db') entries = ∅) as ->.
  { apply map_eq. intros v. rewrite lookup_empty. apply eq_None_not_Some. intros [f Hf].
    apply upFiles_above in Hf as (Hlt & Hv & Hin).
    assert (rows db' !! v = Some false) as Hrow.
    { rewrite Hr, bool_decide_eq_true_2; [done|]. eapply upFiles_has; eauto. lia. }
    apply current_version_ge in Hrow. lia. }
  rewrite seqZ_nil; [done|]. unfold highestVersion. rewrite map_to_list_empty. cbn.
  enough (0 ≤ current_version db') by lia. unfold current_version.
  clear. induction (filter _ _) as [|x l IH]; cbn; lia.
Qed.

(** A migration whose number is not above the current version is never
    applied, however often the migrations are run: a file that arrives late
    between two others is skipped without an error. *)
Theorem late_file_skipped (faults : Faults) (entries : list File) (f : File) (v : Z) (db : DB) :
  version_of f = Some v → v ≤ current_version db →
  runMigrations faults true true (Some (f :: entries)) db
  = runMigrations faults true true (Some entries) db.
Proof.
  intros Hv Hc. unfold runMigrations, upFiles. cbn [negb foldl]. unfold add_file at 2 4 6.
  by rewrite Hv, bool_decide_eq_false_2 by lia.
Qed.
End Migrate.

(** *** A concrete run *)
Definition sample_files : list File :=
  [{| FileName := "000001_init.up.sql"; FileText := Some "a" |};
   {| FileName := "000002_more.up.sql"; FileText := Some "b" |};
   {| FileName := "000002_more.down.sql"; FileText := Some "x" |}].
Definition sample_exec (t : string) (s : list string) : option (list string) := Some (s ++ [t]).
Definition no_faults : Faults := {| begin_fails _ := false; insert_fails _ := false; commit_fails _ := false |}.
Definition empty_db : DB (Data := list string) := {| contents := []; rows := ∅ |}.
Definition migrated : DB (Data := list string) :=
  {| contents := ["a"; "b"]; rows := <[2 := false]> (<[1 := false]> ∅) |}.

Lemma sample_run : runMigrations sample_exec no_faults true true (Some sample_files) empty_db = (migrated, None).
Proof. vm_compute. reflexivity. Defined.

Lemma runMigrations_complete_witness :
  ∀ v, rows migrated !! v
       = if bool_decide (is_Some (upFiles (current_version empty_db) sample_files !! v))
         then Some false else rows empty_db !! v.
Proof. exact (proj2 (runMigrations_complete sample_exec no_faults sample_files empty_db migrated sample_run)). Defined.

(** The second migration cannot be recorded: the first one stays, the second
    leaves nothing. *)
Definition insert_fault : Faults :=
  {| begin_fails _ := false; insert_fails v := bool_decide (v = 2); commit_fails _ := false |}.
Definition half_migrated : DB (Data := list string) :=
  {| contents := ["a"]; rows := <[1 := false]> ∅ |}.

Lemma runMigrations_atomic_witness :
  ∃ todo ran, (∀ v, v ∈ todo ↔ pending_version 0 sample_files v) ∧
    migrated_by sample_exec sample_files empty_db ran half_migrated ∧ ran ++ [2] `prefix_of` todo.
Proof.
  destruct (runMigrations_atomic sample_exec insert_fault true true (Some sample_files) empty_db half_migrated
    (Some (Record_ 2)) ltac:(vm_compute; reflexivity)) as (todo & ran & _ & Hp & _ & Hm & He).
  exists todo, ran. split; [exact Hp|]. split; [exact Hm|exact He].
Defined.

Lemma runMigrations_idempotent_witness :
  runMigrations sample_exec no_faults true true (Some sample_files) migrated = (migrated, None).
Proof. exact (runMigrations_idempotent sample_exec no_faults sample_files empty_db migrated sample_run). Defined.

Lemma late_file_skipped_witness :
  runMigrations sample_exec no_faults true true
    (Some ({| FileName := "000001_late.up.sql"; FileText := Some "c" |} :: sample_files)) migrated
  = runMigrations sample_exec no_faults true true (Some sample_files) migrated.
Proof.
  apply (late_file_skipped sample_exec no_faults sample_files _ 1).
  - vm_compute. reflexivity.
  - vm_compute. discriminate.
Defined.
End Migrate.
