(* ===== verification/Storage.v ===== *)
(** * Project schemas (internal/storage/context.go)

    Schema names as they reach DuckDB's statements: the identifier policy, the
    statements that create and drop a schema, and the scoping of queries.  The
    set of schemas is the state of the database; a statement acts on the schema
    whose name the SQL lexer reads from its text. *)

From S2P Require Import Prelude GoStrings SafeIdent.

Module Storage.
Import SafeIdent.

Inductive schema_error := TooLong (n : Z) | BadPattern | BadStatement | ExecFailed.

#[global] Instance schema_error_eq_dec : EqDecision schema_error.
Proof. solve_decision. Defined.

(** The pattern [^[a-zA-Z_][a-zA-Z0-9_-]*$]. *)
Definition project_char (c : ascii) : bool := ident_char c || bool_decide (c = "-"%char).
Definition validProjectID (s : string) : bool :=
  match s with
  | EmptyString => false
  | String c rest => ident_start c && str_all project_char rest
  end.

Definition SanitizeProjectID (projectID : string) : option schema_error :=
  if bool_decide (str_len projectID > 128) then Some (TooLong (str_len projectID))
  else if negb (validProjectID projectID) then Some BadPattern
  else None.

Record SchemaIdentity := { schema : string }.

Definition NewSchemaIdentity (s : string) : result schema_error SchemaIdentity :=
  match SanitizeProjectID s with
  | Some e => Err e
  | None => Ok {| schema := s |}
  end.

Definition Quoted (si : SchemaIdentity) : string := QuoteIdentifier (schema si).

Definition Validate (si : SchemaIdentity) : option schema_error := SanitizeProjectID (schema si).

Definition create_text (si : SchemaIdentity) : string := "CREATE SCHEMA IF NOT EXISTS " +:+ Quoted si.
Definition drop_text (si : SchemaIdentity) : string := "DROP SCHEMA IF EXISTS " +:+ Quoted si +:+ " CASCADE".

(** The database: the schema a statement names, read from the text after [head],
    with [tail] behind the name. *)
Definition statement_schema (head tail stmt : string) : option string :=
  if String.prefix head stmt then
    match lex_quoted dquote (str_drop (String.length head) stmt) with
    | Some (name, rest) => if bool_decide (rest = tail) then Some name else None
    | None => None
    end
  else None.

Definition exec_create (stmt : string) (db : gset string) : option (gset string) :=
  (λ name, db ∪ {[name]}) <$> statement_schema "CREATE SCHEMA IF NOT EXISTS " "" stmt.
Definition exec_drop (stmt : string) (db : gset string) : option (gset string) :=
  (λ name, db ∖ {[name]}) <$> statement_schema "DROP SCHEMA IF EXISTS " " CASCADE" stmt.

Definition run (ok : bool) (r : option (gset string)) (db : gset string) :
    gset string * option schema_error :=
  if ok then match r with Some db' => (db', None) | None => (db, Some BadStatement) end
  else (db, Some ExecFailed).

(** [ok]: whether the driver executes the statement. *)
Definition EnsureProjectSchema (ok : bool) (si : SchemaIdentity) (db : gset string) :
    gset string * option schema_error := run ok (exec_create (create_text si) db) db.
Definition DropProjectSchema (ok : bool) (si : SchemaIdentity) (db : gset string) :
    gset string * option schema_error := run ok (exec_drop (drop_text si) db) db.

(** [ctx]: the schema of the context, if one was set. *)
Definition scopeQuery (ctx : option string) (query : string) : string :=
  match ctx with
  | None => query
  | Some s =>
    if bool_decide (s = "") then query
    else match SanitizeProjectID s with
    | Some _ => query
    | None => "SET schema = " +:+ QuoteIdentifier s +:+ "; " +:+ query
    end
  end.

(** ** Lemmas *)

Lemma quoted_lexes si rest :
  String.prefix (String dquote "") rest = false →
  lex_quoted dquote (Quoted si +:+ rest) = Some (schema si, rest).
Proof. apply lex_quoted_quote. Qed.

Lemma statement_schema_text head tail si :
  String.prefix (String dquote "") tail = false →
  statement_schema head tail (head +:+ Quoted si +:+ tail) = Some (schema si).
Proof.
  intros Ht. unfold statement_schema.
  rewrite (proj2 (prefix_iff head _)) by eauto.
  rewrite str_drop_app_exact, quoted_lexes by done. by rewrite bool_decide_eq_true_2.
Qed.

Lemma exec_create_text si db : exec_create (create_text si) db = Some (db ∪ {[schema si]}).
Proof.
  unfold exec_create, create_text. rewrite <- (str_app_nil_r (Quoted si)).
  by rewrite statement_schema_text.
Qed.
Lemma exec_drop_text si db : exec_drop (drop_text si) db = Some (db ∖ {[schema si]}).
Proof. unfold exec_drop, drop_text. by rewrite statement_schema_text. Qed.

Lemma drop_acts ok si db :
  DropProjectSchema ok si db = if ok then (db ∖ {[schema si]}, None) else (db, Some ExecFailed).
Proof. unfold DropProjectSchema. rewrite exec_drop_text. by destruct ok. Qed.
Lemma ensure_acts ok si db :
  EnsureProjectSchema ok si db = if ok then (db ∪ {[schema si]}, None) else (db, Some ExecFailed).
Proof. unfold EnsureProjectSchema. rewrite exec_create_text. by destruct ok. Qed.

(** ** Properties *)

(** A project identifier is accepted exactly when it has 1 to 128 characters,
    all of them letters, digits, underscores or hyphens, the first one a letter or
    an underscore; and a schema identity is made of the accepted ones only. *)
Theorem NewSchemaIdentity_spec (s : string) (si : SchemaIdentity) :
  NewSchemaIdentity s = Ok si ↔
  schema si = s ∧ 1 ≤ str_len s ≤ 128 ∧ str_all project_char s = true ∧
  (∀ c r, s = String c r → is_digit c = false ∧ c ≠ "-"%char).
Proof.
  unfold NewSchemaIdentity, SanitizeProjectID.
  destruct s as [|c r]; [split; [done|unfold str_len; cbn; intros (_ & H & _); lia]|].
  cbn [validProjectID str_all]. rewrite ident_start_char.
  assert (1 ≤ str_len (String c r)) as Hpos by (unfold str_len; cbn; lia).
  case_bool_decide as Hl.
  { split; [done|]. intros (_ & H & _). lia. }
  assert (str_len (String c r) ≤ 128) as Hle by lia.
  unfold project_char at 2. split.
  - intros E. destruct (ident_char c) eqn:Hi, (is_digit c) eqn:Hd, (str_all project_char r) eqn:Hr; cbn in E; try done.
    injection E as <-. split_and!; try done; try lia. intros ? ? [= <- <-]. split; [done|].
    intros ->. discriminate Hi.
  - destruct si as [x]. cbn [schema]. intros (-> & _ & Hall & Hf). destruct (Hf c r eq_refl) as [Hd Hm].
    rewrite (bool_decide_eq_false_2 _ Hm), orb_false_r in Hall.
    apply andb_true_iff in Hall as [-> ->]. by rewrite Hd.
Qed.

(** Whatever the name of the schema, quotes included, the create and the drop
    statement act on exactly that schema, and dropping is idempotent; a failed
    statement changes nothing. *)
Theorem schema_statements_exact (si : SchemaIdentity) (db : gset string) (ok : bool) :
  EnsureProjectSchema true si db = (db ∪ {[schema si]}, None) ∧
  DropProjectSchema true si db = (db ∖ {[schema si]}, None) ∧
  (let db' := (DropProjectSchema ok si db).1 in
   (DropProjectSchema true si db').1 = db ∖ {[schema si]} ∧ db' ⊆ db) ∧
  (EnsureProjectSchema false si db).1 = db.
Proof.
  rewrite !drop_acts, !ensure_acts. split_and!; [done|done| |done]. destruct ok; cbn [fst]; rewrite ?drop_acts; cbn [fst]; set_solver.
Qed.

(** A scoped query is the query itself or the query behind one statement that
    sets exactly the schema of the context, which is a valid identifier; an
    invalid or missing schema leaves the query unscoped. *)
Theorem scopeQuery_scopes (ctx : option string) (query : string) :
  match ctx with
  | Some s =>
    if bool_decide (SanitizeProjectID s = None)
    then ∃ t, scopeQuery ctx query = "SET schema = " +:+ t ∧ lex_quoted dquote t = Some (s, "; " +:+ query)
    else scopeQuery ctx query = query
  | None => scopeQuery ctx query = query
  end.
Proof.
  destruct ctx as [s|]; [|done]. case_bool_decide as Hs; unfold scopeQuery.
  - rewrite bool_decide_eq_false_2 by (intros ->; discriminate Hs). rewrite Hs.
    eexists. split; [done|]. by apply (quoted_lexes {| schema := s |}).
  - destruct (SanitizeProjectID s); [|done]. by case_bool_decide.
Qed.
End Storage.
