(* ===== verification/Repository.v ===== *)
(** * The metadata repository (internal/repository/metadata.go)

    Each system table is a map from its primary key, or a list where rows have
    generated keys.  Rows are those the repository writes, so no column is null
    and no scan fails; only for the cached listing of tools, whose answer outlives
    the request, the rows can break off or fail to scan.  A statement that the driver refuses ([ok = false])
    changes nothing.  Rows that a query does not order come in the order of
    [map_to_list]; the theorems speak of them up to permutation.  The order of
    [ORDER BY id] is the collation [id_le] of the database.  The tool listing
    goes through the tool cache of Caches.v, the agents' keys through the
    encryption of Tokens.v and the schemas through Storage.v. *)

From S2P Require Import Prelude GoStrings Storage Tokens Caches.

Module Repository.
Import AesGcm.

Record AgentRecord := {
  AgID : string; AgProjectID : string; AgName : string; AgProvider : string; AgModel : string;
  AgApiKey : string; AgSystemPrompt : string; AgSkillIDsJSON : string; AgBaseURL : string;
}.
Record ToolRecord := {
  ToID : string; ToName : string; ToDescription : string; ToCode : string; ToCategory : string;
  ToVersion : string; ToHealthStatus : string; ToSourceType : string;
}.
Record SkillRecord := {
  SkID : string; SkProjectID : string; SkName : string; SkDescription : string; SkToolIDsJSON : string;
}.
Record IngestionTaskRecord := {
  TaID : string; TaProjectID : string; TaName : string; TaSourceType : string; TaConfigJSON : string;
  TaSchedule : string; TaStatus : string; TaProgress : Z;
}.
Record NotificationChannel := {
  ChID : string; ChProjectID : string; ChName : string; ChType : string; ChConfigJSON : string;
}.
Record KeyRow := { KeyProjectID : string; KeyLabel : string; KeyHash : string; KeyRole : string }.
Record ChatRow := {
  CrProjectID : string; CrAgentID : string; CrRole : string; CrContent : string; CrToolCall : string;
}.

(** The tables with a project column that no code of the repository purges. *)
Record KeptTables := {
  system_simulations : gmap string string;
  system_proposals : gmap string string;
  audit_log : list (option string);
}.
Definition no_kept : KeptTables := {| system_simulations := ∅; system_proposals := ∅; audit_log := [] |}.

Record Tables := {
  system_agents : gmap string AgentRecord;
  system_skills : gmap string SkillRecord;
  system_tasks : gmap string IngestionTaskRecord;
  system_api_keys : gmap string KeyRow;
  system_notification_channels : gmap string NotificationChannel;
  system_chat_history : list ChatRow;
  system_chat_sessions : list (string * string);
  ontology_versions : list (string * string);
  system_projects : gmap string string;
  system_tools : gmap string ToolRecord;
  kept : KeptTables;
}.

Definition set_agents (m : gmap string AgentRecord) (t : Tables) : Tables :=
  {| system_agents := m; system_skills := system_skills t; system_tasks := system_tasks t;
     system_api_keys := system_api_keys t;
     system_notification_channels := system_notification_channels t;
     system_chat_history := system_chat_history t; system_chat_sessions := system_chat_sessions t;
     ontology_versions := ontology_versions t; system_projects := system_projects t;
     system_tools := system_tools t; kept := kept t |}.
Definition set_skills (m : gmap string SkillRecord) (t : Tables) : Tables :=
  {| system_agents := system_agents t; system_skills := m; system_tasks := system_tasks t;
     system_api_keys := system_api_keys t;
     system_notification_channels := system_notification_channels t;
     system_chat_history := system_chat_history t; system_chat_sessions := system_chat_sessions t;
     ontology_versions := ontology_versions t; system_projects := system_projects t;
     system_tools := system_tools t; kept := kept t |}.
Definition set_tasks (m : gmap string IngestionTaskRecord) (t : Tables) : Tables :=
  {| system_agents := system_agents t; system_skills := system_skills t; system_tasks := m;
     system_api_keys := system_api_keys t;
     system_notification_channels := system_notification_channels t;
     system_chat_history := system_chat_history t; system_chat_sessions := system_chat_sessions t;
     ontology_versions := ontology_versions t; system_projects := system_projects t;
     system_tools := system_tools t; kept := kept t |}.
Definition set_history (l : list ChatRow) (t : Tables) : Tables :=
  {| system_agents := system_agents t; system_skills := system_skills t; system_tasks := system_tasks t;
     system_api_keys := system_api_keys t;
     system_notification_channels := system_notification_channels t;
     system_chat_history := l; system_chat_sessions := system_chat_sessions t;
     ontology_versions := ontology_versions t; system_projects := system_projects t;
     system_tools := system_tools t; kept := kept t |}.
Definition set_projects (m : gmap string string) (t : Tables) : Tables :=
  {| system_agents := system_agents t; system_skills := system_skills t; system_tasks := system_tasks t;
     system_api_keys := system_api_keys t;
     system_notification_channels := system_notification_channels t;
     system_chat_history := system_chat_history t; system_chat_sessions := system_chat_sessions t;
     ontology_versions := ontology_versions t; system_projects := m; system_tools := system_tools t;
     kept := kept t |}.
Definition set_tools (m : gmap string ToolRecord) (t : Tables) : Tables :=
  {| system_agents := system_agents t; system_skills := system_skills t; system_tasks := system_tasks t;
     system_api_keys := system_api_keys t;
     system_notification_channels := system_notification_channels t;
     system_chat_history := system_chat_history t; system_chat_sessions := system_chat_sessions t;
     ontology_versions := ontology_versions t; system_projects := system_projects t;
     system_tools := m; kept := kept t |}.

Inductive repo_error :=
| DbError
| NoRows
| EncryptError (e : crypto_error)
| DecryptError (e : crypto_error).

(** *** Statements on a table keyed by identifier *)
Section Table.
Context {R : Type}.

(** An insert fails on an identifier that exists. *)
Definition sql_insert (ok : bool) (id : string) (r : R) (m : gmap string R) : option (gmap string R) :=
  if ok && bool_decide (m !! id = None) then Some (<[id := r]> m) else None.
(** [UPDATE ... WHERE id = $1 AND p]: no row, no error. *)
Definition sql_update (ok : bool) (id : string) (p : R → bool) (f : R → R) (m : gmap string R) :
    option (gmap string R) :=
  if ok then Some (match m !! id with
                   | Some r => if p r then <[id := f r]> m else m
                   | None => m
                   end) else None.
Definition sql_delete (ok : bool) (id : string) (p : R → bool) (m : gmap string R) :
    option (gmap string R) :=
  if ok then Some (match m !! id with
                   | Some r => if p r then delete id m else m
                   | None => m
                   end) else None.
Definition sql_where (p : R → bool) (m : gmap string R) : list (string * R) :=
  map_to_list (filter (λ kv, p kv.2 = true) m).
End Table.

(** What becomes of a query whose rows are read one by one: it is refused; or rows come,
    [scans i] is whether the [i]-th can be scanned, and [broke] the number of rows after which
    the iteration ends with an error, if it does. *)
Inductive rows_answer := Refused | Rows (scans : nat → bool) (broke : option nat).
(** The rows that a loop over [rows.Next] reads that skips what it cannot scan and does not ask
    for [rows.Err]. *)
Fixpoint scanned {R} (scans : nat → bool) (i : nat) (rows : list R) : list R :=
  match rows with [] => [] | r :: rows => (if scans i then [r] else []) ++ scanned scans (1 + i) rows end.
Definition read_rows {R} (a : rows_answer) (rows : list R) : result repo_error (list R) :=
  match a with
  | Refused => Err DbError
  | Rows scans broke => Ok (scanned scans 0 (match broke with Some n => take n rows | None => rows end))
  end.
(** All rows come, or none. *)
Definition intact (a : rows_answer) : Prop := match a with Refused => True | Rows scans broke => broke = None ∧ ∀ i, scans i = true end.

Lemma scanned_sublist {R} scans i (rows : list R) : scanned scans i rows `sublist_of` rows.
Proof.
  revert i. induction rows as [|r rows IH]; intros i; cbn; [done|]. destruct (scans i); cbn; [by apply sublist_skip|by apply sublist_cons].
Qed.
Lemma scanned_all {R} scans i (rows : list R) : (∀ i, scans i = true) → scanned scans i rows = rows.
Proof. intros Hs. revert i. induction rows as [|r rows IH]; intros i; cbn; [done|]. rewrite Hs. cbn. by rewrite IH. Qed.
Lemma read_rows_spec {R} (a : rows_answer) (rows : list R) :
  match read_rows a rows with
  | Ok l => l `sublist_of` rows ∧ (intact a → l = rows)
  | Err e => a = Refused ∧ e = DbError
  end.
Proof.
  destruct a as [|scans [n|]]; cbn; [done| |].
  - split; [|by intros [? _]]. etrans; [apply scanned_sublist|apply sublist_take].
  - split; [apply scanned_sublist|]. intros [_ Hs]. by apply scanned_all.
Qed.

(** A query that the driver answers with its rows. *)
Definition query {A} (ok : bool) (rows : A) : result repo_error A := if ok then Ok rows else Err DbError.
(** [QueryRow(...).Scan(...)]. *)
Definition query_row {A} (ok : bool) (row : option A) : result repo_error A :=
  if ok then match row with Some r => Ok r | None => Err NoRows end else Err DbError.

Definition in_project {R} (proj : R → string) (projectID : string) (r : R) : bool :=
  bool_decide (proj r = projectID).

(** *** Tasks, skills, chat history and projects *)
Definition exec {T} (set : T → Tables → Tables) (r : option T) (t : Tables) :
    Tables * option repo_error :=
  match r with Some m => (set m t, None) | None => (t, Some DbError) end.

Definition UpdateTaskProgress (ok : bool) (id : string) (progress : Z) (status : string) (t : Tables) :
    Tables * option repo_error :=
  exec set_tasks
    (sql_update ok id (λ _, true)
      (λ r, {| TaID := TaID r; TaProjectID := TaProjectID r; TaName := TaName r;
               TaSourceType := TaSourceType r; TaConfigJSON := TaConfigJSON r;
               TaSchedule := TaSchedule r; TaStatus := status; TaProgress := progress |})
      (system_tasks t)) t.

Definition GetTaskProgress (ok : bool) (taskID : string) (t : Tables) : result repo_error Z :=
  query_row ok (TaProgress <$> system_tasks t !! taskID).

Definition ListTasks (ok : bool) (projectID : string) (t : Tables) : result repo_error (list IngestionTaskRecord) :=
  query ok (sql_where (in_project TaProjectID projectID) (system_tasks t)).*2.

Definition CreateTask (ok : bool) (r : IngestionTaskRecord) (t : Tables) : Tables * option repo_error :=
  exec set_tasks (sql_insert ok (TaID r) r (system_tasks t)) t.

(** Only these four columns are read. *)
Definition GetTaskByID (ok : bool) (taskID : string) (t : Tables) : result repo_error IngestionTaskRecord :=
  query_row ok
    ((λ r, {| TaID := TaID r; TaProjectID := ""; TaName := TaName r;
              TaSourceType := TaSourceType r; TaConfigJSON := TaConfigJSON r;
              TaSchedule := ""; TaStatus := ""; TaProgress := 0 |}) <$> system_tasks t !! taskID).

Definition DeleteTask (ok : bool) (id projectID : string) (t : Tables) : Tables * option repo_error :=
  exec set_tasks (sql_delete ok id (in_project TaProjectID projectID) (system_tasks t)) t.

Definition SaveChatMessage (ok : bool) (projectID agentID role content toolCall : string) (t : Tables) :
    Tables * option repo_error :=
  exec set_history
    (if ok then Some (system_chat_history t ++
       [{| CrProjectID := projectID; CrAgentID := agentID; CrRole := role; CrContent := content;
           CrToolCall := toolCall |}]) else None) t.

(** Rows in the order of their time stamps, the first twenty. *)
Definition GetChatMessages (ok : bool) (projectID agentID : string) (t : Tables) :
    result repo_error (list ChatRow) :=
  query ok $ take 20 (filter (λ r, CrProjectID r = projectID ∧ CrAgentID r = agentID) (system_chat_history t)).

Definition GetChatHistory (ok : bool) (projectID agentID : string) (t : Tables) :
    result repo_error (list ChatRow) :=
  GetChatMessages ok projectID agentID t.

Definition ListNotificationChannels (ok : bool) (projectID : string) (t : Tables) :
    result repo_error (list NotificationChannel) :=
  query ok (sql_where (in_project ChProjectID projectID) (system_notification_channels t)).*2.

Definition ListSkills (ok : bool) (projectID : string) (t : Tables) : result repo_error (list SkillRecord) :=
  query ok (sql_where (in_project SkProjectID projectID) (system_skills t)).*2.
Definition CreateSkill (ok : bool) (s : SkillRecord) (t : Tables) : Tables * option repo_error :=
  exec set_skills (sql_insert ok (SkID s) s (system_skills t)) t.
Definition UpdateSkill (ok : bool) (s : SkillRecord) (t : Tables) : Tables * option repo_error :=
  exec set_skills
    (sql_update ok (SkID s) (in_project SkProjectID (SkProjectID s))
      (λ r, {| SkID := SkID r; SkProjectID := SkProjectID r; SkName := SkName s;
               SkDescription := SkDescription s; SkToolIDsJSON := SkToolIDsJSON s |})
      (system_skills t)) t.
Definition GetSkillToolIDs (ok : bool) (skillID : string) (t : Tables) : result repo_error string :=
  query_row ok (SkToolIDsJSON <$> system_skills t !! skillID).
Definition DeleteSkill (ok : bool) (id projectID : string) (t : Tables) : Tables * option repo_error :=
  exec set_skills (sql_delete ok id (in_project SkProjectID projectID) (system_skills t)) t.

(** [ON CONFLICT DO NOTHING]. *)
Definition CreateProjectRecord (ok : bool) (id name : string) (t : Tables) : Tables * option repo_error :=
  exec set_projects
    (if ok then Some (match system_projects t !! id with
                      | Some _ => system_projects t
                      | None => <[id := name]> (system_projects t)
                      end) else None) t.
Definition CountProjects (ok : bool) (t : Tables) : result repo_error Z :=
  query ok (Z.of_nat (size (system_projects t))).
Definition CountProjectAgents (ok : bool) (projectID : string) (t : Tables) : result repo_error Z :=
  query ok $ Z.of_nat (length (sql_where (in_project AgProjectID projectID) (system_agents t))).

(** *** Deleting a project *)

(** The tables of the cascade in the order of safeTables. *)
Definition safeTables : list string :=
  ["system_agents"; "system_skills"; "system_tasks"; "system_api_keys";
   "system_notification_channels"; "system_chat_history"; "system_chat_sessions"; "ontology_versions"].

Definition purge {R} (proj : R → string) (projectID : string) (m : gmap string R) : gmap string R :=
  filter (λ kv, proj kv.2 ≠ projectID) m.

(** The constraint fk_chat_agent of the migrations, [fk] where it is there: a message goes with
    the agent that it names, whatever its project. *)
Definition of_agents (gone : string → bool) (r : ChatRow) : bool := gone (CrAgentID r).
Definition drop_messages (fk : bool) (gone : string → bool) (l : list ChatRow) : list ChatRow :=
  if fk then filter (λ r, of_agents gone r = false) l else l.
Definition agent_of (projectID : string) (m : gmap string AgentRecord) (id : string) : bool :=
  match m !! id with Some a => in_project AgProjectID projectID a | None => false end.

(** [DELETE FROM table WHERE project_id = $1] for one of the tables. *)
Definition delete_from (fk : bool) (table projectID : string) (t : Tables) : Tables :=
  let at_table n := bool_decide (table = n) in
  {| system_agents := if at_table "system_agents" then purge AgProjectID projectID (system_agents t) else system_agents t;
     system_skills := if at_table "system_skills" then purge SkProjectID projectID (system_skills t) else system_skills t;
     system_tasks := if at_table "system_tasks" then purge TaProjectID projectID (system_tasks t) else system_tasks t;
     system_api_keys := if at_table "system_api_keys" then purge KeyProjectID projectID (system_api_keys t) else system_api_keys t;
     system_notification_channels :=
       if at_table "system_notification_channels" then purge ChProjectID projectID (system_notification_channels t)
       else system_notification_channels t;
     system_chat_history :=
       if at_table "system_chat_history" then filter (λ r, CrProjectID r ≠ projectID) (system_chat_history t)
       else if at_table "system_agents" then drop_messages fk (agent_of projectID (system_agents t)) (system_chat_history t)
       else system_chat_history t;
     system_chat_sessions :=
       if at_table "system_chat_sessions" then filter (λ r, r.1 ≠ projectID) (system_chat_sessions t)
       else system_chat_sessions t;
     ontology_versions :=
       if at_table "ontology_versions" then filter (λ r, r.1 ≠ projectID) (ontology_versions t)
       else ontology_versions t;
     system_projects := system_projects t; system_tools := system_tools t; kept := kept t |}.

(** The statements of the transaction one after the other; [fails] tells which
    of them the driver refuses. *)
Fixpoint cascade (fk : bool) (fails : string → bool) (tables : list string) (projectID : string) (t : Tables) : option Tables :=
  match tables with
  | [] => Some t
  | n :: rest => if fails n then None else cascade fk fails rest projectID (delete_from fk n projectID t)
  end.

Definition DeleteProjectCascade (fk begin_ok commit_ok : bool) (fails : string → bool)
    (projectID : string) (t : Tables) : Tables * option repo_error :=
  if negb begin_ok then (t, Some DbError)
  else match cascade fk fails safeTables projectID t with
  | None => (t, Some DbError)
  | Some t' =>
    if fails "system_projects" then (t, Some DbError)
    else if negb commit_ok then (t, Some DbError)
    else (set_projects (delete projectID (system_projects t')) t', None)
  end.

(** The queue of schemas that are still to be dropped. *)
Definition ScheduleSchemaCleanup (projectID : string) (queue : list string) : list string := queue ++ [projectID].
Definition DrainSchemaCleanupQueue (queue : list string) : list string * list string := ([], queue).

Inductive cascade_error :=
| MetadataFailed (e : repo_error)
| IdentityFailed (e : Storage.schema_error)
| DropFailed (e : Storage.schema_error).

(** Both phases; [schemas] are the project schemas of DuckDB, [repo] is false when
    there is no metadata repository and [drop_ok] whether DuckDB executes the
    drop statement. *)
Definition DeleteProjectCascadeWithDB (fk repo begin_ok commit_ok : bool) (fails : string → bool)
    (drop_ok : bool) (projectID : string) (st : Tables * gset string * list string) :
    (Tables * gset string * list string) * option cascade_error :=
  let '(t, schemas, queue) := st in
  match (if repo then DeleteProjectCascade fk begin_ok commit_ok fails projectID t else (t, None)) with
  | (t', Some e) => ((t', schemas, queue), Some (MetadataFailed e))
  | (t', None) =>
    match Storage.NewSchemaIdentity projectID with
    | Err e => ((t', schemas, ScheduleSchemaCleanup projectID queue), Some (IdentityFailed e))
    | Ok si =>
      match Storage.DropProjectSchema drop_ok si schemas with
      | (schemas', Some e) => ((t', schemas', ScheduleSchemaCleanup projectID queue), Some (DropFailed e))
      | (schemas', None) => ((t', schemas', queue), None)
      end
    end
  end.

(** No rows of a project in the tables of the cascade. *)
Definition no_rows_of (projectID : string) (t : Tables) : Prop :=
  map_Forall (λ _ r, AgProjectID r ≠ projectID) (system_agents t) ∧
  map_Forall (λ _ r, SkProjectID r ≠ projectID) (system_skills t) ∧
  map_Forall (λ _ r, TaProjectID r ≠ projectID) (system_tasks t) ∧
  map_Forall (λ _ r, KeyProjectID r ≠ projectID) (system_api_keys t) ∧
  map_Forall (λ _ r, ChProjectID r ≠ projectID) (system_notification_channels t) ∧
  Forall (λ r, CrProjectID r ≠ projectID) (system_chat_history t) ∧
  Forall (λ r, r.1 ≠ projectID) (system_chat_sessions t) ∧
  Forall (λ r, r.1 ≠ projectID) (ontology_versions t) ∧
  system_projects t !! projectID = None.

(** The tables without the rows of a project, and without the messages that the constraint
    takes along; the tables that are not purged as they were. *)
Definition others (fk : bool) (projectID : string) (t : Tables) : Tables :=
  {| system_agents := purge AgProjectID projectID (system_agents t);
     system_skills := purge SkProjectID projectID (system_skills t);
     system_tasks := purge TaProjectID projectID (system_tasks t);
     system_api_keys := purge KeyProjectID projectID (system_api_keys t);
     system_notification_channels := purge ChProjectID projectID (system_notification_channels t);
     system_chat_history :=
       filter (λ r, CrProjectID r ≠ projectID) (drop_messages fk (agent_of projectID (system_agents t)) (system_chat_history t));
     system_chat_sessions := filter (λ r, r.1 ≠ projectID) (system_chat_sessions t);
     ontology_versions := filter (λ r, r.1 ≠ projectID) (ontology_versions t);
     system_projects := delete projectID (system_projects t);
     system_tools := system_tools t; kept := kept t |}.

Lemma purge_none {R} (proj : R → string) p m : map_Forall (λ _ r, proj r ≠ p) (purge proj p m).
Proof. intros k r [_ Hr]%map_lookup_filter_Some. done. Qed.

Lemma cascade_cases fk begin_ok commit_ok fails projectID t :
  let '(t', e) := DeleteProjectCascade fk begin_ok commit_ok fails projectID t in
  match e with
  | Some _ => t' = t
  | None => t' = others fk projectID t ∧ no_rows_of projectID t'
  end.
Proof.
  unfold DeleteProjectCascade. destruct begin_ok; cbn [negb]; [|done].
  destruct (cascade fk fails safeTables projectID t) as [t1|] eqn:Ec; [|done].
  destruct (fails "system_projects"); [done|]. destruct commit_ok; cbn [negb]; [|done].
  unfold safeTables in Ec. cbn [cascade] in Ec. repeat (case_match; [done|]). injection Ec as <-.
  split; [reflexivity|]. unfold no_rows_of. split_and!;
    try (apply purge_none); try (cbn; apply Forall_filter_sat).
  cbn. apply lookup_delete_eq.
Qed.

(** The chat messages that are left: those of other projects, unless the constraint is there
    and they name an agent of the project. *)
Lemma history_left fk projectID t r : r ∈ system_chat_history (others fk projectID t) ↔
  r ∈ system_chat_history t ∧ CrProjectID r ≠ projectID ∧
  (fk = true → ∀ a, system_agents t !! CrAgentID r = Some a → AgProjectID a ≠ projectID).
Proof.
  cbn. rewrite list_elem_of_filter. unfold drop_messages, of_agents, agent_of, in_project. destruct fk; [|naive_solver].
  rewrite list_elem_of_filter. destruct (system_agents t !! CrAgentID r) as [a|]; [rewrite bool_decide_eq_false|]; naive_solver.
Qed.

(** C13: deleting a project is all or nothing: on any failure, of the begin, of whichever
    statement or of the commit, nothing changes.  On success the project has no row left in the
    nine tables of the cascade, and the rows that it had there are all that is gone, but for
    one case: where the foreign key of the chat messages on their agents is in place, the
    messages of other projects that name an agent of the project go with it.  The tools, the
    simulations, the proposals and the audit log are as they were, with the rows of the
    project in them. *)
Theorem DeleteProjectCascade_atomic (fk begin_ok commit_ok : bool) (fails : string → bool)
    (projectID : string) (t : Tables) :
  let '(t', e) := DeleteProjectCascade fk begin_ok commit_ok fails projectID t in
  match e with
  | Some _ => t' = t
  | None =>
    no_rows_of projectID t' ∧
    (∀ id r, system_agents t' !! id = Some r ↔ system_agents t !! id = Some r ∧ AgProjectID r ≠ projectID) ∧
    (∀ id r, system_skills t' !! id = Some r ↔ system_skills t !! id = Some r ∧ SkProjectID r ≠ projectID) ∧
    (∀ id r, system_tasks t' !! id = Some r ↔ system_tasks t !! id = Some r ∧ TaProjectID r ≠ projectID) ∧
    (∀ id r, system_api_keys t' !! id = Some r ↔ system_api_keys t !! id = Some r ∧ KeyProjectID r ≠ projectID) ∧
    (∀ id r, system_notification_channels t' !! id = Some r ↔ system_notification_channels t !! id = Some r ∧ ChProjectID r ≠ projectID) ∧
    (∀ r, r ∈ system_chat_history t' ↔ r ∈ system_chat_history t ∧ CrProjectID r ≠ projectID ∧
       (fk = true → ∀ a, system_agents t !! CrAgentID r = Some a → AgProjectID a ≠ projectID)) ∧
    system_chat_sessions t' = filter (λ r, r.1 ≠ projectID) (system_chat_sessions t) ∧
    ontology_versions t' = filter (λ r, r.1 ≠ projectID) (ontology_versions t) ∧
    system_projects t' = delete projectID (system_projects t) ∧
    system_tools t' = system_tools t ∧ kept t' = kept t
  end.
Proof.
  pose proof (cascade_cases fk begin_ok commit_ok fails projectID t) as Hc.
  destruct (DeleteProjectCascade _ _ _ _ _ _) as [t' [e|]]; [done|]. destruct Hc as [-> Hn].
  split; [done|]. split_and!; try done; try (intros id r; apply map_lookup_filter_Some). intros r. apply history_left.
Qed.

(** After the two phases of a deletion a schema is left over only if it is
    queued for cleanup, and no other schema is touched; a failed first phase
    leaves rows, schemas and queue alone. *)
Theorem cascade_schema_queued (fk begin_ok commit_ok : bool) (fails : string → bool)
    (drop_ok : bool) (projectID : string) (t : Tables) (schemas : gset string) (queue : list string) :
  let '((t', schemas', queue'), e) :=
    DeleteProjectCascadeWithDB fk true begin_ok commit_ok fails drop_ok projectID (t, schemas, queue) in
  match e with
  | None => schemas' = schemas ∖ {[projectID]} ∧ queue' = queue ∧ no_rows_of projectID t'
  | Some (MetadataFailed _) => t' = t ∧ schemas' = schemas ∧ queue' = queue
  | Some _ => queue' = queue ++ [projectID] ∧ schemas' = schemas ∧ no_rows_of projectID t'
  end.
Proof.
  unfold DeleteProjectCascadeWithDB.
  pose proof (cascade_cases fk begin_ok commit_ok fails projectID t) as Hd.
  destruct (DeleteProjectCascade _ _ _ _ _ _) as [t' [e|]]; [done|]. destruct Hd as [_ Hn].
  unfold Storage.NewSchemaIdentity. destruct (Storage.SanitizeProjectID projectID); [done|].
  rewrite Storage.drop_acts. by destruct drop_ok.
Qed.

(** ** Agents, tools and pages *)

Abbreviation ToolCache := (ToolCache.cache (V := list ToolRecord)).

Record Repo := { tables : Tables; toolCache : ToolCache; encryptionKey : option string }.

Definition with_tables (t : Tables) (r : Repo) : Repo :=
  {| tables := t; toolCache := toolCache r; encryptionKey := encryptionKey r |}.
Definition with_cache (c : ToolCache) (r : Repo) : Repo :=
  {| tables := tables r; toolCache := c; encryptionKey := encryptionKey r |}.

Definition NewMetadataRepository (t : Tables) : Repo :=
  {| tables := t; toolCache := ToolCache.NewToolCache; encryptionKey := None |}.
Definition SetEncryptionKey (key : option string) (r : Repo) : Repo :=
  {| tables := tables r; toolCache := toolCache r; encryptionKey := key |}.

Definition with_key (key : string) (a : AgentRecord) : AgentRecord :=
  {| AgID := AgID a; AgProjectID := AgProjectID a; AgName := AgName a; AgProvider := AgProvider a;
     AgModel := AgModel a; AgApiKey := key; AgSystemPrompt := AgSystemPrompt a;
     AgSkillIDsJSON := AgSkillIDsJSON a; AgBaseURL := AgBaseURL a |}.

Section Agents.
Context `{Aead}.

(** The key as it is stored, and as it is read back. *)
Definition protect (nonce : option string) (r : Repo) (apiKey : string) : result crypto_error string :=
  match encryptionKey r with
  | Some k => if bool_decide (apiKey = "") then Ok apiKey else Encrypt nonce apiKey k
  | None => Ok apiKey
  end.
Definition reveal (r : Repo) (apiKey : string) : result crypto_error string :=
  match encryptionKey r with
  | Some k => if bool_decide (apiKey = "") then Ok apiKey else Decrypt apiKey k
  | None => Ok apiKey
  end.

Definition ConfirmAgentInProject (ok : bool) (agentID projectID : string) (r : Repo) : result repo_error bool :=
  match query_row ok (match system_agents (tables r) !! agentID with
                      | Some a => if in_project AgProjectID projectID a then Some (AgID a) else None
                      | None => None
                      end) with
  | Ok _ => Ok true
  | Err NoRows => Ok false
  | Err e => Err e
  end.

(** Name and project are not read. *)
Definition GetAgentForChat (ok : bool) (agentID : string) (r : Repo) : result repo_error AgentRecord :=
  match query_row ok (system_agents (tables r) !! agentID) with
  | Err e => Err e
  | Ok a =>
    match reveal r (AgApiKey a) with
    | Err e => Err (DecryptError e)
    | Ok key =>
      Ok {| AgID := agentID; AgProjectID := ""; AgName := ""; AgProvider := AgProvider a;
            AgModel := AgModel a; AgApiKey := key; AgSystemPrompt := AgSystemPrompt a;
            AgSkillIDsJSON := AgSkillIDsJSON a; AgBaseURL := AgBaseURL a |}
    end
  end.

(** A row whose key does not decrypt is listed with the stored text. *)
Definition listed (r : Repo) (a : AgentRecord) : AgentRecord :=
  match reveal r (AgApiKey a) with Ok key => with_key key a | Err _ => a end.

Definition ListAgents (ok : bool) (projectID : string) (r : Repo) : result repo_error (list AgentRecord) :=
  query ok (listed r <$> (sql_where (in_project AgProjectID projectID) (system_agents (tables r))).*2).

Definition CreateAgent (nonce : option string) (ok : bool) (a : AgentRecord) (r : Repo) :
    Repo * option repo_error :=
  match protect nonce r (AgApiKey a) with
  | Err e => (r, Some (EncryptError e))
  | Ok apiKey =>
    let '(t, e) := exec set_agents
      (sql_insert ok (AgID a) (with_key apiKey a) (system_agents (tables r))) (tables r) in
    (with_tables t r, e)
  end.

Definition DeleteAgent (fk ok : bool) (agentID projectID : string) (r : Repo) : Repo * option repo_error :=
  let gone id := bool_decide (id = agentID) && agent_of projectID (system_agents (tables r)) id in
  match exec set_agents
    (sql_delete ok agentID (in_project AgProjectID projectID) (system_agents (tables r))) (tables r) with
  | (t, None) => (with_tables (set_history (drop_messages fk gone (system_chat_history t)) t) r, None)
  | (t, Some e) => (with_tables t r, Some e)
  end.

Definition UpdateAgent (nonce : option string) (ok : bool) (a : AgentRecord) (r : Repo) :
    Repo * option repo_error :=
  match protect nonce r (AgApiKey a) with
  | Err e => (r, Some (EncryptError e))
  | Ok apiKey =>
    let '(t, e) := exec set_agents
      (sql_update ok (AgID a) (in_project AgProjectID (AgProjectID a))
        (λ row, {| AgID := AgID row; AgProjectID := AgProjectID row; AgName := AgName a;
                   AgProvider := AgProvider a; AgModel := AgModel a; AgApiKey := apiKey;
                   AgSystemPrompt := AgSystemPrompt a; AgSkillIDsJSON := AgSkillIDsJSON a;
                   AgBaseURL := AgBaseURL a |})
        (system_agents (tables r))) (tables r) in
    (with_tables t r, e)
  end.

(** Keys that are usable: no encryption, or a key of the right length and a
    random source that answers. *)
Definition key_usable (nonce : option string) (r : Repo) : Prop :=
  match encryptionKey r with
  | None => True
  | Some k => String.length k = KeyLength ∧ ∃ n, nonce = Some n ∧ String.length n = NonceSize
  end.

Lemma protect_reveal nonce r key :
  key_usable nonce r → ∃ c, protect nonce r key = Ok c ∧ reveal r c = Ok key.
Proof.
  unfold key_usable, protect, reveal. destruct (encryptionKey r) as [k|]; [|by eauto].
  intros (Hk & n & -> & Hn). case_bool_decide as E; [by exists key; rewrite bool_decide_eq_true_2|].
  rewrite Encrypt_ok by done. eexists. split; [done|].
  rewrite bool_decide_eq_false_2 by by apply sealed_nonempty. by apply Decrypt_sealed.
Qed.

(** With no encryption key, or a usable one, creating an agent fails only when
    the database refuses the row, and the API key that chat and listing then read
    is the one that was given, under any random nonce. *)
Theorem agent_key_roundtrip (nonce : option string) (ok : bool) (a : AgentRecord) (r : Repo) :
  key_usable nonce r →
  match CreateAgent nonce ok a r with
  | (r', None) =>
    (∃ a', GetAgentForChat true (AgID a) r' = Ok a' ∧ AgApiKey a' = AgApiKey a ∧ AgModel a' = AgModel a) ∧
    ∃ l, ListAgents true (AgProjectID a) r' = Ok l ∧ a ∈ l
  | (r', Some e) => e = DbError ∧ (ok = false ∨ is_Some (system_agents (tables r) !! AgID a))
  end.
Proof.
  intros Hk. destruct (protect_reveal nonce r (AgApiKey a) Hk) as (c & Hp & Hr).
  unfold CreateAgent. rewrite Hp. unfold exec, sql_insert.
  destruct ok; cbn [andb]; [|by auto].
  case_bool_decide as En; [|split; [done|right; by apply not_eq_None_Some]].
  split.
  - unfold GetAgentForChat, query_row. cbn [tables with_tables system_agents set_agents].
    rewrite lookup_insert_eq. cbn [AgApiKey with_key]. unfold reveal in *. cbn [encryptionKey with_tables].
    rewrite Hr. eexists. split; [done|done].
  - eexists. split; [done|]. apply list_elem_of_fmap. exists (with_key c a). split.
    + unfold listed. cbn [AgApiKey with_key]. unfold reveal in *. cbn [encryptionKey with_tables].
      rewrite Hr. by destruct a.
    + apply list_elem_of_fmap. exists (AgID a, with_key c a). split; [done|].
      apply elem_of_map_to_list, map_lookup_filter_Some. split; [apply lookup_insert_eq|].
      apply bool_decide_eq_true_2. done.
Qed.

(** An agent whose stored key does not decrypt under the current key is refused
    to chat, but is listed with the ciphertext as its API key. *)
Theorem undecryptable_key_listed (agentID : string) (a : AgentRecord) (e : crypto_error) (r : Repo) :
  system_agents (tables r) !! agentID = Some a →
  reveal r (AgApiKey a) = Err e →
  GetAgentForChat true agentID r = Err (DecryptError e) ∧
  ∃ l, ListAgents true (AgProjectID a) r = Ok l ∧ a ∈ l.
Proof.
  intros Ha He. unfold GetAgentForChat, query_row. rewrite Ha, He. split; [done|].
  eexists. split; [done|]. apply list_elem_of_fmap. exists a. split.
  - unfold listed. by rewrite He.
  - apply list_elem_of_fmap. exists (agentID, a). split; [done|].
    apply elem_of_map_to_list, map_lookup_filter_Some. split; [done|]. by apply bool_decide_eq_true_2.
Qed.
End Agents.

(** *** Tools *)
Section Tools.
Context (range : gmap string (ToolCache.cacheEntry (V := list ToolRecord)) →
                 list (string * ToolCache.cacheEntry (V := list ToolRecord))).

Definition list_tools : string := "list_tools".

(** [SELECT ... FROM system_tools]. *)
Definition tool_rows (r : Repo) : list ToolRecord := (map_to_list (system_tools (tables r))).*2.

(** The listing in its three steps, between which other requests can run: the
    cache is asked, the table is read, the answer is stored. *)
Definition ListTools_cached (now : Time) (r : Repo) : Repo * option (list ToolRecord) :=
  let '(c, v) := ToolCache.Get now list_tools (toolCache r) in (with_cache c r, v).
Definition ListTools_read (a : rows_answer) (r : Repo) : result repo_error (list ToolRecord) :=
  read_rows a (tool_rows r).
Definition ListTools_store (now : Time) (tools : list ToolRecord) (r : Repo) : Repo :=
  with_cache (ToolCache.Set_ range now list_tools tools (toolCache r)) r.

Definition ListTools (now : Time) (a : rows_answer) (r : Repo) : Repo * result repo_error (list ToolRecord) :=
  match ListTools_cached now r with
  | (r, Some tools) => (r, Ok tools)
  | (r, None) =>
    match ListTools_read a r with
    | Err e => (r, Err e)
    | Ok tools => (ListTools_store now tools r, Ok tools)
    end
  end.

Definition GetToolByCategory (ok : bool) (category : string) (r : Repo) : result repo_error (list ToolRecord) :=
  query ok (sql_where (λ t, bool_decide (ToCategory t = category)) (system_tools (tables r))).*2.

(** A statement on the tools; the listing is invalidated when it succeeds. *)
Definition exec_tools (res : option (gmap string ToolRecord)) (r : Repo) : Repo * option repo_error :=
  match exec set_tools res (tables r) with
  | (t, None) => (with_cache (ToolCache.Invalidate list_tools (toolCache r)) (with_tables t r), None)
  | (t, Some e) => (with_tables t r, Some e)
  end.

Definition CreateTool (ok : bool) (t : ToolRecord) (r : Repo) : Repo * option repo_error :=
  exec_tools (sql_insert ok (ToID t) t (system_tools (tables r))) r.

Definition UpdateTool (ok : bool) (t : ToolRecord) (r : Repo) : Repo * option repo_error :=
  exec_tools (sql_update ok (ToID t) (λ _, true)
    (λ row, {| ToID := ToID row; ToName := ToName t; ToDescription := ToDescription t;
               ToCode := ToCode t; ToCategory := ToCategory t; ToVersion := ToVersion t;
               ToHealthStatus := ToHealthStatus t; ToSourceType := ToSourceType t |})
    (system_tools (tables r))) r.

Definition UpdateToolCode (ok : bool) (toolID code : string) (r : Repo) : Repo * option repo_error :=
  exec_tools (sql_update ok toolID (λ _, true)
    (λ row, {| ToID := ToID row; ToName := ToName row; ToDescription := ToDescription row;
               ToCode := code; ToCategory := ToCategory row; ToVersion := ToVersion row;
               ToHealthStatus := ToHealthStatus row; ToSourceType := ToSourceType row |})
    (system_tools (tables r))) r.

Definition UpdateHealthStatus (ok : bool) (toolID status : string) (r : Repo) : Repo * option repo_error :=
  exec_tools (sql_update ok toolID (λ _, true)
    (λ row, {| ToID := ToID row; ToName := ToName row; ToDescription := ToDescription row;
               ToCode := ToCode row; ToCategory := ToCategory row; ToVersion := ToVersion row;
               ToHealthStatus := status; ToSourceType := ToSourceType row |})
    (system_tools (tables r))) r.

Definition GetToolCode (ok : bool) (toolID : string) (r : Repo) : result repo_error string :=
  query_row ok (ToCode <$> system_tools (tables r) !! toolID).

Definition DeleteTool (ok : bool) (id : string) (r : Repo) : Repo * option repo_error :=
  exec_tools (sql_delete ok id (λ _, true) (system_tools (tables r))) r.

(** The repository under requests that do not overlap, and the expiry loop; [P]: what the
    database answers to listings. *)
Inductive tool_step (P : rows_answer → Prop) : Repo → Repo → Prop :=
| step_list now a r : P a → tool_step P r (ListTools now a r).1
| step_create ok t r : tool_step P r (CreateTool ok t r).1
| step_update ok t r : tool_step P r (UpdateTool ok t r).1
| step_code ok id code r : tool_step P r (UpdateToolCode ok id code r).1
| step_health ok id status r : tool_step P r (UpdateHealthStatus ok id status r).1
| step_delete ok id r : tool_step P r (DeleteTool ok id r).1
| step_expire now r : tool_step P r (with_cache (ToolCache.cleanupExpired now (toolCache r)) r).

(** What is cached are rows of the table; [fresh]: all of them. *)
Definition cached_rows (Q : list ToolRecord → list ToolRecord → Prop) (r : Repo) : Prop :=
  ∀ e, ToolCache.entries (toolCache r) !! list_tools = Some e → Q (ToolCache.value e) (tool_rows r).
Definition fresh : Repo → Prop := cached_rows eq.
Definition current : Repo → Prop := cached_rows sublist.

Lemma exec_tools_cached Q res r : cached_rows Q r → cached_rows Q (exec_tools res r).1.
Proof.
  intros Hf. unfold exec_tools, exec. destruct res as [m|]; cbn [fst].
  - intros e. cbn. by rewrite lookup_delete_eq.
  - by destruct r.
Qed.
Lemma exec_tools_fresh res r : fresh r → fresh (exec_tools res r).1.
Proof. apply exec_tools_cached. Qed.

Lemma cached_step Q now r : cached_rows Q r →
  cached_rows Q (ListTools_cached now r).1 ∧ tables (ListTools_cached now r).1 = tables r ∧
  (∀ l, (ListTools_cached now r).2 = Some l → Q l (tool_rows r)).
Proof.
  intros Hf. unfold ListTools_cached, ToolCache.Get.
  destruct (ToolCache.entries (toolCache r) !! list_tools) as [e|] eqn:E.
  2: { split_and!; [|done|done]. by intros e; cbn; intros; apply Hf. }
  destruct (time_after now (ToolCache.expiresAt e)); cbn.
  - split_and!; [|done|done]. intros e'. cbn. by rewrite lookup_delete_eq.
  - split_and!; [|done|intros l [= <-]; by apply Hf].
    intros e'. cbn. rewrite lookup_insert_eq. intros [= <-]. cbn. apply (Hf e). done.
Qed.

Lemma list_cached (Q : list ToolRecord → list ToolRecord → Prop) now a r :
  (∀ l, read_rows a (tool_rows r) = Ok l → Q l (tool_rows r)) → cached_rows Q r →
  cached_rows Q (ListTools now a r).1 ∧ tables (ListTools now a r).1 = tables r ∧
  match (ListTools now a r).2 with Ok l => Q l (tool_rows r) | Err e => a = Refused ∧ e = DbError end.
Proof.
  intros HQ Hf. destruct (cached_step Q now r Hf) as (Hc & Ht & Hl). unfold ListTools.
  destruct (ListTools_cached now r) as [r1 [l|]]; cbn [fst snd] in *; [by auto|].
  assert (tool_rows r1 = tool_rows r) as Er by (unfold tool_rows; by rewrite Ht).
  unfold ListTools_read. rewrite Er. pose proof (read_rows_spec a (tool_rows r)) as Hr.
  destruct (read_rows a (tool_rows r)) as [l|e]; cbn [fst snd]; [|done]. split_and!; [|done|by apply HQ].
  intros e. cbn. rewrite lookup_insert_eq. intros [= <-]. cbn. change (Q l (tool_rows r1)). rewrite Er. by apply HQ.
Qed.
Lemma list_fresh now a r : intact a → fresh r →
  fresh (ListTools now a r).1 ∧ tables (ListTools now a r).1 = tables r ∧
  match (ListTools now a r).2 with Ok l => l = tool_rows r | Err e => a = Refused ∧ e = DbError end.
Proof.
  intros Ha. apply (list_cached eq). intros l El. pose proof (read_rows_spec a (tool_rows r)) as Hr. rewrite El in Hr. by apply Hr.
Qed.
Lemma list_current now a r : current r →
  current (ListTools now a r).1 ∧ tables (ListTools now a r).1 = tables r ∧
  match (ListTools now a r).2 with Ok l => l `sublist_of` tool_rows r | Err e => a = Refused ∧ e = DbError end.
Proof.
  apply (list_cached sublist). intros l El. pose proof (read_rows_spec a (tool_rows r)) as Hr. rewrite El in Hr. by apply Hr.
Qed.

Lemma tool_step_cached P Q r r' : (∀ a rows l, P a → read_rows a rows = Ok l → Q l rows) →
  tool_step P r r' → cached_rows Q r → cached_rows Q r'.
Proof.
  intros HQ. destruct 1; try (apply exec_tools_cached).
  - intros Hf. apply (list_cached Q); [|done]. intros l. by apply HQ.
  - intros Hf e. cbn. intros [He _]%map_lookup_filter_Some. by apply Hf.
Qed.

Lemma new_cached Q t : cached_rows Q (NewMetadataRepository t).
Proof. intros e. cbn. by rewrite lookup_empty. Qed.

(** C23: as long as requests do not overlap, the listing of tools is never stale: after any
    sequence of listings, creations, updates, deletions and expiries it holds only rows that
    the table holds now, each as it is now; it is all of them unless the reading of the table
    broke off, or a row could not be scanned, in this listing or in an earlier one that is
    still cached ([P] says what the database answers).  It fails only when the table has to be
    read and the database refuses the query. *)
Theorem ListTools_never_stale (P : rows_answer → Prop) (t : Tables) (r : Repo) (now : Time) (a : rows_answer) :
  star (tool_step P) (NewMetadataRepository t) r → P a →
  match (ListTools now a r).2 with
  | Ok l => l `sublist_of` tool_rows r ∧ ((∀ a, P a → intact a) → l = tool_rows r)
  | Err e => a = Refused ∧ e = DbError
  end.
Proof.
  intros Hs Ha.
  assert (current r) as Hc.
  { refine (star_invariant (tool_step P) current _ _ _ Hs (new_cached _ t)). intros r1 r2. apply tool_step_cached.
    intros a' rows l _ El. pose proof (read_rows_spec a' rows) as Hr. rewrite El in Hr. by apply Hr. }
  destruct (list_current now a r Hc) as (_ & _ & Hl).
  destruct (ListTools now a r).2 as [l|e] eqn:El; [|done]. split; [done|]. intros Hi.
  assert (fresh r) as Hf.
  { refine (star_invariant (tool_step P) fresh _ _ _ Hs (new_cached _ t)). intros r1 r2. apply tool_step_cached.
    intros a' rows l' Hp El'. pose proof (read_rows_spec a' rows) as Hr. rewrite El' in Hr. by apply Hr, Hi. }
  destruct (list_fresh now a r (Hi a Ha) Hf) as (_ & _ & Hl'). by rewrite El in Hl'.
Qed.

(** A reading of the table that breaks off is taken for the whole table, and it is cached:
    until the entry expires the listing leaves out the other tools. *)
Theorem ListTools_truncated (now later : Time) (n : nat) (a : rows_answer) (r : Repo) :
  ToolCache.entries (toolCache r) !! list_tools = None → ToolCache.ttl (toolCache r) = 5 * minute → later ≤ now + 5 * minute →
  let '(r', res) := ListTools now (Rows (λ _, true) (Some n)) r in
  res = Ok (take n (tool_rows r)) ∧ (ListTools later a r').2 = Ok (take n (tool_rows r)).
Proof.
  intros Hn Htl Hl. unfold ListTools at 1, ListTools_cached, ToolCache.Get. rewrite Hn. unfold ListTools_read. cbn [read_rows].
  rewrite scanned_all by done. change (tool_rows (with_cache (toolCache r) r)) with (tool_rows r). split; [done|].
  unfold ListTools, ListTools_cached, ListTools_store, ToolCache.Get. cbn [toolCache with_cache].
  unfold ToolCache.Set_. cbn [ToolCache.entries ToolCache.with_entries]. rewrite lookup_insert_eq. cbn [ToolCache.expiresAt ToolCache.value].
  match goal with |- context [time_after later ?x] => assert (time_after later x = false) as -> end; [|done].
  apply bool_decide_eq_false_2. unfold ToolCache.evictLRU.
  repeat case_bool_decide; cbn [ToolCache.ttl ToolCache.with_entries] in *; rewrite Htl; lia.
Qed.

(** When a tool is created between the reading of the table and the storing of
    the answer by a concurrent listing, the invalidation is lost: until the entry
    expires, up to five minutes later, the listing leaves out the new tool. *)
Theorem ListTools_race (now later : Time) (t : ToolRecord) (r : Repo) :
  system_tools (tables r) !! ToID t = None →
  ToolCache.ttl (toolCache r) = 5 * minute →
  later ≤ now + 5 * minute →
  let raced := ListTools_store now (tool_rows r) (CreateTool true t r).1 in
  system_tools (tables raced) !! ToID t = Some t ∧
  (ListTools later (Rows (λ _, true) None) raced).2 = Ok (tool_rows r).
Proof.
  intros Hn Htl Hl raced. subst raced. unfold CreateTool, exec_tools, exec, sql_insert.
  rewrite Hn. cbn [andb bool_decide_eq_true_2]. rewrite bool_decide_eq_true_2 by done.
  cbn [fst]. split; [apply lookup_insert_eq|].
  unfold ListTools, ListTools_cached, ListTools_store, ToolCache.Get. cbn [toolCache with_cache].
  unfold ToolCache.Set_. cbn [ToolCache.entries ToolCache.with_entries]. rewrite lookup_insert_eq.
  cbn [ToolCache.expiresAt ToolCache.value].
  match goal with |- context [time_after later ?x] => assert (time_after later x = false) as -> end;
    [|done].
  apply bool_decide_eq_false_2. unfold ToolCache.evictLRU.
  repeat case_bool_decide; cbn [ToolCache.ttl ToolCache.with_entries ToolCache.Invalidate] in *;
    rewrite Htl; lia.
Qed.
End Tools.

(** *** Pages in the order of the identifiers *)
Section Pages.
Context `{Aead} (id_le : string → string → Prop) `{!RelDecision id_le}.

Definition row_le {R} (a b : string * R) : Prop := id_le a.1 b.1.
#[global] Instance row_le_dec {R} (a b : string * R) : Decision (row_le a b).
Proof. unfold row_le. apply _. Defined.

(** [ORDER BY id]. *)
Definition ordered {R} (p : R → bool) (m : gmap string R) : list (string * R) :=
  merge_sort row_le (sql_where p m).

(** The condition [id > cursor], absent for an empty cursor. *)
Definition after {R} (cursor : string) (kr : string * R) : Prop :=
  cursor = "" ∨ (id_le cursor kr.1 ∧ kr.1 ≠ cursor).
#[global] Instance after_dec {R} cursor (kr : string * R) : Decision (after cursor kr).
Proof. unfold after. apply _. Defined.

(** The rows after the cursor, at most [limit]; a negative limit is an error. *)
Definition page_query {R} (ok : bool) (p : R → bool) (cursor : string) (limit : Z) (m : gmap string R) :
    result repo_error (list R) :=
  if bool_decide (limit < 0) then Err DbError
  else query ok (take (Z.to_nat limit) (filter (after cursor) (ordered p m))).*2.

Definition ListToolsCursor (ok : bool) (cursor : string) (limit : Z) (r : Repo) :
    result repo_error (list ToolRecord) :=
  page_query ok (λ _, true) cursor limit (system_tools (tables r)).
Definition ListSkillsCursor (ok : bool) (projectID cursor : string) (limit : Z) (t : Tables) :
    result repo_error (list SkillRecord) :=
  page_query ok (in_project SkProjectID projectID) cursor limit (system_skills t).
Definition ListAgentsCursor (ok : bool) (projectID cursor : string) (limit : Z) (r : Repo) :
    result repo_error (list AgentRecord) :=
  let? rows := page_query ok (in_project AgProjectID projectID) cursor limit (system_agents (tables r)) in
  Ok (listed r <$> rows).

(** The cursor after the rows [pre]: the identifier of the last one. *)
Definition cursor_after {R} (pre : list (string * R)) : string :=
  match last pre with Some kr => kr.1 | None => "" end.

Context `{!Transitive id_le, !AntiSymm (=) id_le, !Total id_le}.

Lemma ordered_perm {R} (p : R → bool) m : ordered p m ≡ₚ sql_where p m.
Proof. apply merge_sort_Permutation. Qed.

Lemma ordered_sorted {R} (p : R → bool) m : StronglySorted row_le (ordered p m).
Proof.
  apply StronglySorted_merge_sort.
  - intros a b c Hab Hbc. unfold row_le in *. by transitivity b.1.
  - intros a b. apply (total id_le).
Qed.

Lemma ordered_keys_NoDup {R} (p : R → bool) m : NoDup (ordered p m).*1.
Proof. rewrite ordered_perm. apply NoDup_fst_map_to_list. Qed.

(** Behind a row that is not the last, the rows after it are those the cursor
    condition selects. *)
Lemma after_cursor {R} (p : R → bool) m pre x post :
  ordered p m = (pre ++ [x]) ++ post → x.1 ≠ "" →
  filter (after x.1) (ordered p m) = post.
Proof.
  intros E Hx. pose proof (ordered_sorted p m) as Hs. pose proof (ordered_keys_NoDup p m) as Hn.
  rewrite E, <- app_assoc in *. rewrite !fmap_app in Hn. cbn [app fmap list_fmap] in Hn, Hs |- *.
  apply StronglySorted_app in Hs as (Hcross & _ & Hxs).
  apply StronglySorted_inv in Hxs as [_ Hall].
  apply NoDup_app in Hn as (_ & _ & Hnd%NoDup_cons).
  rewrite filter_app, filter_cons, decide_False by (intros [|[_ ?]]; done).
  assert (filter (after x.1) pre = []) as ->.
  { apply filter_none, Forall_forall. intros y Hy [?|[Hle Hne]]; [done|].
    apply Hne. apply (anti_symm id_le); [|done]. apply (Hcross y x Hy). by left. }
  cbn [app]. apply filter_all_keep, Forall_forall. intros y Hy. right.
  rewrite Forall_forall in Hall. split; [by apply Hall|].
  intros Ey. destruct Hnd as [Hnd _]. apply Hnd. rewrite <- Ey. by apply list_elem_of_fmap_2.
Qed.

Lemma page_query_next {R} (p : R → bool) m pre post limit :
  0 ≤ limit → m !! "" = None → ordered p m = pre ++ post →
  page_query true p (cursor_after pre) limit m = Ok (take (Z.to_nat limit) post).*2.
Proof.
  intros Hl He E. unfold page_query. rewrite bool_decide_eq_false_2 by lia. unfold query.
  destruct pre as [|x pre' _] using rev_ind.
  - cbn [cursor_after last]. cbn in E. rewrite <- E. do 3 f_equal. apply filter_all_keep, Forall_true. by left.
  - unfold cursor_after. rewrite last_snoc. rewrite (after_cursor p m pre' x post); [done|by rewrite E|].
    intros Hx. assert (x ∈ ordered p m) as Hin by (rewrite E; set_solver).
    rewrite ordered_perm in Hin. destruct x as [k v]. cbn in Hx. subst k.
    apply elem_of_map_to_list, map_lookup_filter_Some in Hin as [Hin _]. congruence.
Qed.

(** C27: paging by cursor neither skips nor repeats a row: whatever the order of
    identifiers in the database and the page size, the page after any prefix of
    the ordered rows, asked for with the identifier of the last of them, is the
    next rows; the ordered rows are those of the table (for skills and agents: of
    the project), each once. *)
Theorem cursor_pages_exact (projectID : string) (limit : Z) (r : Repo) :
  0 ≤ limit →
  system_tools (tables r) !! "" = None → system_skills (tables r) !! "" = None →
  system_agents (tables r) !! "" = None →
  (∀ pre post, ordered (λ _, true) (system_tools (tables r)) = pre ++ post →
    ListToolsCursor true (cursor_after pre) limit r = Ok (take (Z.to_nat limit) post).*2) ∧
  (∀ pre post, ordered (in_project SkProjectID projectID) (system_skills (tables r)) = pre ++ post →
    ListSkillsCursor true projectID (cursor_after pre) limit (tables r)
    = Ok (take (Z.to_nat limit) post).*2) ∧
  (∀ pre post, ordered (in_project AgProjectID projectID) (system_agents (tables r)) = pre ++ post →
    ListAgentsCursor true projectID (cursor_after pre) limit r
    = Ok (listed r <$> (take (Z.to_nat limit) post).*2)) ∧
  (∀ {R} (p : R → bool) m, ordered p m ≡ₚ sql_where p m ∧ NoDup (ordered p m).*1).
Proof.
  intros Hl Ht Hs Ha. split_and!.
  - intros pre post. by apply page_query_next.
  - intros pre post. by apply page_query_next.
  - intros pre post E. unfold ListAgentsCursor. rewrite (page_query_next _ _ pre post) by done. done.
  - intros R p m. split; [apply ordered_perm|apply ordered_keys_NoDup].
Qed.
End Pages.

(** ** A concrete repository *)

Definition sample_agent : AgentRecord :=
  {| AgID := "a1"; AgProjectID := "p"; AgName := "n"; AgProvider := "openai"; AgModel := "m";
     AgApiKey := "sk-123456789"; AgSystemPrompt := ""; AgSkillIDsJSON := "[]"; AgBaseURL := "" |}.
Definition sample_tool (id : string) : ToolRecord :=
  {| ToID := id; ToName := id; ToDescription := "d"; ToCode := "c"; ToCategory := "finance";
     ToVersion := "1.0"; ToHealthStatus := "healthy"; ToSourceType := "package" |}.
Definition sample_tables : Tables :=
  {| system_agents := {[ "a0" := with_key "zz" sample_agent ]}; system_skills := ∅; system_tasks := ∅;
     system_api_keys := ∅; system_notification_channels := ∅; system_chat_history := [];
     system_chat_sessions := []; ontology_versions := []; system_projects := {[ "p" := "P" ]};
     system_tools := {[ "t1" := sample_tool "t1"; "t2" := sample_tool "t2" ]}; kept := no_kept |}.
Definition sample_repo : Repo :=
  SetEncryptionKey (Some sample_key) (NewMetadataRepository sample_tables).
Definition sample_repo0 : Repo := NewMetadataRepository sample_tables.
Definition sample_range (m : gmap string (ToolCache.cacheEntry (V := list ToolRecord))) :
  list (string * ToolCache.cacheEntry (V := list ToolRecord)) := map_to_list m.

Lemma agent_key_roundtrip_witness :
  match CreateAgent (Some sample_nonce) true sample_agent sample_repo with
  | (r', None) =>
    (∃ a', GetAgentForChat true "a1" r' = Ok a' ∧ AgApiKey a' = "sk-123456789" ∧ AgModel a' = "m") ∧
    ∃ l, ListAgents true "p" r' = Ok l ∧ sample_agent ∈ l
  | (r', Some e) => e = DbError ∧ (true = false ∨ is_Some (system_agents (tables sample_repo) !! "a1"))
  end.
Proof.
  refine (agent_key_roundtrip (Some sample_nonce) true sample_agent sample_repo _).
  split; [vm_compute; reflexivity|]. exists sample_nonce. split; vm_compute; reflexivity.
Defined.

Lemma undecryptable_key_listed_witness :
  GetAgentForChat true "a0" sample_repo = Err (DecryptError HexDecode) ∧
  ∃ l, ListAgents true "p" sample_repo = Ok l ∧ with_key "zz" sample_agent ∈ l.
Proof.
  apply (undecryptable_key_listed "a0" (with_key "zz" sample_agent) HexDecode sample_repo);
    vm_compute; reflexivity.
Defined.

Definition all_rows : rows_answer := Rows (λ _, true) None.
Lemma ListTools_never_stale_witness :
  let r := (CreateTool true (sample_tool "t3") sample_repo0).1 in
  (∃ l, (ListTools sample_range 7 all_rows r).2 = Ok l ∧ l = tool_rows r) ∧
  match (ListTools sample_range 7 (Rows (λ _, true) (Some 1%nat)) r).2 with Ok l => l `sublist_of` tool_rows r | Err _ => False end.
Proof.
  intros r. split.
  - assert (star (tool_step sample_range intact) sample_repo0 r) as Hs.
    { eapply star_step; [apply (step_create sample_range)|apply star_refl]. }
    pose proof (ListTools_never_stale sample_range intact sample_tables r 7 all_rows Hs (conj eq_refl (λ _, eq_refl))) as H.
    destruct (ListTools sample_range 7 all_rows r).2 as [l|e]; [|by destruct H]. exists l. split; [done|]. by apply H.
  - assert (star (tool_step sample_range (λ _, True)) sample_repo0 r) as Hs.
    { eapply star_step; [apply (step_create sample_range)|apply star_refl]. }
    pose proof (ListTools_never_stale sample_range (λ _, True) sample_tables r 7 (Rows (λ _, true) (Some 1%nat)) Hs Logic.I) as H.
    destruct (ListTools _ _ _ _).2 as [l|e]; [apply H|by destruct H].
Defined.

Lemma ListTools_truncated_witness :
  let '(r', res) := ListTools sample_range 0 (Rows (λ _, true) (Some 1%nat)) sample_repo0 in
  res = Ok (take 1 (tool_rows sample_repo0)) ∧ (ListTools sample_range second all_rows r').2 = Ok (take 1 (tool_rows sample_repo0)).
Proof.
  apply (ListTools_truncated sample_range 0 second 1 all_rows sample_repo0); [reflexivity|reflexivity|vm_compute; discriminate].
Defined.

Lemma ListTools_race_witness :
  system_tools (tables (ListTools_store sample_range 0 (tool_rows sample_repo)
    (CreateTool true (sample_tool "t3") sample_repo).1)) !! "t3" = Some (sample_tool "t3") ∧
  (ListTools sample_range second all_rows (ListTools_store sample_range 0 (tool_rows sample_repo)
    (CreateTool true (sample_tool "t3") sample_repo).1)).2 = Ok (tool_rows sample_repo).
Proof.
  apply (ListTools_race sample_range 0 second (sample_tool "t3") sample_repo).
  - vm_compute. reflexivity.
  - reflexivity.
  - vm_compute. discriminate.
Defined.

Lemma cursor_pages_exact_witness :
  ListToolsCursor String.le true "t1" 1 sample_repo = Ok [sample_tool "t2"].
Proof.
  refine (proj1 (cursor_pages_exact String.le "p" 1 sample_repo _ _ _ _)
    [("t1", sample_tool "t1")] [("t2", sample_tool "t2")] _); vm_compute; try reflexivity; discriminate.
Defined.
End Repository.
