(* ===== verification/Projects.v ===== *)
(** * Projects and their files (api/handler/security.go, project.go, library.go)

    Module Paths: filepath.Join, Abs and Base on Unix, and the containment check
    sanitizePath.  Module Projects: creation and deletion of projects, which touch
    the file system, the schemas of DuckDB and the metadata tables, and the asset
    library.  Module Emerge: relations inferred from table schemas and the ontology
    text made of them.  A file system is a set of directories and a map of files,
    both by the elements of their absolute path; there are no symbolic links. *)

From S2P Require Import Prelude GoStrings GoText SafeIdent Storage Repository.

Module Paths.
Import SafeIdent.

Fixpoint drop_empty (l : list string) : list string :=
  match l with
  | [] => []
  | e :: rest => if bool_decide (e = "") then drop_empty rest else l
  end.

(** Leading empty elements are ignored; all empty gives the empty path. *)
Definition filepath_Join (elems : list string) : string :=
  match drop_empty elems with
  | [] => ""
  | l => filepath_Clean (str_join "/" l)
  end.

(** [getwd]: the working directory, if it can be found. *)
Definition filepath_Abs (getwd : option string) (p : string) : option string :=
  if is_rooted p then Some (filepath_Clean p)
  else (λ wd, filepath_Join [wd; p]) <$> getwd.

Definition sanitizePath (getwd : option string) (base : string) (parts : list string) : option string :=
  match filepath_Abs getwd (filepath_Join (base :: parts)) with
  | None => None
  | Some abs =>
    match filepath_Abs getwd base with
    | None => None
    | Some absBase =>
      if negb (String.prefix (absBase +:+ "/") abs) && bool_decide (abs ≠ absBase) then None
      else Some abs
    end
  end.

(** Where a rooted path leads: the elements that are left of it. *)
Definition loc (p : string) : list string := reverse (foldl (clean_step true) [] (str_split "/" p)).

(** An element that names an entry of a directory. *)
Definition proper (e : string) : Prop := e ≠ "" ∧ e ≠ "." ∧ e ≠ ".." ∧ str_mem "/" e = false.

Lemma str_split_elems sep s : Forall (λ e, str_mem sep e = false) (str_split sep s).
Proof.
  induction s as [|c s IH]; cbn [str_split]; [by constructor|].
  case_bool_decide as E; [by constructor|].
  destruct (str_split sep s) as [|e l]; [repeat constructor; cbn; by rewrite bool_decide_eq_false_2|].
  inversion IH; subst. constructor; [|done]. cbn. rewrite bool_decide_eq_false_2 by done. done.
Qed.

Lemma clean_steps_proper l acc :
  Forall (λ e, str_mem "/" e = false) l → Forall proper acc → Forall proper (foldl (clean_step true) acc l).
Proof.
  revert acc. induction l as [|e l IH]; intros acc Hl Ha; [done|]. inversion Hl; subst. cbn.
  apply IH; [done|]. unfold clean_step.
  destruct (bool_decide (e = "")) eqn:E1; [done|]. destruct (bool_decide (e = ".")) eqn:E2; [done|].
  destruct (bool_decide (e = "..")) eqn:E3; decide_bools; cbn [orb].
  - destruct Ha as [|top rest Ht Hr]; [done|]. rewrite bool_decide_eq_false_2; [done|apply Ht].
  - constructor; [|done]. done.
Qed.

Lemma loc_proper p : Forall proper (loc p).
Proof.
  unfold loc. rewrite Forall_reverse. apply clean_steps_proper; [apply str_split_elems|constructor].
Qed.

Lemma clean_steps_id l acc : Forall proper l → foldl (clean_step true) acc l = reverse l ++ acc.
Proof.
  revert acc. induction l as [|e l IH]; intros acc Hl; [done|]. inversion Hl as [|? ? Hp Hl']; subst.
  cbn [foldl]. unfold clean_step at 2. destruct Hp as (H1 & H2 & H3 & _).
  rewrite !bool_decide_eq_false_2 by done. cbn [orb]. rewrite IH by done.
  by rewrite reverse_cons, <- app_assoc.
Qed.

Lemma str_split_join sep l :
  l ≠ [] → Forall (λ e, str_mem sep e = false) l → str_split sep (str_join (String sep "") l) = l.
Proof.
  intros Hne Hl. destruct l as [|e l]; [done|]. clear Hne. revert e Hl.
  induction l as [|f l IH]; intros e Hl; inversion Hl as [|? ? He Hl']; subst.
  - by apply str_split_no_sep.
  - rewrite str_join_cons, str_app_cons, str_app_nil_l, str_split_cons by done. by rewrite IH.
Qed.

Definition abs_text (es : list string) : string := String "/" (str_join "/" es).

Lemma Clean_rooted p : is_rooted p = true → filepath_Clean p = abs_text (loc p).
Proof. intros Hr. unfold filepath_Clean. rewrite Hr. done. Qed.

Lemma proper_no_slash es : Forall proper es → Forall (λ e, str_mem "/" e = false) es.
Proof. intros H. apply (Forall_impl _ _ _ H). by intros e (_ & _ & _ & ?). Qed.

Lemma loc_abs es : Forall proper es → loc (abs_text es) = es.
Proof.
  intros Hes. unfold loc, abs_text. cbn [str_split]. rewrite bool_decide_eq_true_2 by done.
  cbn [foldl]. change (clean_step true [] "") with (@nil string).
  destruct es as [|e es]; [done|].
  rewrite str_split_join, clean_steps_id by (done || by apply proper_no_slash).
  by rewrite app_nil_r, reverse_involutive.
Qed.

Lemma Abs_clean getwd p abs :
  (∀ wd, getwd = Some wd → is_rooted wd = true) →
  filepath_Abs getwd p = Some abs → abs = abs_text (loc abs).
Proof.
  intros Hwd. unfold filepath_Abs. destruct (is_rooted p) eqn:Hr.
  - intros [= <-]. rewrite Clean_rooted, loc_abs by (done || apply loc_proper). done.
  - destruct getwd as [wd|]; [|done]. intros [= <-]. specialize (Hwd wd eq_refl).
    assert (wd ≠ "") by (intros ->; discriminate Hwd).
    unfold filepath_Join. cbn [drop_empty]. rewrite bool_decide_eq_false_2 by done.
    assert (is_rooted (str_join "/" [wd; p]) = true).
    { unfold is_rooted in *. apply prefix_iff in Hwd as [t ->]. apply prefix_iff.
      exists (t +:+ "/" +:+ p). cbn [str_join]. by rewrite !str_app_assoc. }
    rewrite Clean_rooted, loc_abs by (done || apply loc_proper). done.
Qed.

Lemma split_join_app sep l r :
  l ≠ [] → Forall (λ e, str_mem sep e = false) l →
  str_split sep (str_join (String sep "") l +:+ String sep r) = l ++ str_split sep r.
Proof.
  intros Hne Hl. destruct l as [|e l]; [done|]. clear Hne. revert e Hl.
  induction l as [|f l IH]; intros e Hl; inversion Hl as [|? ? He Hl']; subst.
  - cbn [str_join app]. by apply str_split_cons.
  - rewrite str_join_cons, str_app_cons, str_app_nil_l, str_app_assoc, str_app_cons by done.
    rewrite str_split_cons, IH by done. done.
Qed.

Lemma join_app sep l k : l ≠ [] → k ≠ [] →
  str_join sep (l ++ k) = str_join sep l +:+ sep +:+ str_join sep k.
Proof.
  intros Hl Hk. destruct l as [|e l]; [done|]. clear Hl. revert e.
  induction l as [|f l IH]; intros e; cbn [app]; [by apply str_join_cons|].
  rewrite (str_join_cons _ e), (str_join_cons _ e (f :: l)) by done.
  change (f :: l ++ k) with ((f :: l) ++ k). rewrite IH. by rewrite !str_app_assoc.
Qed.

(** For clean rooted paths the check on the text is the check on the elements. *)
Lemma under_iff bs es :
  bs ≠ [] → Forall proper bs → Forall proper es →
  String.prefix (abs_text bs +:+ "/") (abs_text es) = true ∨ abs_text es = abs_text bs ↔ bs `prefix_of` es.
Proof.
  intros Hne Hb He. split.
  - intros [Hp|E].
    + apply prefix_iff in Hp as [r Hr]. unfold abs_text in Hr.
      rewrite !str_app_cons in Hr. injection Hr as Hr. rewrite str_app_assoc, str_app_cons, str_app_nil_l in Hr.
      destruct es as [|e es].
      { exfalso. cbn in Hr. destruct (str_join "/" bs); discriminate Hr. }
      exists (str_split "/" r). rewrite <- (split_join_app "/" bs r) by (done || by apply proper_no_slash).
      rewrite <- Hr. by rewrite str_split_join by (done || by apply proper_no_slash).
    + exists []. rewrite app_nil_r. rewrite <- (loc_abs es), <- (loc_abs bs), E by done. done.
  - intros [k ->]. destruct k as [|x k]; [right; by rewrite app_nil_r|]. left. apply prefix_iff.
    exists (str_join "/" (x :: k)). unfold abs_text. rewrite join_app by done.
    by rewrite !str_app_cons, str_app_assoc.
Qed.

Lemma sanitizePath_iff getwd base parts p :
  (∀ wd, getwd = Some wd → is_rooted wd = true) →
  sanitizePath getwd base parts = Some p ↔
  ∃ absBase, filepath_Abs getwd base = Some absBase ∧
    filepath_Abs getwd (filepath_Join (base :: parts)) = Some p ∧
    if bool_decide (loc absBase = []) then p = absBase else loc absBase `prefix_of` loc p.
Proof.
  intros Hwd. unfold sanitizePath.
  destruct (filepath_Abs getwd (filepath_Join (base :: parts))) as [abs|] eqn:Ea.
  2: { split; [done|]. by intros (? & _ & ? & _). }
  destruct (filepath_Abs getwd base) as [absBase|] eqn:Eb.
  2: { split; [done|]. by intros (? & ? & _). }
  pose proof (Abs_clean _ _ _ Hwd Ea) as Ca. pose proof (Abs_clean _ _ _ Hwd Eb) as Cb.
  assert ((String.prefix (absBase +:+ "/") abs = true ∨ abs = absBase) ↔
          if bool_decide (loc absBase = []) then abs = absBase else loc absBase `prefix_of` loc abs) as Hiff.
  { case_bool_decide as E.
    - split; [|by auto]. intros [Hp|]; [|done]. exfalso. rewrite Ca, Cb, E in Hp.
      apply prefix_iff in Hp as [t Ht]. unfold abs_text in Ht. cbn in Ht. injection Ht as Ht.
      pose proof (loc_proper abs) as Hl. destruct (loc abs) as [|e [|f l]]; cbn in Ht; [done| |];
        inversion Hl as [|? ? (H1 & _ & _ & H4) _]; subst; [done|].
      destruct e as [|c e]; [done|]. injection Ht as -> _. discriminate H4.
    - rewrite Ca at 1 2. rewrite Cb at 1 2. apply under_iff; [done|apply loc_proper..]. }
  destruct (negb _ && _) eqn:Ec.
  - split; [done|]. intros (? & [= <-] & [= <-] & H). apply Hiff in H.
    apply andb_true_iff in Ec as [E1%negb_true_iff E2]. decide_bools. destruct H as [H|H]; [congruence|done].
  - split.
    + intros [= <-]. exists absBase. split_and!; [done|done|]. apply Hiff.
      apply andb_false_iff in Ec as [E1%negb_false_iff|E2]; [by left|].
      right. decide_bools. by apply dec_stable in E2.
    + intros (? & [= <-] & [= <-] & _). done.
Qed.

Lemma str_split_joined sep l : l ≠ [] →
  str_split sep (str_join (String sep "") l) = mjoin (str_split sep <$> l).
Proof.
  intros Hne. destruct l as [|e l]; [done|]. clear Hne. revert e.
  induction l as [|f l IH]; intros e; [cbn; by rewrite app_nil_r|].
  rewrite str_join_cons, str_app_cons, str_app_nil_l, str_split_app, IH by done. done.
Qed.

(** Where a path below a rooted base leads: the elements walked from there. *)
Lemma loc_Join base parts :
  is_rooted base = true →
  is_rooted (filepath_Join (base :: parts)) = true ∧
  loc (filepath_Join (base :: parts)) =
    reverse (foldl (clean_step true) (reverse (loc base)) (mjoin (str_split "/" <$> parts))).
Proof.
  intros Hr. unfold filepath_Join. cbn [drop_empty].
  rewrite bool_decide_eq_false_2 by (intros ->; discriminate Hr).
  assert (is_rooted (str_join "/" (base :: parts)) = true) as Hr'.
  { unfold is_rooted in *. apply prefix_iff in Hr as [t ->]. apply prefix_iff.
    destruct parts; [by exists t|]. rewrite str_join_cons by done.
    eexists. rewrite str_app_assoc. reflexivity. }
  rewrite Clean_rooted, loc_abs by (done || apply loc_proper). split; [by apply prefix_iff; eexists|].
  unfold loc at 1. rewrite str_split_joined by done. cbn [fmap list_fmap mjoin list_join].
  rewrite foldl_app. unfold loc. by rewrite reverse_involutive.
Qed.

Lemma loc_Join_proper base es :
  is_rooted base = true → Forall proper es → loc (filepath_Join (base :: es)) = loc base ++ es.
Proof.
  intros Hr He. rewrite (proj2 (loc_Join base es Hr)).
  assert (mjoin (str_split "/" <$> es) = es) as ->.
  { induction He as [|e es Hp He IH]; [done|]. cbn [fmap list_fmap mjoin list_join].
    rewrite str_split_no_sep by apply Hp. cbn [app]. f_equal. done. }
  rewrite clean_steps_id by done. by rewrite reverse_app, !reverse_involutive.
Qed.

(** A path that passes the check is clean and absolute and lies in the base
    directory, in terms of the directories it names and not only of its text:
    every accepted path has the elements of the base as a prefix and no dot
    elements, and every path below a base other than the root is accepted. *)
Theorem sanitizePath_contained (getwd : option string) (base : string) (parts : list string) (p : string) :
  (∀ wd, getwd = Some wd → is_rooted wd = true) →
  (sanitizePath getwd base parts = Some p → p = abs_text (loc p) ∧ Forall proper (loc p)) ∧
  (sanitizePath getwd base parts = Some p ↔
   ∃ absBase, filepath_Abs getwd base = Some absBase ∧
     filepath_Abs getwd (filepath_Join (base :: parts)) = Some p ∧
     if bool_decide (loc absBase = []) then p = absBase else loc absBase `prefix_of` loc p).
Proof.
  intros Hwd. split; [|by apply sanitizePath_iff].
  intros (? & _ & Hp & _)%(sanitizePath_iff getwd base parts p Hwd). split; [|apply loc_proper].
  by apply (Abs_clean getwd (filepath_Join (base :: parts))).
Qed.

Lemma sanitizePath_contained_witness :
  "/srv/data/projects/q/x" = abs_text (loc "/srv/data/projects/q/x") ∧
  Forall proper (loc "/srv/data/projects/q/x").
Proof.
  refine (proj1 (sanitizePath_contained (Some "/srv") "data/projects" ["p/../q"; "x"] _ _) _).
  - by intros wd [= <-].
  - vm_compute. reflexivity.
Defined.
End Paths.

(** ** Project and asset handlers

    The projects root is an absolute path, as app.go builds it. *)
Module Projects.
Import SafeIdent Paths.

Record FS := { dirs : gset (list string); files : gmap (list string) string }.

(** All prefixes of a location, the location included. *)
Definition ancestors (l : list string) : list (list string) := (λ n, take n l) <$> seq 0 (S (length l)).

(** [os.MkdirAll], [os.WriteFile], [os.ReadFile], [os.Remove] and [os.RemoveAll]
    when the operating system does not refuse them. *)
Definition MkdirAll (p : string) (fs : FS) : FS :=
  {| dirs := dirs fs ∪ list_to_set (ancestors (loc p)); files := files fs |}.
Definition WriteFile (p content : string) (fs : FS) : option FS :=
  if bool_decide (loc p ∈ dirs fs) then None
  else Some {| dirs := dirs fs; files := <[loc p := content]> (files fs) |}.
Definition ReadFile (p : string) (fs : FS) : option string := files fs !! loc p.
(** Nothing lies below the directory. *)
Definition empty_dir (l : list string) (fs : FS) : bool :=
  bool_decide (filter (λ d, l `prefix_of` d ∧ d ≠ l) (dirs fs) = ∅) &&
  bool_decide (filter (λ kv, l `prefix_of` kv.1) (files fs) = ∅).
Definition Remove (p : string) (fs : FS) : option FS :=
  match files fs !! loc p with
  | Some _ => Some {| dirs := dirs fs; files := delete (loc p) (files fs) |}
  | None =>
    if bool_decide (loc p ∈ dirs fs) && empty_dir (loc p) fs
    then Some {| dirs := dirs fs ∖ {[loc p]}; files := files fs |} else None
  end.
(** [os.RemoveAll] removes what it can: all that is below the path, or, when it fails, what
    [removed] tells. *)
Definition remove_below (p : string) (removed : list string → bool) (fs : FS) : FS :=
  {| dirs := filter (λ d, ¬ (loc p `prefix_of` d ∧ removed d = true)) (dirs fs);
     files := filter (λ kv, ¬ (loc p `prefix_of` kv.1 ∧ removed kv.1 = true)) (files fs) |}.
Definition RemoveAll (failed : option (list string → bool)) (p : string) (fs : FS) : FS * bool :=
  match failed with
  | None => (remove_below p (λ _, true) fs, true)
  | Some removed => (remove_below p removed fs, false)
  end.

Record World := {
  fs : FS; schemas : gset string; meta : Repository.Tables; cleanup : list string;
}.
Definition with_fs (f : FS) (w : World) : World :=
  {| fs := f; schemas := schemas w; meta := meta w; cleanup := cleanup w |}.

(** [hasMeta]: the handler was given a metadata repository. *)
Record ProjectHandler := { projectsRoot : string; maxProjects : Z; hasMeta : bool }.

Inductive project_error :=
| IdRequired
| CountFailed
| LimitReached (n : Z)
| MkdirFailed
| InvalidSchema (e : Storage.schema_error)
| SchemaFailed (e : Storage.schema_error)
| RecordFailed
| PathRefused
| CascadeFailed (e : Repository.cascade_error)
| RemoveFailed.

Definition subdirs : list string := ["raw"; "ontologies"; "agents"; "skills"].
Definition placeholder : string := "// Define your ontology here" +:+ String newline "".

(** The directories one after the other; [mkdir_ok] tells which can be made. *)
Fixpoint make_dirs (mkdir_ok : string → bool) (ds : list string) (f : FS) : FS * bool :=
  match ds with
  | [] => (f, true)
  | d :: rest => if mkdir_ok d then make_dirs mkdir_ok rest (MkdirAll d f) else (f, false)
  end.

Definition write_placeholder (write_ok : bool) (ontFile : string) (f : FS) : FS :=
  if bool_decide (loc ontFile ∈ dirs f ∨ is_Some (files f !! loc ontFile)) then f
  else if write_ok then match WriteFile ontFile placeholder f with Some f' => f' | None => f end else f.

(** [count_ok], [schema_ok], [record_ok], [write_ok]: whether the metadata
    database, DuckDB and the file system carry out the call. *)
Definition CreateProject (count_ok schema_ok record_ok write_ok : bool) (mkdir_ok : string → bool)
    (h : ProjectHandler) (id name : string) (w : World) : World * result project_error (string * string) :=
  if bool_decide (id = "") then (w, Err IdRequired)
  else
    let limit :=
      if hasMeta h && bool_decide (maxProjects h > 0) then
        match Repository.CountProjects count_ok (meta w) with
        | Err _ => Some CountFailed
        | Ok count => if bool_decide (maxProjects h ≤ count) then Some (LimitReached (maxProjects h)) else None
        end
      else None in
    match limit with
    | Some e => (w, Err e)
    | None =>
      let path := filepath_Join [projectsRoot h; id] in
      match make_dirs mkdir_ok ((λ d, filepath_Join [path; d]) <$> subdirs) (fs w) with
      | (f, false) => (with_fs f w, Err MkdirFailed)
      | (f, true) =>
        match Storage.NewSchemaIdentity id with
        | Err e => (with_fs f w, Err (InvalidSchema e))
        | Ok si =>
          match Storage.EnsureProjectSchema schema_ok si (schemas w) with
          | (_, Some e) => (with_fs f w, Err (SchemaFailed e))
          | (s, None) =>
            let w1 := {| fs := f; schemas := s; meta := meta w; cleanup := cleanup w |} in
            match (if hasMeta h then Repository.CreateProjectRecord record_ok id name (meta w)
                   else (meta w, None)) with
            | (_, Some _) => (w1, Err RecordFailed)
            | (m, None) =>
              let ontFile := filepath_Join [path; "ontologies"; "core.aleph"] in
              ({| fs := write_placeholder write_ok ontFile f; schemas := s; meta := m; cleanup := cleanup w |},
               Ok (id, name))
            end
          end
        end
      end
    end.

Definition DeleteProject (fk begin_ok commit_ok : bool) (fails : string → bool) (drop_ok : bool)
    (failed : option (list string → bool)) (h : ProjectHandler) (id : string) (w : World) : World * option project_error :=
  if bool_decide (id = "") then (w, Some IdRequired)
  else match sanitizePath None (projectsRoot h) [id] with
  | None => (w, Some PathRefused)
  | Some path =>
    let '(w1, e) :=
      if hasMeta h then
        let '((t, s, q), e) :=
          Repository.DeleteProjectCascadeWithDB fk true begin_ok commit_ok fails drop_ok id
            (meta w, schemas w, cleanup w) in
        ({| fs := fs w; schemas := s; meta := t; cleanup := q |}, e)
      else (w, None) in
    match e with
    | Some e => (w1, Some (CascadeFailed e))
    | None => let '(f, ok) := RemoveAll failed path (fs w1) in (with_fs f w1, if ok then None else Some RemoveFailed)
    end
  end.

(** ** The asset library *)

Inductive asset_error := AssetPath | AssetNotFound | AssetRemove | NameRequired | ContentRequired | AssetWrite.

Definition GetAssetContent (h : ProjectHandler) (projectID assetID : string) (w : World) :
    result asset_error string :=
  match sanitizePath None (projectsRoot h) [projectID; "library"; assetID] with
  | None => Err AssetPath
  | Some path => match ReadFile path (fs w) with Some c => Ok c | None => Err AssetNotFound end
  end.

Definition DeleteAsset (h : ProjectHandler) (projectID assetID : string) (w : World) :
    World * option asset_error :=
  match sanitizePath None (projectsRoot h) [projectID; "library"; assetID] with
  | None => (w, Some AssetPath)
  | Some path =>
    match Remove path (fs w) with
    | Some f => (with_fs f w, None)
    | None => (w, Some AssetRemove)
    end
  end.

(** [filepath.Base]: the last element, [.] for the empty path, [/] for slashes. *)
Definition filepath_Base (p : string) : string :=
  match last (filter (λ e, e ≠ "") (str_split "/" p)) with
  | Some e => e
  | None => if bool_decide (p = "") then "." else "/"
  end.

(** The asset's name is returned.  [mkdir_ok] and [write_ok]: what the file system
    allows; a failure to make the directory is ignored. *)
Definition UploadAsset (mkdir_ok write_ok : bool) (h : ProjectHandler) (projectID filename content : string)
    (w : World) : World * result asset_error string :=
  if bool_decide (filename = "") then (w, Err NameRequired)
  else if bool_decide (content = "") then (w, Err ContentRequired)
  else
    let libPath := filepath_Join [projectsRoot h; projectID; "library"] in
    let w := if mkdir_ok then with_fs (MkdirAll libPath (fs w)) w else w in
    let safeName := filepath_Base filename in
    match sanitizePath None (projectsRoot h) [projectID; "library"; safeName] with
    | None => (w, Err AssetPath)
    | Some path =>
      match (if write_ok then WriteFile path content (fs w) else None) with
      | Some f => (with_fs f w, Ok safeName)
      | None => (w, Err AssetWrite)
      end
    end.

(** The names of a directory's files; [order] is the order of the listing. *)
Definition ListAssets (order : list string → list string) (read_ok : bool) (h : ProjectHandler)
    (projectID : string) (w : World) : World * option (list string) :=
  let libPath := filepath_Join [projectsRoot h; projectID; "library"] in
  let w := with_fs (MkdirAll libPath (fs w)) w in
  let name (l : list string) : option string :=
    match last l with
    | Some n => if bool_decide (l = loc libPath ++ [n]) then Some n else None
    | None => None
    end in
  (w, if read_ok then Some (order (omap name (map_to_list (files (fs w))).*1)) else None).

(** ** Lemmas *)

Lemma valid_id_proper id si : Storage.NewSchemaIdentity id = Ok si → proper id ∧ Storage.schema si = id.
Proof.
  unfold Storage.NewSchemaIdentity, Storage.SanitizeProjectID.
  case_bool_decide; [done|]. destruct (Storage.validProjectID id) eqn:Hv; [|done].
  intros [= <-]. split; [|done]. destruct id as [|c r]; [done|]. cbn in Hv.
  apply andb_true_iff in Hv as [Hc Hr]. unfold proper. split_and!; [done| | |].
  - intros [= -> ->]. discriminate Hc.
  - intros [= -> ->]. discriminate Hc.
  - cbn. rewrite bool_decide_eq_false_2 by (intros E; subst c; discriminate Hc).
    apply (str_all_not_mem Storage.project_char); done.
Qed.

Lemma ancestors_elem l d : d ∈ ancestors l ↔ d `prefix_of` l.
Proof.
  unfold ancestors. rewrite list_elem_of_fmap. split.
  - intros (n & -> & _). exists (drop n l). by rewrite take_drop.
  - intros [k ->]. exists (length d). split; [by rewrite take_app_length|].
    apply elem_of_seq. rewrite length_app. lia.
Qed.

Lemma make_dirs_spec mkdir_ok ds f f' ok :
  make_dirs mkdir_ok ds f = (f', ok) →
  files f' = files f ∧
  (∀ d, d ∈ dirs f' → d ∈ dirs f ∨ ∃ p, p ∈ ds ∧ d `prefix_of` loc p) ∧
  (ok = true → ∀ p, p ∈ ds → loc p ∈ dirs f') ∧ dirs f ⊆ dirs f'.
Proof.
  revert f. induction ds as [|p ds IH]; intros f; cbn [make_dirs].
  - intros [= <- <-]. split_and!; [done|by auto|set_solver|done].
  - destruct (mkdir_ok p).
    2: { intros [= <- <-]. split_and!; [done|by auto|done|done]. }
    intros (Hf & Hd & Ho & Hs)%IH. cbn [MkdirAll dirs files] in Hf, Hd, Hs. split_and!; [done| | |set_solver].
    + intros d [Hin|(q & Hq & Hp)]%Hd; [|right; exists q; by split; [right|]].
      apply elem_of_union in Hin as [|Hin]; [by left|]. right. exists p. split; [by left|].
      apply elem_of_list_to_set in Hin. by apply ancestors_elem.
    + intros Hok q [->|Hq]%elem_of_cons; [|by apply Ho].
      apply Hs, elem_of_union. right. apply elem_of_list_to_set, ancestors_elem. done.
Qed.

Lemma abs_Join base parts :
  is_rooted base = true →
  filepath_Abs None base = Some (abs_text (loc base)) ∧
  filepath_Abs None (filepath_Join (base :: parts)) = Some (abs_text (loc (filepath_Join (base :: parts)))).
Proof.
  intros Hr. unfold filepath_Abs. rewrite Hr, (proj1 (loc_Join base parts Hr)).
  rewrite !Clean_rooted by (done || apply (loc_Join base parts Hr)). done.
Qed.

(** Below an absolute base other than the root, the check succeeds exactly when
    the path leads below the base. *)
Lemma sanitize_below base parts p :
  is_rooted base = true → loc base ≠ [] →
  sanitizePath None base parts = Some p ↔
  p = abs_text (loc (filepath_Join (base :: parts))) ∧ loc base `prefix_of` loc (filepath_Join (base :: parts)).
Proof.
  intros Hr Hne. destruct (abs_Join base parts Hr) as [Hb Hj].
  rewrite sanitizePath_iff by done. rewrite Hb, Hj. split.
  - intros (? & [= <-] & [= <-] & H). rewrite !loc_abs in H by apply loc_proper.
    rewrite bool_decide_eq_false_2 in H by done. done.
  - intros [-> H]. eexists. split; [done|]. split; [done|].
    rewrite !loc_abs by apply loc_proper. by rewrite bool_decide_eq_false_2.
Qed.

Lemma subdir_loc root id d :
  is_rooted root = true → proper id → d ∈ subdirs →
  loc (filepath_Join [filepath_Join [root; id]; d]) = loc root ++ [id; d].
Proof.
  intros Hr Hid Hd. assert (proper d) as Hpd.
  { unfold subdirs in Hd. set_unfold in Hd. unfold proper. naive_solver. }
  rewrite loc_Join_proper; [|apply (loc_Join root [id] Hr)|by rewrite Forall_singleton].
  rewrite loc_Join_proper by (done || by rewrite Forall_singleton). by rewrite <- app_assoc.
Qed.

Lemma placeholder_spec write_ok p f :
  dirs (write_placeholder write_ok p f) = dirs f ∧
  ∀ l, l ≠ loc p → files (write_placeholder write_ok p f) !! l = files f !! l.
Proof.
  unfold write_placeholder. case_bool_decide; [done|]. destruct write_ok; [|done].
  unfold WriteFile. case_bool_decide; [done|]. split; [done|]. intros l Hl. cbn.
  by rewrite lookup_insert_ne.
Qed.

(** A project that is created has its directories directly below the projects
    root, under its own identifier: no other directory is made (but the way to
    the root), no file but its ontology is written, its schema exists and,
    with a repository, its record too. *)
Theorem CreateProject_confined (count_ok schema_ok record_ok write_ok : bool) (mkdir_ok : string → bool)
    (h : ProjectHandler) (id name : string) (w w' : World) (r : string * string) :
  is_rooted (projectsRoot h) = true →
  CreateProject count_ok schema_ok record_ok write_ok mkdir_ok h id name w = (w', Ok r) →
  let home := loc (projectsRoot h) ++ [id] in
  r = (id, name) ∧ proper id ∧
  (∀ d, d ∈ dirs (fs w') → d ∈ dirs (fs w) ∨ d `prefix_of` home ∨ home `prefix_of` d) ∧
  (∀ d, d ∈ subdirs → home ++ [d] ∈ dirs (fs w')) ∧
  (∀ l, ¬ home `prefix_of` l → files (fs w') !! l = files (fs w) !! l) ∧
  schemas w' = schemas w ∪ {[id]} ∧
  (hasMeta h = true → is_Some (Repository.system_projects (meta w') !! id)).
Proof.
  intros Hr. unfold CreateProject. case_bool_decide; [done|].
  match goal with |- context [match ?l with Some e => (w, Err e) | None => _ end] => destruct l; [done|] end.
  destruct (make_dirs _ _ _) as [f []] eqn:Hm; [|done].
  destruct (Storage.NewSchemaIdentity id) as [si|] eqn:Hid; [|done].
  destruct (valid_id_proper _ _ Hid) as [Hpid Hsi].
  rewrite Storage.ensure_acts. destruct schema_ok; [|done]. rewrite Hsi.
  destruct (if hasMeta h then _ else _) as [m [e|]] eqn:Hrec; [done|]. intros [= <- <-]. set (home := loc (projectsRoot h) ++ [id]).
  apply make_dirs_spec in Hm as (Hfiles & Hdirs & Hmade & _).
  pose (ont := filepath_Join [filepath_Join [projectsRoot h; id]; "ontologies"; "core.aleph"]).
  assert (loc ont = home ++ ["ontologies"; "core.aleph"]) as Hont.
  { unfold ont. rewrite loc_Join_proper; [|apply (loc_Join _ [id] Hr)|by repeat constructor].
    by rewrite loc_Join_proper by (done || by rewrite Forall_singleton). }
  destruct (placeholder_spec write_ok ont f) as [Hpd Hpf]. cbn [fs schemas meta]. fold ont.
  assert (∀ d, d ∈ subdirs → loc (filepath_Join [filepath_Join [projectsRoot h; id]; d]) = home ++ [d]) as Hsub.
  { intros d Hd. rewrite subdir_loc by done. unfold home. by rewrite <- app_assoc. }
  split_and!; [done|done| | | |done|].
  - intros d. rewrite Hpd. intros [Hd|(p & (s & -> & Hs)%list_elem_of_fmap & Hp)]%Hdirs; [by left|].
    right. rewrite Hsub in Hp by done. apply (prefix_weak_total _ _ _ Hp). by eexists.
  - intros d Hd. rewrite Hpd, <- Hsub by done. apply Hmade; [done|]. apply list_elem_of_fmap. by exists d.
  - intros l Hl. rewrite Hpf, Hfiles; [done|]. intros ->. apply Hl. rewrite Hont. by eexists.
  - intros Hh. rewrite Hh in Hrec. unfold Repository.CreateProjectRecord, Repository.exec in Hrec.
    destruct record_ok; [|done]. injection Hrec as <-. cbn.
    destruct (Repository.system_projects (meta w) !! id) eqn:E; [by rewrite E|].
    rewrite lookup_insert_eq. by eexists.
Qed.

(** The identifier is only checked after the directories were made: a request
    with an invalid identifier is refused, but its four directories are there,
    wherever the identifier leads. *)
Theorem CreateProject_escapes (schema_ok record_ok write_ok : bool) (h : ProjectHandler)
    (id name : string) (e : Storage.schema_error) (w : World) :
  is_rooted (projectsRoot h) = true → maxProjects h ≤ 0 →
  id ≠ "" → Storage.SanitizeProjectID id = Some e →
  let '(w', r) := CreateProject true schema_ok record_ok write_ok (λ _, true) h id name w in
  r = Err (InvalidSchema e) ∧ schemas w' = schemas w ∧ meta w' = meta w ∧
  ∀ d, d ∈ subdirs → loc (filepath_Join [filepath_Join [projectsRoot h; id]; d]) ∈ dirs (fs w').
Proof.
  intros Hr Hm Hid He. unfold CreateProject. rewrite (bool_decide_eq_false_2 (id = "")) by done.
  rewrite (bool_decide_eq_false_2 (maxProjects h > 0)), andb_false_r by lia.
  destruct (make_dirs _ _ _) as [f ok] eqn:Hd.
  assert (ok = true) as -> by (cbn [make_dirs subdirs fmap list_fmap] in Hd; by injection Hd as <- <-).
  unfold Storage.NewSchemaIdentity. rewrite He. split_and!; [done..|].
  intros d Hin. apply make_dirs_spec in Hd as (_ & _ & Hmade & _). apply Hmade; [done|].
  apply list_elem_of_fmap. by exists d.
Qed.

Lemma remove_below_spec p removed f :
  (∀ d, d ∈ dirs (remove_below p removed f) ↔ d ∈ dirs f ∧ ¬ (loc p `prefix_of` d ∧ removed d = true)) ∧
  (∀ l, files (remove_below p removed f) !! l =
     if bool_decide (loc p `prefix_of` l) && removed l then None else files f !! l).
Proof.
  split; [intros d; cbn; rewrite elem_of_filter; tauto|]. intros l. cbn.
  destruct (bool_decide (loc p `prefix_of` l) && removed l) eqn:E.
  - apply andb_true_iff in E as [Hl%bool_decide_eq_true Hr]. apply map_lookup_filter_None. right. cbn. intros x _ Hn. by apply Hn.
  - destruct (files f !! l) as [c|] eqn:Ef; [|apply map_lookup_filter_None; by left].
    apply map_lookup_filter_Some. split; [done|]. cbn. intros [Hl Hr]. rewrite bool_decide_eq_true_2, Hr in E by done. done.
Qed.



(** Without a metadata repository the identifier "." passes the path check and
    deletes the whole projects root. *)
Theorem DeleteProject_dot (fk begin_ok commit_ok : bool) (fails : string → bool) (drop_ok : bool)
    (h : ProjectHandler) (w : World) :
  is_rooted (projectsRoot h) = true → loc (projectsRoot h) ≠ [] → hasMeta h = false →
  let '(w', e) := DeleteProject fk begin_ok commit_ok fails drop_ok None h "." w in
  e = None ∧ ∀ d, d ∈ dirs (fs w') → ¬ loc (projectsRoot h) `prefix_of` d.
Proof.
  intros Hr Hne Hm. unfold DeleteProject. rewrite bool_decide_eq_false_2 by done.
  assert (loc (filepath_Join [projectsRoot h; "."]) = loc (projectsRoot h)) as Hl.
  { rewrite (proj2 (loc_Join _ _ Hr)). cbn [fmap list_fmap mjoin list_join str_split app foldl].
    apply reverse_involutive. }
  assert (sanitizePath None (projectsRoot h) ["."] = Some (abs_text (loc (projectsRoot h)))) as ->.
  { apply sanitize_below; [done..|]. by rewrite Hl. }
  rewrite Hm. cbn [RemoveAll]. split; [done|]. cbn [fs with_fs]. intros d Hd.
  apply (proj1 (remove_below_spec _ _ _)) in Hd as [_ Hd]. rewrite loc_abs in Hd by apply loc_proper. tauto.
Qed.

Lemma step_down acc e : proper e → clean_step true acc e = e :: acc.
Proof.
  intros (H1 & H2 & H3 & _). unfold clean_step. by rewrite !bool_decide_eq_false_2.
Qed.
Lemma step_up acc e : e ≠ ".." → clean_step true (e :: acc) ".." = acc.
Proof.
  intros He.
  change (clean_step true (e :: acc) "..") with (if bool_decide (e = "..") then ".." :: e :: acc else acc).
  by rewrite bool_decide_eq_false_2.
Qed.
Lemma library_proper : proper "library".
Proof. by repeat split. Qed.

(** Assets are confined to the projects root, not to the project: with an
    asset identifier that climbs out of its library, one project reads the assets
    of any other. *)
Theorem asset_crosses_projects (h : ProjectHandler) (p q n content : string) (w : World) :
  is_rooted (projectsRoot h) = true → loc (projectsRoot h) ≠ [] → proper p → proper q → proper n →
  files (fs w) !! (loc (projectsRoot h) ++ [q; "library"; n]) = Some content →
  GetAssetContent h p ("../../" +:+ q +:+ "/library/" +:+ n) w = Ok content.
Proof.
  intros Hr Hne Hp Hq Hn Hf. unfold GetAssetContent.
  assert (loc (filepath_Join [projectsRoot h; p; "library"; "../../" +:+ q +:+ "/library/" +:+ n])
          = loc (projectsRoot h) ++ [q; "library"; n]) as Hl.
  { rewrite (proj2 (loc_Join _ _ Hr)). cbn [fmap list_fmap mjoin list_join].
    rewrite (str_split_no_sep "/" p) by apply Hp.
    assert (str_split "/" ("../../" +:+ q +:+ "/library/" +:+ n) = [".."; ".."; q; "library"; n]) as ->.
    { change ("../../" +:+ q +:+ "/library/" +:+ n)
        with (".." +:+ String "/" (".." +:+ String "/" (q +:+ String "/" ("library" +:+ String "/" n)))).
      rewrite !str_split_cons, str_split_no_sep by (done || apply Hq || apply Hn). done. }
    change (str_split "/" "library") with ["library"]. cbn [app foldl].
    rewrite (step_down _ p Hp), (step_down (p :: _) _ library_proper), !step_up by (done || apply Hp).
    rewrite !step_down by (done || apply library_proper).
    by rewrite !reverse_cons, reverse_involutive, <- !app_assoc. }
  assert (sanitizePath None (projectsRoot h) [p; "library"; "../../" +:+ q +:+ "/library/" +:+ n]
          = Some (abs_text (loc (projectsRoot h) ++ [q; "library"; n]))) as ->.
  { apply sanitize_below; [done..|]. rewrite Hl. split; [done|by eexists]. }
  unfold ReadFile. rewrite loc_abs; [by rewrite Hf|].
  rewrite Forall_app. split; [apply loc_proper|]. rewrite !Forall_cons. split_and!; try done; by repeat constructor.
Qed.

Definition sample_world : World :=
  {| fs := {| dirs := {[ ["data"]; ["data"; "q"]; ["data"; "q"; "library"] ]};
              files := {[ ["data"; "q"; "library"; "n"] := "secret" ]} |};
     schemas := {[ "q" ]}; meta := Repository.sample_tables; cleanup := [] |}.
Definition sample_handler (m : bool) : ProjectHandler :=
  {| projectsRoot := "/data"; maxProjects := 0; hasMeta := m |}.

Lemma CreateProject_confined_witness :
  is_Some (Repository.system_projects (meta
    (CreateProject true true true true (λ _, true) (sample_handler true) "acme" "Acme" sample_world).1) !! "acme").
Proof.
  refine (proj2 (proj2 (proj2 (proj2 (proj2 (proj2
    (CreateProject_confined true true true true (λ _, true) (sample_handler true) "acme" "Acme"
       sample_world _ ("acme", "Acme") _ _)))))) _); reflexivity.
Defined.

(** Directories are made next to the projects root. *)
Lemma CreateProject_escapes_witness :
  ["evil"; "raw"] ∈ dirs (fs
    (CreateProject true true true true (λ _, true) (sample_handler true) "../evil" "x" sample_world).1).
Proof.
  pose proof (CreateProject_escapes true true true (sample_handler true) "../evil" "x" Storage.BadPattern
    sample_world eq_refl) as Hd.
  destruct (CreateProject _ _ _ _ _ _ _ _ _) as [w' r].
  refine (proj2 (proj2 (proj2 (Hd _ _ _))) "raw" _); [done|done|reflexivity|by left].
Defined.


Lemma DeleteProject_dot_witness :
  (DeleteProject true true true (λ _, false) true None (sample_handler false) "." sample_world).2 = None.
Proof.
  pose proof (DeleteProject_dot true true true (λ _, false) true (sample_handler false) sample_world eq_refl) as Hd.
  destruct (DeleteProject _ _ _ _ _ _ _ _ _) as [w' e]. apply Hd; done.
Defined.

Lemma asset_crosses_projects_witness :
  GetAssetContent (sample_handler true) "p" "../../q/library/n" sample_world = Ok "secret".
Proof.
  apply (asset_crosses_projects (sample_handler true) "p" "q" "n" "secret" sample_world); try done;
    vm_compute; reflexivity.
Defined.
End Projects.
