(* ===== verification/DslParser.v ===== *)
(** * The ontology language's grammar (internal/dsl/ast.go, parser.go)

    The grammar that the field tags declare, as a parser over the tokens of Go's
    text/scanner.  A literal of the grammar matches a token by its text whatever
    its kind, as participle documents.  Alternatives and repetitions are chosen by
    the next token; a branch that was entered and fails makes the parse fail, and
    so does a token that is left over.  [print] is the canonical token sequence of
    a program. *)

From S2P Require Import Prelude DslAst.

Module DslParser.

Inductive kind := KIdent | KString | KInt | KFloat | KOther.
#[global] Instance kind_eq_dec : EqDecision kind.
Proof. solve_decision. Defined.

(** The value of a string token is its unquoted text. *)
Record token := { tok_kind : kind; tok_val : string }.

Definition Parser (A : Type) := list token → option (A * list token).

Definition pret {A} (a : A) : Parser A := λ ts, Some (a, ts).
Definition pbind {A B} (p : Parser A) (f : A → Parser B) : Parser B :=
  λ ts, match p ts with Some (a, ts') => f a ts' | None => None end.

Notation "'let*' x := p 'in' k" := (pbind p (fun x => k))
  (at level 10, x pattern, p at level 100, k at level 200) : go_scope.

Definition tok (accept : token → bool) : Parser string := λ ts,
  match ts with
  | t :: ts' => if accept t then Some (tok_val t, ts') else None
  | [] => None
  end.

(** ['x'], [@Ident], [@String], [@(String | Ident | Int | Float)] and a choice of
    literals. *)
Definition is_lit (s : string) (t : token) : bool := bool_decide (tok_val t = s).
Definition of_kind (ks : list kind) (t : token) : bool := bool_decide (tok_kind t ∈ ks).
Definition lit (s : string) : Parser string := tok (is_lit s).
Definition ident : Parser string := tok (of_kind [KIdent]).
Definition str : Parser string := tok (of_kind [KString]).
Definition value : Parser string := tok (of_kind [KString; KIdent; KInt; KFloat]).
Definition one_of (ss : list string) : Parser string := tok (λ t, bool_decide (tok_val t ∈ ss)).

Definition next (p : token → bool) (ts : list token) : bool :=
  match ts with t :: _ => p t | [] => false end.

(** [( p )?]: entered when the next token can start it. *)
Definition opt {A} (starts : token → bool) (d : A) (p : Parser A) : Parser A := λ ts,
  if next starts ts then p ts else Some (d, ts).

(** [@@*]: at most [n] rounds, each of which consumes a token. *)
Fixpoint many {A} (n : nat) (starts : token → bool) (p : Parser A) : Parser (list A) := λ ts,
  if next starts ts then
    match n with
    | O => None
    | S n => pbind p (λ x, pbind (many n starts p) (λ xs, pret (x :: xs))) ts
    end
  else Some ([], ts).
Definition rep {A} (starts : token → bool) (p : Parser A) : Parser (list A) := λ ts,
  many (length ts) starts p ts.

Definition pMap : Parser Map_ :=
  let* _ := lit "map" in let* f := str in
  let* _ := lit "to" in let* t := str in
  pret {| MapFrom := f; MapTo := t |}.

Definition pProperty : Parser Property :=
  let* _ := lit "property" in let* n := ident in
  let* _ := lit "type" in let* ty := ident in
  let* fr := opt (is_lit "from") "" (let* _ := lit "from" in ident) in
  let* pr := opt (is_lit "predict") false (let* _ := lit "predict" in pret true) in
  let* ms := rep (is_lit "map") pMap in
  pret {| PropName := n; PropTyp := ty; PropFrom := fr; Predict := pr; Maps := ms |}.

Definition pFactor : Parser Factor :=
  let* _ := lit "factor" in let* n := ident in
  let* _ := lit "type" in let* ty := ident in
  let* _ := lit "from" in let* fr := ident in
  pret {| FactorName := n; FactorType := ty; FactorFrom := fr |}.

Definition filter_ops : list string := ["eq"; "neq"; "gt"; "gte"; "lt"; "lte"; "like"].
Definition pFilter : Parser FilterDefinition :=
  let* _ := lit "filter" in let* f := ident in
  let* op := one_of filter_ops in let* v := value in
  pret {| FilterField := f; FilterOp := op; FilterValue := v |}.

Definition agg_functions : list string := ["count"; "sum"; "avg"; "min"; "max"].
Definition pAggregate : Parser AggregateDefinition :=
  let* _ := lit "aggregate" in let* f := one_of agg_functions in
  let* _ := lit "(" in let* x := ident in let* _ := lit ")" in
  let* _ := lit "as" in let* a := ident in
  pret {| AggFunction := f; AggField := x; AggAlias := a |}.

Definition pObject : Parser ObjectDefinition :=
  let* _ := lit "object" in let* n := ident in
  let* _ := lit "from" in let* _ := lit "dataset" in let* src := ident in
  let* _ := lit "id" in let* i := ident in
  let* ps := rep (is_lit "property") pProperty in
  let* fs := rep (is_lit "factor") pFactor in
  let* fl := rep (is_lit "filter") pFilter in
  let* ag := rep (is_lit "aggregate") pAggregate in
  pret {| ObjName := n; FromSource := src; ObjID := i; Properties := ps; Factors := fs;
          Filters := fl; Aggregates := ag |}.

Definition pRelation : Parser RelationDefinition :=
  let* _ := lit "relation" in let* n := ident in
  let* _ := lit "from" in let* f := ident in
  let* _ := lit "to" in let* t := ident in
  let* _ := lit "on" in let* l := ident in
  let* _ := lit "equals" in let* r := ident in
  pret {| RelName := n; RelFrom := f; RelTo := t; LeftOn := l; RightOn := r |}.

(** [(@Int | 'auto')]: the literal is not captured. *)
Definition version : Parser string := λ ts,
  match ts with
  | t :: ts' =>
    if of_kind [KInt] t then Some (tok_val t, ts')
    else if is_lit "auto" t then Some ("", ts') else None
  | [] => None
  end.
Definition pDataset : Parser DatasetDefinition :=
  let* _ := lit "dataset" in let* n := ident in
  let* _ := lit "version" in let* v := version in
  let* _ := lit "from" in let* f := ident in
  pret {| DsName := n; DsVersion := v; DsFrom := f |}.

Definition pAction : Parser ActionDefinition :=
  let* _ := lit "action" in let* n := ident in
  let* _ := lit "on" in let* o := ident in
  let* ps := rep (is_lit "property") pProperty in
  pret {| ActionName := n; OnObject := o; ActionParameters := ps |}.

Definition pToolParam : Parser ToolParamDef :=
  let* n := ident in let* _ := lit "type" in let* ty := ident in
  let* r := opt (is_lit "required") false (let* _ := lit "required" in pret true) in
  let* d := str in
  pret {| TPName := n; TPType := ty; TPRequired := r; TPDescription := d |}.

Definition pHandler : Parser HandlerDef :=
  let* _ := lit "language" in let* l := ident in
  let* _ := lit "entry" in let* e := str in
  pret {| HdLanguage := l; HdEntryPoint := e |}.

(** The closing brace is not captured. *)
Definition pTool : Parser ParsedTool :=
  let* _ := lit "tool" in let* n := ident in
  let* _ := lit "{" in let* _ := lit "name" in let* d := str in
  let* _ := lit "inputs" in let* _ := lit "{" in
  let* ins := rep (of_kind [KIdent]) pToolParam in let* _ := lit "}" in
  let* _ := lit "outputs" in let* _ := lit "{" in
  let* outs := rep (of_kind [KIdent]) pToolParam in let* _ := lit "}" in
  let* _ := lit "handler" in let* _ := lit "{" in let* hd := pHandler in let* _ := lit "}" in
  let* _ := lit "}" in
  pret {| PTName := n; PTDescription := d; PTInputs := ins; PTOutputs := outs; PTHandler := hd; PTClose := "" |}.

Definition pStatement : Parser Statement := λ ts,
  if next (is_lit "object") ts then (let* o := pObject in pret (SObject o)) ts
  else if next (is_lit "relation") ts then (let* r := pRelation in pret (SRelation r)) ts
  else if next (is_lit "dataset") ts then (let* d := pDataset in pret (SDataset d)) ts
  else if next (is_lit "action") ts then (let* a := pAction in pret (SAction a)) ts
  else if next (is_lit "tool") ts then (let* t := pTool in pret (STool t)) ts
  else None.

Definition statement_heads : list string := ["object"; "relation"; "dataset"; "action"; "tool"].
Definition starts_statement (t : token) : bool := bool_decide (tok_val t ∈ statement_heads).

(** [Parse], from the tokens on. *)
Definition ParseTokens (ts : list token) : option Program :=
  match rep starts_statement pStatement ts with
  | Some (ss, []) => Some {| Statements := ss |}
  | _ => None
  end.

(** ** Printing *)

Definition kw (s : string) : token := {| tok_kind := KIdent; tok_val := s |}.
Definition sq (s : string) : token := {| tok_kind := KString; tok_val := s |}.
Definition num (s : string) : token := {| tok_kind := KInt; tok_val := s |}.
Definition sym (s : string) : token := {| tok_kind := KOther; tok_val := s |}.

Definition print_map (m : Map_) : list token := [kw "map"; sq (MapFrom m); kw "to"; sq (MapTo m)].
Definition print_property (p : Property) : list token :=
  [kw "property"; kw (PropName p); kw "type"; kw (PropTyp p)] ++
  (if bool_decide (PropFrom p = "") then [] else [kw "from"; kw (PropFrom p)]) ++
  (if Predict p then [kw "predict"] else []) ++
  mjoin (print_map <$> Maps p).
Definition print_factor (f : Factor) : list token :=
  [kw "factor"; kw (FactorName f); kw "type"; kw (FactorType f); kw "from"; kw (FactorFrom f)].
Definition print_filter (f : FilterDefinition) : list token :=
  [kw "filter"; kw (FilterField f); kw (FilterOp f); sq (FilterValue f)].
Definition print_aggregate (a : AggregateDefinition) : list token :=
  [kw "aggregate"; kw (AggFunction a); sym "("; kw (AggField a); sym ")"; kw "as"; kw (AggAlias a)].
Definition print_object (o : ObjectDefinition) : list token :=
  [kw "object"; kw (ObjName o); kw "from"; kw "dataset"; kw (FromSource o); kw "id"; kw (ObjID o)] ++
  mjoin (print_property <$> Properties o) ++ mjoin (print_factor <$> Factors o) ++
  mjoin (print_filter <$> Filters o) ++ mjoin (print_aggregate <$> Aggregates o).
Definition print_relation (r : RelationDefinition) : list token :=
  [kw "relation"; kw (RelName r); kw "from"; kw (RelFrom r); kw "to"; kw (RelTo r);
   kw "on"; kw (LeftOn r); kw "equals"; kw (RightOn r)].
Definition print_dataset (d : DatasetDefinition) : list token :=
  [kw "dataset"; kw (DsName d); kw "version";
   if bool_decide (DsVersion d = "") then kw "auto" else num (DsVersion d);
   kw "from"; kw (DsFrom d)].
Definition print_action (a : ActionDefinition) : list token :=
  [kw "action"; kw (ActionName a); kw "on"; kw (OnObject a)] ++ mjoin (print_property <$> ActionParameters a).
Definition print_param (p : ToolParamDef) : list token :=
  [kw (TPName p); kw "type"; kw (TPType p)] ++ (if TPRequired p then [kw "required"] else []) ++
  [sq (TPDescription p)].
Definition print_tool (t : ParsedTool) : list token :=
  [kw "tool"; kw (PTName t); sym "{"; kw "name"; sq (PTDescription t); kw "inputs"; sym "{"] ++
  mjoin (print_param <$> PTInputs t) ++ [sym "}"; kw "outputs"; sym "{"] ++
  mjoin (print_param <$> PTOutputs t) ++
  [sym "}"; kw "handler"; sym "{"; kw "language"; kw (HdLanguage (PTHandler t)); kw "entry";
   sq (HdEntryPoint (PTHandler t)); sym "}"; sym "}"].
Definition print_statement (s : Statement) : list token :=
  match s with
  | SObject o => print_object o | SRelation r => print_relation r | SDataset d => print_dataset d
  | SAction a => print_action a | STool t => print_tool t
  end.
Definition print (p : Program) : list token := mjoin (print_statement <$> Statements p).

(** What the grammar can express: the closed lists of operators and functions, no
    captured brace, and no optional parameter described as "required". *)
Definition param_ok (p : ToolParamDef) : Prop := TPRequired p = false → TPDescription p ≠ "required".
Definition statement_ok (s : Statement) : Prop :=
  match s with
  | SObject o => Forall (λ f, FilterOp f ∈ filter_ops) (Filters o) ∧
                 Forall (λ a, AggFunction a ∈ agg_functions) (Aggregates o)
  | STool t => Forall param_ok (PTInputs t) ∧ Forall param_ok (PTOutputs t) ∧ PTClose t = ""
  | _ => True
  end.

(** ** Lemmas *)

(** None of the literals can start what follows. *)
Definition stops (ls : list string) (ts : list token) : Prop :=
  ∀ t ts', ts = t :: ts' → tok_val t ∉ ls.

Lemma stops_not ls s ts : stops ls ts → s ∈ ls → next (is_lit s) ts = false.
Proof.
  intros Hs Hin. destruct ts as [|t ts]; [done|]. cbn. apply bool_decide_eq_false_2. intros <-.
  by eapply Hs.
Qed.

Lemma stops_sub ls ks ts : stops ls ts → ks ⊆ ls → stops ks ts.
Proof. intros Hs Hk t ts' E Hin. eapply Hs; [done|]. by apply Hk. Qed.

(** Printed in sequence, parsed in sequence. *)
Lemma many_prints {A} (starts : token → bool) (p : Parser A) (pr : A → list token) (ok : A → Prop)
    (follow : list token → Prop) n xs rest :
  (∀ x ts, ok x → follow ts → p (pr x ++ ts) = Some (x, ts)) →
  (∀ x ts, next starts (pr x ++ ts) = true ∧ follow (pr x ++ ts)) →
  Forall ok xs → follow rest → next starts rest = false → (length xs ≤ n)%nat →
  many n starts p (mjoin (pr <$> xs) ++ rest) = Some (xs, rest).
Proof.
  intros Hp Hs Hok Hf Hr. revert n. induction Hok as [|x xs Hx Hok IH]; intros n Hn.
  - destruct n; cbn; by rewrite Hr.
  - destruct n as [|n]; [cbn in Hn; lia|]. cbn [fmap list_fmap mjoin list_join]. rewrite <- app_assoc.
    cbn [many]. rewrite (proj1 (Hs x _)). unfold pbind at 1. rewrite Hp; [|done|].
    + unfold pbind. rewrite IH by (cbn in Hn; lia). done.
    + destruct xs as [|y ys]; [done|]. cbn [fmap list_fmap mjoin list_join]. rewrite <- app_assoc. apply Hs.
Qed.

Lemma mjoin_length {A B} (pr : A → list B) xs rest :
  (∀ x, pr x ≠ []) → (length xs ≤ length (mjoin (pr <$> xs) ++ rest))%nat.
Proof.
  intros Hp. induction xs as [|x xs IH]; [cbn; lia|]. cbn [fmap list_fmap mjoin list_join].
  rewrite <- app_assoc, (length_app (pr x)). cbn [length].
  specialize (Hp x). destruct (pr x); [done|]. cbn [length].
  apply le_n_S. etransitivity; [exact IH|apply Nat.le_add_l].
Qed.

Lemma rep_prints {A} (starts : token → bool) (p : Parser A) (pr : A → list token) (ok : A → Prop)
    (follow : list token → Prop) xs rest :
  (∀ x ts, ok x → follow ts → p (pr x ++ ts) = Some (x, ts)) →
  (∀ x ts, next starts (pr x ++ ts) = true ∧ follow (pr x ++ ts)) →
  Forall ok xs → follow rest → next starts rest = false →
  rep starts p (mjoin (pr <$> xs) ++ rest) = Some (xs, rest).
Proof.
  intros Hp Hs Hok Hf Hr. unfold rep. eapply many_prints; try done.
  apply mjoin_length. intros x Hx. destruct (Hs x []) as [Hn _]. by rewrite Hx in Hn.
Qed.

(** The steps of a parser on printed tokens. *)
Lemma bind_lit {B} s (k : string → Parser B) t ts :
  tok_val t = s → pbind (lit s) k (t :: ts) = k s ts.
Proof. intros <-. unfold pbind, lit, tok, is_lit. by rewrite bool_decide_eq_true_2. Qed.
Lemma bind_ident {B} s (k : string → Parser B) ts : pbind ident k (kw s :: ts) = k s ts.
Proof. done. Qed.
Lemma bind_str {B} s (k : string → Parser B) ts : pbind str k (sq s :: ts) = k s ts.
Proof. done. Qed.
Lemma bind_value {B} s (k : string → Parser B) ts : pbind value k (sq s :: ts) = k s ts.
Proof. done. Qed.
Lemma bind_one_of {B} ss s (k : string → Parser B) ts :
  s ∈ ss → pbind (one_of ss) k (kw s :: ts) = k s ts.
Proof. intros Hs. unfold pbind, one_of, tok. cbn [kw tok_val]. by rewrite bool_decide_eq_true_2. Qed.
Lemma bind_pret {A B} (a : A) (k : A → Parser B) ts : pbind (pret a) k ts = k a ts.
Proof. done. Qed.
Lemma bind_assoc {A B C} (p : Parser A) (f : A → Parser B) (g : B → Parser C) ts :
  pbind (pbind p f) g ts = pbind p (λ a, pbind (f a) g) ts.
Proof. unfold pbind. by destruct (p ts) as [[]|]. Qed.
Lemma bind_opt_skip {A B} starts (d : A) p (k : A → Parser B) ts :
  next starts ts = false → pbind (opt starts d p) k ts = k d ts.
Proof. intros Hn. unfold pbind, opt. by rewrite Hn. Qed.
Lemma bind_opt_take {A B} starts (d : A) p (k : A → Parser B) ts :
  next starts ts = true → pbind (opt starts d p) k ts = pbind p k ts.
Proof. intros Hn. unfold pbind at 1, opt. by rewrite Hn. Qed.
Lemma bind_some {A B} (p : Parser A) (k : A → Parser B) ts a ts' :
  p ts = Some (a, ts') → pbind p k ts = k a ts'.
Proof. intros Hp. unfold pbind. by rewrite Hp. Qed.

Ltac steps :=
  repeat first [ rewrite bind_lit by reflexivity | rewrite bind_ident | rewrite bind_str
               | rewrite bind_value | rewrite bind_one_of by done | rewrite bind_pret | rewrite bind_assoc ].

Lemma parse_map m ts : pMap (print_map m ++ ts) = Some (m, ts).
Proof. unfold pMap, print_map. cbn [app]. steps. by destruct m. Qed.

Definition after_property : list string := ["from"; "predict"; "map"].

Lemma parse_maps ms ts :
  next (is_lit "map") ts = false → rep (is_lit "map") pMap (mjoin (print_map <$> ms) ++ ts) = Some (ms, ts).
Proof.
  intros Hn. apply (rep_prints _ _ _ (λ _, True) (λ _, True)); try done.
  - intros m t _ _. apply parse_map.
  - by apply Forall_true.
Qed.

Lemma maps_head s ms ts :
  s ≠ "map" → next (is_lit s) ts = false → next (is_lit s) (mjoin (print_map <$> ms) ++ ts) = false.
Proof.
  intros Hs Hn. destruct ms; [done|]. cbn. by apply bool_decide_eq_false_2.
Qed.

Lemma parse_property p ts : stops after_property ts → pProperty (print_property p ++ ts) = Some (p, ts).
Proof.
  intros Hst. destruct p as [n ty fr pr ms]. unfold pProperty, print_property.
  cbn [PropName PropTyp PropFrom Predict Maps]. rewrite <- !app_assoc. cbn [app]. steps.
  assert (next (is_lit "map") ts = false) as Hm by (apply (stops_not after_property); [done|set_solver]).
  assert (next (is_lit "predict") ts = false) as Hp by (apply (stops_not after_property); [done|set_solver]).
  assert (next (is_lit "from") ts = false) as Hf by (apply (stops_not after_property); [done|set_solver]).
  assert (next (is_lit "from") ((if pr then [kw "predict"] else []) ++ mjoin (print_map <$> ms) ++ ts) = false) as Hf'
    by (destruct pr; [done|by apply maps_head]).
  case_bool_decide as E; cbn [app].
  - rewrite bind_opt_skip by done. subst fr. destruct pr; cbn [app].
    + rewrite bind_opt_take by done. steps. erewrite (bind_some _ _ _ _ _ (parse_maps ms ts Hm)). done.
    + rewrite bind_opt_skip by by apply maps_head. erewrite (bind_some _ _ _ _ _ (parse_maps ms ts Hm)). done.
  - rewrite bind_opt_take by done. steps. destruct pr; cbn [app].
    + rewrite bind_opt_take by done. steps. erewrite (bind_some _ _ _ _ _ (parse_maps ms ts Hm)). done.
    + rewrite bind_opt_skip by by apply maps_head. erewrite (bind_some _ _ _ _ _ (parse_maps ms ts Hm)). done.
Qed.

(** A list of printed items starts with their keyword or with what follows. *)
Lemma stops_list {A} (pr : A → list token) h ls xs ts :
  (∀ x, ∃ r, pr x = kw h :: r) → h ∉ ls → stops ls ts → stops ls (mjoin (pr <$> xs) ++ ts).
Proof.
  intros Hp Hh Hs. destruct xs as [|x xs]; [done|]. cbn [fmap list_fmap mjoin list_join].
  destruct (Hp x) as [r ->]. intros t ts' [= <- _]. done.
Qed.

(** Items of one keyword, none of whose parsers looks past its end. *)
Lemma rep_keyword {A} h (p : Parser A) (pr : A → list token) (ok : A → Prop) (ls : list string) xs ts :
  (∀ x ts, ok x → stops ls ts → p (pr x ++ ts) = Some (x, ts)) →
  (∀ x, ∃ r, pr x = kw h :: r) → h ∉ ls → Forall ok xs → stops ls ts → stops [h] ts →
  rep (is_lit h) p (mjoin (pr <$> xs) ++ ts) = Some (xs, ts).
Proof.
  intros Hp Hr Hh Hok Hs Hn. apply (rep_prints _ _ _ ok (stops ls)); try done.
  - intros x t. destruct (Hr x) as [r ->]. split; [by apply bool_decide_eq_true_2|].
    intros t' ts' [= <- _]. done.
  - apply (stops_not [h]); [done|set_solver].
Qed.

Definition after_object : list string :=
  ["from"; "predict"; "map"; "property"; "factor"; "filter"; "aggregate"].

Ltac no_keyword := eapply stops_sub; [eassumption|unfold after_object; set_solver].

Lemma parse_properties ps ts : stops (after_property ++ ["property"]) ts →
  rep (is_lit "property") pProperty (mjoin (print_property <$> ps) ++ ts) = Some (ps, ts).
Proof.
  intros Hs. apply (rep_keyword _ _ _ (λ _, True) after_property).
  - intros p t _. apply parse_property.
  - intros p. by eexists.
  - unfold after_property. set_solver.
  - by apply Forall_true.
  - no_keyword.
  - no_keyword.
Qed.

Lemma parse_object o ts :
  statement_ok (SObject o) → stops after_object ts → pObject (print_object o ++ ts) = Some (o, ts).
Proof.
  intros [Hf Ha] Hs. destruct o as [n src i ps fs fl ag]. unfold pObject, print_object.
  cbn [ObjName FromSource ObjID Properties Factors Filters Aggregates] in *.
  rewrite <- !app_assoc. cbn [app]. steps.
  assert (∀ ls, ls ⊆ after_object → "aggregate" ∉ ls → stops ls (mjoin (print_aggregate <$> ag) ++ ts)) as H1.
  { intros ls Hl Hn. apply (stops_list _ "aggregate"); [by eexists|done|by eapply stops_sub]. }
  assert (∀ ls, ls ⊆ after_object → "aggregate" ∉ ls → "filter" ∉ ls →
    stops ls (mjoin (print_filter <$> fl) ++ mjoin (print_aggregate <$> ag) ++ ts)) as H2.
  { intros ls Hl Hn Hn2. apply (stops_list _ "filter"); [by eexists|done|auto]. }
  assert (∀ ls, ls ⊆ after_object → "aggregate" ∉ ls → "filter" ∉ ls → "factor" ∉ ls →
    stops ls (mjoin (print_factor <$> fs) ++ mjoin (print_filter <$> fl) ++
              mjoin (print_aggregate <$> ag) ++ ts)) as H3.
  { intros ls Hl Hn Hn2 Hn3. apply (stops_list _ "factor"); [by eexists|done|auto]. }
  erewrite bind_some by (apply parse_properties, H3; unfold after_property, after_object; set_solver).
  erewrite bind_some by (apply (rep_keyword _ _ _ (λ _, True) []);
    [intros f t _ _; unfold pFactor, print_factor; cbn [app]; steps; by destruct f
    |by eexists|set_solver|by apply Forall_true|apply H2; set_solver|apply H2; unfold after_object; set_solver]).
  erewrite bind_some by (apply (rep_keyword _ _ _ (λ f, FilterOp f ∈ filter_ops) []);
    [intros f t Hop _; unfold pFilter, print_filter; cbn [app]; steps; by destruct f
    |by eexists|set_solver|done|apply H1; set_solver|apply H1; unfold after_object; set_solver]).
  erewrite bind_some by (apply (rep_keyword _ _ _ (λ a, AggFunction a ∈ agg_functions) []);
    [intros a t Hop _; unfold pAggregate, print_aggregate; cbn [app]; steps; by destruct a
    |by eexists|set_solver|done|no_keyword|no_keyword]).
  done.
Qed.

Lemma parse_action a ts :
  stops after_object ts → pAction (print_action a ++ ts) = Some (a, ts).
Proof.
  intros Hs. destruct a as [n o ps]. unfold pAction, print_action.
  cbn [ActionName OnObject ActionParameters]. rewrite <- app_assoc. cbn [app]. steps.
  erewrite bind_some by (apply parse_properties; unfold after_property; no_keyword). done.
Qed.

Lemma parse_param p ts : param_ok p → pToolParam (print_param p ++ ts) = Some (p, ts).
Proof.
  intros Hp. destruct p as [n ty r d]. unfold pToolParam, print_param, param_ok in *.
  cbn [TPName TPType TPRequired TPDescription] in *. rewrite <- !app_assoc. cbn [app]. steps.
  destruct r; cbn [app].
  - rewrite bind_opt_take by done. by steps.
  - rewrite bind_opt_skip; [by steps|]. apply bool_decide_eq_false_2. by apply Hp.
Qed.

Lemma parse_params ps t ts : Forall param_ok ps → tok_kind t = KOther →
  rep (of_kind [KIdent]) pToolParam (mjoin (print_param <$> ps) ++ t :: ts) = Some (ps, t :: ts).
Proof.
  intros Hok Ht. apply (rep_prints _ _ _ param_ok (λ _, True)); try done.
  - intros p r Hp _. by apply parse_param.
  - cbn. unfold of_kind. by rewrite Ht.
Qed.

Lemma parse_tool t ts : statement_ok (STool t) → pTool (print_tool t ++ ts) = Some (t, ts).
Proof.
  intros (Hi & Ho & Hc). destruct t as [n d ins outs [l e] c]. unfold pTool, print_tool.
  cbn [PTName PTDescription PTInputs PTOutputs PTHandler PTClose HdLanguage HdEntryPoint] in *. subst c.
  rewrite <- !app_assoc. cbn [app]. steps.
  erewrite bind_some by (by apply parse_params). steps.
  erewrite bind_some by (by apply parse_params). steps.
  unfold pHandler. by steps.
Qed.

(** What follows a statement is the next one or the end. *)
Lemma statement_stops s ts : stops after_object (print_statement s ++ ts).
Proof.
  assert (∃ h r, print_statement s = kw h :: r ∧ h ∈ statement_heads) as (h & r & -> & Hh).
  { destruct s; do 2 eexists; (split; [reflexivity|unfold statement_heads; set_solver]). }
  intros t ts' [= <- _]. cbn [kw tok_val]. revert h Hh. apply Forall_forall.
  apply (bool_decide_unpack _). vm_compute. done.
Qed.

Lemma parse_statement s ts :
  statement_ok s → stops after_object ts → pStatement (print_statement s ++ ts) = Some (s, ts).
Proof.
  intros Hok Hs. unfold pStatement. destruct s as [o|r|d|a|t]; cbn [print_statement] in *.
  - replace (next (is_lit "object") (print_object o ++ ts)) with true by done.
    erewrite bind_some by (by apply parse_object). done.
  - replace (next (is_lit "object") (print_relation r ++ ts)) with false by done.
    replace (next (is_lit "relation") (print_relation r ++ ts)) with true by done.
    unfold pRelation, print_relation. cbn [app]. steps. by destruct r.
  - replace (next (is_lit "object") (print_dataset d ++ ts)) with false by done.
    replace (next (is_lit "relation") (print_dataset d ++ ts)) with false by done.
    replace (next (is_lit "dataset") (print_dataset d ++ ts)) with true by done.
    unfold pDataset, print_dataset. cbn [app]. steps. destruct d as [n v f]. cbn [DsName DsVersion DsFrom].
    case_bool_decide as E.
    + subst v. erewrite bind_some by reflexivity. by steps.
    + erewrite bind_some by reflexivity. by steps.
  - replace (next (is_lit "object") (print_action a ++ ts)) with false by done.
    replace (next (is_lit "relation") (print_action a ++ ts)) with false by done.
    replace (next (is_lit "dataset") (print_action a ++ ts)) with false by done.
    replace (next (is_lit "action") (print_action a ++ ts)) with true by done.
    erewrite bind_some by (by apply parse_action). done.
  - replace (next (is_lit "object") (print_tool t ++ ts)) with false by done.
    replace (next (is_lit "relation") (print_tool t ++ ts)) with false by done.
    replace (next (is_lit "dataset") (print_tool t ++ ts)) with false by done.
    replace (next (is_lit "action") (print_tool t ++ ts)) with false by done.
    replace (next (is_lit "tool") (print_tool t ++ ts)) with true by done.
    erewrite bind_some by (by apply parse_tool). done.
Qed.

(** C16: the grammar is unambiguous on what it can express: the tokens of every
    program whose operators, functions and parameters it can express parse to
    that program, and nothing is left over. *)
Theorem ParseTokens_print (p : Program) :
  Forall statement_ok (Statements p) → ParseTokens (print p) = Some p.
Proof.
  intros Hok. unfold ParseTokens, print. rewrite <- (app_nil_r (mjoin _)).
  rewrite (rep_prints _ _ _ statement_ok (stops after_object)); [by destruct p| | |done|by intros ? ?|done].
  - intros s ts. apply parse_statement.
  - intros s ts. split; [|apply statement_stops]. by destruct s.
Qed.

(** A tool parameter that is optional and described as "required" is not
    parsed: the description is taken for the keyword. *)
Theorem required_description_lost (n ty : string) (t : token) (ts : list token) :
  tok_kind t ≠ KString →
  pToolParam (print_param {| TPName := n; TPType := ty; TPRequired := false; TPDescription := "required" |} ++ t :: ts)
  = None.
Proof.
  intros Ht. unfold pToolParam, print_param. cbn [app TPName TPType TPRequired TPDescription]. steps.
  rewrite bind_opt_take by done. steps. unfold pbind, str, tok, of_kind.
  rewrite bool_decide_eq_false_2; [done|]. set_solver.
Qed.

(** *** What a parser can answer *)
Definition yields {A} (p : Parser A) (P : A → Prop) : Prop := ∀ ts a ts', p ts = Some (a, ts') → P a.

Lemma yields_pret {A} (a : A) (P : A → Prop) : P a → yields (pret a) P.
Proof. by intros Ha ts b ts' [= <- <-]. Qed.
Lemma yields_bind {A B} (p : Parser A) (f : A → Parser B) (P : A → Prop) (Q : B → Prop) :
  yields p P → (∀ a, P a → yields (f a) Q) → yields (pbind p f) Q.
Proof.
  intros Hp Hf ts b ts'. unfold pbind. destruct (p ts) as [[a ts1]|] eqn:E; [|done].
  apply (Hf a). by eapply Hp.
Qed.
Lemma yields_any {A} (p : Parser A) : yields p (λ _, True).
Proof. by intros ts a ts'. Qed.
Lemma yields_rep {A} starts (p : Parser A) (P : A → Prop) : yields p P → yields (rep starts p) (Forall P).
Proof.
  intros Hp ts l ts'. unfold rep. generalize (length ts) as n. intros n. revert ts l ts'.
  induction n as [|n IH]; intros ts l ts'; cbn [many]; destruct (next starts ts); try done; try (intros [= <- <-]; constructor).
  intros Hb. eapply (yields_bind p _ P (Forall P)) in Hb; [done|done|]. intros a Ha.
  eapply (yields_bind _ _ (Forall P)); [exact IH|]. intros l' Hl. by apply yields_pret, Forall_cons.
Qed.
Lemma yields_one_of ss : yields (one_of ss) (λ s, s ∈ ss).
Proof.
  intros [|t ts] a ts'; unfold one_of, tok; [done|]. destruct (bool_decide (tok_val t ∈ ss)) eqn:E; [|done].
  intros [= <- <-]. by apply bool_decide_eq_true_1 in E.
Qed.

Definition known_aggregates (s : Statement) : Prop :=
  match s with SObject o => Forall (λ a, AggFunction a ∈ agg_functions) (Aggregates o) | _ => True end.
Ltac yields_skip := eapply yields_bind; [apply yields_any|intros ? _].

Lemma pAggregate_yields : yields pAggregate (λ a, AggFunction a ∈ agg_functions).
Proof.
  unfold pAggregate. yields_skip. eapply yields_bind; [apply yields_one_of|]. intros f Hf.
  do 5 yields_skip. by apply yields_pret.
Qed.
Lemma pObject_yields : yields pObject (λ o, known_aggregates (SObject o)).
Proof.
  unfold pObject. do 10 yields_skip.
  eapply yields_bind; [apply yields_rep, pAggregate_yields|]. intros ags Hags. by apply yields_pret.
Qed.

(** A program that was parsed aggregates with the functions of the grammar only. *)
Lemma ParseTokens_aggregates ts p : ParseTokens ts = Some p → Forall known_aggregates (Statements p).
Proof.
  unfold ParseTokens. destruct (rep _ _ _) as [[ss [|]]|] eqn:E; [|done|done]. intros [= <-].
  eapply yields_rep in E; [exact E|]. clear. intros ts s ts'. unfold pStatement.
  repeat case_match; intros Hb;
    first [by eapply (yields_bind pObject _ _ known_aggregates pObject_yields) in Hb;
             [exact Hb|intros o Ho; by apply yields_pret]
          |done
          |by eapply yields_bind in Hb; [exact Hb|apply yields_any|intros ? _; by apply yields_pret]].
Qed.

Definition sample_program : Program := {| Statements :=
  [ SObject {| ObjName := "Person"; FromSource := "people"; ObjID := "id";
      Properties := [{| PropName := "age"; PropTyp := "number"; PropFrom := ""; Predict := true;
                        Maps := [{| MapFrom := "a"; MapTo := "b" |}] |}];
      Factors := []; Filters := [{| FilterField := "age"; FilterOp := "gt"; FilterValue := "3" |}];
      Aggregates := [] |};
    SDataset {| DsName := "people"; DsVersion := ""; DsFrom := "src" |};
    STool {| PTName := "t"; PTDescription := "d";
      PTInputs := [{| TPName := "x"; TPType := "int"; TPRequired := true; TPDescription := "required" |}];
      PTOutputs := []; PTHandler := {| HdLanguage := "go"; HdEntryPoint := "main" |}; PTClose := "" |} ] |}.

Lemma ParseTokens_print_witness : ParseTokens (print sample_program) = Some sample_program.
Proof.
  apply (ParseTokens_print sample_program).
  repeat constructor; cbn; done.
Defined.

Lemma required_description_lost_witness :
  pToolParam ([kw "x"; kw "type"; kw "int"; sq "required"; sym "}"]) = None.
Proof. apply (required_description_lost "x" "int" (sym "}") []). done. Defined.
End DslParser.
