(* ===== verification/Emerge.v ===== *)
(** * Emergent ontologies (api/handler/project.go)

    The relations that the project handler infers from the tables' schemas and
    the ontology text it writes for them, with the part of Go's text/scanner that
    reads such text: identifiers, punctuation and line comments. *)

From S2P Require Import Prelude GoStrings DslAst DslParser.

Module Emerge.

Record columnInfo := { ColName : string; ColType : string }.
Record tableSchema := { TableName : string; Columns : list columnInfo }.
Record detectedRelationship := {
  RName : string; FromObject : string; FromColumn : string; ToObject : string; ToColumn : string;
  RType : string; Confidence : string;
}.
#[global] Instance detectedRelationship_eq_dec : EqDecision detectedRelationship.
Proof. solve_decision. Defined.

Definition TrimSuffix (s suf : string) : string :=
  if has_suffix s suf then str_take (String.length s - String.length suf) s else s.

Section Unicode.
Context `{Unicode}.

Definition mapDuckDBType (rawType : string) : string :=
  let upper := ToUpper rawType in
  if str_contains upper "INT" || str_contains upper "DOUBLE" || str_contains upper "FLOAT" ||
     str_contains upper "DECIMAL" then "number"
  else if str_contains upper "TIMESTAMP" || str_contains upper "DATE" || str_contains upper "TIME"
  then "datetime"
  else if str_contains upper "BOOLEAN" || str_contains upper "BOOL" then "boolean"
  else "text".

(** Lower-case name to canonical name; of two tables that differ in case only the
    later one stays. *)
Definition objLower (schemas : list tableSchema) : gmap string string :=
  foldl (λ m s, <[ToLower (TableName s) := TableName s]> m) ∅ schemas.

Definition relationship (infix kind confidence : string) (s : tableSchema) (c : columnInfo) (target : string) :
    detectedRelationship :=
  {| RName := TableName s +:+ infix +:+ target; FromObject := TableName s; FromColumn := ColName c;
     ToObject := target; ToColumn := "id"; RType := kind; Confidence := confidence |}.

(** The first candidate that is a table whose name is not the lower-case name of
    this one. *)
Fixpoint first_candidate (objs : gmap string string) (self : string) (cands : list string) : option string :=
  match cands with
  | [] => None
  | cand :: rest =>
    match objs !! cand with
    | Some target => if bool_decide (target ≠ self) then Some target else first_candidate objs self rest
    | None => first_candidate objs self rest
    end
  end.

Definition candidates (lowCol : string) : list string :=
  let refBase := TrimSuffix lowCol "_id" in
  [refBase; refBase +:+ "s"; TrimSuffix refBase "s"].

Definition fk_relations (objs : gmap string string) (s : tableSchema) (c : columnInfo) : list detectedRelationship :=
  let lowCol := ToLower (ColName c) in
  if has_suffix lowCol "_id" && bool_decide (str_len lowCol > 3) then
    match first_candidate objs (ToLower (TableName s)) (candidates lowCol) with
    | Some target => [relationship "_has_" "fk" "high" s c target]
    | None => []
    end
  else [].

(** The loop over all tables, in the order of the map. *)
Definition name_relations (objs : gmap string string) (s : tableSchema) (c : columnInfo) : list detectedRelationship :=
  let lowCol := ToLower (ColName c) in
  if negb (has_suffix lowCol "_id") then
    omap (λ kv, if bool_decide (kv.1 ≠ ToLower (TableName s)) && bool_decide (lowCol = kv.1)
                then Some (relationship "_references_" "name_match" "medium" s c kv.2) else None)
         (map_to_list objs)
  else [].

Definition detectFKRelationships (schemas : list tableSchema) : list detectedRelationship :=
  let objs := objLower schemas in
  s ← schemas; c ← Columns s; fk_relations objs s c ++ name_relations objs s c.

Definition property_line (c : columnInfo) : string :=
  "  property " +:+ ColName c +:+ " type " +:+ mapDuckDBType (ColType c) +:+ " from " +:+ ColName c.
Definition id_line : string := "  id id".

(** The lines of a table's columns; [hasID] once the id line was written.
    [equal_id]: [strings.EqualFold(name, "id")], true of the four ASCII spellings
    only. *)
Definition equal_id (name : string) : bool := bool_decide (name ∈ ["id"; "iD"; "Id"; "ID"]).
Fixpoint column_lines (hasID : bool) (cs : list columnInfo) : list string :=
  match cs with
  | [] => if hasID then [] else [id_line]
  | c :: rest =>
    if negb hasID && equal_id (ColName c) then id_line :: column_lines true rest
    else property_line c :: column_lines hasID rest
  end.
Definition object_lines (s : tableSchema) : list string :=
  ["object " +:+ TableName s; "  from dataset " +:+ TableName s] ++ column_lines false (Columns s) ++ [""].
Definition relation_lines (r : detectedRelationship) : list string :=
  ["relation " +:+ RName r +:+ " from " +:+ FromObject r +:+ "." +:+ FromColumn r +:+ " to " +:+
     ToObject r +:+ "." +:+ ToColumn r +:+ " equals " +:+ FromObject r +:+ "." +:+ FromColumn r;
   "  type " +:+ RType r;
   "  // confidence: " +:+ Confidence r].

Definition buildAlephDefinition (schemas : list tableSchema) (rels : list detectedRelationship) : string :=
  foldr (λ l acc, l +:+ String newline "" +:+ acc) ""
    (mjoin (object_lines <$> schemas) ++ mjoin (relation_lines <$> rels)).

(** The text of the deterministic part of EmergeOntology. *)
Definition emergent (schemas : list tableSchema) : string :=
  buildAlephDefinition schemas (detectFKRelationships schemas).

(** ** Lemmas *)

Lemma objLower_lookup schemas k v :
  objLower schemas !! k = Some v → ∃ s, s ∈ schemas ∧ ToLower (TableName s) = k ∧ TableName s = v.
Proof.
  unfold objLower. induction schemas as [|s l IH] using rev_ind; [done|].
  rewrite foldl_app. cbn [foldl]. rewrite lookup_insert_Some. intros [[<- <-]|[_ Hl]].
  - exists s. set_solver.
  - destruct (IH Hl) as (t & Ht & ? & ?). exists t. set_solver.
Qed.

Lemma first_candidate_spec objs self cands t :
  first_candidate objs self cands = Some t → ∃ cand, cand ∈ cands ∧ objs !! cand = Some t ∧ t ≠ self.
Proof.
  induction cands as [|c cs IH]; [done|]. cbn [first_candidate].
  destruct (objs !! c) as [v|] eqn:E.
  - case_bool_decide as Hv; [intros [= <-]; exists c; set_solver|].
    intros (d & ? & ?)%IH. exists d. set_solver.
  - intros (d & ? & ?)%IH. exists d. set_solver.
Qed.

Lemma detect_cases schemas r :
  r ∈ detectFKRelationships schemas →
  ∃ s c t, s ∈ schemas ∧ c ∈ Columns s ∧ t ∈ schemas ∧
    ((r = relationship "_has_" "fk" "high" s c (TableName t) ∧
      ToLower (TableName t) ∈ candidates (ToLower (ColName c)) ∧ TableName t ≠ ToLower (TableName s)) ∨
     (r = relationship "_references_" "name_match" "medium" s c (TableName t) ∧
      ToLower (TableName t) = ToLower (ColName c) ∧ ToLower (TableName t) ≠ ToLower (TableName s))).
Proof.
  intros (s & (c & Hin & Hc)%list_elem_of_bind & Hs)%list_elem_of_bind. exists s, c.
  apply elem_of_app in Hin as [Hin|Hin].
  - unfold fk_relations in Hin. destruct (_ && _); [|by apply not_elem_of_nil in Hin].
    destruct (first_candidate _ _ _) as [v|] eqn:E; [|by apply not_elem_of_nil in Hin].
    apply list_elem_of_singleton in Hin as ->.
    apply first_candidate_spec in E as (cand & Hcand & (t & Ht & Hl & <-)%objLower_lookup & Hne).
    exists t. split_and!; try done. left. by subst cand.
  - unfold name_relations in Hin. destruct (negb _); [|by apply not_elem_of_nil in Hin].
    apply list_elem_of_omap in Hin as ([k v] & Hkv & Hr). cbn in Hr.
    apply elem_of_map_to_list, objLower_lookup in Hkv as (t & Ht & Hl & <-).
    destruct (bool_decide (k ≠ _)) eqn:E1; [|done]. destruct (bool_decide (_ = k)) eqn:E2; [|done].
    decide_bools. cbn in Hr. injection Hr as <-. exists t. split_and!; try done. right.
    subst k. split_and!; congruence.
Qed.

(** Every detected relation connects things that exist: it starts at a column
    of one of the tables and leads to one of the tables, whose name matches the
    column; and if the tables have lower-case names, never to its own table. *)
Theorem detectFKRelationships_sound (schemas : list tableSchema) (r : detectedRelationship) :
  r ∈ detectFKRelationships schemas →
  (∃ s c t, s ∈ schemas ∧ c ∈ Columns s ∧ t ∈ schemas ∧
     FromObject r = TableName s ∧ FromColumn r = ColName c ∧ ToObject r = TableName t ∧
     ToLower (TableName t) ∈ ToLower (ColName c) :: candidates (ToLower (ColName c))) ∧
  (Forall (λ s, ToLower (TableName s) = TableName s) schemas → FromObject r ≠ ToObject r).
Proof.
  intros (s & c & t & Hs & Hc & Ht & Hr)%detect_cases. split.
  - exists s, c, t. destruct Hr as [(-> & Hcand & _)|(-> & Hl & _)]; split_and!; try done; set_solver.
  - rewrite Forall_forall. intros Hlow. pose proof (Hlow s Hs) as Es. pose proof (Hlow t Ht) as Et.
    cbn beta in Es, Et. destruct Hr as [(-> & _ & Hne)|(-> & _ & Hne)]; cbn; congruence.
Qed.
End Unicode.

(** ** The scanner

    White space and line comments are skipped; an identifier is a letter or an
    underscore and letters, digits and underscores; any other character is a
    token of its own.  Text with quotes, digits outside identifiers or bytes
    beyond ASCII is not read. *)
Definition is_letter (c : ascii) : bool := is_upper c || is_lower c || bool_decide (c = "_"%char).
Definition is_word (c : ascii) : bool := is_letter c || is_digit c.

Fixpoint take_word (s : string) : string * string :=
  match s with
  | String c r => if is_word c then let '(w, t) := take_word r in (String c w, t) else ("", s)
  | EmptyString => ("", "")
  end.
Fixpoint skip_line (s : string) : string :=
  match s with
  | String c r => if bool_decide (c = newline) then r else skip_line r
  | EmptyString => ""
  end.

(** One token per round; the text's length is enough rounds. *)
Fixpoint scan_from (n : nat) (s : string) : option (list DslParser.token) :=
  match n, s with
  | _, EmptyString => Some []
  | O, _ => None
  | S n, String c r =>
    if is_space_char c then scan_from n r
    else if is_letter c then
      let '(w, t) := take_word r in (λ ts, DslParser.kw (String c w) :: ts) <$> scan_from n t
    else if is_digit c || bool_decide (c = dquote) || bool_decide (c = squote) || bool_decide (c = "`"%char) ||
            negb (is_ascii_char c) then None
    else if bool_decide (c = "/"%char) && String.prefix "/" r then scan_from n (skip_line r)
    else (λ ts, DslParser.sym (String c "") :: ts) <$> scan_from n r
  end.
Definition scan (s : string) : option (list DslParser.token) := scan_from (S (String.length s)) s.

Definition parse_text (s : string) : option Program :=
  match scan s with Some ts => DslParser.ParseTokens ts | None => None end.

(** ** What the emergent text is worth to the parser *)

#[local] Existing Instance ascii_tables.

Definition col (n ty : string) : columnInfo := {| ColName := n; ColType := ty |}.
Definition customers : tableSchema :=
  {| TableName := "customers"; Columns := [col "id" "BIGINT"; col "name" "VARCHAR"] |}.
Definition orders : tableSchema :=
  {| TableName := "orders"; Columns := [col "id" "BIGINT"; col "customer_id" "BIGINT"] |}.
Definition late : tableSchema :=
  {| TableName := "late"; Columns := [col "name" "VARCHAR"; col "id" "BIGINT"] |}.
Definition Nodes : tableSchema :=
  {| TableName := "Nodes"; Columns := [col "id" "BIGINT"; col "node_id" "BIGINT"] |}.

Definition customers_object : ObjectDefinition :=
  {| ObjName := "customers"; FromSource := "customers"; ObjID := "id";
     Properties := [{| PropName := "name"; PropTyp := "text"; PropFrom := "name"; Predict := false; Maps := [] |}];
     Factors := []; Filters := []; Aggregates := [] |}.

(** The ontology that the handler writes for two related tables is text the
    scanner reads and the language's grammar rejects: a relation is written with
    dotted names and without [on].  A table alone is accepted when its first
    column is the id, and rejected when the id comes later. *)
Theorem emergent_rejected :
  is_Some (scan (emergent [customers; orders])) ∧
  parse_text (emergent [customers; orders]) = None ∧
  parse_text (emergent [customers]) = Some {| Statements := [SObject customers_object] |} ∧
  is_Some (scan (emergent [late])) ∧ parse_text (emergent [late]) = None.
Proof.
  split_and!; try (vm_compute; reflexivity); apply (bool_decide_unpack _); vm_compute; exact I.
Qed.

(** A table whose name has an upper-case letter is related to itself, because
    its canonical name is compared with its lower-case one. *)
Theorem self_relation :
  detectFKRelationships [Nodes] = [relationship "_has_" "fk" "high" Nodes (col "node_id" "BIGINT") "Nodes"].
Proof. vm_compute. reflexivity. Qed.

Lemma detectFKRelationships_sound_witness :
  FromObject (relationship "_has_" "fk" "high" orders (col "customer_id" "BIGINT") "customers") ≠
  ToObject (relationship "_has_" "fk" "high" orders (col "customer_id" "BIGINT") "customers").
Proof.
  apply (detectFKRelationships_sound [customers; orders]).
  - apply (bool_decide_unpack _). vm_compute. exact I.
  - repeat constructor.
Defined.
End Emerge.
