(* ===== verification/Handlers.v ===== *)
(** * Agent and tool handlers (api/handler/agent.go, tool.go, query.go)

    The RPC and HTTP handlers over the metadata repository.  Messages are the
    protobuf records of the requests; [marshal] and [unmarshal] are encoding/json
    on a list of strings ([unmarshal] gives what is left in the slice).  The
    request's project is the one of the authenticated key when there is one. *)

From S2P Require Import Prelude GoStrings Cursor Tokens Caches Repository.

Module Handlers.
Import AesGcm Repository Pagination.

Record Agent := {
  Id : string; Name : string; Provider : string; Model : string; ApiKey : string;
  SystemPrompt : string; SkillIds : list string; BaseUrl : string;
}.
Record Tool := { TId : string; TName : string; TDescription : string; TCode : string }.

Inductive handler_error :=
| Internal (e : repo_error)
| InvalidArgument (msg : string)
| FailedPrecondition (msg : string)
| NotFound (msg : string).

(** The key as it is shown: its first eight runes, or none. *)
Definition mask (key : string) : string :=
  if bool_decide (key = "") then ""
  else let rs := runes key in
       if bool_decide (8 < length rs)%nat then str_join "" (take 8 rs) +:+ "****" else "****".

Definition request_project (ctxProject reqProject : string) : string :=
  if bool_decide (ctxProject = "") then reqProject else ctxProject.

Section Agents.
Context `{Aead} (marshal : list string → string) (unmarshal : string → list string).

Definition shown (a : AgentRecord) : Agent :=
  {| Id := AgID a; Name := AgName a; Provider := AgProvider a; Model := AgModel a;
     ApiKey := mask (AgApiKey a); SystemPrompt := AgSystemPrompt a;
     SkillIds := if bool_decide (AgSkillIDsJSON a = "") then [] else unmarshal (AgSkillIDsJSON a);
     BaseUrl := AgBaseURL a |}.

Definition ListAgents (ok : bool) (ctxProject reqProject : string) (r : Repo) : result handler_error (list Agent) :=
  match Repository.ListAgents ok (request_project ctxProject reqProject) r with
  | Err e => Err (Internal e)
  | Ok recs => Ok (shown <$> recs)
  end.

Definition record_of (projectID : string) (a : Agent) : AgentRecord :=
  {| AgID := Id a; AgProjectID := projectID; AgName := Name a; AgProvider := Provider a;
     AgModel := Model a; AgApiKey := ApiKey a; AgSystemPrompt := SystemPrompt a;
     AgSkillIDsJSON := marshal (SkillIds a); AgBaseURL := BaseUrl a |}.

Definition with_id (i : string) (a : Agent) : Agent :=
  {| Id := i; Name := Name a; Provider := Provider a; Model := Model a; ApiKey := ApiKey a;
     SystemPrompt := SystemPrompt a; SkillIds := SkillIds a; BaseUrl := BaseUrl a |}.
Definition masked (a : Agent) : Agent :=
  {| Id := Id a; Name := Name a; Provider := Provider a; Model := Model a; ApiKey := mask (ApiKey a);
     SystemPrompt := SystemPrompt a; SkillIds := SkillIds a; BaseUrl := BaseUrl a |}.

(** [now] is the clock in nanoseconds, [max] the limit of the handler. *)
Definition CreateAgent (now max : Z) (nonce : option string) (count_ok ok : bool)
    (ctxProject reqProject : string) (agent : option Agent) (r : Repo) : Repo * result handler_error Agent :=
  let projectID := request_project ctxProject reqProject in
  let refused :=
    if bool_decide (max > 0) then
      match CountProjectAgents count_ok projectID (tables r) with
      | Err e => Some (Internal e)
      | Ok count => if bool_decide (max ≤ count) then Some (FailedPrecondition "agent limit reached") else None
      end
    else None in
  match refused, agent with
  | Some e, _ => (r, Err e)
  | None, None => (r, Err (InvalidArgument "agent is required"))
  | None, Some a =>
    let a := if bool_decide (Id a = "") then with_id ("agent-" +:+ Itoa now) a else a in
    match Repository.CreateAgent nonce ok (record_of projectID a) r with
    | (r', Some e) => (r', Err (Internal e))
    | (r', None) => (r', Ok (masked a))
    end
  end.

Definition DeleteAgent (fk ok : bool) (ctxProject reqProject id : string) (r : Repo) : Repo * option handler_error :=
  match Repository.DeleteAgent fk ok id (request_project ctxProject reqProject) r with
  | (r', Some e) => (r', Some (Internal e))
  | (r', None) => (r', None)
  end.

Definition UpdateAgent (nonce : option string) (ok : bool) (ctxProject reqProject : string)
    (agent : option Agent) (r : Repo) : Repo * result handler_error Agent :=
  match agent with
  | None => (r, Err (InvalidArgument "agent is required"))
  | Some a =>
    match Repository.UpdateAgent nonce ok (record_of (request_project ctxProject reqProject) a) r with
    | (r', Some e) => (r', Err (Internal e))
    | (r', None) => (r', Ok (masked a))
    end
  end.

(** ** The agent of a chat (query.go) *)

Record AgentInfo := {
  InfProvider : string; InfModel : string; InfApiKey : string; InfSystemPrompt : string; InfBaseURL : string;
}.

Definition default_url (provider : string) : string :=
  if bool_decide (provider = "openai") then "https://api.openai.com"
  else if bool_decide (provider = "anthropic") then "https://api.anthropic.com"
  else "http://localhost:11434".

Definition resolveAgent (ok : bool) (agentID : string) (r : Repo) : result handler_error AgentInfo :=
  if bool_decide (agentID = "") then Err (InvalidArgument "agent ID is required")
  else match GetAgentForChat ok agentID r with
  | Err _ => Err (NotFound agentID)
  | Ok a =>
    if bool_decide (AgModel a = "") then Err (FailedPrecondition "no model configured")
    else if bool_decide (AgProvider a = "") then Err (FailedPrecondition "no provider configured")
    else Ok {| InfProvider := AgProvider a; InfModel := AgModel a; InfApiKey := AgApiKey a;
               InfSystemPrompt := AgSystemPrompt a;
               InfBaseURL := if bool_decide (AgBaseURL a = "") then default_url (AgProvider a) else AgBaseURL a |}
  end.

(** ** Properties of agents *)

Lemma lookup_updated nonce a r row c :
  protect nonce r (AgApiKey a) = Ok c →
  system_agents (tables r) !! AgID a = Some row → AgProjectID row = AgProjectID a →
  ∃ r', Repository.UpdateAgent nonce true a r = (r', None) ∧ encryptionKey r' = encryptionKey r ∧
    system_agents (tables r') !! AgID a =
      Some {| AgID := AgID row; AgProjectID := AgProjectID row; AgName := AgName a;
              AgProvider := AgProvider a; AgModel := AgModel a; AgApiKey := c;
              AgSystemPrompt := AgSystemPrompt a; AgSkillIDsJSON := AgSkillIDsJSON a;
              AgBaseURL := AgBaseURL a |}.
Proof.
  intros Hp Hrow Hpr. unfold Repository.UpdateAgent. rewrite Hp. unfold exec, sql_update. rewrite Hrow.
  unfold in_project. rewrite bool_decide_eq_true_2 by done.
  eexists. split; [done|]. split; [done|]. cbn. apply lookup_insert_eq.
Qed.

Lemma mask_short key :
  str_all is_ascii_char key = true → (12 < String.length key)%nat → mask key ≠ key.
Proof.
  intros Ha Hl E. unfold mask in E. rewrite bool_decide_eq_false_2 in E by (intros ->; cbn in Hl; lia).
  rewrite runes_ascii in E by done.
  assert (length (String.list_ascii_of_string key) = String.length key) as Hlen
    by (clear; induction key; cbn; congruence).
  rewrite bool_decide_eq_true_2 in E by (rewrite length_fmap; lia).
  apply (f_equal String.length) in E. rewrite str_length_app in E.
  assert (∀ l : list ascii, String.length (str_join "" ((λ c, String c "") <$> l)) = length l) as Hj.
  { clear. intros l. induction l as [|c l IH]; [done|]. destruct l as [|d l]; [done|].
    change (str_join "" ((λ c, String c "") <$> c :: d :: l))
      with (String c (str_join "" ((λ c, String c "") <$> d :: l))).
    cbn [String.length]. by rewrite IH. }
  rewrite <- fmap_take, Hj, length_take in E.
  change (String.length "****") with 4%nat in E. lia.
Qed.

(** An agent that is listed and saved again unchanged loses its API key: the
    listing shows a masked key and the update stores the mask in its place, so the
    chat then sends the mask to the provider. *)
Theorem masked_key_replaces_key (nonce : option string) (project : string) (row : AgentRecord)
    (key : string) (r : Repo) :
  key_usable nonce r →
  system_agents (tables r) !! AgID row = Some row → AgProjectID row = project → project ≠ "" →
  reveal r (AgApiKey row) = Ok key →
  let a := shown (listed r row) in
  (∃ l, ListAgents true project "" r = Ok l ∧ a ∈ l) ∧
  let '(r', res) := UpdateAgent nonce true project "" (Some a) r in
  res = Ok (masked a) ∧
  ∃ a', GetAgentForChat true (AgID row) r' = Ok a' ∧ AgApiKey a' = mask key ∧
    (str_all is_ascii_char key = true → (12 < String.length key)%nat → AgApiKey a' ≠ key).
Proof.
  intros Hk Hrow Hpr Hne Hkey a.
  assert (ApiKey a = mask key) as Hkm by (subst a; unfold listed; by rewrite Hkey).
  assert (Id a = AgID row) as Hia by (subst a; unfold listed; by rewrite Hkey).
  assert (request_project project "" = project) as Hrp
    by (unfold request_project; by rewrite bool_decide_eq_false_2).
  split.
  - unfold ListAgents, Repository.ListAgents. rewrite Hrp. eexists. split; [done|].
    apply list_elem_of_fmap. eexists. split; [done|]. apply list_elem_of_fmap. exists row. split; [done|].
    apply list_elem_of_fmap. exists (AgID row, row). split; [done|].
    apply elem_of_map_to_list, map_lookup_filter_Some. split; [done|]. by apply bool_decide_eq_true_2.
  - unfold UpdateAgent. rewrite Hrp.
    destruct (protect_reveal nonce r (mask key) Hk) as (c & Hp & Hrev).
    destruct (lookup_updated nonce (record_of project a) r row c) as (r' & -> & He & Hl).
    + cbn [record_of AgApiKey]. by rewrite Hkm.
    + cbn [record_of AgID]. by rewrite Hia.
    + done.
    + split; [done|]. cbn [record_of AgID] in Hl. rewrite Hia in Hl.
      unfold GetAgentForChat, query_row. rewrite Hl. cbn [AgApiKey].
      unfold reveal in *. rewrite He, Hrev. eexists. split_and!; [done|done|apply mask_short].
Qed.

Definition project_agents (projectID : string) (r : Repo) : nat :=
  length (sql_where (in_project AgProjectID projectID) (system_agents (tables r))).

Lemma count_insert projectID k (a : AgentRecord) m :
  m !! k = None →
  (length (sql_where (in_project AgProjectID projectID) (<[k := a]> m)) ≤
   length (sql_where (in_project AgProjectID projectID) m) +
     if in_project AgProjectID projectID a then 1 else 0)%nat.
Proof.
  intros Hk. unfold sql_where. rewrite !length_map_to_list, map_filter_insert. cbn [snd].
  destruct (in_project AgProjectID projectID a) eqn:E.
  - rewrite decide_True by done. rewrite map_size_insert_None; [lia|]. apply map_lookup_filter_None. by left.
  - rewrite decide_False by done. rewrite delete_id by done. lia.
Qed.

(** As long as requests do not overlap, the limit holds: with a positive limit,
    creating an agent never takes a project that is within it beyond it, whichever
    project the request names and whatever fails. *)
Theorem agent_limit (now max : Z) (nonce : option string) (count_ok ok : bool)
    (ctxProject reqProject : string) (agent : option Agent) (r : Repo) (p : string) :
  0 < max → Z.of_nat (project_agents p r) ≤ max →
  Z.of_nat (project_agents p
    (CreateAgent now max nonce count_ok ok ctxProject reqProject agent r).1) ≤ max.
Proof.
  intros Hmax Hp. unfold CreateAgent. rewrite bool_decide_eq_true_2 by lia.
  set (q := request_project ctxProject reqProject). unfold CountProjectAgents, query.
  destruct count_ok; [|done]. case_bool_decide as Hc; [done|]. destruct agent as [a|]; [|done].
  set (a' := if bool_decide (Id a = "") then _ else a).
  unfold Repository.CreateAgent. destruct (protect _ _ _) as [c|e]; [|done].
  unfold exec, sql_insert. destruct ok; [|done]. case_bool_decide as Hn; [|done]. cbn [andb fst].
  unfold project_agents in *. cbn [tables with_tables system_agents set_agents].
  pose proof (count_insert p _ (with_key c (record_of q a')) _ Hn) as Hi.
  unfold in_project at 3 in Hi. cbn [with_key record_of AgProjectID] in Hi.
  case_bool_decide as Eq; [subst p|]; lia.
Qed.
End Agents.

(** ** Tools *)
Section Tools.
Context (range : gmap string (ToolCache.cacheEntry (V := list ToolRecord)) →
                 list (string * ToolCache.cacheEntry (V := list ToolRecord)))
        (id_le : string → string → Prop) `{!RelDecision id_le}.

(** The record that a request makes: the other columns are empty. *)
Definition tool_record (i : string) (t : Tool) : ToolRecord :=
  {| ToID := i; ToName := TName t; ToDescription := TDescription t; ToCode := TCode t; ToCategory := "";
     ToVersion := ""; ToHealthStatus := ""; ToSourceType := "" |}.

Definition ListTools (now : Time) (a : Repository.rows_answer) (r : Repo) : Repo * result handler_error (list Tool) :=
  match Repository.ListTools range now a r with
  | (r', Err e) => (r', Err (Internal e))
  | (r', Ok l) =>
    (r', Ok ((λ t, {| TId := ToID t; TName := ToName t; TDescription := ToDescription t; TCode := ToCode t |}) <$> l))
  end.

(** [uuid]: the identifier that is drawn when the request has none. *)
Definition CreateTool (uuid : string) (ok : bool) (tool : option Tool) (r : Repo) :
    Repo * result handler_error Tool :=
  match tool with
  | None => (r, Err (InvalidArgument "tool is required"))
  | Some t =>
    let i := if bool_decide (TId t = "") then uuid else TId t in
    match Repository.CreateTool ok (tool_record i t) r with
    | (r', Some e) => (r', Err (Internal e))
    | (r', None) =>
      (r', Ok {| TId := i; TName := TName t; TDescription := TDescription t; TCode := TCode t |})
    end
  end.

Definition UpdateTool (ok : bool) (tool : option Tool) (r : Repo) : Repo * result handler_error Tool :=
  match tool with
  | None => (r, Err (InvalidArgument "tool id is required"))
  | Some t =>
    if bool_decide (TId t = "") then (r, Err (InvalidArgument "tool id is required"))
    else match Repository.UpdateTool ok (tool_record (TId t) t) r with
    | (r', Some e) => (r', Err (Internal e))
    | (r', None) => (r', Ok t)
    end
  end.

Definition DeleteTool (ok : bool) (id : string) (r : Repo) : Repo * option handler_error :=
  match Repository.DeleteTool ok id r with
  | (r', Some e) => (r', Some (Internal e))
  | (r', None) => (r', None)
  end.

(** GET /api/v1/tools with its two query parameters. *)
Definition HandleListAll (ok : bool) (page per_page : string) (r : Repo) : result repo_error (list ToolRecord) :=
  let pag := ParsePagePagination page per_page in
  ListToolsCursor id_le ok "" (PerPage pag) r.

(** Saving a tool through the handler erases what the request does not carry:
    whatever category, version, health status and source type the tool had, they
    are empty afterwards, and it is no longer found under its category. *)
Theorem UpdateTool_erases (t : Tool) (row : ToolRecord) (r : Repo) :
  TId t ≠ "" → system_tools (tables r) !! TId t = Some row →
  map_Forall (λ k x, ToID x = k) (system_tools (tables r)) →
  let '(r', res) := UpdateTool true (Some t) r in
  res = Ok t ∧ system_tools (tables r') !! TId t = Some (tool_record (TId t) t) ∧
  ∀ category l, category ≠ "" → GetToolByCategory true category r' = Ok l → Forall (λ x, ToID x ≠ TId t) l.
Proof.
  intros Hid Hrow Hids. pose proof (Hids _ _ Hrow) as Hrid. cbn in Hrid.
  unfold UpdateTool. rewrite bool_decide_eq_false_2 by done.
  unfold Repository.UpdateTool, exec_tools, exec, sql_update. cbn [tool_record ToID]. rewrite Hrow.
  cbn [fst snd tables with_cache with_tables system_tools set_tools]. split; [done|]. split.
  { rewrite lookup_insert_eq. by rewrite Hrid. }
  intros category l Hcat [= <-]. apply Forall_forall. intros x ([k y] & -> & Hk)%list_elem_of_fmap.
  apply elem_of_map_to_list, map_lookup_filter_Some in Hk as [Hk Hc]. cbn in Hc. decide_bools.
  apply lookup_insert_Some in Hk as [[<- <-]|[Hne Hk]]; [cbn in Hc; congruence|].
  cbn. rewrite (Hids _ _ Hk). done.
Qed.

(** The listing of tools has only one page: the page number has no effect, at
    most the first hundred rows in the order of their identifiers are ever
    listed. *)
Theorem HandleListAll_first_page (page page' per_page : string) (r : Repo) :
  HandleListAll true page per_page r = HandleListAll true page' per_page r ∧
  ∃ n, (1 ≤ n ≤ 100)%nat ∧
    HandleListAll true page per_page r = Ok (take n (ordered id_le (λ _, true) (system_tools (tables r)))).*2.
Proof.
  assert (1 ≤ PerPage (ParsePagePagination page per_page) ≤ 100) as Hb
    by (unfold ParsePagePagination; cbn; repeat case_match; decide_bools; cbn; lia).
  split; [done|]. exists (Z.to_nat (PerPage (ParsePagePagination page per_page))). split; [lia|].
  unfold HandleListAll, ListToolsCursor, page_query. rewrite bool_decide_eq_false_2 by lia.
  unfold query. do 3 f_equal. apply filter_all_keep, Forall_true. by left.
Qed.
End Tools.

(** ** Witnesses *)

Definition sample_marshal (l : list string) : string := "[" +:+ str_join "," l +:+ "]".
Definition sample_unmarshal (s : string) : list string := [].
Definition plain_repo : Repo :=
  with_tables (set_agents {[ "a1" := with_key "sk-1234567890abcdef" sample_agent ]} sample_tables) sample_repo0.

Lemma masked_key_replaces_key_witness :
  let a := shown sample_unmarshal (listed plain_repo (with_key "sk-1234567890abcdef" sample_agent)) in
  ∃ a', GetAgentForChat true "a1" (UpdateAgent sample_marshal None true "p" "" (Some a) plain_repo).1 = Ok a' ∧
        AgApiKey a' = "sk-12345****".
Proof.
  intros a.
  pose proof (masked_key_replaces_key sample_marshal sample_unmarshal None "p"
    (with_key "sk-1234567890abcdef" sample_agent) "sk-1234567890abcdef" plain_repo) as Ht.
  destruct Ht as [_ Ht]; try done. fold a in Ht.
  destruct (UpdateAgent sample_marshal None true "p" "" (Some a) plain_repo) as [r' res].
  destruct Ht as (_ & a' & Hg & Hk & _). exists a'. split; [exact Hg|]. rewrite Hk. vm_compute. reflexivity.
Defined.

Lemma agent_limit_witness :
  Z.of_nat (project_agents "p" (CreateAgent sample_marshal 0 2 None true true "p" ""
    (Some (shown sample_unmarshal (with_key "" sample_agent))) sample_repo0).1) ≤ 2.
Proof. apply agent_limit; [lia|]. vm_compute. discriminate. Defined.

Lemma UpdateTool_erases_witness :
  system_tools (tables (UpdateTool true (Some {| TId := "t1"; TName := "n"; TDescription := "d"; TCode := "c" |})
    sample_repo).1) !! "t1" =
  Some (tool_record "t1" {| TId := "t1"; TName := "n"; TDescription := "d"; TCode := "c" |}).
Proof.
  pose proof (UpdateTool_erases {| TId := "t1"; TName := "n"; TDescription := "d"; TCode := "c" |}
    (sample_tool "t1") sample_repo) as Ht.
  destruct (UpdateTool true _ sample_repo) as [r' res]. apply Ht; [done|reflexivity|].
  apply (bool_decide_unpack _). vm_compute. exact I.
Defined.
End Handlers.
