(* ===== verification/Sandbox.v ===== *)
(** * The tool sandbox (internal/sandbox)

    Module Regex: the regular expressions the sandbox uses, matched by derivatives,
    which are proved equal to their usual meaning.  Module Allowlist (allowlist.go):
    commands and arguments.  Module Validation (validation.go, verification.go): the
    static checks of Go and Python tools; go/parser's list of import literals is a
    parameter.  Module Skills (exec_sandbox.go, verification.go): skills as chains of
    tools and the verification of several tools at once. *)

From S2P Require Import Prelude GoStrings GoValues.

Module Regex.

Inductive re :=
| Eps
| Chr (p : ascii → bool)
| Cat (a b : re)
| Alt (a b : re)
| Star (a : re)
| Void.

(** The strings an expression stands for. *)
Inductive denotes : re → list ascii → Prop :=
| d_eps : denotes Eps []
| d_chr p c : p c = true → denotes (Chr p) [c]
| d_cat a b x y : denotes a x → denotes b y → denotes (Cat a b) (x ++ y)
| d_alt_l a b x : denotes a x → denotes (Alt a b) x
| d_alt_r a b x : denotes b x → denotes (Alt a b) x
| d_star_nil a : denotes (Star a) []
| d_star_app a x y : denotes a x → denotes (Star a) y → denotes (Star a) (x ++ y).

Fixpoint nullable (r : re) : bool :=
  match r with
  | Eps | Star _ => true
  | Chr _ | Void => false
  | Cat a b => nullable a && nullable b
  | Alt a b => nullable a || nullable b
  end.

(** Units and voids are cut away so that expressions stay small. *)
Definition cat (a b : re) : re := match a with Void => Void | Eps => b | _ => Cat a b end.
Definition alt (a b : re) : re := match a, b with Void, b => b | a, Void => a | a, b => Alt a b end.

Fixpoint deriv (c : ascii) (r : re) : re :=
  match r with
  | Eps | Void => Void
  | Chr p => if p c then Eps else Void
  | Cat a b => if nullable a then alt (cat (deriv c a) b) (deriv c b) else cat (deriv c a) b
  | Alt a b => alt (deriv c a) (deriv c b)
  | Star a => cat (deriv c a) (Star a)
  end.

Fixpoint matches (r : re) (s : list ascii) : bool :=
  match s with [] => nullable r | c :: s => matches (deriv c r) s end.

#[local] Hint Constructors denotes : core.

Lemma cat_inv a b s : denotes (Cat a b) s ↔ ∃ x y, s = x ++ y ∧ denotes a x ∧ denotes b y.
Proof.
  split; [inversion 1; subst; eauto|]. intros (x & y & -> & ? & ?). auto.
Qed.
Lemma alt_inv a b s : denotes (Alt a b) s ↔ denotes a s ∨ denotes b s.
Proof. split; [inversion 1; subst; auto|]. intros []; auto. Qed.
Lemma void_inv s : ¬ denotes Void s.
Proof. inversion 1. Qed.
Lemma eps_inv s : denotes Eps s ↔ s = [].
Proof. split; [by inversion 1|]. by intros ->. Qed.
Lemma chr_inv p s : denotes (Chr p) s ↔ ∃ c, s = [c] ∧ p c = true.
Proof. split; [inversion 1; eauto|]. intros (c & -> & ?). auto. Qed.

Lemma nullable_iff r : nullable r = true ↔ denotes r [].
Proof.
  induction r as [|p|a IHa b IHb|a IHa b IHb|a IHa|]; cbn [nullable].
  - split; auto.
  - rewrite chr_inv. split; [done|]. by intros (? & ? & _).
  - rewrite andb_true_iff, IHa, IHb, cat_inv. split; [intros []; by exists [], []|].
    intros (x & y & E & Hx & Hy). symmetry in E. apply app_nil in E as [-> ->]. done.
  - by rewrite orb_true_iff, IHa, IHb, alt_inv.
  - split; auto.
  - split; [done|]. by intros ?%void_inv.
Qed.

Lemma cat_iff a b s : denotes (cat a b) s ↔ denotes (Cat a b) s.
Proof.
  destruct a; cbn [cat]; try done; rewrite cat_inv.
  - split; [intros Hb; exists [], s; auto|]. by intros (x & y & -> & ->%eps_inv & ?).
  - split; [by intros ?%void_inv|]. by intros (x & y & _ & ?%void_inv & _).
Qed.

Lemma alt_iff a b s : denotes (alt a b) s ↔ denotes (Alt a b) s.
Proof.
  rewrite alt_inv. pose proof (void_inv s). destruct a, b; cbn [alt]; rewrite ?alt_inv; tauto.
Qed.

Lemma star_cons a c s :
  denotes (Star a) (c :: s) → ∃ x y, s = x ++ y ∧ denotes a (c :: x) ∧ denotes (Star a) y.
Proof.
  remember (Star a) as r eqn:Er. remember (c :: s) as l eqn:El. intros Hd. revert s El.
  induction Hd as [| | | | | |a' x y Hx _ Hy IH]; try done; intros s El. injection Er as ->.
  destruct x as [|d x]; [by apply IH|]. cbn in El. injection El as -> <-. eauto.
Qed.

Lemma cat_cons a b c s :
  denotes (Cat a b) (c :: s) ↔
  (∃ x y, s = x ++ y ∧ denotes a (c :: x) ∧ denotes b y) ∨ (denotes a [] ∧ denotes b (c :: s)).
Proof.
  rewrite cat_inv. split.
  - intros (x & y & E & Hx & Hy). destruct x as [|d x]; [right; by rewrite E|].
    cbn in E. injection E as -> ->. left. by exists x, y.
  - intros [(x & y & -> & Hx & Hy)|[Ha Hb]]; [by exists (c :: x), y|by exists [], (c :: s)].
Qed.

Lemma deriv_iff c r s : denotes (deriv c r) s ↔ denotes r (c :: s).
Proof.
  revert s. induction r as [|p|a IHa b IHb|a IHa b IHb|a IHa|]; intros s; cbn [deriv].
  - rewrite eps_inv. split; [by intros ?%void_inv|done].
  - rewrite chr_inv. destruct (p c) eqn:E.
    + rewrite eps_inv. split; [intros ->; eauto|]. by intros (d & [= -> ->] & _).
    + split; [by intros ?%void_inv|]. intros (d & [= -> ->] & ?). congruence.
  - rewrite cat_cons. assert (denotes (cat (deriv c a) b) s ↔
      ∃ x y, s = x ++ y ∧ denotes a (c :: x) ∧ denotes b y) as Hc
      by (rewrite cat_iff, cat_inv; by setoid_rewrite IHa).
    destruct (nullable a) eqn:En.
    + rewrite alt_iff, alt_inv, Hc, IHb. apply nullable_iff in En. tauto.
    + rewrite Hc. split; [auto|]. intros [|[Ha _]]; [done|]. apply nullable_iff in Ha. congruence.
  - by rewrite alt_iff, !alt_inv, IHa, IHb.
  - rewrite cat_iff, cat_inv. split.
    + intros (x & y & -> & Hx & Hy). apply (d_star_app a (c :: x) y); [by apply IHa|done].
    + intros (x & y & -> & Hx & Hy)%star_cons. exists x, y. by rewrite IHa.
  - split; by intros ?%void_inv.
Qed.

(** Matching by derivatives decides the language of the expression. *)
Lemma matches_iff r s : matches r s = true ↔ denotes r s.
Proof.
  revert r. induction s as [|c s IH]; intros r; cbn [matches]; [apply nullable_iff|].
  by rewrite IH, deriv_iff.
Qed.

(** A pattern, anchored at the start of the text or not. *)
Record pattern := { anchored : bool; body : re }.

Definition any : re := Star (Chr (λ _, true)).
Definition MatchString (p : pattern) (s : string) : bool :=
  matches (if anchored p then Cat (body p) any else Cat any (Cat (body p) any)) (String.list_ascii_of_string s).

Lemma any_all s : denotes any s.
Proof.
  induction s as [|c s IH]; [constructor|].
  apply (d_star_app (Chr (λ _, true)) [c] s); [by constructor|done].
Qed.

Lemma pattern_matches_iff p s :
  MatchString p s = true ↔
  ∃ a b c, String.list_ascii_of_string s = a ++ b ++ c ∧ denotes (body p) b ∧ (anchored p = true → a = []).
Proof.
  unfold MatchString. rewrite matches_iff. destruct (anchored p).
  - rewrite cat_inv. split.
    + intros (b & c & E & Hb & _). exists [], b, c. done.
    + intros (a & b & c & E & Hb & Ha). rewrite Ha in E by done. exists b, c. split_and!; try done. apply any_all.
  - rewrite cat_inv. split.
    + intros (a & y & E & _ & (b & c & -> & Hb & _)%cat_inv). exists a, b, c. done.
    + intros (a & b & c & E & Hb & _). exists a, (b ++ c). split_and!; [done|apply any_all|].
      apply cat_inv. exists b, c. split_and!; try done. apply any_all.
Qed.

(** Notation of the patterns. *)
Fixpoint word (s : string) : re :=
  match s with EmptyString => Eps | String c r => Cat (Chr (λ d, bool_decide (d = c))) (word r) end.
Fixpoint one (l : list string) : re :=
  match l with [] => Void | s :: l => Alt (word s) (one l) end.
Definition class (s : string) : re := Chr (λ c, str_mem c s).
Definition not_class (s : string) : re := Chr (λ c, negb (str_mem c s)).
Definition sp : re := class (String "009" (String "010" (String "012" (String "013" " ")))).
Definition plus (r : re) : re := Cat r (Star r).
Definition opt (r : re) : re := Alt r Eps.
Fixpoint seq_re (l : list re) : re := match l with [] => Eps | r :: l => Cat r (seq_re l) end.
End Regex.

(** ** Commands (allowlist.go) *)
Module Allowlist.
Import Regex.

Inductive allow_error :=
| NoCommand
| MetaCharacter (arg : string)
| NotAllowed (cmd : string)
| BlockedFlag (arg : string)
| ArgNotAllowed (cmd arg : string)
| OutputTooLarge (n : Z)
| CommandFailed.

Definition shellMetaRE : pattern := {| anchored := false; body := class ";&|`$(){}<>" |}.
Definition maxOutputBytes : Z := 10 * 1024 * 1024.

Record CommandAllowlist := {
  allowedCommands : gset string;
  allowedArgSet : gmap string (gset string);
  blockedFlags : gset string;
}.

Definition NewCommandAllowlist : CommandAllowlist :=
  {| allowedCommands := list_to_set ["ls"; "cat"; "head"; "tail"; "wc"; "sort"; "grep"];
     allowedArgSet := list_to_map
       [ ("ls", list_to_set ["-l"; "-a"; "-la"; "-lh"]);
         ("head", {["-n"]}); ("tail", {["-n"]});
         ("wc", list_to_set ["-l"; "-w"; "-c"]);
         ("sort", list_to_set ["-n"; "-r"]);
         ("grep", list_to_set ["-i"; "-v"; "-n"; "-r"; "-rn"; "-l"]) ];
     blockedFlags := list_to_set ["--pty"; "--interactive"; "--tty"; "-i"; "-t"] |}.

Definition arg_in (s : option (gset string)) (arg : string) : bool :=
  match s with Some set => bool_decide (arg ∈ set) | None => false end.

Definition Validate (a : CommandAllowlist) (args : list string) : option allow_error :=
  match args with
  | [] => Some NoCommand
  | cmd :: rest =>
    match list_find (λ arg, MatchString shellMetaRE arg = true) args with
    | Some (_, arg) => Some (MetaCharacter arg)
    | None =>
      if negb (bool_decide (cmd ∈ allowedCommands a)) then Some (NotAllowed cmd)
      else
        let allowedSet := allowedArgSet a !! cmd in
        match list_find (λ arg, arg ∈ blockedFlags a ∧ arg_in allowedSet arg = false) rest with
        | Some (_, arg) => Some (BlockedFlag arg)
        | None =>
          match allowedSet with
          | Some set =>
            match list_find (λ arg, String.prefix "-" arg = true ∧ arg ∉ set) rest with
            | Some (_, arg) => Some (ArgNotAllowed cmd arg)
            | None => None
            end
          | None => None
          end
        end
    end
  end.

(** [exec]: the output of the command and whether it succeeded.  The command is
    taken from the arguments before they are validated: without one the call
    panics. *)
Inductive exec_outcome := Panicked | Returned (output : string) (e : option allow_error).
Definition ExecCommandContext (exec : list string → string * bool) (a : CommandAllowlist) (args : list string) :
    exec_outcome :=
  match args with
  | [] => Panicked
  | _ =>
    match Validate a args with
    | Some e => Returned "" (Some e)
    | None =>
      let '(output, ok) := exec args in
      if bool_decide (str_len output > maxOutputBytes) then Returned "" (Some (OutputTooLarge (str_len output)))
      else if ok then Returned output None else Returned output (Some CommandFailed)
    end
  end.

Lemma class_mem cs s :
  MatchString {| anchored := false; body := class cs |} s = true ↔ ∃ c, str_mem c s = true ∧ str_mem c cs = true.
Proof.
  rewrite pattern_matches_iff. cbn [body anchored].
  assert (∀ c, str_mem c s = true ↔ c ∈ String.list_ascii_of_string s) as Hm.
  { intros c. induction s as [|d s IH]; cbn; [split; [done|set_solver]|].
    rewrite orb_true_iff, bool_decide_eq_true, IH. set_solver. }
  split.
  - intros (x & y & z & E & (c & -> & Hc)%chr_inv & _). exists c. rewrite Hm, E. set_solver.
  - intros (c & Hs%Hm & Hc). apply list_elem_of_split in Hs as (l1 & l2 & E).
    exists l1, [c], l2. split_and!; [done| |done]. apply chr_inv. eauto.
Qed.

Lemma list_find_None_iff {A} (P : A → Prop) `{∀ x, Decision (P x)} l :
  list_find P l = None ↔ ∀ x, x ∈ l → ¬ P x.
Proof. rewrite list_find_None, Forall_forall. done. Qed.

(** A command line is accepted exactly when there is a command, no argument
    holds a shell metacharacter, the command is one of the allowed ones, and every
    dash argument of a command that has a list of arguments is on that list; a
    blocked flag passes only if it is on it. *)
Theorem Validate_spec (a : CommandAllowlist) (args : list string) :
  Validate a args = None ↔
  ∃ cmd rest, args = cmd :: rest ∧
    (∀ arg c, arg ∈ args → str_mem c arg = true → str_mem c ";&|`$(){}<>" = false) ∧
    cmd ∈ allowedCommands a ∧
    (∀ arg, arg ∈ rest → arg ∈ blockedFlags a → arg_in (allowedArgSet a !! cmd) arg = true) ∧
    (∀ arg set, arg ∈ rest → allowedArgSet a !! cmd = Some set → String.prefix "-" arg = true → arg ∈ set).
Proof.
  unfold Validate. destruct args as [|cmd rest]; [split; [done|by intros (? & ? & ? & _)]|].
  assert (list_find (λ arg, MatchString shellMetaRE arg = true) (cmd :: rest) = None ↔
    ∀ arg c, arg ∈ cmd :: rest → str_mem c arg = true → str_mem c ";&|`$(){}<>" = false) as Hmeta.
  { rewrite list_find_None_iff. unfold shellMetaRE. setoid_rewrite class_mem. split.
    - intros Hn arg c Hin Hc. apply not_true_is_false. intros Hm. apply (Hn arg Hin). eauto.
    - intros Hn arg Hin (c & Hc & Hm). specialize (Hn arg c Hin Hc). congruence. }
  destruct (list_find (λ arg, MatchString shellMetaRE arg = true) (cmd :: rest)) as [[i arg]|] eqn:E1.
  { split; [done|]. intros (? & ? & [= <- <-] & Hm & _). by apply Hmeta in Hm. }
  case_bool_decide as Hcmd; cbn [negb].
  2: { split; [done|]. by intros (? & ? & [= <- <-] & _ & ? & _). }
  assert (list_find (λ arg, arg ∈ blockedFlags a ∧ arg_in (allowedArgSet a !! cmd) arg = false) rest = None ↔
    ∀ arg, arg ∈ rest → arg ∈ blockedFlags a → arg_in (allowedArgSet a !! cmd) arg = true) as Hblk.
  { rewrite list_find_None_iff. split.
    - intros Hn arg Hin Hb. apply not_false_is_true. intros Hf. by apply (Hn arg Hin).
    - intros Hn arg Hin [Hb Hf]. specialize (Hn arg Hin Hb). congruence. }
  destruct (list_find (λ arg, arg ∈ blockedFlags a ∧ _) rest) as [[i arg]|] eqn:E2.
  { split; [done|]. intros (? & ? & [= <- <-] & _ & _ & Hb & _). by apply Hblk in Hb. }
  destruct (allowedArgSet a !! cmd) as [set|] eqn:Es.
  - assert (list_find (λ arg, String.prefix "-" arg = true ∧ arg ∉ set) rest = None ↔
      ∀ arg, arg ∈ rest → String.prefix "-" arg = true → arg ∈ set) as Harg.
    { rewrite list_find_None_iff. split.
      - intros Hn arg Hin Hp. destruct (decide (arg ∈ set)); [done|]. by destruct (Hn arg Hin).
      - intros Hn arg Hin [Hp Hf]. by apply Hf, Hn. }
    destruct (list_find (λ arg, String.prefix "-" arg = true ∧ arg ∉ set) rest) as [[i arg]|] eqn:E3.
    + split; [done|]. intros (? & ? & [= <- <-] & _ & _ & _ & Ha).
      exfalso. assert (Some (i, arg) = None) as Hx; [|done]. apply Harg.
      intros arg' Hin Hp. by apply (Ha arg' set).
    + split; [|done]. intros _. exists cmd, rest. split_and!; [done|by apply Hmeta|done| |].
      * intros arg Hin Hb. rewrite Es. by apply Hblk.
      * intros arg set' Hin Hs Hp. rewrite Es in Hs. injection Hs as <-. by apply Harg.
  - split; [|done]. intros _. exists cmd, rest. split_and!; [done|by apply Hmeta|done| |].
    + intros arg Hin Hb. rewrite Es. by apply Hblk.
    + intros arg set' Hin Hs. by rewrite Es in Hs.
Qed.

(** Without a command the executor panics, where validation alone reports the
    error. *)
Theorem Exec_empty_panics (exec : list string → string * bool) (a : CommandAllowlist) :
  ExecCommandContext exec a [] = Panicked ∧ Validate a [] = Some NoCommand.
Proof. done. Qed.
End Allowlist.

(** ** Static checks (validation.go, verification.go) *)
Module Validation.
Import Regex.

Definition blocklistedGoImports : list string :=
  ["os/exec"; "net"; "net/http"; "net/url"; "net/smtp"; "net/rpc"; "net/mail"; "syscall"; "unsafe";
   "reflect"; "plugin"; "runtime"; "runtime/cgo"; "runtime/pprof"; "crypto"; "crypto/md5";
   "crypto/sha1"; "crypto/sha256"; "crypto/sha512"; "crypto/aes"; "crypto/cipher"; "crypto/des";
   "crypto/ecdsa"; "crypto/ed25519"; "crypto/elliptic"; "crypto/hmac"; "crypto/rand"; "crypto/rsa";
   "crypto/subtle"; "crypto/tls"; "crypto/x509"; "encoding"; "encoding/hex"; "encoding/base64";
   "encoding/gob"; "encoding/pem"; "encoding/asn1"; "encoding/binary"; "io/ioutil";
   "mime/multipart"; "text/template"; "html/template"; "debug/dwarf"; "debug/elf"; "debug/gosym";
   "debug/macho"; "debug/pe"; "debug/plan9obj"].

Inductive code_error :=
| BlockedImport (path : string)
| BlockedNet (path : string)
| BlockedInternal (path : string)
| BlockedLine
| BlockedPattern (line : Z)
| BlockedPyImport (line : Z).

Definition lines (s : string) : list string := str_split newline s.
Definition quote (s : string) : string := String dquote s +:+ String dquote "".

(** A line of the check that is used when the source does not parse. *)
Definition line_blocked `{Unicode} (line : string) : bool :=
  let line := TrimSpace line in
  String.prefix "import" line &&
  (existsb (λ b, str_contains line (quote b)) blocklistedGoImports ||
   str_contains line (String dquote "net/") || str_contains line (String dquote "internal/")).
Definition simpleGoImportCheck `{Unicode} (source : string) : option code_error :=
  if existsb line_blocked (lines source) then Some BlockedLine else None.

(** One import, given by its literal as it stands in the source. *)
Definition import_error (literal : string) : option code_error :=
  let importPath := trim_set (String dquote "") literal in
  if bool_decide (importPath ∈ blocklistedGoImports) then Some (BlockedImport importPath)
  else if String.prefix "net/" importPath then Some (BlockedNet importPath)
  else if String.prefix "internal/" importPath then Some (BlockedInternal importPath)
  else None.

(** [parse]: the import literals of the source, if it parses. *)
Definition ValidateGoCode `{Unicode} (parse : string → option (list string)) (source : string) : option code_error :=
  if str_contains source "import" then
    match parse source with
    | None => simpleGoImportCheck source
    | Some imports => head (omap import_error imports)
    end
  else None.

(** Lines that end in a backslash, white space aside, are joined with the next:
    the lines so far and what is waiting to be joined. *)
Definition backslash : ascii := "092".
Fixpoint collapse (buf : string) (ls : list string) : list string :=
  match ls with
  | [] => if bool_decide (buf = "") then [] else [buf]
  | line :: rest =>
    let trimmed := trim_right_set (String " " (String "009" (String "013" ""))) line in
    if has_suffix trimmed (String backslash "") then
      collapse (buf +:+ str_take (String.length trimmed - 1) trimmed) rest
    else if bool_decide (buf = "") then line :: collapse "" rest
    else (buf +:+ line) :: collapse "" rest
  end.
Definition collapseBackslashContinuations (source : string) : string :=
  str_join (String newline "") (collapse "" (lines source)).

Definition anch (l : list re) : pattern := {| anchored := true; body := seq_re (Star sp :: l) |}.
Definition free (l : list re) : pattern := {| anchored := false; body := seq_re l |}.
Definition imports (ms : list string) : pattern := anch [word "import"; plus sp; one ms].
Definition froms (ms : list string) : pattern := anch [word "from"; plus sp; one ms; plus sp; word "import"].
Definition call (f : string) : pattern := free [word f; Star sp; word "("].

Definition pythonPatternRegexes : list pattern :=
  [ imports ["subprocess"; "socket"; "ctypes"; "__import__"; "imaplib"];
    froms ["subprocess"; "socket"; "ctypes"; "imaplib"];
    free [word "subprocess."; one ["run"; "call"; "Popen"; "check_output"]];
    free [word "socket."; one ["socket"; "create_connection"; "gethostbyname"]];
    free [word "os.system"]; free [word "os.popen"];
    call "eval"; call "exec"; call "__import__";
    free [word "open"; Star sp; word "("; Star (not_class ")"); class (String squote (String dquote ""));
          word "http"; opt (word "s"); word ":"];
    free [word "open"; Star sp; word "("; Star (not_class ")"); class (String squote (String dquote ""));
          word "ftp://"];
    imports ["importlib"; "runpy"; "pickle"; "shelve"; "shutil"; "code"];
    froms ["importlib"; "runpy"; "pickle"; "shelve"; "shutil"; "code"];
    imports ["requests"; "httpx"; "urllib3"; "aiohttp"; "websockets"];
    froms ["requests"; "httpx"; "urllib3"; "aiohttp"; "websockets"];
    anch [word "import"; plus sp; word "smtplib"];
    anch [word "from"; plus sp; word "smtplib"; plus sp; word "import"];
    call "getattr"; free [word "__getattribute__"]; free [word "__dict__"]; free [word "__class__"];
    call "globals"; call "locals"; call "vars"; free [word "__builtins__"]; call "compile" ].

Definition blockedModules : list string :=
  ["subprocess"; "socket"; "ctypes"; "__import__"; "imaplib"; "importlib"; "runpy"; "pickle"; "shelve";
   "shutil"; "code"; "requests"; "httpx"; "urllib3"; "aiohttp"; "websockets"; "smtplib"].

Definition python_line_error `{Unicode} (n : Z) (line : string) : option code_error :=
  if String.prefix "#" (TrimSpace line) then None
  else if existsb (λ p, MatchString p line) pythonPatternRegexes then Some (BlockedPattern n)
  else if str_contains line "import" && existsb (str_contains line) blockedModules then Some (BlockedPyImport n)
  else None.

Fixpoint python_lines `{Unicode} (n : Z) (ls : list string) : option code_error :=
  match ls with
  | [] => None
  | l :: rest => match python_line_error n l with Some e => Some e | None => python_lines (n + 1) rest end
  end.

Definition ValidatePythonCode `{Unicode} (source : string) : option code_error :=
  python_lines 1 (lines (collapseBackslashContinuations source)).

Definition IsPythonCode (code : string) : bool :=
  String.prefix "# python" code || String.prefix "#!/usr/bin/env python" code ||
  str_contains code "def " || str_contains code "import " || str_contains code "print(".

(** The test that the executor uses to choose the interpreter. *)
Definition runs_as_python (code : string) : bool :=
  String.prefix "# python" code || String.prefix "#!/usr/bin/env python" code.

Definition VerifyToolCode `{Unicode} (parse : string → option (list string)) (code : string) : option code_error :=
  if IsPythonCode code then ValidatePythonCode code else ValidateGoCode parse code.

(** The executor's check before a run. *)
Definition executor_check `{Unicode} (parse : string → option (list string)) (code : string) : option code_error :=
  if runs_as_python code then ValidatePythonCode code else ValidateGoCode parse code.

Definition countNonBlankLines `{Unicode} (source : string) : Z :=
  Z.of_nat (length (filter (λ l, TrimSpace l ≠ "") (lines source))).

Section Properties.
Context `{Unicode}.

Lemma python_lines_None n ls :
  python_lines n ls = None ↔ ∀ l, l ∈ ls → ∀ m, python_line_error m l = None.
Proof.
  revert n. induction ls as [|l ls IH]; intros n; cbn [python_lines]; [split; [set_solver|done]|].
  assert (∀ m m', python_line_error m l = None → python_line_error m' l = None) as Hm
    by (intros m m'; unfold python_line_error; repeat case_match; done).
  destruct (python_line_error n l) as [e|] eqn:E.
  - split; [done|]. intros Hl. specialize (Hl l ltac:(by left) n). congruence.
  - rewrite IH. split; [|set_solver]. intros Hls x [->|Hx]%elem_of_cons; [by intros m; eapply Hm|auto].
Qed.

(** Python code is accepted exactly when, after the joining of its lines, every
    line that is not a comment contains no match of a blocked pattern and does not
    mention a blocked module beside an import. *)
Theorem ValidatePythonCode_spec (source : string) :
  ValidatePythonCode source = None ↔
  ∀ line, line ∈ lines (collapseBackslashContinuations source) →
    String.prefix "#" (TrimSpace line) = true ∨
    ((∀ p a b c, p ∈ pythonPatternRegexes → String.list_ascii_of_string line = a ++ b ++ c →
        denotes (body p) b → ¬ (anchored p = true → a = [])) ∧
     ¬ (str_contains line "import" = true ∧ ∃ m, m ∈ blockedModules ∧ str_contains line m = true)).
Proof.
  unfold ValidatePythonCode. rewrite python_lines_None. apply forall_proper. intros line.
  apply forall_proper. intros _. unfold python_line_error.
  destruct (String.prefix "#" (TrimSpace line)); [by split; auto|].
  destruct (existsb (λ p, MatchString p line) pythonPatternRegexes) eqn:E1.
  { split; [by intros Hx; specialize (Hx 0)|]. intros [|[Hp _]]; [done|].
    apply existsb_exists in E1 as (p & Hin & (a & b & c & Es & Hb & Ha)%pattern_matches_iff).
    apply list_elem_of_In in Hin. by destruct (Hp p a b c Hin Es Hb). }
  assert (∀ p a b c, p ∈ pythonPatternRegexes → String.list_ascii_of_string line = a ++ b ++ c →
        denotes (body p) b → ¬ (anchored p = true → a = [])) as Hpat.
  { intros p a b c Hin%list_elem_of_In Es Hb Ha. apply not_true_iff_false in E1. apply E1.
    apply existsb_exists. exists p. split; [done|]. apply pattern_matches_iff. by exists a, b, c. }
  destruct (str_contains line "import" && existsb (str_contains line) blockedModules) eqn:E2.
  - apply andb_true_iff in E2 as [Hi (m & Hm & Hc)%existsb_exists]. apply list_elem_of_In in Hm.
    split; [by intros Hx; specialize (Hx 0)|]. intros [|[_ Hn]]; [done|]. destruct Hn. eauto.
  - split; [|done]. intros _. right. split; [done|]. intros [Hi (m & Hm & Hc)].
    apply andb_false_iff in E2 as [E2|E2]; [congruence|]. apply not_true_iff_false in E2. apply E2.
    apply existsb_exists. exists m. by rewrite <- list_elem_of_In.
Qed.

Lemma trim_hash l :
  str_all is_ascii_char l = true → String.prefix "#" (TrimSpace (String "#" l)) = true.
Proof.
  intros Hl. unfold TrimSpace. cbn [str_all]. rewrite Hl, andb_true_r.
  change (is_ascii_char "#") with true. cbn [trim_left].
  change (is_space_char "#") with false. cbn [trim_right].
  change (is_space_char "#") with false. rewrite andb_false_r. by apply prefix_iff; eexists.
Qed.

(** The joining of lines hides code: behind a comment line that ends in a
    backslash any line is accepted, although to Python the comment ends with its
    line and the next line runs. *)
Theorem comment_hides_line (payload : string) :
  str_all is_ascii_char payload = true → str_mem newline payload = false →
  has_suffix (trim_right_set (String " " (String "009" (String "013" ""))) payload) (String backslash "") = false →
  ValidatePythonCode ("#" +:+ String backslash (String newline payload)) = None.
Proof.
  intros Ha Hn Hs. unfold ValidatePythonCode, collapseBackslashContinuations, lines.
  change ("#" +:+ String backslash (String newline payload))
    with (String "#" (String backslash "") +:+ String newline payload).
  rewrite (str_split_cons newline (String "#" (String backslash "")) payload) by reflexivity.
  rewrite (str_split_no_sep newline payload) by done. cbn [collapse].
  change (has_suffix (trim_right_set (String " " (String "009" (String "013" "")))
    (String "#" (String backslash ""))) (String backslash "")) with true. cbv iota.
  rewrite Hs.
  match goal with |- context [bool_decide (?b = "")] => change (bool_decide (b = "")) with false; change b with "#" end.
  change (bool_decide ("" = "")) with true. cbv iota.
  cbn [str_join]. change ("#" +:+ payload) with (String "#" payload).
  rewrite str_split_no_sep by exact Hn. cbn [python_lines].
  unfold python_line_error. by rewrite trim_hash.
Qed.

(** An import written as a raw string literal is not recognised: the back quotes
    stay in the path that is compared with the blocklist. *)
Theorem raw_import_evades (parse : string → option (list string)) (source : string) (paths : list string) :
  parse source = Some ((λ p, "`" +:+ p +:+ "`") <$> paths) →
  ValidateGoCode parse source = None.
Proof.
  intros Hp. unfold ValidateGoCode. destruct (str_contains source "import"); [|done]. rewrite Hp. clear Hp.
  assert (∀ s, ∃ t, trim_set (String dquote "") ("`" +:+ s +:+ "`") = String "`" t) as Ht.
  { intros s. unfold trim_set. change ("`" +:+ s +:+ "`") with (String "`" (s +:+ "`")).
    cbn [trim_left_set]. change (str_mem "`" (String dquote "")) with false. cbn [trim_right_set].
    change (str_mem "`" (String dquote "")) with false. rewrite andb_false_r. eauto. }
  induction paths as [|p paths IH]; [done|]. cbn [fmap list_fmap omap list_omap].
  unfold import_error at 1. destruct (Ht p) as [t ->].
  rewrite bool_decide_eq_false_2; [exact IH|].
  assert (Forall (λ b, ∀ t, String "`" t ≠ b) blocklistedGoImports) as Hb
    by (repeat constructor; discriminate).
  rewrite Forall_forall in Hb. intros Hin. by eapply Hb.
Qed.
End Properties.

Definition go_source : string :=
  "package main" +:+ String newline ("import " +:+ quote "os/exec" +:+ String newline "func main() {}").

(** The verifier takes every source with an import for Python: the Go program
    above, which imports os/exec, passes the verifier's static check whatever the
    parser says, and is the Go code that the executor's own check refuses. *)
Theorem go_checked_as_python `{Unicode} (parse : string → option (list string)) :
  parse go_source = Some [quote "os/exec"] →
  VerifyToolCode (H := ascii_tables) parse go_source = None ∧
  executor_check parse go_source = Some (BlockedImport "os/exec").
Proof.
  intros Hp. split; [vm_compute; reflexivity|].
  unfold executor_check. change (runs_as_python go_source) with false. cbv iota.
  unfold ValidateGoCode. rewrite Hp. vm_compute. reflexivity.
Qed.

Lemma comment_hides_line_witness :
  ValidatePythonCode (H := ascii_tables) ("#" +:+ String backslash (String newline "import subprocess")) = None.
Proof. apply (comment_hides_line (H := ascii_tables) "import subprocess"); vm_compute; reflexivity. Defined.

Lemma raw_import_evades_witness :
  ValidateGoCode (H := ascii_tables) (λ _, Some ["`os/exec`"]) "import `os/exec`" = None.
Proof.
  apply (raw_import_evades (H := ascii_tables) (λ _, Some ["`os/exec`"]) "import `os/exec`" ["os/exec"]).
  reflexivity.
Defined.

Lemma go_checked_as_python_witness :
  VerifyToolCode (H := ascii_tables) (λ _, Some [quote "os/exec"]) go_source = None.
Proof. apply (go_checked_as_python (H := ascii_tables) (λ _, Some [quote "os/exec"])). reflexivity. Defined.
End Validation.

(** ** Running and verifying several tools *)
Module Skills.

Record ExecutionResult := { Stdout : string; Stderr : string; ExitCode : Z; Error : string }.
Definition zero_result : ExecutionResult := {| Stdout := ""; Stderr := ""; ExitCode := 0; Error := "" |}.

Section RunSkill.
(** [execute]: one tool on one input; [next_input]: the JSON object of its output,
    or the output wrapped in one. *)
Context {I : Type} (execute : string → I → ExecutionResult) (next_input : string → I).

(** The tools that ran and the result of the last one. *)
Fixpoint run_tools (result : ExecutionResult) (input : I) (tools : list string) : list string * ExecutionResult :=
  match tools with
  | [] => ([], result)
  | tid :: rest =>
    let result := execute tid input in
    if bool_decide (ExitCode result ≠ 0) then ([tid], result)
    else let '(ran, res) := run_tools result (next_input (Stdout result)) rest in (tid :: ran, res)
  end.

(** [toolIDs]: the skill's tools, or the error of the lookup or of their JSON. *)
Definition RunSkill (toolIDs : option (list string)) (input : I) : list string * ExecutionResult :=
  match toolIDs with
  | None => ([], {| Stdout := ""; Stderr := ""; ExitCode := -1; Error := "skill not found" |})
  | Some tools => run_tools zero_result input tools
  end.

(** A skill runs its tools in order and stops at the first that fails: what ran
    is a prefix of the skill, all of it if the result's exit code is zero, the
    result is that of the last tool that ran, and a failure comes from a tool. *)
Theorem RunSkill_stops (tools : list string) (input : I) :
  let '(ran, res) := RunSkill (Some tools) input in
  ran `prefix_of` tools ∧
  (ExitCode res = 0 → ran = tools) ∧
  (ran ≠ [] → ∃ i tid, last ran = Some tid ∧ res = execute tid i) ∧
  (ExitCode res ≠ 0 → ran ≠ []).
Proof.
  cbn [RunSkill].
  assert (∀ r0 i, let '(ran, res) := run_tools r0 i tools in
    ran `prefix_of` tools ∧ (ExitCode res = 0 → ran = tools) ∧
    (ran ≠ [] → ∃ i tid, last ran = Some tid ∧ res = execute tid i) ∧ (ran = [] → res = r0)) as Hall.
  { clear input. induction tools as [|tid tools IH]; intros r0 i; cbn [run_tools]; [done|].
    case_bool_decide as E.
    - split_and!; [by exists tools|done|eauto|done].
    - specialize (IH (execute tid i) (next_input (Stdout (execute tid i)))).
      destruct (run_tools _ _ tools) as [ran res]. destruct IH as (Hp & Hz & Hl & Hn).
      split_and!; [by apply prefix_cons|intros ->%Hz; done| |done].
      intros _. destruct ran as [|x ran]; [rewrite Hn by done; eauto|]. by apply Hl. }
  specialize (Hall zero_result input). destruct (run_tools _ _ tools) as [ran res].
  destruct Hall as (Hp & Hz & Hl & Hn). split_and!; try done.
  intros Hne ->. apply Hne. by rewrite Hn.
Qed.
End RunSkill.

Section Verify.
Context {R : Type} (zero : R) (fail : R → R).

(** The results in the order in which the goroutines deliver them: index, result,
    and whether the verification returned an error. *)
Definition deliver (res : list R) (a : nat * (R * bool)) : list R :=
  <[a.1 := if a.2.2 then fail a.2.1 else a.2.1]> res.
Definition collect (n : nat) (arrivals : list (nat * (R * bool))) : list R :=
  foldl deliver (replicate n zero) arrivals.

(** [schedule]: the order of arrival. *)
Definition VerifyMultipleTools (verify : string → R * bool) (toolIDs : list string)
    (schedule : list (nat * (R * bool)) → list (nat * (R * bool))) : list R :=
  collect (length toolIDs) (schedule (imap (λ i t, (i, verify t)) toolIDs)).

Lemma deliver_length (arrivals : list (nat * (R * bool))) (res : list R) : length (foldl deliver res arrivals) = length res.
Proof.
  revert res. induction arrivals as [|a l IH]; intros res; [done|]. cbn. rewrite IH. apply length_insert.
Qed.

Lemma deliver_other (arrivals : list (nat * (R * bool))) (res : list R) i :
  i ∉ arrivals.*1 → foldl deliver res arrivals !! i = res !! i.
Proof.
  revert res. induction arrivals as [|a l IH]; intros res Hi; [done|].
  cbn in Hi |- *. apply not_elem_of_cons in Hi as [Hne Hi]. rewrite IH by done.
  by apply list_lookup_insert_ne.
Qed.

Lemma deliver_own (arrivals : list (nat * (R * bool))) (res : list R) (i : nat) (r : R * bool) :
  NoDup arrivals.*1 → (i, r) ∈ arrivals → (i < length res)%nat →
  foldl deliver res arrivals !! i = Some (if r.2 then fail r.1 else r.1).
Proof.
  revert res. induction arrivals as [|a l IH]; intros res Hd Hin Hi; [by apply not_elem_of_nil in Hin|].
  cbn in Hd |- *. apply NoDup_cons in Hd as [Hn Hd]. apply elem_of_cons in Hin as [<-|Hin].
  - rewrite deliver_other by done. cbn. by apply list_lookup_insert_eq.
  - apply IH; [done|done|]. unfold deliver. by rewrite length_insert.
Qed.

(** Verifying several tools at once gives each tool its own result, in the order
    of the request, whatever order the goroutines finish in. *)
Theorem VerifyMultipleTools_order (verify : string → R * bool) (toolIDs : list string)
    (schedule : list (nat * (R * bool)) → list (nat * (R * bool))) :
  (∀ l, schedule l ≡ₚ l) →
  VerifyMultipleTools verify toolIDs schedule =
    (λ t, if (verify t).2 then fail (verify t).1 else (verify t).1) <$> toolIDs.
Proof.
  intros Hs. unfold VerifyMultipleTools, collect. apply list_eq_same_length with (length toolIDs).
  - apply length_fmap.
  - by rewrite deliver_length, length_replicate.
  - intros i x y Hi. rewrite list_lookup_fmap.
    destruct (lookup_lt_is_Some_2 toolIDs i Hi) as [t Ht]. rewrite Ht. cbn.
    rewrite (deliver_own _ _ i (verify t)); [congruence| | |by rewrite length_replicate].
    + rewrite Hs, fmap_imap. cbn.
      replace (imap _ toolIDs) with (seq 0 (length toolIDs)); [apply NoDup_seq|].
      apply list_eq. intros j. rewrite list_lookup_imap. cbn.
      destruct (toolIDs !! j) eqn:E; cbn.
      * apply lookup_seq. apply lookup_lt_Some in E. lia.
      * apply lookup_ge_None in E. apply lookup_seq_ge. lia.
    + rewrite Hs. apply elem_of_lookup_imap. eauto.
Qed.
End Verify.

Lemma VerifyMultipleTools_order_witness :
  VerifyMultipleTools 0 (λ x, - x) (λ t, (str_len t, bool_decide (t = ""))) ["a"; ""; "bc"] (@reverse _)
  = [1; 0; 2].
Proof.
  refine (VerifyMultipleTools_order 0 (λ x, - x) (λ t, (str_len t, bool_decide (t = ""))) ["a"; ""; "bc"]
    (@reverse _) _).
  intros l. apply reverse_Permutation.
Defined.
End Skills.
