(* ===== verification/Mcp.v ===== *)
(** * The monitor of MCP tool processes (internal/mcp/health.go, jsonrpc.go)

    Module Monitor: a check of the subprocess as a step from monitor to monitor.
    The outcome of the ping, the outcome of a restart and the tool that the map's
    iteration yields first are arguments.  Module JsonRpc: the message envelope;
    JSON texts are opaque. *)

From S2P Require Import Prelude GoStrings.

Module Monitor.

Inductive ToolHealthStatus := ToolStatusUp | ToolStatusDown | ToolStatusUnknown.
#[global] Instance status_eq_dec : EqDecision ToolHealthStatus.
Proof. solve_decision. Defined.

Inductive last_error :=
| NoError
| PingError (msg : string)
| RestartFailed (msg : string)
| DownAfter (failures : Z).

Record ToolHealth := {
  Status : ToolHealthStatus; LastPing : Time; LastError : last_error; RestartCount : Z;
}.
Definition new_health : ToolHealth :=
  {| Status := ToolStatusUnknown; LastPing := 0; LastError := NoError; RestartCount := 0 |}.

(** [restarter]: whether the transport can restart the subprocess. *)
Record ToolHealthMonitor := {
  tools : gmap string ToolHealth; consecutive : Z; toolFailCount : Z; restarter : bool;
}.

Definition NewToolHealthMonitor (toolName : string) (r : bool) : ToolHealthMonitor :=
  {| tools := {[ toolName := new_health ]}; consecutive := 3; toolFailCount := 0; restarter := r |}.

Definition UpdateToolName (name : string) (m : ToolHealthMonitor) : ToolHealthMonitor :=
  match tools m !! name with
  | Some _ => m
  | None => {| tools := <[name := new_health]> (tools m); consecutive := consecutive m;
               toolFailCount := toolFailCount m; restarter := restarter m |}
  end.

Definition GetLatestStatus (toolName : string) (m : ToolHealthMonitor) : ToolHealthStatus :=
  match tools m !! toolName with Some th => Status th | None => ToolStatusUnknown end.

Definition ConsecutiveFailures (toolName : string) (m : ToolHealthMonitor) : Z :=
  match tools m !! toolName with Some _ => toolFailCount m | None => 0 end.

Definition set_tool (name : string) (th : ToolHealth) (fails : Z) (m : ToolHealthMonitor) : ToolHealthMonitor :=
  {| tools := <[name := th]> (tools m); consecutive := consecutive m; toolFailCount := fails;
     restarter := restarter m |}.

(** [first]: the name that the iteration over the map yields first, the empty
    string if there is none; [ping] and [restart]: nil or the error's text. *)
Definition checkOnce (first : gmap string ToolHealth → string) (now : Time) (ping restart : option string)
    (m : ToolHealthMonitor) : ToolHealthMonitor :=
  let toolName := first (tools m) in
  if bool_decide (toolName = "") then m
  else match tools m !! toolName with
  | None => m
  | Some th =>
    match ping with
    | None => set_tool toolName {| Status := ToolStatusUp; LastPing := now; LastError := NoError;
                                   RestartCount := RestartCount th |} 0 m
    | Some msg =>
      let failures := wrap64 (toolFailCount m + 1) in
      if bool_decide (failures < consecutive m) then
        set_tool toolName {| Status := ToolStatusDown; LastPing := now; LastError := PingError msg;
                             RestartCount := RestartCount th |} failures m
      else
        let restarts := wrap64 (RestartCount th + 1) in
        match restarter m, restart with
        | true, None =>
          set_tool toolName {| Status := ToolStatusUnknown; LastPing := now; LastError := PingError msg;
                               RestartCount := restarts |} 0 m
        | true, Some e =>
          set_tool toolName {| Status := ToolStatusDown; LastPing := now; LastError := RestartFailed e;
                               RestartCount := restarts |} failures m
        | false, _ =>
          set_tool toolName {| Status := ToolStatusDown; LastPing := now; LastError := DownAfter failures;
                               RestartCount := restarts |} failures m
        end
    end
  end.

Section OneTool.
(** The iteration yields a name of the map. *)
Context (first : gmap string ToolHealth → string)
        (first_in : ∀ m, m ≠ ∅ → is_Some (m !! first m)).
Context (toolName : string) (named : toolName ≠ "").

(** A run: the outcomes of the pings, each with that of the restart it would cause. *)
Abbreviation outcome := (Time * option string * option string)%type.
Definition run (m : ToolHealthMonitor) (os : list outcome) : ToolHealthMonitor :=
  foldl (λ m o, checkOnce first o.1.1 o.1.2 o.2 m) m os.

(** What a monitor of one tool is after a number of checks. *)
Definition one_tool (r : bool) (th : ToolHealth) (fails : Z) (m : ToolHealthMonitor) : Prop :=
  tools m = {[ toolName := th ]} ∧ consecutive m = 3 ∧ toolFailCount m = fails ∧ restarter m = r.

Lemma first_one th : first {[ toolName := th ]} = toolName.
Proof.
  destruct (first_in {[ toolName := th ]}) as [x Hx].
  - apply map_non_empty_singleton.
  - by apply lookup_singleton_Some in Hx as [<- _].
Qed.

Lemma set_tool_one r th th' fails fails' m :
  one_tool r th fails m → one_tool r th' fails' (set_tool toolName th' fails' m).
Proof.
  intros (Ht & Hc & _ & Hr). unfold set_tool, one_tool. cbn. by rewrite Ht, insert_singleton_eq.
Qed.

Lemma check_one r th fails m now ping restart :
  one_tool r th fails m → 0 ≤ fails < 2 ^ 62 →
  ∃ th' fails', one_tool r th' fails' (checkOnce first now ping restart m) ∧ LastPing th' = now ∧
    match ping with
    | None => Status th' = ToolStatusUp ∧ fails' = 0 ∧ RestartCount th' = RestartCount th
    | Some _ =>
      if bool_decide (fails < 2) then
        Status th' = ToolStatusDown ∧ fails' = fails + 1 ∧ RestartCount th' = RestartCount th
      else
        RestartCount th' = wrap64 (RestartCount th + 1) ∧
        if r && bool_decide (restart = None) then Status th' = ToolStatusUnknown ∧ fails' = 0
        else Status th' = ToolStatusDown ∧ fails' = fails + 1
    end.
Proof.
  intros Hm Hf. pose proof Hm as (Ht & Hc & Hfc & Hr). unfold checkOnce. rewrite Ht, first_one.
  rewrite bool_decide_eq_false_2 by done. rewrite lookup_singleton_eq, Hfc, Hc, Hr.
  rewrite wrap64_id by (unfold is_int64, min_int64, max_int64; lia).
  destruct ping as [msg|].
  2: { eexists _, _. split; [by eapply set_tool_one|]. done. }
  destruct (decide (fails < 2)).
  - rewrite !bool_decide_eq_true_2 by lia. eexists _, _. split; [by eapply set_tool_one|]. done.
  - rewrite !bool_decide_eq_false_2 by lia.
    destruct r; [destruct restart|]; cbn; eexists _, _; (split; [by eapply set_tool_one|]); done.
Qed.

Definition failed (o : outcome) : bool := bool_decide (o.1.2 ≠ None).
Definition failures (os : list outcome) : Z := Z.of_nat (length (filter (λ o, failed o = true) os)).

Lemma monitor_run_snoc m os o : run m (os ++ [o]) = checkOnce first o.1.1 o.1.2 o.2 (run m os).
Proof. unfold run. by rewrite foldl_app. Qed.

Lemma failures_snoc os o : failures (os ++ [o]) = failures os + if failed o then 1 else 0.
Proof.
  unfold failures. rewrite filter_app, filter_cons, filter_nil, length_app.
  destruct (failed o); [rewrite decide_True by done|rewrite decide_False by done]; cbn; lia.
Qed.

Lemma failures_length os : 0 ≤ failures os ≤ Z.of_nat (length os).
Proof.
  unfold failures. pose proof (length_filter (λ o, failed o = true) os). lia.
Qed.

(** What the status says about the last ping. *)
Definition status_ok (os : list outcome) (st : ToolHealthStatus) : Prop :=
  match last os with
  | None => st = ToolStatusUnknown
  | Some o => st = ToolStatusUp ↔ failed o = false
  end.

Lemma status_snoc os o st :
  (failed o = false → st = ToolStatusUp) → (failed o = true → st ≠ ToolStatusUp) → status_ok (os ++ [o]) st.
Proof.
  intros H1 H2. unfold status_ok. rewrite last_snoc. destruct (failed o); [|by auto].
  split; [by intros ->; destruct H2|done].
Qed.

(** With a transport whose restarts succeed, the monitor restarts after every
    third failure in a row: the failure counter never reaches three between
    checks, each restart took three failed pings, and the tool is reported up
    exactly when the last ping succeeded. *)
Theorem monitor_restarts (os : list outcome) :
  Forall (λ o, o.2 = None) os → Z.of_nat (length os) < 2 ^ 62 →
  ∃ th fails, one_tool true th fails (run (NewToolHealthMonitor toolName true) os) ∧
    0 ≤ fails ≤ 2 ∧ 0 ≤ RestartCount th ∧ 3 * RestartCount th + fails ≤ failures os ∧
    status_ok os (Status th).
Proof.
  induction os as [|o os IH] using rev_ind; intros Hok Hlen.
  { exists new_health, 0. done. }
  apply Forall_app in Hok as [Hok Ho]. apply Forall_inv in Ho. rewrite length_app in Hlen. cbn in Hlen.
  destruct IH as (th & fails & Hm & Hf & Hr0 & Hr & _); [done|lia|]. pose proof (failures_length os).
  rewrite monitor_run_snoc, failures_snoc.
  destruct (check_one true th fails _ o.1.1 o.1.2 o.2 Hm) as (th' & fails' & Hm' & _ & Hc); [lia|].
  exists th', fails'. split; [done|]. destruct o as [[now ping] rst]. cbn [fst snd] in *. subst rst.
  unfold failed. cbn [fst snd]. destruct ping as [msg|].
  - rewrite (bool_decide_eq_true_2 (Some msg ≠ None)) by done. case_bool_decide as Hlt.
    + destruct Hc as (Hst & -> & ->). split_and!; try lia. apply status_snoc; [done|]. by rewrite Hst.
    + destruct Hc as [-> [Hst ->]]. rewrite wrap64_id by (unfold is_int64, min_int64, max_int64; lia).
      split_and!; try lia. apply status_snoc; [done|]. by rewrite Hst.
  - destruct Hc as (Hst & -> & ->). rewrite (bool_decide_eq_false_2 (None ≠ None)) by naive_solver.
    split_and!; try lia. by apply status_snoc.
Qed.

(** Without a restarter nothing is restarted, but the restart counter grows:
    after [n] failed pings and nothing else it shows [n - 2] restarts. *)
Theorem restart_count_without_restarter (os : list outcome) :
  Forall (λ o, failed o = true) os → Z.of_nat (length os) < 2 ^ 62 →
  ∃ th, one_tool false th (Z.of_nat (length os)) (run (NewToolHealthMonitor toolName false) os) ∧
    RestartCount th = Z.max 0 (Z.of_nat (length os) - 2).
Proof.
  induction os as [|o os IH] using rev_ind; intros Hok Hlen; [by exists new_health|].
  apply Forall_app in Hok as [Hok Ho]. apply Forall_inv in Ho. rewrite length_app in *. cbn in Hlen |- *.
  destruct IH as (th & Hm & Hr); [done|lia|]. rewrite monitor_run_snoc.
  destruct (check_one false th _ _ o.1.1 o.1.2 o.2 Hm) as (th' & fails' & Hm' & _ & Hc); [lia|].
  exists th'. unfold failed in Ho. apply bool_decide_eq_true_1 in Ho.
  destruct (o.1.2) as [msg|]; [|done]. replace (Z.of_nat (length os + 1)) with (Z.of_nat (length os) + 1) by lia.
  case_bool_decide as Hlt.
  - destruct Hc as (_ & -> & ->). split; [done|lia].
  - destruct Hc as [-> [_ ->]]. split; [done|].
    rewrite wrap64_id by (unfold is_int64, min_int64, max_int64; lia). lia.
Qed.
End OneTool.

(** The first key, for concrete runs. *)
Definition first_key (m : gmap string ToolHealth) : string :=
  match map_to_list m with (k, _) :: _ => k | [] => "" end.
Lemma first_key_in m : m ≠ ∅ → is_Some (m !! first_key m).
Proof.
  intros Hm. unfold first_key. destruct (map_to_list m) as [|[k v] l] eqn:E.
  - by apply map_to_list_empty_iff in E.
  - exists v. apply elem_of_map_to_list. rewrite E. by left.
Qed.

Lemma monitor_restarts_witness :
  ∃ th fails, one_tool "t" true th fails
    (run first_key (NewToolHealthMonitor "t" true) [(1, Some "e", None); (2, Some "e", None); (3, Some "e", None)]) ∧
    0 ≤ fails ≤ 2 ∧ 0 ≤ RestartCount th ∧
    3 * RestartCount th + fails ≤ failures [(1, Some "e", None); (2, Some "e", None); (3, Some "e", None)] ∧
    status_ok [(1, Some "e", None); (2, Some "e", None); (3, Some "e", None)] (Status th).
Proof.
  apply (monitor_restarts first_key first_key_in "t"); [done|by repeat constructor|vm_compute; reflexivity].
Defined.

Lemma restart_count_without_restarter_witness :
  ∃ th, one_tool "t" false th 5
    (run first_key (NewToolHealthMonitor "t" false) (replicate 5 (1, Some "e", None))) ∧
    RestartCount th = Z.max 0 (5 - 2).
Proof.
  refine (restart_count_without_restarter first_key first_key_in "t" _ (replicate 5 (1, Some "e", None)) _ _);
    [done|by repeat constructor|vm_compute; reflexivity].
Defined.
End Monitor.

(** ** The message envelope (jsonrpc.go) *)
Module JsonRpc.

Definition JSONRPCVersion : string := "2.0".
Record JSONRPCRequest := { Jsonrpc : string; ReqID : option Z; Method : string; Params : option string }.
Inductive rpc_error := EmptyMethod | MarshalParams | BadVersion (v : string) | NilID.

(** [params]: nil, or what marshalling the parameters gives. *)
Definition NewRequest (method : string) (params : option (result unit string)) : result rpc_error JSONRPCRequest :=
  if bool_decide (method = "") then Err EmptyMethod
  else match params with
  | None => Ok {| Jsonrpc := JSONRPCVersion; ReqID := Some 1; Method := method; Params := None |}
  | Some (Err _) => Err MarshalParams
  | Some (Ok raw) => Ok {| Jsonrpc := JSONRPCVersion; ReqID := Some 1; Method := method; Params := Some raw |}
  end.

Definition Validate (r : JSONRPCRequest) : option rpc_error :=
  if bool_decide (Jsonrpc r ≠ JSONRPCVersion) then Some (BadVersion (Jsonrpc r))
  else match ReqID r with
  | None => Some NilID
  | Some _ => if bool_decide (Method r = "") then Some EmptyMethod else None
  end.

(** Every request that is made is valid, and a request is refused only for an
    empty method or parameters that cannot be written as JSON. *)
Lemma NewRequest_valid method params :
  match NewRequest method params with
  | Ok r => Validate r = None ∧ Method r = method
  | Err EmptyMethod => method = ""
  | Err e => e = MarshalParams ∧ params = Some (Err ())
  end.
Proof.
  unfold NewRequest. case_bool_decide as Hm; [done|].
  destruct params as [[raw|[]]|]; [|done|]; unfold Validate; cbn; by rewrite !bool_decide_eq_false_2 by naive_solver.
Qed.
End JsonRpc.
