(* ===== verification/Diagnostic.v ===== *)
(** * Error diagnostics (internal/diagnostic/patterns.go)

    Errors are classified into six patterns, counted by pattern and component, rated
    by severity and summed up by subsystem.  [DiagnosticMonitor.patterns] is a map of
    pointers that only the monitor changes, so it is a map of records here; the
    formatted time is an argument. *)

From S2P Require Import Prelude GoStrings.

Module Diagnostic.

Record ErrorPattern := {
  ID : string; Type_ : string; Description : string; Severity : string; Component : string;
  Count : Z; FirstSeen : string; LastSeen : string; RootCause : string; Suggestion : string;
}.

Definition PatternTimeout : string := "timeout".
Definition PatternAuth : string := "auth_failure".
Definition PatternDataIntegrity : string := "data_integrity".
Definition PatternResourceExhaustion : string := "resource_exhaustion".
Definition PatternDependencyFailure : string := "dependency_failure".
Definition PatternConfiguration : string := "configuration".

Definition SeverityLow : string := "low".
Definition SeverityMedium : string := "medium".
Definition SeverityHigh : string := "high".
Definition SeverityCritical : string := "critical".

Section Diagnostic.
Context `{Unicode}.

Definition containsAny (s : string) (substrs : list string) : bool :=
  let lower := ToLower s in existsb (λ sub, str_contains lower (ToLower sub)) substrs.

Definition truncate (s : string) (maxLen : Z) : string :=
  if bool_decide (str_len s ≤ maxLen) then s else str_take (Z.to_nat (maxLen - 3)) s +:+ "...".

Definition ClassifyError (code msg : string) : string :=
  if bool_decide (code ∈ ["ERR_DEADLINE_EXCEEDED"; "ERR_UNAVAILABLE"]) then PatternTimeout
  else if bool_decide (code ∈ ["ERR_UNAUTHORIZED"; "ERR_FORBIDDEN"]) then PatternAuth
  else if bool_decide (code ∈ ["ERR_NOT_FOUND"; "ERR_VALIDATION"]) then PatternDataIntegrity
  else if containsAny msg ["timeout"; "deadline"; "context canceled"; "TIMED OUT"] then PatternTimeout
  else if containsAny msg ["auth"; "unauthorized"; "forbidden"; "permission"; "token"] then PatternAuth
  else if containsAny msg ["checksum"; "corrupt"; "not found"; "missing"; "invalid data"] then PatternDataIntegrity
  else if containsAny msg ["OOM"; "memory"; "connection refused"; "too many"; "resource"] then PatternResourceExhaustion
  else if containsAny msg ["NLP"; "grpc"; "upstream"; "dependency"; "external"] then PatternDependencyFailure
  else if containsAny msg ["config"; "env"; "invalid argument"; "misconfig"] then PatternConfiguration
  else PatternTimeout.

(** The thresholds by pattern; what they do not decide goes by the impact. *)
Definition by_pattern (patternType : string) (count : Z) : option string :=
  if bool_decide (patternType = PatternAuth) then
    if bool_decide (count >= 5) then Some SeverityCritical
    else if bool_decide (count >= 3) then Some SeverityHigh else None
  else if bool_decide (patternType = PatternDataIntegrity) then
    if bool_decide (count >= 3) then Some SeverityCritical else None
  else if bool_decide (patternType = PatternResourceExhaustion) then
    if bool_decide (count >= 3) then Some SeverityHigh else None
  else if bool_decide (patternType = PatternDependencyFailure) then
    if bool_decide (count >= 5) then Some SeverityHigh else None
  else if bool_decide (patternType = PatternTimeout) then
    if bool_decide (count >= 10) then Some SeverityHigh else None
  else None.

Definition AssessSeverity (patternType : string) (count : Z) (impact : string) : string :=
  let highImpact := containsAny impact ["user"; "data"; "production"; "critical"] in
  match by_pattern patternType count with
  | Some s => s
  | None =>
    if highImpact then if bool_decide (count >= 2) then SeverityHigh else SeverityMedium
    else if bool_decide (count >= 5) then SeverityMedium else SeverityLow
  end.

Definition RootCauseAnalysis (pattern : ErrorPattern) : string :=
  let type := Type_ pattern in let component := Component pattern in
  if bool_decide (type = PatternTimeout) then
    if bool_decide (component = "nlp")
    then "NLP service not responding within timeout. Possible overload or network issue."
    else "Operation timed out. Possible system overload or increased network latency."
  else if bool_decide (type = PatternAuth) then
    "Repeated authentication failures. Possible expired token, invalid credentials, or unauthorized access attempt."
  else if bool_decide (type = PatternDataIntegrity) then
    if bool_decide (component = "ingestion")
    then "Corrupted or incomplete data during ingestion. Possible checksum issue or invalid data format."
    else "Data integrity compromised. Possible data corruption or missing records."
  else if bool_decide (type = PatternResourceExhaustion) then
    "System resources exhausted. Possible memory leak, too many open connections, or CPU overload."
  else if bool_decide (type = PatternDependencyFailure) then
    "External service unavailable. Check the status of dependent services (NLP, storage, MCP)."
  else if bool_decide (type = PatternConfiguration) then
    "Configuration error or missing. Check environment variables and configuration parameters."
  else "Root cause undetermined. Manual analysis recommended.".

Definition SuggestFix (pattern : ErrorPattern) : string :=
  let type := Type_ pattern in
  if bool_decide (type = PatternTimeout) then "Increase timeouts, check network connection, reduce service load."
  else if bool_decide (type = PatternAuth) then "Check credentials, renew tokens, verify user permissions."
  else if bool_decide (type = PatternDataIntegrity) then
    "Run checksum verification, restore from backup, check input data formats."
  else if bool_decide (type = PatternResourceExhaustion) then
    "Increase resources (memory/CPU), implement rate limiting, close unused connections."
  else if bool_decide (type = PatternDependencyFailure) then
    "Check external service status, implement circuit breaker, add retry with backoff."
  else if bool_decide (type = PatternConfiguration) then
    "Check environment variables, verify configuration files, validate parameters at startup."
  else "Manual analysis recommended.".

Definition describePattern (patternType component errMsg : string) : string :=
  if bool_decide (patternType = PatternTimeout) then "Timeout: " +:+ component +:+ " - " +:+ truncate errMsg 80
  else if bool_decide (patternType = PatternAuth) then "Authentication failed: " +:+ component
  else if bool_decide (patternType = PatternDataIntegrity) then
    "Data integrity: " +:+ component +:+ " - " +:+ truncate errMsg 80
  else if bool_decide (patternType = PatternResourceExhaustion) then "Resources exhausted: " +:+ component
  else if bool_decide (patternType = PatternDependencyFailure) then
    "Dependent service unavailable: " +:+ component
  else if bool_decide (patternType = PatternConfiguration) then "Configuration error: " +:+ component
  else "Error: " +:+ component +:+ " - " +:+ truncate errMsg 80.

(** *** The monitor *)
Record HealthIntegration := {
  GetConsecutiveFailures : string → Z;
  GetToolHealthStatus : string → string;
}.

Record DiagnosticMonitor := {
  patterns : gmap string ErrorPattern;
  alertCount : Z;
  history : option HealthIntegration;
}.

Definition NewDiagnosticMonitor (count : Z) (hi : option HealthIntegration) : DiagnosticMonitor :=
  {| patterns := ∅; alertCount := if bool_decide (count ≤ 0) then 3 else count; history := hi |}.

Definition pattern_key (patternType component : string) : string := patternType +:+ ":" +:+ component.

Definition with_advice (p : ErrorPattern) : ErrorPattern :=
  {| ID := ID p; Type_ := Type_ p; Description := Description p; Severity := Severity p;
     Component := Component p; Count := Count p; FirstSeen := FirstSeen p; LastSeen := LastSeen p;
     RootCause := RootCauseAnalysis p; Suggestion := SuggestFix p |}.

(** A pattern seen again, and one seen for the first time. *)
Definition seen_again (now patternType impact : string) (p : ErrorPattern) : ErrorPattern :=
  let count := wrap64 (Count p + 1) in
  with_advice
    {| ID := ID p; Type_ := Type_ p; Description := Description p;
       Severity := AssessSeverity patternType count impact; Component := Component p;
       Count := count; FirstSeen := FirstSeen p; LastSeen := now;
       RootCause := RootCause p; Suggestion := Suggestion p |}.

Definition first_seen (now patternType errMsg component impact : string) : ErrorPattern :=
  with_advice
    {| ID := pattern_key patternType component; Type_ := patternType;
       Description := describePattern patternType component errMsg;
       Severity := AssessSeverity patternType 1 impact; Component := component;
       Count := 1; FirstSeen := now; LastSeen := now; RootCause := ""; Suggestion := "" |}.

Definition RecordError (now code errMsg component impact : string) (dm : DiagnosticMonitor) :
    DiagnosticMonitor * ErrorPattern :=
  let patternType := ClassifyError code errMsg in
  let key := pattern_key patternType component in
  let p := match patterns dm !! key with
           | Some existing => seen_again now patternType impact existing
           | None => first_seen now patternType errMsg component impact
           end in
  ({| patterns := <[key := p]> (patterns dm); alertCount := alertCount dm; history := history dm |}, p).

Definition severityRank (s : string) : Z :=
  if bool_decide (s = SeverityCritical) then 4
  else if bool_decide (s = SeverityHigh) then 3
  else if bool_decide (s = SeverityMedium) then 2
  else if bool_decide (s = SeverityLow) then 1 else 0.

Definition is_severe (p : ErrorPattern) : bool :=
  bool_decide (Severity p = SeverityHigh) || bool_decide (Severity p = SeverityCritical).

(** The order of iteration over the map is arbitrary: [ps] are its values. *)
Definition GetCriticalPatterns (ps : list ErrorPattern) : list ErrorPattern :=
  filter (λ p, is_severe p = true) ps.

Definition ShouldAlert (dm : DiagnosticMonitor) (p : ErrorPattern) : bool :=
  bool_decide (Count p >= alertCount dm) && is_severe p.

Definition CorrelateWithHealth (dm : DiagnosticMonitor) (p : ErrorPattern) : bool :=
  match history dm with
  | None => false
  | Some h =>
    if bool_decide (Component p = "") then false
    else
      let consecutive := GetConsecutiveFailures h (Component p) in
      let status := GetToolHealthStatus h (Component p) in
      bool_decide (consecutive >= alertCount dm) || bool_decide (status = "down") || bool_decide (status = "degraded")
  end.

Record SubsystemSummary := {
  Subsystem : string; TotalErrors : Z; Patterns : Z; HighestSeverity : string;
}.

Definition subsystem_of (p : ErrorPattern) : string :=
  if bool_decide (Component p = "") then "unknown" else Component p.

Definition add_pattern (m : gmap string SubsystemSummary) (p : ErrorPattern) : gmap string SubsystemSummary :=
  let comp := subsystem_of p in
  let ss := default {| Subsystem := comp; TotalErrors := 0; Patterns := 0; HighestSeverity := SeverityLow |} (m !! comp) in
  <[comp := {| Subsystem := Subsystem ss; TotalErrors := wrap64 (TotalErrors ss + Count p);
               Patterns := wrap64 (Patterns ss + 1);
               HighestSeverity := if bool_decide (severityRank (HighestSeverity ss) < severityRank (Severity p))
                                  then Severity p else HighestSeverity ss |}]> m.

(** The summaries by subsystem; their order in the result is that of a map too. *)
Definition CorrelateWithSubsystem (ps : list ErrorPattern) : gmap string SubsystemSummary := foldl add_pattern ∅ ps.

(** *** Properties *)

(** A recorded error, and the run of a new monitor. *)
Record report := { e_now : string; e_code : string; e_msg : string; e_comp : string; e_impact : string }.
Definition e_type (e : report) : string := ClassifyError (e_code e) (e_msg e).
Definition record_one (dm : DiagnosticMonitor) (e : report) : DiagnosticMonitor :=
  (RecordError (e_now e) (e_code e) (e_msg e) (e_comp e) (e_impact e) dm).1.
Definition run (es : list report) (dm : DiagnosticMonitor) : DiagnosticMonitor := foldl record_one dm es.

(** The reports of a pattern and component, and the entry they should have. *)
Definition about (t c : string) (es : list report) : list report :=
  filter (λ e, e_type e = t ∧ e_comp e = c) es.
Definition entry (t c : string) (es : list report) : option ErrorPattern :=
  match es, last es with
  | e :: _, Some z =>
    let n := Z.of_nat (length es) in
    Some (with_advice
      {| ID := pattern_key t c; Type_ := t; Description := describePattern t c (e_msg e);
         Severity := AssessSeverity t n (e_impact z); Component := c; Count := n;
         FirstSeen := e_now e; LastSeen := e_now z; RootCause := ""; Suggestion := "" |})
  | _, _ => None
  end.

Definition pattern_types : list string :=
  [PatternTimeout; PatternAuth; PatternDataIntegrity; PatternResourceExhaustion; PatternDependencyFailure;
   PatternConfiguration].

Lemma ClassifyError_type code msg : ClassifyError code msg ∈ pattern_types.
Proof. unfold ClassifyError. repeat case_match; rewrite <- (bool_decide_eq_true _); reflexivity. Qed.

Lemma pattern_key_inj t c t' c' :
  t ∈ pattern_types → t' ∈ pattern_types → pattern_key t c = pattern_key t' c' → t = t' ∧ c = c'.
Proof.
  intros Ht Ht' E.
  assert (∀ u, u ∈ pattern_types → str_mem ":" u = false) as Hm
    by (intros u Hu; repeat (apply elem_of_cons in Hu as [->|Hu]; [reflexivity|]); set_solver).
  assert (str_cut ":" (pattern_key t c) = Some (t, c)) as E1 by (apply str_cut_spec; auto).
  assert (str_cut ":" (pattern_key t' c') = Some (t', c')) as E2 by (apply str_cut_spec; auto).
  rewrite E, E2 in E1. by injection E1.
Qed.

Lemma run_snoc es e dm : run (es ++ [e]) dm = record_one (run es dm) e.
Proof. unfold run. by rewrite foldl_app. Qed.

Lemma entry_snoc t c es e :
  Z.of_nat (length es) < 2 ^ 62 →
  e_type e = t → e_comp e = c →
  entry t c (es ++ [e]) = Some (match entry t c es with
                                | Some p => seen_again (e_now e) t (e_impact e) p
                                | None => first_seen (e_now e) t (e_msg e) c (e_impact e)
                                end).
Proof.
  intros Hl Ht Hc. destruct es as [|x es]; [by subst|]. unfold entry.
  change ((x :: es) ++ [e]) with (x :: (es ++ [e])). cbn iota.
  rewrite (app_comm_cons es [e] x), last_snoc. cbn iota beta. destruct (last (x :: es)) as [z|] eqn:El; [|by apply last_None in El].
  unfold seen_again, with_advice. cbn [ID Type_ Description Component Count FirstSeen].
  assert (wrap64 (Z.of_nat (length (x :: es)) + 1) = Z.of_nat (length (x :: es ++ [e]))) as ->.
  { rewrite wrap64_id; [cbn [length]; rewrite length_app; cbn [length]; lia|].
    unfold is_int64, min_int64, max_int64. lia. }
  done.
Qed.

(** The monitor counts exactly: after any sequence of errors the entry of a
    pattern and component has the number of errors of that kind, the times of the
    first and the last one and the severity assessed from that number and the last
    impact; and there are no other entries. *)
Theorem RecordError_counts (es : list report) (count : Z) (hi : option HealthIntegration) :
  Z.of_nat (length es) < 2 ^ 62 →
  let dm := run es (NewDiagnosticMonitor count hi) in
  (∀ t c, t ∈ pattern_types → patterns dm !! pattern_key t c = entry t c (about t c es)) ∧
  (∀ k, is_Some (patterns dm !! k) → ∃ t c, t ∈ pattern_types ∧ k = pattern_key t c).
Proof.
  induction es as [|e es IH] using rev_ind; intros Hl; cbn zeta.
  { split; [done|]. intros k [p Hp]. cbn in Hp. by rewrite lookup_empty in Hp. }
  rewrite length_app in Hl. cbn [length] in Hl. destruct IH as [IH1 IH2]; [lia|].
  rewrite run_snoc. unfold record_one, RecordError. cbn [fst patterns].
  pose proof (ClassifyError_type (e_code e) (e_msg e)) as Hty. fold (e_type e) in *.
  split.
  - intros t c Ht. unfold about. rewrite filter_app, filter_cons, filter_nil. fold (about t c es).
    destruct (decide (pattern_key t c = pattern_key (e_type e) (e_comp e))) as [E|E].
    + destruct (pattern_key_inj _ _ _ _ Ht Hty E) as [-> ->].
      rewrite lookup_insert, decide_True, decide_True by done.
      rewrite entry_snoc; [|pose proof (length_filter (λ e0, e_type e0 = e_type e ∧ e_comp e0 = e_comp e) es); unfold about; lia|done|done].
      by rewrite IH1.
    + rewrite lookup_insert_ne by done. rewrite decide_False by (intros [<- <-]; done).
      rewrite app_nil_r. by apply IH1.
  - intros k [p Hp]. destruct (decide (k = pattern_key (e_type e) (e_comp e))) as [->|Hk]; [eauto|].
    rewrite lookup_insert_ne in Hp by done. eauto.
Qed.

(** Severity never goes down as errors accumulate, and only one of the four
    levels is assigned: with the same impact, a pattern that was seen more often is
    rated at least as severe. *)
Theorem AssessSeverity_monotone (t impact : string) (n m : Z) :
  n ≤ m →
  1 ≤ severityRank (AssessSeverity t n impact) ≤ severityRank (AssessSeverity t m impact) ∧
  severityRank (AssessSeverity t m impact) ≤ 4.
Proof.
  intros Hnm. unfold AssessSeverity, by_pattern.
  generalize (containsAny impact ["user"; "data"; "production"; "critical"]). intros [];
    repeat case_bool_decide; try lia; vm_compute; intuition discriminate.
Qed.

(** The sum of the counts of a subsystem's patterns. *)
Definition share (s : string) (p : ErrorPattern) : Z := if bool_decide (subsystem_of p = s) then Count p else 0.
Definition total (s : string) (ps : list ErrorPattern) : Z := foldr (λ p n, share s p + n) 0 ps.

Lemma total_perm s ps qs : ps ≡ₚ qs → total s ps = total s qs.
Proof. induction 1; cbn [total foldr]; unfold total in *; lia. Qed.

Lemma total_insert s k p (m : gmap string ErrorPattern) :
  total s (map_to_list (<[k:=p]> m)).*2 + default 0 (share s <$> m !! k)
  = share s p + total s (map_to_list m).*2.
Proof.
  assert (delete k m !! k = None) as Hd by apply lookup_delete_eq.
  assert (∀ q, total s (map_to_list (<[k:=q]> m)).*2 = share s q + total s (map_to_list (delete k m)).*2) as Hi.
  { intros q. rewrite <- insert_delete_eq.
    by rewrite (total_perm s _ _ (fmap_Permutation snd _ _ (map_to_list_insert _ k q Hd))). }
  rewrite Hi. destruct (m !! k) as [q|] eqn:E; cbn [fmap option_fmap option_map default].
  - rewrite <- (insert_id m k q E) at 2. rewrite Hi. cbn. lia.
  - rewrite delete_id by done. cbn. lia.
Qed.

(** The subsystem an error counts for. *)
Definition report_subsystem (e : report) : string := if bool_decide (e_comp e = "") then "unknown" else e_comp e.

Lemma entry_Some t c es p :
  entry t c es = Some p → Component p = c ∧ Count p = Z.of_nat (length es).
Proof. unfold entry. intros E. repeat case_match; simplify_eq. done. Qed.

Lemma run_total es count hi s :
  Z.of_nat (length es) < 2 ^ 62 →
  total s (map_to_list (patterns (run es (NewDiagnosticMonitor count hi)))).*2
  = Z.of_nat (length (filter (λ e, report_subsystem e = s) es)).
Proof.
  induction es as [|e es IH] using rev_ind; intros Hl; [done|].
  assert (Z.of_nat (length es) < 2 ^ 62) as Hes by (rewrite length_app in Hl; cbn [length] in Hl; lia).
  destruct (RecordError_counts es count hi Hes) as [Hc _]. cbn zeta in Hc.
  specialize (IH Hes). rewrite filter_app, length_app, Nat2Z.inj_add, <- IH. rewrite run_snoc.
  unfold record_one, RecordError. cbn [fst patterns]. fold (e_type e).
  pose proof (ClassifyError_type (e_code e) (e_msg e)) as Hty. fold (e_type e) in Hty.
  specialize (Hc _ (e_comp e) Hty). set (m := patterns _) in *. set (k := pattern_key _ _) in *.
  pose proof (total_insert s k (match m !! k with
     | Some existing => seen_again (e_now e) (e_type e) (e_impact e) existing
     | None => first_seen (e_now e) (e_type e) (e_msg e) (e_comp e) (e_impact e) end) m) as Ht.
  enough (share s (match m !! k with
     | Some existing => seen_again (e_now e) (e_type e) (e_impact e) existing
     | None => first_seen (e_now e) (e_type e) (e_msg e) (e_comp e) (e_impact e) end)
     = default 0 (share s <$> m !! k) + Z.of_nat (length (filter (λ e, report_subsystem e = s) [e]))) by lia.
  assert (filter (λ e, report_subsystem e = s) [e] = if bool_decide (report_subsystem e = s) then [e] else []) as ->
    by (rewrite filter_cons, filter_nil; by repeat case_decide || case_bool_decide).
  destruct (m !! k) as [p|] eqn:Ep; cbn [fmap option_fmap option_map default from_option id].
  - symmetry in Hc. apply entry_Some in Hc as [Hcomp Hn]. unfold share, subsystem_of, seen_again, with_advice.
    cbn [Component Count]. rewrite Hcomp. fold (report_subsystem e). rewrite wrap64_id.
    + case_bool_decide; cbn; lia.
    + pose proof (length_filter (λ x, e_type x = e_type e ∧ e_comp x = e_comp e) es).
      unfold about in Hn. unfold is_int64, min_int64, max_int64. lia.
  - unfold share, subsystem_of, first_seen, with_advice. cbn [Component Count]. fold (report_subsystem e).
    by case_bool_decide.
Qed.

Lemma total_snoc s ps p : total s (ps ++ [p]) = total s ps + share s p.
Proof. induction ps as [|q ps IH]; cbn [app total foldr] in *; [lia|]. fold (total s ps) (total s (ps ++ [p])). lia. Qed.

Lemma total_none s ps : Forall (λ p, subsystem_of p ≠ s) ps → total s ps = 0.
Proof.
  induction 1 as [|q qs Hq _ IH]; [done|]. cbn [total foldr]. fold (total s qs).
  unfold share. rewrite bool_decide_eq_false_2 by done. lia.
Qed.

Definition summary_ok (s : string) (ps : list ErrorPattern) (o : option SubsystemSummary) : Prop :=
  match o with
  | None => Forall (λ p, subsystem_of p ≠ s) ps
  | Some ss =>
    Subsystem ss = s ∧ TotalErrors ss = wrap64 (total s ps) ∧ Exists (λ p, subsystem_of p = s) ps ∧
    Forall (λ p, subsystem_of p = s → severityRank (Severity p) ≤ severityRank (HighestSeverity ss)) ps
  end.

Lemma correlate_ok ps s : summary_ok s ps (CorrelateWithSubsystem ps !! s).
Proof.
  induction ps as [|p ps IH] using rev_ind.
  { unfold CorrelateWithSubsystem. cbn [foldl]. rewrite lookup_empty. constructor. }
  unfold CorrelateWithSubsystem in *. rewrite foldl_app. cbn [foldl]. set (m := foldl _ _ _) in *.
  unfold add_pattern. destruct (decide (s = subsystem_of p)) as [->|Hs].
  - rewrite lookup_insert, decide_True by done. cbn [summary_ok Subsystem TotalErrors HighestSeverity].
    rewrite total_snoc. unfold share. rewrite bool_decide_eq_true_2 by done.
    rewrite Exists_app, Forall_app, Exists_cons, Forall_singleton.
    destruct (m !! subsystem_of p) as [ss|] eqn:E; cbn [default from_option id summary_ok Subsystem TotalErrors HighestSeverity] in *.
    + destruct IH as (-> & -> & Hex & Hall). rewrite swrap_add_l by lia. split_and!; [done|done|auto| |].
      * eapply Forall_impl; [exact Hall|]. cbn beta. intros q Hq Hs. specialize (Hq Hs). case_bool_decide; lia.
      * intros _. case_bool_decide; lia.
    + rewrite (total_none (subsystem_of p) ps IH).
      split_and!; [done|done|auto| |].
      * eapply Forall_impl; [exact IH|]. by intros.
      * intros _. case_bool_decide; lia.
  - rewrite lookup_insert_ne by done. destruct (m !! s) as [ss|]; cbn [summary_ok] in *.
    + destruct IH as (? & Ht & Hex & Hall). rewrite total_snoc. unfold share. rewrite bool_decide_eq_false_2 by done.
      rewrite Z.add_0_r, Exists_app, Forall_app, Forall_singleton. split_and!; auto. intros; congruence.
    + rewrite Forall_app, Forall_singleton. auto.
Qed.

(** The summary by subsystem is exact whatever the order of iteration: a
    subsystem is listed exactly when it reported an error (errors without a
    component count for "unknown"), its total is the number of errors it reported,
    and none of its patterns is more severe than the summary says. *)
Theorem subsystem_totals (es : list report) (count : Z) (hi : option HealthIntegration)
    (ps : list ErrorPattern) (s : string) :
  Z.of_nat (length es) < 2 ^ 62 →
  ps ≡ₚ (map_to_list (patterns (run es (NewDiagnosticMonitor count hi)))).*2 →
  match CorrelateWithSubsystem ps !! s with
  | Some ss =>
    TotalErrors ss = Z.of_nat (length (filter (λ e, report_subsystem e = s) es)) ∧
    Forall (λ p, subsystem_of p = s → severityRank (Severity p) ≤ severityRank (HighestSeverity ss)) ps
  | None => Forall (λ e, report_subsystem e ≠ s) es
  end.
Proof.
  intros Hl Hp. pose proof (correlate_ok ps s) as Hok. pose proof (run_total es count hi s Hl) as Ht.
  rewrite <- (total_perm s _ _ Hp) in Ht.
  destruct (CorrelateWithSubsystem ps !! s) as [ss|]; cbn [summary_ok] in Hok.
  - destruct Hok as (_ & -> & _ & Hall). split; [|done]. rewrite Ht. apply wrap64_id.
    pose proof (length_filter (λ e, report_subsystem e = s) es). unfold is_int64, min_int64, max_int64. lia.
  - pose proof (total_none s ps Hok) as E. rewrite Ht in E. apply Forall_forall. intros e He Hs.
    assert (e ∈ filter (λ e, report_subsystem e = s) es) as Hin by (by apply list_elem_of_filter).
    destruct (filter _ es); [by apply not_elem_of_nil in Hin|done].
Qed.
End Diagnostic.

(** *** Witnesses *)
#[local] Existing Instance ascii_tables.
Definition sample_reports : list report :=
  [ {| e_now := "t1"; e_code := "ERR_FORBIDDEN"; e_msg := ""; e_comp := "api"; e_impact := "" |};
    {| e_now := "t2"; e_code := ""; e_msg := "Token expired"; e_comp := "api"; e_impact := "user" |};
    {| e_now := "t3"; e_code := ""; e_msg := "OOM"; e_comp := ""; e_impact := "" |} ].

Lemma RecordError_counts_witness :
  Z.of_nat (length sample_reports) < 2 ^ 62 ∧
  (λ p, (Count p, FirstSeen p, LastSeen p, Severity p)) <$>
    patterns (run sample_reports (NewDiagnosticMonitor 0 None)) !! pattern_key PatternAuth "api"
  = Some (2, "t1", "t2", SeverityHigh).
Proof.
  assert (Z.of_nat (length sample_reports) < 2 ^ 62) as Hl by reflexivity. split; [done|].
  rewrite (proj1 (RecordError_counts sample_reports 0 None Hl) PatternAuth "api").
  - reflexivity.
  - rewrite <- (bool_decide_eq_true _). reflexivity.
Defined.

Lemma AssessSeverity_monotone_witness :
  4 ≤ 5 ∧ severityRank (AssessSeverity PatternAuth 4 "") ≤ severityRank (AssessSeverity PatternAuth 5 "").
Proof.
  assert (4 ≤ 5) as Hl by lia. split; [done|].
  apply (AssessSeverity_monotone PatternAuth "" 4 5 Hl).
Defined.

Lemma subsystem_totals_witness :
  let ps := (map_to_list (patterns (run sample_reports (NewDiagnosticMonitor 0 None)))).*2 in
  Z.of_nat (length sample_reports) < 2 ^ 62 ∧ TotalErrors <$> CorrelateWithSubsystem ps !! "api" = Some 2.
Proof.
  intros ps. assert (Z.of_nat (length sample_reports) < 2 ^ 62) as Hl by reflexivity. split; [done|].
  assert (ps ≡ₚ (map_to_list (patterns (run sample_reports (NewDiagnosticMonitor 0 None)))).*2) as Hp by apply Permutation_refl.
  pose proof (subsystem_totals sample_reports 0 None ps "api" Hl Hp) as Hs.
  clear Hp. destruct (CorrelateWithSubsystem ps !! "api") as [ss|] eqn:E.
  - destruct Hs as [Ht _]. cbn [fmap option_fmap option_map]. by rewrite Ht.
  - exfalso. revert E. vm_compute. discriminate.
Defined.
End Diagnostic.
