(* ===== verification/ToolCompiler.v ===== *)
(** * The tool compiler (internal/dsl/compiler_tool.go)

    Tool definitions are compiled to Go, Python, proto and test sources by filling
    the place holders of fixed templates.  The templates are the source's, with the
    double quotes written as single ones (none of them holds a single quote) and
    turned back by [quoted].  Validation, the dependency scan, the test of a
    generated tool against the sandbox's verifier and the registration in the
    metadata repository are modelled with it. *)

From S2P Require Import Prelude GoStrings GoText SafeIdent Repository Sandbox.

Module ToolCompiler.

Record ToolParam := { PName : string; PType : string; PRequired : bool }.
Record ToolHandler := { Language : string; EntryPoint : string }.
Record ToolDep := { DName : string; DType : string }.
Record ToolDefinition := {
  Name : string; Description : string; Inputs : list ToolParam; Outputs : list ToolParam;
  Handler : option ToolHandler; Deps : list ToolDep;
}.

Inductive ToolTemplate := TemplateDataProcessor | TemplateAPIConnector | TemplateAnalyzer.
Definition template_name (t : ToolTemplate) : string :=
  match t with
  | TemplateDataProcessor => "data_processor"
  | TemplateAPIConnector => "api_connector"
  | TemplateAnalyzer => "analyzer"
  end.

Record GeneratedTool := {
  GName : string; Template : ToolTemplate; GoCode : string; PythonCode : string; ProtoDef : string;
  TestCode : string; GInputs : list ToolParam; GOutputs : list ToolParam;
  GHandler : option ToolHandler; GDeps : list ToolDep;
}.

Definition ValidToolTypes : list string := ["string"; "float"; "int"; "bool"].

(** *** Templates *)
Definition dataProcessorGoTemplate : string := quoted ("
package tools

import (
	'context'
	'encoding/json'
	'fmt'
)

// __NAME__Input represents the input parameters for __NAME__.
type __NAME__Input struct {
__INPUT_FIELDS__
}

// __NAME__Output represents the output parameters for __NAME__.
type __NAME__Output struct {
__OUTPUT_FIELDS__
}

// Handle__NAME__ processes a data transformation request.
// __DESCRIPTION__
func Handle__NAME__(ctx context.Context, inputJSON string) (string, error) {
	var input __NAME__Input
	if err := json.Unmarshal([]byte(inputJSON), &input); err != nil {
		return '', fmt.Errorf('__NAME__: invalid input: %w', err)
	}

	// implement data transformation logic
	// Access input fields via input.FieldName
	// Use SQL queries via duckdb or aggregate in-memory

	result := __NAME__Output{
__OUTPUT_INIT__
	}

	output, err := json.Marshal(result)
	if err != nil {
		return '', fmt.Errorf('__NAME__: marshal output: %w', err)
	}
	return string(output), nil
}
").

Definition apiConnectorGoTemplate : string := quoted ("
package tools

import (
	'context'
	'encoding/json'
	'fmt'
	'io'
	'net/http'

	'github.com/ff3300/aleph-v2/internal/ssrf'
)

// __NAME__Input represents the input parameters for __NAME__.
type __NAME__Input struct {
__INPUT_FIELDS__
}

// __NAME__Output represents the output parameters for __NAME__.
type __NAME__Output struct {
__OUTPUT_FIELDS__
}

// httpClient is reused across API connector tool calls.
// Uses ssrf.NewClient() for SSRF protection (private IP blocking,
// DNS rebinding prevention, redirect validation).
var httpClient = ssrf.NewClient()

// Handle__NAME__ calls an external API and returns structured results.
// __DESCRIPTION__
func Handle__NAME__(ctx context.Context, inputJSON string) (string, error) {
	var input __NAME__Input
	if err := json.Unmarshal([]byte(inputJSON), &input); err != nil {
		return '', fmt.Errorf('__NAME__: invalid input: %w', err)
	}

	// implement API call with auth, retry, error handling
	// req, err := http.NewRequestWithContext(ctx, 'GET', url, nil)
	// resp, err := httpClient.Do(req)
	// body, err := io.ReadAll(resp.Body)

	result := __NAME__Output{
__OUTPUT_INIT__
	}

	output, err := json.Marshal(result)
	if err != nil {
		return '', fmt.Errorf('__NAME__: marshal output: %w', err)
	}
	return string(output), nil
}

func init() {
	// Ensure imports are used (required for response body reading and SSRF protection)
	var _ = io.Discard
	var _ = http.DefaultClient
	_ = ssrf.NewClient
}
").

Definition analyzerGoTemplate : string := quoted ("
package tools

import (
	'context'
	'encoding/json'
	'fmt'
	'strings'
)

// __NAME__Input represents the input parameters for __NAME__.
type __NAME__Input struct {
__INPUT_FIELDS__
}

// __NAME__Output represents the output parameters for __NAME__.
type __NAME__Output struct {
__OUTPUT_FIELDS__
}

// Handle__NAME__ analyzes input data and returns scored results.
// __DESCRIPTION__
func Handle__NAME__(ctx context.Context, inputJSON string) (string, error) {
	var input __NAME__Input
	if err := json.Unmarshal([]byte(inputJSON), &input); err != nil {
		return '', fmt.Errorf('__NAME__: invalid input: %w', err)
	}

	// implement analysis/reporting logic
	// Pattern: load input, analyze, score, return structured output

	result := __NAME__Output{
__OUTPUT_INIT__
	}

	output, err := json.Marshal(result)
	if err != nil {
		return '', fmt.Errorf('__NAME__: marshal output: %w', err)
	}
	return string(output), nil
}

// Ensure strings import is used (common in text analysis tools)
var _ = strings.ToLower
").

Definition dataProcessorPythonTemplate : string := quoted ("# python
\'\'\'__DESCRIPTION__\'\'\'
import json
import sys
from typing import Any


def handle__NAME__(
__INPUT_PARAMS__
) -> dict[str, Any]:
	\'\'\'Process data transformation for __NAME__.\'\'\'
	# TODO(data_processor): implement data transformation logic
	result = {
__OUTPUT_FIELDS__
	}
	return result


def main() -> None:
	input_json = sys.stdin.read() if not sys.stdin.isatty() else '{}'
	try:
		input_data = json.loads(input_json)
	except json.JSONDecodeError as e:
		print(json.dumps({'error': f'invalid input: {e}'}))
		sys.exit(1)
	result = handle__NAME__(" +:+ "**input_data)
	print(json.dumps(result, default=str))


if __name__ == '__main__':
	main()
").

Definition apiConnectorPythonTemplate : string := quoted ("# python
\'\'\'__DESCRIPTION__\'\'\'
import json
import sys
from typing import Any
# Network access is sandbox-gated; HTTP calls must go through the approved SSRF client


def handle__NAME__(
__INPUT_PARAMS__
) -> dict[str, Any]:
	\'\'\'Call external API for __NAME__.\'\'\'
	# TODO(api_connector): implement API call with auth, retry, error handling
	result = {
__OUTPUT_FIELDS__
	}
	return result


def main() -> None:
	input_json = sys.stdin.read() if not sys.stdin.isatty() else '{}'
	try:
		input_data = json.loads(input_json)
	except json.JSONDecodeError as e:
		print(json.dumps({'error': f'invalid input: {e}'}))
		sys.exit(1)
	result = handle__NAME__(" +:+ "**input_data)
	print(json.dumps(result, default=str))


if __name__ == '__main__':
	main()
").

Definition analyzerPythonTemplate : string := quoted ("# python
\'\'\'__DESCRIPTION__\'\'\'
import json
import re
import sys
from typing import Any


def handle__NAME__(
__INPUT_PARAMS__
) -> dict[str, Any]:
	\'\'\'Analyze data and return scored results for __NAME__.\'\'\'
	# TODO(analyzer): implement analysis/scoring logic
	result = {
__OUTPUT_FIELDS__
	}
	return result


def main() -> None:
	input_json = sys.stdin.read() if not sys.stdin.isatty() else '{}'
	try:
		input_data = json.loads(input_json)
	except json.JSONDecodeError as e:
		print(json.dumps({'error': f'invalid input: {e}'}))
		sys.exit(1)
	result = handle__NAME__(" +:+ "**input_data)
	print(json.dumps(result, default=str))


if __name__ == '__main__':
	main()
").

Definition protoTemplate : string := quoted ("syntax = 'proto3';
package tools;

option go_package = 'tools/__NAME__';

// __NAME__Input is the request message for the __NAME__ tool.
message __NAME__Input {
__INPUT_FIELDS__
}

// __NAME__Output is the response message for the __NAME__ tool.
message __NAME__Output {
__OUTPUT_FIELDS__
}

// __NAME__Service defines the RPC interface for the __NAME__ tool.
service __NAME__Service {
  rpc Execute(__NAME__Input) returns (__NAME__Output);
}
").

Definition testGoTemplate : string := quoted ("package tools

import (
	'context'
	'encoding/json'
	'testing'
)

func TestHandle__NAME__(t *testing.T) {
	input := __INPUT_JSON__
	inputJSON, _ := json.Marshal(input)

	output, err := Handle__NAME__(context.TODO(), string(inputJSON))
	if err != nil {
		t.Fatalf('Handle__NAME__() error = %v', err)
	}

	var result map[string]interface{}
	if err := json.Unmarshal([]byte(output), &result); err != nil {
		t.Fatalf('invalid JSON output: %v', err)
	}
}
").

(** *** Generation *)
Section Compiler.
Context `{Unicode}.

Definition selectTemplate (name : string) : ToolTemplate :=
  let lower := ToLower name in
  if str_contains lower "api" || str_contains lower "fetch" || str_contains lower "http" then TemplateAPIConnector
  else if str_contains lower "analyze" || str_contains lower "score" || str_contains lower "audit"
  then TemplateAnalyzer
  else TemplateDataProcessor.

Definition goType (dslType : string) : string :=
  if bool_decide (dslType = "float") then "float64"
  else if bool_decide (dslType = "int") then "int"
  else if bool_decide (dslType = "bool") then "bool" else "string".

Definition pythonType (dslType : string) : string :=
  if bool_decide (dslType = "float") then "float"
  else if bool_decide (dslType = "int") then "int"
  else if bool_decide (dslType = "bool") then "bool" else "str".

Definition protoType (dslType : string) : string :=
  if bool_decide (dslType = "float") then "double"
  else if bool_decide (dslType = "int") then "int64"
  else if bool_decide (dslType = "bool") then "bool" else "string".

Definition title (s : string) : string :=
  match s with "" => "" | String c r => ToUpper (String c "") +:+ r end.

(** A field of a generated struct, with its tag. *)
Definition go_field (p : ToolParam) : string :=
  tab +:+ title (PName p) +:+ " " +:+ goType (PType p) +:+ " `json:" +:+ q (PName p) +:+ "`".
Definition output_init (p : ToolParam) : string :=
  tab +:+ tab +:+ tab +:+ "// " +:+ title (PName p) +:+ ": zero value, TODO: implement".

Definition go_template (tmpl : ToolTemplate) : string :=
  match tmpl with
  | TemplateAPIConnector => apiConnectorGoTemplate
  | TemplateAnalyzer => analyzerGoTemplate
  | TemplateDataProcessor => dataProcessorGoTemplate
  end.

Definition go_pairs (def : ToolDefinition) : list (string * string) :=
  [ ("__NAME__", Name def); ("__NAME_TITLE__", title (Name def));
    ("__INPUT_FIELDS__", str_join nl (go_field <$> Inputs def));
    ("__OUTPUT_FIELDS__", str_join nl (go_field <$> Outputs def));
    ("__OUTPUT_INIT__", str_join nl (output_init <$> Outputs def));
    ("__DESCRIPTION__", Description def) ].

Definition renderGoHandler (def : ToolDefinition) (tmpl : ToolTemplate) : string :=
  TrimSpace (Replace (go_pairs def) (go_template tmpl)).

Definition default_val (p : ToolParam) : string :=
  if PRequired p then ""
  else if bool_decide (PType p = "string") then " = " +:+ q ""
  else if bool_decide (PType p = "int") then " = 0"
  else if bool_decide (PType p = "float") then " = 0.0"
  else if bool_decide (PType p = "bool") then " = False" else "".

Definition python_template (tmpl : ToolTemplate) : string :=
  match tmpl with
  | TemplateAPIConnector => apiConnectorPythonTemplate
  | TemplateAnalyzer => analyzerPythonTemplate
  | TemplateDataProcessor => dataProcessorPythonTemplate
  end.

Definition python_pairs (def : ToolDefinition) : list (string * string) :=
  [ ("__NAME__", Name def);
    ("__INPUT_PARAMS__",
      str_join ("," +:+ nl) ((λ p, tab +:+ PName p +:+ ": " +:+ pythonType (PType p) +:+ default_val p) <$> Inputs def));
    ("__OUTPUT_FIELDS__", str_join nl ((λ p, tab +:+ tab +:+ q (PName p) +:+ ": None,") <$> Outputs def));
    ("__DESCRIPTION__", Description def) ].

Definition renderPythonTool (def : ToolDefinition) (tmpl : ToolTemplate) : string :=
  TrimSpace (Replace (python_pairs def) (python_template tmpl)).

(** Fields are numbered from 1. *)
Definition proto_fields (ps : list ToolParam) : list string :=
  imap (λ i p, "  " +:+ protoType (PType p) +:+ " " +:+ PName p +:+ " = " +:+ Itoa (Z.of_nat i + 1) +:+ ";") ps.

Definition renderProtoDef (def : ToolDefinition) : string :=
  TrimSpace (Replace
    [ ("__NAME__", Name def); ("__INPUT_FIELDS__", str_join nl (proto_fields (Inputs def)));
      ("__OUTPUT_FIELDS__", str_join nl (proto_fields (Outputs def))) ] protoTemplate).

(** A sample value; a parameter of another type is left out. *)
Definition input_json (p : ToolParam) : option string :=
  if bool_decide (PType p = "string") then Some (q (PName p) +:+ ": " +:+ q "test_value")
  else if bool_decide (PType p = "int") then Some (q (PName p) +:+ ": 0")
  else if bool_decide (PType p = "float") then Some (q (PName p) +:+ ": 0.0")
  else if bool_decide (PType p = "bool") then Some (q (PName p) +:+ ": false") else None.

Definition renderTestCode (def : ToolDefinition) : string :=
  TrimSpace (Replace
    [ ("__NAME__", Name def);
      ("__INPUT_JSON__", "{" +:+ str_join ", " (omap input_json (Inputs def)) +:+ "}") ] testGoTemplate).

Definition compile (def : ToolDefinition) : GeneratedTool :=
  let tmpl := selectTemplate (Name def) in
  {| GName := Name def; Template := tmpl; GoCode := renderGoHandler def tmpl;
     PythonCode := renderPythonTool def tmpl; ProtoDef := renderProtoDef def; TestCode := renderTestCode def;
     GInputs := Inputs def; GOutputs := Outputs def; GHandler := Handler def; GDeps := Deps def |}.

(** [None] is the nil definition. *)
Definition CompileToolDefinition (def : option ToolDefinition) : option GeneratedTool := compile <$> def.

(** *** Validation *)
Inductive tool_error :=
| EmptyName
| BadName (name : string)
| InputType (name type : string)
| DuplicateInput (name : string)
| OutputType (name type : string)
| DuplicateOutput (name : string)
| BadLanguage (language : string)
| EmptyEntryPoint
| NoHandler
| SelfDependency (name : string).

Definition validNameRegex (s : string) : bool :=
  match s with "" => false | String c r => SafeIdent.ident_start c && str_all SafeIdent.ident_char r end.

(** The loop over the parameters: the errors, given the names seen so far. *)
Fixpoint param_errors (bad_type : string → string → tool_error) (duplicate : string → tool_error)
    (seen : gset string) (ps : list ToolParam) : list tool_error :=
  match ps with
  | [] => []
  | p :: rest =>
    (if bool_decide (PType p ∈ ValidToolTypes) then [] else [bad_type (PName p) (PType p)]) ++
    (if bool_decide (PName p ∈ seen) then [duplicate (PName p)] else []) ++
    param_errors bad_type duplicate ({[PName p]} ∪ seen) rest
  end.

Definition handler_errors (h : option ToolHandler) : list tool_error :=
  match h with
  | None => [NoHandler]
  | Some h =>
    let lang := ToLower (Language h) in
    (if bool_decide (lang ≠ "go" ∧ lang ≠ "python") then [BadLanguage (Language h)] else []) ++
    (if bool_decide (EntryPoint h = "") then [EmptyEntryPoint] else [])
  end.

Definition ValidateTool (def : ToolDefinition) : list tool_error :=
  (if bool_decide (Name def = "") then [EmptyName]
   else if negb (validNameRegex (Name def)) then [BadName (Name def)] else []) ++
  param_errors InputType DuplicateInput ∅ (Inputs def) ++
  param_errors OutputType DuplicateOutput ∅ (Outputs def) ++
  handler_errors (Handler def) ++
  (SelfDependency ∘ DName <$> filter (λ d, DName d = Name def) (Deps def)).

Inductive scan_issue := SuspiciousDependency (name : string) | SuspiciousEntryPoint (name : string).

Definition SecurityScan (def : ToolDefinition) : list scan_issue :=
  match Handler def with
  | None => []
  | Some h =>
    let bad_dep d :=
      let lower := ToLower (DName d) in
      (str_contains lower "exec" || str_contains lower "shell" || str_contains lower "system") &&
      bool_decide (DType d = "library") in
    (SuspiciousDependency ∘ DName <$> filter (λ d, bad_dep d = true) (Deps def)) ++
    (if str_contains (ToLower (EntryPoint h)) "exec" || str_contains (ToLower (EntryPoint h)) "eval"
     then [SuspiciousEntryPoint (EntryPoint h)] else [])
  end.

Inductive test_error :=
| ValidationFailed (es : list tool_error)
| ScanFailed (is_ : list scan_issue)
| VerifyFailed (e : Validation.code_error).
Record TestResult := { ToolName : string; Passed : bool; Error_ : option test_error }.

(** The definition that is rebuilt from the generated tool has no description. *)
Definition definition_of (gen : GeneratedTool) : ToolDefinition :=
  {| Name := GName gen; Description := ""; Inputs := GInputs gen; Outputs := GOutputs gen;
     Handler := GHandler gen; Deps := GDeps gen |}.

Definition TestGeneratedTool (parse : string → option (list string)) (gen : option GeneratedTool) :
    option TestResult :=
  match gen with
  | None => None
  | Some gen =>
    let fail e := {| ToolName := GName gen; Passed := false; Error_ := Some e |} in
    Some (match ValidateTool (definition_of gen) with
          | _ :: _ as es => fail (ValidationFailed es)
          | [] =>
            match SecurityScan (definition_of gen) with
            | _ :: _ as is_ => fail (ScanFailed is_)
            | [] =>
              match Validation.VerifyToolCode parse (GoCode gen) with
              | Some e => fail (VerifyFailed e)
              | None => {| ToolName := GName gen; Passed := true; Error_ := None |}
              end
            end
          end)
  end.

(** *** Registration *)
Inductive register_error := NilTool | NilRepository | CreateFailed (e : Repository.repo_error).

Definition registered_code (gen : GeneratedTool) : string :=
  match GHandler gen with
  | Some h => if bool_decide (ToLower (Language h) = "python") then PythonCode gen else GoCode gen
  | None => GoCode gen
  end.

Definition user_record (gen : GeneratedTool) : Repository.ToolRecord :=
  {| Repository.ToID := "user_" +:+ GName gen; Repository.ToName := GName gen;
     Repository.ToDescription :=
       "User-defined tool: " +:+ GName gen +:+ " (template: " +:+ template_name (Template gen) +:+ ")";
     Repository.ToCode := registered_code gen; Repository.ToCategory := "user";
     Repository.ToVersion := "0.1.0"; Repository.ToHealthStatus := "unknown";
     Repository.ToSourceType := "user" |}.

(** [ok]: whether the database executes the statement. *)
Definition RegisterTool (ok : bool) (gen : option GeneratedTool) (metaRepo : option Repository.Repo) :
    option Repository.Repo * result register_error Repository.ToolRecord :=
  match gen, metaRepo with
  | None, _ => (metaRepo, Err NilTool)
  | Some _, None => (metaRepo, Err NilRepository)
  | Some gen, Some r =>
    match Repository.CreateTool ok (user_record gen) r with
    | (r', Some e) => (Some r', Err (CreateFailed e))
    | (r', None) => (Some r', Ok (user_record gen))
    end
  end.

(** Whether the record has one of the known sources; [None] is the nil record. *)
Definition ValidateToolRecord (rec : option Repository.ToolRecord) : bool :=
  match rec with
  | None => false
  | Some rec => bool_decide (Repository.ToSourceType rec ∈ ["builtin"; "mcp"; "user"; "package"])
  end.

(** *** Properties *)
Lemma param_errors_nil bt du seen ps :
  param_errors bt du seen ps = [] ↔
  Forall (λ p, PType p ∈ ValidToolTypes) ps ∧ NoDup (PName <$> ps) ∧ Forall (λ p, PName p ∉ seen) ps.
Proof.
  revert seen. induction ps as [|p ps IH]; intros seen; cbn [param_errors fmap list_fmap].
  { split; [|done]. intros _. split_and!; constructor. }
  rewrite !Forall_cons, NoDup_cons, list_elem_of_fmap.
  assert (∀ (b : bool) (x : tool_error) l, (if b then [] else [x]) ++ l = [] ↔ b = true ∧ l = []) as Hb.
  { intros [] x l; cbn; split; [by intros ->|by intros [_ ->]|done|by intros []]. }
  assert (∀ (b : bool) (x : tool_error) l, (if b then [x] else []) ++ l = [] ↔ b = false ∧ l = []) as Hb'.
  { intros [] x l; cbn; split; [done|by intros []|by intros ->|by intros [_ ->]]. }
  rewrite Hb, Hb', bool_decide_eq_true, bool_decide_eq_false, IH. rewrite !Forall_forall.
  set_solver.
Qed.

(** A definition is valid exactly when its name is an identifier, the parameters
    have the four types and, inputs and outputs apart, different names, there is a
    handler in Go or Python with an entry point, and the tool does not depend on
    itself.  The names of the parameters may be anything. *)
Theorem ValidateTool_spec (def : ToolDefinition) :
  ValidateTool def = [] ↔
  validNameRegex (Name def) = true ∧
  Forall (λ p, PType p ∈ ValidToolTypes) (Inputs def ++ Outputs def) ∧
  NoDup (PName <$> Inputs def) ∧ NoDup (PName <$> Outputs def) ∧
  (∃ h, Handler def = Some h ∧ (ToLower (Language h) = "go" ∨ ToLower (Language h) = "python") ∧
        EntryPoint h ≠ "") ∧
  Forall (λ d, DName d ≠ Name def) (Deps def).
Proof.
  unfold ValidateTool. rewrite !app_nil, !param_errors_nil, Forall_app.
  assert ((if bool_decide (Name def = "") then [EmptyName]
           else if negb (validNameRegex (Name def)) then [BadName (Name def)] else []) = []
          ↔ validNameRegex (Name def) = true) as ->.
  { destruct (Name def) eqn:E; [by rewrite bool_decide_eq_true_2|]. rewrite bool_decide_eq_false_2 by done.
    destruct (validNameRegex _); cbn; naive_solver. }
  assert (handler_errors (Handler def) = [] ↔
    ∃ h, Handler def = Some h ∧ (ToLower (Language h) = "go" ∨ ToLower (Language h) = "python") ∧ EntryPoint h ≠ "") as ->.
  { destruct (Handler def) as [h|]; cbn; [|naive_solver].
    destruct (decide (ToLower (Language h) = "go")), (decide (ToLower (Language h) = "python")),
      (decide (EntryPoint h = "")); repeat case_bool_decide; cbn; naive_solver. }
  assert (SelfDependency ∘ DName <$> filter (λ d, DName d = Name def) (Deps def) = [] ↔
    Forall (λ d, DName d ≠ Name def) (Deps def)) as ->.
  { rewrite Forall_forall. split.
    - intros E%fmap_nil_inv d Hd Hn. assert (d ∈ filter (λ d, DName d = Name def) (Deps def)) as Hin by by apply list_elem_of_filter.
      rewrite E in Hin. by apply not_elem_of_nil in Hin.
    - intros Hd. rewrite filter_none; [done|]. by apply Forall_forall. }
  assert (∀ ps : list ToolParam, Forall (λ p, PName p ∉ (∅ : gset string)) ps) as Hempty
    by (intros ps; apply Forall_true; set_solver).
  pose proof (Hempty (Inputs def)). pose proof (Hempty (Outputs def)). tauto.
Qed.

(** What is registered is what is stored: a generated tool whose identifier is
    new is created with a valid record and the code in the language of its handler,
    every other tool is untouched, and the code is read back; registration fails
    only when the database does, or the tool exists already, and then changes no
    table. *)
Theorem RegisterTool_roundtrip (ok : bool) (gen : GeneratedTool) (r : Repository.Repo) :
  let id := "user_" +:+ GName gen in
  match RegisterTool ok (Some gen) (Some r) with
  | (Some r', Ok rec) =>
    Repository.ToID rec = id ∧ ValidateToolRecord (Some rec) = true ∧
    Repository.GetToolCode true id r' = Ok (registered_code gen) ∧
    (∀ id', id' ≠ id → Repository.GetToolCode true id' r' = Repository.GetToolCode true id' r)
  | (Some r', Err e) =>
    e = CreateFailed Repository.DbError ∧ Repository.tables r' = Repository.tables r ∧
    (ok = false ∨ is_Some (Repository.system_tools (Repository.tables r) !! id))
  | (None, _) => False
  end.
Proof.
  intros id. unfold RegisterTool, Repository.CreateTool, Repository.exec_tools, Repository.sql_insert.
  cbn [user_record Repository.ToID]. fold id.
  destruct ok; cbn [andb]; [|cbn; auto].
  case_bool_decide as Hn; cbn [Repository.exec].
  - split_and!; [done|reflexivity| |].
    + unfold Repository.GetToolCode. cbn. by rewrite lookup_insert, decide_True.
    + intros id' Hid. unfold Repository.GetToolCode. cbn. by rewrite lookup_insert_ne.
  - cbn. split_and!; [done|done|]. right. by apply not_eq_None_Some.
Qed.

(** Definitions made of ASCII text. *)
Definition ascii_text (s : string) : Prop := str_all is_ascii_char s = true.
Definition ascii_definition (def : ToolDefinition) : Prop :=
  ascii_text (Name def) ∧ ascii_text (Description def) ∧
  Forall (λ p, ascii_text (PName p)) (Inputs def ++ Outputs def).

Lemma ascii_app s t : ascii_text s → ascii_text t → ascii_text (s +:+ t).
Proof. unfold ascii_text. intros Hs Ht. by rewrite str_all_app, Hs, Ht. Qed.

Lemma ascii_join sep l : ascii_text sep → Forall ascii_text l → ascii_text (str_join sep l).
Proof.
  intros Hs. induction 1 as [|s l Hl Hr IH]; [done|]. destruct l; [done|].
  rewrite str_join_cons by done. auto using ascii_app.
Qed.

Lemma ascii_title s : ascii_text s → ascii_text (title s).
Proof.
  destruct s as [|c s]; [done|]. unfold ascii_text. cbn [title str_all]. intros [Hc Hs]%andb_true_iff.
  apply ascii_app; [|done]. unfold ascii_text, ToUpper. cbn [str_all]. rewrite Hc. cbn [andb str_map str_all].
  rewrite andb_true_r. destruct c as [[] [] [] [] [] [] [] []]; done.
Qed.

Lemma ascii_fields f ps :
  (∀ p, ascii_text (PName p) → ascii_text (f p)) → Forall (λ p, ascii_text (PName p)) ps →
  ascii_text (str_join nl (f <$> ps)).
Proof. intros Hf Hp. apply ascii_join; [done|]. apply Forall_fmap. eapply Forall_impl; [exact Hp|]. exact Hf. Qed.

#[local] Hint Resolve ascii_app ascii_title : core.

Lemma go_vals_ascii def : ascii_definition def → Forall ascii_text (go_pairs def).*2.
Proof.
  intros (Hn & Hd & [Hi Ho]%Forall_app). unfold go_pairs.
  assert (∀ p, ascii_text (PName p) → ascii_text (go_field p)) as Hf.
  { intros p Hp. unfold go_field, goType. repeat apply ascii_app; auto; repeat case_bool_decide; done. }
  assert (∀ p, ascii_text (PName p) → ascii_text (output_init p)) as Hoi.
  { intros p Hp. unfold output_init. repeat apply ascii_app; auto; done. }
  repeat constructor; cbn [snd]; auto using ascii_fields.
Qed.

(** A literal stretch of a template. *)
Definition lit (s : string) : list (ascii + nat) := inl <$> String.list_ascii_of_string s.
Lemma fill_lit vals s : fill vals (lit s) = s.
Proof.
  induction s as [|c s IH]; [done|]. cbn [lit String.list_ascii_of_string fmap list_fmap fill fill1].
  rewrite str_app_cons, str_app_nil_l. by f_equal.
Qed.

Definition go_keys : list string :=
  ["__NAME__"; "__NAME_TITLE__"; "__INPUT_FIELDS__"; "__OUTPUT_FIELDS__"; "__OUTPUT_INIT__"; "__DESCRIPTION__"].
(** The comment that holds the description, up to the handler's name. *)
Definition described : list (ascii + nat) :=
  lit "// " ++ [inr 5%nat] ++ lit (nl +:+ "func Handle") ++ [inr 0%nat] ++ lit "(".
Definition go_head : string := "ackage tools" +:+ nl +:+ nl +:+ "import (".

Lemma go_holes tmpl :
  ∃ b1 b2 d,
    holes go_keys 0 (go_template tmpl) =
      lit nl ++ (inl "p"%char :: lit go_head ++ b1 ++ described ++ b2) ++ [inl d; inl newline] ∧
    is_space_char d = false ∧
    forallb (λ h, match h with inl c => is_ascii_char c | inr _ => true end)
      (holes go_keys 0 (go_template tmpl)) = true.
Proof.
  set (hs := holes go_keys 0 (go_template tmpl)).
  set (i := default 0%nat (fst <$> list_find (λ h, h = inr 5%nat) hs)).
  set (n := length hs).
  exists (take (i - 3 - length (lit go_head) - 2) (drop (length (lit go_head) + 2) hs)),
    (take (n - 2 - (i - 3 + length described)) (drop (i - 3 + length described) hs)),
    (match hs !! (n - 2)%nat with Some (inl d) => d | _ => newline end).
  split_and!; destruct tmpl; vm_compute; reflexivity.
Qed.

(** A template between white space, filled with ASCII text and trimmed. *)
Lemma rendered pairs tpl pre c body d :
  holes pairs.*1 0 tpl = lit pre ++ (inl c :: body) ++ [inl d; inl newline] →
  str_all is_space_char pre = true → is_space_char c = false → is_space_char d = false →
  forallb (λ h, match h with inl c => is_ascii_char c | inr _ => true end) (holes pairs.*1 0 tpl) = true →
  Forall ascii_text pairs.*2 →
  TrimSpace (Replace pairs tpl) = String c (fill pairs.*2 body) +:+ String d "".
Proof.
  intros Hh Hpre Hc Hd Hasc Hv. pose proof (Replace_fill pairs _ _ Hh) as Hr.
  assert (Replace pairs tpl = pre +:+ String c (fill pairs.*2 body) +:+ String d nl) as Hr'.
  { rewrite Hr, fill_app, fill_lit, fill_app. cbn [fill fill1]. by rewrite !str_app_cons, !str_app_nil_l. }
  rewrite Hr'. apply TrimSpace_core; try done.
  rewrite <- Hr', Hr, <- Hh. by apply fill_all_vals.
Qed.

(** The shape of the generated Go code. *)
Lemma go_code_shape def tmpl :
  ascii_definition def →
  ∃ a b, renderGoHandler def tmpl =
    "p" +:+ go_head +:+ a +:+ "// " +:+ Description def +:+ nl +:+ "func Handle" +:+ Name def +:+ "(" +:+ b.
Proof.
  intros Hd. destruct (go_holes tmpl) as (b1 & b2 & d & Hh & Hsp & Hasc).
  unfold renderGoHandler. rewrite (rendered (go_pairs def) _ _ _ _ _ Hh); [|done..|by apply go_vals_ascii].
  exists (fill (go_pairs def).*2 b1), (fill (go_pairs def).*2 b2 +:+ String d ""). unfold described.
  rewrite !fill_app, !fill_lit. cbn [fill fill1]. rewrite !str_app_nil_r.
  repeat first [rewrite str_app_cons | rewrite str_app_assoc | rewrite str_app_nil_l]. done.
Qed.

(** A line of a text between two line ends. *)
Lemma line_between a p b :
  str_mem newline p = false → p ∈ Validation.lines (a +:+ nl +:+ p +:+ nl +:+ b).
Proof.
  intros Hp. unfold Validation.lines, nl. rewrite !str_app_cons, !str_app_nil_l.
  rewrite str_split_app, str_split_cons by done. apply elem_of_app. right. by left.
Qed.

(** The description is not confined to its comment: a line that follows a line
    break in the description of a tool is a line of the generated Go source of its
    own, whatever it says, and no validation looks at the description. *)
Theorem description_escapes (def : ToolDefinition) (intro payload : string) :
  ascii_definition def → str_mem newline payload = false →
  Description def = intro +:+ nl +:+ payload →
  payload ∈ Validation.lines (GoCode (compile def)) ∧
  ∀ def', Name def' = Name def → Inputs def' = Inputs def → Outputs def' = Outputs def →
    Handler def' = Handler def → Deps def' = Deps def → ValidateTool def' = ValidateTool def.
Proof.
  intros Hd Hp E. split.
  - destruct (go_code_shape def (selectTemplate (Name def)) Hd) as (a & b & Hs).
    unfold compile. cbn [GoCode]. rewrite Hs, E.
    rewrite (str_app_assoc intro), (str_app_assoc nl payload).
    pose proof (line_between ("p" +:+ go_head +:+ a +:+ "// " +:+ intro) payload
      ("func Handle" +:+ Name def +:+ "(" +:+ b) Hp) as Hl.
    rewrite !str_app_assoc in Hl. exact Hl.
  - intros def' E1 E2 E3 E4 E5. unfold ValidateTool. by rewrite E1, E2, E3, E4, E5.
Qed.

(** Tools of the API-connector template pass the test of generated tools but can
    never be executed: the template imports net/http, which the executor's check of
    Go code refuses as soon as the parser reports it. *)
Theorem api_connector_never_runs (parse : string → option (list string)) (def : ToolDefinition)
    (imports : list string) :
  ascii_definition def → selectTemplate (Name def) = TemplateAPIConnector →
  parse (GoCode (compile def)) = Some imports → Validation.quote "net/http" ∈ imports →
  ∃ e, Validation.executor_check parse (GoCode (compile def)) = Some e.
Proof.
  intros Hd Ht Hp Hin. destruct (go_code_shape def (selectTemplate (Name def)) Hd) as (a & b & Hs).
  unfold Validation.executor_check.
  assert (Validation.runs_as_python (GoCode (compile def)) = false) as ->
    by (unfold compile; cbn [GoCode]; rewrite Hs; reflexivity).
  unfold Validation.ValidateGoCode. rewrite Hp.
  assert (str_contains (GoCode (compile def)) "import" = true) as ->.
  { unfold compile. cbn [GoCode]. rewrite Hs. apply str_contains_iff.
    exists ("package tools" +:+ nl +:+ nl). unfold go_head. eexists. rewrite !str_app_assoc. reflexivity. }
  apply list_elem_of_split in Hin as (l1 & l2 & ->). rewrite omap_app. cbn [omap list_omap].
  assert (is_Some (Validation.import_error (Validation.quote "net/http"))) as [e He]
    by (exists (Validation.BlockedImport "net/http"); reflexivity).
  rewrite He. destruct (omap Validation.import_error l1) as [|e' ?]; cbn; eauto.
Qed.

Definition python_keys : list string := ["__NAME__"; "__INPUT_PARAMS__"; "__OUTPUT_FIELDS__"; "__DESCRIPTION__"].
Definition python_head : string := " python" +:+ nl +:+ quoted "\'\'\'".

Lemma python_holes tmpl :
  ∃ b d,
    holes python_keys 0 (python_template tmpl) =
      lit "" ++ (inl "#"%char :: lit python_head ++ [inr 3%nat] ++ b) ++ [inl d; inl newline] ∧
    is_space_char d = false ∧
    forallb (λ h, match h with inl c => is_ascii_char c | inr _ => true end)
      (holes python_keys 0 (python_template tmpl)) = true.
Proof.
  set (hs := holes python_keys 0 (python_template tmpl)). set (k := length (lit python_head)). set (n := length hs).
  exists (take (n - 4 - k) (drop (k + 2) hs)), (match hs !! (n - 2)%nat with Some (inl d) => d | _ => newline end).
  split_and!; destruct tmpl; vm_compute; reflexivity.
Qed.

Lemma python_vals_ascii def : ascii_definition def → Forall ascii_text (python_pairs def).*2.
Proof.
  intros (Hn & Hd & [Hi Ho]%Forall_app). unfold python_pairs.
  repeat constructor; cbn [snd]; [done| | |done]; apply ascii_join; try done; apply Forall_fmap;
    (eapply Forall_impl; [eassumption|]); intros p Hp; cbn; repeat apply ascii_app; try done.
  - unfold pythonType. by repeat case_bool_decide.
  - unfold default_val. by repeat case_match.
Qed.

(** The generated Python source is not Python: the templates are raw strings, so
    the escapes of their quotes stay in the text, and the second line of every
    source starts with a backslash outside of any string. *)
Theorem python_code_escaped (def : ToolDefinition) :
  ascii_definition def →
  ∃ rest, Validation.lines (PythonCode (compile def)) !! 1%nat = Some (String Validation.backslash rest).
Proof.
  intros Hd. destruct (python_holes (selectTemplate (Name def))) as (b & d & Hh & Hsp & Hasc).
  unfold compile, renderPythonTool. cbn [PythonCode].
  rewrite (rendered (python_pairs def) _ _ _ _ _ Hh); [|done..|by apply python_vals_ascii].
  rewrite fill_app, fill_lit. set (r := fill _ _). unfold python_head.
  rewrite !str_app_assoc, <- str_app_cons, str_app_assoc.
  rewrite (str_app_assoc nl), (str_app_assoc (quoted _)).
  change (nl +:+ quoted "\'\'\'" +:+ r +:+ String d "")
    with (String newline (quoted "\'\'\'" +:+ r +:+ String d "")).
  unfold Validation.lines. rewrite str_split_cons by done. cbn [lookup list_lookup].
  change (quoted "\'\'\'" +:+ r +:+ String d "")
    with (String Validation.backslash (quoted "'\'\'" +:+ r +:+ String d "")).
  cbn [str_split]. rewrite bool_decide_eq_false_2 by done.
  destruct (str_split newline _) as [|w ws]; cbn; eauto.
Qed.
End Compiler.

(** *** Witnesses *)
#[local] Existing Instance ascii_tables.

Definition sample_definition (name description : string) : ToolDefinition :=
  {| Name := name; Description := description;
     Inputs := [{| PName := "url"; PType := "string"; PRequired := true |}];
     Outputs := [{| PName := "size"; PType := "int"; PRequired := true |}];
     Handler := Some {| Language := "go"; EntryPoint := "Handle" |}; Deps := [] |}.

Lemma sample_definition_ascii name description :
  ascii_text name → ascii_text description → ascii_definition (sample_definition name description).
Proof. intros Hn Hd. split_and!; try done. by repeat constructor. Qed.

Lemma description_escapes_witness :
  "func init() { os.RemoveAll(`/`) }"
    ∈ Validation.lines (GoCode (compile (sample_definition "sum" ("adds" +:+ nl +:+ "func init() { os.RemoveAll(`/`) }")))).
Proof.
  apply (description_escapes _ "adds" _); [by apply sample_definition_ascii|reflexivity|reflexivity].
Defined.

Definition sample_parse (code : string) : option (list string) := Some [Validation.quote "context"; Validation.quote "net/http"].

Lemma api_connector_never_runs_witness :
  (∃ e, Validation.executor_check sample_parse (GoCode (compile (sample_definition "fetch_page" "loads a page"))) = Some e) ∧
  Passed <$> TestGeneratedTool sample_parse (CompileToolDefinition (Some (sample_definition "fetch_page" "loads a page")))
  = Some true.
Proof.
  split; [|vm_compute; reflexivity].
  apply (api_connector_never_runs _ _ [Validation.quote "context"; Validation.quote "net/http"]);
    [by apply sample_definition_ascii|reflexivity|reflexivity|right; left].
Defined.

Lemma python_code_escaped_witness :
  ∃ rest, Validation.lines (PythonCode (compile (sample_definition "sum" "adds"))) !! 1%nat
          = Some (String Validation.backslash rest).
Proof. apply python_code_escaped. by apply sample_definition_ascii. Defined.
End ToolCompiler.
