(* ===== verification/RepairFix.v ===== *)
(** * Code fixes (internal/repair/repair.go)

    The textual fixes that the repair engine applies to the source of a tool, one
    definition per function.  The notes the fixes insert are the source's, with double
    quotes written as single ones.  A fix that panics returns [None]. *)

From S2P Require Import Prelude GoStrings GoText GoRegexp.

Module RepairFix.
Import Regexp.

Section Fixes.
Context `{Unicode}.

Abbreviation has := str_contains.
Definition lines (s : string) : list string := str_split newline s.
Definition unlines (l : list string) : string := str_join nl l.

(** *** Imports *)

(** The three places for an import: the last line that starts with a parenthesis, a
    single import turned into a block, or a block after the package clause. *)
Definition into_block (code importPath : string) : option string :=
  if has code ("import (" +:+ nl) then
    match str_last_index code (nl +:+ ")") with
    | Some (S i) =>
      let before := str_take (S i) code in
      let after := str_drop (S i) code in
      Some (if has before importPath then code else before +:+ nl +:+ tab +:+ importPath +:+ after)
    | _ => None
    end
  else None.

Definition addImportToBlock (code importPath : string) : string :=
  match into_block code importPath with
  | Some code' => code'
  | None =>
    match str_index code (quoted "import '") with
    | Some importIdx =>
      let rest := str_drop importIdx code in
      match str_index rest nl with
      | Some (S n) =>
        let existingImport := str_take (S n) rest in
        str_take importIdx code +:+ "import (" +:+ nl +:+ tab +:+ str_drop 7 existingImport +:+ nl +:+
        tab +:+ importPath +:+ nl +:+ ")" +:+ str_drop (S n) rest
      | _ => code
      end
    | None =>
      if String.prefix "package " code then
        match str_index (str_drop 7 code) nl with
        | Some (S n) =>
          let pos := (7 + S n + 1)%nat in
          str_take pos code +:+ nl +:+ "import (" +:+ nl +:+ tab +:+ importPath +:+ nl +:+ ")" +:+ nl +:+
          str_drop pos code
        | _ => code
        end
      else code
    end
  end.

Definition import_when (uses : string → bool) (absent : list string) (importPath : string) (code : string) : string :=
  if uses code && forallb (λ p, negb (has code p)) absent then addImportToBlock code importPath else code.

Definition fixMissingImports (code : string) : string :=
  if negb (has code "import") then code
  else
    let code := import_when (λ c, has c "context.") [q "context"] (q "context") code in
    let code := import_when (λ c, has c "fmt.") [q "fmt"] (q "fmt") code in
    let code := import_when (λ c, has c "json.") [q "encoding/json"] (q "encoding/json") code in
    let code := import_when (λ c, has c "http.") [q "net/http"] (q "net/http") code in
    let code := import_when (λ c, has c "ioutil.") [q "io/ioutil"; q "io"] (q "io") code in
    let code := import_when (λ c, has c "strings." || has c "strings.ToLower") [q "strings"] (q "strings") code in
    let code := import_when (λ c, has c "time.") [q "time"] (q "time") code in
    import_when (λ c, has c "os.") [q "os"] (q "os") code.

Definition fixImportPath (code : string) : string :=
  Replace [ (q "context", q "context"); (q "fmt", q "fmt"); (q "encoding/json", q "encoding/json");
            (q "io/ioutil", q "io") ] code.

(** *** Syntax *)
Definition close_braces (code : string) : string :=
  let open := count_char "{" code in let close := count_char "}" code in
  if bool_decide (open > close) then code +:+ str_repeat (nl +:+ "}") (Z.to_nat (open - close)) else code.

Definition close_parens (line : string) : string :=
  let trimmed := TrimSpace line in
  if String.prefix "func " trimmed && negb (has_suffix trimmed "{") then
    let parenOpen := count_char "(" trimmed in let parenClose := count_char ")" trimmed in
    if bool_decide (parenOpen > parenClose) then line +:+ str_repeat ")" (Z.to_nat (parenOpen - parenClose)) else line
  else line.

Definition fixSyntaxError (code : string) : string := unlines (close_parens <$> lines (close_braces code)).

(** *** Replacements *)
Definition fixDeprecatedAPI (code : string) : string :=
  Replace [ ("ioutil.ReadAll", "io.ReadAll"); ("ioutil.ReadFile", "os.ReadFile");
            ("ioutil.WriteFile", "os.WriteFile"); ("ioutil.ReadDir", "os.ReadDir");
            ("ioutil.TempDir", "os.MkdirTemp"); ("ioutil.TempFile", "os.CreateTemp");
            ("ioutil.NopCloser", "io.NopCloser"); ("ioutil.Discard", "io.Discard") ] code.

Definition fixConfiguration (code : string) : string :=
  ReplaceAll code (q "localhost:8080") ("os.Getenv(" +:+ q "ALEPH_ENDPOINT" +:+ ")").

Definition fixDataPipeline (code : string) : string :=
  if has code "json.Unmarshal" && negb (has code "json.Decode") then
    replace_first code
      "if err := json.Unmarshal([]byte(inputJSON), &input); err != nil"
      ("if err := json.Unmarshal([]byte(inputJSON), &input); err != nil {" +:+ nl +:+ tab +:+ tab +:+
       quoted "return '', fmt.Errorf('unmarshal input: %w', err)" +:+ nl +:+ tab +:+ "}")
  else code.

Definition fixDataValidation (code : string) : string :=
  if negb (has code "if input.") then
    replace_first code "var input __NAME__Input"
      ("var input __NAME__Input" +:+ nl +:+ tab +:+ "// Validate required fields" +:+ nl +:+ tab +:+
       "if input == (__NAME__Input{}) {" +:+ nl +:+ tab +:+ tab +:+
       quoted "return '', fmt.Errorf('empty input provided')" +:+ nl +:+ tab +:+ "}")
  else code.

(** *** Notes after the first function *)
Definition func_decl : rx := seq_rx [Bol; word "func"; plus sp; plus wordch; word "("].

(** The text after the brace that follows the place [idx]. *)
Definition after_brace (code comment : string) (idx : nat) : option string :=
  match str_index (str_drop idx code) "{" with
  | Some (S n) => let pos := (idx + S n + 1)%nat in Some (str_take pos code +:+ comment +:+ str_drop pos code)
  | _ => None
  end.

Definition addCommentAfterFuncDecl (code comment : string) : string :=
  match str_index code "func Handle" with
  | Some idx => default (code +:+ comment) (after_brace code comment idx)
  | None =>
    match FindIndex func_decl code with
    | Some idx => default (code +:+ comment) (after_brace code comment idx)
    | None => code +:+ comment
    end
  end.

Definition http_note : string := quoted "// PERFORMANCE FIX: Multiple HTTP calls detected — consider parallelizing with goroutines:
	// var wg sync.WaitGroup
	// errCh := make(chan error, N)
	// for _, url := range urls {
	//     wg.Add(1)
	//     go func(u string) {
	//         defer wg.Done()
	//         resp, err := http.Get(u)
	//         if err != nil { errCh <- err; return }
	//         defer resp.Body.Close()
	//         // process resp
	//     }(url)
	// }
	// wg.Wait()
	// close(errCh)
".

Definition cancelBlock : string := quoted "		select {
		case <-ctx.Done():
			return '', ctx.Err()
		default:
		}".

Definition builder_note : string := quoted "
	// PERFORMANCE FIX: Use strings.Builder instead of += in loop:
	// var builder strings.Builder
	// builder.WriteString('...')
	// result := builder.String()".

Definition nested_note : string := quoted "
	// PERFORMANCE FIX: Nested loops detected — consider adding break conditions
	// or limiting inner iterations to prevent O(n²) or worse behavior:
	// for i := 0; i < len(outer); i++ {
	//     for j := 0; j < len(inner) && j < maxIterations; j++ {
	//         if condition { break }
	//     }
	// }".

Definition batch_note : string := quoted "
	// PERFORMANCE FIX: Multiple database calls detected — consider batching:
	// 1. Use a single query with JOINs instead of N+1 queries
	// 2. Use db.Query with IN clause for batch lookups
	// 3. Use transactions for multiple writes: tx, err := db.Begin()".

Definition sync_map_note : string := quoted "
	// CACHING FIX: sync.Map detected — for typed key-value caches with
	// predictable access patterns, consider sync.Pool for allocation reuse
	// or singleflight.Group to deduplicate concurrent computations.".

Definition manual_cache_note : string := quoted "
	// CACHING FIX: Manual map-based cache detected — consider using sync.Map
	// for concurrent access, or adding an LRU eviction policy with
	// time-based TTL to prevent unbounded memory growth.".

Definition timeout_note : string := quoted "
	// TIMEOUT FIX: Consider adding context cancellation and timeout propagation:
	// - Replace time.After with select on ctx.Done() for cancellation support
	// - Replace time.Sleep with select + ctx.Done() to allow cancellation
	// - Propagate context through call chains for cascading cancellation".

Definition sleep_note : string := quoted "
	// TIMEOUT FIX: time.After/time.Sleep detected — consider using
	// select on ctx.Done() instead for cancellation support".

Definition retry_note : string := quoted "
	// Retry with exponential backoff
	maxRetries := 3
	for attempt := 0; attempt < maxRetries; attempt++ {
		select {
		case <-ctx.Done():
			return '', ctx.Err()
		default:
		}
		time.Sleep(time.Duration(100*(1<<attempt)) * time.Millisecond)
		// retry logic here
	}
".

Definition fixRetry (code : string) : string :=
  if negb (has code "retry") then
    if has code "func Handle" then
      replace_first (replace_first code "func Handle" "func Handle") (tab +:+ "// TODO:") (retry_note +:+ tab +:+ "// TODO:")
    else code
  else code.

(** *** Performance *)
Definition nestedLoopPattern : rx :=
  seq_rx [word "for"; plus sp; Star (not_class "{"); word "{"; Star (not_class "}"); word "for"; plus sp].
Definition sequentialDBPattern : rx :=
  Group (seq_rx [word "db."; Star sp; alts [word "Query"; word "QueryRow"; word "Exec"]; Star sp; word "("]).
Definition httpCallPattern : rx :=
  alts [ seq_rx [word "http."; alts [word "Get"; word "Post"; word "Head"; word "Put"; word "Delete"]; Star sp; word "("];
         seq_rx [word "client.Do"; Star sp; word "("];
         seq_rx [word "http.NewRequest"; Star sp; word "("] ].

Definition httpCallCount (code : string) : Z := Z.of_nat (length (FindAll httpCallPattern code)).
Definition dbCallCount (code : string) : Z := Z.of_nat (length (FindAll sequentialDBPattern code)).
Definition addConcurrentHTTPPattern (code : string) : string := addCommentAfterFuncDecl code http_note.
Definition addNestedLoopBreakSuggestion (code : string) : string := addCommentAfterFuncDecl code nested_note.
Definition addBatchDBSuggestion (code : string) : string := addCommentAfterFuncDecl code batch_note.

Definition countBraces (line : string) : Z := count_char "{" line - count_char "}" line.

(** The lines before the last closing brace that stands alone, and from it on. *)
Fixpoint last_brace (ls : list string) : option (list string * list string) :=
  match ls with
  | [] => None
  | l :: rest =>
    match last_brace rest with
    | Some (a, b) => Some (l :: a, b)
    | None => if bool_decide (TrimSpace l = "}") then Some ([], ls) else None
    end
  end.
Definition insertBeforeLastBrace (body insert : string) : string :=
  match last_brace (lines body) with
  | Some (before, after) => unlines before +:+ nl +:+ insert +:+ nl +:+ unlines after
  | None => body +:+ nl +:+ insert
  end.

Definition starts_loop (trimmed : string) : bool :=
  String.prefix "for " trimmed || bool_decide (trimmed = "for") || String.prefix "for range" trimmed.

(** The state of the scan for loops: inside a function, and the lines and the brace
    depth of the loop that is open. *)
Fixpoint cancel_lines (inFunc : bool) (loop : option (list string * Z)) (ls : list string) : list string :=
  match ls with
  | [] => []
  | line :: rest =>
    let trimmed := TrimSpace line in
    let inFunc := inFunc || String.prefix "func " trimmed in
    if negb inFunc then line :: cancel_lines inFunc loop rest
    else
      let loop := match loop with
                  | None => if starts_loop trimmed then Some ([], 0) else None
                  | Some _ => loop
                  end in
      match loop with
      | None => line :: cancel_lines inFunc None rest
      | Some (loopLines, depth) =>
        let loopLines := loopLines ++ [line] in
        let depth := depth + countBraces line in
        let loopBody := unlines loopLines in
        if bool_decide (depth ≤ 0) then
          (if negb (has loopBody "ctx.Done()") && negb (has loopBody "ctx.Err()")
           then insertBeforeLastBrace loopBody cancelBlock else loopBody) :: cancel_lines inFunc None rest
        else cancel_lines inFunc (Some (loopLines, depth)) rest
      end
  end.
Definition addContextCancelInLoops (code : string) : string := unlines (cancel_lines false None (lines code)).

(** A text on the right of an addition. *)
Definition adds_text (trimmed : string) : bool :=
  match split2 trimmed "+=" with
  | Some (_, rhs) =>
    let rhs := TrimSpace rhs in
    String.prefix (String dquote "") rhs || String.prefix "`" rhs || has rhs "fmt.Sprint" || has rhs "strconv."
  | None => false
  end.

Fixpoint concat_in_loop (inLoop : bool) (depth : Z) (ls : list string) : bool :=
  match ls with
  | [] => false
  | line :: rest =>
    let trimmed := TrimSpace line in
    let inLoop := inLoop || starts_loop trimmed in
    if inLoop && adds_text trimmed then true
    else
      let depth := depth + countBraces line in
      concat_in_loop (inLoop && negb (bool_decide (depth ≤ 0))) depth rest
  end.
Definition hasStringConcatInLoop (code : string) : bool := concat_in_loop false 0 (lines code).

(** The variable that the first loop adds to. *)
Fixpoint added_variable (ls : list string) : string :=
  match ls with
  | [] => ""
  | l :: rest =>
    match split2 (TrimSpace l) "+=" with
    | Some (lhs, _) => TrimSpace lhs
    | None => if has (TrimSpace l) "}" && bool_decide (countBraces l < 0) then "" else added_variable rest
    end
  end.
Fixpoint loop_variable (ls : list string) : string :=
  match ls with
  | [] => ""
  | l :: rest => if starts_loop (TrimSpace l) then added_variable ls else loop_variable rest
  end.

Definition declPattern (name : string) : rx :=
  Group (Alt (seq_rx [word "var"; plus sp; word name; plus sp; word "string"])
             (seq_rx [word name; Star sp; word ":="; Star sp; word (quoted "''")])).

(** An expression with the name is compiled first, which panics if the name is not
    UTF-8.  Where the variable is declared as a string the function goes on to compile
    an expression with a negative look-ahead, which the package does not have: it
    panics whatever the replacements before it did. *)
Definition valid_utf8 (s : string) : bool := bool_decide (str_join "" (runes s) = s).
Definition fixStringConcatInLoop (code : string) : option string :=
  let varBuilderName := loop_variable (lines code) in
  if bool_decide (varBuilderName = "") then Some code
  else if negb (valid_utf8 varBuilderName) then None
  else if MatchString (declPattern varBuilderName) code then None
  else Some (addCommentAfterFuncDecl code builder_note).

Definition osReadFilePattern : rx :=
  seq_rx [word "os.ReadFile("; Star sp; ch dquote; Group (plus (not_class (String dquote ""))); ch dquote; Star sp; word ")"].

(** The paths that are read, and the first one, in the order in which the map of
    counts is visited, that is read more than once. *)
Definition read_paths (code : string) : list string :=
  omap (λ m, text <$> m.2) (FindAll osReadFilePattern code).
Definition repeatedFileRead (order : list string → list string) (code : string) : string :=
  let paths := read_paths code in
  default "" (snd <$> list_find (λ p, (1 < length (filter (p =.) paths))%nat) (order (remove_dups paths))).

Definition addFileReadCaching (code filePath : string) : string :=
  addCommentAfterFuncDecl code
    (nl +:+ tab +:+ "// PERFORMANCE FIX: File " +:+ filePath +:+
     " is read multiple times. Consider caching with sync.Once:" +:+ nl +:+
     tab +:+ "// var once sync.Once" +:+ nl +:+
     tab +:+ "// var cachedData []byte" +:+ nl +:+
     tab +:+ "// var cacheErr error" +:+ nl +:+
     tab +:+ "// once.Do(func() {" +:+ nl +:+
     tab +:+ "//     cachedData, cacheErr = os.ReadFile(" +:+ q filePath +:+ ")" +:+ nl +:+
     tab +:+ "// })" +:+ nl +:+
     tab +:+ quoted "// if cacheErr != nil { return '', cacheErr }").

Definition fixPerformance (order : list string → list string) (code : string) : option string :=
  let code := if bool_decide (httpCallCount code > 1) then addConcurrentHTTPPattern code else code in
  let code := if has code "context" then addContextCancelInLoops code else code in
  match (if hasStringConcatInLoop code then fixStringConcatInLoop code else Some code) with
  | None => None
  | Some code =>
    let path := repeatedFileRead order code in
    let code := if bool_decide (path ≠ "") then addFileReadCaching code path else code in
    let code := if MatchString nestedLoopPattern code then addNestedLoopBreakSuggestion code else code in
    Some (if bool_decide (dbCallCount code > 1) then addBatchDBSuggestion code else code)
  end.

(** *** Caching *)
Definition syncMapPattern : rx := seq_rx [word "sync.Map"; Wordb].
Definition manualCachePattern : rx :=
  Alt (seq_rx [alts [word "var"; word "map["]; Star wordch; word "_cache"; Wordb])
      (seq_rx [Wordb; word "cache"; Star sp; word ":="; Star sp; word "make(map["]).

Definition fixCaching (code : string) : string :=
  let code := if MatchString syncMapPattern code then addCommentAfterFuncDecl code sync_map_note else code in
  let code := if MatchString manualCachePattern code && negb (has code "sync.")
              then addCommentAfterFuncDecl code manual_cache_note else code in
  if negb (has code "cache") && negb (MatchString syncMapPattern code) && negb (MatchString manualCachePattern code)
  then replace_first code "func Handle"
         ("// TODO: consider adding caching/connection pooling for performance" +:+ nl +:+ "func Handle")
  else code.

(** *** Timeouts *)
Definition unit_second : rx := Cat (opt (alts [word "Milli"; word "Nano"; word "Micro"])) (word "Second").
Definition times : rx := seq_rx [plus digit; Star sp; word "*"; Star sp; word "time."; unit_second; Star sp; word ")"].
Definition contextTimeoutPattern : rx :=
  seq_rx [word "context.WithTimeout"; Star sp; word "("; Star sp; plus (not_class ","); word ","; Star sp; times].
Definition timeAfterPattern : rx := seq_rx [word "time.After"; Star sp; word "("; Star sp; times].
Definition timeSleepPattern : rx := seq_rx [word "time.Sleep"; Star sp; word "("; Star sp; times].
Definition shortTimeoutPattern : rx :=
  seq_rx [Group (plus digit); Star sp; word "*"; Star sp; word "time.Millisecond"].
Definition mediumTimeoutPattern : rx :=
  seq_rx [Group (plus digit); Star sp; word "*"; Star sp; word "time.Second"; Wordb].
Definition jsonTimeoutPattern : rx :=
  seq_rx [word (q "timeout"); Star sp; word ":"; Star sp; Group (plus digit)].

(** The callbacks see the match and its group. *)
Definition longer_seconds (m : list ascii) (val : option (list ascii)) : list ascii :=
  match text <$> val with
  | Some v =>
    if bool_decide (v = "1") then chars "10 * time.Second"
    else if bool_decide (v ∈ ["2"; "3"; "5"]) then chars "30 * time.Second" else m
  | None => m
  end.
Definition longer_json (m : list ascii) (val : option (list ascii)) : list ascii :=
  match text <$> val with
  | Some v =>
    if bool_decide (v = "1") then chars (quoted "'timeout': 10")
    else if bool_decide (v ∈ ["5"; "10"]) then chars (quoted "'timeout': 30") else m
  | None => m
  end.

Definition fixTimeout (code : string) : string :=
  let code := if MatchString contextTimeoutPattern code || MatchString timeAfterPattern code ||
                 MatchString timeSleepPattern code
              then addCommentAfterFuncDecl code timeout_note else code in
  let code := if negb (has code "TIMEOUT FIX") && (has code "time.After(" || has code "time.Sleep(")
              then addCommentAfterFuncDecl code sleep_note else code in
  let code := ReplaceAllFunc shortTimeoutPattern (λ _ _, chars "5 * time.Second") code in
  let code := ReplaceAllFunc mediumTimeoutPattern longer_seconds code in
  ReplaceAllFunc jsonTimeoutPattern longer_json code.

(** *** Properties *)
Lemma count_unlines c l :
  c ≠ newline → count_char c (unlines l) = foldr (λ s n, count_char c s + n) 0 l.
Proof.
  intros Hc. unfold unlines. induction l as [|s l IH]; [done|]. destruct l as [|t l].
  - cbn [str_join foldr]. lia.
  - rewrite str_join_cons by done. rewrite !count_char_app, IH. cbn [foldr nl count_char].
    rewrite bool_decide_eq_false_2 by congruence. lia.
Qed.

Lemma count_lines c s : c ≠ newline → foldr (λ s n, count_char c s + n) 0 (lines s) = count_char c s.
Proof. intros Hc. rewrite <- count_unlines by done. unfold unlines, lines, nl. by rewrite str_join_split. Qed.

Lemma close_parens_count c line :
  c ≠ ")"%char → count_char c (close_parens line) = count_char c line.
Proof.
  intros Hc. unfold close_parens. repeat case_match; try done.
  rewrite count_char_app, count_char_repeat. cbn [count_char]. rewrite bool_decide_eq_false_2 by congruence. lia.
Qed.

Lemma fixSyntaxError_count c code :
  c ≠ ")"%char → c ≠ newline → count_char c (fixSyntaxError code) = count_char c (close_braces code).
Proof.
  intros Hp Hn. unfold fixSyntaxError. rewrite count_unlines, <- (count_lines c (close_braces code)) by done.
  induction (lines (close_braces code)) as [|l ls IH]; [done|].
  cbn [fmap list_fmap foldr]. by rewrite IH, close_parens_count.
Qed.

(** The syntax fix balances braces: its result never has more opening than
    closing braces, it adds none where the code had enough, and it never changes the
    number of opening ones. *)
Theorem fixSyntaxError_balances (code : string) :
  count_char "{" (fixSyntaxError code) = count_char "{" code ∧
  count_char "}" (fixSyntaxError code) = Z.max (count_char "{" code) (count_char "}" code).
Proof.
  rewrite !fixSyntaxError_count by done. unfold close_braces.
  pose proof (count_char_nonneg "{" code). pose proof (count_char_nonneg "}" code).
  case_bool_decide; [|lia]. rewrite !count_char_app, !count_char_repeat, Z2Nat.id by lia.
  change (count_char "{" (nl +:+ "}")) with 0. change (count_char "}" (nl +:+ "}")) with 1. lia.
Qed.

(** The pipeline fix doubles the opening brace: where the decoding of the input
    is followed by a block, as in every generated tool, the block is left behind a
    complete one, which is not a Go statement. *)
Theorem fixDataPipeline_breaks (a b : string) :
  let call := "if err := json.Unmarshal([]byte(inputJSON), &input); err != nil" in
  let code := a +:+ call +:+ " {" +:+ b in
  str_index code call = Some (String.length a) → has code "json.Decode" = false →
  fixDataPipeline code =
    a +:+ call +:+ " {" +:+ nl +:+ tab +:+ tab +:+ quoted "return '', fmt.Errorf('unmarshal input: %w', err)" +:+
    nl +:+ tab +:+ "} {" +:+ b.
Proof.
  intros call code Hi Hd. unfold fixDataPipeline. rewrite Hd.
  assert (has code "json.Unmarshal" = true) as ->.
  { unfold code. apply str_contains_app_l, str_contains_app_r. reflexivity. }
  cbn [andb negb]. unfold replace_first. fold call. rewrite Hi. unfold code at 1 2.
  rewrite str_take_app_exact by done. f_equal.
  assert (∀ x y, str_drop (String.length x + String.length y) (x +:+ y +:+ " {" +:+ b) = " {" +:+ b) as ->.
  { intros x y. rewrite <- str_app_assoc, str_drop_app_exact; [done|]. by rewrite str_length_app. }
  unfold call. repeat rewrite str_app_assoc. reflexivity.
Qed.

(** The timeout fix feeds its own output to its next rule: a delay given in
    milliseconds becomes thirty seconds, not the five the rule for milliseconds says,
    and a minute given so becomes shorter although the fix announces longer
    timeouts. *)
Theorem fixTimeout_compounds :
  fixTimeout "d := 100 * time.Millisecond" = "d := 30 * time.Second" ∧
  fixTimeout "d := 60000 * time.Millisecond" = "d := 30 * time.Second" ∧
  fixTimeout "d := 60 * time.Second" = "d := 60 * time.Second".
Proof. split_and!; vm_compute; reflexivity. Qed.

(** The fix of a string that is built in a loop panics: it compiles an expression
    that the package does not support. *)
Theorem fixStringConcat_panics (order : list string → list string) :
  let code := unlines ["func Handle() string {"; "s := " +:+ q ""; "for i := 0; i < 3; i++ {"; "s += " +:+ q "x";
                       "}"; "return s"; "}"] in
  fixPerformance order code = None.
Proof. vm_compute. reflexivity. Qed.

(** An import is added to the last block of the file, whatever it declares: here
    it lands among the variables. *)
Theorem fixMissingImports_misplaces :
  fixMissingImports (unlines ["package tools"; "import ("; tab +:+ q "context"; ")"; "var ("; tab +:+ "x = time.Now()"; ")"])
  = unlines ["package tools"; "import ("; tab +:+ q "context"; ")"; "var ("; tab +:+ "x = time.Now()"; tab +:+ q "time"; ")"].
Proof. vm_compute. reflexivity. Qed.
End Fixes.

(** *** Witnesses *)
#[local] Existing Instance ascii_tables.
Lemma fixDataPipeline_breaks_witness :
  str_contains (fixDataPipeline "if err := json.Unmarshal([]byte(inputJSON), &input); err != nil { return }") "} { return }" = true.
Proof.
  change "if err := json.Unmarshal([]byte(inputJSON), &input); err != nil { return }"
    with ("" +:+ "if err := json.Unmarshal([]byte(inputJSON), &input); err != nil" +:+ " {" +:+ " return }").
  rewrite (fixDataPipeline_breaks "" " return }"); reflexivity.
Defined.
End RepairFix.
