(* ===== verification/Repair.v ===== *)
(** * The repair engine (internal/repair)

    Tool errors are classified, a plan of actions is made from a catalog, approved or
    rejected, and executed with verification, deployment and rollback; attempts are
    kept in a history (history.go).  The engine reads and writes tool code through the
    metadata repository (Repository.v), verifies it with the sandbox's static check
    (Sandbox.v) and regenerates it with a compiler of tool definitions, as which
    [DSLCompilerAdapter] uses ToolCompiler.v.  Whether each write of the database
    succeeds, the clock and the order of map iteration are the environment. *)

From S2P Require Import Prelude GoStrings GoValues GoText Repository Sandbox ToolCompiler RepairFix.

(** ** Attempts (history.go) *)
Module History.

Inductive RepairStatus := StatusSuccess | StatusFailed.
#[global] Instance RepairStatus_eq_dec : EqDecision RepairStatus.
Proof. solve_decision. Defined.

Section History.
Context {E : Type}.

Record RepairRecord := {
  ID : Z; RToolID : string; RPlanID : string; ActionID : string; ActionType : string;
  RStatus : RepairStatus; ErrorMsg : option E; RDuration : Duration; Timestamp : Time;
}.

Record RepairHistory := { records : list RepairRecord; nextID : Z }.

Definition NewRepairHistory : RepairHistory := {| records := []; nextID := 1 |}.

(** [now] is used when the record has no time stamp, which is the zero time. *)
Definition Record_ (now : Time) (r : RepairRecord) (h : RepairHistory) : RepairHistory :=
  {| records := records h ++
       [{| ID := nextID h; RToolID := RToolID r; RPlanID := RPlanID r; ActionID := ActionID r;
           ActionType := ActionType r; RStatus := RStatus r; ErrorMsg := ErrorMsg r;
           RDuration := RDuration r; Timestamp := if bool_decide (Timestamp r = 0) then now else Timestamp r |}];
     nextID := wrap64 (nextID h + 1) |}.

Definition GetHistory (toolID : string) (h : RepairHistory) : list RepairRecord :=
  filter (λ r, RToolID r = toolID) (records h).
Definition GetAll (h : RepairHistory) : list RepairRecord := records h.

Definition successes (l : list RepairRecord) : Z := Z.of_nat (length (filter (λ r, RStatus r = StatusSuccess) l)).
Definition rate (l : list RepairRecord) : f64 :=
  match l with
  | [] => f64_of_int 0
  | _ => f64_div (f64_of_int (successes l)) (f64_of_int (Z.of_nat (length l)))
  end.
Definition SuccessRate (toolID : string) (h : RepairHistory) : f64 := rate (GetHistory toolID h).
Definition OverallSuccessRate (h : RepairHistory) : f64 := rate (records h).

(** Records are numbered from 1 in the order they are made. *)
Lemma Record_numbers (rs : list (Time * RepairRecord)) :
  Z.of_nat (length rs) < 2 ^ 62 →
  let h := foldl (λ h r, Record_ r.1 r.2 h) NewRepairHistory rs in
  ID <$> records h = seqZ 1 (Z.of_nat (length rs)) ∧ nextID h = Z.of_nat (length rs) + 1.
Proof.
  induction rs as [|r rs IH] using rev_ind; [done|]. rewrite length_app, foldl_app. cbn [length foldl].
  intros Hl. destruct IH as [IH1 IH2]; [lia|]. cbn zeta in *. set (h := foldl _ _ rs) in *.
  cbn [Record_ records nextID]. rewrite fmap_app, IH1, IH2. split.
  - rewrite Nat2Z.inj_add, seqZ_app by lia. f_equal. cbn [fmap list_fmap ID].
    rewrite seqZ_cons by lia. cbn. f_equal. lia.
  - rewrite wrap64_id; [lia|]. unfold is_int64, min_int64, max_int64. lia.
Qed.
End History.
Arguments RepairRecord : clear implicits.
Arguments RepairHistory : clear implicits.
End History.

(** ** Plans and their execution (repair.go) *)
Module Repair.
Import History.

Definition RepairActionType : Type := string.
Definition ActionFix : RepairActionType := "fix".
Definition ActionRegenerate : RepairActionType := "regenerate".

Inductive PlanStatus := PlanPending | PlanApproved | PlanRejected | PlanApplied | PlanFailed.

#[global] Instance RepairActionType_eq_dec : EqDecision RepairActionType := String.string_dec.
#[global] Instance PlanStatus_eq_dec : EqDecision PlanStatus.
Proof. solve_decision. Defined.

Definition PatternToolImport : string := "import_error".
Definition PatternToolSyntax : string := "syntax_error".
Definition PatternToolDeprecated : string := "deprecated_api".
Definition PatternToolConfig : string := "configuration_error".
Definition PatternToolPerformance : string := "performance_issue".
Definition PatternToolDataPipeline : string := "data_pipeline_error".
Definition PatternToolTimeout : string := "timeout_error".
Definition PatternToolDependency : string := "dependency_error".
Definition PatternToolUnknown : string := "unknown_error".

Record RepairAction := {
  AID : string; AType : RepairActionType; ADescription : string; AToolID : string; Applied : bool;
}.

Record RepairPlan := {
  PID : string; PToolID : string; Actions : list RepairAction; NeedsApproval : bool; Status : PlanStatus;
  ErrorPattern : string; ErrorMessage : string; BackupCode : string; CreatedAt : Time;
}.

Definition set_status (s : PlanStatus) (p : RepairPlan) : RepairPlan :=
  {| PID := PID p; PToolID := PToolID p; Actions := Actions p; NeedsApproval := NeedsApproval p; Status := s;
     ErrorPattern := ErrorPattern p; ErrorMessage := ErrorMessage p; BackupCode := BackupCode p;
     CreatedAt := CreatedAt p |}.
Definition set_actions (l : list RepairAction) (p : RepairPlan) : RepairPlan :=
  {| PID := PID p; PToolID := PToolID p; Actions := l; NeedsApproval := NeedsApproval p; Status := Status p;
     ErrorPattern := ErrorPattern p; ErrorMessage := ErrorMessage p; BackupCode := BackupCode p;
     CreatedAt := CreatedAt p |}.

(** *** The catalog *)
Definition catalog_action (id : string) (t : RepairActionType) (description : string) : RepairAction :=
  {| AID := id; AType := t; ADescription := description; AToolID := ""; Applied := false |}.

Definition BuildRepairCatalog : gmap string (list RepairAction) :=
  list_to_map [
      (PatternToolImport, [catalog_action "fix-import-01" ActionFix "Add missing import statements to tool code";
        catalog_action "fix-import-02" ActionFix "Fix import path or module name";
        catalog_action "fix-import-03" ActionRegenerate "Regenerate tool from DSL definition to generate correct imports"]);
      (PatternToolSyntax, [catalog_action "fix-syntax-01" ActionFix "Fix syntax error in tool code (missing brace/parenthesis/semicolon)";
        catalog_action "fix-syntax-02" ActionRegenerate "Regenerate tool from DSL definition to produce valid code"]);
      (PatternToolDeprecated, [catalog_action "fix-dep-01" ActionFix "Replace deprecated API calls with current equivalents";
        catalog_action "fix-dep-02" ActionRegenerate "Regenerate tool from DSL definition with updated API usage"]);
      (PatternToolConfig, [catalog_action "fix-config-01" ActionFix "Fix configuration parameter value";
        catalog_action "fix-config-02" ActionRegenerate "Regenerate tool from DSL definition with corrected configuration"]);
      (PatternToolPerformance, [catalog_action "fix-perf-01" ActionFix "Optimise loop and data structures for better performance";
        catalog_action "fix-perf-02" ActionFix "Add caching or connection pooling to reduce latency";
        catalog_action "fix-perf-03" ActionFix "Increase timeout or resource limits"]);
      (PatternToolDataPipeline, [catalog_action "fix-data-01" ActionFix "Fix data transformation logic or type conversion";
        catalog_action "fix-data-02" ActionFix "Add input validation and error handling for data pipeline";
        catalog_action "fix-data-03" ActionRegenerate "Regenerate tool from DSL definition with corrected data flow"]);
      (PatternToolTimeout, [catalog_action "fix-timeout-01" ActionFix "Increase timeout value in tool configuration";
        catalog_action "fix-timeout-02" ActionFix "Add retry with exponential backoff for transient failures"]);
      (PatternToolDependency, [catalog_action "fix-depdep-01" ActionFix "Add missing dependency declaration to tool definition";
        catalog_action "fix-depdep-02" ActionRegenerate "Regenerate tool from DSL definition with complete dependency list"]);
      (PatternToolUnknown, [catalog_action "fix-unknown-01" ActionRegenerate "Regenerate tool from DSL definition to resolve unknown error"])].

Section Engine.
Context `{Unicode}.
(** go/parser on a source, the iteration over the paths of a source, and the
    compiler, if there is one. *)
Context (parse : string → option (list string)) (order : list string → list string).
Context (compiler : option (ToolCompiler.ToolDefinition → result string (option ToolCompiler.GeneratedTool))).
(** Whether the n-th write succeeds, and the clock at the n-th record. *)
Context (write_ok : nat → bool) (elapsed : Z → Duration) (clock : Z → Time).

Definition containsAny (s : string) (substrs : list string) : bool :=
  existsb (λ sub, str_contains s (ToLower sub)) substrs.

Definition ClassifyToolError (errMsg : string) : string :=
  let msg := ToLower errMsg in
  if containsAny msg ["import"; "undefined"; "cannot find module"; "no such file"; "unresolved reference"; "undefined name"; "module not found"]
  then PatternToolImport
  else if containsAny msg ["syntax"; "parse error"; "unexpected token"; "expected"; "unmatched"; "invalid syntax"; "compilation error"; "cannot compile"; "expected ';'"; "unexpected '}'"; "unexpected EOF"]
  then PatternToolSyntax
  else if containsAny msg ["deprecated"; "removed"; "no longer supported"; "has been removed"; "renamed to"; "moved to"; "use instead"; "is deprecated"; "was removed"]
  then PatternToolDeprecated
  else if containsAny msg ["config"; "env"; "environment variable"; "misconfig"; "invalid argument"; "invalid setting"; "missing required"; "configuration"; "not configured"; "no such configuration"]
  then PatternToolConfig
  else if containsAny msg ["performance"; "too slow"; "timeout exceeded"; "deadline exceeded"; "context deadline"; "OOM"; "out of memory"; "memory limit"; "cpu limit"; "too many"]
  then PatternToolTimeout
  else if containsAny msg ["data"; "pipeline"; "ETL"; "transform"; "invalid data"; "corrupt"; "unmarshal"; "schema mismatch"; "type mismatch"; "cannot convert"]
  then PatternToolDataPipeline
  else if containsAny msg ["dependency"; "module"; "package"; "go module"; "pip install"; "npm install"; "missing dependency"; "no module"; "cannot find package"]
  then PatternToolDependency
  else PatternToolUnknown.

Inductive repair_error :=
| ReadFailed (e : Repository.repo_error)
| NotApproved (id : string) (s : PlanStatus)
| NoCompiler
| CompilerFailed (e : string)
| NilResult
| EmptyCode
| DeployRegenerated (e : Repository.repo_error)
| RegeneratedUnverified (e : Validation.code_error)
| RegeneratedUnrestored (e : Validation.code_error) (r : Repository.repo_error)
| VerificationFailed (t : RepairActionType) (e : Validation.code_error)
| DeployFailed (t : RepairActionType) (e : Repository.repo_error)
| RestoreFailed (last : repair_error) (r : Repository.repo_error)
| AllFailed (n : nat) (last : repair_error).

(** *** Planning *)
Definition nextPlanID (planIDCounter : Z) : Z * string :=
  let n := wrap64 (planIDCounter + 1) in (n, "plan-" +:+ Itoa n).
Definition nextActionID (planID : string) (seq : Z) : string := planID +:+ "-act-" +:+ Itoa seq.

Definition hasRegenerateAction (actions : list RepairAction) : bool :=
  existsb (λ a, bool_decide (AType a = ActionRegenerate)) actions.

Definition plan_action (planID toolID : string) (i : nat) (ca : RepairAction) : RepairAction :=
  {| AID := nextActionID planID (Z.of_nat i + 1); AType := AType ca; ADescription := ADescription ca;
     AToolID := toolID; Applied := false |}.

(** [ok]: whether the code can be read.  The counter of plans is global. *)
Definition AnalyseAndPlan (now : Time) (ok : bool) (toolID errMsg : string) (repo : Repository.Repo) (counter : Z) :
    Z * result repair_error RepairPlan :=
  let pattern := ClassifyToolError errMsg in
  match Repository.GetToolCode ok toolID repo with
  | Err e => (counter, Err (ReadFailed e))
  | Ok code =>
    let catalogActions :=
      match BuildRepairCatalog !! pattern with
      | Some l => l
      | None => default [] (BuildRepairCatalog !! PatternToolUnknown)
      end in
    let '(counter', planID) := nextPlanID counter in
    let actions := imap (plan_action planID toolID) catalogActions in
    let needsApproval :=
      bool_decide (pattern = PatternToolImport) || bool_decide (pattern = PatternToolSyntax) ||
      bool_decide (pattern = PatternToolDeprecated) || bool_decide (pattern = PatternToolUnknown) ||
      hasRegenerateAction actions in
    (counter', Ok {| PID := planID; PToolID := toolID; Actions := actions; NeedsApproval := needsApproval;
                     Status := PlanPending; ErrorPattern := pattern; ErrorMessage := errMsg;
                     BackupCode := code; CreatedAt := now |})
  end.

Definition ApprovePlan (p : RepairPlan) : RepairPlan :=
  if bool_decide (Status p = PlanPending) then set_status PlanApproved p else p.
Definition RejectPlan (p : RepairPlan) : RepairPlan :=
  if bool_decide (Status p = PlanPending ∨ Status p = PlanApproved) then set_status PlanRejected p else p.

(** *** Execution *)
Record World := { repo : Repository.Repo; writes : nat; history : RepairHistory repair_error }.

Definition UpdateToolCode (id code : string) (w : World) : World * option Repository.repo_error :=
  let '(r, e) := Repository.UpdateToolCode (write_ok (writes w)) id code (repo w) in
  ({| repo := r; writes := S (writes w); history := history w |}, e).

Definition record_attempt (p : RepairPlan) (a : RepairAction) (s : RepairStatus) (e : option repair_error)
    (w : World) : World :=
  let n := nextID (history w) in
  {| repo := repo w; writes := writes w;
     history := Record_ (clock n)
       {| ID := 0; RToolID := PToolID p; RPlanID := PID p; ActionID := AID a;
          ActionType := AType a; RStatus := s; ErrorMsg := e;
          RDuration := elapsed n; Timestamp := 0 |} (history w) |}.

Definition regenerated_definition (p : RepairPlan) : ToolCompiler.ToolDefinition :=
  {| ToolCompiler.Name := PToolID p; ToolCompiler.Description := "Regenerated tool: " +:+ PToolID p;
     ToolCompiler.Inputs := []; ToolCompiler.Outputs := [];
     ToolCompiler.Handler := Some {| ToolCompiler.Language := "go"; ToolCompiler.EntryPoint := "Handle" |};
     ToolCompiler.Deps := [] |}.

Definition executeRegenerate (p : RepairPlan) (w : World) : World * option repair_error :=
  match compiler with
  | None => (w, Some NoCompiler)
  | Some compile =>
    match compile (regenerated_definition p) with
    | Err e => (w, Some (CompilerFailed e))
    | Ok None => (w, Some NilResult)
    | Ok (Some gt) =>
      let code := if bool_decide (ToolCompiler.GoCode gt = "") then ToolCompiler.PythonCode gt
                  else ToolCompiler.GoCode gt in
      if bool_decide (code = "") then (w, Some EmptyCode)
      else
        match UpdateToolCode (PToolID p) code w with
        | (w, Some e) => (w, Some (DeployRegenerated e))
        | (w, None) =>
          match Validation.VerifyToolCode parse code with
          | None => (w, None)
          | Some v =>
            match UpdateToolCode (PToolID p) (BackupCode p) w with
            | (w, Some e) => (w, Some (RegeneratedUnrestored v e))
            | (w, None) => (w, Some (RegeneratedUnverified v))
            end
          end
        end
    end
  end.

(** The fix of an action, by its identifier; [None] when it panics. *)
Definition executeFix (code : string) (a : RepairAction) : option string :=
  let id := AID a in
  if bool_decide (id = "fix-import-01") then Some (RepairFix.fixMissingImports code)
  else if bool_decide (id = "fix-import-02") then Some (RepairFix.fixImportPath code)
  else if bool_decide (id = "fix-syntax-01") then Some (RepairFix.fixSyntaxError code)
  else if bool_decide (id = "fix-dep-01") then Some (RepairFix.fixDeprecatedAPI code)
  else if bool_decide (id = "fix-config-01") then Some (RepairFix.fixConfiguration code)
  else if bool_decide (id = "fix-perf-01") then RepairFix.fixPerformance order code
  else if bool_decide (id = "fix-perf-02") then Some (RepairFix.fixCaching code)
  else if bool_decide (id = "fix-perf-03") then Some (RepairFix.fixTimeout code)
  else if bool_decide (id = "fix-data-01") then Some (RepairFix.fixDataPipeline code)
  else if bool_decide (id = "fix-data-02") then Some (RepairFix.fixDataValidation code)
  else if bool_decide (id = "fix-timeout-01") then Some (RepairFix.fixTimeout code)
  else if bool_decide (id = "fix-timeout-02") then Some (RepairFix.fixRetry code)
  else Some code.

(** How the loop over the actions ends: one was deployed, all failed (with the last
    error, if any ran), or one panicked. *)
Inductive loop_end := Deployed | Exhausted (lastErr : option repair_error) | Panicked.

Definition applied (a : RepairAction) : RepairAction :=
  {| AID := AID a; AType := AType a; ADescription := ADescription a; AToolID := AToolID a; Applied := true |}.

(** The transformation of one action: the world, the code and the error; [None] when
    it panics.  An action of another type falls through: nothing is done to the code,
    which is then verified and deployed as it is. *)
Definition transform (p : RepairPlan) (a : RepairAction) (code : string) (w : World) :
    option (World * string * option repair_error) :=
  if bool_decide (AType a = ActionRegenerate) then let '(w, e) := executeRegenerate p w in Some (w, code, e)
  else if bool_decide (AType a = ActionFix) then (λ code, (w, code, None)) <$> executeFix code a
  else Some (w, code, None).

Fixpoint run_actions (p : RepairPlan) (todo : list RepairAction) (currentCode : string)
    (lastErr : option repair_error) (w : World) : list RepairAction * World * loop_end :=
  match todo with
  | [] => ([], w, Exhausted lastErr)
  | a :: rest =>
    let failed e code w :=
      let '(rest, w, r) := run_actions p rest code (Some e) (record_attempt p a StatusFailed (Some e) w) in
      (a :: rest, w, r) in
    match transform p a currentCode w with
    | None => (todo, w, Panicked)
    | Some (w, code, Some e) => failed e code w
    | Some (w, code, None) =>
      match Validation.VerifyToolCode parse code with
      | Some v => failed (VerificationFailed (AType a) v) (BackupCode p) w
      | None =>
        match UpdateToolCode (PToolID p) code w with
        | (w, Some e) => failed (DeployFailed (AType a) e) (BackupCode p) w
        | (w, None) => (applied a :: rest, record_attempt p a StatusSuccess None w, Deployed)
        end
      end
    end
  end.

(** The error of an execution, or its panic. *)
Inductive outcome := Returned (e : option repair_error) | PlanPanicked.

Definition ExecutePlan (p : RepairPlan) (w : World) : RepairPlan * World * outcome :=
  if negb (bool_decide (Status p = PlanApproved)) then (p, w, Returned (Some (NotApproved (PID p) (Status p))))
  else
    let p := set_status PlanApplied p in
    let '(actions, w, r) := run_actions p (Actions p) (BackupCode p) None w in
    let p := set_actions actions p in
    match r with
    | Panicked => (p, w, PlanPanicked)
    | Deployed => (p, w, Returned None)
    | Exhausted None => (p, w, Returned None)
    | Exhausted (Some lastErr) =>
      let p := set_status PlanFailed p in
      match UpdateToolCode (PToolID p) (BackupCode p) w with
      | (w, Some e) => (p, w, Returned (Some (RestoreFailed lastErr e)))
      | (w, None) => (p, w, Returned (Some (AllFailed (length (Actions p)) lastErr)))
      end
    end.

(** *** Properties *)

(** The code stored for a tool. *)
Definition code_of (id : string) (w : World) : option string :=
  Repository.ToCode <$> Repository.system_tools (Repository.tables (repo w)) !! id.

(** Only the tool [id] may have changed, and it is still there. *)
Definition others (id : string) (w w' : World) : Prop :=
  (∀ id', id' ≠ id → code_of id' w' = code_of id' w) ∧ (is_Some (code_of id w) → is_Some (code_of id w')).

Lemma others_refl id w : others id w w.
Proof. by split. Qed.
Lemma others_trans id w w' w'' : others id w w' → others id w' w'' → others id w w''.
Proof. intros [H1 H2] [H3 H4]. split; [|auto]. intros id' Hid. by rewrite H3, H1. Qed.

Lemma UpdateToolCode_spec id code w w' e :
  UpdateToolCode id code w = (w', e) →
  others id w w' ∧
  match e with
  | None => is_Some (code_of id w) → code_of id w' = Some code
  | Some _ => code_of id w' = code_of id w
  end.
Proof.
  unfold UpdateToolCode, Repository.UpdateToolCode, Repository.exec_tools, Repository.sql_update.
  unfold others, code_of. destruct (write_ok (writes w)); cbn [Repository.exec].
  - intros [= <- <-]. cbn. destruct (Repository.system_tools (Repository.tables (repo w)) !! id) as [row|] eqn:E.
    + split; [split|]; intros; rewrite ?lookup_insert_ne, ?lookup_insert, ?decide_True by done; cbn; eauto.
    + rewrite E. split; [by split|]. by intros [].
  - intros [= <- <-]. cbn. split; [by split|done].
Qed.

Lemma executeRegenerate_others p w : others (PToolID p) w (executeRegenerate p w).1.
Proof.
  unfold executeRegenerate. destruct compiler as [compile|]; [|apply others_refl].
  destruct (compile _) as [[gt|]|]; try apply others_refl. case_bool_decide; [apply others_refl|].
  destruct (UpdateToolCode _ _ w) as [w1 [e|]] eqn:E1; apply UpdateToolCode_spec in E1 as [Ho1 _]; [done|].
  destruct (Validation.VerifyToolCode _ _); [|done].
  destruct (UpdateToolCode _ _ w1) as [w2 [e|]] eqn:E2; apply UpdateToolCode_spec in E2 as [Ho2 _];
    by eapply others_trans.
Qed.

Lemma transform_others p a code w w' code' e :
  transform p a code w = Some (w', code', e) → others (PToolID p) w w'.
Proof.
  unfold transform. case_bool_decide; [|case_bool_decide].
  - pose proof (executeRegenerate_others p w) as Ho. destruct (executeRegenerate p w) as [w1 e1].
    by intros [= <- <- <-].
  - destruct (executeFix code a); [|done]. intros [= <- <- <-]. apply others_refl.
  - intros [= <- <- <-]. apply others_refl.
Qed.

(** What the loop over the actions guarantees. *)
Definition loop_ok (p : RepairPlan) (todo : list RepairAction) (lastErr : option repair_error) (w : World)
    (todo' : list RepairAction) (w' : World) (r : loop_end) : Prop :=
  others (PToolID p) w w' ∧
  match r with
  | Deployed =>
    (is_Some (code_of (PToolID p) w) →
       ∃ c, code_of (PToolID p) w' = Some c ∧ Validation.VerifyToolCode parse c = None) ∧
    ∃ i a, todo !! i = Some a ∧ todo' = <[i := applied a]> todo
  | Exhausted le => todo' = todo ∧ (todo ≠ [] ∨ is_Some lastErr → is_Some le)
  | Panicked => True
  end.

Lemma loop_ok_cons p a rest lastErr e w wi rest' w' r :
  others (PToolID p) w wi → loop_ok p rest (Some e) wi rest' w' r →
  loop_ok p (a :: rest) lastErr w (a :: rest') w' r.
Proof.
  intros Ho [Ho2 Hr]. split; [by eapply others_trans|]. destruct r as [|le|]; [| |done].
  - destruct Hr as [Hc (i & b & Hi & ->)]. split; [|by exists (S i), b]. intros Hw. apply Hc. by apply Ho.
  - destruct Hr as [-> Hle]. split; [done|]. intros _. apply Hle. eauto.
Qed.

Lemma run_actions_spec p todo code lastErr w todo' w' r :
  run_actions p todo code lastErr w = (todo', w', r) → loop_ok p todo lastErr w todo' w' r.
Proof.
  revert code lastErr w todo' w' r. induction todo as [|a rest IH]; intros code lastErr w todo' w' r; cbn [run_actions].
  { intros [= <- <- <-]. split; [apply others_refl|]. split; [done|]. by intros []. }
  destruct (transform p a code w) as [[[w1 code1] e1]|] eqn:Et.
  2: { intros [= <- <- <-]. split; [apply others_refl|done]. }
  apply transform_others in Et.
  assert (∀ e c wi, others (PToolID p) w wi →
    (let '(rest', w2, r2) := run_actions p rest c (Some e) (record_attempt p a StatusFailed (Some e) wi) in
     (a :: rest', w2, r2)) = (todo', w', r) → loop_ok p (a :: rest) lastErr w todo' w' r) as Hfail.
  { intros e c wi Ho. destruct (run_actions p rest c _ _) as [[rest' w2] r2] eqn:Er.
    apply IH in Er. intros [= <- <- <-]. eapply loop_ok_cons; [exact Ho|exact Er]. }
  destruct e1 as [e|]; [by apply Hfail|].
  destruct (Validation.VerifyToolCode parse code1) as [v|] eqn:Ev; [by apply Hfail|].
  destruct (UpdateToolCode (PToolID p) code1 w1) as [w2 [e|]] eqn:Eu; apply UpdateToolCode_spec in Eu as [Ho Hu].
  { apply Hfail. by eapply others_trans. }
  intros [= <- <- <-]. split; [exact (others_trans _ _ _ _ Et Ho)|]. split; [|by exists 0%nat, a].
  intros Hw. exists code1. split; [|done]. apply Hu. by apply Et.
Qed.

(** C36: whatever is deployed was verified: when a plan with actions is executed without
    an error, the code then stored for the tool passes the static check and exactly
    one action is marked as applied; no execution touches the code of another tool or
    loses the tool; and a plan that is not approved is refused without effect. *)
Theorem ExecutePlan_verified (p p' : RepairPlan) (w w' : World) (o : outcome) :
  ExecutePlan p w = (p', w', o) →
  others (PToolID p) w w' ∧
  (Status p ≠ PlanApproved → p' = p ∧ w' = w ∧ o = Returned (Some (NotApproved (PID p) (Status p)))) ∧
  (o = Returned None → Actions p ≠ [] → is_Some (code_of (PToolID p) w) →
     Status p' = PlanApplied ∧
     (∃ c, code_of (PToolID p) w' = Some c ∧ Validation.VerifyToolCode parse c = None) ∧
     ∃ i a, Actions p !! i = Some a ∧ Actions p' = <[i := applied a]> (Actions p)).
Proof.
  unfold ExecutePlan. case_bool_decide as Hs; cbn [negb].
  2: { intros [= <- <- <-]. split; [apply others_refl|]. done. }
  destruct (run_actions _ _ _ _ w) as [[todo w1] r] eqn:Er. apply run_actions_spec in Er as [Ho Hr].
  cbn [set_status PToolID Actions] in *.
  destruct r as [|[le|]|].
  - intros [= <- <- <-]. split; [done|]. split; [done|]. intros _ _ Hw.
    destruct Hr as [Hc Hi]. split; [done|]. auto.
  - destruct (UpdateToolCode _ _ w1) as [w2 [e|]] eqn:Eu; apply UpdateToolCode_spec in Eu as [Ho2 _];
      intros [= <- <- <-]; (split; [exact (others_trans _ _ _ _ Ho Ho2)|]; by split).
  - intros [= <- <- <-]. split; [done|]. split; [done|]. intros _ Hne _. destruct Hr as [_ Hr].
    destruct Hr as [x Hx]; [by left|done].
  - intros [= <- <- <-]. split; [done|]. by split.
Qed.

(** *** Planned repairs *)

(** The identifiers of planned actions are not those the fixes go by. *)
Lemma planned_fix_noop code a : String.prefix "plan-" (AID a) = true → executeFix code a = Some code.
Proof.
  intros Hp. unfold executeFix. cbv zeta.
  repeat (rewrite bool_decide_eq_false_2 by (intros Hid; rewrite Hid in Hp; discriminate Hp)). done.
Qed.

Lemma run_planned p todo lastErr w todo' w' r :
  Forall (λ a, String.prefix "plan-" (AID a) = true) todo →
  is_Some (code_of (PToolID p) w) →
  run_actions p todo (BackupCode p) lastErr w = (todo', w', r) →
  r ≠ Panicked ∧ is_Some (code_of (PToolID p) w') ∧
  (r = Deployed → code_of (PToolID p) w' = Some (BackupCode p)).
Proof.
  intros Hall. revert lastErr w todo' w' r.
  induction Hall as [|a rest Ha Hall IH]; intros lastErr w todo' w' r Hw; cbn [run_actions].
  { by intros [= <- <- <-]. }
  assert (∃ w1 e1, transform p a (BackupCode p) w = Some (w1, BackupCode p, e1)) as (w1 & e1 & Et).
  { unfold transform. case_bool_decide; [destruct (executeRegenerate p w); eauto|].
    case_bool_decide; [rewrite planned_fix_noop by done; cbn|]; eauto. }
  rewrite Et. pose proof (transform_others _ _ _ _ _ _ _ Et) as Ho1.
  assert (∀ e wi, others (PToolID p) w wi →
    (let '(rest', w2, r2) := run_actions p rest (BackupCode p) (Some e) (record_attempt p a StatusFailed (Some e) wi) in
     (a :: rest', w2, r2)) = (todo', w', r) →
    r ≠ Panicked ∧ is_Some (code_of (PToolID p) w') ∧ (r = Deployed → code_of (PToolID p) w' = Some (BackupCode p))) as Hfail.
  { intros e wi Ho. destruct (run_actions p rest _ _ _) as [[rest' w2] r2] eqn:Er.
    intros [= <- <- <-]. eapply IH; [|exact Er]. by apply Ho. }
  destruct e1 as [e|]; [by apply Hfail|].
  destruct (Validation.VerifyToolCode parse (BackupCode p)) as [v|]; [by apply Hfail|].
  destruct (UpdateToolCode (PToolID p) (BackupCode p) w1) as [w2 [e|]] eqn:Eu; apply UpdateToolCode_spec in Eu as [Ho Hu].
  { apply Hfail. by eapply others_trans. }
  intros [= <- <- <-]. split; [done|]. specialize (Hu (proj2 Ho1 Hw)).
  change (code_of (PToolID p) (record_attempt p a StatusSuccess None w2)) with (code_of (PToolID p) w2).
  rewrite Hu. eauto.
Qed.

Lemma catalog_nonempty pattern :
  match BuildRepairCatalog !! pattern with
  | Some l => l
  | None => default [] (BuildRepairCatalog !! PatternToolUnknown)
  end ≠ [].
Proof.
  assert (map_Forall (λ _ l, 0 < length l)%nat BuildRepairCatalog) as Hall
    by (apply (bool_decide_eq_true_1 _); vm_compute; reflexivity).
  destruct (BuildRepairCatalog !! pattern) as [l|] eqn:E; [|vm_compute; discriminate].
  apply Hall in E. destruct l; [cbn in E; lia|done].
Qed.

Lemma AnalyseAndPlan_planned now ok toolID errMsg r counter counter' p :
  AnalyseAndPlan now ok toolID errMsg r counter = (counter', Ok p) →
  PToolID p = toolID ∧ Repository.GetToolCode ok toolID r = Ok (BackupCode p) ∧
  Status p = PlanPending ∧ Actions p ≠ [] ∧
  Forall (λ a, String.prefix "plan-" (AID a) = true) (Actions p).
Proof.
  unfold AnalyseAndPlan. destruct (Repository.GetToolCode ok toolID r) as [code|]; [|done].
  cbn [nextPlanID]. intros [= <- <-]. cbn [PToolID BackupCode Actions Status]. split_and!; [done|done|done| |].
  { pose proof (catalog_nonempty (ClassifyToolError errMsg)) as Hne. intros E. apply Hne.
    destruct (BuildRepairCatalog !! ClassifyToolError errMsg) as [[|a l]|]; [done|done|]. by destruct (default _ _). }
  apply Forall_lookup. intros i a. rewrite list_lookup_imap.
  intros (ca & _ & ->)%fmap_Some. cbn [plan_action AID]. apply prefix_iff.
  unfold nextActionID. eexists. rewrite str_app_assoc. reflexivity.
Qed.

(** A repair repairs nothing: whatever the error, the compiler, the failing writes
    and the code, when the execution of a plan that the engine made returns, and the
    final restore did not fail, the code stored for the tool is the one that was read
    for the plan.  The fixes are looked up under identifiers that planned actions do
    not have, and regenerated code is overwritten by the old one. *)
Theorem planned_repair_changes_nothing (now : Time) (ok : bool) (toolID errMsg : string) (r : Repository.Repo)
    (counter counter' : Z) (p p' : RepairPlan) (w w' : World) (o : outcome) :
  AnalyseAndPlan now ok toolID errMsg r counter = (counter', Ok p) →
  is_Some (code_of toolID w) →
  ExecutePlan (ApprovePlan p) w = (p', w', o) →
  Repository.GetToolCode ok toolID r = Ok (BackupCode p) ∧
  ∃ e, o = Returned e ∧
    ((∀ l x, e ≠ Some (RestoreFailed l x)) → code_of toolID w' = Some (BackupCode p)).
Proof.
  intros (<- & Hcode & Hpend & Hne & Hall)%AnalyseAndPlan_planned Hw Hx. split; [done|]. revert Hx.
  unfold ApprovePlan. rewrite bool_decide_eq_true_2 by done. unfold ExecutePlan.
  rewrite bool_decide_eq_true_2 by done. cbn [negb set_status PToolID BackupCode Actions].
  destruct (run_actions _ _ _ _ w) as [[todo w1] rr] eqn:Er.
  pose proof (run_actions_spec _ _ _ _ _ _ _ _ Er) as [_ Hr].
  apply (run_planned (set_status PlanApplied (set_status PlanApproved p)) _ _ _ _ _ _ Hall Hw) in Er as (Hnp & Hsome & Hdep). cbn [set_actions PToolID BackupCode] in *.
  destruct rr as [|[le|]|]; [| | |done].
  - intros [= <- <- <-]. eauto.
  - destruct (UpdateToolCode _ _ w1) as [w2 [e|]] eqn:Eu; apply UpdateToolCode_spec in Eu as [_ Hu];
      intros [= <- <- <-]; eexists; (split; [done|]); intros Hn; [by destruct (Hn le e)|].
    by apply Hu.
  - destruct Hr as [_ Hr]. destruct Hr as [x Hx]; [by left|done].
Qed.

(** *** The life of a plan *)
Inductive plan_op := OpApprove | OpReject | OpExecute.
Definition apply_op (s : RepairPlan * World) (op : plan_op) : RepairPlan * World :=
  match op with
  | OpApprove => (ApprovePlan s.1, s.2)
  | OpReject => (RejectPlan s.1, s.2)
  | OpExecute => (ExecutePlan s.1 s.2).1
  end.
Definition run_ops (ops : list plan_op) (s : RepairPlan * World) : RepairPlan * World := foldl apply_op s ops.

Definition terminal (p : RepairPlan) : Prop := Status p ∈ [PlanRejected; PlanApplied; PlanFailed].

Lemma terminal_final ops p w : terminal p → run_ops ops (p, w) = (p, w).
Proof.
  intros Ht. assert (Status p ≠ PlanPending ∧ Status p ≠ PlanApproved) as [Hp Ha].
  { unfold terminal in Ht. split; intros E; rewrite E in Ht; set_solver. }
  unfold run_ops. induction ops as [|op ops IH]; [done|]. cbn [foldl].
  replace (apply_op (p, w) op) with (p, w); [done|]. symmetry. destruct op; cbn [apply_op fst snd].
  - unfold ApprovePlan. by rewrite bool_decide_eq_false_2.
  - unfold RejectPlan. rewrite bool_decide_eq_false_2; [done|]. by intros [].
  - unfold ExecutePlan. by rewrite bool_decide_eq_false_2.
Qed.

Lemma ExecutePlan_terminal p w : Status p = PlanApproved → terminal (ExecutePlan p w).1.1.
Proof.
  intros Hs. unfold ExecutePlan, terminal. rewrite bool_decide_eq_true_2 by done. cbn [negb].
  destruct (run_actions _ _ _ _ w) as [[todo w1] r].
  destruct r as [|[le|]|]; [| destruct (UpdateToolCode _ _ w1) as [w2 [e|]] | |];
    cbn [fst set_status set_actions Status]; set_solver.
Qed.

(** A plan is executed at most once, and only after an approval that was not
    followed by a rejection: whatever operations come in whatever order, either the
    repository is never touched, or it is changed by exactly one execution, before
    which the plan was approved and never rejected, and after which nothing has an
    effect. *)
Theorem plan_executes_once (ops : list plan_op) (p p' : RepairPlan) (w w' : World) :
  Status p = PlanPending → run_ops ops (p, w) = (p', w') →
  w' = w ∨
  ∃ pre post, ops = pre ++ OpExecute :: post ∧ OpApprove ∈ pre ∧ OpReject ∉ pre ∧
    (p', w') = (ExecutePlan (ApprovePlan p) w).1.
Proof.
  intros Hs. revert p' w'.
  assert (∀ ops q, run_ops ops (set_status PlanApproved p, w) = q →
    q.2 = w ∨ ∃ pre post, ops = pre ++ OpExecute :: post ∧ OpReject ∉ pre ∧
      q = (ExecutePlan (set_status PlanApproved p) w).1) as Happ.
  { clear ops. induction ops as [|[] ops IH]; intros q Hq; [left; by subst| | |].
    - cbn in Hq. unfold ApprovePlan in Hq. rewrite bool_decide_eq_false_2 in Hq by done.
      destruct (IH q Hq) as [?|(pre & post & -> & Hn & ?)]; [by left|right].
      exists (OpApprove :: pre), post. split_and!; [done|set_solver|done].
    - left. cbn in Hq. unfold RejectPlan in Hq. rewrite bool_decide_eq_true_2 in Hq by (by right).
      change (run_ops ops (set_status PlanRejected (set_status PlanApproved p), w) = q) in Hq.
      rewrite terminal_final in Hq; [by subst|]. unfold terminal. cbn. set_solver.
    - right. exists [], ops. split_and!; [done|set_solver|].
      change (run_ops ops (ExecutePlan (set_status PlanApproved p) w).1 = q) in Hq.
      pose proof (ExecutePlan_terminal (set_status PlanApproved p) w eq_refl) as Ht.
      destruct (ExecutePlan _ w) as [[p1 w1] o]. cbn [fst] in *. by rewrite terminal_final in Hq. }
  assert (ApprovePlan p = set_status PlanApproved p) as Ea
    by (unfold ApprovePlan; by rewrite bool_decide_eq_true_2).
  rewrite Ea. induction ops as [|[] ops IH]; intros p' w' Hq.
  - left. by injection Hq.
  - change (run_ops ops (ApprovePlan p, w) = (p', w')) in Hq. rewrite Ea in Hq.
    destruct (Happ _ _ Hq) as [?|(pre & post & -> & Hn & ?)]; [by left|right].
    exists (OpApprove :: pre), post. split_and!; [done|by left|set_solver|done].
  - left. change (run_ops ops (RejectPlan p, w) = (p', w')) in Hq. unfold RejectPlan in Hq.
    rewrite bool_decide_eq_true_2 in Hq by (by left). rewrite terminal_final in Hq; [by injection Hq|].
    unfold terminal. cbn. set_solver.
  - change (run_ops ops (ExecutePlan p w).1 = (p', w')) in Hq. unfold ExecutePlan in Hq.
    rewrite bool_decide_eq_false_2 in Hq by (rewrite Hs; done). cbn [negb fst] in Hq.
    destruct (IH _ _ Hq) as [?|(pre & post & -> & Hin & Hn & ?)]; [by left|right].
    exists (OpExecute :: pre), post. split_and!; [done|by right|set_solver|done].
Qed.

Definition classified : list string :=
  [PatternToolImport; PatternToolSyntax; PatternToolDeprecated; PatternToolConfig; PatternToolTimeout;
   PatternToolDataPipeline; PatternToolDependency; PatternToolUnknown].
Lemma ClassifyToolError_cases errMsg : ClassifyToolError errMsg ∈ classified.
Proof. unfold ClassifyToolError. repeat case_match; rewrite <- (bool_decide_eq_true _); reflexivity. Qed.

Lemma hasRegenerate_plan planID toolID l :
  hasRegenerateAction (imap (plan_action planID toolID) l) = hasRegenerateAction l.
Proof.
  unfold hasRegenerateAction. revert planID.
  assert (∀ f : nat → RepairAction → RepairAction, (∀ i a, AType (f i a) = AType a) →
    existsb (λ a, bool_decide (AType a = ActionRegenerate)) (imap f l)
    = existsb (λ a, bool_decide (AType a = ActionRegenerate)) l) as Hf; [|intros; by apply Hf].
  induction l as [|a l IH]; intros f Hf; [done|]. cbn [imap existsb]. rewrite Hf. f_equal.
  apply IH. intros i b. apply Hf.
Qed.

(** Errors are never classified as performance issues, so the catalog's three
    repairs for them are never proposed; every other pattern occurs, and every plan
    of an error needs approval exactly when the error is not a timeout. *)
Theorem performance_never_planned (now : Time) (ok : bool) (toolID errMsg : string) (r : Repository.Repo)
    (counter counter' : Z) (p : RepairPlan) :
  AnalyseAndPlan now ok toolID errMsg r counter = (counter', Ok p) →
  ErrorPattern p ≠ PatternToolPerformance ∧ is_Some (BuildRepairCatalog !! ErrorPattern p) ∧
  (NeedsApproval p = false ↔ ErrorPattern p = PatternToolTimeout).
Proof.
  unfold AnalyseAndPlan. destruct (Repository.GetToolCode ok toolID r); [|done].
  cbn [nextPlanID]. intros [= _ <-]. cbn [ErrorPattern NeedsApproval]. rewrite hasRegenerate_plan.
  pose proof (ClassifyToolError_cases errMsg) as Hc. unfold classified in Hc.
  revert Hc. generalize (ClassifyToolError errMsg). intros pattern Hc.
  repeat (apply elem_of_cons in Hc as [->|Hc]; [vm_compute; split; [discriminate|split; [eauto|split; (done || discriminate)]]|]).
  by apply not_elem_of_nil in Hc.
Qed.

End Engine.

Definition DSLCompilerAdapter `{Unicode} (def : ToolCompiler.ToolDefinition) :
    result string (option ToolCompiler.GeneratedTool) := Ok (ToolCompiler.CompileToolDefinition (Some def)).

(** *** Witnesses *)
#[local] Existing Instance ascii_tables.

Definition sample_world : World := {| repo := Repository.sample_repo0; writes := 0; history := NewRepairHistory |}.
Definition sample_plan : RepairPlan :=
  match (AnalyseAndPlan 0 true "t1" "syntax error near line 3" Repository.sample_repo0 0).2 with
  | Ok p => p
  | Err _ => {| PID := ""; PToolID := ""; Actions := []; NeedsApproval := false; Status := PlanPending;
                ErrorPattern := ""; ErrorMessage := ""; BackupCode := ""; CreatedAt := 0 |}
  end.
(** Go cannot be parsed here, and the first two writes fail. *)
Abbreviation sample_execute :=
  (ExecutePlan (λ _, None) (λ l, l) (Some DSLCompilerAdapter) (λ n, bool_decide (2 ≤ n)%nat) (λ _, 0) (λ _, 0)).

Lemma planned_repair_changes_nothing_witness :
  code_of "t1" (sample_execute (ApprovePlan sample_plan) sample_world).1.2 = Some (BackupCode sample_plan).
Proof.
  destruct (planned_repair_changes_nothing (λ _, None) (λ l, l) (Some DSLCompilerAdapter)
    (λ n, bool_decide (2 ≤ n)%nat) (λ _, 0) (λ _, 0) 0 true "t1" "syntax error near line 3"
    Repository.sample_repo0 0 1 sample_plan
    (sample_execute (ApprovePlan sample_plan) sample_world).1.1 sample_world
    (sample_execute (ApprovePlan sample_plan) sample_world).1.2
    (sample_execute (ApprovePlan sample_plan) sample_world).2) as [_ (e & He & Hc)].
  - vm_compute. reflexivity.
  - vm_compute. eauto.
  - by destruct (sample_execute _ _) as [[? ?] ?].
  - apply Hc. intros l x Hx. subst e. revert He. vm_compute. discriminate.
Defined.

Lemma ExecutePlan_verified_witness :
  Status (sample_execute (ApprovePlan sample_plan) sample_world).1.1 = PlanFailed ∧
  code_of "t2" (sample_execute (ApprovePlan sample_plan) sample_world).1.2 = code_of "t2" sample_world.
Proof.
  split; [vm_compute; reflexivity|].
  destruct (sample_execute (ApprovePlan sample_plan) sample_world) as [[p' w'] o] eqn:E.
  destruct (ExecutePlan_verified _ _ _ _ _ _ _ _ _ _ _ E) as [[Ho _] _].
  apply Ho. vm_compute. discriminate.
Defined.

Lemma plan_executes_once_witness :
  (run_ops (λ _, None) (λ l, l) None (λ _, true) (λ _, 0) (λ _, 0) [OpExecute; OpReject; OpApprove; OpExecute]
     (sample_plan, sample_world)).2 = sample_world.
Proof.
  destruct (run_ops (λ _, None) (λ l, l) None (λ _, true) (λ _, 0) (λ _, 0)
    [OpExecute; OpReject; OpApprove; OpExecute] (sample_plan, sample_world)) as [p' w'] eqn:E.
  destruct (plan_executes_once _ _ _ _ _ _ _ _ _ _ _ (eq_refl : Status sample_plan = PlanPending) E)
    as [Hw|(pre & post & Hops & Happ & Hrej & _)]; [exact Hw|exfalso].
  destruct pre as [|[] [|[] [|[] [|[] pre]]]]; try discriminate Hops;
    first [by apply not_elem_of_nil in Happ|apply Hrej; right; left].
Defined.

Lemma performance_never_planned_witness :
  ErrorPattern sample_plan ≠ PatternToolPerformance ∧ NeedsApproval sample_plan = true.
Proof.
  destruct (performance_never_planned 0 true "t1" "syntax error near line 3" Repository.sample_repo0 0 1 sample_plan)
    as [H1 _]; [vm_compute; reflexivity|]. split; [exact H1|vm_compute; reflexivity].
Defined.
End Repair.
