(* ===== verification/DslInput.v ===== *)
(** * Validation of language input (internal/dsl/validation.go)

    The size limit and the blocked statements, with the expressions of GoRegexp.v.  A
    letter of a case-insensitive expression stands for its two cases and, as in Go,
    for the other runes that fold to it: the long s and the Kelvin sign. *)

From S2P Require Import Prelude GoStrings GoRegexp.

Module DslInput.
Import Regexp.

Definition maxDSLInputSize : Z := 100000.

(** [\bA\s+B\b] and [\bA\b], ignoring case. *)
Definition phrase (a b : string) : rx := seq_rx [Wordb; fold_word a; plus sp; fold_word b; Wordb].
Definition single (a : string) : rx := seq_rx [Wordb; fold_word a; Wordb].

Definition sqlInjectionPatterns : list (string * rx) :=
  [ ("DROP TABLE", phrase "DROP" "TABLE"); ("DROP SCHEMA", phrase "DROP" "SCHEMA");
    ("TRUNCATE", single "TRUNCATE"); ("CREATE TABLE", phrase "CREATE" "TABLE");
    ("ALTER TABLE", phrase "ALTER" "TABLE"); ("INSERT INTO", phrase "INSERT" "INTO");
    ("UPDATE SET", seq_rx [Wordb; fold_word "UPDATE"; plus sp; plus wordch; plus sp; fold_word "SET"; Wordb]);
    ("DELETE FROM", phrase "DELETE" "FROM"); ("GRANT", single "GRANT"); ("REVOKE", single "REVOKE") ].

Inductive input_error := TooLarge (n : Z) | NullByte | ForbiddenPattern (p : string).

Definition ValidateDSLInput (input : string) : option input_error :=
  if bool_decide (str_len input > maxDSLInputSize) then Some (TooLarge (str_len input))
  else if str_mem "000" input then Some NullByte
  else (λ p, ForbiddenPattern p.2.1) <$> list_find (λ p, MatchString p.2 input = true) sqlInjectionPatterns.

(** Input is accepted exactly when it has at most 100000 bytes, none of them zero,
    and no blocked statement matches at any place, in the sense of the expressions. *)
Theorem ValidateDSLInput_spec (input : string) :
  ValidateDSLInput input = None ↔
  str_len input ≤ maxDSLInputSize ∧ str_mem "000" input = false ∧
  ∀ n r a b p', (n, r) ∈ sqlInjectionPatterns → chars input = a ++ b → ¬ denotes r (last a, b, None) p'.
Proof.
  unfold ValidateDSLInput. case_bool_decide as Hl; [split; [done|lia]|].
  destruct (str_mem "000" input); [split; [done|]; by intros (_ & ? & _)|].
  rewrite fmap_None, list_find_None, Forall_forall. split.
  - intros Hn. split_and!; [lia|done|]. intros n r a b p' Hin E Hd. apply (Hn _ Hin).
    apply MatchString_iff. eauto.
  - intros (_ & _ & Hn) [n r] Hin (a & b & p' & E & Hd)%MatchString_iff. eapply Hn; eauto.
Qed.

(** The statements are recognised only when their words are separated by white
    space: with an SQL comment between them, which DuckDB reads as a space, the
    statement is accepted. *)
Theorem comment_evades :
  ValidateDSLInput "drop table users" = Some (ForbiddenPattern "DROP TABLE") ∧
  ValidateDSLInput "drop/**/table users" = None.
Proof. split; vm_compute; reflexivity. Qed.
End DslInput.
