(* ===== verification/Fetch.v ===== *)
(** * Fetching: rate limits, the worker pool and paginated requests
    (internal/ingestion/sources/fetcher.go)

    [Http] holds requests, responses and the server as the program sees it;
    [RateLimit_] the configuration of a client, [Pool] the worker pool as a step
    relation over its channels and workers, [Pages] the loop over pages.  The
    token bucket of golang.org/x/time/rate is a parameter: a wait that it refuses
    is a request without a response. *)

From S2P Require Import Prelude GoStrings GoValues.

Module Http.
Record Request := { ReqURL : string; ReqHeader : list (string * string) }.
(** [Body] is [None] when reading it fails. *)
Record Response := { StatusCode : Z; RespHeader : list (string * string); Body : option string }.

(** [http.Header.Get] and [Set], with names in canonical form. *)
Definition Get (name : string) (h : list (string * string)) : string :=
  match filter (λ kv, kv.1 = name) h with kv :: _ => kv.2 | [] => "" end.
Definition Set_ (name v : string) (h : list (string * string)) : list (string * string) :=
  filter (λ kv, kv.1 ≠ name) h ++ [(name, v)].
Definition set_all (kvs h : list (string * string)) : list (string * string) :=
  foldl (λ h kv, Set_ kv.1 kv.2 h) h kvs.

(** The answer to a request may depend on all requests before it; [None] when the
    limiter, the dialer or the network gives an error. *)
Definition Server : Type := list Request → Request → option Response.

Definition is_2xx (code : Z) : bool := (200 <=? code) && (code <? 300).
Definition first_bytes (n : nat) (s : string) : string := str_take n s.
End Http.

Module Limits.
Record RateLimitConfig := { RequestsPerSecond : f64; Burst : Z }.
Definition DefaultRate : RateLimitConfig := {| RequestsPerSecond := f64_of_int 10; Burst := 20 |}.
Definition GitHubRate : RateLimitConfig := {| RequestsPerSecond := f64_of_int 2; Burst := 5 |}.
Definition GoogleRate : RateLimitConfig := {| RequestsPerSecond := f64_of_int 10; Burst := 20 |}.

(** The limit and burst of the limiter of a new client. *)
Definition NewRateLimitedClient (cfg : RateLimitConfig) : RateLimitConfig :=
  let cfg := if f64_le (RequestsPerSecond cfg) (f64_of_int 0) then DefaultRate else cfg in
  {| RequestsPerSecond := RequestsPerSecond cfg;
     Burst :=
       if bool_decide (Burst cfg ≤ 0) then
         let burst := wrap64 (f64_trunc (RequestsPerSecond cfg) * 2) in
         if bool_decide (burst < 1) then 1 else burst
       else Burst cfg |}.

(** Every client can send at least one request at once, and none has a rate that is
    zero or negative. *)
Lemma NewRateLimitedClient_usable cfg :
  1 ≤ Burst (NewRateLimitedClient cfg) ∧
  f64_le (RequestsPerSecond (NewRateLimitedClient cfg)) (f64_of_int 0) = false.
Proof.
  unfold NewRateLimitedClient. cbn [Burst RequestsPerSecond]. split.
  - case_bool_decide; [case_bool_decide|]; lia.
  - destruct (f64_le (RequestsPerSecond cfg) _) eqn:E; [reflexivity|done].
Qed.
End Limits.

(** ** The worker pool *)
Module Pool.

Record ChunkConfig := { Workers : Z; BatchSize : Z; MaxRetries : Z; RetryDelay : Duration }.
Definition DefaultChunkConfig : ChunkConfig :=
  {| Workers := 4; BatchSize := 500; MaxRetries := 3; RetryDelay := second |}.
Record ChunkJob := { Index : Z; Data : string }.

Definition NewWorkerPool (cfg : ChunkConfig) : ChunkConfig :=
  if bool_decide (Workers cfg ≤ 0) then DefaultChunkConfig else cfg.

Section Run.
Context {E : Type} (ctx_err : E) (cfg : ChunkConfig).

(** What one call of the processing function does. *)
Inductive outcome := Done | Failed (e : E) | Panics.

(** The outcome of the [n]th call for a job. *)
Context (process : ChunkJob → nat → outcome).

Record ChunkResult := { RIndex : Z; RErr : option E }.

(** A worker waits for a job, is about to make an attempt, waits for the delay
    before an attempt, is about to send its result, or has returned. *)
Inductive worker :=
| Idle
| Trying (j : ChunkJob) (attempt : nat)
| Delayed (j : ChunkJob) (attempt : nat)
| Reporting (j : ChunkJob) (r : option E)
| Gone.

Record State := {
  jobCh : list ChunkJob;
  resultCh : list ChunkResult;
  workers : list worker;
  cancelled : bool;
}.

Definition start (jobs : list ChunkJob) : State :=
  {| jobCh := jobs; resultCh := []; workers := replicate (Z.to_nat (Workers cfg)) Idle; cancelled := false |}.

(** The attempts are those with [attempt <= MaxRetries]; without any the result is
    a success. *)
Definition begin_job (j : ChunkJob) : worker :=
  if bool_decide (0 ≤ MaxRetries cfg) then Trying j 0 else Reporting j None.
Definition after_failure (j : ChunkJob) (attempt : nat) (e : E) : worker :=
  if bool_decide (Z.of_nat (S attempt) ≤ MaxRetries cfg) then Delayed j (S attempt) else Reporting j (Some e).

Definition with_worker (i : nat) (w : worker) (s : State) : State :=
  {| jobCh := jobCh s; resultCh := resultCh s; workers := <[i := w]> (workers s); cancelled := cancelled s |}.
Definition take_job (s : State) : State :=
  {| jobCh := tail (jobCh s); resultCh := resultCh s; workers := workers s; cancelled := cancelled s |}.
Definition send (j : ChunkJob) (r : option E) (s : State) : State :=
  {| jobCh := jobCh s; resultCh := resultCh s ++ [{| RIndex := Index j; RErr := r |}];
     workers := workers s; cancelled := cancelled s |}.

Inductive step : State → State → Prop :=
| step_cancel s : cancelled s = false →
    step s {| jobCh := jobCh s; resultCh := resultCh s; workers := workers s; cancelled := true |}
| step_drained s i : workers s !! i = Some Idle → jobCh s = [] → step s (with_worker i Gone s)
| step_take s i j js : workers s !! i = Some Idle → jobCh s = j :: js → cancelled s = false →
    step s (with_worker i (begin_job j) (take_job s))
| step_take_cancelled s i j js : workers s !! i = Some Idle → jobCh s = j :: js → cancelled s = true →
    step s (with_worker i Gone (send j (Some ctx_err) (take_job s)))
| step_done s i j n : workers s !! i = Some (Trying j n) → process j n = Done →
    step s (with_worker i (Reporting j None) s)
| step_failed s i j n e : workers s !! i = Some (Trying j n) → process j n = Failed e →
    step s (with_worker i (after_failure j n e) s)
| step_panic s i j n : workers s !! i = Some (Trying j n) → process j n = Panics →
    step s (with_worker i Gone s)
| step_delay_over s i j n : workers s !! i = Some (Delayed j n) → step s (with_worker i (Trying j n) s)
| step_delay_cancelled s i j n : workers s !! i = Some (Delayed j n) → cancelled s = true →
    step s (with_worker i (Reporting j (Some ctx_err)) s)
| step_report s i j r : workers s !! i = Some (Reporting j r) → step s (with_worker i Idle (send j r s)).

(** The pool waits until all workers have returned; the first error counts. *)
Definition finished (s : State) : Prop := Forall (λ w, w = Gone) (workers s).
Definition first_error (rs : list ChunkResult) : option E := head (omap RErr rs).

(** The reference: the attempts of one job, one after another. *)
Fixpoint retry (j : ChunkJob) (attempt : nat) (more : nat) : option E :=
  match process j attempt with
  | Failed e => match more with O => Some e | S more => retry j (S attempt) more end
  | _ => None
  end.
Definition outcome_of (j : ChunkJob) : option E :=
  if bool_decide (0 ≤ MaxRetries cfg) then retry j 0 (Z.to_nat (MaxRetries cfg)) else None.
Definition result_of (j : ChunkJob) : ChunkResult := {| RIndex := Index j; RErr := outcome_of j |}.

(** *** Bounds and termination *)
Definition held (w : worker) : option ChunkJob :=
  match w with Trying j _ | Delayed j _ | Reporting j _ => Some j | _ => None end.

Lemma insert_middle {A} (l1 l2 : list A) x y : <[length l1 := y]> (l1 ++ x :: l2) = l1 ++ y :: l2.
Proof. induction l1 as [|a l1 IH]; [done|]. exact (f_equal (cons a) IH). Qed.

Lemma workers_split {B} (f : worker → option B) ws i w w' : ws !! i = Some w →
  ∃ rest, omap f ws ≡ₚ option_list (f w) ++ rest ∧ omap f (<[i := w']> ws) ≡ₚ option_list (f w') ++ rest.
Proof.
  intros Hi. apply list_elem_of_split_length in Hi as (l1 & l2 & -> & ->).
  exists (omap f l1 ++ omap f l2). rewrite insert_middle, !omap_app. cbn [omap list_omap].
  split; [destruct (f w)|destruct (f w')]; cbn; by rewrite ?Permutation_middle.
Qed.

(** What is in the channels and in the hands of the workers. *)
Definition load (s : State) : nat := length (resultCh s) + length (omap held (workers s)) + length (jobCh s).

Lemma step_load s s' : step s s' → (load s' ≤ load s)%nat.
Proof.
  assert (∀ i w w' q, workers q !! i = Some w →
    (length (omap held (<[i:=w']> (workers q))) + length (option_list (held w))
     = length (omap held (workers q)) + length (option_list (held w')))%nat) as Hw.
  { intros i w w' q Hi. destruct (workers_split held (workers q) i w w' Hi) as (rest & H1 & H2).
    apply Permutation_length in H1, H2. rewrite length_app in H1, H2. lia. }
  unfold load. destruct 1; cbn [resultCh workers jobCh with_worker take_job send]; rewrite ?length_app; try lia;
    match goal with Hi : workers ?q !! ?i = Some ?w |- context [<[?i:=?w']> _] => pose proof (Hw i w w' q Hi) as Hl end;
    cbn in Hl; cbn [length]; try lia.
  - rewrite H0. cbn. unfold begin_job in *. case_bool_decide; cbn in Hl; lia.
  - rewrite H0. cbn. lia.
  - unfold after_failure in *. case_bool_decide; cbn in Hl; lia.
Qed.

Definition more_attempts (n : nat) : nat := Z.to_nat (MaxRetries cfg + 1 - Z.of_nat n).
Definition weight (w : worker) : nat :=
  match w with
  | Gone => 0 | Idle => 1 | Reporting _ _ => 2
  | Trying _ n => 2 * more_attempts n + 3
  | Delayed _ n => 2 * more_attempts n + 4
  end.
Definition measure (s : State) : nat :=
  sum_list_with weight (workers s) + (2 * more_attempts 0 + 3) * length (jobCh s) + (if cancelled s then 0 else 1).

Lemma weight_insert ws i w w' : ws !! i = Some w →
  (sum_list_with weight (<[i := w']> ws) + weight w = sum_list_with weight ws + weight w')%nat.
Proof.
  intros Hi. apply list_elem_of_split_length in Hi as (l1 & l2 & -> & ->).
  rewrite insert_middle, !sum_list_with_app. cbn. lia.
Qed.

Lemma step_measure s s' : step s s' → (measure s' < measure s)%nat.
Proof.
  unfold measure. destruct 1; cbn [resultCh workers jobCh cancelled with_worker take_job send];
    try (match goal with Hi : workers ?q !! ?i = Some ?w |- context [<[?i:=?w']> _] =>
           pose proof (weight_insert (workers q) i w w' Hi) as Hl end; cbn [weight] in Hl); try lia.
  - rewrite H. lia.
  - rewrite H0, H1. cbn [tail length]. unfold begin_job in *. case_bool_decide; cbn [weight] in Hl; lia.
  - rewrite H0. cbn [tail length]. lia.
  - unfold after_failure in *. case_bool_decide as Hb; cbn [weight] in Hl; [|lia].
    unfold more_attempts in *. lia.
Qed.

#[global] Instance worker_gone_dec (w : worker) : Decision (w = Gone).
Proof. destruct w; first [left; reflexivity|right; discriminate]. Defined.

Lemma step_progress s : ¬ finished s → ∃ s', step s s'.
Proof.
  intros Hf. apply not_Forall_Exists in Hf; [|apply _].
  apply Exists_exists in Hf as (w & (i & Hi)%list_elem_of_lookup & Hw).
  destruct w as [|j n|j n|j r|]; [| | | |by destruct (Hw eq_refl)].
  - destruct (jobCh s) as [|j js] eqn:Ej; [eauto using step|]. destruct (cancelled s) eqn:Ec; eauto using step.
  - destruct (process j n) eqn:Ep; eauto using step.
  - eauto using step.
  - eauto using step.
Qed.

Lemma star_load s s' : star step s s' → (load s' ≤ load s)%nat.
Proof. induction 1 as [|a b c Hs _ IH]; [done|]. apply step_load in Hs. lia. Qed.

Lemma load_start jobs : load (start jobs) = length jobs.
Proof.
  unfold load, start. cbn [resultCh jobCh workers]. assert (∀ n, omap held (replicate n Idle) = []) as -> by (by induction n).
  done.
Qed.

Lemma step_terminates s : Acc (λ a b, step b a) s.
Proof.
  remember (measure s) as m eqn:Em. revert s Em. induction m as [m IH] using lt_wf_ind. intros s ->.
  constructor. intros s' Hs. apply (IH (measure s')); [by apply step_measure|done].
Qed.

(** *** What the results say *)

(** The job of a worker will end as the reference says. *)
Definition on_course (w : worker) : Prop :=
  match w with
  | Trying j n | Delayed j n =>
    Z.of_nat n ≤ MaxRetries cfg ∧ retry j n (Z.to_nat (MaxRetries cfg - Z.of_nat n)) = outcome_of j
  | Reporting j r => r = outcome_of j
  | _ => True
  end.
Definition accounted (jobs : list ChunkJob) (s : State) : Prop :=
  cancelled s = false →
  Forall on_course (workers s) ∧
  resultCh s ++ (result_of <$> omap held (workers s)) ++ (result_of <$> jobCh s) ≡ₚ result_of <$> jobs.

Context (no_panics : ∀ j n, process j n ≠ Panics).

Lemma begin_job_course j : on_course (begin_job j) ∧ held (begin_job j) = Some j.
Proof.
  unfold begin_job, outcome_of. case_bool_decide as Hb; cbn; unfold outcome_of.
  - rewrite bool_decide_eq_true_2 by done. split; [|done]. split; [lia|]. f_equal. lia.
  - by rewrite bool_decide_eq_false_2.
Qed.

Lemma after_failure_held j n e : held (after_failure j n e) = Some j.
Proof. unfold after_failure. by case_bool_decide. Qed.
Lemma after_failure_course j n e : on_course (Trying j n) → process j n = Failed e → on_course (after_failure j n e).
Proof.
  intros [Hn Hr] Hp. unfold after_failure. case_bool_decide as Hb; cbn [on_course].
  - split; [lia|]. rewrite <- Hr.
    replace (Z.to_nat (MaxRetries cfg - Z.of_nat n)) with (S (Z.to_nat (MaxRetries cfg - Z.of_nat (S n)))) by lia.
    cbn [retry]. by rewrite Hp.
  - rewrite <- Hr. replace (Z.to_nat (MaxRetries cfg - Z.of_nat n)) with O by lia. cbn [retry]. by rewrite Hp.
Qed.

Lemma retry_done j n k : process j n = Done → retry j n k = None.
Proof. intros Hp. destruct k; cbn [retry]; by rewrite Hp. Qed.

(** Replacing a worker by one that holds the same job keeps the account. *)
Lemma accounted_swap jobs s i w w' : accounted jobs s → workers s !! i = Some w →
  (cancelled s = false → on_course w → on_course w') → held w' = held w →
  accounted jobs (with_worker i w' s).
Proof.
  intros Ha Hi Hc Hh Hn. destruct (Ha Hn) as [Hf Hp]. cbn [with_worker workers resultCh jobCh] in *. split.
  - apply Forall_insert; [done|]. apply Hc; [done|]. by eapply Forall_lookup_1.
  - rewrite <- Hp. destruct (workers_split held (workers s) i w w' Hi) as (rest & H1 & H2).
    by rewrite H1, H2, Hh.
Qed.

Lemma step_accounted jobs s s' : step s s' → accounted jobs s → accounted jobs s'.
Proof.
  destruct 1 as [s Hc|s i Hi Hj|s i j js Hi Hj Hc|s i j js Hi Hj Hc|s i j n Hi Hp|s i j n e Hi Hp|s i j n Hi Hp
                |s i j n Hi|s i j n Hi Hc|s i j r Hi]; intros Ha.
  - by intros [=].
  - by eapply accounted_swap.
  - intros Hn. destruct (Ha Hn) as [Hf Hpm]. destruct (begin_job_course j) as [Hb Hh].
    cbn [with_worker take_job workers resultCh jobCh]. split; [by apply Forall_insert|].
    rewrite <- Hpm, Hj. destruct (workers_split held (workers s) i Idle (begin_job j) Hi) as (rest & H1 & H2).
    rewrite H1, H2, Hh. cbn. f_equiv. by rewrite Permutation_middle.
  - intros Hn. cbn in Hn. congruence.
  - eapply accounted_swap; [done..| |done]. cbn. intros _ [_ Hr]. by rewrite <- Hr, retry_done.
  - eapply accounted_swap; [done..| |apply after_failure_held]. intros _ Hr. by apply after_failure_course.
  - by destruct (no_panics j n).
  - by eapply accounted_swap.
  - intros Hn. cbn in Hn. congruence.
  - intros Hn. destruct (Ha Hn) as [Hf Hpm]. cbn [with_worker send workers resultCh jobCh].
    assert (r = outcome_of j) as -> by (by apply (Forall_lookup_1 _ _ _ _ Hf Hi)).
    split; [by apply Forall_insert|]. rewrite <- Hpm.
    destruct (workers_split held (workers s) i _ Idle Hi) as (rest & H1 & H2).
    rewrite H1, H2. cbn. by rewrite <- app_assoc.
Qed.

Lemma star_accounted jobs s : star step (start jobs) s → accounted jobs s.
Proof.
  intros Hs. eapply star_invariant; [|exact Hs|]; [intros a b Hab; by apply step_accounted|].
  intros _. unfold start. cbn [workers resultCh jobCh]. split; [by apply Forall_replicate|].
  assert (∀ n, omap held (replicate n Idle) = []) as -> by (by induction n). done.
Qed.

(** Without panics and cancellation a worker returns only when no job is left. *)
Definition drains (s : State) : Prop :=
  length (workers s) = Z.to_nat (Workers cfg) ∧ (cancelled s = false → Gone ∈ workers s → jobCh s = []).

Lemma gone_insert (ws : list worker) (i : nat) (w : worker) : w ≠ Gone → Gone ∈ <[i := w]> ws → Gone ∈ ws.
Proof.
  intros Hw (k & Hk)%list_elem_of_lookup. apply list_lookup_insert_Some in Hk as [(_ & Ew & _)|[_ Hk]]; [congruence|].
  by eapply list_elem_of_lookup_2.
Qed.

Lemma step_drains s s' : step s s' → drains s → drains s'.
Proof.
  intros Hs [Hl Hd]. split; [by destruct Hs; cbn; rewrite ?length_insert|].
  destruct Hs as [s Hc|s i Hi Hj|s i j js Hi Hj Hc|s i j js Hi Hj Hc|s i j n Hi Hp|s i j n e Hi Hp|s i j n Hi Hp
                |s i j n Hi|s i j n Hi Hc|s i j r Hi]; cbn; intros Hn Hg; try (by destruct (no_panics j n)); try congruence;
    try (apply Hd; [done|]; eapply gone_insert; [|exact Hg]; unfold after_failure; try case_bool_decide; done).
  rewrite Hj. cbn. apply gone_insert in Hg; [|unfold begin_job; by case_bool_decide].
  specialize (Hd Hn Hg). congruence.
Qed.

Lemma star_drains jobs s : star step (start jobs) s → drains s.
Proof.
  intros Hs. eapply star_invariant; [exact step_drains|exact Hs|].
  split; [apply length_replicate|]. intros _ Hg. apply elem_of_replicate in Hg as [? _]. congruence.
Qed.

Lemma finished_idle s : finished s → omap held (workers s) = [].
Proof. unfold finished. induction 1 as [|w ws -> _ IH]; [done|]. exact IH. Qed.

Lemma first_error_None (rs : list ChunkResult) : first_error rs = None ↔ Forall (λ r, RErr r = None) rs.
Proof.
  unfold first_error. induction rs as [|[i [e|]] rs IH]; cbn; [by rewrite Forall_nil| |]; rewrite Forall_cons; cbn.
  - split; [done|]. by intros [? _].
  - rewrite IH. naive_solver.
Qed.
End Run.

Arguments Idle {E}.
Arguments Gone {E}.
Arguments Done {E}.
Arguments Panics {E}.

(** C11: the worker pool always ends and refines one attempt after another: every run
    is finite, a pool that is not finished can go on, and no send of a result ever
    blocks; at the end of a run that was not cancelled, with workers and without
    panics, every job has exactly one result, the one of its own attempts in order,
    and the pool reports no error exactly when every job succeeded within its
    attempts. *)
Theorem pool_refines_retry {E} (ctx_err : E) (cfg : ChunkConfig) (process : ChunkJob → nat → outcome)
    (jobs : list ChunkJob) (s : State) :
  star (step ctx_err cfg process) (start cfg jobs) s →
  Acc (λ a b, step ctx_err cfg process b a) s ∧
  (finished s ∨ ∃ s', step ctx_err cfg process s s') ∧
  (length (resultCh s) ≤ length jobs)%nat ∧
  ((∀ j n, process j n ≠ Panics) → 0 < Workers cfg → finished s → cancelled s = false →
     resultCh s ≡ₚ (result_of cfg process <$> jobs) ∧
     (first_error (resultCh s) = None ↔ Forall (λ j, outcome_of cfg process j = None) jobs)).
Proof.
  intros Hs. split; [apply step_terminates|]. split.
  { destruct (decide (Forall (λ w, w = Gone) (workers s))) as [Hf|Hf]; [by left|right]. by apply step_progress. }
  split. { apply star_load in Hs. rewrite load_start in Hs. unfold load in Hs. lia. }
  intros Hnp Hw Hf Hc. destruct (star_accounted ctx_err cfg process Hnp jobs s Hs Hc) as [_ Hp].
  destruct (star_drains ctx_err cfg process Hnp jobs s Hs) as [Hl Hd].
  rewrite (finished_idle s Hf), Hd, !fmap_nil, !app_nil_r in Hp.
  - split; [done|]. rewrite first_error_None. rewrite Hp, Forall_fmap. done.
  - done.
  - unfold finished in Hf. destruct (workers s) as [|w ws]; [cbn in Hl; lia|]. apply Forall_cons in Hf as [-> _]. left.
Qed.

(** A panic of the processing function is reported as success: when every call
    panics, a run that was not cancelled ends without a result and without an error,
    whatever the jobs are. *)
Theorem pool_hides_panics {E} (ctx_err : E) (cfg : ChunkConfig) (jobs : list ChunkJob) (s : State) :
  0 ≤ MaxRetries cfg →
  star (step ctx_err cfg (λ _ _, Panics)) (start cfg jobs) s → cancelled s = false →
  resultCh s = [] ∧ first_error (resultCh s) = None.
Proof.
  intros Hr Hs Hc.
  set (P := λ q : @State E, Forall (λ w, match w with Idle | Trying _ _ | Gone => True | _ => False end) (workers q) ∧
                         (cancelled q = false → resultCh q = [])).
  assert (P s) as [_ He].
  { clear Hc. eapply (star_invariant _ P); [|exact Hs|split; [by apply Forall_replicate|done]]. unfold P. clear P Hs s.
    intros a b [q Hc|q i Hi Hj|q i j js Hi Hj Hc|q i j js Hi Hj Hc|q i j n Hi Hp|q i j n e Hi Hp|q i j n Hi Hp
                |q i j n Hi|q i j n Hi Hc|q i j r Hi] [Hf He]; cbn; try discriminate;
      try (pose proof (Forall_lookup_1 _ _ _ _ Hf Hi); done);
      (split; [try apply Forall_insert; try done|intros; try congruence; auto]).
    unfold begin_job. by rewrite bool_decide_eq_true_2. }
  by rewrite He.
Qed.

(** *** Witnesses *)
Definition sample_jobs : list ChunkJob := [{| Index := 0; Data := "a" |}; {| Index := 1; Data := "b" |}].
Definition one_worker : ChunkConfig := {| Workers := 1; BatchSize := 500; MaxRetries := 1; RetryDelay := second |}.
(** The second job fails once. *)
Definition sample_process (j : ChunkJob) (n : nat) : @outcome string :=
  if bool_decide (Index j = 1 ∧ n = 0%nat) then Failed "busy" else Done.

Lemma sample_schedule : ∃ s, star (step "cancelled" one_worker sample_process) (start one_worker sample_jobs) s ∧
  finished s ∧ cancelled s = false ∧ resultCh s = [{| RIndex := 0; RErr := None |}; {| RIndex := 1; RErr := None |}].
Proof.
  exists {| jobCh := []; resultCh := [{| RIndex := 0; RErr := None |}; {| RIndex := 1; RErr := None |}];
           workers := [Gone]; cancelled := false |}.
  split; [|split; [|split; reflexivity]].
  { eapply star_step; [by eapply (step_take _ _ _ _ 0)|]. cbn.
    eapply star_step; [by eapply (step_done _ _ _ _ 0)|]. cbn.
    eapply star_step; [by eapply (step_report _ _ _ _ 0)|]. cbn.
    eapply star_step; [by eapply (step_take _ _ _ _ 0)|]. cbn.
    eapply star_step; [by eapply (step_failed _ _ _ _ 0)|]. cbn.
    eapply star_step; [by eapply (step_delay_over _ _ _ _ 0)|]. cbn.
    eapply star_step; [by eapply (step_done _ _ _ _ 0)|]. cbn.
    eapply star_step; [by eapply (step_report _ _ _ _ 0)|]. cbn.
    eapply star_step; [by eapply (step_drained _ _ _ _ 0)|]. apply star_refl. }
  by repeat constructor.
Defined.

Lemma pool_refines_retry_witness :
  ∃ s, star (step "cancelled" one_worker sample_process) (start one_worker sample_jobs) s ∧
       first_error (resultCh s) = None ∧ Forall (λ j, outcome_of one_worker sample_process j = None) sample_jobs.
Proof.
  destruct sample_schedule as (s & Hs & Hf & Hc & Hr). exists s. split; [done|].
  destruct (pool_refines_retry "cancelled" one_worker sample_process sample_jobs s Hs) as (_ & _ & _ & Hp).
  destruct Hp as [_ Hp]; [by intros j n; unfold sample_process; case_bool_decide|done|done|done|].
  assert (first_error (resultCh s) = None) as He by by rewrite Hr. split; [done|by apply Hp].
Defined.

Lemma pool_hides_panics_witness :
  ∃ s, star (step "cancelled" one_worker (λ _ _, Panics)) (start one_worker sample_jobs) s ∧
       finished s ∧ first_error (resultCh s) = None ∧ jobCh s ≠ [].
Proof.
  eexists. assert (star (step "cancelled" one_worker (λ _ _, Panics)) (start one_worker sample_jobs)
    {| jobCh := tail sample_jobs; resultCh := []; workers := [Gone]; cancelled := false |}) as Hs.
  { eapply star_step; [by eapply (step_take _ _ _ _ 0)|]. cbn.
    eapply star_step; [by eapply (step_panic _ _ _ _ 0)|]. apply star_refl. }
  split; [exact Hs|]. split; [by repeat constructor|]. split; [|done].
  by apply (pool_hides_panics "cancelled" one_worker sample_jobs).
Defined.
End Pool.

(** ** Pages *)
Module Pages.
Import Http.

Inductive fetch_error (X : Type) :=
| CreateRequest (url : string)
| RequestFailed (url : string)
| ReadBody (url : string)
| HTTPStatus (code : Z) (url text : string)
| Consume (url : string) (e : X).
Arguments CreateRequest {X} _.
Arguments RequestFailed {X} _.
Arguments ReadBody {X} _.
Arguments HTTPStatus {X} _ _ _.
Arguments Consume {X} _ _.

Section FetchPages.
(** [new_request] says which URLs make a request; [next] and [consume] share the
    variables [S] they close over. *)
Context {S X : Type} (new_request : string → bool) (serve : Server) (headers : list (string * string)).
Context (next : option (S → string → S * string)) (consume : S → string → result X S).

Definition page_request (url : string) : Request :=
  {| ReqURL := url; ReqHeader := Set_ "Accept" "application/json" (set_all headers []) |}.

(** The body of one page. *)
Definition get_page (hist : list Request) (url : string) : result (fetch_error X) string :=
  if negb (new_request url) then Err (CreateRequest url)
  else match serve hist (page_request url) with
       | None => Err (RequestFailed url)
       | Some resp =>
         match Body resp with
         | None => Err (ReadBody url)
         | Some body => if is_2xx (StatusCode resp) then Ok body
                        else Err (HTTPStatus (StatusCode resp) url (first_bytes 500 body))
         end
       end.
Definition sent (hist : list Request) (url : string) : list Request :=
  if new_request url then hist ++ [page_request url] else hist.

(** The requests sent, the variables and the error when the loop has ended; [None]
    while it runs on after [fuel] pages. *)
Fixpoint FetchPages (fuel : nat) (hist : list Request) (url : string) (s : S) :
    option (list Request * S * option (fetch_error X)) :=
  if bool_decide (url = "") then Some (hist, s, None)
  else match fuel with
  | O => None
  | Datatypes.S fuel =>
    let hist' := sent hist url in
    match get_page hist url with
    | Err e => Some (hist', s, Some e)
    | Ok body =>
      match consume s body with
      | Err e => Some (hist', s, Some (Consume url e))
      | Ok s =>
        match next with
        | None => Some (hist', s, None)
        | Some f => let '(s, url) := f s body in FetchPages fuel hist' url s
        end
      end
    end
  end.

(** More fuel does not change the result of a loop that has ended. *)
Lemma FetchPages_mono fuel fuel' hist url s r :
  FetchPages fuel hist url s = Some r → (fuel ≤ fuel')%nat → FetchPages fuel' hist url s = Some r.
Proof.
  revert fuel' hist url s. induction fuel as [|fuel IH]; intros [|fuel'] hist url s; cbn; try lia;
    case_bool_decide; try done.
  destruct (get_page hist url) as [body|e]; [|done]. destruct (consume s body) as [s'|e]; [|done].
  destruct next as [f|]; [|done]. destruct (f s' body) as [s'' url']. intros Hp Hl. apply IH; [done|lia].
Qed.

(** A loop whose next [n] pages are all consumed and name a further one has not
    ended after [n] pages. *)
Lemma FetchPages_running (Inv : nat → list Request → string → S → Prop) :
  (∀ n hist url s, Inv n hist url s → url ≠ "") →
  (∀ n hist url s, Inv (Datatypes.S n) hist url s →
     ∃ body s1 f, get_page hist url = Ok body ∧ consume s body = Ok s1 ∧ next = Some f ∧
       Inv n (sent hist url) (f s1 body).2 (f s1 body).1) →
  ∀ n hist url s, Inv n hist url s → FetchPages n hist url s = None.
Proof.
  intros Hne Hstep. induction n as [|n IH]; intros hist url s Hi; cbn;
    rewrite bool_decide_eq_false_2 by (by eapply Hne); [done|].
  destruct (Hstep n hist url s Hi) as (body & s1 & f & Hg & Hc & Hn & Hi').
  rewrite Hg, Hc, Hn. destruct (f s1 body) as [s2 u2] eqn:Ef. by apply IH.
Qed.
End FetchPages.
End Pages.
