(* ===== verification/Sources.v ===== *)
(** * The data sources (internal/ingestion/sources)

    The paginated JSON API (jsonapi.go), GitHub repositories (github.go), Google
    Sheets (sheets.go) and sitemaps (sitemap.go), over the client of Fetch.  What
    the program uses of net/url beyond escaping, and the XML and media-type
    parsers, are parameters. *)

From S2P Require Import Prelude GoStrings GoValues GoText GoJson Fetch.
Import Json Http.

(** [with_query u kvs]: [u] parsed, the query parameters [kvs] set one after another,
    and printed; [query_of u]: the parameters of [u].  [None] if [u] does not parse. *)
Class UrlLib := {
  with_query : string → list (string * string) → option string;
  query_of : string → option (list (string * string));
  with_query_nonempty : ∀ u kv kvs v, with_query u (kv :: kvs) = Some v → v ≠ "";
}.

(** ** Raw messages

    A [json.RawMessage] is the text of a value as it stands in the document. *)
Definition consumed (s rest : string) : string := str_take (String.length s - String.length rest) s.

(** The texts of the elements up to the closing bracket, and of the members up to the
    closing brace with their keys; a text has at most as many of them as bytes. *)
Fixpoint raw_elements (n : nat) (s : string) : option (list string) :=
  match n with
  | O => None
  | S n =>
    let s := skip_ws s in
    match p_value (fuel s) s with
    | None => None
    | Some (_, rest) =>
      match eat "," rest with
      | Some rest' => cons (consumed s rest) <$> raw_elements n rest'
      | None => Some [consumed s rest]
      end
    end
  end.
Fixpoint raw_members (n : nat) (s : string) : option (list (string * string)) :=
  match n with
  | O => None
  | S n =>
    match p_string (skip_ws s) with
    | None => None
    | Some (k, rest) =>
      match eat ":" rest with
      | None => None
      | Some v =>
        let v := skip_ws v in
        match p_value (fuel v) v with
        | None => None
        | Some (_, rest) =>
          match eat "," rest with
          | Some rest' => cons (k, consumed v rest) <$> raw_members n rest'
          | None => Some [(k, consumed v rest)]
          end
        end
      end
    end
  end.

(** [json.Unmarshal] into a [[]json.RawMessage] and into a [map[string]json.RawMessage],
    the last of several equal keys winning in the latter; [null] gives none. *)
Definition raw_array (text : string) : option (list string) :=
  match Unmarshal text with
  | Some JNull | Some (JArr []) => Some []
  | Some (JArr _) => raw_elements (String.length text) (str_drop 1 (skip_ws text))
  | _ => None
  end.
Definition raw_object (text : string) : option (list (string * string)) :=
  match Unmarshal text with
  | Some JNull | Some (JObj []) => Some []
  | Some (JObj _) => raw_members (String.length text) (str_drop 1 (skip_ws text))
  | _ => None
  end.
Definition raw_member (k : string) (m : list (string * string)) : option string :=
  foldl (λ r kv, if bool_decide (kv.1 = k) then Some kv.2 else r) None m.

(** What [json.Marshal] writes of a raw message: its text without the white space
    between tokens, with the escapes of the text kept and the characters that HTML
    treats specially escaped.  [in_str], [escaped]: inside a string, and right after
    a backslash there. *)
Fixpoint compact (in_str escaped : bool) (s : string) : string :=
  match s with
  | "" => ""
  | String c rest =>
    if negb in_str then
      if bool_decide (c ∈ [" "; "009"; "010"; "013"]%char) then compact false false rest
      else String c (compact (bool_decide (c = dquote)) false rest)
    else
      let next := compact (escaped || negb (bool_decide (c = dquote)))
                    (negb escaped && bool_decide (c = "\"%char)) in
      match rest with
      | String c2 (String c3 rest') =>
        let r := String c (String c2 (String c3 "")) in
        if bool_decide (r = line_separator) then esc "u2028" +:+ compact true false rest'
        else if bool_decide (r = paragraph_separator) then esc "u2029" +:+ compact true false rest'
        else (if bool_decide (c ∈ ["<"; ">"; "&"]%char) then escape_char c else String c "") +:+ next rest
      | _ => (if bool_decide (c ∈ ["<"; ">"; "&"]%char) then escape_char c else String c "") +:+ next rest
      end
  end.

(** [json.Marshal] of a slice of raw messages; it fails for text that is not JSON. *)
Definition array_text (items : list string) : string := "[" +:+ str_join "," (compact false false <$> items) +:+ "]".
Definition marshal_items (items : list string) : option string :=
  if forallb Valid items then Some (array_text items) else None.

Example raw_messages :
  let text := quoted " [ {'a': 'x<\/y' , 'b':[ 1, 2]},  1.50 , 'say \u0041'] " in
  raw_array text = Some [quoted "{'a': 'x<\/y' , 'b':[ 1, 2]}"; "1.50"; quoted "'say \u0041'"] ∧
  (raw_array text ≫= marshal_items) = Some (quoted "[{'a':'x\u003c\/y','b':[1,2]},1.50,'say \u0041']") ∧
  raw_object (quoted "{'a': 1, 'b' : [ ], 'a':2 }") = Some [("a", "1"); ("b", "[ ]"); ("a", "2")].
Proof. vm_compute. split_and!; reflexivity. Qed.

Module JsonApi.
Import Pages.

Record APIConfig := {
  BaseURL : string; Headers : list (string * string); PaginationType : string; PageParam : string;
  LimitParam : string; Limit : Z; DataPath : string; TotalPath : string; MaxPages : Z;
}.

Inductive api_error :=
| NoBaseURL
| UnknownPagination (t : string)
| LimitRequired (t : string)
| PagesFailed (pages : Z) (e : fetch_error string)
| MarshalFailed.

Definition Validate (c : APIConfig) : option api_error :=
  if bool_decide (BaseURL c = "") then Some NoBaseURL
  else if negb (bool_decide (PaginationType c ∈ ["offset"; "cursor"; "page"; "none"; ""]))
  then Some (UnknownPagination (PaginationType c))
  else if bool_decide (PaginationType c ≠ "" ∧ PaginationType c ≠ "none" ∧ Limit c ≤ 0)
  then Some (LimitRequired (PaginationType c))
  else None.

(** ** Paths into a value *)
Fixpoint walk (current : string) (parts : list string) : option string :=
  match parts with
  | [] => Some current
  | part :: parts =>
    match raw_object current with
    | None => None
    | Some obj => match raw_member part obj with Some val => walk val parts | None => None end
    end
  end.
Definition resolveJSONPath (data path : string) : option string :=
  if bool_decide (path = "") then Some data else walk data (str_split "." path).

(** The array at a path, if there is one. *)
Definition array_at (data path : string) : option (list string) := resolveJSONPath data path ≫= raw_array.

Definition first_char (s : string) : option ascii := match s with String c _ => Some c | "" => None end.

Section Bodies.
Context `{Unicode}.

Inductive extract_error := BadPath (p : string) | NotAnArray.

Definition extractItems (body dataPath : string) : result extract_error (list string) :=
  match resolveJSONPath body dataPath with
  | None => Err (BadPath dataPath)
  | Some data =>
    if bool_decide (first_char (TrimSpace data) = Some "{"%char) then
      match head (omap (array_at data) ["items"; "data"; "results"; "records"]) with
      | Some testArr => Ok testArr
      | None => Ok [data]
      end
    else match raw_array data with Some items => Ok items | None => Err NotAnArray end
  end.

(** The string at a path, if there is one that is not empty. *)
Definition string_at (data path : string) : option string :=
  match resolveJSONPath data path ≫= Unmarshal with
  | Some (JStr s) => if bool_decide (s = "") then None else Some s
  | _ => None
  end.
Definition extractCursorNext (body : string) : string :=
  default "" (head (omap (string_at body) ["next"; "links.next"; "data.next"; "meta.next"; "cursor.next"])).

(** The first of the usual paths with an array that is not empty. *)
Definition data_paths : list string := ["data"; "items"; "results"; "records"; "values"].
Definition has_items (data p : string) : bool :=
  match array_at data p with Some (_ :: _) => true | _ => false end.
Definition detect_path (body : string) : string :=
  default "" (head (filter (λ p, has_items body p = true) data_paths)).

Definition classifySourceType (body : string) : string :=
  match first_char (TrimSpace body) with
  | None => "unknown"
  | Some c => if bool_decide (c = "["%char) then "array-root"
              else if existsb (has_items body) data_paths then "object-with-nested" else "unknown"
  end.

Definition resolveTotal (body totalPath : string) : Z * bool :=
  if bool_decide (totalPath = "") then (0, false)
  else match resolveJSONPath body totalPath ≫= Unmarshal with
       | Some (JNum lit) => match Atoi lit with Some n => (n, bool_decide (n > 0)) | None => (0, false) end
       | Some (JStr s) =>
         if bool_decide (p_number s = Some (s, "")) then
           match Atoi s with Some n => (n, bool_decide (n > 0)) | None => (0, false) end
         else (0, false)
       | _ => (0, false)
       end.

(** ** Fetching all pages *)
Context `{UrlLib} (new_request : string → bool) (serve : Server).

Definition pageParam (c : APIConfig) : string := if bool_decide (PageParam c = "") then "page" else PageParam c.
Definition limitParam (c : APIConfig) : string := if bool_decide (LimitParam c = "") then "per_page" else LimitParam c.
Definition limit (c : APIConfig) : Z := if bool_decide (Limit c ≤ 0) then 100 else Limit c.
Definition maxPages (c : APIConfig) : Z := if bool_decide (MaxPages c ≤ 0) then max_int64 else MaxPages c.

Definition page_query (c : APIConfig) (value : Z) : list (string * string) :=
  [(limitParam c, Itoa (limit c)); (pageParam c, Itoa value)].
(** The first URL; one that does not parse is used as it is. *)
Definition initialURL (c : APIConfig) : string :=
  if bool_decide (PaginationType c = "offset") then default (BaseURL c) (with_query (BaseURL c) (page_query c 0))
  else if bool_decide (PaginationType c = "page") then default (BaseURL c) (with_query (BaseURL c) (page_query c 1))
  else BaseURL c.

(** The variables of [FetchAll]. *)
Record Progress := { pageCount : Z; allItems : list string }.

Definition nextURL (c : APIConfig) (s : Progress) (body : string) : Progress * string :=
  let counted := {| pageCount := wrap64 (pageCount s + 1); allItems := allItems s |} in
  if bool_decide (maxPages c ≤ pageCount s) then (s, "")
  else if bool_decide (PaginationType c = "offset") then
    (counted, default "" (with_query (BaseURL c) (page_query c (wrap64 (pageCount s * limit c)))))
  else if bool_decide (PaginationType c = "page") then
    (counted, default "" (with_query (BaseURL c) (page_query c (pageCount counted))))
  else if bool_decide (PaginationType c = "cursor") then (counted, extractCursorNext body)
  else (s, "").

Definition consume (c : APIConfig) (s : Progress) (body : string) : result string Progress :=
  match extractItems body (DataPath c) with
  | Ok items => Ok {| pageCount := pageCount s; allItems := allItems s ++ items |}
  | Err _ => Err (DataPath c)
  end.

Definition FetchAll (fuel : nat) (hist : list Request) (c : APIConfig) : option (list Request * result api_error string) :=
  match Validate c with
  | Some e => Some (hist, Err e)
  | None =>
    match FetchPages new_request serve (Headers c) (Some (nextURL c)) (consume c) fuel hist (initialURL c)
            {| pageCount := 1; allItems := [] |} with
    | None => None
    | Some (hist, s, Some e) => Some (hist, Err (PagesFailed (pageCount s) e))
    | Some (hist, s, None) =>
      Some (hist, match marshal_items (allItems s) with Some t => Ok t | None => Err MarshalFailed end)
    end
  end.

(** ** Probing *)
Definition has_key (k : string) (q : list (string * string)) : bool := bool_decide (k ∈ q.*1).
Definition get_key (k : string) (q : list (string * string)) : string :=
  match filter (λ kv, kv.1 = k) q with kv :: _ => kv.2 | [] => "" end.
Definition limit_in (hi : Z) (v : string) : option Z :=
  match Atoi v with Some n => if bool_decide (0 < n ≤ hi) then Some n else None | None => None end.

Definition base_config (url : string) : APIConfig :=
  {| BaseURL := url; Headers := []; PaginationType := "none"; PageParam := "page"; LimitParam := "per_page";
     Limit := 100; DataPath := ""; TotalPath := ""; MaxPages := 0 |}.
Definition with_paging (t page lim : string) (n : Z) (c : APIConfig) : APIConfig :=
  {| BaseURL := BaseURL c; Headers := Headers c; PaginationType := t; PageParam := page; LimitParam := lim;
     Limit := n; DataPath := DataPath c; TotalPath := TotalPath c; MaxPages := MaxPages c |}.
Definition with_path (p : string) (c : APIConfig) : APIConfig :=
  {| BaseURL := BaseURL c; Headers := Headers c; PaginationType := PaginationType c; PageParam := PageParam c;
     LimitParam := LimitParam c; Limit := Limit c; DataPath := p; TotalPath := TotalPath c; MaxPages := MaxPages c |}.

(** The page size in the query: the first of the keys with a value decides. *)
Definition existing_limit (q : list (string * string)) : Z :=
  match filter (λ k, get_key k q ≠ "") ["per_page"; "limit"; "page_size"; "size"] with
  | k :: _ => default 100 (limit_in 10000 (get_key k q))
  | [] => 100
  end.
Definition paging_of_query (q : list (string * string)) (c : APIConfig) : APIConfig :=
  if has_key "offset" q || has_key "limit" q then
    with_paging "offset" "offset" "limit"
      (if bool_decide (get_key "limit" q = "") then 100 else default 100 (limit_in 1000 (get_key "limit" q))) c
  else if has_key "cursor" q || has_key "after" q then with_paging "cursor" "page" "per_page" 100 c
  else if has_key "page" q || has_key "per_page" q then with_paging "page" "page" "per_page" (existing_limit q) c
  else c.

Definition get_json (hist : list Request) (url : string) : option Response :=
  if new_request url then serve hist {| ReqURL := url; ReqHeader := Set_ "Accept" "application/json" [] |} else None.

(** Always a configuration, at worst the one the query suggests. *)
Definition DetectConfig (hist : list Request) (url : string) : APIConfig :=
  let cfg := match query_of url with Some q => paging_of_query q (base_config url) | None => base_config url end in
  match get_json hist url with
  | None => cfg
  | Some resp =>
    if negb (is_2xx (StatusCode resp)) then cfg
    else match Body resp with
         | None => cfg
         | Some body =>
           match first_char (TrimSpace body) with
           | None => cfg
           | Some c => if bool_decide (c = "["%char) then with_path "" cfg else with_path (detect_path body) cfg
           end
         end
  end.

Record SourceProbeResult := { SourceType : string; PDataPath : string; SampleBody : string; PageURL : string }.
Inductive probe_error := ProbeRequest | ProbeGet | ProbeStatus (code : Z) | ProbeRead.

Definition Probe (hist : list Request) (apiURL : string) (headers : list (string * string)) :
    result probe_error SourceProbeResult :=
  if negb (new_request apiURL) then Err ProbeRequest
  else match serve hist {| ReqURL := apiURL; ReqHeader := set_all headers (Set_ "Accept" "application/json" []) |} with
  | None => Err ProbeGet
  | Some resp =>
    if negb (is_2xx (StatusCode resp)) then Err (ProbeStatus (StatusCode resp))
    else match Body resp with
         | None => Err ProbeRead
         | Some body =>
           match first_char (TrimSpace body) with
           | None => Ok {| SourceType := ""; PDataPath := ""; SampleBody := body; PageURL := apiURL |}
           | Some c =>
             Ok {| SourceType := if bool_decide (c = "["%char) then "array-root" else "object-with-nested";
                   PDataPath := if bool_decide (c = "["%char) then "" else detect_path body;
                   SampleBody := first_bytes 65536 body; PageURL := apiURL |}
           end
         end
  end.

(** *** What a paginated fetch asks for *)
Definition paged (c : APIConfig) : Prop := PaginationType c = "page" ∨ PaginationType c = "offset".
(** The value of the page parameter on the [k]th page. *)
Definition page_value (c : APIConfig) (k : Z) : Z :=
  if bool_decide (PaginationType c = "offset") then wrap64 ((k - 1) * limit c) else k.

Lemma initialURL_paged c u : paged c → with_query (BaseURL c) (page_query c (page_value c 1)) = Some u → initialURL c = u.
Proof.
  unfold initialURL, page_value. intros [-> | ->].
  - rewrite !(bool_decide_eq_false_2 ("page" = "offset")), bool_decide_eq_true_2 by done. by intros ->.
  - rewrite !bool_decide_eq_true_2 by done. replace ((1 - 1) * limit c) with 0 by lia.
    change (wrap64 0) with 0. by intros ->.
Qed.

Lemma nextURL_paged c k items body u : paged c → 1 ≤ k < maxPages c → k < max_int64 →
  with_query (BaseURL c) (page_query c (page_value c (k + 1))) = Some u →
  nextURL c {| pageCount := k; allItems := items |} body = ({| pageCount := k + 1; allItems := items |}, u).
Proof.
  intros Hp Hk Hm Hu. unfold nextURL. cbn [pageCount allItems].
  assert (wrap64 (k + 1) = k + 1) as Hw.
  { apply wrap64_id. unfold is_int64, min_int64, max_int64 in *. lia. }
  rewrite bool_decide_eq_false_2 by lia. rewrite Hw.
  unfold page_value in Hu. destruct Hp as [Ht|Ht]; rewrite Ht in *.
  - rewrite !(bool_decide_eq_false_2 ("page" = "offset")), bool_decide_eq_true_2 in * by done. by rewrite Hu.
  - rewrite !bool_decide_eq_true_2 in * by done. replace (k + 1 - 1) with k in Hu by lia. by rewrite Hu.
Qed.

Lemma Validate_paged c : paged c → BaseURL c ≠ "" → 0 < Limit c → Validate c = None.
Proof.
  intros Hp Hb Hl. unfold Validate. rewrite bool_decide_eq_false_2 by done.
  rewrite (bool_decide_eq_true_2 (PaginationType c ∈ _)) by (destruct Hp as [-> | ->]; set_solver).
  rewrite bool_decide_eq_false_2; [done|lia].
Qed.

Context (url body : Z → string) (items : Z → list string) (c : APIConfig).
(** The API has a page for every value of the parameter, with the texts of its items,
    which are JSON. *)
Definition serves_pages : Prop :=
  ∀ k, 1 ≤ k →
    with_query (BaseURL c) (page_query c (page_value c k)) = Some (url k) ∧ new_request (url k) = true ∧
    (∀ hist, serve hist (page_request (Headers c) (url k))
             = Some {| StatusCode := 200; RespHeader := []; Body := Some (body k) |}) ∧
    extractItems (body k) (DataPath c) = Ok (items k) ∧ forallb Valid (items k) = true.

Lemma serves_page k hist : serves_pages → 1 ≤ k →
  url k ≠ "" ∧ get_page (X := string) new_request serve (Headers c) hist (url k) = Ok (body k) ∧
  sent new_request (Headers c) hist (url k) = hist ++ [page_request (Headers c) (url k)] ∧
  (∀ pc l, consume c {| pageCount := pc; allItems := l |} (body k)
           = Ok {| pageCount := pc; allItems := l ++ items k |}).
Proof.
  intros Hs Hk. destruct (Hs k Hk) as (Hu & Hn & Hv & He & _). split; [by eapply with_query_nonempty|].
  unfold get_page, sent, consume. rewrite Hn, Hv, He. done.
Qed.

Definition pages (k n : Z) : list Z := seqZ k (n - k + 1).





(** Without a bound a paginated fetch does not notice the end of the data: as long
    as the API answers, also with empty pages, it asks for the next page, and no
    number of requests below the largest integer completes it. *)
Theorem FetchAll_endless (hist : list Request) (fuel : nat) :
  serves_pages → paged c → BaseURL c ≠ "" → 0 < Limit c → MaxPages c ≤ 0 → Z.of_nat fuel < max_int64 →
  FetchAll fuel hist c = None.
Proof.
  intros Hs Hp Hb Hl Hm Hf. unfold FetchAll. rewrite Validate_paged by done.
  rewrite (initialURL_paged c (url 1)) by (done || by apply Hs).
  assert (maxPages c = max_int64) as Hn by (unfold maxPages; by rewrite bool_decide_eq_true_2).
  rewrite (FetchPages_running _ _ _ _ _
    (λ n hist u s, ∃ k, 1 ≤ k ∧ k + Z.of_nat n ≤ max_int64 ∧ u = url k ∧ pageCount s = k)); [done| | |].
  - intros n h u s (k & Hk & _ & -> & _). by destruct (serves_page k h Hs Hk).
  - intros n h u [pc l] (k & Hk & Hk' & -> & Hpc). cbn in Hpc. subst pc.
    destruct (serves_page k h Hs Hk) as (_ & Hg & _ & Hc).
    exists (body k), {| pageCount := k; allItems := l ++ items k |}, (nextURL c).
    rewrite (nextURL_paged c k _ (body k) (url (k + 1))); [|done|lia|lia|by apply Hs; lia].
    split; [done|]. split; [by apply Hc|]. split; [done|]. exists (k + 1). cbn. split_and!; [lia|lia|done|done].
  - exists 1. split_and!; [lia|lia|done|done].
Qed.
End Bodies.

(** *** Witnesses *)
Lemma sample_query_nonempty (u : string) (kv : string * string) (kvs : list (string * string)) (v : string) :
  Some (u +:+ "?" +:+ str_join "&" ((λ kv : string * string, kv.1 +:+ "=" +:+ kv.2) <$> kv :: kvs)) = Some v → v ≠ "".
Proof. intros [= <-] E. apply (f_equal String.length) in E. rewrite !str_length_app in E. cbn in E. lia. Qed.
#[local] Instance sample_urls : UrlLib := {|
  with_query u kvs := Some (u +:+ "?" +:+ str_join "&" ((λ kv, kv.1 +:+ "=" +:+ kv.2) <$> kvs));
  query_of _ := Some []; with_query_nonempty := sample_query_nonempty |}.
#[local] Existing Instance ascii_tables.

Definition sample_config (pages : Z) : APIConfig :=
  {| BaseURL := "https://api"; Headers := []; PaginationType := "page"; PageParam := ""; LimitParam := "";
     Limit := 2; DataPath := ""; TotalPath := ""; MaxPages := pages |}.
Definition sample_url (k : Z) : string := "https://api?per_page=2&page=" +:+ Itoa k.
(** An API that has nothing to say. *)
Definition sample_server : Server := λ _ _, Some {| StatusCode := 200; RespHeader := []; Body := Some "[]" |}.

Lemma sample_serves pages : serves_pages (λ _, true) sample_server sample_url (λ _, "[]") (λ _, []) (sample_config pages).
Proof. intros k Hk. split_and!; try done. Qed.


Lemma FetchAll_endless_witness : FetchAll (λ _, true) sample_server 1000 [] (sample_config 0) = None.
Proof.
  apply (FetchAll_endless (λ _, true) sample_server sample_url (λ _, "[]") (λ _, []) (sample_config 0) [] 1000);
    [apply sample_serves|by left|done|done|done|reflexivity].
Defined.
End JsonApi.

(** ** GitHub repositories *)
Module GitHub.

Section GitHub.
Context `{Unicode}.

(** One part of a [Link] header: the relation and the URL. *)
Definition link_of (part : string) : option (string * string) :=
  let part := TrimSpace part in
  match str_index part "<", str_index part ">" with
  | Some urlStart, Some urlEnd =>
    if (urlEnd <=? urlStart)%nat then None
    else
      let url := str_drop (S urlStart) (str_take urlEnd part) in
      let relTag := quoted "rel='" in
      match str_index part relTag with
      | None => None
      | Some relStart =>
        let relValue := str_drop (relStart + String.length relTag) part in
        match str_index relValue (String dquote "") with
        | None => None
        | Some relEnd => Some (str_take relEnd relValue, url)
        end
      end
  | _, _ => None
  end.
Definition parseLinkHeader (header : string) : gmap string string :=
  if bool_decide (header = "") then ∅
  else foldl (λ r part, match link_of part with Some (rel, url) => <[rel := url]> r | None => r end)
         ∅ (str_split "," header).

Record GitHubIngester := { token : string }.
Definition NewGitHubIngester (token : string) : GitHubIngester := {| token := token |}.
Definition defaultHeaders (g : GitHubIngester) : list (string * string) :=
  ("Accept", "application/vnd.github.v3+json") ::
  (if bool_decide (token g = "") then [] else [("Authorization", "Bearer " +:+ token g)]).

Inductive github_error :=
| BadRequest (url : string) | GetFailed (url : string) | ReadFailed (url : string)
| BadStatus (code : Z) (url text : string) | BadJSON (url : string).

Context (new_request : string → bool).

Definition github_request (g : GitHubIngester) (url : string) : Request :=
  {| ReqURL := url; ReqHeader := set_all (defaultHeaders g) [] |}.

(** The items of one page and the URL of the next one. *)
Definition fetch_page (serve : Server) (g : GitHubIngester) (hist : list Request) (url : string) :
    result github_error (list string * string) :=
  if negb (new_request url) then Err (BadRequest url)
  else match serve hist (github_request g url) with
  | None => Err (GetFailed url)
  | Some resp =>
    match Body resp with
    | None => Err (ReadFailed url)
    | Some body =>
      if negb (is_2xx (StatusCode resp)) then Err (BadStatus (StatusCode resp) url (first_bytes 500 body))
      else match raw_array body with
           | None => Err (BadJSON url)
           | Some page => Ok (page, default "" (parseLinkHeader (Get "Link" (RespHeader resp)) !! "next"))
           end
    end
  end.

(** [None] while the links still lead on after [fuel] pages.  No page at all is
    written as [null]. *)
Fixpoint fetchPaginated (serve : Server) (g : GitHubIngester) (fuel : nat) (hist : list Request) (url : string)
    (allResults : list string) : option (result github_error string) :=
  if bool_decide (url = "") then
    Some (Ok (match allResults with [] => "null" | _ => array_text allResults end))
  else match fuel with
  | O => None
  | S fuel =>
    match fetch_page serve g hist url with
    | Err e => Some (Err e)
    | Ok (page, next) => fetchPaginated serve g fuel (hist ++ [github_request g url]) next (allResults ++ page)
    end
  end.

Definition repo_url (owner repo rest : string) : string :=
  "https://api.github.com/repos/" +:+ owner +:+ "/" +:+ repo +:+ "/" +:+ rest.
Definition FetchIssues (serve : Server) (g : GitHubIngester) (fuel : nat) (owner repo : string) :=
  fetchPaginated serve g fuel [] (repo_url owner repo "issues?state=all&per_page=100") [].
Definition FetchPRs (serve : Server) (g : GitHubIngester) (fuel : nat) (owner repo : string) :=
  fetchPaginated serve g fuel [] (repo_url owner repo "pulls?state=all&per_page=100") [].
Definition FetchCommits (serve : Server) (g : GitHubIngester) (fuel : nat) (owner repo : string) :=
  fetchPaginated serve g fuel [] (repo_url owner repo "commits?per_page=100") [].

(** The three fetches run at the same time, each with the answers [serve] gives to
    its own requests; one that fails makes the whole fetch fail, here with the error
    of the first of them in this order. *)
Definition FetchAll (serve : Server) (g : GitHubIngester) (fuel : nat) (owner repo : string) :
    option (result github_error (gmap string string)) :=
  match FetchIssues serve g fuel owner repo, FetchPRs serve g fuel owner repo, FetchCommits serve g fuel owner repo with
  | Some (Ok i), Some (Ok p), Some (Ok c) => Some (Ok (<["issues" := i]> (<["pulls" := p]> {["commits" := c]})))
  | Some (Err e), _, _ | _, Some (Err e), _ | _, _, Some (Err e) => Some (Err e)
  | _, _, _ => None
  end.

(** *** Links *)

(** The first occurrence of a text that ends with a character not seen before. *)
Lemma str_index_first a p d b : str_mem d (a +:+ p) = false →
  str_index (a +:+ p +:+ String d b) (p +:+ String d "") = Some (String.length a).
Proof.
  induction a as [|c a IH]; intros Hm.
  - rewrite !str_app_nil_l. assert (String.prefix (p +:+ String d "") (p +:+ String d b) = true) as Hp.
    { apply prefix_iff. exists b. by rewrite str_app_assoc. }
    destruct (p +:+ String d b) eqn:E; cbn [str_index]; by rewrite Hp.
  - rewrite !str_app_cons in *. cbn [str_index].
    assert (String.prefix (p +:+ String d "") (String c (a +:+ p +:+ String d b)) = false) as ->.
    { apply not_true_is_false. intros (t & E)%prefix_iff. rewrite str_app_assoc, str_app_cons, str_app_nil_l in E.
      assert (str_cut d (p +:+ String d t) = Some (p, t)) as H1.
      { apply str_cut_spec. split; [done|]. cbn [str_mem] in Hm. apply orb_false_iff in Hm as [_ Hm].
        rewrite str_mem_app in Hm. by apply orb_false_iff in Hm as [_ ?]. }
      rewrite <- E, <- str_app_assoc, <- str_app_cons in H1.
      assert (str_cut d (String c (a +:+ p) +:+ String d b) = Some (String c (a +:+ p), b)) as H2 by by apply str_cut_spec.
      rewrite H1 in H2. injection H2 as H2 _. apply (f_equal String.length) in H2. cbn in H2.
      rewrite str_length_app in H2. lia. }
    cbn [str_mem] in Hm. apply orb_false_iff in Hm as [_ Hm]. by rewrite IH.
Qed.

Definition print_link (l : string * string) : string :=
  "<" +:+ l.2 +:+ ">; " +:+ quoted "rel='" +:+ l.1 +:+ String dquote "".
(** A header with the relations and URLs of a list. *)
Definition print_links (ls : list (string * string)) : string := str_join ", " (print_link <$> ls).

Definition link_char (c : ascii) : bool :=
  is_ascii_char c && negb (bool_decide (c ∈ [","; "<"; ">"; dquote]%char)).
Definition link_ok (l : string * string) : Prop := str_all link_char l.1 = true ∧ str_all link_char l.2 = true.

Lemma link_char_not_mem c s : str_all link_char s = true → link_char c = false → str_mem c s = false.
Proof. apply str_all_not_mem. Qed.

Lemma link_of_print sp l : str_all is_space_char sp = true → str_all is_ascii_char sp = true → link_ok l →
  link_of (sp +:+ print_link l) = Some l.
Proof.
  intros Hsp Hspa [Hr Hu]. destruct l as [rel url]. cbn [fst snd] in *. unfold link_of.
  assert (TrimSpace (sp +:+ print_link (rel, url)) = print_link (rel, url)) as ->.
  { set (m := url +:+ ">; " +:+ quoted "rel='" +:+ rel).
    assert (print_link (rel, url) = String "<" m +:+ String dquote "") as ->.
    { change (String "<" (url +:+ ">; " +:+ quoted "rel='" +:+ rel +:+ String dquote "") = String "<" (m +:+ String dquote "")).
      unfold m. by rewrite !str_app_assoc. }
    apply TrimSpace_core; try done. unfold m.
    assert (∀ s, str_all link_char s = true → str_all is_ascii_char s = true) as Ha.
    { intros s. apply str_all_impl. intros c. unfold link_char. by intros [? _]%andb_true_iff. }
    rewrite !str_all_app. cbn [str_all]. rewrite !str_all_app. rewrite Hspa, (Ha url), (Ha rel) by done. reflexivity. }
  unfold print_link. cbn [fst snd].
  assert (str_mem "<" url = false ∧ str_mem ">" url = false ∧ str_mem dquote url = false ∧ str_mem dquote rel = false)
    as (H1 & H2 & H3 & H4) by (split_and!; by (apply link_char_not_mem; [done|reflexivity])).
  set (rest := quoted "rel='" +:+ rel +:+ String dquote "").
  assert (str_index ("<" +:+ url +:+ ">; " +:+ rest) "<" = Some 0%nat) as ->
    by exact (str_index_first "" "" "<" (url +:+ ">; " +:+ rest) eq_refl).
  assert (str_index ("<" +:+ url +:+ ">; " +:+ rest) ">" = Some (S (String.length url))) as ->.
  { pose proof (str_index_first ("<" +:+ url) "" ">" ("; " +:+ rest)) as Hi.
    rewrite !str_app_assoc, str_app_nil_r, !str_app_nil_l in Hi. apply Hi. rewrite str_mem_app. by rewrite H2. }
  cbn [Nat.leb]. f_equal.
  assert (str_index ("<" +:+ url +:+ ">; " +:+ rest) (quoted "rel='") = Some (String.length url + 4)%nat) as ->.
  { pose proof (str_index_first ("<" +:+ url +:+ ">; ") "rel=" dquote (rel +:+ String dquote "")) as Hi.
    rewrite !str_app_assoc in Hi. rewrite str_length_app, str_length_app in Hi.
    replace (String.length url + 4)%nat with (String.length "<" + (String.length url + String.length ">; "))%nat by (cbn; lia).
    apply Hi. rewrite !str_mem_app, H3. reflexivity. }
  assert (str_drop (String.length url + 4 + String.length (quoted "rel='")) ("<" +:+ url +:+ ">; " +:+ rest)
          = rel +:+ String dquote "") as ->.
  { unfold rest. rewrite <- !str_app_assoc. rewrite str_app_assoc. apply str_drop_app_exact.
    rewrite !str_length_app. cbn. lia. }
  pose proof (str_index_first rel "" dquote "") as Hi. rewrite str_app_nil_r, !str_app_nil_l in Hi. rewrite Hi by done.
  rewrite str_take_app_exact by done. f_equal. f_equal.
  assert (str_take (S (String.length url)) ("<" +:+ url +:+ ">; " +:+ rest) = "<" +:+ url) as ->.
  { rewrite <- str_app_assoc. apply str_take_app_exact. reflexivity. }
  by apply (str_drop_app_exact 1 "<" url).
Qed.

Lemma print_link_plain l : link_ok l → str_mem "," (print_link l) = false.
Proof.
  intros [Hr Hu]. unfold print_link. rewrite !str_mem_app.
  by rewrite (link_char_not_mem "," l.2 Hu eq_refl), (link_char_not_mem "," l.1 Hr eq_refl).
Qed.

Lemma print_links_cons l l' ls :
  print_links (l :: l' :: ls) = print_link l +:+ String "," (" " +:+ print_links (l' :: ls)).
Proof. reflexivity. Qed.

Lemma print_links_fold sp ls (r : gmap string string) : Forall link_ok ls → ls ≠ [] →
  str_all is_space_char sp = true → str_all is_ascii_char sp = true → str_mem "," sp = false →
  foldl (λ r part, match link_of part with Some (rel, url) => <[rel := url]> r | None => r end) r
    (str_split "," (sp +:+ print_links ls))
  = foldl (λ r l, <[l.1 := l.2]> r) r ls.
Proof.
  intros Hls Hne. revert sp r. induction ls as [|l [|l' ls] IH]; [done| |]; intros sp r Hsp Hspa Hc;
    apply Forall_cons in Hls as [Hl Hls].
  - change (print_links [l]) with (print_link l). rewrite str_split_no_sep by (by rewrite str_mem_app, Hc, print_link_plain).
    cbn [foldl]. rewrite link_of_print by done. by destruct l.
  - rewrite print_links_cons, <- str_app_assoc, str_split_app.
    rewrite (str_split_no_sep "," (sp +:+ print_link l)) by (by rewrite str_mem_app, Hc, print_link_plain).
    rewrite foldl_app. cbn [foldl]. rewrite link_of_print by done. destruct l as [rel url].
    rewrite IH by done. reflexivity.
Qed.

(** A link header is read back as it was written: every relation leads to the last
    URL given for it, for all relations and URLs without the characters that delimit
    them. *)
Theorem parseLinkHeader_roundtrip (ls : list (string * string)) :
  Forall link_ok ls → parseLinkHeader (print_links ls) = foldl (λ r l, <[l.1 := l.2]> r) ∅ ls.
Proof.
  intros Hls. unfold parseLinkHeader. destruct ls as [|l ls]; [done|].
  rewrite bool_decide_eq_false_2 by (by destruct ls). exact (print_links_fold "" (l :: ls) ∅ Hls ltac:(done) eq_refl eq_refl eq_refl).
Qed.

(** *** Pages *)

(** The pages that the links lead through from a URL. *)
Fixpoint chain (serve : Server) (g : GitHubIngester) (hist : list Request) (url : string) (ps : list (list string)) : Prop :=
  match ps with
  | [] => url = ""
  | p :: ps => url ≠ "" ∧ ∃ next, fetch_page serve g hist url = Ok (p, next) ∧
                 chain serve g (hist ++ [github_request g url]) next ps
  end.

Lemma fetchPaginated_chain serve g ps hist url acc fuel : chain serve g hist url ps → (length ps ≤ fuel)%nat →
  fetchPaginated serve g fuel hist url acc
  = Some (Ok (match acc ++ mjoin ps with [] => "null" | l => array_text l end)).
Proof.
  revert hist url acc fuel. induction ps as [|p ps IH]; intros hist url acc fuel; cbn [chain].
  - intros -> _. rewrite app_nil_r. by destruct fuel, acc.
  - intros (Hu & next & Hp & Hc) Hf. destruct fuel as [|fuel]; [cbn in Hf; lia|]. cbn [fetchPaginated].
    rewrite bool_decide_eq_false_2, Hp by done. rewrite IH by (done || (cbn in Hf; lia)). by rewrite <- app_assoc.
Qed.
End GitHub.

(** *** Witnesses *)
#[local] Existing Instance ascii_tables.
Lemma parseLinkHeader_roundtrip_witness :
  parseLinkHeader (print_links [("next", "https://api/x?page=2"); ("last", "https://api/x?page=9")]) !! "next"
  = Some "https://api/x?page=2".
Proof.
  rewrite parseLinkHeader_roundtrip; [reflexivity|].
  repeat (apply Forall_cons; split; [split; reflexivity|]). apply Forall_nil; done.
Defined.
End GitHub.

(** ** Google Sheets *)
Module Sheets.
Import Pool.

Record SheetsIngester := { apiKey : string }.
Definition NewSheetsIngester (apiKey : string) : SheetsIngester := {| apiKey := apiKey |}.
Record SheetConfig := { SpreadsheetID : string; Range : string; SheetName : string }.

Inductive sheets_error :=
| SheetRequest | SheetFetch | SheetRead | SheetStatus (code : Z) (text : string) | SheetParse
| NoSheets (id : string) | NoSheetID (url : string) | SheetCancelled.

Definition sheetsAPIHost : string := "https://sheets.googleapis.com/v4/spreadsheets".

Definition checkSheetsHTTPError (statusCode : Z) (body : string) : option sheets_error :=
  if bool_decide (statusCode = 200) then None
  else if bool_decide (statusCode = 403 ∨ statusCode = 404 ∨ statusCode = 429)
  then Some (SheetStatus statusCode (first_bytes 300 body))
  else if bool_decide (400 ≤ statusCode) then Some (SheetStatus statusCode (first_bytes 500 body))
  else None.

(** [null] leaves the zero value of a slice or a string. *)
Definition as_cell (v : json) : option string := match v with JStr s => Some s | JNull => Some "" | _ => None end.
Definition as_row (v : json) : option (list string) :=
  match v with JArr l => mapM as_cell l | JNull => Some [] | _ => None end.
Definition as_rows (v : json) : option (list (list string)) :=
  match v with JArr l => mapM as_row l | _ => None end.
Definition as_title (v : json) : option string :=
  match entries v with Some m => field_from as_string "title" "" m | None => None end.
Definition as_sheet (v : json) : option string :=
  match entries v with Some m => field_from as_title "properties" "" m | None => None end.
Definition as_sheets (v : json) : option (list string) :=
  match v with JArr l => mapM as_sheet l | _ => None end.

(** One row as an object: its non-empty cells under their headers. *)
Definition row_object (headers row : list string) : gmap string string :=
  foldl (λ obj hc, if bool_decide (hc.2 = "") then obj else <[hc.1 := hc.2]> obj) ∅ (zip headers row).
Definition marshal_object (obj : gmap string string) : json :=
  JObj ((λ k, (k, JStr (default "" (obj !! k)))) <$> sort_strings (map_to_list obj).*1).

Section Sheets.
Context `{Unicode} (new_request : string → bool).

Definition sheet_rows (values : list (list string)) : list (gmap string string) :=
  match values with
  | [] => []
  | hs :: rows => filter (λ o, o ≠ ∅) (row_object (TrimSpace <$> hs) <$> rows)
  end.

Definition sheets_request (s : SheetsIngester) (url : string) : Request :=
  {| ReqURL := url;
     ReqHeader := ("Accept", "application/json") ::
       (if bool_decide (apiKey s = "") then [] else [("Authorization", "Bearer " +:+ apiKey s)]) |}.

(** The body of a response that is not an error. *)
Definition sheets_get (serve : Server) (req : Request) : result sheets_error string :=
  if negb (new_request (ReqURL req)) then Err SheetRequest
  else match serve [] req with
  | None => Err SheetFetch
  | Some resp =>
    match Body resp with
    | None => Err SheetRead
    | Some body => match checkSheetsHTTPError (StatusCode resp) body with Some e => Err e | None => Ok body end
    end
  end.

Definition values_url (s : SheetsIngester) (c : SheetConfig) : string :=
  sheetsAPIHost +:+ "/" +:+ PathEscape (SpreadsheetID c) +:+ "/values/" +:+
  PathEscape (if bool_decide (Range c = "") then "A:Z" else Range c) +:+ "?key=" +:+ QueryEscape (apiKey s).
Definition metadata_url (s : SheetsIngester) (id : string) : string :=
  sheetsAPIHost +:+ "/" +:+ PathEscape id +:+ "?key=" +:+ QueryEscape (apiKey s).

Definition FetchSheet (serve : Server) (s : SheetsIngester) (c : SheetConfig) : result sheets_error string :=
  match sheets_get serve (sheets_request s (values_url s c)) with
  | Err e => Err e
  | Ok body =>
    match config body ≫= field_from as_rows "values" [] with
    | None => Err SheetParse
    | Some values => Ok (Marshal (JArr (marshal_object <$> sheet_rows values)))
    end
  end.

(** The titles of the sheets of a spreadsheet. *)
Definition sheet_titles (body : string) : option (list string) := config body ≫= field_from as_sheets "sheets" [].

(** What the [n]th and later calls for a job give, as the pool repeats them. *)
Fixpoint attempts {A} (f : nat → result sheets_error A) (n more : nat) : result sheets_error A :=
  match f n with
  | Ok a => Ok a
  | Err e => match more with O => Err e | S more => attempts f (S n) more end
  end.

Definition sheet_config (id name : string) : SheetConfig := {| SpreadsheetID := id; Range := ""; SheetName := name |}.

(** The answers may differ by job and attempt: [serve i n] are those to the [n]th
    attempt of the [i]th sheet. *)
Definition sheet_job (serve : nat → nat → Server) (s : SheetsIngester) (id : string) (i : nat) (title : string) :
    result sheets_error string :=
  attempts (λ n, FetchSheet (serve i n) s (sheet_config id title)) 0 (Z.to_nat (MaxRetries DefaultChunkConfig)).

Definition FetchAllSheets (meta : Server) (serve : nat → nat → Server) (s : SheetsIngester) (id : string) :
    result sheets_error (gmap string string) :=
  match sheets_get meta (sheets_request s (metadata_url s id)) with
  | Err e => Err e
  | Ok body =>
    match sheet_titles body with
    | None => Err SheetParse
    | Some [] => Err (NoSheets id)
    | Some titles =>
      foldl (λ acc r, match acc, r with
                      | Ok out, (title, Ok data) => Ok (<[title := data]> out)
                      | Err e, _ | _, (_, Err e) => Err e
                      end)
        (Ok ∅) (zip titles (imap (sheet_job serve s id) titles))
    end
  end.

(** [path_of]: the path of a URL that parses. *)
Definition ParseSheetIDFromURL (path_of : string → option string) (rawURL : string) : result sheets_error string :=
  match path_of rawURL with
  | None => Err (NoSheetID rawURL)
  | Some p =>
    (fix go parts := match parts with
     | part :: (next :: _) as rest =>
       if bool_decide (part = "d" ∧ next ≠ "") then Ok next else go rest
     | _ => Err (NoSheetID rawURL)
     end) (str_split "/" (trim_right_set "/" p))
  end.

Definition DetectConfig (serve : Server) (s : SheetsIngester) (id : string) : result sheets_error SheetConfig :=
  match sheets_get serve {| ReqURL := metadata_url s id; ReqHeader := [("Accept", "application/json")] |} with
  | Err e => Err e
  | Ok body =>
    match sheet_titles body with
    | None => Err SheetParse
    | Some [] => Err (NoSheets id)
    | Some (title :: _) => Ok {| SpreadsheetID := id; Range := title +:+ "!A:Z"; SheetName := title |}
    end
  end.

(** The pool repeats a sheet as [attempts] says. *)
Lemma attempts_retry (f : nat → result sheets_error string) (j : ChunkJob) n more :
  retry (λ _ n, match f n with Ok _ => Done | Err e => Failed e end) j n more
  = match attempts f n more with Ok _ => None | Err e => Some e end.
Proof.
  revert n. induction more as [|more IH]; intros n; cbn; destruct (f n); done || apply IH.
Qed.

(** *** Rows *)
Lemma row_object_snoc hs row h c : length hs = length row →
  row_object (hs ++ [h]) (row ++ [c])
  = if bool_decide (c = "") then row_object hs row else <[h := c]> (row_object hs row).
Proof. intros Hl. unfold row_object. rewrite zip_with_app by done. by rewrite foldl_app. Qed.

Definition object_of (l : list (string * string)) : gmap string string :=
  foldl (λ obj hc, if bool_decide (hc.2 = "") then obj else <[hc.1 := hc.2]> obj) ∅ l.
Lemma object_of_lookup (l : list (string * string)) h c : NoDup l.*1 →
  object_of l !! h = Some c ↔ (h, c) ∈ l ∧ c ≠ "".
Proof.
  induction l as [|[h' c'] l IH] using rev_ind; intros Hn.
  - unfold object_of. cbn. rewrite lookup_empty. set_solver.
  - unfold object_of. rewrite foldl_app. cbn [foldl fst snd]. fold (object_of l). rewrite fmap_app in Hn.
    apply NoDup_app in Hn as (Hn & Hd & _). rewrite elem_of_app, list_elem_of_singleton.
    assert (h' ∉ l.*1) as Hh by (intros Hin; by apply (Hd _ Hin), list_elem_of_singleton).
    case_bool_decide as Hc; [rewrite IH by done; subst; naive_solver|].
    destruct (decide (h = h')) as [->|Hne].
    + rewrite lookup_insert_eq. split; [naive_solver|]. intros [[Hin|[= ->]] _]; [|done].
      destruct Hh. by apply (list_elem_of_fmap_2 fst _ (h', c)).
    + rewrite lookup_insert_ne by done. rewrite IH by done. naive_solver.
Qed.

Lemma row_object_lookup hs row h c : NoDup hs →
  row_object hs row !! h = Some c ↔ ∃ i : nat, hs !! i = Some h ∧ row !! i = Some c ∧ c ≠ "".
Proof.
  intros Hn. change (row_object hs row) with (object_of (zip hs row)). rewrite object_of_lookup.
  - rewrite list_elem_of_lookup. setoid_rewrite lookup_zip_with_Some. naive_solver.
  - clear h c. revert row. induction Hn as [|h hs Hh Hn IH]; intros [|c row]; cbn; try constructor; [|apply IH].
    intros ([h2 c2] & -> & (i & (h' & c' & [= <- <-] & Hi & _)%lookup_zip_with_Some)%list_elem_of_lookup)%list_elem_of_fmap.
    apply Hh. by eapply list_elem_of_lookup_2.
Qed.

(** Some cell under a header is not empty. *)
Definition has_cells (n : nat) (row : list string) : bool := existsb (λ c, negb (bool_decide (c = ""))) (take n row).

Lemma row_object_nonempty hs row : NoDup hs → row_object hs row ≠ ∅ ↔ has_cells (length hs) row = true.
Proof.
  intros Hn. unfold has_cells. rewrite existsb_exists. split.
  - intros (h & c & (i & Hi & Hr & Hc)%(row_object_lookup hs row h c Hn))%map_choose. exists c. split.
    + apply list_elem_of_In, list_elem_of_lookup. exists i. rewrite lookup_take_lt; [done|]. by eapply lookup_lt_Some.
    + by rewrite bool_decide_eq_false_2.
  - intros (c & (i & Hi)%list_elem_of_In%list_elem_of_lookup & Hc). apply negb_true_iff, bool_decide_eq_false_1 in Hc.
    apply lookup_take_Some in Hi as [Hr Hlt]. destruct (lookup_lt_is_Some_2 hs i Hlt) as [h Hh].
    intros He. assert (row_object hs row !! h = Some c) as Ho by (apply row_object_lookup; eauto).
    by rewrite He, lookup_empty in Ho.
Qed.

(** The JSON of a sheet whose headers differ has one object for every row with a
    non-empty cell under a header, in order, and the object has exactly these cells
    under their headers. *)
Theorem FetchSheet_rows (serve : Server) (s : SheetsIngester) (c : SheetConfig) (body : string)
    (hs : list string) (rows : list (list string)) :
  NoDup (TrimSpace <$> hs) →
  sheets_get serve (sheets_request s (values_url s c)) = Ok body →
  config body ≫= field_from as_rows "values" [] = Some (hs :: rows) →
  ∃ objs, FetchSheet serve s c = Ok (Marshal (JArr (marshal_object <$> objs))) ∧
    Forall2 (λ (o : gmap string string) row, ∀ h cell, o !! h = Some cell ↔
               ∃ i : nat, (TrimSpace <$> hs) !! i = Some h ∧ row !! i = Some cell ∧ cell ≠ "")
      objs (filter (λ row, has_cells (length hs) row = true) rows).
Proof.
  intros Hn Hg Hv. exists (sheet_rows (hs :: rows)). unfold FetchSheet. rewrite Hg, Hv. split; [done|].
  cbn [sheet_rows]. clear Hv. induction rows as [|row rows IH]; [constructor|].
  rewrite fmap_cons, !filter_cons. pose proof (row_object_nonempty (TrimSpace <$> hs) row Hn) as Hr.
  rewrite length_fmap in Hr. repeat case_decide; try tauto. constructor; [|done].
  intros h cell. by apply row_object_lookup.
Qed.

(** *** All sheets *)
Lemma attempts_const {A} (r : result sheets_error A) n more : attempts (λ _, r) n more = r.
Proof. revert n. induction more as [|more IH]; intros n; cbn; destruct r; done || apply IH. Qed.

(** Every sheet gets the data of the first one: the range that is fetched for a
    sheet does not name it, so an API that answers equal requests alike gives all of
    them the same rows. *)
Theorem FetchAllSheets_same (meta srv : Server) (s : SheetsIngester) (id : string) (out : gmap string string) :
  FetchAllSheets meta (λ _ _, srv) s id = Ok out →
  ∃ data, FetchSheet srv s {| SpreadsheetID := id; Range := "A:Z"; SheetName := "" |} = Ok data ∧
          ∀ title d, out !! title = Some d → d = data.
Proof.
  unfold FetchAllSheets. destruct (sheets_get meta _) as [body|e]; [|done].
  destruct (sheet_titles body) as [[|t ts]|]; [done| |done]. set (titles := t :: ts).
  assert (∀ title, FetchSheet srv s (sheet_config id title)
                   = FetchSheet srv s {| SpreadsheetID := id; Range := "A:Z"; SheetName := "" |}) as Hf by done.
  set (r := FetchSheet srv s {| SpreadsheetID := id; Range := "A:Z"; SheetName := "" |}) in *.
  assert (∀ k, imap (λ i, sheet_job (λ _ _, srv) s id (k + i)) titles = replicate (length titles) r) as Hj.
  { generalize titles. clear titles. intros titles. induction titles as [|x titles IH]; intros k; [done|].
    cbn [imap length replicate]. f_equal.
    - unfold sheet_job. rewrite <- (attempts_const r 0 (Z.to_nat (MaxRetries DefaultChunkConfig))).
      reflexivity.
    - rewrite <- (IH (S k)). apply imap_ext. intros i y _. cbn. by rewrite Nat.add_succ_r. }
  specialize (Hj 0%nat). cbn [Nat.add] in Hj. change (λ i, sheet_job (λ _ _, srv) s id i) with (sheet_job (λ _ _, srv) s id) in Hj.
  rewrite Hj. destruct r as [data|e].
  - intros Ho. exists data. split; [done|].
    assert (∀ l n (acc : gmap string string), (∀ title d, acc !! title = Some d → d = data) →
      foldl (λ acc r, match acc, r with
                      | Ok out, (title, Ok data) => Ok (<[title := data]> out)
                      | Err e, _ | _, (_, Err e) => Err e
                      end) (Ok acc) (zip l (replicate n (@Ok sheets_error string data))) = Ok out →
      ∀ title d, out !! title = Some d → d = data) as Hfold.
    { clear. induction l as [|x l IH]; intros n acc Hacc; [by intros [= <-]|]. destruct n as [|n]; [by intros [= <-]|].
      cbn [replicate zip zip_with foldl]. apply IH. intros title d.
      destruct (decide (x = title)) as [->|Hx]; [rewrite lookup_insert_eq; naive_solver|].
      rewrite lookup_insert_ne by done. apply Hacc. }
    eapply Hfold; [|exact Ho]. intros title d. by rewrite lookup_empty.
  - cbn. intros Ho. exfalso. revert Ho. generalize (zip ts (replicate (length ts) (@Err sheets_error string e))).
    intros l. induction l as [|[x y] l IH]; [done|]. exact IH.
Qed.
End Sheets.

(** *** Witnesses *)
#[local] Existing Instance ascii_tables.
Definition sample_values : string :=
  Marshal (JObj [("values", JArr [JArr [JStr "name "; JStr "age"]; JArr [JStr "Ada"; JStr ""]; JArr [JStr ""]; JArr [JStr "Bob"; JStr "7"]])]).
Definition sample_meta : string :=
  Marshal (JObj [("sheets", JArr [JObj [("properties", JObj [("title", JStr "People")])];
                                  JObj [("properties", JObj [("title", JStr "Prices")])]])]).
Definition answers (body : string) : Server := λ _ _, Some {| StatusCode := 200; RespHeader := []; Body := Some body |}.

Lemma FetchSheet_rows_witness :
  ∃ objs, FetchSheet (λ _, true) (answers sample_values) (NewSheetsIngester "k") (sheet_config "id" "People")
          = Ok (Marshal (JArr (marshal_object <$> objs))) ∧ length objs = 2%nat.
Proof.
  destruct (FetchSheet_rows (λ _, true) (answers sample_values) (NewSheetsIngester "k") (sheet_config "id" "People")
    sample_values ["name "; "age"] [["Ada"; ""]; [""]; ["Bob"; "7"]]) as (objs & Ho & Hf);
    [apply (bool_decide_unpack _); vm_compute; exact I|reflexivity|vm_compute; reflexivity|].
  exists objs. split; [exact Ho|]. apply Forall2_length in Hf. rewrite Hf. reflexivity.
Defined.

Lemma FetchAllSheets_same_witness :
  ∃ out, FetchAllSheets (λ _, true) (answers sample_meta) (λ _ _, answers sample_values) (NewSheetsIngester "k") "id" = Ok out ∧
         out !! "People" = out !! "Prices".
Proof.
  eexists. split; [vm_compute; reflexivity|].
  match goal with |- ?o !! _ = _ =>
    destruct (FetchAllSheets_same (λ _, true) (answers sample_meta) (answers sample_values) (NewSheetsIngester "k") "id" o)
      as (data & _ & Hd); [vm_compute; reflexivity|] end.
  destruct (_ !! "People") as [d1|] eqn:E1; [|discriminate E1]. destruct (_ !! "Prices") as [d2|] eqn:E2; [|discriminate E2].
  f_equal. transitivity data; [|symmetry]; eapply Hd; eassumption.
Defined.
End Sheets.

(** ** Sitemaps *)
Module Sitemap.

Record PageResult := { PURL : string; Content : option string; Size : Z; PStatus : Z; PErr : option string }.
Inductive sitemap_error :=
| XmlRequest | XmlGet | XmlStatus (code : Z) | XmlRead | XmlContentType (t : string)
| NoRoot | BadIndex | BadURLSet | UnknownRoot (name : string).

Definition isXMLContentType (mediaType : string) : bool :=
  bool_decide (mediaType = "application/xml") || bool_decide (mediaType = "text/xml") || has_suffix mediaType "+xml".
Definition isTextContentType (mediaType : string) : bool :=
  bool_decide (mediaType ∈ ["text/html"; "text/plain"; "application/json"]).
Definition isAllowedContentType (mediaType : string) : bool :=
  bool_decide (mediaType ∈ ["text/html"; "text/plain"; "application/json"; "application/xml"; "text/xml"])
  || has_suffix mediaType "+xml".
Definition maxPageSize : Z := 2 ^ 20.

(** The parsers of encoding/xml, mime and net/url: the tokens that the XML decoder
    reads before it fails or ends, the [loc] texts of the entries of an index and of a
    URL set, the media type with whether there was an error, whether a URL that
    parses is absolute, and [ResolveReference]. *)
Inductive xml_token := StartElement (local : string) | EndElement | OtherToken.
Class SitemapLib := {
  xml_tokens : string → list xml_token;
  index_locs : string → option (list string);
  urlset_locs : string → option (list string);
  parse_media : string → string * bool;
  url_is_abs : string → option bool;
  resolve_reference : string → string → string;
}.

Section Sitemap.
Context `{Unicode} `{SitemapLib} (new_request : string → bool) (serve : Request → option Response).

Fixpoint root_element (ts : list xml_token) : option string :=
  match ts with
  | [] | EndElement :: _ => None
  | StartElement local :: _ => Some local
  | OtherToken :: ts => root_element ts
  end.
Definition detectRootElement (data : string) : option string := root_element (xml_tokens data).

Definition resolveURL (base rawURL : string) : option string :=
  match url_is_abs rawURL with
  | None => None
  | Some true => Some rawURL
  | Some false => match url_is_abs base with Some _ => Some (resolve_reference base rawURL) | None => None end
  end.

Definition fetchXML (url : string) : result sitemap_error string :=
  if negb (new_request url) then Err XmlRequest
  else match serve {| ReqURL := url; ReqHeader := [("Accept", "application/xml, text/xml, */*")] |} with
  | None => Err XmlGet
  | Some resp =>
    if negb (is_2xx (StatusCode resp)) then Err (XmlStatus (StatusCode resp))
    else match Body resp with
    | None => Err XmlRead
    | Some body =>
      let contentType := Get "Content-Type" (RespHeader resp) in
      let mediaType := (parse_media contentType).1 in
      if bool_decide (contentType ≠ "" ∧ mediaType ≠ "") && negb (isXMLContentType mediaType) && negb (isTextContentType mediaType)
      then Err (XmlContentType mediaType) else Ok body
    end
  end.

Definition failed_page (url : string) (status : Z) (e : string) : PageResult :=
  {| PURL := url; Content := None; Size := 0; PStatus := status; PErr := Some e |}.

(** One page; at most the first megabyte is kept. *)
Definition fetchSinglePage (url : string) : PageResult :=
  if negb (new_request url) then failed_page url 0 "request"
  else match serve {| ReqURL := url;
                      ReqHeader := [("Accept", "text/html,text/plain,application/json,application/xml,*/*");
                                    ("User-Agent", "Aleph-Sitemap-Crawler/1.0")] |} with
  | None => failed_page url 0 "get"
  | Some resp =>
    let contentType := Get "Content-Type" (RespHeader resp) in
    let '(mediaType, err) := parse_media contentType in
    if bool_decide (contentType ≠ "") && negb err && negb (isAllowedContentType mediaType)
    then failed_page url (StatusCode resp) "skipped binary content-type"
    else match Body resp with
         | None => failed_page url (StatusCode resp) "read body"
         | Some body =>
           let kept := first_bytes (Z.to_nat maxPageSize) body in
           {| PURL := url; Content := Some kept; Size := str_len kept; PStatus := StatusCode resp; PErr := None |}
         end
  end.

(** The jobs of the pool never fail, so that each page is fetched once. *)
Definition fetchAllPages (urls : list string) : list PageResult :=
  filter (λ r, PURL r ≠ "" ∨ PErr r ≠ None) (fetchSinglePage <$> urls).

(** The entries of an index: what cannot be resolved or crawled is skipped. *)
Fixpoint crawl_children (crawl : string → option (result sitemap_error (list PageResult))) (base : string)
    (locs : list string) (acc : list PageResult) : option (list PageResult) :=
  match locs with
  | [] => Some acc
  | loc :: locs =>
    let childURL := TrimSpace loc in
    if bool_decide (childURL = "") then crawl_children crawl base locs acc
    else match resolveURL base childURL with
    | None => crawl_children crawl base locs acc
    | Some absURL =>
      match crawl absURL with
      | None => None
      | Some (Err _) => crawl_children crawl base locs acc
      | Some (Ok rs) => crawl_children crawl base locs (acc ++ rs)
      end
    end
  end.

Definition page_urls (locs : list string) : list string := filter (λ u, u ≠ "") (TrimSpace <$> locs).

(** [None] while indices still nest after [depth] levels. *)
Fixpoint CrawlSitemap (depth : nat) (url : string) : option (result sitemap_error (list PageResult)) :=
  match depth with
  | O => None
  | S depth =>
    match fetchXML url with
    | Err e => Some (Err e)
    | Ok body =>
      match detectRootElement body with
      | None => Some (Err NoRoot)
      | Some rootName =>
        if bool_decide (ToLower rootName = "sitemapindex") then
          match index_locs body with
          | None => Some (Err BadIndex)
          | Some locs => Ok <$> crawl_children (CrawlSitemap depth) url locs []
          end
        else if bool_decide (ToLower rootName = "urlset") then
          match urlset_locs body with
          | None => Some (Err BadURLSet)
          | Some locs => Some (Ok (fetchAllPages (page_urls locs)))
          end
        else Some (Err (UnknownRoot rootName))
      end
    end
  end.

Lemma fetchSinglePage_url url : PURL (fetchSinglePage url) = url.
Proof. unfold fetchSinglePage, failed_page. repeat case_match; done. Qed.

(** The crawl of a URL set reports every page of the set exactly once, in the order
    of the set, whether it could be fetched or not, and keeps at most a megabyte of
    each. *)
Theorem crawl_urlset_complete (url body : string) (root : string) (locs : list string) (depth : nat) :
  fetchXML url = Ok body → detectRootElement body = Some root → ToLower root = "urlset" → urlset_locs body = Some locs →
  ∃ rs, CrawlSitemap (S depth) url = Some (Ok rs) ∧ PURL <$> rs = page_urls locs ∧
        Forall (λ r, Size r ≤ 2 ^ 20) rs.
Proof.
  intros Hf Hr Hl Hu. exists (fetchAllPages (page_urls locs)). cbn [CrawlSitemap]. rewrite Hf, Hr, Hl, Hu.
  split; [done|]. unfold fetchAllPages. rewrite filter_all_keep.
  - split.
    + rewrite <- list_fmap_compose. rewrite <- (list_fmap_id (page_urls locs)) at 2. apply list_fmap_ext.
      intros _ u _. apply fetchSinglePage_url.
    + apply Forall_fmap, Forall_true. intros u. cbn. unfold fetchSinglePage, failed_page.
      assert (∀ n s, str_len (str_take n s) ≤ Z.of_nat n) as Ht.
      { clear. intros n s. unfold str_len. revert s. induction n; intros [|c s]; cbn; try lia. specialize (IHn s). lia. }
      repeat case_match; cbn [Size]; try lia. etransitivity; [apply Ht|].
      rewrite Z2Nat.id by done. reflexivity.
  - apply Forall_fmap. unfold page_urls. eapply Forall_impl; [apply Forall_filter_sat|].
    intros u Hne. left. by rewrite fetchSinglePage_url.
Qed.

(** Indices are followed without a bound, not one level deep: an index that lists
    itself first is crawled for ever. *)
Theorem self_index_endless (url body loc : string) (root : string) (locs : list string) (depth : nat) :
  fetchXML url = Ok body → detectRootElement body = Some root → ToLower root = "sitemapindex" →
  index_locs body = Some (loc :: locs) → TrimSpace loc ≠ "" → resolveURL url (TrimSpace loc) = Some url →
  CrawlSitemap depth url = None.
Proof.
  intros Hf Hr Hl Hi Hne Hu. induction depth as [|depth IH]; [done|].
  cbn [CrawlSitemap]. rewrite Hf, Hr, Hl, Hi. cbn [crawl_children].
  rewrite (bool_decide_eq_true_2 ("sitemapindex" = _)) by done. rewrite bool_decide_eq_false_2, Hu, IH by done. done.
Qed.
End Sitemap.

(** *** Witnesses *)
#[local] Existing Instance ascii_tables.
#[local] Instance sample_lib : SitemapLib := {|
  xml_tokens body := [OtherToken; StartElement (if bool_decide (body = "<sitemapindex/>") then "sitemapindex" else "urlset")];
  index_locs _ := Some [" https://a/map.xml "];
  urlset_locs _ := Some [" https://a/1 "; ""; "https://a/2"];
  parse_media t := (t, false);
  url_is_abs _ := Some true; resolve_reference _ u := u |}.
Definition sample_site (body : string) (_ : Request) : option Response :=
  Some {| StatusCode := 200; RespHeader := [("Content-Type", "text/xml")]; Body := Some body |}.

Lemma crawl_urlset_complete_witness :
  ∃ rs, CrawlSitemap (λ _, true) (sample_site "<urlset/>") 1 "https://a/map.xml" = Some (Ok rs) ∧
        PURL <$> rs = ["https://a/1"; "https://a/2"].
Proof.
  destruct (crawl_urlset_complete (λ _, true) (sample_site "<urlset/>") "https://a/map.xml" "<urlset/>" "urlset"
    [" https://a/1 "; ""; "https://a/2"] 0) as (rs & Hrs & Hu & _); [vm_compute; reflexivity..|].
  exists rs. split; [exact Hrs|exact Hu].
Defined.

Lemma self_index_endless_witness :
  CrawlSitemap (λ _, true) (sample_site "<sitemapindex/>") 7 "https://a/map.xml" = None.
Proof.
  apply (self_index_endless (λ _, true) (sample_site "<sitemapindex/>") "https://a/map.xml" "<sitemapindex/>"
    " https://a/map.xml " "sitemapindex" [] 7); vm_compute; try reflexivity. discriminate.
Defined.
End Sitemap.
