(* ===== verification/Probe.v ===== *)
(** * Probing a data source (internal/ingestion/probe.go)

    What a response says about its source: its type, its pagination and its columns,
    and the extraction that follows.  The order in which Go visits a map is the
    argument [visit]; the conversion of number literals and the verb [%.0f] are those
    of the class [Floats]. *)

From S2P Require Import Prelude GoStrings GoValues GoText GoRegexp GoJson Fetch Sources.
Import Json Http Regexp.

Class Floats := { float_of : string → f64; format_0f : f64 → string }.

Module Probe.
Import Pages.

Record PaginationInfo := { PagType : string; PageParam : string; LimitParam : string; MaxLimit : Z }.
Record ColumnInfo := { ColName : string; ColType : string; ColPath : string }.
Record SourceProbeResult := {
  SrcType : string; URL : string; Pag : PaginationInfo; Cols : list ColumnInfo; DataSample : string; TotalEstimate : Z;
}.

Inductive probe_error :=
| NoURL | UnknownType (t : string) | ZeroMaxLimit
| NoEndpoint | ProbeRequest | ProbeFetch | ProbeRead | ProbeStatus (code : Z)
| NilResult | ExecuteFetch (e : fetch_error string).

Definition Validate (s : SourceProbeResult) : option probe_error :=
  if bool_decide (URL s = "") then Some NoURL
  else if negb (bool_decide (SrcType s ∈ ["rest"; "rss"; "github"; "sitemap"; "generic_json"; "web"]))
  then Some (UnknownType (SrcType s))
  else if bool_decide (MaxLimit (Pag s) = 0) then Some ZeroMaxLimit
  else None.

(** ** The type of a source *)
Definition reSitemap : rx := Cat (ch "<") (Alt (fold_word "URLSET") (fold_word "SITEMAPINDEX")).
Definition reRSS : rx := seq_rx [ch "<"; Alt (fold_word "RSS") (fold_word "FEED"); Wordb].
Definition reHTML : rx :=
  Alt (seq_rx [word "<!"; fold_word "DOCTYPE"; plus sp; fold_word "HTML"]) (seq_rx [ch "<"; fold_word "HTML"; Wordb]).
Definition reGitHub : rx :=
  seq_rx [word "github.com/"; Star (Chr (λ c, negb (bool_decide (c = newline)))); word "/repos/"].

Section Classify.
Context `{Unicode}.

Definition classifySourceType (endpoint contentType body : string) : string :=
  if MatchString reGitHub endpoint then "github"
  else
    let xml := str_contains (ToLower contentType) "xml" in
    let trimmed := TrimSpace body in
    let tag := bool_decide (JsonApi.first_char trimmed = Some "<"%char) in
    if xml && MatchString reSitemap body then "sitemap"
    else if xml && MatchString reRSS body then "rss"
    else if tag && MatchString reSitemap trimmed then "sitemap"
    else if tag && MatchString reRSS trimmed then "rss"
    else if tag && MatchString reHTML trimmed then "web"
    else if tag && str_contains trimmed "<?xml" then "generic_json"
    else if MatchString reHTML body then "web"
    else match JsonApi.first_char trimmed with
         | Some c => if bool_decide (c = "["%char ∨ c = "{"%char) then "rest" else "generic_json"
         | None => "generic_json"
         end.

(** ** Pagination *)
Context `{UrlLib}.

Definition knownPageParams : list string := ["page"; "offset"; "cursor"; "start"; "skip"].
Definition pag (t page lim : string) (n : Z) : PaginationInfo :=
  {| PagType := t; PageParam := page; LimitParam := lim; MaxLimit := n |}.

(** The first of the known parameters in the query. *)
Definition query_pagination (q : list (string * string)) : option PaginationInfo :=
  match filter (λ p, JsonApi.has_key p q = true) knownPageParams with
  | param :: _ =>
    Some (pag "offset" param
           (if JsonApi.has_key "per_page" q then "per_page" else if JsonApi.has_key "count" q then "count" else "limit")
           (if bool_decide (param = "offset") then 50 else 100))
  | [] => None
  end.
Definition has_field (k : string) (m : list (string * json)) : bool := bool_decide (is_Some (member k m)).
Definition body_pagination (body : string) : option PaginationInfo :=
  if negb (bool_decide (JsonApi.first_char body = Some "{"%char)) then None
  else match Unmarshal body with
       | Some (JObj m) =>
         if has_field "page" m then Some (pag "page" "page" "per_page" 100)
         else if has_field "offset" m then Some (pag "offset" "offset" "limit" 50)
         else match member "meta" m with
              | Some (JObj meta) => if has_field "page" meta then Some (pag "page" "page" "per_page" 100) else None
              | _ => None
              end
       | _ => None
       end.
Definition detectPagination (endpoint : string) (resp : Response) (body : string) : PaginationInfo :=
  let link := Get "Link" (RespHeader resp) in
  if str_contains link (quoted "rel='next'") then pag "cursor" "cursor" "limit" 100
  else match query_of endpoint ≫= query_pagination with
       | Some p => p
       | None => match body_pagination body with Some p => p | None => pag "none" "" "" (-1) end
       end.

(** ** Columns *)
Definition goValueToColumnType (v : json) : string :=
  match v with
  | JNull | JStr _ => "string" | JNum _ => "number" | JBool _ => "boolean" | JObj _ => "object" | JArr _ => "array"
  end.

(** The entries of a Go map, in the order in which [visit] comes to its keys. *)
Context (visit : list string → list string).
Definition map_entries (m : list (string * json)) : list (string * json) :=
  (λ k, (k, default JNull (member k m))) <$> visit (remove_dups m.*1).
Definition column (prefix : string) (kv : string * json) : ColumnInfo :=
  {| ColName := kv.1; ColType := goValueToColumnType kv.2;
     ColPath := "$." +:+ (if bool_decide (prefix = "") then kv.1 else prefix +:+ "." +:+ kv.1) |}.
Definition columnsFromMap (m : list (string * json)) (prefix : string) : list ColumnInfo :=
  column prefix <$> map_entries m.
Definition columnsFromMapSkip (m : list (string * json)) (prefix : string) (skip : list string) : list ColumnInfo :=
  column prefix <$> filter (λ kv, kv.1 ∉ skip) (map_entries m).

(** The first element of the array under a key, if it is an object. *)
Definition wrapped (m : list (string * json)) (key : string) : option (string * list (string * json)) :=
  match member key m with Some (JArr (JObj o :: _)) => Some (key, o) | _ => None end.
Definition detectColumns (body : string) : list ColumnInfo :=
  match Unmarshal (TrimSpace body) with
  | Some (JArr (JObj o :: _)) => columnsFromMap o ""
  | Some (JObj m) =>
    match omap (wrapped m) ["data"; "results"; "items"; "records"; "entries"] with
    | (key, o) :: _ => columnsFromMap o key
    | [] => columnsFromMapSkip m "" ["meta"; "pagination"; "links"]
    end
  | _ => []
  end.

(** ** The next page *)
Context `{Floats}.

Definition nonempty_string (v : option json) : option string :=
  match v with Some (JStr s) => if bool_decide (s = "") then None else Some s | _ => None end.
Definition nextCursorURL (body : string) : string :=
  match Unmarshal body with
  | Some (JObj m) =>
    match omap (λ k, nonempty_string (member k m)) ["next_cursor"; "cursor"; "next"; "paging"; "next_page_token"] with
    | c :: _ => c
    | [] =>
      match member "meta" m with
      | Some (JObj meta) =>
        match nonempty_string (member "next_cursor" meta) with
        | Some c => c
        | None =>
          match member "pagination" meta with
          | Some (JObj p) => default "" (nonempty_string (member "next" p))
          | _ => ""
          end
        end
      | _ => ""
      end
    end
  | _ => ""
  end.

Definition f64_zero : f64 := f64_of_int 0.
Definition toFloat64 (v : json) : f64 := match v with JNum lit => float_of lit | _ => f64_zero end.
(** The page or offset that a body speaks of; 0 if it does not. *)
Definition currentPage (m : list (string * json)) : f64 :=
  match member "page" m with
  | Some v => toFloat64 v
  | None =>
    match member "meta" m with
    | Some (JObj meta) =>
      match member "page" meta with
      | Some v => toFloat64 v
      | None => match member "offset" meta with Some v => toFloat64 v | None => f64_zero end
      end
    | _ => f64_zero
    end
  end.
Definition nextPageURL (body initialURL : string) (p : PaginationInfo) : string :=
  match Unmarshal body ≫= entries with
  | None => ""
  | Some m =>
    let cur := currentPage m in
    if f64_le cur f64_zero && f64_le f64_zero cur then ""
    else
      let nextVal :=
        if bool_decide (PagType p = "page") then format_0f (f64_add cur (f64_of_int 1))
        else if bool_decide (PagType p = "offset") then
          format_0f (f64_add cur (f64_of_int (if bool_decide (MaxLimit p ≤ 0) then 50 else MaxLimit p)))
        else "" in
      default "" (with_query initialURL [(PageParam p, nextVal)])
  end.
Definition buildNextURLFn (initialURL : string) (p : PaginationInfo) : option (string → string) :=
  if bool_decide (PagType p = "none" ∨ PagType p = "") then None
  else Some (λ body,
    if bool_decide (PagType p = "cursor") then nextCursorURL body
    else if bool_decide (PagType p = "page" ∨ PagType p = "offset") then nextPageURL body initialURL p
    else "").

(** ** The runner *)
Context (new_request : string → bool) (serve : Server).

(** The answer of the language model, where there is one. *)
Definition refine_result (llm : option SourceProbeResult) (r : SourceProbeResult) : SourceProbeResult :=
  match llm with
  | None => r
  | Some l =>
    {| SrcType := if bool_decide (SrcType l = "") then SrcType r else SrcType l; URL := URL r; Pag := Pag r;
       Cols := match Cols l with [] => Cols r | cs => cs end; DataSample := DataSample r;
       TotalEstimate := if bool_decide (0 < TotalEstimate l) then TotalEstimate l else TotalEstimate r |}
  end.

Definition Probe (llm : string → string → option SourceProbeResult) (hist : list Request) (endpoint : string) :
    result probe_error SourceProbeResult :=
  if bool_decide (endpoint = "") then Err NoEndpoint
  else if negb (new_request endpoint) then Err ProbeRequest
  else match serve hist {| ReqURL := endpoint; ReqHeader := [("Accept", "application/json, application/xml, text/html, */*")] |} with
  | None => Err ProbeFetch
  | Some resp =>
    match Body resp with
    | None => Err ProbeRead
    | Some body =>
      if negb (is_2xx (StatusCode resp)) then Err (ProbeStatus (StatusCode resp))
      else Ok (refine_result (llm endpoint body)
             {| SrcType := classifySourceType endpoint (Get "Content-Type" (RespHeader resp)) body; URL := endpoint;
                Pag := detectPagination endpoint resp body; Cols := detectColumns body; DataSample := body;
                TotalEstimate := -1 |})
    end
  end.

(** The texts of all pages, one after another; [None] while there are more pages
    after [fuel] of them. *)
Definition Execute (fuel : nat) (hist : list Request) (res : option SourceProbeResult) :
    option (list Request * result probe_error SourceProbeResult) :=
  match res with
  | None => Some (hist, Err NilResult)
  | Some r =>
    match Validate r with
    | Some e => Some (hist, Err e)
    | None =>
      match FetchPages new_request serve [] ((λ f (s body : string), (s, f body)) <$> buildNextURLFn (URL r) (Pag r))
              (λ s body, Ok (s +:+ body)) fuel hist (URL r) "" with
      | None => None
      | Some (hist, _, Some e) => Some (hist, Err (ExecuteFetch e))
      | Some (hist, all, None) =>
        Some (hist, Ok {| SrcType := SrcType r; URL := URL r; Pag := Pag r; Cols := Cols r; DataSample := all;
                          TotalEstimate := TotalEstimate r |})
      end
    end
  end.

Lemma classifySourceType_known endpoint ct body :
  classifySourceType endpoint ct body ∈ ["rest"; "rss"; "github"; "sitemap"; "generic_json"; "web"].
Proof. unfold classifySourceType. repeat case_match; set_solver. Qed.

Lemma detectPagination_limit endpoint resp body : MaxLimit (detectPagination endpoint resp body) ≠ 0.
Proof.
  unfold detectPagination. case_match; [done|]. destruct (query_of endpoint ≫= query_pagination) as [p|] eqn:E.
  - destruct (query_of endpoint) as [q|]; [|done]. cbn in E. unfold query_pagination in E.
    case_match; [done|]. simplify_eq. cbn. by case_bool_decide.
  - destruct (body_pagination body) as [p|] eqn:Eb; [|done]. unfold body_pagination in Eb.
    repeat case_match; by simplify_eq.
Qed.

(** Whatever an endpoint answers, the result of a probe without a language model is
    well formed: it passes its own validation, so that it can be executed. *)
Theorem Probe_valid (hist : list Request) (endpoint : string) (r : SourceProbeResult) :
  Probe (λ _ _, None) hist endpoint = Ok r → Validate r = None ∧ URL r = endpoint ∧ TotalEstimate r = -1.
Proof.
  unfold Probe. case_bool_decide; [done|]. destruct (new_request endpoint); [|done]. cbn [negb].
  destruct (serve hist _) as [resp|]; [|done]. destruct (Body resp) as [body|]; [|done].
  destruct (is_2xx (StatusCode resp)); [|done]. intros [= <-]. split; [|done]. unfold Validate. cbn [refine_result URL SrcType Pag].
  rewrite bool_decide_eq_false_2 by done.
  rewrite bool_decide_eq_true_2 by apply classifySourceType_known.
  by rewrite bool_decide_eq_false_2 by apply detectPagination_limit.
Qed.

(** The columns of an array of objects are those of its first object: every key is
    one column, with the type of its value, in whatever order the map is visited. *)
Theorem detectColumns_first (o : list (string * json)) (rest : list json) (body : string) :
  (∀ l, visit l ≡ₚ l) → Unmarshal (TrimSpace body) = Some (JArr (JObj o :: rest)) →
  NoDup (ColName <$> detectColumns body) ∧
  ∀ k t, (∃ p, {| ColName := k; ColType := t; ColPath := p |} ∈ detectColumns body) ↔
         ∃ v, member k o = Some v ∧ goValueToColumnType v = t.
Proof.
  intros Hv Hb. unfold detectColumns. rewrite Hb. unfold columnsFromMap, map_entries. split.
  - rewrite <- !list_fmap_compose. rewrite (list_fmap_ext _ id) by done. rewrite list_fmap_id, Hv. apply NoDup_remove_dups.
  - intros k t. split.
    + intros (p & ([k' v] & Ec & (k2 & [= -> ->] & Hk)%list_elem_of_fmap)%list_elem_of_fmap).
      rewrite Hv, elem_of_remove_dups, member_is_Some in Hk. destruct Hk as [v Hk].
      unfold column in Ec. cbn in Ec. rewrite Hk in Ec. simplify_eq/=. eauto.
    + intros (v & Hk & <-). eexists. apply list_elem_of_fmap. exists (k, v). split; [reflexivity|].
      apply list_elem_of_fmap. exists k. rewrite Hk. split; [done|].
      rewrite Hv, elem_of_remove_dups, member_is_Some. eauto.
Qed.

(** An extraction by cursor asks for the cursor itself instead of a URL with it: the
    second request goes to whatever the API gave as its cursor. *)
Theorem Execute_requests_cursor (r : SourceProbeResult) (hist : list Request) (fuel : nat) (body cursor : string) :
  Validate r = None → PagType (Pag r) = "cursor" → new_request (URL r) = true → new_request cursor = true →
  serve hist (page_request [] (URL r)) = Some {| StatusCode := 200; RespHeader := []; Body := Some body |} →
  nextCursorURL body = cursor → cursor ≠ "" →
  serve (hist ++ [page_request [] (URL r)]) (page_request [] cursor) = None →
  Execute (S (S fuel)) hist (Some r)
  = Some (hist ++ [page_request [] (URL r); page_request [] cursor], Err (ExecuteFetch (RequestFailed cursor))).
Proof.
  intros Hv Ht Hn Hn' Hs Hc Hne Hs'. unfold Execute. rewrite Hv. unfold buildNextURLFn. rewrite Ht.
  rewrite bool_decide_eq_false_2 by (intros [?|?]; done). cbn [fmap option_fmap option_map FetchPages].
  assert (URL r ≠ "") as Hu by (unfold Validate in Hv; by case_bool_decide).
  rewrite bool_decide_eq_false_2 by done. unfold get_page at 1, sent. rewrite Hn, Hs. cbn [negb Body StatusCode is_2xx].
  change (is_2xx 200) with true. cbn iota. rewrite (bool_decide_eq_true_2 ("cursor" = "cursor")), Hc by done.
  rewrite bool_decide_eq_false_2 by done. unfold get_page. rewrite Hn', Hs'. cbn [negb]. by rewrite <- app_assoc.
Qed.
End Classify.

#[local] Existing Instance ascii_tables.

(** The GitHub API is not recognised: the expression asks for a path element before
    [repos], which the URLs of the API do not have. *)
Theorem github_api_unrecognised :
  classifySourceType "https://api.github.com/repos/o/r/issues" "application/json" "[]" = "rest".
Proof. vm_compute. reflexivity. Qed.

(** *** Witnesses *)
#[local] Existing Instance JsonApi.sample_urls.
#[local] Instance sample_floats : Floats := {| float_of _ := f64_of_int 1; format_0f _ := "2" |}.
Definition sample_body : string := "[" +:+ Marshal (JObj [("id", JNum "7"); ("name", JStr "x")]) +:+ "]".
Definition sample_probe : Server := λ _ _, Some {| StatusCode := 200; RespHeader := []; Body := Some sample_body |}.

Lemma Probe_valid_witness :
  ∃ r, Probe (λ l, l) (λ _, true) sample_probe (λ _ _, None) [] "https://api" = Ok r ∧ Validate r = None ∧ SrcType r = "rest".
Proof.
  eexists. split; [reflexivity|]. split; [|vm_compute; reflexivity].
  apply (Probe_valid (λ l, l) (λ _, true) sample_probe [] "https://api"). reflexivity.
Defined.

Lemma detectColumns_first_witness :
  NoDup (ColName <$> detectColumns (λ l, l) sample_body) ∧ detectColumns (λ l, l) sample_body ≠ [].
Proof.
  split; [|vm_compute; discriminate].
  apply (detectColumns_first (λ l, l) [("id", JNum "7"); ("name", JStr "x")] [] sample_body); [done|vm_compute; reflexivity].
Defined.

Definition sample_cursor : SourceProbeResult :=
  {| SrcType := "rest"; URL := "https://api"; Pag := pag "cursor" "cursor" "limit" 100; Cols := []; DataSample := "";
     TotalEstimate := -1 |}.
Definition cursor_server : Server := λ _ req,
  if bool_decide (ReqURL req = "https://api")
  then Some {| StatusCode := 200; RespHeader := []; Body := Some (Marshal (JObj [("next_cursor", JStr "abc")])) |}
  else None.

Lemma Execute_requests_cursor_witness :
  Execute (λ _, true) cursor_server 2 [] (Some sample_cursor)
  = Some ([page_request [] "https://api"; page_request [] "abc"], Err (ExecuteFetch (RequestFailed "abc"))).
Proof.
  apply (Execute_requests_cursor (λ _, true) cursor_server sample_cursor [] 0 (Marshal (JObj [("next_cursor", JStr "abc")])) "abc");
    try done; vm_compute; reflexivity.
Defined.
End Probe.
