(* ===== verification/Imap.v ===== *)
(** * Fetching mail (the IMAP client of internal/ingestion/engine.go)

    The conversation with the server, the quoting of its arguments, the splitting of
    the answers and the reading of messages.  [read_message] is net/mail's
    [ReadMessage]: header lines up to an empty line.  The decoders of mime,
    mime/multipart, encoding/base64 and mime/quotedprintable are the class
    [MailLib]. *)

From S2P Require Import Prelude GoStrings GoValues GoText GoNet Ssrf.

Class MailLib := {
  decode_header : string → option string;
  media_type : string → option (string * list (string * string));
  (** The parts of a multipart text with its boundary: headers and contents, up to
      the first error. *)
  multipart : string → string → list (list (string * string) * option string);
  base64_std : string → option string;
  quoted_printable : string → option string;
}.

Module Imap.

Definition cr : ascii := "013".
Definition crlf : string := String cr (String newline "").
Definition backslash : string := "\".

Definition escapeIMAP (s : string) : string :=
  replace_char dquote (backslash +:+ String dquote "") (replace_char "\" (backslash +:+ backslash) s).

(** ** Responses

    The lines still to be read, each with its line break; after the last one the
    connection is closed. *)
Inductive imap_error :=
| HostParse | SsrfCheck | Dial | Greeting | UnexpectedGreeting (line : string)
| ReadError | Bad (line : string) | No_ (line : string).

Section Text.
Context `{Unicode} `{UnicodeFold}.

Fixpoint readIMAPResponse (lines : list string) (tag buf : string) : list string * (string * option imap_error) :=
  match lines with
  | [] => ([], (buf, Some ReadError))
  | line :: lines =>
    let buf := buf +:+ line in
    if String.prefix (tag +:+ " BAD") line then (lines, (buf, Some (Bad (TrimSpace line))))
    else if String.prefix (tag +:+ " NO") line then (lines, (buf, Some (No_ (TrimSpace line))))
    else if String.prefix (tag +:+ " OK") line then (lines, (buf, None))
    else readIMAPResponse lines tag buf
  end.

Definition search_ids (line : string) : list Z := omap Atoi (drop 2 (Fields line)).
Definition parseIMAPSearch (response : string) : list Z :=
  match filter (λ l, String.prefix "* SEARCH" l = true) (TrimSpace <$> str_split newline response) with
  | line :: _ => search_ids line
  | [] => []
  end.

(** ** Messages of a FETCH response *)
Record Scan := { currentSeq : Z; currentBody : string; inFetch : bool; items : list (Z * string) }.
(** A line of the form [* n ...] starts the item of message [n]. *)
Definition item_number (line : string) : option Z :=
  let trimmed := TrimSpace line in
  if String.prefix "* " trimmed then
    match Fields trimmed with _ :: n :: _ => Atoi n | _ => None end
  else None.
Definition with_crlf (body : string) : string := if has_suffix body crlf then body else body +:+ crlf.
Definition scan_line (s : Scan) (line : string) : Scan :=
  match item_number line with
  | Some n =>
    {| currentSeq := n; inFetch := true;
       currentBody := if inFetch s && bool_decide (currentBody s ≠ "") then "" else currentBody s;
       items := if inFetch s && bool_decide (currentBody s ≠ "")
                then items s ++ [(currentSeq s, with_crlf (currentBody s))] else items s |}
  | None =>
    {| currentSeq := currentSeq s; inFetch := inFetch s; items := items s;
       currentBody := if inFetch s then currentBody s +:+ line +:+ crlf else currentBody s |}
  end.
Definition fetch_items (response : string) : list (Z * string) :=
  let s := foldl scan_line {| currentSeq := 0; currentBody := ""; inFetch := false; items := [] |}
             (str_split newline response) in
  if inFetch s && bool_decide (currentBody s ≠ "") then items s ++ [(currentSeq s, currentBody s)] else items s.

(** ** Reading a message *)

(** [textproto.Reader.ReadLine]: a line without its line break. *)
Definition chop (line : string) : string := if has_suffix line (String cr "") then str_take (String.length line - 1) line else line.
Definition trim_blank (s : string) : string := trim_set " 	" s.

Record Message := { header : list (string * string); mail_body : string }.

(** Header lines up to the first empty one; a line that starts with white space goes
    on with the one before.  A line without a colon is an error.  A text that ends
    inside its header is a message without a body, if there was a line. *)
Fixpoint read_header (lines : list string) (hs : list (string * string)) : option Message :=
  match lines with
  | [] => match hs with [] => None | _ => Some {| header := hs; mail_body := "" |} end
  | line :: rest =>
    let l := chop line in
    if bool_decide (rest = [] ∧ l = "") then
      match hs with [] => None | _ => Some {| header := hs; mail_body := "" |} end
    else if bool_decide (l = "") then Some {| header := hs; mail_body := str_join (String newline "") rest |}
    else match l with
    | String c _ =>
      if bool_decide (c = " "%char ∨ c = "009"%char) then
        match reverse hs with
        | (k, v) :: hs' => read_header rest (reverse ((k, v +:+ " " +:+ trim_blank l) :: hs'))
        | [] => None
        end
      else match str_cut ":" l with
           | Some (k, v) => read_header rest (if bool_decide (k = "") then hs else hs ++ [(k, trim_blank v)])
           | None => None
           end
    | "" => None
    end
  end.
Definition read_message (raw : string) : option Message := read_header (str_split newline raw) [].

(** [mail.Header.Get]: the first line whose name is that one up to case. *)
Definition header_get (name : string) (h : list (string * string)) : string :=
  match filter (λ kv, str_map lower_char kv.1 = str_map lower_char name) h with kv :: _ => kv.2 | [] => "" end.

Context `{MailLib}.

Record emailRow := { Subject : string; From : string; Date : string; MessageID : string; EBody : string }.

Definition decodeMIMEHeader (s : string) : string := if bool_decide (s = "") then "" else default s (decode_header s).
Definition decodeBody (data encoding : string) : string :=
  let e := ToLower encoding in
  if bool_decide (e = "base64" ∨ e = "b") then default data (base64_std data)
  else if bool_decide (e = "quoted-printable" ∨ e = "q") then default data (quoted_printable data)
  else data.
Definition extractTextPart (raw boundary : string) : string :=
  match omap (λ p : list (string * string) * option string,
                if String.prefix "text/plain" (header_get "Content-Type" p.1)
                then (λ data, decodeBody data (header_get "Content-Transfer-Encoding" p.1)) <$> p.2 else None)
          (multipart raw boundary) with
  | t :: _ => t
  | [] => ""
  end.
Definition parseRFC822 (raw : string) : option emailRow :=
  match read_message raw with
  | None => None
  | Some msg =>
    let h := header msg in
    let '(mediaType, params) := default ("text/plain", []) (media_type (header_get "Content-Type" h)) in
    let body :=
      if String.prefix "multipart/" mediaType then
        let boundary := header_get "boundary" params in
        if bool_decide (boundary = "") then "" else extractTextPart raw boundary
      else decodeBody (mail_body msg) (header_get "Content-Transfer-Encoding" h) in
    Some {| Subject := decodeMIMEHeader (header_get "Subject" h); From := decodeMIMEHeader (header_get "From" h);
            Date := header_get "Date" h; MessageID := header_get "Message-ID" h;
            EBody := if bool_decide (str_len body > 2000) then str_take 2000 body else body |}
  end.
Definition parseIMAPFetchMessages (response : string) : list emailRow := omap (λ it, parseRFC822 it.2) (fetch_items response).

(** ** The conversation *)

(** What the server sends after the commands so far. *)
Definition Server : Type := list string → list string.
Record Conn := { sent : list string; unread : list string }.

Definition tag_of (n : nat) : string :=
  let d := Itoa (Z.of_nat n) in
  "A" +:+ str_repeat "0" (3 - String.length d) +:+ d.
Definition cmd (srv : Server) (command : string) (c : Conn) : Conn * (string * option imap_error) :=
  let t := tag_of (S (length (sent c))) in
  let sent' := sent c ++ [t +:+ " " +:+ command +:+ crlf] in
  let '(rest, r) := readIMAPResponse (unread c ++ srv sent') t "" in
  ({| sent := sent'; unread := rest |}, r).

Definition quote_arg (s : string) : string := String dquote (escapeIMAP s +:+ String dquote "").
Definition fetch_start (found maxMessages : Z) : Z := Z.max 1 (found - maxMessages).

(** The commands sent and the messages, from the host to the end. *)
Definition fetchIMAP (lookup : Ssrf.Resolver) (dial_ok : bool) (srv : Server)
    (host user pass folder : string) (maxMessages : Z) : list string * result imap_error (list emailRow) :=
  let host := if str_contains host ":" then host else host +:+ ":993" in
  match SplitHostPort host with
  | None => ([], Err HostParse)
  | Some (hostname, port) =>
    if bool_decide (is_Some (Ssrf.ValidateHostname lookup hostname port)) then ([], Err SsrfCheck)
    else if negb dial_ok then ([], Err Dial)
    else match srv [] with
    | [] => ([], Err Greeting)
    | greeting :: unread =>
      if negb (String.prefix "* OK" greeting) then ([], Err (UnexpectedGreeting (TrimSpace greeting)))
      else
        let '(c, (_, e)) := cmd srv ("LOGIN " +:+ quote_arg user +:+ " " +:+ quote_arg pass) {| sent := []; unread := unread |} in
        match e with Some e => (sent c, Err e) | None =>
        let '(c, (_, e)) := cmd srv ("SELECT " +:+ quote_arg folder) c in
        match e with Some e => (sent c, Err e) | None =>
        let '(c, (found, e)) := cmd srv "SEARCH ALL" c in
        match e with Some e => (sent c, Err e) | None =>
        let ids := parseIMAPSearch found in
        match ids with [] => (sent c, Ok []) | _ =>
        let start := fetch_start (Z.of_nat (length ids)) maxMessages in
        let '(c, (fetched, e)) := cmd srv ("FETCH " +:+ Itoa start +:+ ":* (BODY[])") c in
        match e with Some e => (sent c, Err e) | None =>
        let '(c, _) := cmd srv "LOGOUT" c in
        (sent c, Ok (parseIMAPFetchMessages fetched))
        end end end end end
    end
  end.

(** ** Quoting *)

(** The reader of a quoted string: up to a quote that no backslash precedes. *)
Fixpoint read_quoted (s : string) : option (string * string) :=
  match s with
  | "" => None
  | String c s1 =>
    if bool_decide (c = dquote) then Some ("", s1)
    else if bool_decide (c = "\"%char) then
      match s1 with
      | String d s2 => match read_quoted s2 with Some (t, r) => Some (String d t, r) | None => None end
      | "" => None
      end
    else match read_quoted s1 with Some (t, r) => Some (String c t, r) | None => None end
  end.

Lemma escapeIMAP_cons c s : escapeIMAP (String c s)
  = (if bool_decide (c = "\"%char) then "\\" else if bool_decide (c = dquote) then String "\" (String dquote "") else String c "") +:+ escapeIMAP s.
Proof.
  unfold escapeIMAP. cbn [replace_char]. destruct (decide (c = "\"%char)) as [->|Hb].
  - rewrite bool_decide_eq_true_2 by done. reflexivity.
  - rewrite !(bool_decide_eq_false_2 (c = "\"%char)) by done. cbn [replace_char]. case_bool_decide; done.
Qed.

(** An argument of a command that is quoted is read back by the server as it is,
    whatever it holds, and nothing of it is read as the end of the argument. *)
Theorem quote_arg_reads (s rest : string) : read_quoted (escapeIMAP s +:+ String dquote rest) = Some (s, rest).
Proof.
  induction s as [|c s IH]; [reflexivity|]. rewrite escapeIMAP_cons, str_app_assoc.
  assert (∀ d t, read_quoted (String "\" (String d t)) = match read_quoted t with Some (u, r) => Some (String d u, r) | None => None end)
    as Hesc by done.
  case_bool_decide as Hb; [|case_bool_decide as Hq]; rewrite !str_app_cons, str_app_nil_l.
  - subst. by rewrite Hesc, IH.
  - subst. by rewrite Hesc, IH.
  - cbn [read_quoted]. rewrite !bool_decide_eq_false_2 by done. by rewrite IH.
Qed.

(** With a bound on the messages one more than the bound is fetched. *)
Theorem fetch_one_too_many (found maxMessages : Z) :
  0 < maxMessages < found → found - fetch_start found maxMessages + 1 = maxMessages + 1.
Proof. unfold fetch_start. lia. Qed.

(** ** Messages of a server *)
Definition dressed (l : string) : string := l +:+ String cr (String cr (String newline "")).
Fixpoint text_of (ls : list string) : string := match ls with [] => "" | l :: ls => l +:+ String newline "" +:+ text_of ls end.

(** A text whose header part has a closing parenthesis on a line of its own. *)
Definition stuck (b : string) : Prop :=
  ∃ pre t, Forall (λ l, chop l ≠ "" ∧ str_mem newline l = false) pre ∧ b = text_of pre +:+ dressed ")" +:+ t.

Lemma text_of_split pre b : Forall (λ l, str_mem newline l = false) pre →
  str_split newline (text_of pre +:+ b) = pre ++ str_split newline b.
Proof.
  induction 1 as [|l pre Hl _ IH]; [done|]. cbn [text_of]. rewrite !str_app_assoc, str_app_cons, str_app_nil_l.
  rewrite str_split_app, str_split_no_sep, IH by done. done.
Qed.

Lemma read_header_stuck pre rest hs : Forall (λ l, chop l ≠ "") pre →
  read_header (pre ++ (")" +:+ String cr (String cr "")) :: rest) hs = None.
Proof.
  intros Hp. revert hs. induction Hp as [|l pre Hl _ IH]; intros hs.
  - cbn [app read_header]. change (chop (")" +:+ String cr (String cr ""))) with (String ")" (String cr "")).
    rewrite bool_decide_eq_false_2 by (by intros [_ ?]). reflexivity.
  - cbn [app read_header]. destruct (chop l) as [|c l'] eqn:E; [done|].
    rewrite bool_decide_eq_false_2 by (by intros [_ ?]). rewrite bool_decide_eq_false_2 by done.
    case_bool_decide; [destruct (reverse hs) as [|[k v] hs']; [done|apply IH]|].
    destruct (str_cut ":" _) as [[k v]|]; [apply IH|done].
Qed.

Lemma stuck_unreadable b : stuck b → read_message b = None.
Proof.
  intros (pre & t & Hp & ->). unfold read_message.
  rewrite text_of_split by (eapply Forall_impl; [exact Hp|]; by intros l [_ ?]).
  change (dressed ")" +:+ t) with ((")" +:+ String cr (String cr "")) +:+ String newline t).
  rewrite str_split_app. rewrite (str_split_no_sep newline (")" +:+ _)) by done. cbn [app].
  apply read_header_stuck. eapply Forall_impl; [exact Hp|]. by intros l [? _].
Qed.

Lemma stuck_app b t : stuck b → stuck (b +:+ t).
Proof.
  intros (pre & t' & Hp & ->). exists pre, (t' +:+ t). split; [done|]. by rewrite !str_app_assoc.
Qed.
Lemma stuck_nonempty b : stuck b → b ≠ "".
Proof.
  intros (pre & t & _ & ->) E. apply (f_equal String.length) in E. rewrite !str_length_app in E.
  change (String.length (dressed ")")) with 4%nat in E. change (String.length "") with 0%nat in E. lia.
Qed.

Lemma substring_app a b : String.substring (String.length a) (String.length b) (a +:+ b) = b.
Proof.
  induction a as [|c a IH]; [|exact IH]. change (String.substring 0 (String.length b) b = b).
  induction b as [|c b IH]; [done|]. cbn. by rewrite IH.
Qed.
Lemma has_suffix_app a b : has_suffix (a +:+ b) b = true.
Proof.
  unfold has_suffix. rewrite str_length_app, Nat.add_sub, substring_app.
  rewrite !bool_decide_eq_true_2 by (done || lia). done.
Qed.
Lemma chop_cr l : chop (l +:+ String cr "") = l.
Proof.
  unfold chop. rewrite has_suffix_app. apply str_take_app_exact. rewrite str_length_app. cbn. lia.
Qed.

(** A message on the wire: the line that announces it, its lines, and a closing
    parenthesis; every line ends with a carriage return and a line feed. *)
Record Wire := { announce : string; message : list string }.
Definition wire_lines (m : Wire) : list string := announce m :: message m ++ [")"].
Definition response (ms : list Wire) (finish : string) : string :=
  text_of ((λ l, l +:+ String cr "") <$> (ms ≫= wire_lines) ++ [finish]).
Definition plain_line (l : string) : Prop := str_mem newline l = false ∧ item_number (l +:+ String cr "") = None.
Definition wire_ok (m : Wire) : Prop :=
  str_mem newline (announce m) = false ∧ is_Some (item_number (announce m +:+ String cr "")) ∧
  Forall plain_line (message m).

Definition waiting (s : Scan) : Prop :=
  Forall (λ it, stuck it.2) (items s) ∧ (currentBody s = "" ∨ inFetch s = true ∧ stuck (currentBody s)).

Lemma scan_announce s l : is_Some (item_number l) → waiting s →
  Forall (λ it, stuck it.2) (items (scan_line s l)) ∧ currentBody (scan_line s l) = "" ∧ inFetch (scan_line s l) = true.
Proof.
  intros [n Hn] [Hi Hb]. unfold scan_line. rewrite Hn. cbn. destruct Hb as [-> | [Hf Hb]].
  - rewrite andb_false_r. by destruct (inFetch s).
  - rewrite Hf. rewrite bool_decide_eq_true_2 by (by apply stuck_nonempty). cbn [andb]. split_and!; [|done|done].
    apply Forall_app. split; [done|]. constructor; [|constructor]. cbn. unfold with_crlf.
    case_match; [done|]. by apply stuck_app.
Qed.

Lemma scan_plain ls s : Forall (λ l, item_number l = None) ls → inFetch s = true →
  let s' := foldl scan_line s ls in
  items s' = items s ∧ inFetch s' = true ∧ currentBody s' = currentBody s +:+ str_join "" ((λ l, l +:+ crlf) <$> ls).
Proof.
  intros Hls. revert s. induction Hls as [|l ls Hl _ IH]; intros s Hf; cbn [foldl].
  - by rewrite str_app_nil_r.
  - destruct (IH (scan_line s l)) as (Hc1 & Hc2 & Hc3); [unfold scan_line; by rewrite Hl|].
    rewrite Hc1, Hc2, Hc3. unfold scan_line. rewrite Hl. cbn [items currentBody]. rewrite Hf. split_and!; [done|done|].
    rewrite fmap_cons. rewrite !str_app_assoc. f_equal. destruct ls; [cbn; by rewrite !str_app_nil_r|].
    rewrite fmap_cons, (str_join_cons _ (l +:+ crlf)) by done. by rewrite str_app_assoc.
Qed.

Lemma dressed_text ls : str_join "" ((λ l, l +:+ crlf) <$> ((λ l, l +:+ String cr "") <$> ls))
  = text_of ((λ l, l +:+ String cr (String cr "")) <$> ls).
Proof.
  assert (∀ x l, str_join "" (x :: l) = x +:+ str_join "" l) as Hj.
  { intros x [|y l]; [by rewrite str_app_nil_r|]. by rewrite str_join_cons. }
  induction ls as [|l ls IH]; [done|]. rewrite !fmap_cons, Hj, IH. cbn [text_of]. by rewrite !str_app_assoc.
Qed.

Lemma text_of_app a b : text_of (a ++ b) = text_of a +:+ text_of b.
Proof. induction a as [|x a IH]; [done|]. cbn. by rewrite IH, !str_app_assoc. Qed.

Lemma scan_message s m : wire_ok m → waiting s →
  let s' := foldl scan_line s ((λ l, l +:+ String cr "") <$> wire_lines m) in
  waiting s' ∧ inFetch s' = true ∧ stuck (currentBody s').
Proof.
  intros (Hn & Ha & Hl) Hw. unfold wire_lines. rewrite fmap_cons. cbn [foldl].
  destruct (scan_announce s _ Ha Hw) as (Hi & Hb & Hf).
  set (s1 := scan_line s (announce m +:+ String cr "")) in *.
  destruct (scan_plain ((λ l, l +:+ String cr "") <$> message m ++ [")"]) s1) as (Hc1 & Hc2 & Hc3); [|done|].
  { apply Forall_fmap, Forall_app. split; [|by constructor]. eapply Forall_impl; [exact Hl|]. by intros l [_ ?]. }
  set (s2 := foldl scan_line s1 _) in *.
  assert (stuck (currentBody s2)) as Hs.
  { rewrite Hc3, Hb, str_app_nil_l, dressed_text, fmap_app, text_of_app.
    exists ((λ l, l +:+ String cr (String cr "")) <$> message m), "". split.
    - apply Forall_fmap. eapply Forall_impl; [exact Hl|]. intros l [Hnl _]. split.
      + assert (l +:+ String cr (String cr "") = (l +:+ String cr "") +:+ String cr "") as -> by (by rewrite str_app_assoc).
        rewrite chop_cr. by destruct l.
      + rewrite str_mem_app, Hnl. done.
    - reflexivity. }
  split_and!; [|done|done]. split; [by rewrite Hc1|]. by right.
Qed.

Lemma scan_messages ms s : Forall wire_ok ms → waiting s →
  let s' := foldl scan_line s ((λ l, l +:+ String cr "") <$> (ms ≫= wire_lines)) in
  waiting s' ∧ (ms = [] ∧ s' = s ∨ inFetch s' = true ∧ stuck (currentBody s')).
Proof.
  intros Hms. revert s. induction Hms as [|m ms Hm _ IH]; intros s Hw; [split; [done|by left]|].
  rewrite bind_cons, fmap_app. cbn zeta. rewrite foldl_app. destruct (scan_message s m Hm Hw) as (Hw' & Hf & Hs).
  destruct (IH _ Hw') as (Hw2 & [[-> He]|Hr]); (split; [done|]); right; [|done]. cbn zeta in *. by rewrite He.
Qed.

(** No message is ever ingested from a server that ends its lines as the protocol
    says: the splitting doubles the carriage returns, so that the empty line after
    the header is not empty any more, and every message is dropped as malformed; the
    fetch reports success without rows. *)
Theorem imap_messages_lost (ms : list Wire) (finish : string) :
  Forall wire_ok ms → plain_line finish →
  parseIMAPFetchMessages (response ms finish) = [].
Proof.
  intros Hms [Hn Hfin]. assert (item_number "" = None) as He by done. unfold parseIMAPFetchMessages.
  assert (Forall (λ it, stuck it.2) (fetch_items (response ms finish))) as Hst.
  { unfold fetch_items, response.
    pose proof (text_of_split ((λ l, l +:+ String cr "") <$> (ms ≫= wire_lines) ++ [finish]) "") as Hsp.
    rewrite str_app_nil_r in Hsp. rewrite Hsp; clear Hsp.
    2: { apply Forall_fmap, Forall_app. split; [|constructor; [|done]; cbn; by rewrite str_mem_app, Hn].
         apply Forall_bind. eapply Forall_impl; [exact Hms|]. intros m (Hna & _ & Hl). unfold wire_lines.
         constructor; [cbn; by rewrite str_mem_app, Hna|]. apply Forall_app. split; [|by constructor].
         eapply Forall_impl; [exact Hl|]. intros l [Hnl _]. cbn. by rewrite str_mem_app, Hnl. }
    rewrite fmap_app, !foldl_app. set (s0 := {| currentSeq := 0; currentBody := ""; inFetch := false; items := [] |}).
    destruct (scan_messages ms s0 Hms) as (Hw & Hr); [by split; [constructor|left]|]. cbn zeta in *.
    set (s1 := foldl scan_line s0 ((λ l, l +:+ String cr "") <$> (ms ≫= wire_lines))) in *. clearbody s1.
    change (str_split newline "") with [""]. cbn [fmap list_fmap foldl]. destruct Hr as [[_ ->]|[Hf Hs]].
    - unfold scan_line. rewrite Hfin, He. cbn. constructor.
    - destruct (scan_plain [finish +:+ String cr ""; ""] s1) as (Hc1 & Hc2 & Hc3); [by repeat constructor|done|].
      cbn [foldl] in *. rewrite Hc2, Hc1, Hc3. rewrite bool_decide_eq_true_2 by (by apply stuck_nonempty, stuck_app).
      cbn [andb]. destruct Hw as [Hw _]. apply Forall_app. split; [done|]. constructor; [|constructor]. cbn. by apply stuck_app. }
  induction Hst as [|it its Hit _ IH]; [done|]. cbn [omap list_omap]. unfold parseRFC822.
  by rewrite (stuck_unreadable _ Hit).
Qed.
End Text.

(** *** Witnesses *)
#[local] Existing Instance ascii_tables.
#[local] Existing Instance ascii_fold_tables.
#[local] Instance sample_mail : MailLib := {|
  decode_header s := Some s; media_type s := None; multipart _ _ := []; base64_std s := Some s; quoted_printable s := Some s |}.
Definition sample_wire : Wire :=
  {| announce := "* 1 FETCH (BODY[] {24}"; message := ["Subject: hello"; "From: ada"; ""; "text"] |}.

(** Where every line ended with a line feed alone the same message would be read. *)
Example bare_line_feeds :
  Subject <$> parseIMAPFetchMessages (text_of [announce sample_wire; "Subject: hello"; "From: ada"; ""; "text"; ")"; "A004 OK done"])
  = ["hello"].
Proof. vm_compute. reflexivity. Qed.

Lemma imap_messages_lost_witness : parseIMAPFetchMessages (response [sample_wire] "A004 OK done") = [].
Proof.
  apply imap_messages_lost.
  - constructor; [|constructor]. split; [reflexivity|]. split; [vm_compute; eauto|].
    repeat (constructor; [split; vm_compute; reflexivity|]). constructor.
  - split; vm_compute; reflexivity.
Defined.

Lemma fetch_one_too_many_witness : 500 - fetch_start 500 200 + 1 = 201.
Proof. apply (fetch_one_too_many 500 200). lia. Defined.
End Imap.
