(* ===== verification/Ingestion.v ===== *)
(** * The ingestion engine (internal/ingestion/engine.go)

    [Names] turns tasks into table names; [Engine] runs tasks: the sources as
    handlers in a state and error monad over the world the engine acts on (files,
    task rows, the statements the database has executed), [RunTask] around them, and
    the exclusion of two runs of one task.  Lines of the task log are left out.
    The database, the network, the go tool and the operating system answer through
    the environment; a fetch that is still running when the deadline of the task
    comes fails, and [budget] is the number of pages it had time for. *)

From S2P Require Import Prelude GoStrings GoValues GoText GoJson SafeIdent Dsl DslAst DslParser Repository Projects Sandbox Fetch Sources Probe Imap Ssrf.
Import SafeIdent Json Http.

Module Names.
Section Names.
Context `{Unicode}.
(** SHA-256 in hexadecimal and [uuid.Parse]. *)
Context (checksum : string → string) (uuid_parse : string → bool).

Record IngestionTask := { Id : string; Name : string; SourceType : string; ConfigJson : string }.

Definition computeChecksum (data : string) : string := checksum data.
Definition VerifyChecksum (data expected : string) : bool := bool_decide (computeChecksum data = expected).

(** The regular expression [^a-zA-Z0-9_] replaced by an underscore, rune by rune. *)
Definition replace_rune (r : string) : string :=
  match r with String c "" => if is_word_char c then r else "_" | _ => "_" end.
Definition sanitize (s : string) : string := ToLower (str_join "" (replace_rune <$> runes s)).

Definition validateSQLName (name : string) : option ident_error := ValidateStrictIdentifier name.
Definition sanitizeIdentifier (id : string) : option ident_error := ValidateStrictIdentifier id.
Definition sanitizeFilePath (p : string) : option path_error := SanitizeFilePath p.

Definition stripAndValidateName (name : string) : result ident_error string :=
  let cleaned := sanitize name in
  match ValidateIdentifier cleaned with Some e => Err e | None => Ok cleaned end.

Definition resolveTableName (task : IngestionTask) : result ident_error string :=
  match config (ConfigJson task) ≫= string_field "tableName" with
  | Some (String _ _ as t) => stripAndValidateName t
  | _ =>
    if negb (bool_decide (Name task = "")) then stripAndValidateName (Name task)
    else if uuid_parse (Id task) then Ok ("task_" +:+ replace_char "-" "_" (Id task))
    else
      let sanitized := sanitize (Id task) in
      Ok (match ValidateIdentifier sanitized with
          | Some _ => "task_" +:+ str_take 16 (computeChecksum (Id task))
          | None => sanitized
          end)
  end.
End Names.
End Names.

Module Engine.
Import Names Sql Projects Paths.

(** ** The world of the engine *)
Record Stmt := { sql : list piece; args : list any }.
Record World := {
  fs : FS;
  meta : option Repository.Repository.Tables;
  executed : list Stmt;
  tasks : gmap string string;
  githubIngester : option GitHub.GitHubIngester;
  sheetsIngester : option Sheets.SheetsIngester;
}.
Definition with_fs (f : FS) (w : World) : World :=
  {| fs := f; meta := meta w; executed := executed w; tasks := tasks w; githubIngester := githubIngester w;
     sheetsIngester := sheetsIngester w |}.
Definition with_meta (t : option Repository.Repository.Tables) (w : World) : World :=
  {| fs := fs w; meta := t; executed := executed w; tasks := tasks w; githubIngester := githubIngester w;
     sheetsIngester := sheetsIngester w |}.
Definition with_executed (l : list Stmt) (w : World) : World :=
  {| fs := fs w; meta := meta w; executed := l; tasks := tasks w; githubIngester := githubIngester w;
     sheetsIngester := sheetsIngester w |}.
Definition with_tasks (t : gmap string string) (w : World) : World :=
  {| fs := fs w; meta := meta w; executed := executed w; tasks := t; githubIngester := githubIngester w;
     sheetsIngester := sheetsIngester w |}.
Definition with_github (g : option GitHub.GitHubIngester) (w : World) : World :=
  {| fs := fs w; meta := meta w; executed := executed w; tasks := tasks w; githubIngester := g;
     sheetsIngester := sheetsIngester w |}.
Definition with_sheets (s : option Sheets.SheetsIngester) (w : World) : World :=
  {| fs := fs w; meta := meta w; executed := executed w; tasks := tasks w; githubIngester := githubIngester w;
     sheetsIngester := s |}.

Inductive ingest_error :=
| AlreadyRunning (id : string) | OpenLog | UnknownSource (t : string)
| BadConfig | MissingConfig | BadTableName (e : ident_error) | UnsafePath (e : path_error)
| RequestCreation | HttpFailed | HttpStatus (code : Z) | BodyRead
| FileWrite | FileRead | DirRead | StatementFailed | CustomQuery
| NotAnObject | CodeInvalid | ImportBlocked (path : string) | TempDir | BuildFailed | DynamicRun
| SandboxBypassed | ImapFailed (e : Imap.imap_error)
| GitHubFailed (e : GitHub.github_error) | SitemapFailed (e : Sitemap.sitemap_error)
| ApiFailed (e : JsonApi.api_error) | SheetsFailed (e : Sheets.sheets_error) | DeadlineExceeded.

(** State and error, threaded as the handlers do: an error keeps what was done. *)
Definition M (A : Type) : Type := World → World * result ingest_error A.
Definition ret {A} (a : A) : M A := λ w, (w, Ok a).
Definition fail {A} (e : ingest_error) : M A := λ w, (w, Err e).
Definition bind {A B} (m : M A) (f : A → M B) : M B := λ w,
  match m w with (w, Ok a) => f a w | (w, Err e) => (w, Err e) end.
Notation "'let!' x := m 'in' k" := (bind m (fun x => k))
  (at level 10, x pattern, m at level 100, k at level 200).
Notation "'do!' m ; k" := (bind m (fun _ => k)) (at level 10, m at level 100, k at level 200).
Definition when (b : bool) (e : ingest_error) : M unit := if b then fail e else ret tt.
Definition need {A} (o : option A) (e : ingest_error) : M A := match o with Some a => ret a | None => fail e end.
Definition lift {E A} (f : E → ingest_error) (r : result E A) : M A := match r with Ok a => ret a | Err e => fail (f e) end.
(** [if err := check(); err != nil { return err }]. *)
Definition check {E} (f : E → ingest_error) (o : option E) : M unit := match o with Some e => fail (f e) | None => ret tt end.

(** ** The environment *)
Class Env := {
  db_ok : list Stmt → Stmt → bool;
  progress_ok : string → Z → string → bool;
  (** What the operating system allows, by operation and path. *)
  os_ok : string → string → bool;
  http : Request → option Response;
  new_request : string → bool;
  url_parses : string → bool;
  checksum : string → string;
  uuid_parse : string → bool;
  (** The import literals [go/parser] finds, and [strconv.Unquote]. *)
  go_imports : string → option (list string);
  unquote : string → option string;
  build_ok : string → bool;
  (** What the program built from a code does to the files. *)
  run_binary : string → FS → FS;
  (** Deadlines, by number of pages. *)
  budget : nat;
  (** The servers of the probe, of the detection of a configuration and of the pages. *)
  probe_server : Server;
  detect_server : Server;
  page_server : Server;
  resolver : Ssrf.Resolver;
  dial_ok : bool;
  imap : Imap.Server;
  sheet_server : nat → nat → Server;
  map_order : list string → list string;
  (** The tokens of text/scanner, [strconv.ParseFloat], and [%v] of a decoded value. *)
  tokenize : string → option (list DslParser.DslParser.token);
  parse_float : string → bool;
  print_value : json → string;
}.

Section Engine.
Context `{Unicode} `{UnicodeFold} `{UrlLib} `{Floats} `{Sitemap.SitemapLib} `{MailLib} `{Env}.
Context (projectsRoot : string).

(** ** Primitive actions *)
Definition updateProgress (id : string) (progress : Z) (status : string) : M unit := λ w,
  (with_meta ((λ t, (Repository.Repository.UpdateTaskProgress (progress_ok id progress status) id progress status t).1) <$> meta w) w, Ok tt).

(** [e.db.Exec]: whether the statement was executed. *)
Definition Exec (q : list piece) (ps : list any) : M bool := λ w,
  let s := {| sql := q; args := ps |} in
  if db_ok (executed w) s then (with_executed (executed w ++ [s]) w, Ok true) else (w, Ok false).
Definition exec_or (q : list piece) (e : ingest_error) : M unit := let! ok := Exec q [] in when (negb ok) e.

Definition mkdirAll (p : string) : M unit := λ w,
  (if os_ok "mkdir" p then with_fs (MkdirAll p (fs w)) w else w, Ok tt).
Definition parent (l : list string) : list string := take (length l - 1) l.
Definition write (p data : string) : M bool := λ w,
  if os_ok "write" p && bool_decide (parent (loc p) ∈ dirs (fs w)) then
    match WriteFile p data (fs w) with Some f => (with_fs f w, Ok true) | None => (w, Ok false) end
  else (w, Ok false).
Definition write_or (p data : string) (e : ingest_error) : M unit := let! ok := write p data in when (negb ok) e.
Definition read (p : string) : M (option string) := λ w,
  (w, Ok (if os_ok "read" p then ReadFile p (fs w) else None)).

Definition join (l : list string) : string := filepath_Join l.
Definition raw_dir (projectID : string) : string := join [projectsRoot; projectID; "raw"].

(** ** Statements *)
Definition view_from (table reader path : string) : list piece :=
  [Raw "CREATE OR REPLACE VIEW "; Ident table; Raw (" AS SELECT * FROM " +:+ reader +:+ "("); Lit path; Raw ")"].
Definition table_from (table reader path options : string) : list piece :=
  [Raw "CREATE TABLE IF NOT EXISTS "; Ident table; Raw (" AS SELECT * FROM " +:+ reader +:+ "("); Lit path; Raw (options +:+ ")")].
Definition timestamp_column (table : string) : list piece :=
  [Raw "ALTER TABLE "; Ident table;
   Raw " ADD COLUMN IF NOT EXISTS _aleph_ingested_at TIMESTAMP DEFAULT CURRENT_TIMESTAMP"].

(** [filepath.Ext]. *)
Definition Ext (p : string) : string :=
  let base := default p (last (str_split "/" p)) in
  match GoNet.last_index "." base with Some i => str_drop i base | None => "" end.

(** The fields of a configuration that is a struct of strings. *)
Definition fields (cfg : string) (names : list string) : option (list string) :=
  match config cfg with Some m => mapM (λ n, string_field n m) names | None => None end.

(** ** Files over HTTP *)
Definition fetch (url : string) (headers : list (string * string)) : M Response :=
  do! when (negb (new_request url)) RequestCreation;
  let! resp := need (http {| ReqURL := url; ReqHeader := headers |}) HttpFailed in
  do! when (negb (bool_decide (StatusCode resp = 200))) (HttpStatus (StatusCode resp));
  ret resp.

Definition runPrecompiled (projectID : string) (task : IngestionTask) : M unit :=
  let! c := need (fields (ConfigJson task) ["url"; "repo"; "token"]) BadConfig in
  match c with
  | [URL; Repo; Token] =>
    let urlToFetch := if bool_decide (URL = "") && negb (bool_decide (Repo = ""))
                      then "https://api.github.com/repos/" +:+ Repo +:+ "/contents" else URL in
    do! when (bool_decide (urlToFetch = "")) MissingConfig;
    do! updateProgress (Id task) 10 "running";
    let! resp := fetch urlToFetch
      (("Accept", "application/json, text/csv, application/rss+xml, application/atom+xml, */*") ::
       (if bool_decide (Token = "") then [] else [("Authorization", "Bearer " +:+ Token)])) in
    do! updateProgress (Id task) 40 "running";
    let! body := need (Body resp) BodyRead in
    do! updateProgress (Id task) 70 "running";
    let tableName := Id task in
    do! check BadTableName (ValidateIdentifier tableName);
    let contentType := Get "Content-Type" (RespHeader resp) in
    do! mkdirAll (raw_dir projectID);
    do! (if str_contains contentType "json" || str_contains contentType "javascript" then
           let tmpFile := join [projectsRoot; projectID; "raw"; tableName +:+ ".json"] in
           do! write_or tmpFile body FileWrite;
           do! check UnsafePath (SanitizeFilePath tmpFile);
           exec_or (view_from tableName "read_json_auto" tmpFile) StatementFailed
         else if str_contains contentType "csv" || str_contains contentType "text/plain" then
           let tmpFile := join [projectsRoot; projectID; "raw"; tableName +:+ ".csv"] in
           do! write tmpFile body;
           do! check UnsafePath (SanitizeFilePath tmpFile);
           exec_or (view_from tableName "read_csv_auto" tmpFile) StatementFailed
         else
           do! write (join [projectsRoot; projectID; "raw"; tableName +:+ ".dat"]) body; ret tt);
    updateProgress (Id task) 100 "completed"
  | _ => fail BadConfig
  end.

Definition runURLFetch (projectID : string) (task : IngestionTask) : M unit :=
  let! c := need (fields (ConfigJson task) ["url"]) BadConfig in
  match c with
  | [URL] =>
    do! when (bool_decide (URL = "")) MissingConfig;
    do! when (negb (url_parses URL)) RequestCreation;
    do! updateProgress (Id task) 10 "running";
    let! resp := fetch URL [("Accept", "application/json, text/csv, */*")] in
    do! updateProgress (Id task) 40 "running";
    let! body := need (Body resp) BodyRead in
    do! updateProgress (Id task) 70 "running";
    let contentType := Get "Content-Type" (RespHeader resp) in
    let tableName := Id task in
    do! check BadTableName (sanitizeIdentifier tableName);
    do! check BadTableName (validateSQLName tableName);
    do! mkdirAll (raw_dir projectID);
    let isJSON := str_contains contentType "json" || has_suffix URL ".json" in
    let isCSV := (str_contains contentType "csv" || has_suffix URL ".csv") || (negb isJSON && negb (Valid body)) in
    let '(reader, ext) := if isCSV then ("read_csv_auto", ".csv") else ("read_json_auto", ".json") in
    let rawPath := join [raw_dir projectID; tableName +:+ ext] in
    do! write_or rawPath body FileWrite;
    do! check UnsafePath (SanitizeFilePath rawPath);
    do! exec_or (table_from tableName reader rawPath ", ignore_errors=true") StatementFailed;
    updateProgress (Id task) 90 "running"
  | _ => fail BadConfig
  end.

(** ** Files and databases *)
Definition runCSVLoad (projectID : string) (task : IngestionTask) : M unit :=
  let! c := need (fields (ConfigJson task) ["path"; "tableName"]) BadConfig in
  match c with
  | [Path; TableName] =>
    do! when (bool_decide (Path = "")) MissingConfig;
    do! updateProgress (Id task) 20 "running";
    let given := if bool_decide (TableName = "") then (if bool_decide (Name task = "") then Id task else Name task)
                 else TableName in
    let tableName := sanitize given in
    do! check BadTableName (sanitizeIdentifier tableName);
    do! check BadTableName (validateSQLName tableName);
    do! check UnsafePath (sanitizeFilePath Path);
    let readerFunc := if has_suffix (ToLower Path) ".parquet" then "read_parquet" else "read_csv_auto" in
    do! mkdirAll (raw_dir projectID);
    let localPath := join [raw_dir projectID; tableName +:+ Ext Path] in
    let! data := read Path in
    let! data := need data FileRead in
    do! write_or localPath data FileWrite;
    do! exec_or (table_from tableName readerFunc localPath "") StatementFailed;
    updateProgress (Id task) 90 "running"
  | _ => fail BadConfig
  end.

Definition postgres_view (table dsn : string) : list piece :=
  [Raw "CREATE OR REPLACE VIEW "; Ident table; Raw " AS SELECT * FROM postgres_scan_pushdown("; Lit dsn; Raw ", ";
   Lit "public"; Raw ", "; Lit table; Raw ")"].

Definition runPostgresLoad (projectID : string) (task : IngestionTask) : M unit :=
  let! c := need (fields (ConfigJson task) ["dsn"; "query"]) BadConfig in
  match c with
  | [DSN; Query] =>
    do! when (bool_decide (DSN = "")) MissingConfig;
    do! updateProgress (Id task) 10 "running";
    let tableName := Id task in
    do! check BadTableName (sanitizeIdentifier tableName);
    do! check BadTableName (validateSQLName tableName);
    do! exec_or [Raw "INSTALL postgres_scanner"] StatementFailed;
    do! exec_or [Raw "LOAD postgres_scanner"] StatementFailed;
    do! updateProgress (Id task) 40 "running";
    let safeDSN := replace_char squote (String squote (String squote "")) DSN in
    do! when (negb (bool_decide (Query = ""))) CustomQuery;
    do! exec_or (postgres_view tableName safeDSN) StatementFailed;
    updateProgress (Id task) 100 "completed"
  | _ => fail BadConfig
  end.

(** The names of the files in a directory, in order; [None] if there is none. *)
Definition read_dir (p : string) : M (option (list string)) := λ w,
  (w, Ok (if os_ok "readdir" p && bool_decide (loc p ∈ dirs (fs w)) then
            Some (sort_strings (omap (λ l, if bool_decide (parent l = loc p ∧ l ≠ []) then last l else None)
                                     (map_to_list (files (fs w))).*1))
          else None)).

Fixpoint copy_files (src dst : string) (names : list string) : M unit :=
  match names with
  | [] => ret tt
  | n :: names =>
    let! data := read (join [src; n]) in
    match data with
    | None => copy_files src dst names
    | Some data => do! write (join [dst; n]) data; copy_files src dst names
    end
  end.
Definition copy_reader (ext : string) : option string :=
  if bool_decide (ext = ".csv") then Some "read_csv_auto"
  else if bool_decide (ext = ".json") then Some "read_json_auto"
  else if bool_decide (ext = ".parquet") then Some "read_parquet" else None.
Fixpoint copy_views (dst : string) (names : list string) : M unit :=
  match names with
  | [] => ret tt
  | n :: names =>
    let tableName := str_take (String.length n - String.length (Ext n)) n in
    let filePath := join [dst; n] in
    match ValidateIdentifier tableName, SanitizeFilePath filePath, copy_reader (ToLower (Ext n)) with
    | None, None, Some reader => do! Exec (view_from tableName reader filePath) []; copy_views dst names
    | _, _, _ => copy_views dst names
    end
  end.
Definition runCopy (projectID : string) (task : IngestionTask) : M unit :=
  let! c := need (fields (ConfigJson task) ["source"]) BadConfig in
  match c with
  | [Source] =>
    do! when (bool_decide (Source = "")) MissingConfig;
    do! updateProgress (Id task) 20 "running";
    let sourcePath := join [projectsRoot; Source; "raw"] in
    let destPath := join [projectsRoot; projectID; "raw"] in
    let! entries := read_dir sourcePath in
    let! entries := need entries DirRead in
    do! copy_files sourcePath destPath entries;
    do! updateProgress (Id task) 80 "running";
    do! copy_views destPath entries;
    updateProgress (Id task) 100 "completed"
  | _ => fail BadConfig
  end.

(** ** Go code *)
Definition blockedImports : list string :=
  ["os/signal"; "syscall"; "net"; "os/exec"; "unsafe"; "reflect"; "os"; "io";
   "crypto"; "crypto/aes"; "crypto/cipher"; "crypto/des"; "crypto/dsa"; "crypto/ecdsa"; "crypto/ed25519"; "crypto/elliptic";
   "crypto/hmac"; "crypto/md5"; "crypto/rand"; "crypto/rc4"; "crypto/rsa"; "crypto/sha1"; "crypto/sha256"; "crypto/sha512";
   "crypto/subtle"; "crypto/tls"; "crypto/x509"; "crypto/x509/pkix";
   "encoding"; "encoding/ascii85"; "encoding/asn1"; "encoding/base32"; "encoding/base64"; "encoding/binary"; "encoding/csv";
   "encoding/gob"; "encoding/hex"; "encoding/json"; "encoding/pem"; "encoding/xml";
   "net/http"; "net/http/cgi"; "net/http/cookiejar"; "net/http/fcgi"; "net/http/httptest"; "net/http/httptrace";
   "net/http/httputil"; "net/mail"; "net/rpc"; "net/rpc/jsonrpc"; "net/smtp"; "net/textproto"; "net/url"].

Definition import_path (literal : string) : string := default literal (unquote literal).
Definition import_blocked (path : string) : bool :=
  bool_decide (path ∈ blockedImports) ||
  existsb (λ blockedPath, String.prefix blockedPath path && negb (bool_decide (path = blockedPath))) blockedImports.
Definition validateCode (code : string) : option ingest_error :=
  match go_imports code with
  | None => Some CodeInvalid
  | Some imports => (λ ip, ImportBlocked ip.2) <$> list_find (λ p, import_blocked p = true) (import_path <$> imports)
  end.

(** The directory of the build is temporary and is left out. *)
Definition runDynamic (projectID : string) (task : IngestionTask) : M unit :=
  let! c := need (fields (ConfigJson task) ["code"]) BadConfig in
  match c with
  | [Code] =>
    do! when (bool_decide (Code = "")) MissingConfig;
    do! check id (validateCode Code);
    do! when (negb (os_ok "mkdirtemp" "")) TempDir;
    do! when (negb (os_ok "write" "main.go")) FileWrite;
    do! when (negb (build_ok Code)) BuildFailed;
    do! (λ w, (with_fs (run_binary Code (fs w)) w, Ok tt));
    fail DynamicRun
  | _ => fail BadConfig
  end.

(** ** Mail *)

(** [csv.Writer]. *)
Definition fieldNeedsQuotes (field : string) : bool :=
  if bool_decide (field = "") then false
  else if bool_decide (field = "\.") then true
  else if existsb (λ c, str_mem c field) [","%char; dquote; "013"%char; "010"%char] then true
  else match runes field with r :: _ => bool_decide (TrimSpace r = "") | [] => false end.
Definition csv_field (field : string) : string :=
  if fieldNeedsQuotes field
  then String dquote (replace_char dquote (String dquote (String dquote "")) field +:+ String dquote "") else field.
Definition csv_record (fields : list string) : string := str_join "," (csv_field <$> fields) +:+ String newline "".

Definition email_csv (rows : list Imap.emailRow) : string :=
  str_join "" (csv_record <$>
    ["subject"; "from"; "date"; "message_id"; "body"] ::
    ((λ r, [Imap.Subject r; Imap.From r; Imap.Date r; Imap.MessageID r; Imap.EBody r]) <$> rows)).

Definition nl (l : string) : string := l +:+ String newline "".
Definition quoted (s : string) : string := String dquote (s +:+ String dquote "").
Definition legacyPythonScript : string := str_join "" (nl <$>
  [""; "import imaplib, email, json, sys, csv, io"; "from email.header import decode_header";
   "creds = json.loads(sys.stdin.read())";
   "mail = imaplib.IMAP4_SSL(creds[" +:+ quoted "server" +:+ "], int(creds[" +:+ quoted "port" +:+ "]))";
   "mail.login(creds[" +:+ quoted "username" +:+ "], creds[" +:+ quoted "password" +:+ "])"]).

Definition runEmailFetch (projectID : string) (task : IngestionTask) : M unit :=
  let! c := need (fields (ConfigJson task) ["host"; "user"; "pass"; "folder"]) BadConfig in
  match c with
  | [Host; User; Pass; Folder] =>
    do! when (bool_decide (Host = "") || bool_decide (User = "") || bool_decide (Pass = "")) MissingConfig;
    let folder := if bool_decide (Folder = "") then "INBOX" else Folder in
    let tableName := Id task in
    do! check BadTableName (validateSQLName tableName);
    let projectPath := join [projectsRoot; projectID] in
    do! when (negb (bool_decide (is_Some (Validation.ValidatePythonCode legacyPythonScript)))) SandboxBypassed;
    let! rows := lift ImapFailed (Imap.fetchIMAP resolver dial_ok imap Host User Pass folder 200).2 in
    match rows with
    | [] => ret tt
    | _ =>
      let csvPath := join [projectPath; tableName +:+ ".csv"] in
      do! mkdirAll projectPath;
      do! write_or csvPath (email_csv rows) FileWrite;
      exec_or (table_from tableName "read_csv_auto" csvPath ", ignore_errors=true") StatementFailed
    end
  | _ => fail BadConfig
  end.

(** ** Sources *)
Definition config_string (name cfg : string) : string := default "" (config cfg ≫= string_field name).

(** The ingesters are created by the first task that needs one. *)
Definition getOrCreateGitHubIngester (task : IngestionTask) : M GitHub.GitHubIngester := λ w,
  match githubIngester w with
  | Some g => (w, Ok g)
  | None => let g := GitHub.NewGitHubIngester (config_string "token" (ConfigJson task)) in (with_github (Some g) w, Ok g)
  end.
Definition getOrCreateSheetsIngester (task : IngestionTask) : M Sheets.SheetsIngester := λ w,
  match sheetsIngester w with
  | Some s => (w, Ok s)
  | None => let s := Sheets.NewSheetsIngester (config_string "api_key" (ConfigJson task)) in (with_sheets (Some s) w, Ok s)
  end.

(** A fetch that has to end before the deadline. *)
Definition in_time {E A} (f : E → ingest_error) (r : option (result E A)) : M A :=
  let! r := need r DeadlineExceeded in lift f r.

Definition json_table (tableName jsonPath : string) : list piece :=
  table_from tableName "read_json_auto" jsonPath ", ignore_errors=true".

(** One file and one table per result; [valid] is the check of the table's name. *)
Fixpoint store_each (valid : string → option ident_error) (projectPath prefix : string) (kinds : list string)
    (results : gmap string string) (skip_empty : bool) : M unit :=
  match kinds with
  | [] => ret tt
  | kind :: kinds =>
    let continue := store_each valid projectPath prefix kinds results skip_empty in
    match results !! kind with
    | None => continue
    | Some data =>
      if skip_empty && bool_decide (data = "") then continue
      else
        let tableName := sanitize (prefix +:+ "_" +:+ kind) in
        match valid tableName with
        | Some _ => continue
        | None =>
          let jsonPath := join [projectPath; tableName +:+ ".json"] in
          do! write_or jsonPath data FileWrite;
          match SanitizeFilePath jsonPath with
          | Some _ => continue
          | None => do! Exec (json_table tableName jsonPath) []; continue
          end
        end
    end
  end.

Definition runGitHubSource (projectID : string) (task : IngestionTask) : M unit :=
  let! c := need (fields (ConfigJson task) ["owner"; "repo"; "token"]) BadConfig in
  match c with
  | [Owner; Repo; Token] =>
    do! when (bool_decide (Owner = "") || bool_decide (Repo = "")) MissingConfig;
    do! updateProgress (Id task) 10 "running";
    let! ingester := getOrCreateGitHubIngester task in
    let! results := in_time GitHubFailed (GitHub.FetchAll new_request page_server ingester budget Owner Repo) in
    do! mkdirAll (raw_dir projectID);
    do! store_each validateSQLName (raw_dir projectID) (Id task) ["issues"; "pulls"; "commits"] results true;
    updateProgress (Id task) 100 "completed"
  | _ => fail BadConfig
  end.

Definition pageRow (p : Sitemap.PageResult) : json :=
  JObj [("url", JStr (Sitemap.PURL p)); ("status", JNum (Itoa (Sitemap.PStatus p))); ("size", JNum (Itoa (Sitemap.Size p)));
        ("content", JStr (default "" (Sitemap.Content p)))].
Definition runSitemapSource (projectID : string) (task : IngestionTask) : M unit :=
  let! c := need (fields (ConfigJson task) ["url"]) BadConfig in
  match c with
  | [URL] =>
    do! when (bool_decide (URL = "")) MissingConfig;
    do! updateProgress (Id task) 10 "running";
    let! pages := in_time SitemapFailed (Sitemap.CrawlSitemap new_request http budget URL) in
    do! mkdirAll (raw_dir projectID);
    let tableName := match validateSQLName (Id task) with
                     | Some _ => "sitemap_" +:+ str_take 16 (computeChecksum checksum (Id task))
                     | None => Id task
                     end in
    do! check BadTableName (validateSQLName tableName);
    let jsonPath := join [raw_dir projectID; tableName +:+ ".json"] in
    do! write_or jsonPath (Marshal (JArr (pageRow <$> pages))) FileWrite;
    do! check UnsafePath (SanitizeFilePath jsonPath);
    do! exec_or (json_table tableName jsonPath) StatementFailed;
    updateProgress (Id task) 100 "completed"
  | _ => fail BadConfig
  end.

Record apiTask := {
  aURL : string; aPagination : string; aPageParam : string; aLimitParam : string; aLimit : Z; aDataPath : string;
  aMaxPages : Z; aAutoDetect : bool;
}.
Definition api_task (cfg : string) : option apiTask :=
  m ← config cfg; u ← string_field "url" m; pt ← string_field "pagination" m; pp ← string_field "pageParam" m;
  lp ← string_field "limitParam" m; l ← int_field "limit" m; dp ← string_field "dataPath" m;
  mp ← int_field "maxPages" m; ad ← bool_field "autoDetect" m;
  Some {| aURL := u; aPagination := pt; aPageParam := pp; aLimitParam := lp; aLimit := l; aDataPath := dp;
          aMaxPages := mp; aAutoDetect := ad |}.

Definition or_else (a b : string) : string := if bool_decide (a = "") then b else a.

(** The configuration after the probe of the endpoint, which is not refined by a model. *)
Definition probed (c : apiTask) : apiTask :=
  if aAutoDetect c || bool_decide (aPagination c = "") then
    match Probe.Probe map_order new_request probe_server (λ _ _, None) [] (aURL c) with
    | Err _ => c
    | Ok r =>
      let p := Probe.Pag r in
      if bool_decide (aPagination c = "") && bool_decide (Probe.PagType p ∈ ["offset"; "page"; "cursor"]) then
        {| aURL := aURL c; aPagination := Probe.PagType p; aPageParam := or_else (aPageParam c) (Probe.PageParam p);
           aLimitParam := or_else (aLimitParam c) (Probe.LimitParam p); aLimit := aLimit c; aDataPath := aDataPath c;
           aMaxPages := aMaxPages c; aAutoDetect := aAutoDetect c |}
      else c
    end
  else c.
Definition api_config (c : apiTask) : JsonApi.APIConfig :=
  let cfg pt pp lp dp :=
    {| JsonApi.BaseURL := aURL c; JsonApi.Headers := []; JsonApi.PaginationType := pt; JsonApi.PageParam := pp;
       JsonApi.LimitParam := lp; JsonApi.Limit := if bool_decide (aLimit c ≤ 0) then 100 else aLimit c;
       JsonApi.DataPath := dp; JsonApi.TotalPath := ""; JsonApi.MaxPages := aMaxPages c |} in
  if bool_decide (aDataPath c = "") then
    let d := JsonApi.DetectConfig new_request detect_server [] (aURL c) in
    cfg (or_else (aPagination c) (JsonApi.PaginationType d)) (or_else (aPageParam c) (JsonApi.PageParam d))
        (or_else (aLimitParam c) (JsonApi.LimitParam d)) (JsonApi.DataPath d)
  else cfg (aPagination c) (aPageParam c) (aLimitParam c) (aDataPath c).

Definition runJSONAPISource (projectID : string) (task : IngestionTask) : M unit :=
  let! c := need (api_task (ConfigJson task)) BadConfig in
  do! when (bool_decide (aURL c = "")) MissingConfig;
  do! updateProgress (Id task) 10 "running";
  let! data := in_time ApiFailed (snd <$> JsonApi.FetchAll new_request page_server budget [] (api_config (probed c))) in
  do! mkdirAll (raw_dir projectID);
  let tableName := Id task in
  do! check BadTableName (validateSQLName tableName);
  let jsonPath := join [raw_dir projectID; tableName +:+ ".json"] in
  do! write_or jsonPath data FileWrite;
  do! check UnsafePath (SanitizeFilePath jsonPath);
  do! exec_or (json_table tableName jsonPath) StatementFailed;
  updateProgress (Id task) 100 "completed".

Definition runSheetsSource (projectID : string) (task : IngestionTask) : M unit :=
  let! c := need (fields (ConfigJson task) ["spreadsheet_id"; "api_key"; "range"]) BadConfig in
  match c with
  | [SpreadsheetID; APIKey; SheetRange] =>
    do! when (bool_decide (SpreadsheetID = "")) MissingConfig;
    do! updateProgress (Id task) 10 "running";
    let! ingester := getOrCreateSheetsIngester task in
    let! allSheets := lift SheetsFailed (Sheets.FetchAllSheets new_request page_server sheet_server ingester SpreadsheetID) in
    do! mkdirAll (raw_dir projectID);
    do! store_each ValidateIdentifier (raw_dir projectID) (Id task) (map_order (map_to_list allSheets).*1) allSheets false;
    updateProgress (Id task) 100 "completed"
  | _ => fail BadConfig
  end.
End Engine.
End Engine.
