(* ===== verification/TaskRun.v ===== *)
(** * Runs of ingestion tasks (internal/ingestion/engine.go, internal/api/handler/ingestion.go)

    [Insert] loads an array of objects; [TaskRun] is [RunTask] around the sources of
    [Engine], with the views of the ontology and the enrichment that follows a run,
    and the exclusion of two runs of one task; [Handler] is the service in front of
    it.  The engine's invariants are proved once for every source: [Closed] lists
    what an invariant has to survive. *)

From S2P Require Import Prelude GoStrings GoValues GoText GoJson SafeIdent Dsl DslAst DslParser Repository Projects Sandbox Tokens Fetch Sources Probe Imap Ssrf Ingestion.
Import SafeIdent Json Http Names Sql Projects Paths Engine.

Notation "'let!' x := m 'in' k" := (bind m (fun x => k))
  (at level 10, x pattern, m at level 100, k at level 200).
Notation "'do!' m ; k" := (bind m (fun _ => k)) (at level 10, m at level 100, k at level 200).

Module Insert.
Section Insert.
Context `{Unicode} `{Env}.

Definition columns_of (m : list (string * json)) : list string := sort_strings (remove_dups m.*1).
Definition typeName (v : option json) : string :=
  match v with Some (JNum _) => "DOUBLE" | Some (JBool _) => "BOOLEAN" | _ => "VARCHAR" end.
Definition colDef (first : list (string * json)) (c : string) : list piece := [Ident c; Raw (" " +:+ typeName (member c first))].
(** A nil value stays nil; anything else is printed. *)
Definition param_of (m : list (string * json)) (c : string) : any :=
  match member c m with None | Some JNull => AnyNil | Some v => AnyStr (print_value v) end.

Definition objects (arr : list json) : list (list (string * json)) :=
  omap (λ v, match v with JObj m => Some m | _ => None end) arr.
Definition row_text (columns : list string) : string := "(" +:+ str_join "," ((λ _, "?") <$> columns) +:+ ")".
Definition create_sql (tableName : string) (first : list (string * json)) (columns : list string) : list piece :=
  [Raw "CREATE TABLE IF NOT EXISTS "; Ident tableName; Raw " ("] ++ Sql.join ", " (colDef first <$> columns) ++ [Raw ")"].
Definition insert_sql (tableName : string) (columns : list string) (rows : nat) : list piece :=
  [Raw "INSERT INTO "; Ident tableName; Raw " ("] ++ Sql.join ", " ((λ c, [Ident c]) <$> columns) ++
  [Raw (") VALUES " +:+ str_join ", " (replicate rows (row_text columns)))].

Definition batchSize : nat := 500.
(** [left] rows are still to be inserted; every batch is given all parameters. *)
Fixpoint insert_batches (batches : nat) (tableName : string) (columns : list string) (params : list any) (left : nat) : M unit :=
  match batches with
  | O => ret tt
  | S batches =>
    if bool_decide (left = 0%nat) then ret tt
    else
      do! Exec (insert_sql tableName columns (left `min` batchSize)) params;
      insert_batches batches tableName columns params (left - batchSize)
  end.

Definition insertJSONArray (tableName : string) (arr : list json) : M unit :=
  do! check BadTableName (ValidateIdentifier tableName);
  match arr with
  | [] => ret tt
  | JObj first :: _ =>
    let columns := columns_of first in
    do! check BadTableName (head (omap ValidateColumnName columns));
    let rows := objects arr in
    let params := mjoin ((λ m, param_of m <$> columns) <$> rows) in
    do! exec_or (create_sql tableName first columns) StatementFailed;
    insert_batches (length rows) tableName columns params (length rows)
  | _ => fail NotAnObject
  end.

(** The first array among the values of a map, in the order the map is visited. *)
Definition extractArray (m : list (string * json)) : option (list json) :=
  head (omap (λ k, match member k m with Some (JArr l) => Some l | _ => None end) (map_order (remove_dups m.*1))).
(** *** The parameters of a statement *)
Definition placeholders_in (p : piece) : Z := match p with Raw s => count_char "?" s | _ => 0 end.
Definition placeholders (q : list piece) : Z := foldr (λ p n, placeholders_in p + n) 0 q.

Lemma placeholders_app a b : placeholders (a ++ b) = placeholders a + placeholders b.
Proof. unfold placeholders. induction a as [|p a IH]; cbn [foldr app]; lia. Qed.
Lemma placeholders_join sep rs : count_char "?" sep = 0 → Forall (λ r, placeholders r = 0) rs →
  placeholders (Sql.join sep rs) = 0.
Proof.
  intros Hs. induction 1 as [|r rs Hr Hrs IH]; [done|]. destruct rs as [|r2 rs]; [done|].
  change (Sql.join sep (r :: r2 :: rs)) with (r ++ [Raw sep] ++ Sql.join sep (r2 :: rs)).
  rewrite !placeholders_app, Hr, IH. cbn [placeholders foldr placeholders_in]. lia.
Qed.
Lemma count_join c sep (l : list string) : count_char c sep = 0 →
  count_char c (str_join sep l) = foldr (λ s n, count_char c s + n) 0 l.
Proof.
  intros Hs. induction l as [|s l IH]; [done|]. destruct l as [|s2 l]; [cbn; lia|].
  rewrite str_join_cons by done. rewrite !count_char_app, IH, Hs. done.
Qed.
Lemma count_row columns : count_char "?" (row_text columns) = Z.of_nat (length columns).
Proof.
  unfold row_text. rewrite !count_char_app, count_join by done.
  change (count_char "?" "(") with 0. change (count_char "?" ")") with 0.
  enough (foldr (λ s n, count_char "?" s + n) 0 ((λ _ : string, "?") <$> columns) = Z.of_nat (length columns)) by lia.
  induction columns as [|c columns IH]; [done|]. rewrite fmap_cons. cbn [foldr length]. rewrite IH.
  change (count_char "?" "?") with 1. lia.
Qed.
Lemma insert_placeholders table columns rows :
  placeholders (insert_sql table columns rows) = Z.of_nat rows * Z.of_nat (length columns).
Proof.
  unfold insert_sql. rewrite !placeholders_app, placeholders_join; [|done|].
  2: { apply Forall_forall. by intros r (c & -> & _)%list_elem_of_fmap. }
  cbn [placeholders foldr placeholders_in]. rewrite count_char_app, count_join by done.
  change (count_char "?" "INSERT INTO ") with 0. change (count_char "?" " (") with 0. change (count_char "?" ") VALUES ") with 0.
  induction rows as [|rows IH]; [done|]. cbn [replicate foldr]. rewrite count_row. lia.
Qed.
Lemma create_placeholders table first columns : placeholders (create_sql table first columns) = 0.
Proof.
  unfold create_sql. rewrite !placeholders_app, placeholders_join; [done|done|].
  apply Forall_forall. intros r (c & -> & _)%list_elem_of_fmap. unfold colDef, typeName. by repeat case_match.
Qed.
Lemma params_length columns (rows : list (list (string * json))) :
  length (mjoin ((λ m, param_of m <$> columns) <$> rows)) = (length rows * length columns)%nat.
Proof.
  induction rows as [|m rows IH]; [done|]. 
  change (length ((param_of m <$> columns) ++ mjoin ((λ m, param_of m <$> columns) <$> rows)) = (S (length rows) * length columns)%nat).
  by rewrite length_app, length_fmap, IH.
Qed.

(** *** Loading an array *)
Section Loading.
(** The database executes the statements that come with a parameter for each
    placeholder. *)
Context (db_counts : ∀ l s, db_ok l s = bool_decide (Z.of_nat (length (args s)) = placeholders (sql s))).

Lemma batches_refused n table columns params left w :
  columns ≠ [] → (batchSize * length columns < length params)%nat →
  insert_batches n table columns params left w = (w, Ok tt).
Proof.
  intros Hc Hl. revert left. induction n as [|n IH]; intros left; cbn [insert_batches]; [done|].
  destruct (bool_decide (left = 0%nat)); [done|]. unfold bind, Exec. rewrite db_counts, bool_decide_eq_false_2; [apply IH|].
  cbn [args sql]. rewrite insert_placeholders. unfold batchSize in *. nia.
Qed.
Lemma one_batch n table columns params left w : (0 < left ≤ batchSize)%nat → (0 < n)%nat →
  length params = (left * length columns)%nat →
  insert_batches n table columns params left w =
  (with_executed (executed w ++ [{| sql := insert_sql table columns left; args := params |}]) w, Ok tt).
Proof.
  intros Hl Hn Hp. destruct n as [|n]; [lia|]. cbn [insert_batches]. rewrite bool_decide_eq_false_2 by lia.
  unfold bind, Exec. rewrite Nat.min_l by lia. rewrite db_counts, bool_decide_eq_true_2.
  2: { cbn [args sql]. rewrite insert_placeholders, Hp. lia. }
  replace (left - batchSize)%nat with 0%nat by lia. by destruct n.
Qed.

(** An array of objects is loaded by one statement that creates the table and one that
    inserts a row for every object, as long as it holds at most 500 objects; of a
    longer array nothing is inserted, because every batch is sent with the parameters
    of all rows, and the load still reports success. *)
Theorem insertJSONArray_loads (table : string) (first : list (string * json)) (rest : list json) (w : World) :
  ValidateIdentifier table = None → first ≠ [] → Forall (λ c, ValidateColumnName c = None) (columns_of first) →
  let rows := objects (JObj first :: rest) in
  let columns := columns_of first in
  insertJSONArray table (JObj first :: rest) w =
  (with_executed
     (executed w ++ {| sql := create_sql table first columns; args := [] |} ::
        if bool_decide (length rows ≤ batchSize)%nat then
          [{| sql := insert_sql table columns (length rows); args := mjoin ((λ m, param_of m <$> columns) <$> rows) |}]
        else []) w, Ok tt).
Proof.
  intros Hv Hf Hc rows columns. unfold insertJSONArray, bind, check, exec_or. rewrite Hv. cbn [ret].
  fold columns rows. assert (head (omap ValidateColumnName columns) = None) as ->.
  { fold columns in Hc. clearbody columns. clear -Hc. induction Hc as [|c l Hc _ IH]; cbn; [done|]. by rewrite Hc. }
  assert (columns ≠ []) as Hne.
  { unfold columns, columns_of. intros Hn. destruct first as [|[k v] first]; [done|].
    pose proof (sort_strings_perm (remove_dups ((k, v) :: first).*1)) as Hp. rewrite Hn in Hp.
    symmetry in Hp. apply Permutation_nil_r in Hp.
    assert (k ∈ remove_dups ((k, v) :: first).*1) as Hk by (apply elem_of_remove_dups; left).
    rewrite Hp in Hk. by apply elem_of_nil in Hk. }
  cbn [ret]. unfold bind, Exec at 1. rewrite db_counts, bool_decide_eq_true_2 by (cbn [sql args]; by rewrite create_placeholders).
  cbn [negb when ret]. case_bool_decide as Hl.
  - rewrite one_batch; [by cbn [executed with_executed]; rewrite <- app_assoc| | |apply params_length]; unfold rows in *; cbn in *; lia.
  - rewrite batches_refused; [done|done|]. rewrite params_length. destruct columns; [done|]. cbn [length]. nia.
Qed.
End Loading.
End Insert.
End Insert.

Module TaskRun.
Section Run.
Context `{Unicode} `{UnicodeFold} `{UrlLib} `{Floats} `{Sitemap.SitemapLib} `{MailLib} `{Env}.
Context (projectsRoot : string).

Definition parse_program (s : string) : option Program := tokenize s ≫= DslParser.ParseTokens.
Definition ontology_path (projectID : string) : string := join [join [projectsRoot; projectID]; "ontologies"; "core.aleph"].

(** ** Views of the ontology *)
Fixpoint create_views (projectID : string) (c : Compiler.Compiler) (stmts : list Statement) : M unit :=
  match stmts with
  | [] => ret tt
  | SObject obj :: stmts =>
    match Compiler.CompileObject parse_float c (ObjName obj) with
    | Err _ => create_views projectID c stmts
    | Ok sql =>
      let viewName := sanitize (projectID +:+ "_" +:+ ObjName obj) in
      match ValidateIdentifier viewName with
      | Some _ => create_views projectID c stmts
      | None => do! Exec ([Raw "CREATE OR REPLACE VIEW "; Ident viewName; Raw " AS "] ++ sql) []; create_views projectID c stmts
      end
    end
  | _ :: stmts => create_views projectID c stmts
  end.
(** Whether the ontology could be parsed, which only the log of the task tells. *)
Definition registerViews (projectID : string) : M bool :=
  let! content := read (ontology_path projectID) in
  match content with
  | None => ret true
  | Some content =>
    match parse_program content with
    | None => ret false
    | Some prog =>
      do! create_views projectID
            {| Compiler.Program_ := prog; Compiler.DataRoot := join [join [projectsRoot; projectID]; "raw"];
               Compiler.UseViews := false |} (Statements prog);
      ret true
    end
  end.

(** ** One run *)
Definition run_source (projectID : string) (task : IngestionTask) : M unit :=
  let t := SourceType task in
  if bool_decide (t ∈ ["rss"; "rest"]) then runPrecompiled projectsRoot projectID task
  else if bool_decide (t = "url") then runURLFetch projectsRoot projectID task
  else if bool_decide (t = "csv") then runCSVLoad projectsRoot projectID task
  else if bool_decide (t = "postgres") then runPostgresLoad projectID task
  else if bool_decide (t = "copy") then runCopy projectsRoot projectID task
  else if bool_decide (t = "email") then runEmailFetch projectsRoot projectID task
  else if bool_decide (t = "custom_code") then runDynamic projectID task
  else if bool_decide (t = "github") then runGitHubSource projectsRoot projectID task
  else if bool_decide (t = "sitemap") then runSitemapSource projectsRoot projectID task
  else if bool_decide (t = "jsonapi") then runJSONAPISource projectsRoot projectID task
  else if bool_decide (t = "sheets") then runSheetsSource projectsRoot projectID task
  else fail (UnknownSource t).

(** The section under the lock at the start of a run, and the deferred one. *)
Definition begin_run (id : string) : M unit := λ w,
  if bool_decide (tasks w !! id = Some "running") then (w, Err (AlreadyRunning id))
  else (with_tasks (<[id := "running"]> (tasks w)) w, Ok tt).
Definition end_run (id : string) (w : World) : World := with_tasks (delete id (tasks w)) w.

(** [filepath.Dir]. *)
Definition Dir (p : string) : string :=
  match GoNet.last_index "/" p with Some i => filepath_Clean (str_take (S i) p) | None => "." end.
(** [os.OpenFile] to append, the file created if there is none. *)
Definition open_log (p : string) : M unit := λ w,
  if os_ok "open" p && bool_decide (parent (loc p) ∈ dirs (fs w)) && negb (bool_decide (loc p ∈ dirs (fs w))) then
    (if bool_decide (is_Some (files (fs w) !! loc p)) then w
     else with_fs {| dirs := dirs (fs w); files := <[loc p := ""]> (files (fs w)) |} w, Ok tt)
  else (w, Err OpenLog).

(** An error of the source marks the task as failed. *)
Definition or_failed (id : string) (m : M unit) : M unit := λ w,
  match m w with
  | (w, Ok a) => (w, Ok a)
  | (w, Err e) => ((updateProgress id 0 "failed" w).1, Err e)
  end.

Definition resolved_table (task : IngestionTask) : M string :=
  let! tableName := lift BadTableName (resolveTableName checksum uuid_parse task) in
  do! check BadTableName (ValidateStrictIdentifier tableName);
  ret tableName.
(** What follows a source that succeeded. *)
Definition after_source (projectID : string) (task : IngestionTask) : M unit :=
  do! updateProgress (Id task) 100 "completed";
  do! registerViews projectID;
  or_failed (Id task)
    (let! tableName := resolved_table task in
     do! Exec (timestamp_column tableName) []; ret tt).

Definition body (projectID : string) (task : IngestionTask) : M unit :=
  do! updateProgress (Id task) 0 "running";
  let logPath := join [projectsRoot; projectID; "logs"; Id task +:+ ".log"] in
  do! mkdirAll (Dir logPath);
  do! open_log logPath;
  do! or_failed (Id task) (run_source projectID task);
  after_source projectID task.

Definition RunTask (projectID : string) (task : IngestionTask) : M unit := λ w,
  match begin_run (Id task) w with
  | (w, Err e) => (w, Err e)
  | (w, Ok _) => let '(w, r) := body projectID task w in (end_run (Id task) w, r)
  end.

(** ** Enrichment, which runs in the background after a run *)
Section Enrich.
(** The rows that a query answers, [None] for one that cannot be scanned; [%v]; the
    sentiment service, if there is one; [strings.EqualFold]; whether the deadline has
    passed before the [i]th row. *)
Context (query : list piece → option (list string * list (option (list any)))) (print_any : any → string).
Context (nlp : option (string → option f64)) (EqualFold : string → string → bool) (expired : nat → bool).

Definition SentimentUnavailable : f64 := f64_of_int (-1).
Definition primary_key (tableName : string) (prog : option Program) : string :=
  default "" (prog ≫= λ p, head (omap (λ s, match s with
    | SObject o => if bool_decide (FromSource o = tableName) then Some (ObjID o) else None
    | _ => None
    end) (Statements p))).
Definition looks_like_key (c : string) : bool :=
  let cl := ToLower c in bool_decide (cl ∈ ["id"; "uuid"; "guid"]) || str_contains cl "key".
Definition id_index (primaryKey : string) (cols : list string) : nat :=
  let p := if bool_decide (primaryKey = "") then looks_like_key else λ c, EqualFold c primaryKey in
  match list_find (λ c, p c = true) cols with Some (i, _) => i | None => 0%nat end.

Definition features_sql : list piece :=
  [Raw ("INSERT INTO system_features (project_id, task_id, entity_id, feature_type, feature_value) " +:+ String newline "" +:+
        "					VALUES (?, ?, ?, ?, ?)")].
Definition sentiment (text : string) : f64 :=
  match nlp with
  | Some analyze => default SentimentUnavailable (analyze text)
  | None => SentimentUnavailable
  end.
Definition feature (projectID tableName entityID : string) (cell : string * any) : option Stmt :=
  match cell.2 with
  | AnyStr text =>
    if bool_decide (10 < str_len text) then
      Some {| sql := features_sql;
              args := [AnyStr projectID; AnyStr tableName; AnyStr entityID; AnyStr ("sentiment_" +:+ cell.1); AnyNum (sentiment text)] |}
    else None
  | _ => None
  end.
Definition row_features (projectID tableName : string) (idIdx : nat) (cols : list string) (row : list any) : list Stmt :=
  omap (feature projectID tableName (print_any (default AnyNil (row !! idIdx)))) (zip cols row).

Fixpoint exec_all (ss : list Stmt) : M unit :=
  match ss with [] => ret tt | s :: ss => do! Exec (sql s) (args s); exec_all ss end.
Fixpoint enrich_rows (i : nat) (projectID tableName : string) (idIdx : nat) (cols : list string) (rows : list (option (list any))) : M unit :=
  match rows with
  | [] => ret tt
  | row :: rows =>
    if expired i then ret tt
    else
      do! exec_all (match row with Some row => row_features projectID tableName idIdx cols row | None => [] end);
      enrich_rows (S i) projectID tableName idIdx cols rows
  end.
Definition recent_rows (tableName : string) : list piece :=
  [Raw "SELECT * FROM "; Ident tableName; Raw " WHERE _aleph_ingested_at > (CURRENT_TIMESTAMP - INTERVAL "; Lit "1 MINUTE"; Raw ")"].
Definition enrichPredictiveMetadata (projectID tableName : string) : M unit :=
  let! content := read (ontology_path projectID) in
  let primaryKey := primary_key tableName (content ≫= parse_program) in
  match query (recent_rows tableName) with
  | None => ret tt
  | Some (cols, rows) => enrich_rows 0 projectID tableName (id_index primaryKey cols) cols rows
  end.
(** What [RunTask] leaves running in the background when it returns no error. *)
Definition enrich_in_background (projectID : string) (task : IngestionTask) : M unit :=
  match resolveTableName checksum uuid_parse task with
  | Err _ => ret tt
  | Ok resolvedTableName => enrichPredictiveMetadata projectID resolvedTableName
  end.

Section Enriched.
Context (db_accepts : ∀ l s, db_ok l s = true) (in_time : ∀ i, expired i = false).

Lemma exec_all_done ss w : exec_all ss w = (with_executed (executed w ++ ss) w, Ok tt).
Proof.
  revert w. induction ss as [|s ss IH]; intros w; cbn [exec_all].
  - rewrite app_nil_r. by destruct w.
  - unfold bind, Exec. rewrite db_accepts, IH. cbn [executed with_executed]. rewrite <- app_assoc. by destruct s.
Qed.
Lemma enrich_rows_done i projectID tableName idIdx cols rows w :
  enrich_rows i projectID tableName idIdx cols rows w =
  (with_executed (executed w ++ (omap id rows ≫= row_features projectID tableName idIdx cols)) w, Ok tt).
Proof.
  revert i w. induction rows as [|row rows IH]; intros i w; cbn [enrich_rows].
  - cbn. rewrite app_nil_r. by destruct w.
  - rewrite in_time. unfold bind. rewrite exec_all_done, IH. cbn [executed with_executed]. rewrite <- app_assoc.
    destruct row; done.
Qed.

(** With a database that takes them and time enough, the enrichment adds a sentiment
    feature for every text of more than ten bytes in the rows that can be read, named
    after its column and its row, and nothing else. *)
Theorem enrichment_complete (projectID tableName : string) (cols : list string) (rows : list (option (list any))) (w : World) :
  query (recent_rows tableName) = Some (cols, rows) →
  let ontology := if os_ok "read" (ontology_path projectID) then ReadFile (ontology_path projectID) (fs w) else None in
  let idIdx := id_index (primary_key tableName (ontology ≫= parse_program)) cols in
  executed (enrichPredictiveMetadata projectID tableName w).1 =
    executed w ++ (omap id rows ≫= λ row, omap (feature projectID tableName (print_any (default AnyNil (row !! idIdx)))) (zip cols row)).
Proof.
  intros Hq. unfold enrichPredictiveMetadata, bind, read. cbn. rewrite Hq, enrich_rows_done. reflexivity.
Qed.
End Enriched.
End Enrich.

(** ** Invariants of a run *)

Definition fixed_statements : list (list piece) := [[Raw "INSTALL postgres_scanner"]; [Raw "LOAD postgres_scanner"]; features_sql].
(** A statement is read back piece by piece, and the table or view it is about has
    a validated name. *)
Definition stmt_ok (s : Stmt) : Prop :=
  good plain (sql s) ∧
  (sql s ∈ fixed_statements ∨ ∃ verb name rest, sql s = Raw verb :: Ident name :: rest ∧ ValidateIdentifier name = None).

Class Closed (task : IngestionTask) (I : World → Prop) := {
  closed_fs : ∀ f w, I w → I (with_fs f w);
  closed_github : ∀ g w, I w → I (with_github g w);
  closed_sheets : ∀ s w, I w → I (with_sheets s w);
  closed_progress : ∀ p s w, I w → I (updateProgress (Id task) p s w).1;
  closed_exec : ∀ s w, stmt_ok s → I w → I (with_executed (executed w ++ [s]) w);
}.

(** The action keeps the invariant, and [Q] holds of its answer. *)
Definition spec (I : World → Prop) {A} (m : M A) (Q : A → Prop) : Prop := ∀ w, I w →
  I (m w).1 ∧ match (m w).2 with Ok a => Q a | Err _ => True end.
Abbreviation keeps I m := (spec I m (λ _, True)).

Section Rules.
Context (task : IngestionTask) (I : World → Prop) `{!Closed task I}.

Lemma spec_ret {A} (a : A) (Q : A → Prop) : Q a → spec I (ret a) Q.
Proof. by intros Hq w Hw. Qed.
Lemma spec_fail {A} e (Q : A → Prop) : spec I (fail e) Q.
Proof. by intros w Hw. Qed.
Lemma spec_bind {A B} (m : M A) (k : A → M B) (Q : A → Prop) (R : B → Prop) :
  spec I m Q → (∀ a, Q a → spec I (k a) R) → spec I (bind m k) R.
Proof.
  intros Hm Hk w Hw. unfold bind. destruct (Hm w Hw) as [Hi Hq].
  destruct (m w) as [w' [a|e]]; [by apply (Hk a Hq)|done].
Qed.
Lemma spec_when b e : spec I (when b e) (λ _, b = false).
Proof. destruct b; [apply spec_fail|by apply spec_ret]. Qed.
Lemma spec_need {A} (o : option A) e : spec I (need o e) (λ a, o = Some a).
Proof. destruct o; [by apply spec_ret|apply spec_fail]. Qed.
Lemma spec_lift {E A} (f : E → ingest_error) (r : result E A) : spec I (lift f r) (λ a, r = Ok a).
Proof. destruct r; [by apply spec_ret|apply spec_fail]. Qed.
Lemma spec_check {E} (f : E → ingest_error) o : spec I (check f o) (λ _, o = None).
Proof. destruct o; [apply spec_fail|by apply spec_ret]. Qed.
Lemma spec_progress p s : keeps I (updateProgress (Id task) p s).
Proof. intros w Hw. split; [by apply closed_progress|done]. Qed.
Lemma spec_Exec q ps : stmt_ok {| sql := q; args := ps |} → keeps I (Exec q ps).
Proof.
  intros Hs w Hw. unfold Exec. destruct (db_ok _ _); [|done]. split; [|done]. by apply closed_exec.
Qed.
Lemma spec_exec_or q e : stmt_ok {| sql := q; args := [] |} → keeps I (exec_or q e).
Proof.
  intros Hs. eapply spec_bind; [by apply spec_Exec|]. intros ok _. destruct ok; [by apply spec_ret|apply spec_fail].
Qed.
Lemma spec_mkdirAll p : keeps I (mkdirAll p).
Proof. intros w Hw. unfold mkdirAll. destruct (os_ok _ _); [|done]. split; [by apply closed_fs|done]. Qed.
Lemma spec_write p d : keeps I (write p d).
Proof.
  intros w Hw. unfold write. destruct (_ && _); [|done]. destruct (WriteFile _ _ _); [|done].
  split; [by apply closed_fs|done].
Qed.
Lemma spec_write_or p d e : keeps I (write_or p d e).
Proof.
  eapply spec_bind; [apply spec_write|]. intros [] _; [by apply spec_ret|apply spec_fail].
Qed.
Lemma spec_read p : keeps I (read p).
Proof. by intros w Hw. Qed.
Lemma spec_read_dir p : keeps I (read_dir p).
Proof. by intros w Hw. Qed.
Lemma spec_github : keeps I (getOrCreateGitHubIngester task).
Proof. intros w Hw. unfold getOrCreateGitHubIngester. case_match; [done|]. split; [by apply closed_github|done]. Qed.
Lemma spec_sheets : keeps I (getOrCreateSheetsIngester task).
Proof. intros w Hw. unfold getOrCreateSheetsIngester. case_match; [done|]. split; [by apply closed_sheets|done]. Qed.
Lemma spec_in_time {E A} (f : E → ingest_error) (r : option (result E A)) : keeps I (in_time f r).
Proof.
  eapply spec_bind; [apply spec_need|]. intros r' _ w Hw. unfold lift. by destruct r'.
Qed.

(** *** The statements of the sources *)
Lemma named_ok verb name rest ps : good plain (Raw verb :: Ident name :: rest) → ValidateIdentifier name = None →
  stmt_ok {| sql := Raw verb :: Ident name :: rest; args := ps |}.
Proof. intros Hg Hv. split; [done|]. right. eauto. Qed.
Lemma fixed_ok q ps : q ∈ fixed_statements → stmt_ok {| sql := q; args := ps |}.
Proof.
  intros Hq. split; [|by left]. cbn [sql]. unfold fixed_statements in Hq.
  repeat (apply elem_of_cons in Hq as [->|Hq]; [good_pieces|]). by apply elem_of_nil in Hq.
Qed.

Lemma view_ok table reader path ps : plain reader → ValidateIdentifier table = None →
  stmt_ok {| sql := view_from table reader path; args := ps |}.
Proof. intros Hr. apply named_ok. good_pieces. Qed.
Lemma table_ok table reader path options ps : plain reader → (options = "" ∨ plain options) →
  ValidateIdentifier table = None → stmt_ok {| sql := table_from table reader path options; args := ps |}.
Proof.
  intros Hr Ho. apply named_ok. destruct Ho as [->|Ho]; good_pieces.
Qed.
Lemma postgres_ok table dsn ps : ValidateIdentifier table = None → stmt_ok {| sql := postgres_view table dsn; args := ps |}.
Proof. apply named_ok. good_pieces. Qed.
Lemma timestamp_ok table ps : ValidateIdentifier table = None → stmt_ok {| sql := timestamp_column table; args := ps |}.
Proof. apply named_ok. good_pieces. Qed.
Lemma json_table_ok table path ps : ValidateIdentifier table = None → stmt_ok {| sql := json_table table path; args := ps |}.
Proof. apply table_ok; [plain_text|right; plain_text]. Qed.

(** *** The sources *)
Ltac statement := first
  [ by apply fixed_ok; first [left | right; left | right; right; left]
  | apply view_ok; [plain_text|assumption]
  | apply table_ok; [plain_text|first [by left|right; plain_text]|assumption]
  | apply postgres_ok; assumption | apply timestamp_ok; assumption | apply json_table_ok; assumption ].
(** One action: what is known of its answer goes into the context. *)
Ltac keep_one := lazymatch goal with
  | |- spec _ (check _ _) _ => apply spec_check
  | |- spec _ (when _ _) _ => apply spec_when
  | |- spec _ (need _ _) _ => apply spec_need
  | |- spec _ (lift _ _) _ => apply spec_lift
  | |- spec _ (updateProgress _ _ _) _ => by apply spec_progress
  | |- spec _ (mkdirAll _) _ => by apply spec_mkdirAll
  | |- spec _ (write _ _) _ => by apply spec_write
  | |- spec _ (write_or _ _ _) _ => by apply spec_write_or
  | |- spec _ (read _) _ => by apply spec_read
  | |- spec _ (read_dir _) _ => by apply spec_read_dir
  | |- spec _ (in_time _ _) _ => apply spec_in_time
  | |- spec _ (getOrCreateGitHubIngester _) _ => by apply spec_github
  | |- spec _ (getOrCreateSheetsIngester _) _ => by apply spec_sheets
  | |- spec _ (Exec _ _) _ => apply spec_Exec; try statement
  | |- spec _ (exec_or _ _) _ => apply spec_exec_or; try statement
  | |- spec _ (ret _) _ => by apply spec_ret
  | |- spec _ (fail _) _ => apply spec_fail
  end.
Ltac keep := repeat first
  [ keep_one
  | lazymatch goal with
    | |- spec _ (bind _ _) _ =>
      first [eapply spec_bind; [keep_one|intros ? ?; cbn beta in *]
            |apply (spec_bind _ _ (λ _, True)); [|intros ? ?; cbn beta in *]]
    | |- spec _ (match _ with _ => _ end) _ => case_match
    end ].

Lemma runPrecompiled_keeps projectID : keeps I (runPrecompiled projectsRoot projectID task).
Proof. unfold runPrecompiled, fetch; keep. Qed.
Lemma runURLFetch_keeps projectID : keeps I (runURLFetch projectsRoot projectID task).
Proof. unfold runURLFetch, fetch; keep. repeat case_match; simplify_eq; statement. Qed.
Lemma runCSVLoad_keeps projectID : keeps I (runCSVLoad projectsRoot projectID task).
Proof. unfold runCSVLoad; keep. destruct (has_suffix _ _); statement. Qed.
Lemma runPostgresLoad_keeps projectID : keeps I (runPostgresLoad projectID task).
Proof. unfold runPostgresLoad; keep. Qed.

Lemma copy_files_keeps src dst names : keeps I (copy_files src dst names).
Proof. induction names; cbn [copy_files]; keep; done. Qed.
Lemma copy_views_keeps dst names : keeps I (copy_views dst names).
Proof.
  induction names as [|n names IH]; cbn [copy_views]; keep; try done.
  unfold copy_reader in *. repeat case_match; simplify_eq; statement.
Qed.
Lemma runCopy_keeps projectID : keeps I (runCopy projectsRoot projectID task).
Proof. unfold runCopy; keep; [apply copy_files_keeps|apply copy_views_keeps]. Qed.
Lemma runDynamic_keeps projectID : keeps I (runDynamic projectID task).
Proof. unfold runDynamic; keep. intros w Hw. split; [by apply closed_fs|done]. Qed.
Lemma runEmailFetch_keeps projectID : keeps I (runEmailFetch projectsRoot projectID task).
Proof. unfold runEmailFetch; keep. Qed.
Lemma store_each_keeps valid path prefix kinds results skip : (∀ n, valid n = None → ValidateIdentifier n = None) →
  keeps I (store_each valid path prefix kinds results skip).
Proof.
  intros Hv. induction kinds as [|kind kinds IH]; cbn [store_each]; [keep|].
  cbv zeta. keep; try done. apply json_table_ok. by apply Hv.
Qed.
Lemma runGitHubSource_keeps projectID : keeps I (runGitHubSource projectsRoot projectID task).
Proof. unfold runGitHubSource; keep. by apply store_each_keeps. Qed.
Lemma runSitemapSource_keeps projectID : keeps I (runSitemapSource projectsRoot projectID task).
Proof. unfold runSitemapSource; keep. Qed.
Lemma runJSONAPISource_keeps projectID : keeps I (runJSONAPISource projectsRoot projectID task).
Proof. unfold runJSONAPISource; keep. Qed.
Lemma runSheetsSource_keeps projectID : keeps I (runSheetsSource projectsRoot projectID task).
Proof. unfold runSheetsSource; keep. by apply store_each_keeps. Qed.

Lemma run_source_keeps projectID : keeps I (run_source projectID task).
Proof.
  unfold run_source. cbv zeta. repeat case_match;
    first [apply runPrecompiled_keeps|apply runURLFetch_keeps|apply runCSVLoad_keeps|apply runPostgresLoad_keeps
          |apply runCopy_keeps|apply runEmailFetch_keeps|apply runDynamic_keeps|apply runGitHubSource_keeps
          |apply runSitemapSource_keeps|apply runJSONAPISource_keeps|apply runSheetsSource_keeps|apply spec_fail].
Qed.

(** *** The views, and the whole run *)
Lemma find_object_elem name stmts o : Compiler.find_object name stmts = Some o → SObject o ∈ stmts.
Proof.
  induction stmts as [|[x| | | |] stmts IH]; cbn [Compiler.find_object]; try done; try (by intros Ho; right; apply IH).
  destruct (bool_decide _); [intros [= ->]; left|right; auto].
Qed.
(** [strconv.ParseFloat] accepts no text that is empty or holds a quote. *)
Context (float_plain : ∀ s, parse_float s = true → s ≠ "" ∧ no_quotes s = true).

Lemma create_views_keeps projectID c stmts : Forall DslParser.known_aggregates (Statements (Compiler.Program_ c)) →
  keeps I (create_views projectID c stmts).
Proof.
  intros Hk. induction stmts as [|[obj| | | |] stmts IH]; cbn [create_views]; keep; try done.
  apply named_ok; [|done].
  match goal with Hc : Compiler.CompileObject _ _ _ = Ok ?x |- _ => rename x into r end.
  assert (good plain r) as Hr.
  { eapply good_weaken; [apply Compiler.template_plain, float_plain|].
    eapply Compiler.CompileObject_ok; [|eassumption]. intros o Ho%find_object_elem.
    apply (proj1 (Forall_forall _ _) Hk) in Ho. exact Ho. }
  apply (good_raw_cons plain "CREATE OR REPLACE VIEW "); [plain_text|].
  destruct (good_raw_cons plain " AS " r) as [Ha Hs]; [plain_text|done|].
  apply (good_app plain [Ident _]); [good_pieces|done|done].
Qed.
Lemma registerViews_keeps projectID : keeps I (registerViews projectID).
Proof.
  unfold registerViews. keep. apply create_views_keeps. cbn [Compiler.Program_].
  match goal with Hp : parse_program _ = Some _ |- _ => apply bind_Some in Hp as (ts & _ & Hparsed) end.
  by apply DslParser.ParseTokens_aggregates in Hparsed.
Qed.
Lemma or_failed_keeps m : keeps I m → keeps I (or_failed (Id task) m).
Proof.
  intros Hm w Hw. unfold or_failed. destruct (Hm w Hw) as [Hi _]. destruct (m w) as [w' [a|e]]; [done|].
  split; [|done]. by apply closed_progress.
Qed.
Lemma open_log_keeps p : keeps I (open_log p).
Proof.
  intros w Hw. unfold open_log. destruct (_ && _ && _); [|done]. split; [|done]. case_match; [done|by apply closed_fs].
Qed.
Lemma resolved_table_valid : spec I (resolved_table task) (λ t, ValidateIdentifier t = None).
Proof. unfold resolved_table. keep. Qed.
Lemma after_source_keeps projectID : keeps I (after_source projectID task).
Proof.
  unfold after_source. keep; [apply registerViews_keeps|]. apply or_failed_keeps.
  eapply spec_bind; [apply resolved_table_valid|]. intros t Ht. keep.
Qed.
Lemma body_keeps projectID : keeps I (body projectID task).
Proof.
  unfold body. keep; [apply open_log_keeps|apply or_failed_keeps, run_source_keeps|apply after_source_keeps].
Qed.
End Rules.

(** ** Theorems *)
Section Theorems.
Context (float_plain : ∀ s, parse_float s = true → s ≠ "" ∧ no_quotes s = true).

Definition row_of (id : string) (w : World) : option Repository.Repository.IngestionTaskRecord :=
  meta w ≫= λ t, Repository.Repository.system_tasks t !! id.
Definition progress_of (id : string) (w : World) : option (Z * string) :=
  (λ r, (Repository.Repository.TaProgress r, Repository.Repository.TaStatus r)) <$> row_of id w.
Definition executed_since (w0 : World) (new : list Stmt) (w : World) : Prop := executed w = executed w0 ++ new.

Lemma updateProgress_row id p s w id' : row_of id' (updateProgress id p s w).1 =
  if bool_decide (id' = id) && progress_ok id p s then
    (λ r, {| Repository.Repository.TaID := Repository.Repository.TaID r;
             Repository.Repository.TaProjectID := Repository.Repository.TaProjectID r;
             Repository.Repository.TaName := Repository.Repository.TaName r;
             Repository.Repository.TaSourceType := Repository.Repository.TaSourceType r;
             Repository.Repository.TaConfigJSON := Repository.Repository.TaConfigJSON r;
             Repository.Repository.TaSchedule := Repository.Repository.TaSchedule r;
             Repository.Repository.TaStatus := s; Repository.Repository.TaProgress := p |}) <$> row_of id' w
  else row_of id' w.
Proof.
  unfold row_of, updateProgress. cbn [fst with_meta meta]. destruct (meta w) as [t|]; cbn; [|by destruct (_ && _)].
  unfold Repository.Repository.UpdateTaskProgress, Repository.Repository.exec, Repository.Repository.sql_update.
  destruct (progress_ok id p s); [|by rewrite andb_false_r].
  destruct (Repository.Repository.system_tasks t !! id) as [r|] eqn:E; cbn; rewrite andb_true_r; case_bools; subst.
  all: cbn; rewrite ?E, ?lookup_insert_eq, ?lookup_insert_ne by done; try done.
Qed.

(** What the row says if the database stored the update; errors of updates are ignored. *)
Definition shows (id : string) (p : Z) (s : string) (w : World) : Prop := progress_ok id p s = true → progress_of id w = Some (p, s).
Lemma updateProgress_done id p s w : is_Some (row_of id w) → shows id p s (updateProgress id p s w).1.
Proof.
  intros [r Hr] Hp. unfold progress_of. rewrite updateProgress_row, Hp, Hr, bool_decide_eq_true_2 by done. done.
Qed.

(** Three invariants of a run: what it executes, that its row stays, and that the
    rows of the other tasks and the running tasks are not touched. *)
#[local] Instance closed_statements task w0 : Closed task (λ w, ∃ new, executed w = executed w0 ++ new ∧ Forall stmt_ok new).
Proof.
  split; try done. intros s w Hs (new & Hn & Hall). exists (new ++ [s]). cbn [executed with_executed].
  rewrite Hn, app_assoc. split; [done|]. apply Forall_app. split; [done|]. by apply Forall_singleton.
Qed.
#[local] Instance closed_row task : Closed task (λ w, is_Some (row_of (Id task) w)).
Proof.
  split; try done. intros p s w [r Hr]. rewrite updateProgress_row, Hr. case_match; eauto.
Qed.
#[local] Instance closed_others task w0 : Closed task (λ w, tasks w = tasks w0 ∧ ∀ id, id ≠ Id task → row_of id w = row_of id w0).
Proof.
  split; try done. intros p s w [Ht Hr]. split; [done|]. intros id Hid. rewrite updateProgress_row.
  rewrite bool_decide_eq_false_2 by done. by apply Hr.
Qed.

Lemma begin_run_free id w : tasks w !! id ≠ Some "running" →
  begin_run id w = (with_tasks (<[id := "running"]> (tasks w)) w, Ok tt).
Proof. intros Hn. unfold begin_run. by rewrite bool_decide_eq_false_2. Qed.

(** C8: every statement a run sends to the database is read by SQL's lexer exactly as it was
    put together, whatever bytes the configuration, the fetched data and the ontology
    of the project hold; and the table or view it creates or alters has a name that
    passed validation. *)
Theorem RunTask_statements (projectID : string) (task : IngestionTask) (w : World) :
  ∃ new, executed (RunTask projectID task w).1 = executed w ++ new ∧
    Forall (λ s, lex (render (sql s)) = Some (tokens (sql s)) ∧
                 (sql s ∈ fixed_statements ∨
                  ∃ verb name rest, sql s = Raw verb :: Ident name :: rest ∧ ValidateIdentifier name = None)) new.
Proof.
  assert (∃ new, executed (RunTask projectID task w).1 = executed w ++ new ∧ Forall stmt_ok new) as (new & Hn & Hall).
  { unfold RunTask, begin_run. destruct (bool_decide _); [exists []; by rewrite app_nil_r|].
    set (w1 := with_tasks _ w).
    destruct (body_keeps task _ float_plain projectID w1 (ex_intro _ [] (conj (eq_sym (app_nil_r (executed w1))) (Forall_nil_2 _)))) as [Hb _].
    destruct (body projectID task w1) as [w' r]. exact Hb. }
  exists new. split; [done|]. eapply Forall_impl; [exact Hall|]. intros s [Hg Hs]. split; [|done].
  by apply (lex_good plain).
Qed.

(** *** The status of a task *)
Section Status.
Context (task : IngestionTask).

Lemma or_failed_status (m : M unit) w : (keeps (λ w, is_Some (row_of (Id task) w)) m) → is_Some (row_of (Id task) w) →
  match or_failed (Id task) m w with
  | (w', Ok _) => m w = (w', Ok tt) ∧ is_Some (row_of (Id task) w')
  | (w', Err _) => shows (Id task) 0 "failed" w'
  end.
Proof.
  intros Hm Hw. destruct (Hm w Hw) as [Hr _]. unfold or_failed. destruct (m w) as [w' [[]|e]]; [done|].
  by apply updateProgress_done.
Qed.

Definition keeps_meta {A} (m : M A) : Prop := ∀ w, meta (m w).1 = meta w.
Lemma keeps_meta_bind {A B} (m : M A) (k : A → M B) : keeps_meta m → (∀ a, keeps_meta (k a)) → keeps_meta (bind m k).
Proof. intros Hm Hk w. unfold bind. specialize (Hm w). destruct (m w) as [w' [a|e]]; [by rewrite Hk|done]. Qed.
Lemma keeps_meta_Exec q ps : keeps_meta (Exec q ps).
Proof. intros w. unfold Exec. by destruct (db_ok _ _). Qed.
Lemma create_views_meta projectID c stmts : keeps_meta (create_views projectID c stmts).
Proof.
  induction stmts as [|[obj| | | |] stmts IH]; cbn [create_views]; try done.
  repeat case_match; try done. apply keeps_meta_bind; [apply keeps_meta_Exec|done].
Qed.
Lemma registerViews_meta projectID : keeps_meta (registerViews projectID).
Proof.
  apply keeps_meta_bind; [done|]. intros [content|]; [|done]. case_match; [|done].
  apply keeps_meta_bind; [apply create_views_meta|done].
Qed.
Lemma mkdirAll_meta p : keeps_meta (mkdirAll p).
Proof. intros w. unfold mkdirAll. by destruct (os_ok _ _). Qed.
Lemma progress_meta id w w' : meta w = meta w' → progress_of id w = progress_of id w'.
Proof. unfold progress_of, row_of. by intros ->. Qed.
Lemma shows_meta id p s w w' : meta w = meta w' → shows id p s w → shows id p s w'.
Proof. unfold shows. intros E. by rewrite (progress_meta id w w' E). Qed.
Lemma row_meta id w w' : meta w = meta w' → row_of id w = row_of id w'.
Proof. unfold row_of. by intros ->. Qed.
Lemma updateProgress_some p s w : is_Some (row_of (Id task) w) → is_Some (row_of (Id task) (updateProgress (Id task) p s w).1).
Proof. intros [r Hr]. rewrite updateProgress_row, Hr. case_match; eauto. Qed.

Lemma registerViews_ok projectID w : ∃ b, (registerViews projectID w).2 = Ok b.
Proof.
  unfold registerViews, bind, read. cbn. destruct (if os_ok _ _ then _ else _) as [content|]; [|by eexists].
  destruct (parse_program content) as [prog|]; [|by eexists].
  assert (∀ c stmts w, (create_views projectID c stmts w).2 = Ok tt) as Hc.
  { intros c stmts. induction stmts as [|[obj| | | |] stmts IH]; intros w1; cbn [create_views]; try done.
    repeat case_match; try apply IH. unfold bind, Exec. destruct (db_ok _ _); apply IH. }
  specialize (Hc {| Compiler.Program_ := prog; Compiler.DataRoot := join [join [projectsRoot; projectID]; "raw"];
                    Compiler.UseViews := false |} (Statements prog) w).
  unfold bind. destruct (create_views _ _ _ _) as [w' [[]|e]]; [by eexists|done].
Qed.

Lemma after_source_status projectID w : is_Some (row_of (Id task) w) →
  match after_source projectID task w with
  | (w', Ok _) => shows (Id task) 100 "completed" w'
  | (w', Err _) => shows (Id task) 0 "failed" w'
  end.
Proof.
  intros Hw. unfold after_source at 1. unfold bind at 1.
  pose proof (updateProgress_done (Id task) 100 "completed" w Hw) as Hp. pose proof (updateProgress_some 100 "completed" w Hw) as Hw1.
  destruct (updateProgress (Id task) 100 "completed" w) as [w1 r1] eqn:E1. cbn [fst] in Hp, Hw1.
  assert (r1 = Ok tt) as -> by (by injection E1). clear E1.
  unfold bind at 1. destruct (registerViews_ok projectID w1) as [b Hb].
  pose proof (registerViews_meta projectID w1) as Hm.
  destruct (registerViews projectID w1) as [w2 r2]. cbn in Hb, Hm. subst r2.
  apply (shows_meta _ _ _ w1 w2 (eq_sym Hm)) in Hp.
  set (m := bind (resolved_table task) _).
  assert (is_Some (row_of (Id task) w2)) as Hw2 by by rewrite (row_meta _ w2 w1 Hm).
  assert (keeps (λ w, is_Some (row_of (Id task) w)) m) as Hk.
  { eapply spec_bind; [apply (resolved_table_valid task)|]. intros t Ht. eapply spec_bind; [|intros ? ?; by apply spec_ret].
    apply (spec_Exec task); [apply _|]. by apply timestamp_ok. }
  pose proof (or_failed_status m w2 Hk Hw2) as Ho. destruct (or_failed (Id task) m w2) as [w3 [[]|e]]; [|done].
  destruct Ho as [Hm3 _]. apply (shows_meta _ _ _ w2 w3); [|exact Hp].
  assert (keeps_meta m) as Hmm.
  { apply keeps_meta_bind; [|intros ?; apply keeps_meta_bind; [apply keeps_meta_Exec|done]].
    apply keeps_meta_bind; [by intros ?; unfold lift; case_match|]. intros ?.
    apply keeps_meta_bind; [by intros ?; unfold check; case_match|done]. }
  specialize (Hmm w2). symmetry. by rewrite Hm3 in Hmm.
Qed.

Lemma body_status projectID w : is_Some (row_of (Id task) w) →
  match body projectID task w with
  | (w', Ok _) => shows (Id task) 100 "completed" w'
  | (w', Err e) => shows (Id task) 0 "failed" w' ∨ (e = OpenLog ∧ shows (Id task) 0 "running" w')
  end.
Proof.
  intros Hw. unfold body, bind. pose proof (updateProgress_done (Id task) 0 "running" w Hw) as Hp.
  pose proof (updateProgress_some 0 "running" w Hw) as Hw1.
  change (updateProgress (Id task) 0 "running" w) with ((updateProgress (Id task) 0 "running" w).1, @Ok ingest_error unit tt).
  cbn iota beta. set (logPath := join [projectsRoot; projectID; "logs"; Id task +:+ ".log"]).
  set (w1 := (updateProgress (Id task) 0 "running" w).1) in *.
  pose proof (mkdirAll_meta (Dir logPath) w1) as Hm.
  change (mkdirAll (Dir logPath) w1) with ((mkdirAll (Dir logPath) w1).1, @Ok ingest_error unit tt) in *.
  set (w2 := (mkdirAll (Dir logPath) w1).1) in *. cbn iota beta. cbn [fst] in Hm.
  assert (meta (open_log logPath w2).1 = meta w1 ∧ ((open_log logPath w2).2 = Ok tt ∨ (open_log logPath w2).2 = Err OpenLog)) as [Hm3 Ho].
  { unfold open_log. destruct (_ && _ && _); cbn [fst snd]; (split; [|by auto]); [case_match|]; exact Hm. }
  destruct (open_log logPath w2) as [w3 r3]. cbn [fst snd] in *.
  apply (shows_meta _ _ _ _ _ (eq_sym Hm3)) in Hp. destruct Ho as [->| ->]; [|by right].
  assert (is_Some (row_of (Id task) w3)) as Hw3 by by rewrite (row_meta _ w3 w1 Hm3).
  pose proof (or_failed_status (run_source projectID task) w3 (run_source_keeps task _ projectID) Hw3) as Hs.
  destruct (or_failed (Id task) _ w3) as [w4 [[]|e]]; [|by left]. destruct Hs as [_ Hw4].
  pose proof (after_source_status projectID w4 Hw4) as Ha.
  destruct (after_source projectID task w4) as [w5 [[]|e]]; [done|by left].
Qed.
End Status.

(** C10: a run reports what became of the task: a task that is already running is refused and
    nothing changes; otherwise the task is no longer listed as running afterwards and the
    rows of the other tasks stay as they were.  If the task has a row, it says "completed" at
    100 after a run that succeeded and "failed" at 0 after one that did not ("running" at 0
    if the log file could not be opened), each provided that the database stored that
    update: a failure to store one is ignored. *)
Theorem RunTask_status (projectID : string) (task : IngestionTask) (w : World) :
  if bool_decide (tasks w !! Id task = Some "running") then RunTask projectID task w = (w, Err (AlreadyRunning (Id task)))
  else
    tasks (RunTask projectID task w).1 = delete (Id task) (tasks w) ∧
    (∀ id, id ≠ Id task → row_of id (RunTask projectID task w).1 = row_of id w) ∧
    (is_Some (row_of (Id task) w) →
      match RunTask projectID task w with
      | (w', Ok _) => shows (Id task) 100 "completed" w'
      | (w', Err e) => shows (Id task) 0 "failed" w' ∨ (e = OpenLog ∧ shows (Id task) 0 "running" w')
      end).
Proof.
  unfold RunTask, begin_run. destruct (bool_decide _) eqn:Hr; [done|].
  set (w1 := with_tasks _ w). pose proof (body_status task projectID w1) as Hb.
  destruct (body_keeps task _ float_plain projectID w1 (conj eq_refl (λ id _, eq_refl))) as [[Ht Ho] _].
  destruct (body projectID task w1) as [w' r]. cbn [fst] in *. split_and!; [|done|].
  - cbn [tasks end_run with_tasks]. rewrite Ht. cbn [tasks w1 with_tasks]. apply delete_insert_eq.
  - intros Hw. specialize (Hb Hw). by destruct r.
Qed.

(** *** Sources that cannot succeed *)
Lemma RunTask_fails projectID task : (∀ w, ∃ e, (run_source projectID task w).2 = Err e) →
  ∀ w, ∃ e, (RunTask projectID task w).2 = Err e.
Proof.
  intros Hs w. unfold RunTask, begin_run. destruct (bool_decide _); [by eexists|]. set (w1 := with_tasks _ w).
  enough (∃ e, (body projectID task w1).2 = Err e) as [e He].
  { destruct (body projectID task w1) as [w' r]. cbn in *. eauto. }
  unfold body, bind. destruct (updateProgress _ _ _ w1) as [w2 [?|?]]; [|by eexists].
  destruct (mkdirAll _ w2) as [w3 [?|?]]; [|by eexists]. destruct (open_log _ w3) as [w4 [?|?]]; [|by eexists].
  destruct (Hs w4) as [e He]. unfold or_failed. destruct (run_source projectID task w4) as [w5 [?|?]]; [done|by eexists].
Qed.

(** Actions that never give an answer. *)
Definition barren {A} (m : M A) : Prop := ∀ w, ∃ e, (m w).2 = Err e.
Lemma barren_fail {A} e : barren (@fail A e).
Proof. intros w. by eexists. Qed.
Lemma barren_first {A B} (m : M A) (k : A → M B) : barren m → barren (bind m k).
Proof. intros Hm w. unfold bind. destruct (Hm w) as [e He]. destruct (m w) as [w' r]. cbn in He. subst. by eexists. Qed.
Lemma barren_then {A B} (m : M A) (k : A → M B) : (∀ a, barren (k a)) → barren (bind m k).
Proof. intros Hk w. unfold bind. destruct (m w) as [w' [a|e]]; [apply Hk|by eexists]. Qed.
Lemma barren_check {E} (f : E → ingest_error) o : o ≠ None → barren (check f o).
Proof. destruct o; [|done]. intros _ w. by eexists. Qed.

Ltac barren_run := repeat first
  [ apply barren_fail
  | apply barren_first, barren_check; assumption
  | apply barren_then; intros ?
  | lazymatch goal with |- barren (match _ with _ => _ end) => case_match end ].

(** A task of the type "custom_code" never succeeds: whatever the code does, the run ends
    with an error. *)
Theorem custom_code_never_succeeds (projectID : string) (task : IngestionTask) (w : World) :
  SourceType task = "custom_code" → ∃ e, (RunTask projectID task w).2 = Err e.
Proof.
  intros Ht. apply RunTask_fails. clear w. change (barren (run_source projectID task)).
  unfold run_source. rewrite Ht. cbn. unfold runDynamic. barren_run.
Qed.

(** A task whose identifier is not a valid table name cannot be run when its source
    names the table after it. *)
Lemma invalid_id_fails (projectID : string) (task : IngestionTask) (w : World) :
  SourceType task ∈ ["rss"; "rest"; "url"; "postgres"; "email"; "jsonapi"] → ValidateIdentifier (Id task) ≠ None →
  ∃ e, (RunTask projectID task w).2 = Err e.
Proof.
  intros Ht Hv. apply RunTask_fails. clear w. change (barren (run_source projectID task)). unfold run_source.
  repeat (apply elem_of_cons in Ht as [->|Ht]); [..|by apply elem_of_nil in Ht]; cbn;
    unfold runPrecompiled, runURLFetch, runPostgresLoad, runEmailFetch, runJSONAPISource; barren_run.
Qed.

(** *** Imports *)
Lemma import_blocked_iff path : import_blocked path = true ↔ ∃ b, b ∈ blockedImports ∧ String.prefix b path = true.
Proof.
  unfold import_blocked. rewrite orb_true_iff, bool_decide_eq_true, existsb_exists. split.
  - intros [Hp|(b & Hb & [Hpre _]%andb_true_iff)].
    + exists path. split; [done|]. apply prefix_iff. exists "". by rewrite str_app_nil_r.
    + exists b. split; [by apply list_elem_of_In|done].
  - intros (b & Hb & Hpre). destruct (decide (path = b)) as [->|Hn]; [by left|]. right. exists b.
    split; [by apply list_elem_of_In|]. by rewrite Hpre, bool_decide_eq_false_2.
Qed.

(** Dynamic code is accepted exactly when Go's parser reads its imports and no import
    starts with the path of a blocked package. *)
Theorem validateCode_spec (code : string) :
  validateCode code = None ↔
  ∃ imports, go_imports code = Some imports ∧
    ∀ i b, i ∈ imports → b ∈ blockedImports → String.prefix b (import_path i) = false.
Proof.
  unfold validateCode. destruct (go_imports code) as [imports|]; [|by split; [|intros (? & [=] & _)]].
  rewrite fmap_None, list_find_None, Forall_fmap, Forall_forall. split.
  - intros Hall. exists imports. split; [done|]. intros i b Hi Hb. apply not_true_iff_false. intros Hpre.
    apply (Hall i Hi). apply import_blocked_iff. eauto.
  - intros (? & [= <-] & Hall) i Hi (b & Hb & Hpre)%import_blocked_iff. by rewrite (Hall i b Hi Hb) in Hpre.
Qed.

(** *** Ingesters that are kept *)

(** Once a GitHub task has run, the token of a later task is never used: with the same
    identifier, owner and repository, the run is the same whatever its token. *)
Theorem github_token_ignored (projectID owner repo token token' : string) (task task' : IngestionTask)
    (g : GitHub.GitHubIngester) (w : World) :
  githubIngester w = Some g → Id task = Id task' →
  fields (ConfigJson task) ["owner"; "repo"; "token"] = Some [owner; repo; token] →
  fields (ConfigJson task') ["owner"; "repo"; "token"] = Some [owner; repo; token'] →
  runGitHubSource projectsRoot projectID task w = runGitHubSource projectsRoot projectID task' w.
Proof.
  intros Hg Hid Hc Hc'. unfold runGitHubSource. rewrite Hc, Hc', Hid. unfold bind, need, when, ret, fail.
  destruct (_ || _); [done|]. unfold getOrCreateGitHubIngester.
  change (githubIngester (updateProgress (Id task') 10 "running" w).1) with (githubIngester w).
  cbn [updateProgress with_meta githubIngester]. by rewrite Hg.
Qed.

(** *** Runs of one task exclude each other *)

(** Runs that were asked for, those under way and those that are over. *)
Inductive run := Waiting (id : string) | Active (id : string) | Over.
Record Runs := { world : World; runs : list run }.
Inductive run_step : Runs → Runs → Prop :=
| run_enter s i id w : runs s !! i = Some (Waiting id) → begin_run id (world s) = (w, Ok tt) →
    run_step s {| world := w; runs := <[i := Active id]> (runs s) |}
| run_refused s i id w e : runs s !! i = Some (Waiting id) → begin_run id (world s) = (w, Err e) →
    run_step s {| world := w; runs := <[i := Over]> (runs s) |}
(** What a run does between its two locked sections leaves the running tasks alone. *)
| run_works s i id w : runs s !! i = Some (Active id) → tasks w = tasks (world s) →
    run_step s {| world := w; runs := runs s |}
| run_leaves s i id : runs s !! i = Some (Active id) →
    run_step s {| world := end_run id (world s); runs := <[i := Over]> (runs s) |}.

(** A task is listed as running exactly when one run of it is under way. *)
Definition exclusive (s : Runs) : Prop :=
  (∀ i j id, runs s !! i = Some (Active id) → runs s !! j = Some (Active id) → i = j) ∧
  (∀ id, tasks (world s) !! id = Some "running" ↔ ∃ i, runs s !! i = Some (Active id)).

Lemma active_insert (l : list run) i j r id : (<[i := r]> l) !! j = Some (Active id) →
  (i = j ∧ r = Active id) ∨ (i ≠ j ∧ l !! j = Some (Active id)).
Proof. intros [(-> & -> & _)|[? ?]]%list_lookup_insert_Some; auto. Qed.

Lemma run_step_exclusive s s' : run_step s s' → exclusive s → exclusive s'.
Proof.
  intros Hs [Hone Hrun].
  destruct Hs as [s i id w Hi Hb|s i id w e Hi Hb|s i id w Hi Ht|s i id Hi]; unfold exclusive; cbn [world runs].
  - unfold begin_run in Hb. destruct (bool_decide _) eqn:Ef; [done|]. injection Hb as <-. decide_bools.
    cbn [tasks with_tasks]. assert (∀ j, runs s !! j ≠ Some (Active id)) as Hno by (intros j Hj; apply Ef, Hrun; eauto).
    split.
    + intros j k x [[-> [= ->]]|[Hj1 Hj2]]%active_insert [[-> E]|[Hk1 Hk2]]%active_insert; try done.
      * by apply Hno in Hk2.
      * injection E as ->. by apply Hno in Hj2.
      * by eapply Hone.
    + intros x. destruct (decide (x = id)) as [->|Hx].
      * rewrite lookup_insert_eq. split; [|done]. intros _. exists i. apply list_lookup_insert_eq. by eapply lookup_lt_Some.
      * rewrite lookup_insert_ne, Hrun by done. split.
        -- intros [j Hj]. exists j. rewrite list_lookup_insert_ne; [done|]. intros ->. congruence.
        -- intros [j [[-> E]|[_ Hj]]%active_insert]; [by injection E as ->|eauto].
  - unfold begin_run in Hb. destruct (bool_decide _) eqn:Ef; [|done]. injection Hb as <- <-. split.
    + intros j k x [[_ [=]]|[_ Hj]]%active_insert [[_ [=]]|[_ Hk]]%active_insert. by eapply Hone.
    + intros x. rewrite Hrun. split.
      * intros [j Hj]. exists j. rewrite list_lookup_insert_ne; [done|]. intros ->. congruence.
      * intros [j [[_ [=]]|[_ Hj]]%active_insert]. eauto.
  - by rewrite Ht.
  - cbn [tasks end_run with_tasks]. split.
    + intros j k x [[_ [=]]|[_ Hj]]%active_insert [[_ [=]]|[_ Hk]]%active_insert. by eapply Hone.
    + intros x. destruct (decide (x = id)) as [->|Hx].
      * rewrite lookup_delete_eq. split; [done|]. intros [j [[_ [=]]|[Hn Hj]]%active_insert]. destruct Hn. by eapply Hone.
      * rewrite lookup_delete_ne, Hrun by done. split.
        -- intros [j Hj]. exists j. rewrite list_lookup_insert_ne; [done|]. intros ->. congruence.
        -- intros [j [[_ [=]]|[_ Hj]]%active_insert]. eauto.
Qed.

(** C12: however runs of tasks start, work and end side by side, two runs of one task are
    never under way at the same time, and a task can be started again exactly when no
    run of it is under way. *)
Theorem runs_exclusive (ids : list string) (w : World) (s : Runs) :
  tasks w = ∅ → star run_step {| world := w; runs := Waiting <$> ids |} s →
  (∀ i j id, runs s !! i = Some (Active id) → runs s !! j = Some (Active id) → i = j) ∧
  (∀ id, (∃ w', begin_run id (world s) = (w', Ok tt)) ↔ ∀ i, runs s !! i ≠ Some (Active id)).
Proof.
  intros Ht Hs. assert (exclusive s) as [Hone Hrun].
  { eapply star_invariant; [apply run_step_exclusive|exact Hs|]. unfold exclusive. cbn [world runs]. split.
    - intros i j id Hi. by apply list_lookup_fmap_Some in Hi as (? & [=] & _).
    - intros id. rewrite Ht, lookup_empty. split; [done|]. intros [i Hi]. by apply list_lookup_fmap_Some in Hi as (? & [=] & _). }
  split; [done|]. intros id. unfold begin_run. destruct (bool_decide _) eqn:E; decide_bools.
  - split; [by intros [? [=]]|]. intros Hno. apply Hrun in E as [i Hi]. by apply Hno in Hi.
  - split; [|by eauto]. intros _ i Hi. apply E, Hrun. eauto.
Qed.
End Theorems.
End Run.
End TaskRun.

(** The ingestion service. *)
Module IngestionHandler.
Import Repository.Repository.

Record Task := {
  WId : string; WName : string; WSourceType : string; WConfigJson : string; WSchedule : string; WStatus : string; WProgress : Z;
}.
Inductive handler_error := NotFound (e : repo_error) | Internal (e : repo_error) | InvalidArgument | Panics.

Definition GetProgress (ok : bool) (taskID : string) (t : Tables) : result handler_error Z :=
  match GetTaskProgress ok taskID t with Ok p => Ok p | Err e => Err (NotFound e) end.

Definition wire_task (r : IngestionTaskRecord) : Task :=
  {| WId := TaID r; WName := TaName r; WSourceType := TaSourceType r; WConfigJson := TaConfigJSON r;
     WSchedule := TaSchedule r; WStatus := TaStatus r; WProgress := TaProgress r |}.
Definition ListTasks (ok : bool) (projectID : string) (t : Tables) : result handler_error (list Task) :=
  match Repository.Repository.ListTasks ok projectID t with
  | Ok l => Ok (wire_task <$> l)
  | Err e => Err (Internal e)
  end.

(** [random]: the 16 bytes drawn for a task that comes without an identifier. *)
Definition with_id (random : string) (task : Task) : Task :=
  {| WId := if bool_decide (WId task = "") then Hex.EncodeToString random else WId task; WName := WName task;
     WSourceType := WSourceType task; WConfigJson := WConfigJson task; WSchedule := WSchedule task;
     WStatus := WStatus task; WProgress := WProgress task |}.
(** A request without a task is dereferenced all the same. *)
Definition CreateTask (random : string) (ok : bool) (projectID : string) (task : option Task) (t : Tables) :
    Tables * result handler_error Task :=
  match task with
  | None => (t, Err Panics)
  | Some task =>
    let task := with_id random task in
    match Repository.Repository.CreateTask ok
            {| TaID := WId task; TaProjectID := projectID; TaName := WName task; TaSourceType := WSourceType task;
               TaConfigJSON := WConfigJson task; TaSchedule := WSchedule task; TaStatus := "idle"; TaProgress := 0 |} t with
    | (t, Some e) => (t, Err (Internal e))
    | (t, None) => (t, Ok task)
    end
  end.

Definition engine_task (r : IngestionTaskRecord) : IngestionTask :=
  {| Id := TaID r; Name := TaName r; SourceType := TaSourceType r; ConfigJson := TaConfigJSON r |}.
(** The answer is given at once; the project and the task of the run that is started
    in the background. *)
Definition RunTask (ok : bool) (projectID taskID : string) (t : Tables) : result handler_error (string * (string * IngestionTask)) :=
  match GetTaskByID ok taskID t with
  | Err e => Err (NotFound e)
  | Ok r => Ok ("started", (projectID, engine_task r))
  end.

Definition GetTaskLogs (getwd : option string) (projectsRoot projectID taskID : string) (read_ok : bool) (f : FS) :
    result handler_error string :=
  match sanitizePath getwd projectsRoot [projectID; "logs"; taskID +:+ ".log"] with
  | None => Err InvalidArgument
  | Some p => Ok (default "No logs found." (if read_ok then ReadFile p f else None))
  end.

Definition DeleteTask (ok : bool) (id projectID : string) (t : Tables) : Tables * result handler_error bool :=
  match Repository.Repository.DeleteTask ok id projectID t with
  | (t, Some e) => (t, Err (Internal e))
  | (t, None) => (t, Ok true)
  end.

(** A task that was created is listed for its project and started as it was written, and
    deleting it for its project removes it; but the start does not look at the project
    of the task: it runs the task in whichever project the request names. *)
Theorem task_lifecycle (random : string) (p q : string) (task : Task) (t : Tables) :
  system_tasks t !! WId (with_id random task) = None →
  let '(t', r) := CreateTask random true p (Some task) t in
  let task' := with_id random task in
  r = Ok task' ∧
  (∃ l, ListTasks true p t' = Ok l ∧ ∃ x, x ∈ l ∧ WId x = WId task' ∧ WStatus x = "idle" ∧ WConfigJson x = WConfigJson task') ∧
  RunTask true q (WId task') t' =
    Ok ("started", (q, {| Id := WId task'; Name := WName task; SourceType := WSourceType task; ConfigJson := WConfigJson task |})) ∧
  system_tasks (DeleteTask true (WId task') p t').1 = system_tasks t.
Proof.
  intros Hn. unfold CreateTask, Repository.Repository.CreateTask, exec, sql_insert. cbn [andb TaID].
  rewrite bool_decide_eq_true_2 by done. set (r := {| TaID := _ |}). cbn zeta.
  set (t' := set_tasks _ t). assert (system_tasks t' !! WId (with_id random task) = Some r) as Hr by apply lookup_insert_eq.
  split_and!; [done| | |].
  - eexists. split; [reflexivity|]. exists (wire_task r). split; [|done]. apply list_elem_of_fmap_2, list_elem_of_fmap.
    exists (WId (with_id random task), r). split; [done|]. apply elem_of_map_to_list, map_lookup_filter_Some.
    split; [done|]. cbn. unfold in_project. by rewrite bool_decide_eq_true_2.
  - unfold RunTask, GetTaskByID, query_row. by rewrite Hr.
  - unfold DeleteTask, Repository.Repository.DeleteTask, exec, sql_delete. rewrite Hr. cbn. unfold in_project. cbn.
    rewrite bool_decide_eq_true_2 by done. cbn. by rewrite delete_insert_id.
Qed.

Definition named_by_id : list string := ["rss"; "rest"; "url"; "postgres"; "email"; "jsonapi"].

Section GeneratedIds.
Context `{Unicode} `{UnicodeFold} `{UrlLib} `{Floats} `{Sitemap.SitemapLib} `{MailLib} `{Env}.
Context (projectsRoot : string).

Lemma digit_first_invalid c rest : (nat_of_ascii c < 160)%nat → ValidateIdentifier (Hex.EncodeToString (String c rest)) ≠ None.
Proof.
  intros Hc. cbn [Hex.EncodeToString]. set (d := Hex.hex_digit (nat_of_ascii c / 16)).
  assert (ident_start d = false) as Hd by (revert Hc; unfold d; clear; destruct c as [[] [] [] [] [] [] [] []]; 
      intros Hc; first [vm_compute; reflexivity|exfalso; apply Nat.ltb_lt in Hc; vm_compute in Hc; discriminate]).
  unfold ValidateIdentifier. destruct (bool_decide _); [done|]. destruct (bool_decide _); [done|].
  unfold identifierPattern at 1. by rewrite Hd.
Qed.

(** Of the identifiers that are generated for tasks, those that start with a digit (ten of
    sixteen) name no table: a task that was created without an identifier and drew one
    of them can never be run with a source that names its table after it. *)
Theorem generated_id_fails (c : ascii) (rest : string) (task : Task) (projectID : string) (w : Engine.World) :
  (nat_of_ascii c < 160)%nat → WId task = "" → WSourceType task ∈ named_by_id →
  ∃ e, (TaskRun.RunTask projectsRoot projectID
          {| Id := WId (with_id (String c rest) task); Name := WName task; SourceType := WSourceType task;
             ConfigJson := WConfigJson task |} w).2 = Err e.
Proof.
  intros Hc Hid Ht. apply TaskRun.invalid_id_fails; [done|]. cbn [Id WId with_id]. rewrite Hid, bool_decide_eq_true_2 by done.
  by apply digit_first_invalid.
Qed.
End GeneratedIds.
End IngestionHandler.

(** ** A concrete environment and the witnesses *)
Module SampleRun.
Import TaskRun.
#[local] Existing Instance ascii_tables.
#[local] Existing Instance ascii_fold_tables.
#[local] Existing Instance JsonApi.sample_urls.
#[local] Existing Instance Probe.sample_floats.
#[local] Existing Instance Sitemap.sample_lib.
#[local] Existing Instance Imap.sample_mail.

(** A database that counts parameters, a system that allows everything, and one
    web server. *)
#[local] Instance sample_env : Env := {|
  db_ok _ s := bool_decide (Z.of_nat (length (args s)) = Insert.placeholders (sql s));
  progress_ok _ _ _ := true; os_ok _ _ := true;
  http _ := Some {| StatusCode := 200; RespHeader := [("Content-Type", "text/csv")]; Body := Some "a,b" |};
  new_request _ := true; url_parses _ := true; checksum _ := "0123456789abcdef"; uuid_parse _ := false;
  go_imports _ := Some ["fmt"]; unquote s := Some s; build_ok _ := true; run_binary _ f := f; budget := 3;
  probe_server := Sheets.answers "[]"; detect_server := Sheets.answers "[]"; page_server := Sheets.answers "[]";
  resolver _ := Err ""; dial_ok := true; imap _ := []; sheet_server _ _ := Sheets.answers "[]"; map_order l := l;
  tokenize _ := None; parse_float _ := false; print_value v := Marshal v |}.

Definition sample_row : Repository.Repository.IngestionTaskRecord :=
  {| Repository.Repository.TaID := "orders"; Repository.Repository.TaProjectID := "p"; Repository.Repository.TaName := "";
     Repository.Repository.TaSourceType := "url"; Repository.Repository.TaConfigJSON := "";
     Repository.Repository.TaSchedule := ""; Repository.Repository.TaStatus := "idle"; Repository.Repository.TaProgress := 0 |}.
Definition sample_tables : Repository.Repository.Tables :=
  {| Repository.Repository.system_agents := ∅; Repository.Repository.system_skills := ∅;
     Repository.Repository.system_tasks := {["orders" := sample_row]}; Repository.Repository.system_api_keys := ∅;
     Repository.Repository.system_notification_channels := ∅; Repository.Repository.system_chat_history := [];
     Repository.Repository.system_chat_sessions := []; Repository.Repository.ontology_versions := [];
     Repository.Repository.system_projects := ∅; Repository.Repository.system_tools := ∅;
     Repository.Repository.kept := Repository.Repository.no_kept |}.
Definition sample_world : World :=
  {| fs := {| dirs := {[ [] ]}; files := ∅ |}; meta := Some sample_tables; executed := []; tasks := ∅;
     githubIngester := Some (GitHub.NewGitHubIngester "first"); sheetsIngester := None |}.
Definition sample_task (source cfg : string) : IngestionTask :=
  {| Id := "orders"; Name := ""; SourceType := source; ConfigJson := Marshal (JObj [(cfg, JStr "https://x/data.csv")]) |}.

(** The run of a "url" task, from the request to the last statement. *)
Example url_run :
  let '(w, r) := RunTask "/srv" "p" (sample_task "url" "url") sample_world in
  r = Ok tt ∧ progress_of "orders" w = Some (100, "completed") ∧
  files (fs w) !! ["srv"; "p"; "raw"; "orders.csv"] = Some "a,b" ∧
  length (executed w) = 2%nat.
Proof. vm_compute. repeat split. Qed.

Lemma RunTask_statements_witness :
  ∃ new, executed (RunTask "/srv" "p" (sample_task "url" "url") sample_world).1 = [] ++ new ∧
    Forall (λ s, lex (render (sql s)) = Some (tokens (sql s)) ∧
                 (sql s ∈ fixed_statements ∨
                  ∃ verb name rest, sql s = Raw verb :: Ident name :: rest ∧ ValidateIdentifier name = None)) new.
Proof. apply (RunTask_statements "/srv" ltac:(done) "p" (sample_task "url" "url") sample_world). Defined.

Lemma RunTask_status_witness :
  let '(w', r) := RunTask "/srv" "p" (sample_task "url" "url") sample_world in
  tasks w' = ∅ ∧ progress_of "orders" w' = Some (100, "completed").
Proof.
  pose proof (RunTask_status "/srv" ltac:(done) "p" (sample_task "url" "url") sample_world) as H.
  rewrite bool_decide_eq_false_2 in H by done. destruct H as (H1 & _ & H2). specialize (H2 ltac:(eexists; reflexivity)).
  assert ((RunTask "/srv" "p" (sample_task "url" "url") sample_world).2 = Ok tt) as E by (vm_compute; reflexivity).
  destruct (RunTask _ _ _ _) as [w' r]. cbn in E. subst r. split; [exact H1|]. by apply H2.
Defined.

Lemma custom_code_never_succeeds_witness :
  ∃ e, (RunTask "/srv" "p" (sample_task "custom_code" "code") sample_world).2 = Err e.
Proof. apply (custom_code_never_succeeds "/srv" "p" (sample_task "custom_code" "code") sample_world). reflexivity. Defined.

Definition github_task (token : string) : IngestionTask :=
  {| Id := "orders"; Name := ""; SourceType := "github";
     ConfigJson := Marshal (JObj [("owner", JStr "o"); ("repo", JStr "r"); ("token", JStr token)]) |}.
Lemma github_token_ignored_witness :
  runGitHubSource "/srv" "p" (github_task "second") sample_world = runGitHubSource "/srv" "p" (github_task "third") sample_world.
Proof.
  apply (github_token_ignored "/srv" "p" "o" "r" "second" "third" (github_task "second") (github_task "third")
           (GitHub.NewGitHubIngester "first") sample_world); vm_compute; reflexivity.
Defined.

Lemma runs_exclusive_witness :
  ∃ s, star run_step {| world := sample_world; runs := Waiting <$> ["a"; "a"] |} s ∧ runs s = [Active "a"; Over] ∧
    ∀ i j id, runs s !! i = Some (Active id) → runs s !! j = Some (Active id) → i = j.
Proof.
  eexists. assert (star run_step {| world := sample_world; runs := Waiting <$> ["a"; "a"] |}
    {| world := with_tasks {["a" := "running"]} sample_world; runs := [Active "a"; Over] |}) as H.
  { eapply star_step; [apply (run_enter _ 0 "a"); reflexivity|]. cbn [world runs].
    eapply star_step; [eapply (run_refused _ 1 "a"); reflexivity|]. apply star_refl. }
  split; [exact H|]. split; [reflexivity|]. apply (runs_exclusive ["a"; "a"] sample_world _ eq_refl H).
Defined.

(** A database that takes every statement. *)
Definition open_env : Env := {|
  db_ok _ _ := true; progress_ok _ _ _ := true; os_ok _ _ := true; http _ := None; new_request _ := true; url_parses _ := true;
  checksum s := s; uuid_parse _ := false; go_imports _ := None; unquote _ := None; build_ok _ := true; run_binary _ f := f;
  budget := 3; probe_server := Sheets.answers "[]"; detect_server := Sheets.answers "[]"; page_server := Sheets.answers "[]";
  resolver _ := Err ""; dial_ok := true; imap _ := []; sheet_server _ _ := Sheets.answers "[]"; map_order l := l;
  tokenize _ := None; parse_float _ := false; print_value v := Marshal v |}.
Lemma enrichment_complete_witness :
  executed (enrichPredictiveMetadata (H5 := open_env) "/srv"
    (λ _, Some (["id"; "note"], [Some [AnyStr "7"; AnyStr "a long note"]])) (λ _, "7") None (λ _ _, false) (λ _, false)
    "p" "t" sample_world).1
  = [{| sql := features_sql; args := [AnyStr "p"; AnyStr "t"; AnyStr "7"; AnyStr "sentiment_note"; AnyNum SentimentUnavailable] |}].
Proof.
  exact (enrichment_complete (H5 := open_env) "/srv" (λ _, Some (["id"; "note"], [Some [AnyStr "7"; AnyStr "a long note"]]))
    (λ _, "7") None (λ _ _, false) (λ _, false) ltac:(done) ltac:(done) "p" "t" ["id"; "note"] _ sample_world eq_refl).
Defined.

Definition many_rows (n : nat) : list json := replicate n (JObj [("x", JNum "1")]).
Lemma insertJSONArray_loads_witness :
  Insert.insertJSONArray "t" (many_rows 501) sample_world =
  (with_executed [{| sql := Insert.create_sql "t" [("x", JNum "1")] ["x"]; args := [] |}] sample_world, Ok tt).
Proof.
  apply (Insert.insertJSONArray_loads ltac:(done) "t" [("x", JNum "1")] (many_rows 500) sample_world);
    [vm_compute; reflexivity|done|]. vm_compute. repeat constructor.
Defined.

Definition new_task : IngestionHandler.Task :=
  {| IngestionHandler.WId := ""; IngestionHandler.WName := "n"; IngestionHandler.WSourceType := "url";
     IngestionHandler.WConfigJson := "{}"; IngestionHandler.WSchedule := ""; IngestionHandler.WStatus := ""; IngestionHandler.WProgress := 0 |}.
Lemma generated_id_fails_witness :
  ∃ e, (RunTask "/srv" "p" {| Id := "00"; Name := "n"; SourceType := "url"; ConfigJson := "{}" |} sample_world).2 = Err e.
Proof.
  apply (IngestionHandler.generated_id_fails "/srv" "000" "" new_task "p" sample_world); [vm_compute; lia|reflexivity|].
  unfold IngestionHandler.named_by_id. cbn. right. right. left.
Defined.
Lemma task_lifecycle_witness :
  IngestionHandler.RunTask true "q" "00" (IngestionHandler.CreateTask (String "000" "") true "p" (Some new_task) sample_tables).1
  = Ok ("started", ("q", {| Id := "00"; Name := "n"; SourceType := "url"; ConfigJson := "{}" |})).
Proof. exact (proj1 (proj2 (proj2 (IngestionHandler.task_lifecycle (String "000" "") "p" "q" new_task sample_tables eq_refl)))). Defined.
End SampleRun.
