(* ===== verification/Quality.v ===== *)
(** * Code quality and verification of tools (internal/sandbox/validation.go, verification.go)

    Module [Quality]: the metrics of a Go source, from its text; whether it parses is a
    parameter.  Module [Verifier]: one verification of a stored tool, from the lookup
    of its code to the check of its output; running it is a parameter. *)

From S2P Require Import Prelude GoStrings GoValues GoText Sandbox.
Import Validation.

Module Quality.

(** [strings.Count]: occurrences that do not overlap; [skip] bytes belong to the last one. *)
Fixpoint count_from (skip : nat) (sub s : string) : Z :=
  match s with
  | "" => 0
  | String _ s' =>
    match skip with
    | S k => count_from k sub s'
    | O => if String.prefix sub s then 1 + count_from (String.length sub - 1) sub s' else count_from 0 sub s'
    end
  end.
Definition Count (s sub : string) : Z := count_from 0 sub s.

Record CodeMetrics := {
  LinesOfCode : Z; CyclomaticComplexity : Z; GofmtErrors : list string; HasGofmtViolations : bool; EstimatedCoverage : f64;
}.

Section Quality.
Context `{Unicode} `{UnicodeFold}.

(** What a line leaves and whether a block comment is open after it. *)
Definition strip_line (inBlock : bool) (line : string) : list string * bool :=
  if inBlock then
    match str_index line "*/" with
    | Some idx => ([TrimSpace (str_drop (idx + 2) line)], false)
    | None => ([], true)
    end
  else
    let line := match str_index line "//" with Some idx => str_take idx line | None => line end in
    match str_index line "/*" with
    | Some idx =>
      let before := str_take idx line in
      match str_index (str_drop (idx + 2) line) "*/" with
      | Some e => ([before +:+ str_drop (idx + 2 + e + 2) line], false)
      | None => ([before], true)
      end
    | None => ([line], false)
    end.
Fixpoint strip_lines (inBlock : bool) (ls : list string) : list string :=
  match ls with
  | [] => []
  | line :: ls => let '(out, inBlock) := strip_line inBlock line in out ++ strip_lines inBlock ls
  end.
Definition stripComments (source : string) : string := str_join (String newline "") (strip_lines false (lines source)).

Definition decision_points : list string := ["if"; "else"; "for"; "range"; "select"; "switch"; "case"; "&&"; "||"].
Definition EstimateComplexity (source : string) : Z :=
  1 + Z.of_nat (length (filter (λ tok, tok ∈ decision_points) (Fields (stripComments source)))).

Definition tab : ascii := "009".
Definition line_issues (n : Z) (line : string) : list string :=
  (if has_suffix line " " || has_suffix line (String tab "")
   then ["line " +:+ Itoa n +:+ ": trailing whitespace"] else []) ++
  (if str_mem tab line then
     let trimmed := trim_left_set (String " " (String tab "")) line in
     let lead := str_take (String.length line - String.length trimmed) line in
     if bool_decide (str_len trimmed < str_len line) && str_mem " " lead && str_mem tab lead
     then ["line " +:+ Itoa n +:+ ": mixed tabs and spaces in indentation"] else []
   else []).
Fixpoint issues_from (n : Z) (ls : list string) : list string :=
  match ls with [] => [] | line :: ls => line_issues n line ++ issues_from (n + 1) ls end.
(** [parse_error]: the error of the Go parser, if there is one. *)
Definition CheckGoFormat (parse_error : string → option string) (source : string) : list string :=
  match parse_error source with
  | Some e => ["parse error: " +:+ e]
  | None => issues_from 1 (lines source)
  end.

Definition estimateCoverage (source : string) : f64 :=
  let noComments := stripComments source in
  if negb (str_contains noComments "func Test") && negb (str_contains noComments "func Benchmark") then f64_of_int 0
  else
    let assertCount := Count noComments "t.Error" + Count noComments "t.Fatal" + Count noComments "assert." in
    if bool_decide (assertCount = 0) then f64_of_int 10
    else
      let est := f64_mul (f64_of_int assertCount) (f64_of_int 5) in
      if f64_lt (f64_of_int 85) est then f64_of_int 85 else est.

Definition AnalyzeGoCodeQuality (parse_error : string → option string) (source : string) : CodeMetrics :=
  {| LinesOfCode := countNonBlankLines source; CyclomaticComplexity := EstimateComplexity source;
     GofmtErrors := CheckGoFormat parse_error source;
     HasGofmtViolations := bool_decide (CheckGoFormat parse_error source ≠ []);
     EstimatedCoverage := estimateCoverage source |}.

(** *** Comments *)
Lemma strip_open ls : Forall (λ l, str_contains l "*/" = false) ls → strip_lines true ls = [].
Proof.
  induction 1 as [|l ls Hl _ IH]; cbn [strip_lines]; [done|]. unfold strip_line.
  apply str_index_None in Hl. by rewrite Hl, IH.
Qed.

(** Line comments are cut off before block comments are looked for, so a URL in a block
    comment hides the end of the comment: the code behind it is left out of the
    complexity, up to the next end of a block comment. *)
Theorem url_hides_code (rest : string) :
  Forall (λ l, str_contains l "*/" = false) (lines rest) →
  EstimateComplexity ("/* see http://x */" +:+ String newline rest) = 1.
Proof.
  intros Hr. unfold EstimateComplexity, stripComments.
  change (lines ("/* see http://x */" +:+ String newline rest)) with ("/* see http://x */" :: lines rest).
  cbn [strip_lines]. change (strip_line false "/* see http://x */") with ([""], true).
  cbv iota beta. rewrite strip_open by done. vm_compute. reflexivity.
Qed.
End Quality.

Lemma url_hides_code_witness :
  EstimateComplexity (H := ascii_tables) (H0 := ascii_fold_tables) ("/* see http://x */" +:+ String newline "if a && b { for { } }") = 1 ∧
  EstimateComplexity (H := ascii_tables) (H0 := ascii_fold_tables) "if a && b { for { } }" = 4.
Proof.
  split; [|vm_compute; reflexivity].
  apply (url_hides_code (H := ascii_tables) (H0 := ascii_fold_tables)). repeat constructor; vm_compute; reflexivity.
Defined.
End Quality.

Module Verifier.

Record VerificationConfig := { TimeoutSeconds : Z; MaxMemoryMB : Z; MaxCPUSeconds : f64; NetworkBlocked : bool }.
Definition DefaultVerificationConfig : VerificationConfig :=
  {| TimeoutSeconds := 15; MaxMemoryMB := 256; MaxCPUSeconds := f64_of_int 10; NetworkBlocked := true |}.

Record VerificationResult := {
  ToolID : string; ToolName : string; VStdout : string; VStderr : string; VExitCode : Z; VDuration : Duration;
  MemoryUsedMB : f64; CPUUsedSeconds : f64; Passed : bool; VError : string;
}.
Definition refused (toolID name e : string) : VerificationResult :=
  {| ToolID := toolID; ToolName := name; VStdout := ""; VStderr := ""; VExitCode := -1; VDuration := 0;
     MemoryUsedMB := f64_of_int 0; CPUUsedSeconds := f64_of_int 0; Passed := false; VError := e |}.

Definition suspiciousPatterns : list string :=
  ["/etc/passwd"; "/etc/shadow"; "root:"; "sudo "; "chmod 777"; "rm -rf /"; "fork bomb"].

Section Verifier.
Context `{Unicode} (parse : string → option (list string)).
(** The texts of errors. *)
Context (expired_text : string) (lookup_text : string) (code_text : code_error → string).

Definition isOutputSafe (output : string) : bool := negb (existsb (str_contains (ToLower output)) suspiciousPatterns).

(** How long a run may take. *)
Definition timeout_of (config : VerificationConfig) : Duration :=
  let timeout := wrap64 (TimeoutSeconds config * second) in if bool_decide (timeout = 0) then 15 * second else timeout.

(** [expired]: the caller's context is over; [code]: the stored code; [run]: what
    executing the tool within a timeout gives, with its duration and the text of its
    error.  The second component says whether the lookup failed. *)
Definition VerifyTool (expired : bool) (code : option string)
    (run : Duration → Skills.ExecutionResult * Duration * option string) (toolID : string) (config : VerificationConfig) :
    VerificationResult * bool :=
  if expired then (refused toolID "" expired_text, false)
  else match code with
  | None => (refused toolID "" lookup_text, true)
  | Some toolCode =>
    match VerifyToolCode parse toolCode with
    | Some e => (refused toolID toolID (code_text e), false)
    | None =>
      let '(x, d, err) := run (timeout_of config) in
      let result mem cpu passed e :=
        {| ToolID := toolID; ToolName := toolID; VStdout := Skills.Stdout x; VStderr := Skills.Stderr x;
           VExitCode := Skills.ExitCode x; VDuration := d; MemoryUsedMB := mem; CPUUsedSeconds := cpu;
           Passed := passed; VError := e |} in
      let none := f64_of_int 0 in
      match err with
      | Some e => (result none none false e, false)
      | None =>
        if negb (bool_decide (Skills.ExitCode x = 0))
        then (result none none false ("tool exited with code " +:+ Itoa (Skills.ExitCode x)), false)
        else
          let safe := isOutputSafe (Skills.Stdout x) && isOutputSafe (Skills.Stderr x) in
          (result (f64_mul (f64_of_int (MaxMemoryMB config)) (f64_lit 1 10)) (Seconds d) safe
                  (if safe then "" else "suspicious output detected during verification"), false)
      end
    end
  end.

(** A tool passes its verification exactly when the context is alive, its code is found
    and statically accepted, and the run ends without an error, with exit code zero
    and without a suspicious text in its output. *)
Theorem VerifyTool_passed (expired : bool) (code : option string)
    (run : Duration → Skills.ExecutionResult * Duration * option string) (toolID : string) (config : VerificationConfig) :
  Passed (VerifyTool expired code run toolID config).1 = true ↔
  expired = false ∧
  (∃ c, code = Some c ∧ VerifyToolCode parse c = None) ∧
  ∃ x d, run (timeout_of config) = (x, d, None) ∧ Skills.ExitCode x = 0 ∧
    ∀ p, p ∈ suspiciousPatterns →
      str_contains (ToLower (Skills.Stdout x)) p = false ∧ str_contains (ToLower (Skills.Stderr x)) p = false.
Proof.
  assert (∀ s, isOutputSafe s = true ↔ ∀ p, p ∈ suspiciousPatterns → str_contains (ToLower s) p = false) as Hsafe.
  { intros s. unfold isOutputSafe. rewrite negb_true_iff, <- not_true_iff_false, existsb_exists. split.
    - intros Hn p Hp. apply not_true_iff_false. intros Hc. apply Hn. exists p. split; [by apply list_elem_of_In|done].
    - intros Hall (p & Hp & Hc). apply list_elem_of_In in Hp. rewrite (Hall p Hp) in Hc. done. }
  unfold VerifyTool. destruct expired; [by split; [|intros (? & _)]|].
  destruct code as [c|]; [|by split; [|intros (_ & (? & ? & _) & _)]].
  destruct (VerifyToolCode parse c) as [e|] eqn:Ec; [by split; [|intros (_ & (? & [= <-] & ?) & _); congruence]|].
  destruct (run (timeout_of config)) as [[x d] [e|]]; [by split; [|intros (_ & _ & ? & ? & [=] & _)]|].
  destruct (bool_decide (Skills.ExitCode x = 0)) eqn:Ex; cbn [negb fst Passed]; decide_bools.
  - rewrite andb_true_iff, !Hsafe. split.
    + intros [H1 H2]. split_and!; [done|eauto|]. exists x, d. split_and!; [done|done|]. auto.
    + intros (_ & _ & x' & d' & [= <- <-] & _ & Hall). split; intros p Hp; by apply Hall.
  - split; [done|]. intros (_ & _ & x' & d' & [= <- <-] & Hx & _). done.
Qed.

(** The programs the checks need, in order. *)
Definition CheckSandboxSecurity (LookPath : string → bool) : list string :=
  omap (λ pm, if LookPath pm.1 then None else Some pm.2)
    [("unshare", "unshare not found: network isolation may be limited");
     ("timeout", "timeout not found: time limits may be limited");
     ("python3", "python3 not found: Python tool verification unavailable");
     ("go", "go not found: Go tool verification unavailable")].
End Verifier.
End Verifier.
