(* ===== verification/Adaptation.v ===== *)
(** * Adaptation of tools (internal/tools/adaptation)

    Module [Templates]: the Go programs the pipeline writes for a tool, from its
    definition (templates.go).  Module [Adaptation]: the five stages and the runs of the
    pipeline over the metadata repository (pipeline.go).  Module [Suggester]: the
    suggestions for a query and the version snapshots (suggestion.go).  Building and
    running a program, the Go parser and the texts of errors are parameters. *)

From S2P Require Import Prelude GoStrings GoValues GoText Caches Repository Sandbox Quality.
Import Validation.

(** A tool as an MCP server describes it (internal/mcp/schemas.go); the entries of a map
    are listed in the order in which the program ranges over it. *)
Record ToolDefinition := {
  Name : string; Description : string; InputSchema : list (string * any); Version : string; Category : string;
}.

Definition TemplateType : Type := string.
Definition TemplateWrapper : TemplateType := "wrapper".
Definition TemplateAdapter : TemplateType := "adapter".
Definition TemplateDecorator : TemplateType := "decorator".

(** [strconv.Quote], the verb [%q]: on ASCII the escapes are fixed, outside it what is
    printable depends on the Unicode tables, which are a parameter. *)
Section Quote.
Definition hex_digit (n : nat) : ascii := ascii_of_nat (if bool_decide (n < 10)%nat then 48 + n else 87 + n).
Definition escape_char (c : ascii) : string :=
  let n := nat_of_ascii c in
  match c with
  | "007"%char => "\a" | "008"%char => "\b" | "012"%char => "\f" | "010"%char => "\n" | "013"%char => "\r" | "009"%char => "\t" | "011"%char => "\v"
  | "034"%char => String backslash (String dquote "") | "092"%char => String backslash (String backslash "")
  | _ => if bool_decide (n < 32 ∨ n = 127)%nat
         then "\x" +:+ String (hex_digit (Nat.div n 16)) (String (hex_digit (Nat.modulo n 16)) "")
         else String c ""
  end.
Context (unicode_quote : string → string).
Definition Quote (s : string) : string :=
  if str_all is_ascii_char s
  then String dquote (str_join "" (escape_char <$> String.list_ascii_of_string s) +:+ String dquote "")
  else unicode_quote s.
End Quote.

Module Templates.

(** *** Names *)

(** [strings.FieldsFunc] for a predicate on single bytes. *)
Fixpoint fields_by (p : ascii → bool) (s : string) : list string :=
  match s with
  | "" => []
  | String c s' =>
    if p c then fields_by p s'
    else match s' with
         | "" => [String c ""]
         | String d _ =>
           if p d then String c "" :: fields_by p s'
           else match fields_by p s' with w :: ws => String c w :: ws | [] => [String c ""] end
         end
  end.

Definition alnum (c : ascii) : bool := is_lower c || is_upper c || is_digit c.

Section Names.
Context `{Unicode}.

Definition capitalized (p : string) : string := ToUpper (str_take 1 p) +:+ str_drop 1 p.
Definition toPascalCase (s : string) : string :=
  str_join "" (capitalized <$> fields_by (λ r, bool_decide (r = "_"%char ∨ r = "-"%char ∨ r = " "%char)) s).

(** What a rune of the name leaves; [first] for the rune at index zero. *)
Definition clean_rune (first : bool) (r : string) : string :=
  match r with
  | String c "" =>
    if alnum c then String c ""
    else if bool_decide (c = "_"%char ∨ c = "-"%char) then "_"
    else if bool_decide (c = " "%char ∨ c = "."%char) then (if first then "" else "_")
    else ""
  | _ => ""
  end.
Fixpoint clean (first : bool) (rs : list string) : string :=
  match rs with [] => "" | r :: rs => clean_rune first r +:+ clean false rs end.

Definition sanitizeName (name : string) : string :=
  let name := TrimSpace name in
  if bool_decide (name = "") then ""
  else
    let s := toPascalCase (clean true (runes name)) in
    match s with
    | "" => "Tool"
    | String c _ => if is_digit c then String "_" s else s
    end.
End Names.

(** The assertion [schema["properties"].(map[string]any)]. *)
Definition properties (schema : list (string * any)) : option (list (string * any)) :=
  match list_find (λ kv, kv.1 = "properties") schema with
  | Some (_, (_, AnyMap props)) => Some props
  | _ => None
  end.
Definition countSchemaProps (schema : list (string * any)) : Z :=
  match properties schema with Some props => Z.of_nat (length props) | None => 0 end.

(** *** Programs *)

(** Double quotes are written as single ones in the fixed texts, which have no single quote. *)
Definition go_head : string := quoted "package main

import (
	'encoding/json'
	'fmt'
	'os'
)

".
Definition read_input : string := quoted "	var input map[string]interface{}
	if err := json.Unmarshal([]byte(inputJSON), &input); err != nil {
		return '', fmt.Errorf('invalid input: %w', err)
	}
".
Definition return_result : string := "	out, _ := json.Marshal(result)
	return string(out), nil
}

".
(** The main function: the receiver, the call that makes it, the method, the text of an error. *)
Definition go_main (v new method label : string) : string := quoted "func main() {
	input := os.Getenv('ALEPH_INPUT')
	if input == '' {
		input = '{}'
	}
" +:+ tab +:+ v +:+ " := New" +:+ new +:+ nl +:+ "	result, err := " +:+ v +:+ "." +:+ method +:+ "(input)
	if err != nil {
" +:+ quoted "		fmt.Fprintf(os.Stderr, '" +:+ label +:+ quoted ": %v\n', err)
		os.Exit(1)
	}
	fmt.Println(result)
}
".

Section Programs.
Context `{Unicode} (unicode_quote : string → string).
Let Q := Quote unicode_quote.

Definition safe_name (dflt name : string) : string :=
  let s := sanitizeName name in if bool_decide (s = "") then dflt else s.

Definition generateWrapperTemplate (code : string) (def : ToolDefinition) : string :=
  let safeName := safe_name "ToolWrapper" (Name def) in
  let isPython := IsPythonCode code in
  go_head +:+
  "// " +:+ safeName +:+ " is an auto-generated wrapper for " +:+ Description def +:+ "." +:+ nl +:+
  "type " +:+ safeName +:+ " struct {
	name string
}

" +:+
  "func New" +:+ safeName +:+ "() *" +:+ safeName +:+ " {
	return &" +:+ safeName +:+ "{name: " +:+ Q (Name def) +:+ "}
}

" +:+
  (if isPython then "// Execute calls the embedded Python logic via subprocess." else "// Execute processes input and returns result.") +:+ nl +:+
  "func (w *" +:+ safeName +:+ ") Execute(inputJSON string) (string, error) {" +:+ nl +:+
  read_input +:+ quoted "	result := make(map[string]interface{})
	result['tool'] = " +:+ Q (Name def) +:+ nl +:+ quoted "	result['status'] = 'executed'
" +:+
  (if isPython then quoted "	result['language'] = 'python'
" else "") +:+
  return_result +:+
  go_main "w" (safeName +:+ "()") "Execute" "error".

Definition schema_fields (schema : list (string * any)) : string :=
  match properties schema with
  | Some props => str_join "" ((λ kv, "	// - " +:+ kv.1 +:+ nl) <$> props)
  | None => ""
  end.

Definition generateAdapterTemplate (code : string) (def : ToolDefinition) : string :=
  let safeName := safe_name "ToolAdapter" (Name def) in
  let schemaFields := schema_fields (InputSchema def) in
  go_head +:+
  "// " +:+ safeName +:+ " adapts MCP tool " +:+ Q (Name def) +:+ " to Aleph format." +:+ nl +:+
  "type " +:+ safeName +:+ " struct {
	name string
	schema map[string]interface{}
}

" +:+
  "func New" +:+ safeName +:+ "(schema map[string]interface{}) *" +:+ safeName +:+ " {
	return &" +:+ safeName +:+ "{name: " +:+ Q (Name def) +:+ ", schema: schema}
}

" +:+
  "// Adapt transforms MCP-formatted input into Aleph output.
func (a *" +:+ safeName +:+ ") Adapt(inputJSON string) (string, error) {" +:+ nl +:+
  read_input +:+
  "	// Validate against schema with " +:+ Itoa (countSchemaProps (InputSchema def)) +:+ " expected properties" +:+ nl +:+
  (if bool_decide (schemaFields = "") then "" else "	// Expected fields:" +:+ nl +:+ schemaFields) +:+
  quoted "	result := make(map[string]interface{})
	result['adapted_tool'] = " +:+ Q (Name def) +:+ nl +:+ quoted "	result['input_keys'] = len(input)
	result['version'] = " +:+ Q (Version def) +:+ nl +:+
  return_result +:+
  go_main "a" (safeName +:+ "(nil)") "Adapt" "adapt error".

Definition generateDecoratorTemplate (code : string) (def : ToolDefinition) : string :=
  let safeName := safe_name "ToolDecorator" (Name def) in
  go_head +:+
  "// " +:+ safeName +:+ " is a standalone decorator for " +:+ Description def +:+ "." +:+ nl +:+
  "type " +:+ safeName +:+ " struct {
	name string
	config map[string]interface{}
}

" +:+
  "func New" +:+ safeName +:+ "() *" +:+ safeName +:+ " {
	return &" +:+ safeName +:+ "{name: " +:+ Q (Name def) +:+ "}
}

" +:+
  "// Run executes the decorated tool.
func (d *" +:+ safeName +:+ ") Run(inputJSON string) (string, error) {" +:+ nl +:+
  read_input +:+ quoted "	result := make(map[string]interface{})
	result['decorator'] = " +:+ Q (Name def) +:+ nl +:+ quoted "	result['input_keys'] = len(input)
" +:+
  return_result +:+
  go_main "d" (safeName +:+ "()") "Run" "decorator error".
End Programs.

(** *** Properties *)
Section Properties.
Context `{Unicode}.

Definition sep (r : ascii) : bool := bool_decide (r = "_"%char ∨ r = "-"%char ∨ r = " "%char).
Definition name_char (c : ascii) : bool := alnum c || bool_decide (c = "_"%char).

Lemma fields_by_Forall (p : ascii → bool) s : Forall (λ w, w ≠ "" ∧ str_all (λ c, negb (p c)) w = true) (fields_by p s).
Proof.
  induction s as [|c s IH]; cbn [fields_by]; [done|]. destruct (p c) eqn:Ec; [done|].
  assert (str_all (λ c, negb (p c)) (String c "") = true) as H1 by (cbn; by rewrite Ec).
  destruct s as [|d s]; [by repeat constructor|]. destruct (p d); [by constructor|].
  destruct (fields_by p (String d s)) as [|w ws]; [by repeat constructor|].
  apply Forall_cons in IH as [[_ Hw] Hws]. constructor; [|done]. split; [done|]. cbn. by rewrite Ec.
Qed.

Lemma fields_by_all (p q : ascii → bool) s : str_all q s = true → Forall (λ w, str_all q w = true) (fields_by p s).
Proof.
  induction s as [|c s IH]; cbn [fields_by str_all]; [done|]. intros [Hc Hs]%andb_true_iff. specialize (IH Hs).
  assert (str_all q (String c "") = true) as H1 by (cbn; by rewrite Hc).
  destruct (p c); [done|]. destruct s as [|d s]; [by repeat constructor|]. destruct (p d); [by constructor|].
  destruct (fields_by p (String d s)) as [|w ws]; [by repeat constructor|].
  apply Forall_cons in IH as [Hw Hws]. constructor; [|done]. cbn. by rewrite Hc.
Qed.

Lemma clean_ident first rs : str_all name_char (clean first rs) = true.
Proof.
  revert first. induction rs as [|r rs IH]; intros first; cbn [clean]; [done|]. rewrite str_all_app, IH, andb_true_r.
  destruct r as [|c [|d r]]; cbn [clean_rune]; try done.
  destruct (alnum c) eqn:E; [cbn; unfold name_char; by rewrite E|]. repeat case_bool_decide; by destruct first.
Qed.

(** A capitalized word: letters and digits, the first no small letter. *)
Definition capital (w : string) : bool :=
  str_all alnum w && match w with "" => false | String c _ => negb (is_lower c) end.

Lemma upper_alnum c : alnum c = true → is_ascii_char c = true ∧ alnum (upper_char c) = true ∧ is_lower (upper_char c) = false.
Proof. destruct c as [[] [] [] [] [] [] [] []]; vm_compute; auto. Qed.

Lemma capitalized_capital w : w ≠ "" → str_all alnum w = true → capital (capitalized w) = true.
Proof.
  destruct w as [|c w]; [done|]. intros _ [Hc Hw]%andb_true_iff. destruct (upper_alnum c Hc) as (Ha & Hu & Hl).
  unfold capitalized, ToUpper. cbn [str_take str_all str_drop]. rewrite Ha. cbn [andb str_map].
  unfold capital. rewrite str_app_cons, str_app_nil_l. cbn [str_all]. rewrite Hu, Hl. cbn [negb andb].
  by rewrite andb_true_r.
Qed.

Lemma join_capital ws : Forall (λ w, capital w = true) ws →
  str_join "" ws = "" ∨ capital (str_join "" ws) = true.
Proof.
  induction 1 as [|w ws Hw _ IH]; [by left|]. right.
  destruct ws as [|v ws]; [done|]. change (str_join "" (w :: v :: ws)) with (w +:+ "" +:+ str_join "" (v :: ws)).
  rewrite str_app_nil_l. unfold capital in *. apply andb_true_iff in Hw as [Hw Hc].
  destruct w as [|c w]; [done|]. rewrite str_app_cons in *. cbn [str_all] in *. rewrite str_all_app.
  apply andb_true_iff in Hw as [-> ->]. rewrite Hc, andb_true_r. cbn [andb].
  destruct IH as [->|[IH _]%andb_true_iff]; [done|exact IH].
Qed.

Lemma toPascalCase_capital s : str_all name_char s = true → toPascalCase s = "" ∨ capital (toPascalCase s) = true.
Proof.
  intros Hs. apply join_capital. rewrite Forall_fmap.
  pose proof (fields_by_Forall sep s) as H1. pose proof (fields_by_all sep _ s Hs) as H2.
  apply Forall_forall. intros w Hw. rewrite Forall_forall in H1, H2. destruct (H1 w Hw) as [Hn Ha]. specialize (H2 w Hw).
  apply capitalized_capital; [done|]. revert Ha H2. clear. induction w as [|c w IH]; cbn [str_all]; [done|].
  intros [H1 H3]%andb_true_iff [H2 H4]%andb_true_iff. rewrite IH by done. rewrite andb_true_r.
  unfold name_char in H2. apply orb_true_iff in H2 as [H2|H2]; [done|]. apply bool_decide_eq_true in H2 as ->. done.
Qed.

Definition go_keywords : list string :=
  ["break"; "default"; "func"; "interface"; "select"; "case"; "defer"; "go"; "map"; "struct"; "chan"; "else"; "goto";
   "package"; "switch"; "const"; "fallthrough"; "if"; "range"; "type"; "continue"; "for"; "import"; "return"; "var"].
Definition go_identifier (s : string) : Prop :=
  match s with "" => False | String c _ => is_digit c = false end ∧ str_all name_char s = true ∧ s ∉ go_keywords.

Lemma keywords_lower s : s ∈ go_keywords → match s with "" => False | String c _ => is_lower c = true end.
Proof. intros Hs. repeat (apply elem_of_cons in Hs as [->|Hs]; [reflexivity|]). by apply elem_of_nil in Hs. Qed.

Lemma ident_of_alnum s : str_all alnum s = true → str_all name_char s = true.
Proof. apply str_all_impl. intros c Hc. unfold name_char. by rewrite Hc. Qed.

(** A name that is not blank is turned into an identifier of Go that is no keyword;
    a blank name into nothing, for which the templates have a name of their own. *)
Theorem sanitizeName_identifier (name : string) :
  if bool_decide (TrimSpace name = "") then sanitizeName name = "" else go_identifier (sanitizeName name).
Proof.
  unfold sanitizeName. case_bool_decide; [done|].
  assert (∀ c s, is_lower c = false → is_digit c = false → str_all name_char (String c s) = true →
                 go_identifier (String c s)) as Hid.
  { intros c s Hl Hd Ha. split_and!; [done|done|]. intros Hk%keywords_lower. congruence. }
  destruct (toPascalCase_capital _ (clean_ident true (runes (TrimSpace name)))) as [->|Hc].
  { by apply Hid; vm_compute. }
  destruct (toPascalCase _) as [|c s]; [done|]. unfold capital in Hc.
  apply andb_true_iff in Hc as [Ha%ident_of_alnum Hl%negb_true_iff].
  destruct (is_digit c) eqn:Ed; apply Hid; try done.
Qed.

Lemma lines_inside (a l b : string) : str_mem newline l = false → l ∈ lines (a +:+ nl +:+ l +:+ nl +:+ b).
Proof.
  intros Hl. unfold lines, nl. rewrite !(str_app_cons newline), !str_app_nil_l.
  rewrite str_split_app. apply elem_of_app. right.
  rewrite str_split_cons by done. by left.
Qed.

Context (unicode_quote : string → string).

(** The description of a tool is put into a comment of one line as it is: each of
    its lines but the first and the last is a line of code of the generated program. *)
Theorem description_injects (code payload before after : string) (def : ToolDefinition) :
  Description def = before +:+ nl +:+ payload +:+ nl +:+ after → str_mem newline payload = false →
  payload ∈ lines (generateWrapperTemplate unicode_quote code def) ∧
  payload ∈ lines (generateDecoratorTemplate unicode_quote code def).
Proof.
  intros Hd Hp. unfold generateWrapperTemplate, generateDecoratorTemplate. rewrite Hd.
  assert (∀ a b c n x y, payload ∈ lines (a +:+ b +:+ n +:+ c +:+ (before +:+ nl +:+ payload +:+ nl +:+ x) +:+ y)) as Hin.
  { intros a b c n x y.
    replace (a +:+ b +:+ n +:+ c +:+ (before +:+ nl +:+ payload +:+ nl +:+ x) +:+ y)
      with ((a +:+ b +:+ n +:+ c +:+ before) +:+ nl +:+ payload +:+ nl +:+ x +:+ y); [by apply lines_inside|].
    by rewrite !str_app_assoc. }
  split; apply Hin.
Qed.

(** The program generated for a tool does not contain the tool's code: two tools with
    the same definition are adapted to the same program, up to the remark that a
    wrapper makes on the language. *)
Theorem code_discarded (code code' : string) (def : ToolDefinition) :
  generateAdapterTemplate unicode_quote code def = generateAdapterTemplate unicode_quote code' def ∧
  generateDecoratorTemplate unicode_quote code def = generateDecoratorTemplate unicode_quote code' def ∧
  (IsPythonCode code = IsPythonCode code' →
   generateWrapperTemplate unicode_quote code def = generateWrapperTemplate unicode_quote code' def).
Proof. split_and!; [done|done|]. unfold generateWrapperTemplate. by intros ->. Qed.
End Properties.
End Templates.

Module Adaptation.
Import Templates Quality Verifier Repository.Repository.

Record Candidate := { ToolDef : ToolDefinition; Code : string; CTemplateType : TemplateType }.
Record AnalysisDetail := {
  ALanguage : string; Dependencies : list string; Complexity : Z; ATemplateType : TemplateType;
  HasTests : bool; Issues : list string;
}.
Definition no_analysis : AnalysisDetail :=
  {| ALanguage := ""; Dependencies := []; Complexity := 0; ATemplateType := ""; HasTests := false; Issues := [] |}.
Record StageResult := { SName : string; SPassed : bool; Message : string }.
Record AdaptationResult := {
  RToolDefinition : ToolDefinition; Stages : list StageResult; RVersion : string; Registered : bool; RError : string;
  CandidateCode : string; AdaptedCode : string; RTemplateType : TemplateType; Analysis : AnalysisDetail;
}.

Definition with_stage (sr : StageResult) (r : AdaptationResult) : AdaptationResult :=
  {| RToolDefinition := RToolDefinition r; Stages := Stages r ++ [sr]; RVersion := RVersion r; Registered := Registered r;
     RError := RError r; CandidateCode := CandidateCode r; AdaptedCode := AdaptedCode r;
     RTemplateType := RTemplateType r; Analysis := Analysis r |}.
Definition with_error (e : string) (r : AdaptationResult) : AdaptationResult :=
  {| RToolDefinition := RToolDefinition r; Stages := Stages r; RVersion := RVersion r; Registered := Registered r;
     RError := e; CandidateCode := CandidateCode r; AdaptedCode := AdaptedCode r;
     RTemplateType := RTemplateType r; Analysis := Analysis r |}.
Definition with_analysis (a : AnalysisDetail) (r : AdaptationResult) : AdaptationResult :=
  {| RToolDefinition := RToolDefinition r; Stages := Stages r; RVersion := RVersion r; Registered := Registered r;
     RError := RError r; CandidateCode := CandidateCode r; AdaptedCode := AdaptedCode r;
     RTemplateType := ATemplateType a; Analysis := a |}.
Definition with_adapted (t : TemplateType) (code : string) (r : AdaptationResult) : AdaptationResult :=
  {| RToolDefinition := RToolDefinition r; Stages := Stages r; RVersion := RVersion r; Registered := Registered r;
     RError := RError r; CandidateCode := CandidateCode r; AdaptedCode := code; RTemplateType := t; Analysis := Analysis r |}.
Definition finished (registered : bool) (r : AdaptationResult) : AdaptationResult :=
  let v := Version (RToolDefinition r) in
  {| RToolDefinition := RToolDefinition r; Stages := Stages r; RVersion := if bool_decide (v = "") then "1.0.0" else v;
     Registered := registered || Registered r; RError := RError r; CandidateCode := CandidateCode r;
     AdaptedCode := AdaptedCode r; RTemplateType := RTemplateType r; Analysis := Analysis r |}.

Definition or_else (s dflt : string) : string := if bool_decide (s = "") then dflt else s.
Lemma or_else_l s dflt : s ≠ "" → or_else s dflt = s.
Proof. intros Hs. unfold or_else. by rewrite bool_decide_eq_false_2. Qed.

(** How a command ends, with what it wrote to its standard output and error. *)
Inductive run_end := Exited (code : Z) | NotRun (e : string).
Record run := { ROut : string; RErr : string; REnd : run_end }.

(** The machine the tests run on: the directory that is made or the error, the writing
    of a file in it, the build and the run of a Go program (60 seconds together), the
    run of a Python one (30 seconds). *)
Record Machine := {
  MkdirTemp : option string;
  WriteFile : string → string → option string;
  go_build : string → option (string * string);
  go_run : string → run;
  python_run : string → run;
}.

Definition truncate (s : string) (maxLen : Z) : string :=
  if bool_decide (str_len s ≤ maxLen) then s else str_take (Z.to_nat maxLen) s +:+ "...".

(** The dependencies of a list of lines, each once, in the order of their first line. *)
Definition add_dep (deps : list string) (d : string) : list string := if bool_decide (d ∈ deps) then deps else deps ++ [d].

(** What the repository's database answers. *)
Record Db := { at_ : Time; list_answer : rows_answer; code_ok : bool; health_ok : bool; create_ok : bool }.

Section Pipeline.
Context `{Unicode} `{UnicodeFold}.
Context (unicode_quote : string → string) (parse : string → option (list string)).
Context (code_text : code_error → string) (repo_text : repo_error → string) (duration_text : Duration → string).
Context (range : gmap string (ToolCache.cacheEntry (V := list ToolRecord)) →
                 list (string * ToolCache.cacheEntry (V := list ToolRecord))).
Context (machine : Machine) (db : Db).
(** The verification of a stored tool: its result, or the text of its error. *)
Context (VerifyTool : string → VerificationConfig → result string VerificationResult).

Definition passed (name msg : string) : StageResult := {| SName := name; SPassed := true; Message := msg |}.
Definition failed (name msg : string) : StageResult := {| SName := name; SPassed := false; Message := msg |}.

(** *** Stage 1: verification *)
Definition findToolIDByName (name : string) : string := "".

Definition verify_static (def : ToolDefinition) (code : string) : StageResult :=
  match VerifyToolCode parse code with
  | Some e => failed "verification" ("static verification failed: " +:+ code_text e)
  | None =>
    let ok := passed "verification" in
    let existingID := if bool_decide (Name def = "") then "" else findToolIDByName (Name def) in
    if bool_decide (existingID = "") then ok "static verification passed"
    else match VerifyTool existingID DefaultVerificationConfig with
    | Err e => ok ("static passed; sandbox unavailable: " +:+ e)
    | Ok v =>
      if Passed v then ok ("static+sandbox verified (exit:" +:+ Itoa (VExitCode v) +:+ ", dur:" +:+ duration_text (VDuration v) +:+ ")")
      else failed "verification" ("sandbox verification failed: " +:+ VError v)
    end
  end.
Definition VerificationStage (c : Candidate) : StageResult :=
  let def := ToolDef c in
  if bool_decide (Code c = "") then
    if bool_decide (Name def = "") then passed "verification" "no code to verify"
    else match VerifyToolCode parse (Name def) with
    | None => passed "verification" "static verification passed (no code in candidate)"
    | Some _ => verify_static def (Name def)
    end
  else verify_static def (Code c).

(** *** Stage 2: analysis *)
Definition go_dep (line : string) : option string :=
  let line := TrimSpace line in
  if String.prefix "import" line then
    let imp := trim_set (String " " (String dquote "")) (str_drop 6 line) in
    if bool_decide (imp = "") then None else Some imp
  else None.
Definition extractGoImports (code : string) : list string := foldl add_dep [] (omap go_dep (lines code)).
Definition python_dep (line : string) : option string :=
  let line := TrimSpace line in
  if String.prefix "import " line || String.prefix "from " line then Fields line !! 1%nat else None.
Definition extractPythonImports (code : string) : list string := foldl add_dep [] (omap python_dep (lines code)).

Definition detectTemplateType (code : string) (def : ToolDefinition) : TemplateType :=
  if bool_decide (InputSchema def ≠ []) then TemplateAdapter
  else if IsPythonCode code then TemplateWrapper
  else if str_contains code "func " && negb (str_contains code "func main()") && negb (str_contains code "func main(")
  then TemplateDecorator else TemplateWrapper.

Definition detectIssues (code lang : string) : list string :=
  if bool_decide (code = "") then []
  else
    (if bool_decide (100000 < str_len code) then ["code exceeds 100KB"] else []) ++
    (if bool_decide (lang = "go") then
       (if str_contains code "panic(" then ["contains panic()"] else []) ++
       (if str_contains code "log.Fatal" then ["contains log.Fatal()"] else [])
     else []) ++
    (if bool_decide (2000 < Count code nl) then ["code exceeds 2000 lines"] else []).

Definition analyse (c : Candidate) : AnalysisDetail :=
  let code := or_else (Code c) (Name (ToolDef c)) in
  let lang := if IsPythonCode code then "python" else "go" in
  {| ALanguage := lang;
     Dependencies := if bool_decide (lang = "go") then extractGoImports code else extractPythonImports code;
     Complexity := EstimateComplexity code;
     ATemplateType := if bool_decide (CTemplateType c = "") then detectTemplateType code (ToolDef c) else CTemplateType c;
     HasTests := str_contains code "func Test" || str_contains code "assert." || str_contains code "def test_";
     Issues := detectIssues code lang |}.
Definition AnalysisStage (c : Candidate) (res : AdaptationResult) : AdaptationResult * StageResult :=
  let a := analyse c in
  let n {A} (l : list A) := Itoa (Z.of_nat (length l)) in
  let msg := "language=" +:+ ALanguage a +:+ " deps=" +:+ n (Dependencies a) +:+ " complexity=" +:+ Itoa (Complexity a)
             +:+ " template=" +:+ ATemplateType a +:+ (if bool_decide (Issues a = []) then "" else " issues=" +:+ n (Issues a)) in
  (with_analysis a res,
   {| SName := "analysis"; SPassed := bool_decide (Issues a = [] ∨ Complexity a < 50); Message := msg |}).

(** *** Stage 3: adaptation *)
Definition adapted (t : TemplateType) (c : Candidate) : string :=
  let code := or_else (Code c) ("// tool: " +:+ Name (ToolDef c) +:+ nl) in
  if bool_decide (t = TemplateAdapter) then generateAdapterTemplate unicode_quote code (ToolDef c)
  else if bool_decide (t = TemplateDecorator) then generateDecoratorTemplate unicode_quote code (ToolDef c)
  else generateWrapperTemplate unicode_quote code (ToolDef c).
Definition AdaptationStage (c : Candidate) (res : AdaptationResult) : AdaptationResult * StageResult :=
  let t := or_else (or_else (RTemplateType res) (CTemplateType c)) TemplateWrapper in
  let code := adapted t c in
  (with_adapted t code res,
   passed "adaptation" ("applied " +:+ t +:+ " template (" +:+ Itoa (str_len code) +:+ " bytes)")).

(** *** Stage 4: testing *)
Definition containsSuspiciousOutput (s : string) : bool :=
  existsb (str_contains (ToLower s)) ["/etc/passwd"; "/etc/shadow"; "root:"; "sudo "; "chmod 777"; "rm -rf /"].

Definition written (name content : string) (what : string) (k : run) : run :=
  match WriteFile machine name content with
  | Some e => {| ROut := ""; RErr := ""; REnd := NotRun (what +:+ e) |}
  | None => k
  end.
Definition wrapped (what : string) (r : run) : run :=
  match REnd r with
  | NotRun e => {| ROut := ROut r; RErr := RErr r; REnd := NotRun (what +:+ e) |}
  | Exited _ => r
  end.
Definition runPythonCode (code : string) : run :=
  written "tool.py" code "write temp file: " (wrapped "runPythonCode: " (python_run machine code)).
Definition runGoCode (code : string) : run :=
  written "main.go" code "write temp file: "
    (written "go.mod" ("module tooltest" +:+ nl +:+ nl +:+ "go 1.24" +:+ nl) "write go.mod: "
      match go_build machine code with
      | Some (e, err) => {| ROut := ""; RErr := ""; REnd := NotRun ("build failed: " +:+ e +:+ "; " +:+ truncate err 200) |}
      | None => wrapped "runGoCode: " (go_run machine code)
      end).

Definition judge (r : run) : StageResult :=
  match REnd r with
  | NotRun e => failed "testing" ("execution error: " +:+ e +:+ "; stderr: " +:+ truncate (RErr r) 200)
  | Exited n =>
    if bool_decide (n = 0) then
      if containsSuspiciousOutput (ROut r) || containsSuspiciousOutput (RErr r)
      then failed "testing" "suspicious output patterns detected"
      else passed "testing" ("tests passed (exit:" +:+ Itoa n +:+ ", stdout:" +:+ Itoa (str_len (ROut r)) +:+ " bytes)")
    else failed "testing" ("exit code " +:+ Itoa n +:+ "; stderr: " +:+ truncate (RErr r) 200)
  end.
Definition is_go (code : string) : bool :=
  let trimmed := TrimSpace code in String.prefix "package " trimmed || String.prefix ("package" +:+ GoText.tab) trimmed.
Definition TestingStage (c : Candidate) (res : AdaptationResult) : StageResult :=
  let code := or_else (or_else (AdaptedCode res) (CandidateCode res)) (Code c) in
  if bool_decide (code = "") then passed "testing" "no code to test"
  else
    match (if is_go code then ValidateGoCode parse code else ValidatePythonCode code) with
    | Some e => failed "testing" ((if is_go code then "go" else "python") +:+ " validation failed: " +:+ code_text e)
    | None =>
      match MkdirTemp machine with
      | Some e => failed "testing" ("failed to create temp dir: " +:+ e)
      | None => judge (if is_go code then runGoCode code else runPythonCode code)
      end
    end.

(** *** Stage 5: registration *)
Definition findExistingToolID (name : string) (r : Repo) : Repo * string :=
  match ListTools range (at_ db) (list_answer db) r with
  | (r, Err _) => (r, "")
  | (r, Ok tools) =>
    (r, match list_find (λ t, ToName t = name) tools with Some (_, t) => ToID t | None => "" end)
  end.

Definition tool_record (id : string) (def : ToolDefinition) (code : string) : ToolRecord :=
  {| ToID := id; ToName := Name def; ToDescription := Description def; ToCode := code;
     ToCategory := or_else (Category def) "adaptation"; ToVersion := or_else (Version def) "1.0.0";
     ToHealthStatus := "healthy"; ToSourceType := "adaptation" |}.

Definition RegistrationStage (c : Candidate) (res : AdaptationResult) (mr : option Repo) : option Repo * StageResult :=
  match mr with
  | None => (None, failed "registration" "metadata repository not available")
  | Some r =>
    let def := ToolDef c in
    let name := Name def in
    if bool_decide (name = "") then (Some r, passed "registration" "no tool name provided, skipping registration")
    else
      let code := or_else (or_else (AdaptedCode res) (CandidateCode res)) ("// tool: " +:+ name) in
      let version := or_else (Version def) "1.0.0" in
      let said verb id := verb +:+ " tool " +:+ Quote unicode_quote name +:+ " (id=" +:+ id +:+ ", ver=" +:+ version +:+ ")" in
      let '(r, existingID) := findExistingToolID name r in
      if bool_decide (existingID = "") then
        let id := name +:+ "-adapted" in
        match CreateTool (create_ok db) (tool_record id def code) r with
        | (r, Some e) => (Some r, failed "registration" ("failed to create tool " +:+ Quote unicode_quote name +:+ ": " +:+ repo_text e))
        | (r, None) => (Some r, passed "registration" (said "registered" id))
        end
      else
        match UpdateToolCode (code_ok db) existingID code r with
        | (r, Some e) => (Some r, failed "registration" ("failed to update tool " +:+ Quote unicode_quote name +:+ ": " +:+ repo_text e))
        | (r, None) =>
          (Some (UpdateHealthStatus (health_ok db) existingID "healthy" r).1, passed "registration" (said "updated" existingID))
        end
  end.

(** *** The pipeline *)

(** A stage sees the candidate, the result so far and the repository. *)
Definition stage : Type := Candidate → AdaptationResult → option Repo → option Repo * AdaptationResult * (StageResult * option string).
Definition early_stages : list stage :=
  [λ c res r, (r, res, (VerificationStage c, None));
   λ c res r, let '(res, sr) := AnalysisStage c res in (r, res, (sr, None));
   λ c res r, let '(res, sr) := AdaptationStage c res in (r, res, (sr, None));
   λ c res r, (r, res, (TestingStage c res, None))].
Definition register : stage := λ c res r, let '(r, sr) := RegistrationStage c res r in (r, res, (sr, None)).
Definition stages : list stage := early_stages ++ [register].

(** The stages in order, up to the first that fails; the flag says that none did. *)
Fixpoint run_stages (ss : list stage) (c : Candidate) (res : AdaptationResult) (r : option Repo) :
    option Repo * AdaptationResult * bool :=
  match ss with
  | [] => (r, res, true)
  | s :: ss =>
    let '(r, res, (sr, err)) := s c res r in
    let res := with_stage sr res in
    match err with
    | Some e => (r, with_error ("stage " +:+ SName sr +:+ " error: " +:+ e) res, false)
    | None =>
      if SPassed sr then run_stages ss c res r
      else (r, with_error ("stage " +:+ SName sr +:+ " failed: " +:+ Message sr) res, false)
    end
  end.

Definition start (c : Candidate) : AdaptationResult :=
  {| RToolDefinition := ToolDef c; Stages := []; RVersion := ""; Registered := false; RError := "";
     CandidateCode := Code c; AdaptedCode := ""; RTemplateType := CTemplateType c; Analysis := no_analysis |}.
Definition finish (registered : bool) (x : option Repo * AdaptationResult * bool) : option Repo * AdaptationResult :=
  let '(r, res, ok) := x in (r, if ok then finished registered res else res).

Definition RunCandidate (c : Candidate) (r : option Repo) : option Repo * AdaptationResult :=
  finish true (run_stages stages c (start c) r).
Definition Run (tool : ToolDefinition) (r : option Repo) : option Repo * AdaptationResult :=
  RunCandidate {| ToolDef := tool; Code := ""; CTemplateType := "" |} r.
Definition RunSuggestion (tool : ToolDefinition) (r : option Repo) : option Repo * AdaptationResult :=
  let c := {| ToolDef := tool; Code := ""; CTemplateType := "" |} in
  finish false (run_stages early_stages c (start c) r).
Definition RegisterFromSuggestion (res : AdaptationResult) (r : option Repo) : option Repo * option string :=
  let c := {| ToolDef := RToolDefinition res; Code := AdaptedCode res; CTemplateType := "" |} in
  let '(r, sr) := RegistrationStage c res r in
  (r, if SPassed sr then None else Some ("registration failed: " +:+ Message sr)).

(** *** What a run does *)
Abbreviation tools r := (system_tools (tables r)).
Definition keyed (r : Repo) : Prop := ∀ id t, tools r !! id = Some t → ToID t = id.

Lemma exec_update ok id f r :
  match exec_tools (sql_update ok id (λ _, true) f (tools r)) r with
  | (r', None) => tools r' = alter f id (tools r)
  | (r', Some _) => tables r' = tables r
  end.
Proof.
  unfold exec_tools, exec, sql_update. destruct ok; [|done]. cbn.
  destruct (tools r !! id) as [t|] eqn:E.
  - apply map_eq. intros i. destruct (decide (i = id)) as [->|]; [by rewrite lookup_insert_eq, lookup_alter_eq, E|].
    by rewrite lookup_insert_ne, lookup_alter_ne.
  - symmetry. apply map_eq. intros i. destruct (decide (i = id)) as [->|]; [by rewrite lookup_alter_eq, E|].
    by rewrite lookup_alter_ne.
Qed.

Lemma findExistingToolID_spec name r : current r → keyed r →
  let '(r', id) := findExistingToolID name r in
  current r' ∧ tables r' = tables r ∧ (id ≠ "" → ∃ t, tools r !! id = Some t ∧ ToName t = name).
Proof.
  intros Hf Hk. unfold findExistingToolID. destruct (list_current range (at_ db) (list_answer db) r Hf) as (H1 & H2 & H3).
  destruct (ListTools _ _ _ r) as [r' [l|e]]; cbn [fst snd] in *; [|done]. split_and!; [done|done|].
  destruct (list_find _ l) as [[i t]|] eqn:E; [|done]. intros _.
  apply list_find_Some in E as (Hl%list_elem_of_lookup_2 & Hn & _). exists t. split; [|done].
  apply (sublist_subseteq _ _ H3) in Hl. unfold tool_rows in Hl. apply list_elem_of_fmap in Hl as ([k u] & -> & Hu%elem_of_map_to_list).
  cbn. by rewrite (Hk k u Hu).
Qed.

(** The tool of that name has the code, and the other tools are as they were. *)
Definition registered_as (name code : string) (r r' : Repo) : Prop :=
  ∃ id t, tools r' !! id = Some t ∧ ToName t = name ∧ ToCode t = code ∧ delete id (tools r') = delete id (tools r).

Lemma delete_alter_eq {A} (f : A → A) (m : gmap string A) i : delete i (alter f i m) = delete i m.
Proof.
  apply map_eq. intros j. destruct (decide (j = i)) as [->|]; [by rewrite !lookup_delete_eq|].
  by rewrite !lookup_delete_ne, lookup_alter_ne.
Qed.

Lemma UpdateHealthStatus_code ok id status r i t : tools r !! i = Some t →
  ∃ t', tools (UpdateHealthStatus ok id status r).1 !! i = Some t' ∧ ToName t' = ToName t ∧ ToCode t' = ToCode t.
Proof.
  intros Ht. unfold UpdateHealthStatus.
  match goal with |- context [exec_tools (sql_update ok id _ ?f _) r] => pose proof (exec_update ok id f r) as Hu end.
  destruct (exec_tools _ r) as [r' [e|]]; cbn [fst]; rewrite Hu; [by eauto|].
  destruct (decide (i = id)) as [->|]; [rewrite lookup_alter_eq, Ht; cbn; by eauto|rewrite lookup_alter_ne by done; by eauto].
Qed.
Lemma UpdateHealthStatus_delete ok id status r : delete id (tools (UpdateHealthStatus ok id status r).1) = delete id (tools r).
Proof.
  unfold UpdateHealthStatus.
  match goal with |- context [exec_tools (sql_update ok id _ ?f _) r] => pose proof (exec_update ok id f r) as Hu end.
  destruct (exec_tools _ r) as [r' [e|]]; cbn [fst]; rewrite Hu; [done|apply delete_alter_eq].
Qed.

Lemma RegistrationStage_spec c res r : current r → keyed r → AdaptedCode res ≠ "" →
  let '(mr, sr) := RegistrationStage c res (Some r) in
  ∃ r', mr = Some r' ∧ current r' ∧ SName sr = "registration" ∧
    if SPassed sr then
      if bool_decide (Name (ToolDef c) = "") then tables r' = tables r else registered_as (Name (ToolDef c)) (AdaptedCode res) r r'
    else tables r' = tables r.
Proof.
  intros Hf Hk Hc. unfold RegistrationStage. case_bool_decide as Hn; [by exists r|].
  rewrite !(or_else_l (AdaptedCode res)) by done.
  pose proof (findExistingToolID_spec (Name (ToolDef c)) r Hf Hk) as Hid.
  destruct (findExistingToolID _ r) as [r1 id]. destruct Hid as (Hf1 & Ht1 & Hid). case_bool_decide as He.
  - pose proof (exec_tools_cached sublist (sql_insert (create_ok db) (Name (ToolDef c) +:+ "-adapted")
      (tool_record (Name (ToolDef c) +:+ "-adapted") (ToolDef c) (AdaptedCode res)) (tools r1)) r1 Hf1) as Hf2.
    unfold CreateTool, exec_tools, exec, sql_insert in *. cbn [ToID tool_record] in *.
    destruct (create_ok db && bool_decide _) eqn:Ei; cbn [fst] in *; eexists; (split_and!; [done|done|done|cbn [SPassed passed failed]]).
    + eexists _, _. split_and!; [apply lookup_insert_eq|done|done|]. cbn. rewrite Ht1.
      apply andb_true_iff in Ei as [_ Ei%bool_decide_eq_true]. rewrite delete_insert_eq. done.
    + by destruct r1.
  - destruct (Hid He) as (t & Ht & Hname). rewrite <- Ht1 in Ht. unfold UpdateToolCode.
    match goal with |- context [exec_tools (sql_update _ id _ ?f _) r1] => pose proof (exec_update (code_ok db) id f r1) as Hu end.
    match goal with |- context [exec_tools ?res r1] => pose proof (exec_tools_cached sublist res r1 Hf1) as Hf2 end.
    destruct (exec_tools _ r1) as [r2 [e|]]; cbn [fst] in *; eexists; (split_and!; [done| |done|cbn [SPassed passed failed]]).
    + done.
    + by rewrite Hu.
    + apply (exec_tools_cached sublist), Hf2.
    + exists id. destruct (UpdateHealthStatus_code (health_ok db) id "healthy" r2 id
        {| ToID := ToID t; ToName := ToName t; ToDescription := ToDescription t; ToCode := AdaptedCode res;
           ToCategory := ToCategory t; ToVersion := ToVersion t; ToHealthStatus := ToHealthStatus t;
           ToSourceType := ToSourceType t |}) as (t' & Ht' & Hn' & Hc').
      { by rewrite Hu, lookup_alter_eq, Ht. }
      exists t'. rewrite UpdateHealthStatus_delete, Hu, delete_alter_eq, Ht1. split_and!; [done|by rewrite Hn'|done|done].
Qed.

(** A stage that reports under a name, without an error, and leaves the report so far alone. *)
Definition reports (name : string) (s : stage) : Prop := ∀ c res r,
  let '(_, res', (sr, err)) := s c res r in
  err = None ∧ SName sr = name ∧ Stages res' = Stages res ∧ RError res' = RError res ∧ Registered res' = Registered res.

Definition stopped (new : list StageResult) (res : AdaptationResult) : Prop :=
  ∃ init sr, new = init ++ [sr] ∧ Forall (λ s, SPassed s = true) init ∧ SPassed sr = false ∧
    RError res = "stage " +:+ SName sr +:+ " failed: " +:+ Message sr.

Lemma run_stages_report ss names c res r : Forall2 reports names ss →
  let '(_, res', ok) := run_stages ss c res r in
  ∃ new, Stages res' = Stages res ++ new ∧ Registered res' = Registered res ∧
    if ok : bool then RError res' = RError res ∧ SName <$> new = names ∧ Forall (λ s, SPassed s = true) new
    else stopped new res'.
Proof.
  intros Hs. revert res r. induction Hs as [|n s names ss Hn _ IH]; intros res r; cbn [run_stages].
  { exists []. by rewrite app_nil_r. }
  specialize (Hn c res r). destruct (s c res r) as [[r1 res1] [sr err]]. destruct Hn as (-> & Hn & Hst & He & Hr).
  destruct (SPassed sr) eqn:Ep.
  - specialize (IH (with_stage sr res1) r1). destruct (run_stages ss c _ r1) as [[r2 res2] ok].
    destruct IH as (new & Hnew & Hr2 & Hok). exists (sr :: new). cbn [Stages with_stage] in Hnew.
    rewrite Hst, <- app_assoc in Hnew. split_and!; [done|by rewrite Hr2|]. cbn [RError with_stage] in Hok. destruct ok.
    + destruct Hok as (He2 & <- & Hall). split_and!; [by rewrite He2|cbn; by rewrite Hn|by constructor].
    + destruct Hok as (init & sr' & -> & Hi & Hsr & He2). exists (sr :: init), sr'. split_and!; [done|by constructor|done|done].
  - exists [sr]. cbn. rewrite Hst. split_and!; [done|done|]. exists [], sr. by split_and!.
Qed.

Lemma run_stages_app ss ss' c res r :
  run_stages (ss ++ ss') c res r =
  let '(r1, res1, ok) := run_stages ss c res r in if ok then run_stages ss' c res1 r1 else (r1, res1, ok).
Proof.
  revert res r. induction ss as [|s ss IH]; intros res r; [done|]. cbn [run_stages app].
  destruct (s c res r) as [[r1 res1] [sr [e|]]]; [done|]. destruct (SPassed sr); [apply IH|done].
Qed.

Definition stage_names : list string := ["verification"; "analysis"; "adaptation"; "testing"; "registration"].
Lemma early_reports : Forall2 reports ["verification"; "analysis"; "adaptation"; "testing"] early_stages.
Proof.
  assert (∀ def code, SName (verify_static def code) = "verification") as Hv
    by (intros; unfold verify_static; repeat case_match; done).
  repeat constructor; intros; try done.
  - unfold VerificationStage. repeat case_match; auto.
  - unfold TestingStage, judge. repeat case_match; done.
Qed.
Lemma register_reports : reports "registration" register.
Proof.
  intros c res r. unfold register. destruct (RegistrationStage c res r) as [r' sr] eqn:E. split_and!; try done.
  revert E. unfold RegistrationStage. repeat case_match; by intros [= <- <-].
Qed.

Lemma adapted_nonempty t c : adapted t c ≠ "".
Proof. unfold adapted. by repeat case_match. Qed.

(** The template of a candidate: its own choice or the one that is detected. *)
Definition template_of (c : Candidate) : TemplateType := ATemplateType (analyse c).
Lemma template_nonempty c : template_of c ≠ "".
Proof. unfold template_of, analyse. cbn. case_bool_decide; [|done]. unfold detectTemplateType. by repeat case_match. Qed.

Lemma early_spec c res r :
  let '(r', res', ok) := run_stages early_stages c res r in
  r' = r ∧ RToolDefinition res' = RToolDefinition res ∧ (ok = true → AdaptedCode res' = adapted (template_of c) c).
Proof.
  unfold early_stages. cbn [run_stages]. unfold AnalysisStage, AdaptationStage.
  destruct (SPassed (VerificationStage c)); [|done].
  destruct (SPassed _); [|done]. cbn [RTemplateType with_stage with_analysis].
  rewrite !(or_else_l (ATemplateType (analyse c))) by apply template_nonempty.
  cbn [SPassed passed]. destruct (SPassed _); [|done]. by cbn.
Qed.

(** C37: the pipeline reports a candidate as registered exactly when its five stages pass, in
    order.  A candidate with a name then has its generated program as the code of a tool of
    that name, and every other tool is as it was; one without a name is reported as registered
    too, but nothing is stored.  Otherwise no table changes, and the error names the stage
    that failed, which is the last one run.  Holds for a repository whose cached listing
    holds rows of the table, however the listing and the other statements fail. *)
Theorem RunCandidate_spec (c : Candidate) (r : Repo) : current r → keyed r →
  let '(mr, res) := RunCandidate c (Some r) in
  ∃ r', mr = Some r' ∧ current r' ∧
    if Registered res then
      RError res = "" ∧ SName <$> Stages res = stage_names ∧ Forall (λ s, SPassed s = true) (Stages res) ∧
      AdaptedCode res = adapted (template_of c) c ∧
      if bool_decide (Name (ToolDef c) = "") then tables r' = tables r else registered_as (Name (ToolDef c)) (AdaptedCode res) r r'
    else tables r' = tables r ∧ stopped (Stages res) res.
Proof.
  intros Hf Hk. unfold RunCandidate. pose proof (early_spec c (start c) (Some r)) as He.
  assert (Forall2 reports stage_names stages) as Hall.
  { apply (Forall2_app early_reports). repeat constructor. apply register_reports. }
  pose proof (run_stages_report stages stage_names c (start c) (Some r) Hall) as Hrep. unfold stages in *.
  rewrite run_stages_app in *. destruct (run_stages early_stages c (start c) (Some r)) as [[r1 res1] ok1].
  destruct He as (-> & _ & Had). destruct ok1.
  - specialize (Had eq_refl). cbn [run_stages] in *. unfold register in *.
    pose proof (RegistrationStage_spec c res1 r Hf Hk ltac:(rewrite Had; apply adapted_nonempty)) as Hreg.
    destruct (RegistrationStage c res1 (Some r)) as [mr sr]. destruct Hreg as (r' & -> & Hf' & _ & Hreg).
    destruct (SPassed sr); destruct Hrep as (new & Hnew & Hr & Hok).
    + cbn in *. exists r'. destruct Hok as (? & ? & ?). subst new. by split_and!.
    + cbn in *. exists r'. rewrite Hr. subst new. by split_and!.
  - destruct Hrep as (new & Hnew & Hr & Hok). cbn in Hnew, Hr. unfold finish. exists r. rewrite Hr. subst new. by split_and!.
Qed.

(** A suggestion leaves the repository alone, and registering it later does what the run
    of the whole pipeline does at that moment, with the same outcome, provided no
    stage of the suggestion failed; the run stops where the suggestion did. *)
Theorem suggestion_then_registration (tool : ToolDefinition) (r : option Repo) :
  let '(r1, suggested) := RunSuggestion tool r in
  r1 = r ∧
  if bool_decide (RError suggested = "") then
    (Run tool r).1 = (RegisterFromSuggestion suggested r).1 ∧
    (Registered (Run tool r).2 = true ↔ (RegisterFromSuggestion suggested r).2 = None)
  else (Run tool r).1 = r ∧ (Run tool r).2 = suggested.
Proof.
  unfold RunSuggestion, Run, RunCandidate. set (c := {| ToolDef := tool; Code := ""; CTemplateType := "" |}).
  pose proof (early_spec c (start c) r) as He.
  pose proof (run_stages_report _ _ c (start c) r early_reports) as Hrep. unfold stages. rewrite run_stages_app.
  destruct (run_stages early_stages c (start c) r) as [[r1 res1] ok1]. destruct He as (-> & Hdef & _).
  destruct Hrep as (new & _ & Hr & Hok). split; [done|]. destruct ok1; cbn [finish].
  - destruct Hok as (He & _). cbn [finished RError]. rewrite bool_decide_eq_true_2 by done.
    cbn [run_stages]. unfold register, RegisterFromSuggestion. cbn [finished RToolDefinition AdaptedCode].
    rewrite Hdef. change (RToolDefinition (start c)) with tool.
    assert (∀ code, RegistrationStage {| ToolDef := tool; Code := code; CTemplateType := "" |} (finished false res1) r =
                    RegistrationStage c res1 r) as Heq by (intros; by destruct r).
    rewrite Heq. destruct (RegistrationStage c res1 r) as [r2 sr]. destruct (SPassed sr); cbn; [done|]. by rewrite Hr.
  - destruct Hok as (init & sr & _ & _ & _ & He). rewrite bool_decide_eq_false_2; [done|]. by rewrite He.
Qed.
End Pipeline.
End Adaptation.

Module Suggester.
Import Repository.Repository.

Definition exact_name : f64 := f64_lit 95 100.
Definition part_name : f64 := f64_lit 70 100.
Definition part_description : f64 := f64_lit 50 100.

(** The loop over the places where [lowerQuery] fits, from [i] on; [n] places are left. *)
Fixpoint found_from (n : nat) (i : nat) (text query : string) : bool :=
  match n with
  | O => false
  | S n => if bool_decide (str_take (String.length query) (str_drop i text) = query) then true else found_from n (S i) text query
  end.
Definition found (text query : string) : bool :=
  if bool_decide (String.length query ≤ String.length text)%nat
  then found_from (String.length text - String.length query + 1) 0 text query else false.

Definition matchQuality (query name description : string) : f64 * string :=
  if bool_decide (query = "") then (f64_of_int 0, "empty query")
  else if bool_decide (name = query) then (exact_name, "exact tool name match")
  else if bool_decide (description = query) then (part_name, "exact tool description match")
  else if found name query then (part_name, "partial tool name match")
  else if found description query then (part_description, "partial tool description match")
  else (f64_of_int 0, "no match").

Record Suggestion := {
  Query : string; SToolDef : ToolDefinition; Confidence : f64; Reason : string; STemplateType : TemplateType;
}.
Definition suggestion (query : string) (tool : ToolRecord) : option Suggestion :=
  let '(confidence, reason) := matchQuality query (ToName tool) (ToDescription tool) in
  if f64_le confidence (f64_of_int 0) then None
  else Some {| Query := query;
               SToolDef := {| Name := ToName tool; Description := ToDescription tool; InputSchema := [];
                              Version := ToVersion tool; Category := ToCategory tool |};
               Confidence := confidence; Reason := reason; STemplateType := TemplateWrapper |}.
(** [listed]: the answer of the repository's listing. *)
Definition Suggest (query : string) (listed : result string (list ToolRecord)) : result string (list Suggestion) :=
  match listed with
  | Err e => Err ("list tools: " +:+ e)
  | Ok tools => Ok (omap (suggestion query) tools)
  end.

Lemma found_from_spec n i text query :
  found_from n i text query = true ↔
  ∃ j, (i ≤ j < i + n)%nat ∧ str_take (String.length query) (str_drop j text) = query.
Proof.
  revert i. induction n as [|n IH]; intros i; cbn [found_from]; [split; [done|intros (j & ? & _); lia]|].
  case_bool_decide as E.
  - split; [|done]. intros _. exists i. split; [lia|done].
  - rewrite IH. split; intros (j & Hj & Ej); exists j; (split; [|done]); [lia|].
    destruct (decide (j = i)) as [->|]; [done|lia].
Qed.

Lemma str_take_drop_eq n s : str_take n s +:+ str_drop n s = s.
Proof. revert n. induction s as [|c s IH]; intros [|n]; try done. cbn. by rewrite str_app_cons, IH. Qed.

(** The loop over the places of a text are the search for a substring. *)
Theorem found_contains (text query : string) : found text query = str_contains text query.
Proof.
  apply eq_bool_prop_intro. rewrite !Is_true_true, str_contains_iff. unfold found. case_bool_decide as Hl.
  - rewrite found_from_spec. split.
    + intros (j & _ & Ej). exists (str_take j text), (str_drop (String.length query) (str_drop j text)).
      assert (query +:+ str_drop (String.length query) (str_drop j text) = str_drop j text) as ->
        by (rewrite <- Ej at 1; apply str_take_drop_eq).
      by rewrite str_take_drop_eq.
    + intros (a & b & ->). exists (String.length a). split.
      * rewrite !str_length_app. lia.
      * by rewrite str_drop_app_exact, str_take_app_exact.
  - split; [done|]. intros (a & b & ->). rewrite !str_length_app in Hl. lia.
Qed.

(** A tool is suggested exactly when the query is not empty and occurs in its name or in
    its description, letter case included; an exact name scores highest. *)
Theorem suggestion_spec (query : string) (tool : ToolRecord) :
  match suggestion query tool with
  | Some s =>
    query ≠ "" ∧ (str_contains (ToName tool) query || str_contains (ToDescription tool) query = true) ∧
    Name (SToolDef s) = ToName tool ∧ Query s = query ∧ (Confidence s = exact_name ↔ ToName tool = query)
  | None => query = "" ∨ (str_contains (ToName tool) query || str_contains (ToDescription tool) query = false)
  end.
Proof.
  assert (∀ s, str_contains s s = true) as Hself.
  { intros s. apply str_contains_iff. exists "", "". by rewrite str_app_nil_r. }
  unfold suggestion, matchQuality. rewrite !found_contains.
  case_bool_decide; [by left|]. case_bool_decide as En.
  { change (f64_le exact_name (f64_of_int 0)) with false. cbn [fst]. rewrite En, Hself. by split_and!. }
  case_bool_decide as Ed.
  { change (f64_le part_name (f64_of_int 0)) with false. cbn [fst]. rewrite Ed, Hself, orb_true_r. by split_and!. }
  destruct (str_contains (ToName tool) query) eqn:E1.
  { change (f64_le part_name (f64_of_int 0)) with false. cbn. by split_and!. }
  destruct (str_contains (ToDescription tool) query) eqn:E2.
  { change (f64_le part_description (f64_of_int 0)) with false. cbn. by split_and!. }
  change (f64_le (f64_of_int 0) (f64_of_int 0)) with true. by right.
Qed.

(** *** Versions *)
Record VersionSnapshot := { VVersion : string; Tool : ToolDefinition; Timestamp : Time; VReason : string }.
Definition NewVersioningRollback : list VersionSnapshot := [].
Definition Snapshot (now : Time) (tool : ToolDefinition) (reason : string) (vs : list VersionSnapshot) : list VersionSnapshot :=
  vs ++ [{| VVersion := "v" +:+ Itoa (Z.of_nat (length vs) + 1); Tool := tool; Timestamp := now; VReason := reason |}].
Definition ListVersions (vs : list VersionSnapshot) : result string (list VersionSnapshot) :=
  if bool_decide (vs = []) then Err "no versions available" else Ok vs.

Section Rollback.
Context (unicode_quote : string → string).
Definition Rollback (version : string) (vs : list VersionSnapshot) : option string :=
  if bool_decide (version = "") then Some "version required for rollback"
  else if existsb (λ snap, bool_decide (VVersion snap = version)) vs then None
  else Some ("version " +:+ Quote unicode_quote version +:+ " not found").

(** The snapshots that a sequence of calls leaves. *)
Definition snapshots (calls : list (Time * ToolDefinition * string)) : list VersionSnapshot :=
  foldl (λ vs x, Snapshot x.1.1 x.1.2 x.2 vs) NewVersioningRollback calls.

Lemma snapshots_versions calls :
  length (snapshots calls) = length calls ∧
  ∀ i, (i < length calls)%nat → VVersion <$> snapshots calls !! i = Some ("v" +:+ Itoa (Z.of_nat i + 1)).
Proof.
  induction calls as [|x calls [IHl IHv]] using rev_ind; [split; [done|cbn; lia]|].
  assert (∃ e, snapshots (calls ++ [x]) = snapshots calls ++ [e] ∧ VVersion e = "v" +:+ Itoa (Z.of_nat (length calls) + 1))
    as (e & -> & He).
  { unfold snapshots. rewrite foldl_app. cbn [foldl]. eexists. split; [done|]. cbn. fold (snapshots calls). by rewrite IHl. }
  rewrite !length_app, IHl. split; [done|]. intros i Hi. cbn in Hi. destruct (decide (i = length calls)) as [->|].
  - rewrite lookup_app_r, IHl, Nat.sub_diag by (rewrite IHl; lia). cbn. by rewrite He.
  - rewrite lookup_app_l by (rewrite IHl; lia). apply IHv. lia.
Qed.

(** After n snapshots the versions are v1 to vn, and a rollback succeeds for these
    exactly.  (It restores nothing: the snapshots and the tools are as before.) *)
Theorem Rollback_versions (calls : list (Time * ToolDefinition * string)) (version : string) :
  Rollback version (snapshots calls) = None ↔
  ∃ i, 1 ≤ i ≤ Z.of_nat (length calls) ∧ version = "v" +:+ Itoa i.
Proof.
  destruct (snapshots_versions calls) as [Hl Hv]. unfold Rollback. case_bool_decide as Hn.
  { split; [done|]. intros (i & _ & ->). done. }
  destruct (existsb _ _) eqn:E.
  - split; [|done]. intros _. apply existsb_exists in E as (snap & Hin & Hs).
    apply bool_decide_eq_true in Hs. apply list_elem_of_In, list_elem_of_lookup in Hin as [i Hi].
    pose proof (lookup_lt_Some _ _ _ Hi) as Hlt. rewrite Hl in Hlt. specialize (Hv i Hlt). rewrite Hi in Hv.
    injection Hv as Hv. exists (Z.of_nat i + 1). split; [lia|congruence].
  - split; [done|]. intros (i & Hi & ->). apply not_true_iff_false in E. destruct E. apply existsb_exists.
    assert (Z.to_nat (i - 1) < length calls)%nat as Hlt by lia. specialize (Hv _ Hlt).
    destruct (snapshots calls !! Z.to_nat (i - 1)) as [snap|] eqn:Es; [|done]. injection Hv as Hv.
    exists snap. split; [apply list_elem_of_In; by eapply list_elem_of_lookup_2|].
    apply bool_decide_eq_true. rewrite Hv. f_equal. f_equal. lia.
Qed.
End Rollback.
End Suggester.

(** Concrete runs. *)
Module SampleAdaptation.
Import Templates Adaptation Repository.Repository.

Definition sample_def (description : string) : ToolDefinition :=
  {| Name := "word-count"; Description := description; InputSchema := []; Version := ""; Category := "" |}.

Lemma description_injects_witness :
  "func init() { os.RemoveAll(`/`) }" ∈
    lines (generateWrapperTemplate (H := ascii_tables) (λ s, s) "" (sample_def ("x" +:+ nl +:+ "func init() { os.RemoveAll(`/`) }" +:+ nl +:+ "//"))).
Proof.
  exact (proj1 (description_injects (H := ascii_tables) (λ s, s) "" "func init() { os.RemoveAll(`/`) }" "x" "//"
           (sample_def ("x" +:+ nl +:+ "func init() { os.RemoveAll(`/`) }" +:+ nl +:+ "//")) eq_refl eq_refl)).
Defined.

Definition sample_tool : ToolRecord :=
  {| ToID := "t1"; ToName := "word-count"; ToDescription := "counts"; ToCode := "print(42)"; ToCategory := ""; ToVersion := "1";
     ToHealthStatus := "unknown"; ToSourceType := "user" |}.
Definition sample_tables : Tables :=
  {| system_agents := ∅; system_skills := ∅; system_tasks := ∅; system_api_keys := ∅; system_notification_channels := ∅;
     system_chat_history := []; system_chat_sessions := []; ontology_versions := []; system_projects := ∅;
     system_tools := {["t1" := sample_tool]}; kept := no_kept |}.
Definition sample_machine (exit : Z) : Machine :=
  let ran := {| ROut := "{}"; RErr := ""; REnd := Exited exit |} in
  {| MkdirTemp := None; WriteFile _ _ := None; go_build _ := None; go_run _ := ran; python_run _ := ran |}.
Definition sample_db : Db := {| at_ := 0; list_answer := Rows (λ _, true) None; code_ok := true; health_ok := true; create_ok := true |}.
Definition sample_run (exit : Z) : option Repo * AdaptationResult :=
  RunCandidate (H := ascii_tables) (H0 := ascii_fold_tables) (λ s, s) (λ _, Some [quote "encoding/json"; quote "fmt"; quote "os"])
    (λ _, "blocked") (λ _, "database error") (λ _, "1s") (λ _, []) (sample_machine exit) sample_db (λ _ _, Err "")
    {| ToolDef := sample_def "counts"; Code := "print(42)"; CTemplateType := "" |} (Some (NewMetadataRepository sample_tables)).

Lemma sample_current : current (NewMetadataRepository sample_tables).
Proof. intros e. cbn. by rewrite lookup_empty. Qed.
Lemma sample_keyed : keyed (NewMetadataRepository sample_tables).
Proof. intros id t. cbn. by intros [<- <-]%lookup_singleton_Some. Qed.

(** The tool with the id t1 ran a program; adapting it leaves it with a stub. *)
Lemma RunCandidate_spec_witness :
  Registered (sample_run 0).2 = true ∧ Registered (sample_run 1).2 = false ∧
  (∃ r', (sample_run 1).1 = Some r' ∧ tables r' = sample_tables) ∧
  ∃ r', (sample_run 0).1 = Some r' ∧ registered_as "word-count" (AdaptedCode (sample_run 0).2) (NewMetadataRepository sample_tables) r'.
Proof.
  pose proof (λ exit, RunCandidate_spec (H := ascii_tables) (H0 := ascii_fold_tables) (λ s, s)
      (λ _, Some [quote "encoding/json"; quote "fmt"; quote "os"])
      (λ _, "blocked") (λ _, "database error") (λ _, "1s") (λ _, []) (sample_machine exit) sample_db (λ _ _, Err "")
      {| ToolDef := sample_def "counts"; Code := "print(42)"; CTemplateType := "" |} (NewMetadataRepository sample_tables)
      sample_current sample_keyed) as Hrun.
  assert (Registered (sample_run 0).2 = true) as H0 by (vm_compute; reflexivity).
  assert (Registered (sample_run 1).2 = false) as H1 by (vm_compute; reflexivity).
  fold (sample_run 0) in Hrun. split_and!; [exact H0|exact H1| |].
  - specialize (Hrun 1). fold (sample_run 1) in Hrun. destruct (sample_run 1) as [mr res]. cbn [snd fst] in *. rewrite H1 in Hrun.
    destruct Hrun as (r' & -> & _ & Ht & _). exists r'. split; [reflexivity|exact Ht].
  - specialize (Hrun 0). fold (sample_run 0) in Hrun. destruct (sample_run 0) as [mr res]. cbn [snd fst] in *. rewrite H0 in Hrun.
    destruct Hrun as (r' & -> & _ & _ & _ & _ & _ & Hreg). exists r'. split; [reflexivity|exact Hreg].
Defined.
End SampleAdaptation.
