(* ===== verification/Memory.v ===== *)
(** * Embedding-augmented memory (internal/memory)

    Module [Chunks]: the overlapping pieces of a text (embed.go).  Module [Embedder]: the
    cache of embeddings over the queue of [EmbedCache], the requests to the embedding
    service and the embedding of a text piece by piece (embed.go).  Module
    [MemoryStore]: the table of the store, made on first use, and its operations
    (memory.go).  The type of float32 numbers and their texts, the service and the
    outcome of statements are parameters. *)

From S2P Require Import Prelude GoStrings GoValues GoText SafeIdent Caches GoJson.

Module Chunks.

Definition chunkSize : nat := 512.
Definition chunkOverlap : nat := 128.

Section Chunks.
Context {A : Type}.

(** The loop, from a start on. *)
Fixpoint chunk_from (fuel start : nat) (words : list A) : list (list A) :=
  match fuel with
  | O => []
  | S fuel =>
    if bool_decide (start < length words)%nat then
      let e := Nat.min (start + chunkSize) (length words) in
      take (e - start) (drop start words) ::
      (if bool_decide (e = length words) then [] else chunk_from fuel (e - chunkOverlap) words)
    else []
  end.
Definition chunks (words : list A) : list (list A) := chunk_from (length words) 0 words.

(** The pieces put together again, their overlaps taken once. *)
Definition assembled (cs : list (list A)) : list A :=
  match cs with [] => [] | c :: cs => c ++ concat (drop chunkOverlap <$> cs) end.

Lemma chunk_from_spec fuel start words : (length words ≤ start + fuel)%nat → (start < length words)%nat →
  assembled (chunk_from fuel start words) = drop start words ∧
  ∀ i c, chunk_from fuel start words !! i = Some c →
    c = take chunkSize (drop (start + i * (chunkSize - chunkOverlap)) words) ∧
    (start + i * (chunkSize - chunkOverlap) < length words)%nat.
Proof.
  unfold chunkSize, chunkOverlap. revert start. induction fuel as [|fuel IH]; intros start Hf Hs; [lia|].
  cbn [chunk_from]. unfold chunkSize, chunkOverlap. rewrite bool_decide_eq_true_2 by done.
  assert (take (Nat.min (start + 512) (length words) - start) (drop start words) = take 512 (drop start words)) as Et.
  { destruct (decide (start + 512 ≤ length words)%nat).
    - f_equal. lia.
    - rewrite !take_ge; [done|rewrite length_drop; lia..]. }
  case_bool_decide as He.
  - split.
    + cbn. rewrite app_nil_r, take_ge; [done|]. rewrite length_drop. lia.
    + intros [|i] c; [|done]. intros [= <-]. rewrite Nat.add_0_r. by split.
  - assert (Nat.min (start + 512) (length words) - 128 = start + 384)%nat as -> by lia.
    destruct (IH (start + 384)%nat) as [Ha Hi]; [lia|lia|]. split.
    + rewrite Et. cbn [assembled]. destruct (chunk_from fuel (start + 384) words) as [|c cs] eqn:Ec.
      { cbn in Ha. symmetry in Ha. apply (f_equal length) in Ha. rewrite length_drop in Ha. cbn in Ha. lia. }
      destruct (Hi 0%nat c eq_refl) as [Hc _]. cbn [assembled fmap list_fmap concat] in *. unfold chunkOverlap in *.
      rewrite <- (drop_app_le c), Ha.
      * rewrite drop_drop. rewrite <- (take_drop 512 (drop start words)) at 2. rewrite drop_drop. do 2 f_equal. lia.
      * rewrite Hc, length_take, length_drop. lia.
    + intros [|i] c; cbn [lookup list_lookup].
      * intros [= <-]. rewrite Et. rewrite Nat.add_0_r. by split.
      * intros Hc. destruct (Hi i c Hc) as [-> Hl]. split; [f_equal; f_equal; lia|lia].
Qed.

(** C17: the pieces of a text cover it: put together with each overlap taken once they are
    its words again; the i-th piece is the (at most) 512 words from word 384 i on, and
    no piece is empty. *)
Theorem chunks_cover (words : list A) :
  assembled (chunks words) = words ∧
  ∀ i c, chunks words !! i = Some c →
    c = take chunkSize (drop (i * (chunkSize - chunkOverlap)) words) ∧ (0 < length c ≤ chunkSize)%nat.
Proof.
  unfold chunks. destruct words as [|w words]; [done|].
  destruct (chunk_from_spec (length (w :: words)) 0 (w :: words)) as [Ha Hi]; [cbn; lia|cbn; lia|].
  split; [exact Ha|]. intros i c Hc. destruct (Hi i c Hc) as [-> Hl]. rewrite Nat.add_0_l in *.
  split; [done|]. rewrite length_take, length_drop. unfold chunkSize in *. lia.
Qed.
End Chunks.

Definition Chunk `{UnicodeFold} (text : string) : list string := str_join " " <$> chunks (Fields text).
End Chunks.

Module Embedder.
Import EmbedCache.

Record cacheEntry {F : Type} := { embedding : list F; expiresAt : Time }.
Arguments cacheEntry : clear implicits.

Section Embedder.
Context {F : Type} `{Unicode} `{UnicodeFold}.

Record embeddingCache := { queue : embedCache (V := cacheEntry F); ttl : Duration }.
Definition newEmbeddingCache (size : Z) (d : Duration) : embeddingCache :=
  {| queue := {| entries := ∅; order := []; maxSize := if bool_decide (size ≤ 0) then 1000 else size |};
     ttl := if bool_decide (d ≤ 0) then 5 * minute else d |}.

Definition normalizeKey (text : string) : string := TrimSpace (ToLower text).

Definition get (now : Time) (key : string) (c : embeddingCache) : option (list F) :=
  match EmbedCache.get key (queue c) with
  | Some e => if time_after now (expiresAt e) then None else Some (embedding e)
  | None => None
  end.
Definition put (now : Time) (key : string) (emb : list F) (c : embeddingCache) : embeddingCache :=
  {| queue := EmbedCache.put key {| embedding := emb; expiresAt := now + ttl c |} (queue c); ttl := ttl c |}.

Record Embedder_ := { baseURL : string; model : string; cache : embeddingCache; requests : list (string * string) }.

(** The positive number an environment variable holds, if it does. *)
Definition positive_env (v : string) (dflt : Z) : Z :=
  match Atoi v with Some n => if bool_decide (0 < n) then n else dflt | None => dflt end.
Definition NewEmbedder (Getenv : string → string) (baseURL model : string) : Embedder_ :=
  {| baseURL := trim_right_set "/" baseURL;
     model := if bool_decide (model = "") then "nomic-embed-text" else model;
     cache := newEmbeddingCache (positive_env (Getenv "EMBEDDING_CACHE_SIZE") 1000)
       (match Atoi (Getenv "EMBEDDING_CACHE_TTL_SECONDS") with
        | Some n => if bool_decide (0 < n) then wrap64 (n * second) else 5 * minute
        | None => 5 * minute end);
     requests := [] |}.

Inductive embed_error :=
| EmbedRequest (e : string)
| EmbedStatus (code : Z) (body : string)
| EmbedDecode (e : string)
| EmbedEmpty
| EmptyInput.

(** What the service answers to a request, given by its URL and body and the requests
    before it: an error, or a status and a body; and the vector a body holds. *)
Context (service : list (string * string) → string * string → result string (Z * string)).
Context (decode : string → result string (list F)).

Definition embed_body (e : Embedder_) (text : string) : string :=
  Json.Marshal (Json.JObj [("model", Json.JStr (model e)); ("prompt", Json.JStr text)]).
Definition answer (r : result string (Z * string)) : result embed_error (list F) :=
  match r with
  | Err x => Err (EmbedRequest x)
  | Ok (status, body) =>
    if bool_decide (status = 200) then
      match decode body with
      | Err x => Err (EmbedDecode x)
      | Ok [] => Err EmbedEmpty
      | Ok v => Ok v
      end
    else Err (EmbedStatus status body)
  end.

Definition Embed (now : Time) (text : string) (e : Embedder_) : Embedder_ * result embed_error (list F) :=
  let key := normalizeKey text in
  match get now key (cache e) with
  | Some v => (e, Ok v)
  | None =>
    let req := (baseURL e +:+ "/api/embeddings", embed_body e text) in
    let sent := requests e ++ [req] in
    match answer (service (requests e) req) with
    | Err x => ({| baseURL := baseURL e; model := model e; cache := cache e; requests := sent |}, Err x)
    | Ok v => ({| baseURL := baseURL e; model := model e; cache := put now key v (cache e); requests := sent |}, Ok v)
    end
  end.

(** The loop over the pieces; [clock i] is the time of the i-th. *)
Fixpoint embed_chunks (clock : nat → Time) (i : nat) (chunks : list string) (e : Embedder_) : Embedder_ * list (string * list F) :=
  match chunks with
  | [] => (e, [])
  | chunk :: rest =>
    let '(e, r) := Embed (clock i) chunk e in
    let '(e, l) := embed_chunks clock (S i) rest e in
    (e, match r with Ok v => (chunk, v) :: l | Err _ => l end)
  end.
Definition ProcessText (clock : nat → Time) (text : string) (e : Embedder_) :
    Embedder_ * result embed_error (list string * list (list F)) :=
  let chunks := Chunks.Chunk text in
  if bool_decide (chunks = []) then (e, Err EmptyInput)
  else let '(e, l) := embed_chunks clock 0 chunks e in (e, Ok (l.*1, l.*2)).

(** *** Caching *)
Lemma put_get now later key v c : later ≤ now + ttl c → get later key (put now key v c) = Some v.
Proof.
  intros Hl. unfold get, put, EmbedCache.get, EmbedCache.put. cbn [queue].
  destruct (entries (queue c) !! key); [|destruct (evict _ _ _)]; cbn [entries]; rewrite lookup_insert_eq;
    cbn [expiresAt embedding]; (replace (time_after later _) with false; [done|]); symmetry; apply bool_decide_eq_false_2; lia.
Qed.

(** An embedding that was fetched answers every text with the same key until it
    expires, without a request; the key forgets letter case, so the text ABC is
    answered with the embedding of abc. *)
Theorem Embed_cached (now later : Time) (text text' : string) (e e' : Embedder_) (v : list F) :
  get now (normalizeKey text) (cache e) = None → Embed now text e = (e', Ok v) →
  normalizeKey text' = normalizeKey text → later ≤ now + ttl (cache e) →
  length (requests e') = S (length (requests e)) ∧ Embed later text' e' = (e', Ok v).
Proof.
  intros Hg He Hk Hl. unfold Embed in He. rewrite Hg in He.
  destruct (answer _) as [w|x] eqn:Ea; [|done]. injection He as <- <-.
  cbn [requests]. rewrite length_app. cbn. split; [lia|].
  unfold Embed. cbn [cache]. rewrite Hk, put_get by done. done.
Qed.

Lemma Embed_requests now text e : (length (requests (Embed now text e).1) ≤ S (length (requests e)))%nat.
Proof.
  unfold Embed. destruct (get _ _ _); [cbn; lia|]. destruct (answer _); cbn [fst requests]; rewrite length_app; cbn; lia.
Qed.

Lemma embed_chunks_spec clock i chunks e :
  sublist (embed_chunks clock i chunks e).2.*1 chunks ∧
  (length (requests (embed_chunks clock i chunks e).1) ≤ length (requests e) + length chunks)%nat.
Proof.
  revert i e. induction chunks as [|c chunks IH]; intros i e; cbn [embed_chunks]; [split; [done|cbn; lia]|].
  pose proof (Embed_requests (clock i) c e) as Hr.
  destruct (Embed _ c e) as [e1 r]. specialize (IH (S i) e1). destruct (embed_chunks clock (S i) chunks e1) as [e2 l].
  cbn [fst snd length] in *. destruct IH as [IHs IHr]. split; [|lia].
  destruct r; [by apply sublist_skip|by apply sublist_cons].
Qed.

Lemma Chunk_empty text : Chunks.Chunk text = [] ↔ Fields text = [].
Proof.
  unfold Chunks.Chunk, Chunks.chunks. destruct (Fields text) as [|w ws]; [done|].
  cbn [length Chunks.chunk_from]. by rewrite (bool_decide_eq_true_2 (0 < _)%nat) by lia.
Qed.

(** The pieces that are returned are pieces of the text in their order, as many as there
    are vectors, after at most one request for each piece of the text; pieces whose
    embedding fails are left out.  The only error is that of a text without words. *)
Theorem ProcessText_aligned (clock : nat → Time) (text : string) (e : Embedder_) :
  let '(e', r) := ProcessText clock text e in
  (length (requests e') ≤ length (requests e) + length (Chunks.Chunk text))%nat ∧
  match r with
  | Ok (chunks, vectors) => length chunks = length vectors ∧ sublist chunks (Chunks.Chunk text) ∧ Fields text ≠ []
  | Err x => x = EmptyInput ∧ Fields text = []
  end.
Proof.
  unfold ProcessText. case_bool_decide as Hc.
  - rewrite Hc. split; [cbn; lia|]. split; [done|]. by apply Chunk_empty.
  - pose proof (embed_chunks_spec clock 0 (Chunks.Chunk text) e) as [Hs Hr].
    destruct (embed_chunks _ _ _ e) as [e' l]. cbn [fst snd] in *. split_and!; [done|by rewrite !length_fmap|done|].
    by rewrite <- Chunk_empty.
Qed.
End Embedder.
End Embedder.

Module MemoryStore.
Import SafeIdent.SafeIdent.

(** [LIKE] on the characters of a pattern and a text. *)
Fixpoint like (p : list string) : list string → bool :=
  match p with
  | [] => λ s, bool_decide (s = [])
  | c :: p =>
    if bool_decide (c = "%") then
      fix any s := like p s || match s with [] => false | _ :: s => any s end
    else λ s, match s with
              | [] => false
              | d :: s => (bool_decide (c = "_") || bool_decide (c = d)) && like p s
              end
  end.

Definition expectedEmbedDim : Z := 768.

Section MemoryStore.
Context {F : Type} `{Unicode} (fmt_g : F → string).

Record row := { Value : string; Embedding : list F }.
(** The run of the initialisation: not yet, or with its error. *)
Inductive once := NotYet | Done (e : option string).
Record MemoryStore := { schema : string; dim : Z; init : once; table : option (gmap string row); log : list string }.

Definition with_init (i : once) (m : MemoryStore) : MemoryStore :=
  {| schema := schema m; dim := dim m; init := i; table := table m; log := log m |}.
Definition with_table (t : option (gmap string row)) (m : MemoryStore) : MemoryStore :=
  {| schema := schema m; dim := dim m; init := init m; table := t; log := log m |}.

(** [has_db]: the database is not nil; [t]: the table it has; [ident_text]: the text of an error. *)
Definition NewMemoryStore (ident_text : ident_error → string) (has_db : bool) (t : option (gmap string row)) (schema : string) (dim : Z) : result string MemoryStore :=
  if negb has_db then Err "memory: db is nil"
  else if bool_decide (dim ≤ 0) then Err ("memory: embedding dimension must be positive, got " +:+ Itoa dim)
  else match (if bool_decide (schema = "") then None else ValidateIdentifier schema) with
  | Some e => Err ("memory: invalid schema name: " +:+ ident_text e)
  | None => Ok {| schema := schema; dim := dim; init := NotYet; table := t; log := [] |}
  end.

Definition tableName (m : MemoryStore) : string :=
  if bool_decide (schema m = "") then "memory_store" else QuoteIdentifier (schema m) +:+ ".memory_store".
Definition arrayLiteral (m : MemoryStore) (embedding : list F) : string :=
  if bool_decide (length embedding = 0%nat) then "CAST(ARRAY[] AS FLOAT[" +:+ Itoa (dim m) +:+ "])"
  else "[" +:+ str_join "," (fmt_g <$> embedding) +:+ "]::FLOAT[" +:+ Itoa (dim m) +:+ "]".

Definition create_sql (m : MemoryStore) : string := "CREATE TABLE IF NOT EXISTS " +:+ tableName m +:+ " (
			key VARCHAR PRIMARY KEY,
			value BLOB,
			embedding FLOAT[" +:+ Itoa (dim m) +:+ "],
			created_at TIMESTAMP DEFAULT CURRENT_TIMESTAMP,
			updated_at TIMESTAMP DEFAULT CURRENT_TIMESTAMP
		)".
Definition delete_sql (m : MemoryStore) : string := "DELETE FROM " +:+ tableName m +:+ " WHERE key = ?".
Definition insert_sql (m : MemoryStore) (embedding : list F) : string :=
  "INSERT INTO " +:+ tableName m +:+ " (key, value, embedding) VALUES (?, ?, " +:+ arrayLiteral m embedding +:+ ")".

(** The error of a statement, given the statements before it; the errors of a missing table
    and of a key that exists; the error of the context if it ends a wait. *)
Context (db_error : list string → string → option string) (no_table duplicate_key : string).
Context (cancelled : nat → option string).

(** A statement runs, or fails and changes nothing; [eff] is its effect on the table. *)
Definition ExecContext (sql : string) (eff : option (gmap string row) → result string (option (gmap string row)))
    (m : MemoryStore) : MemoryStore * option string :=
  let m' := {| schema := schema m; dim := dim m; init := init m; table := table m; log := log m ++ [sql] |} in
  match db_error (log m) sql with
  | Some e => (m', Some e)
  | None => match eff (table m) with Err e => (m', Some e) | Ok t => (with_table t m', None) end
  end.
Definition on_rows (f : gmap string row → result string (gmap string row)) (t : option (gmap string row)) :
    result string (option (gmap string row)) :=
  match t with None => Err no_table | Some rows => match f rows with Ok rows => Ok (Some rows) | Err e => Err e end end.
Definition create_table (m : MemoryStore) : MemoryStore * option string :=
  ExecContext (create_sql m) (λ t, Ok (Some (default ∅ t))) m.
Definition delete_key (key : string) (m : MemoryStore) : MemoryStore * option string :=
  ExecContext (delete_sql m) (on_rows (λ rows, Ok (delete key rows))) m.
Definition insert_key (key value : string) (embedding : list F) (m : MemoryStore) : MemoryStore * option string :=
  ExecContext (insert_sql m embedding)
    (on_rows (λ rows, if bool_decide (rows !! key = None) then Ok (<[key := {| Value := value; Embedding := embedding |}]> rows)
                      else Err duplicate_key)) m.

(** The attempts of the initialisation from one on; [more] follow it. *)
Fixpoint attempts (more attempt : nat) (m : MemoryStore) : MemoryStore * option string :=
  match create_table m with
  | (m, None) => (m, None)
  | (m, Some e) =>
    match more with
    | O => (m, Some e)
    | S more => match cancelled attempt with Some e => (m, Some e) | None => attempts more (S attempt) m end
    end
  end.
Definition ensureTable (m : MemoryStore) : MemoryStore * option string :=
  match init m with
  | Done e => (m, e)
  | NotYet => let '(m, e) := attempts 2 1 m in (with_init (Done e) m, e)
  end.

(** An operation behind the initialisation. *)
Definition ensured {A} (k : MemoryStore → MemoryStore * result string A) (m : MemoryStore) : MemoryStore * result string A :=
  match ensureTable m with (m, Some e) => (m, Err e) | (m, None) => k m end.

Fixpoint store_attempts (n : nat) (key value : string) (embedding : list F) (m : MemoryStore) : MemoryStore * result string unit :=
  match n with
  | O => (m, Err "memory Store: failed after 3 retries")
  | S n =>
    match delete_key key m with
    | (m, Some e) => (m, Err ("memory Store delete: " +:+ e))
    | (m, None) =>
      match insert_key key value embedding m with
      | (m, None) => (m, Ok tt)
      | (m, Some _) => store_attempts n key value embedding m
      end
    end
  end.
Definition Store (key value : string) (embedding : list F) : MemoryStore → MemoryStore * result string unit :=
  ensured (store_attempts 3 key value embedding).

(** A query does not change the table: its rows, or the error of the database. *)
Definition QueryContext {A} (sql : string) (rows : gmap string row → result string A) (m : MemoryStore) : MemoryStore * result string A :=
  ({| schema := schema m; dim := dim m; init := init m; table := table m; log := log m ++ [sql] |},
   match db_error (log m) sql, table m with
   | Some e, _ => Err e
   | None, None => Err no_table
   | None, Some t => rows t
   end).
Definition wrapped {A} (what : string) (x : MemoryStore * result string A) : MemoryStore * result string A :=
  match x with (m, Err e) => (m, Err (what +:+ e)) | (m, Ok a) => (m, Ok a) end.

Definition Get (key : string) (m : MemoryStore) : MemoryStore * option string :=
  let '(m, r) := QueryContext ("SELECT value FROM " +:+ tableName m +:+ " WHERE key = ?") (λ t, Ok (Value <$> t !! key)) m in
  (m, match r with Ok v => v | Err _ => None end).
Definition Delete (key : string) : MemoryStore → MemoryStore * result string unit :=
  ensured (λ m, match delete_key key m with
                | (m, Some e) => (m, Err ("memory Delete: " +:+ e))
                | (m, None) => (m, Ok tt)
                end).

(** The rows of a [LIMIT]. *)
Definition limited {A} (limit offset : Z) (l : list A) : result string (list A) :=
  if bool_decide (limit < 0 ∨ offset < 0) then Err "LIMIT/OFFSET cannot be negative"
  else Ok (take (Z.to_nat limit) (drop (Z.to_nat offset) l)).

(** [key_le]: the order of keys; [driver]: the elements the driver makes of a vector. *)
Context (key_le : string → string → Prop) `{!RelDecision key_le}.
Inductive element := Float32 (x : F) | Float64 (x : f64) | OtherElement (t : string).
Context (driver : list F → list element) (float32 : f64 → F).
Record MemEntry := { EKey : string; EValue : string; EEmbedding : list F }.

Fixpoint read_elements (i : Z) (l : list element) : result string (list F) :=
  match l with
  | [] => Ok []
  | OtherElement t :: _ => Err ("memory List scan: unexpected embedding element type " +:+ t +:+ " at index " +:+ Itoa i)
  | Float32 x :: l => match read_elements (i + 1) l with Ok v => Ok (x :: v) | Err e => Err e end
  | Float64 x :: l => match read_elements (i + 1) l with Ok v => Ok (float32 x :: v) | Err e => Err e end
  end.
Fixpoint read_rows (l : list (string * row)) : result string (list MemEntry) :=
  match l with
  | [] => Ok []
  | (k, r) :: l =>
    match read_elements 0 (driver (Embedding r)) with
    | Err e => Err e
    | Ok v => match read_rows l with Err e => Err e | Ok es => Ok ({| EKey := k; EValue := Value r; EEmbedding := v |} :: es) end
    end
  end.
Definition by_key (a b : string * row) : Prop := key_le a.1 b.1.
#[global] Instance by_key_dec a b : Decision (by_key a b).
Proof. unfold by_key. apply _. Defined.
Definition ListMem (limit offset : Z) : MemoryStore → MemoryStore * result string (list MemEntry) :=
  ensured (λ m,
    match wrapped "memory List: "
      (QueryContext ("SELECT key, value, embedding FROM " +:+ tableName m +:+ " ORDER BY key LIMIT ? OFFSET ?")
         (λ t, limited limit offset (merge_sort by_key (map_to_list t))) m) with
    | (m, Err e) => (m, Err e)
    | (m, Ok rows) => (m, read_rows rows)
    end).

Record SearchResult := { Key : string; SValue : string; Score : f64 }.

(** [ranked]: the rows with their similarity to a vector, the most similar first. *)
Context (ranked : list F → gmap string row → list SearchResult).
Definition Search (query : list F) (limit : Z) : MemoryStore → MemoryStore * result string (list SearchResult) :=
  ensured (λ m, wrapped "memory Search: "
    (QueryContext ("SELECT key, value, array_cosine_similarity(embedding, " +:+ arrayLiteral m query +:+ ") AS score FROM "
                   +:+ tableName m +:+ " ORDER BY score DESC LIMIT ?")
       (λ t, limited limit 0 (ranked query t)) m)).

(** [blob_text]: the text of a blob; [scan]: the rows in the order the database reads them. *)
Context (blob_text : string → string) (scan : gmap string row → list (string * row)).
Definition ilike (query text : string) : bool := like ("%" :: runes (ToLower query) ++ ["%"]) (runes (ToLower text)).
Definition SearchText (query : string) (limit : Z) : MemoryStore → MemoryStore * result string (list SearchResult) :=
  ensured (λ m, wrapped "memory SearchText: "
    (QueryContext ("SELECT key, value FROM " +:+ tableName m +:+
                   " WHERE key ILIKE '%' || ? || '%' OR value::VARCHAR ILIKE '%' || ? || '%' LIMIT ?")
       (λ t, limited limit 0 ((λ kr, {| Key := kr.1; SValue := Value kr.2; Score := f64_of_int 0 |}) <$>
               filter (λ kr, ilike query kr.1 || ilike query (blob_text (Value kr.2)) = true) (scan t))) m)).
Definition Close (m : MemoryStore) : MemoryStore * option string := (m, None).

(** *** Storing *)
Definition rows (m : MemoryStore) : gmap string row := default ∅ (table m).

Lemma Exec_rows sql eff m :
  match ExecContext sql eff m with
  | (m', None) => eff (table m) = Ok (table m')
  | (m', Some _) => table m' = table m
  end.
Proof. unfold ExecContext. destruct (db_error _ _); [done|]. by destruct (eff (table m)). Qed.

Lemma delete_key_rows key m :
  match delete_key key m with
  | (m', None) => is_Some (table m') ∧ rows m' = delete key (rows m)
  | (m', Some _) => table m' = table m
  end.
Proof.
  unfold delete_key. match goal with |- context [ExecContext ?s ?e m] => pose proof (Exec_rows s e m) as He end.
  destruct (ExecContext _ _ m) as [m' [x|]]; [done|]. unfold on_rows, rows in *.
  destruct (table m) as [t|]; [|done]. injection He as <-. by split.
Qed.
Lemma insert_key_rows key value emb m :
  match insert_key key value emb m with
  | (m', None) => is_Some (table m') ∧ rows m' = <[key := {| Value := value; Embedding := emb |}]> (rows m)
  | (m', Some _) => table m' = table m
  end.
Proof.
  unfold insert_key. match goal with |- context [ExecContext ?s ?e m] => pose proof (Exec_rows s e m) as He end.
  destruct (ExecContext _ _ m) as [m' [x|]]; [done|]. unfold on_rows, rows in *.
  destruct (table m) as [t|]; [|done]. case_bool_decide; [|done]. injection He as <-. by split.
Qed.

Lemma create_table_rows m : rows (create_table m).1 = rows m.
Proof.
  unfold create_table. match goal with |- context [ExecContext ?s ?e m] => pose proof (Exec_rows s e m) as He end.
  destruct (ExecContext _ _ m) as [m' [x|]]; cbn [fst] in *; unfold rows; [by rewrite He|]. by injection He as <-.
Qed.
Lemma ensureTable_rows m : rows (ensureTable m).1 = rows m.
Proof.
  assert (∀ n a m, rows (attempts n a m).1 = rows m) as Ha.
  { clear m. intros n. induction n as [|n IH]; intros a m; cbn [attempts]; pose proof (create_table_rows m) as Hc;
      destruct (create_table m) as [m' [e|]]; cbn [fst] in *; try done.
    destruct (cancelled a); [done|]. by rewrite IH. }
  unfold ensureTable. destruct (init m); [|done]. specialize (Ha 2%nat 1%nat m). by destruct (attempts 2 1 m).
Qed.

Definition stored (key value : string) (emb : list F) (m : MemoryStore) (x : MemoryStore * result string unit) : Prop :=
  let '(m', r) := x in
  delete key (rows m') = delete key (rows m) ∧
  match r with
  | Ok _ => is_Some (table m') ∧ rows m' !! key = Some {| Value := value; Embedding := emb |}
  | Err _ => rows m' !! key = rows m !! key ∨ rows m' !! key = None
  end.

Lemma store_attempts_spec n key value emb m : stored key value emb m (store_attempts n key value emb m).
Proof.
  assert (∀ m m', rows m' = delete key (rows m) → ∀ x, stored key value emb m' x → stored key value emb m x) as Hstep.
  { intros m1 m2 Hr [m3 r] [Hd Hs]. split; [by rewrite Hd, Hr, delete_delete_eq|].
    destruct r; [done|]. right. destruct Hs as [->|]; [by rewrite Hr, lookup_delete_eq|done]. }
  revert m. induction n as [|n IH]; intros m; cbn [store_attempts]; [split; auto|].
  pose proof (delete_key_rows key m) as Hd. destruct (delete_key key m) as [m1 [e|]].
  { split; unfold rows; rewrite Hd; auto. }
  destruct Hd as [_ Hd]. apply (Hstep m m1 Hd). pose proof (insert_key_rows key value emb m1) as Hi.
  destruct (insert_key key value emb m1) as [m2 [e|]].
  - pose proof (IH m2) as H2. unfold stored in *. destruct (store_attempts n key value emb m2) as [m3 r].
    unfold rows in *. by rewrite Hi in H2.
  - destruct Hi as [Ht Hi]. split; [by rewrite Hi, delete_insert_eq|]. split; [done|]. by rewrite Hi, lookup_insert_eq.
Qed.

(** A store that succeeds leaves the value and the vector under the key, where they are
    read again; one that fails leaves the entry as it was or removes it; the other
    entries stay as they were. *)
Theorem Store_spec (key value : string) (emb : list F) (m : MemoryStore) :
  let '(m', r) := Store key value emb m in
  delete key (rows m') = delete key (rows m) ∧
  match r with
  | Ok _ =>
    rows m' !! key = Some {| Value := value; Embedding := emb |} ∧
    (Get key m').2 = (if db_error (log m') ("SELECT value FROM " +:+ tableName m' +:+ " WHERE key = ?") then None else Some value)
  | Err _ => rows m' !! key = rows m !! key ∨ rows m' !! key = None
  end.
Proof.
  unfold Store, ensured. pose proof (ensureTable_rows m) as He. destruct (ensureTable m) as [m1 [e|]]; cbn [fst] in He.
  { rewrite He. auto. }
  pose proof (store_attempts_spec 3 key value emb m1) as Hs. unfold stored in Hs.
  destruct (store_attempts 3 key value emb m1) as [m2 r]. rewrite He in Hs. destruct Hs as [Hd Hs]. split; [done|].
  destruct r; [|done]. destruct Hs as [[t Ht] Hs]. split; [done|]. unfold Get, QueryContext. cbn [snd].
  unfold rows in Hs. rewrite Ht in *. cbn in Hs. destruct (db_error _ _); [done|]. by rewrite Hs.
Qed.

(** When inserting fails, the old value is gone: the entry was deleted before. *)
Theorem Store_loses (key value e : string) (emb : list F) (m : MemoryStore) (t : gmap string row) :
  init m = Done None → table m = Some t →
  (∀ l, db_error l (delete_sql m) = None) → (∀ l, db_error l (insert_sql m emb) = Some e) →
  let '(m', r) := Store key value emb m in
  r = Err "memory Store: failed after 3 retries" ∧ table m' = Some (delete key t).
Proof.
  intros Hi Ht Hdel Hins. unfold Store, ensured, ensureTable. rewrite Hi.
  assert (∀ n m1 t1, schema m1 = schema m → dim m1 = dim m → table m1 = Some t1 → delete key t1 = delete key t →
    (0 < n)%nat → let '(m', r) := store_attempts n key value emb m1 in
    r = Err "memory Store: failed after 3 retries" ∧ table m' = Some (delete key t)) as Hn; [|by apply (Hn 3%nat m t); [..|lia]].
  intros n. induction n as [|n IH]; intros m1 t1 Hs Hm H1 Ht1 Hn; [lia|]. cbn [store_attempts].
  assert (delete_sql m1 = delete_sql m) as E1 by (unfold delete_sql, tableName; by rewrite Hs).
  unfold delete_key, ExecContext. rewrite E1, Hdel, H1. cbn [on_rows].
  set (m2 := with_table _ _).
  assert (insert_sql m2 emb = insert_sql m emb) as E2
    by (unfold insert_sql, arrayLiteral, tableName; cbn [m2 with_table schema dim]; by rewrite Hs, Hm).
  unfold insert_key, ExecContext. rewrite E2, Hins.
  destruct n as [|n]; [cbn; by rewrite Ht1|]. apply (IH _ (delete key t1)); cbn; [done|done|done| |lia].
  by rewrite delete_delete_eq, Ht1.
Qed.
End MemoryStore.

(** *** Pages *)
Section Reading.
Context `{Unicode}.

(** A page and the page that follows it are one page: reading the store in pages gives
    every entry once, in the order of the keys. *)
Theorem limited_pages {A} (l : list A) (n k offset : Z) : 0 ≤ n → 0 ≤ k → 0 ≤ offset →
  ∃ a b, limited n offset l = Ok a ∧ limited k (offset + n) l = Ok b ∧ limited (n + k) offset l = Ok (a ++ b).
Proof.
  intros Hn Hk Ho. unfold limited. rewrite !bool_decide_eq_false_2 by lia. eexists _, _. split_and!; [done|done|].
  f_equal. rewrite !Z2Nat.inj_add by lia. rewrite <- drop_drop.
  generalize (drop (Z.to_nat offset) l). intros d. rewrite <- (take_drop (Z.to_nat n) (take _ d)).
  rewrite take_take, take_drop_commute. do 2 f_equal. lia.
Qed.

(** *** Text search *)
Lemma like_any p s : like ("%" :: p) s = true ↔ ∃ a b, s = a ++ b ∧ like p b = true.
Proof.
  cbn [like]. rewrite bool_decide_eq_true_2 by done. induction s as [|c s IH].
  - rewrite orb_false_r. split; [by exists [], []|]. intros (a & b & [-> ->]%eq_sym%app_eq_nil & Hb). done.
  - rewrite orb_true_iff, IH. split.
    + intros [Hp|(a & b & -> & Hb)]; [by exists [], (c :: s)|by exists (c :: a), b].
    + intros (a & b & E & Hb). destruct a as [|d a]; [left; by rewrite E|]. injection E as -> ->. right. by exists a, b.
Qed.
Lemma like_end s : like ["%"] s = true.
Proof. apply like_any. exists s, []. by rewrite app_nil_r. Qed.

Definition wild (c : string) : Prop := c = "%" ∨ c = "_".
Lemma like_plain q p s : Forall (λ c, ¬ wild c) q → like (q ++ p) s = true ↔ ∃ b, s = q ++ b ∧ like p b = true.
Proof.
  intros Hq. revert s. induction Hq as [|c q Hc _ IH]; intros s; cbn [app]; [split; [by exists s|by intros (b & -> & ?)]|].
  cbn [like]. assert (c ≠ "%" ∧ c ≠ "_") as [H1 H2] by (unfold wild in Hc; tauto).
  rewrite bool_decide_eq_false_2 by done. destruct s as [|d s]; [split; [done|by intros (b & [=] & _)]|].
  rewrite (bool_decide_eq_false_2 (c = "_")) by done. cbn [orb]. rewrite andb_true_iff, bool_decide_eq_true, IH. split.
  - intros (<- & b & -> & Hb). by exists b.
  - intros (b & [= -> ->] & Hb). by eauto.
Qed.

(** A query without the characters % and _ finds the texts that contain it, letter case
    aside. *)
Theorem ilike_spec (query text : string) :
  Forall (λ c, ¬ wild c) (runes (ToLower query)) →
  ilike query text = true ↔ ∃ a b, runes (ToLower text) = a ++ runes (ToLower query) ++ b.
Proof.
  intros Hq. unfold ilike. rewrite like_any. split.
  - intros (a & b & -> & (c & -> & _)%like_plain); [by exists a, c|done].
  - intros (a & b & ->). exists a, (runes (ToLower query) ++ b). split; [done|].
    apply like_plain; [done|]. exists b. split; [done|apply like_end].
Qed.

(** The characters are not escaped: the query % finds every text. *)
Theorem percent_finds_all (text : string) : ilike "%" text = true.
Proof.
  unfold ilike. change (runes (ToLower "%")) with ["%"]. apply like_any. exists (runes (ToLower text)), [].
  split; [by rewrite app_nil_r|done].
Qed.
End Reading.

(** *** The first use *)
Section FirstUse.
Context {F : Type} `{Unicode} (fmt_g : F → string) (no_table duplicate_key : string).
Context (key_le : string → string → Prop) `{!RelDecision key_le}.
Context (driver : list F → list (element (F := F))) (float32 : f64 → F).
Context (ranked : list F → gmap string (row (F := F)) → list SearchResult).
Context (blob_text : string → string) (scan : gmap string (row (F := F)) → list (string * row (F := F))).

(** The table is made on the first use, once: when that use fails, be it that its
    context was cancelled while it waited to try again, every later operation but
    the reading of a key fails with that error, however the database does by then. *)
Theorem first_use_decides (db_error : list string → string → option string) (cancelled : nat → option string)
    (m : MemoryStore (F := F)) (e c : string) :
  init m = NotYet → db_error (log m) (create_sql m) = Some e → cancelled 1%nat = Some c →
  let m' := (ensureTable db_error cancelled m).1 in
  ∀ (db_error' : list string → string → option string) (cancelled' : nat → option string),
  (∀ key value emb, Store fmt_g db_error' no_table duplicate_key cancelled' key value emb m' = (m', Err c)) ∧
  (∀ key, Delete db_error' no_table cancelled' key m' = (m', Err c)) ∧
  (∀ limit offset, ListMem db_error' no_table cancelled' key_le driver float32 limit offset m' = (m', Err c)) ∧
  (∀ query limit, Search fmt_g db_error' no_table cancelled' ranked query limit m' = (m', Err c)) ∧
  (∀ query limit, SearchText db_error' no_table cancelled' blob_text scan query limit m' = (m', Err c)).
Proof.
  intros Hi He Hc m' db_error' cancelled'.
  assert (init m' = Done (Some c)) as Hm.
  { unfold m', ensureTable. rewrite Hi. cbn [attempts]. unfold create_table, ExecContext. by rewrite He, Hc. }
  clearbody m'. assert (ensureTable db_error' cancelled' m' = (m', Some c)) as Ht by (unfold ensureTable; by rewrite Hm).
  split_and!; intros; unfold Store, Delete, ListMem, Search, SearchText, ensured; by rewrite Ht.
Qed.
End FirstUse.
End MemoryStore.

(** Concrete runs. *)
Module SampleMemory.
Import Embedder MemoryStore.

Definition sample_embedder : Embedder_ (F := Z) :=
  NewEmbedder (λ _, "") "http://localhost:11434/" "".
Definition sample_service (sent : list (string * string)) (req : string * string) : result string (Z * string) :=
  Ok (200, "[1]").
Definition sample_decode (body : string) : result string (list Z) := Ok [str_len body].

Lemma Embed_cached_witness :
  let '(e, r) := Embed (H := ascii_tables) sample_service sample_decode 0 "abc" sample_embedder in
  r = Ok [3] ∧ Embed (H := ascii_tables) sample_service sample_decode (4 * minute) " ABC" e = (e, Ok [3]).
Proof.
  split; [reflexivity|].
  exact (proj2 (Embed_cached (H := ascii_tables) sample_service sample_decode 0 (4 * minute) "abc" " ABC" sample_embedder
    (Embed (H := ascii_tables) sample_service sample_decode 0 "abc" sample_embedder).1 [3]
    eq_refl eq_refl eq_refl ltac:(vm_compute; discriminate))).
Defined.

Definition sample_store (i : once) : MemoryStore (F := Z) :=
  {| schema := ""; dim := 1; init := i; table := Some {["k" := {| Value := "old"; Embedding := [1] |}]}; log := [] |}.
Definition failing_sql (verb : string) (l : list string) (sql : string) : option string :=
  if String.prefix verb sql then Some "disk full" else None.

Lemma Store_loses_witness :
  table (Store Itoa (failing_sql "INSERT") "no table" "duplicate" (λ _, None) "k" "new" [2] (sample_store (Done None))).1 = Some ∅.
Proof.
  pose proof (Store_loses Itoa (failing_sql "INSERT") "no table" "duplicate" (λ _, None) "k" "new" "disk full" [2]
    (sample_store (Done None)) {["k" := {| Value := "old"; Embedding := [1] |}]} eq_refl eq_refl
    (λ _, eq_refl) (λ _, eq_refl)) as Hs.
  destruct (Store _ _ _ _ _ _ _ _ _) as [m' r]. exact (proj2 Hs).
Defined.

Lemma first_use_decides_witness :
  let m := (ensureTable (failing_sql "CREATE") (λ _, Some "context canceled") (sample_store NotYet)).1 in
  Store Itoa (λ _ _, None) "no table" "duplicate" (λ _, None) "k" "new" [2] m = (m, Err "context canceled").
Proof.
  exact (proj1 (first_use_decides (H := ascii_tables) Itoa "no table" "duplicate" (=) (λ _, []) (λ _, 0) (λ _ _, []) (λ s, s) (λ _, [])
    (failing_sql "CREATE") (λ _, Some "context canceled") (sample_store NotYet) "disk full" "context canceled"
    eq_refl eq_refl eq_refl (λ _ _, None) (λ _, None)) "k" "new" [2]).
Defined.

Lemma ilike_spec_witness : ilike (H := ascii_tables) "Word" "two words" = true.
Proof.
  apply (ilike_spec (H := ascii_tables) "Word" "two words").
  - repeat constructor; intros [E|E]; vm_compute in E; discriminate.
  - exists ["t"; "w"; "o"; " "], ["s"]. reflexivity.
Defined.

Lemma limited_pages_witness : limited 2 1 [1; 2; 3; 4] = Ok [2; 3] ∧ limited 3 1 [1; 2; 3; 4] = Ok [2; 3; 4].
Proof.
  destruct (limited_pages [1; 2; 3; 4] 2 1 1 ltac:(lia) ltac:(lia) ltac:(lia)) as (a & b & Ha & Hb & Hab).
  vm_compute in Ha, Hb. injection Ha as <-. injection Hb as <-. split; [reflexivity|exact Hab].
Defined.
End SampleMemory.
