(* ===== verification/Query.v ===== *)
(** * The query handler (internal/api/handler/query.go)

    Resolution of a project to its parsed ontology, the execution of a query on an
    object type, the statistics, lineage and checksum of a table, the context that a chat
    takes from the memory, and the truncation of JSON texts.  The database's answers
    are parameters; every statement is a list of pieces, so that what the SQL lexer
    reads of it can be stated. *)

From S2P Require Import Prelude GoStrings GoValues GoText SafeIdent Caches Dsl DslAst DslParser Storage Repository Projects TaskRun Memory.

Module Query.
Import SafeIdent.SafeIdent Sql Paths Storage.Storage.

Inductive code := InvalidArgument | NotFound | Internal | ResourceExhausted | DeadlineExceeded.
Definition rpc_error : Type := code * string.

Record World := { programs : ProgramCache.programCache (P := Program); executed : list (list piece) }.
Definition with_programs c w := {| programs := c; executed := executed w |}.
Definition sent (q : list piece) (w : World) : World := {| programs := programs w; executed := executed w ++ [q] |}.

(** The rows of an answer: the columns, each row with the texts of its values (none for a
    null) or the error of its scan, and the error that ended them, if one did. *)
Record Rows := { Columns : list string; Data : list (result string (list (option string))); Ended : option string }.

Record ColumnStats := {
  ColumnName : string; Min : string; Max : string; CCount : Z; UniqueCount : Z; TopValues : gmap string Z;
}.

Section Query.
Context `{Unicode} (parse_float : string → bool) (tokenize : string → option (list DslParser.token)).
Context (getwd : option string) (projectsRoot : string).
(** The file system: whether a path is known not to exist, and the reading of a file. *)
Context (not_exist : string → bool) (read_file : string → result string string).
Context (range : gmap string (ProgramCache.progEntry (P := Program)) → list (string * ProgramCache.progEntry (P := Program))).
(** The text of an error of the identifiers. *)
Context (ident_text : ident_error → string).

Definition Parse (s : string) : option Program := tokenize s ≫= DslParser.ParseTokens.

Definition resolveProject (now : Time) (projectID : string) (w : World) : World * result string (string * Program) :=
  let projectID := if bool_decide (projectID = "") then "default" else projectID in
  let '(c, prog) := ProgramCache.prog_get now projectID (programs w) in
  let w := with_programs c w in
  match sanitizePath getwd projectsRoot [projectID] with
  | None => (w, Err "path traversal")
  | Some projectPath =>
    if not_exist projectPath then (w, Err ("project " +:+ projectID +:+ " not found"))
    else match prog with
    | Some prog => (w, Ok (projectPath, prog))
    | None =>
      match read_file (filepath_Join [projectPath; "ontologies"; "core.aleph"]) with
      | Err e => (w, Err ("failed to read ontology: " +:+ e))
      | Ok content =>
        match Parse content with
        | None => (w, Err "failed to parse ontology")
        | Some prog => (with_programs (ProgramCache.prog_set range now projectID prog (programs w)) w, Ok (projectPath, prog))
        end
      end
    end
  end.

(** The project of the request's context, or else of its message. *)
Definition project_of (ctxProject msgProject : string) : string := if bool_decide (ctxProject = "") then msgProject else ctxProject.

(** *** Queries *)
(** The number of tables of schema main with a name, if the database answers; the answer to
    a statement, given those before it; whether the thirty seconds are over by then. *)
Context (count_tables : string → option Z) (query : list (list piece) → list piece → result string Rows) (expired : bool).

Definition direct (table : string) (limit : Z) : list piece :=
  [Raw "SELECT * FROM "; Ident table; Raw (" LIMIT " +:+ Itoa limit)].
Definition bounded (sql : list piece) (limit : Z) : list piece :=
  Raw "SELECT * FROM (" :: sql ++ [Raw (") LIMIT " +:+ Itoa limit)].

Definition compiler_of (projectPath : string) (prog : Program) : Compiler.Compiler :=
  {| Compiler.Program_ := prog; Compiler.DataRoot := filepath_Join [projectPath; "raw"]; Compiler.UseViews := false |}.

(** Whether schema main has a table of the name, which is the second argument of the statement. *)
Definition exists_sql : list piece :=
  [Raw "SELECT COUNT(*) FROM information_schema.tables WHERE table_schema = $1 AND table_name = $2"].
Definition tableExists (lowerObjName : string) (w : World) : World * bool :=
  (sent exists_sql w, match count_tables lowerObjName with Some n => bool_decide (0 < n) | None => false end).

(** The statement for an object: the table of that name in schema main, if there is one, or
    else the object of the project's ontology. *)
Definition object_sql (now : Time) (has_table : bool) (objName projectID : string) (limit : Z) (w : World) : World * result rpc_error (list piece) :=
  if has_table then (w, Ok (direct (ToLower objName) limit))
  else match resolveProject now projectID w with
  | (w, Err e) => (w, Err (NotFound, e))
  | (w, Ok (projectPath, prog)) =>
    match Compiler.CompileObject parse_float (compiler_of projectPath prog) objName with
    | Err _ => (w, Err (NotFound, "oggetto '" +:+ objName +:+ "' non trovato nell'ontologia né tra le tabelle disponibili"))
    | Ok sql => (w, Ok sql)
    end
  end.

Definition run_query (q : list piece) (w : World) : World * result string Rows := (sent q w, query (executed w) q).

(** What is run, and on an input error of a table that exists run again on the table. *)
Definition query_rows (has_table : bool) (objName : string) (limit : Z) (sql : list piece) (w : World) : World * result rpc_error (list piece * Rows) :=
  let '(w, r) := run_query sql w in
  match r with
  | Ok rows => (w, Ok (sql, rows))
  | Err e =>
    if str_contains e "resource exhausted" then (w, Err (ResourceExhausted, "duckdb resource exhausted"))
    else if expired then (w, Err (DeadlineExceeded, "query analysis timed out (limit: 30s)"))
    else if str_contains e "No files found" || str_contains e "IO Error" then
      if has_table then
        let sql := direct (ToLower objName) limit in
        let '(w, r) := run_query sql w in
        (w, match r with Ok rows => Ok (sql, rows) | Err _ => Err (Internal, "duckdb query failed after retry") end)
      else (w, Err (NotFound, "oggetto '" +:+ objName +:+ "' non trovato"))
    else (w, Err (Internal, "duckdb query failed"))
  end.

(** A row as the map from column to text; of two columns of a name the later counts. *)
Definition row_map (cols : list string) (row : list (option string)) : gmap string string :=
  foldl (λ m cv, <[cv.1 := default "" cv.2]> m) ∅ (zip cols row).
Fixpoint proto_rows (cols : list string) (l : list (result string (list (option string)))) :
    result rpc_error (list (gmap string string)) :=
  match l with
  | [] => Ok []
  | Err _ :: _ => Err (Internal, "duckdb row scan failed")
  | Ok row :: l => match proto_rows cols l with Ok rs => Ok (row_map cols row :: rs) | Err e => Err e end
  end.

Record ExecuteQueryRequest := { ObjectType : string; ProjectId : string; Limit : Z }.
Record ExecuteQueryResponse := { RSql : string; RColumns : list string; RRows : list (gmap string string) }.

(** A project that is named but not by an identifier of projects. *)
Definition bad_project (projectID : string) : bool :=
  negb (bool_decide (projectID = "")) && match SanitizeProjectID projectID with Some _ => true | None => false end.
Definition query_limit (limit : Z) : Z := if bool_decide (limit ≤ 0) then 1000 else limit.

Definition ExecuteQuery (now : Time) (ctxProject : string) (req : ExecuteQueryRequest) (w : World) :
    World * result rpc_error ExecuteQueryResponse :=
  let objName := ObjectType req in
  let projectID := project_of ctxProject (ProjectId req) in
  match ValidateStrictIdentifier objName with
  | Some e => (w, Err (InvalidArgument, "nome oggetto non valido: " +:+ ident_text e))
  | None =>
    match ValidateStrictIdentifier (ToLower objName) with
    | Some e => (w, Err (InvalidArgument, "invalid object name: " +:+ ident_text e))
    | None =>
      if bad_project projectID then (w, Err (InvalidArgument, "invalid project_id"))
      else
        let limit := query_limit (Limit req) in
        let '(w, has_table) := tableExists (ToLower objName) w in
        match object_sql now has_table objName projectID limit w with
        | (w, Err e) => (w, Err e)
        | (w, Ok sql) =>
          match query_rows has_table objName limit (bounded sql limit) w with
          | (w, Err e) => (w, Err e)
          | (w, Ok (sql, rows)) =>
            match proto_rows (Columns rows) (Data rows) with
            | Err e => (w, Err e)
            | Ok rs => (w, Ok {| RSql := render sql; RColumns := Columns rows; RRows := rs |})
            end
          end
        end
    end
  end.

Definition GlobalQuery (now : Time) (ctxProject : string) (req : ExecuteQueryRequest) (w : World) :
    World * result rpc_error ExecuteQueryResponse :=
  ExecuteQuery now ctxProject {| ObjectType := ObjectType req; ProjectId := ProjectId req; Limit := Limit req |} w.

Definition suggestView (cols : list string) : string :=
  let has words := existsb (λ c, existsb (str_contains (ToLower c)) words) cols in
  if has ["lat"] && has ["lon"; "lng"] then "map"
  else if has ["date"; "time"] then "timeline" else "table".

(** *** Statistics *)
(** The columns of a statement with their type names; the row of the aggregates, four values
    for each column; the rows of the frequent values, [None] for one that cannot be
    scanned, as one with a null. *)
Context (describe : list (list piece) → list piece → result string (list (string * string))).
Context (aggregates : list (list piece) → list piece → result string (list (option string * option string * Z * Z))).
Context (frequent : list (list piece) → list piece → result string (list (option (string * string * Z)))).

Definition aggregatable (dbType : string) : bool :=
  negb (str_contains dbType "STRUCT") && negb (str_contains dbType "LIST") && negb (str_contains dbType "MAP")
  && bool_decide (dbType ≠ "BOOLEAN").
Definition column (ct : string * string) : option (string * bool) :=
  match ValidateColumnName ct.1 with Some _ => None | None => Some (ct.1, aggregatable (ToUpper ct.2)) end.
Definition select_part (c : string * bool) : list piece :=
  (if c.2 then [Raw "MIN("; Ident c.1; Raw "), MAX("; Ident c.1; Raw "), COUNT("] else [Raw "NULL, NULL, COUNT("]) ++
  [Ident c.1; Raw "), COUNT(DISTINCT "; Ident c.1; Raw ")"].
Definition agg_sql (cols : list (string * bool)) (base : list piece) : list piece :=
  Raw "SELECT " :: join ", " (select_part <$> cols) ++ Raw " FROM (" :: base ++ [Raw ")"].
Definition union_part (base : list piece) (c : string) : list piece :=
  [Raw "SELECT * FROM (SELECT "; Lit c; Raw " AS cn, CAST("; Ident c; Raw " AS VARCHAR) AS val, COUNT(*) AS cnt FROM ("] ++
  base ++ [Raw ") GROUP BY "; Ident c; Raw " ORDER BY cnt DESC LIMIT 10)"].
Definition top_sql (base : list piece) (cols : list string) : list piece := join " UNION ALL " (union_part base <$> cols).

Definition column_stats (c : string * bool) (v : option string * option string * Z * Z) : ColumnStats :=
  let '(mn, mx, n, d) := v in
  {| ColumnName := c.1; Min := default "" mn; Max := default "" mx; CCount := n; UniqueCount := d; TopValues := ∅ |}.
Definition set_top (val : string) (cnt : Z) (s : ColumnStats) : ColumnStats :=
  {| ColumnName := ColumnName s; Min := Min s; Max := Max s; CCount := CCount s; UniqueCount := UniqueCount s;
     TopValues := <[val := cnt]> (TopValues s) |}.
(** A frequent value goes to the first aggregatable column of its name. *)
Definition add_top (cols : list (string * bool)) (stats : list ColumnStats) (row : option (string * string * Z)) : list ColumnStats :=
  match row with
  | None => stats
  | Some (cn, val, cnt) =>
    match list_find (λ c, c.2 = true ∧ c.1 = cn) cols with
    | Some (i, _) => alter (set_top val cnt) i stats
    | None => stats
    end
  end.

Definition GetDataStats (now : Time) (ctxProject objName msgProject : string) (w : World) :
    World * result rpc_error (list ColumnStats) :=
  let projectID := project_of ctxProject msgProject in
  if bad_project projectID then (w, Err (InvalidArgument, "invalid project_id"))
  else match ValidateStrictIdentifier objName with
  | Some e => (w, Err (InvalidArgument, "invalid object name: " +:+ ident_text e))
  | None =>
    match resolveProject now projectID w with
    | (w, Err e) => (w, Err (NotFound, e))
    | (w, Ok (projectPath, prog)) =>
      match Compiler.CompileObject parse_float (compiler_of projectPath prog) objName with
      | Err _ => (w, Err (InvalidArgument, "compile"))
      | Ok base =>
        let q1 := Raw "SELECT * FROM (" :: base ++ [Raw ") LIMIT 0"] in
        match describe (executed w) q1 with
        | Err e => (sent q1 w, Err (Internal, e))
        | Ok described =>
          let w := sent q1 w in
          let cols := omap column described in
          if bool_decide (cols = []) then (w, Ok [])
          else
            let q2 := agg_sql cols base in
            match aggregates (executed w) q2 with
            | Err e => (sent q2 w, Err (Internal, e))
            | Ok vals =>
              let w := sent q2 w in
              let stats := zip_with column_stats cols vals in
              let agg := (filter (λ c, c.2 = true) cols).*1 in
              if bool_decide (agg = []) then (w, Ok stats)
              else
                let q3 := top_sql base agg in
                (sent q3 w, Ok (match frequent (executed w) q3 with
                                | Ok rows => foldl (add_top cols) stats rows
                                | Err _ => stats end))
            end
        end
      end
    end
  end.

(** *** Lineage and checksum *)
Definition table_of (projectID tableName : string) : list piece := [Ident projectID; Raw "."; Ident tableName].
Definition lineage_sql (projectID tableName : string) : list piece :=
  [Raw "SELECT (SELECT COUNT(*) FROM information_schema.columns WHERE table_schema = $1 AND table_name = $2), (SELECT COUNT(*) FROM "]
  ++ table_of projectID tableName
  ++ [Raw "), json_group_array(column_name || "; Lit ":"; Raw " || data_type) FROM information_schema.columns WHERE table_schema = $1 AND table_name = $2"].
Definition checksum_sql (projectID tableName : string) : list piece :=
  Raw "SELECT md5(CAST(SUM(hash(TO_JSON(*))) AS VARCHAR)) FROM " :: table_of projectID tableName.
Definition structure_sql : list piece :=
  [Raw "SELECT md5(column_list) FROM (SELECT string_agg(column_name || "; Lit ":"; Raw " || data_type, "; Lit ",";
   Raw " ORDER BY column_name) AS column_list FROM information_schema.columns WHERE table_schema = $1 AND table_name = $2)"].

(** The answer to a statement of one row: the database is exhausted, the scan fails, or
    the values. *)
Inductive row_answer A := Exhausted | ScanFailed (e : string) | Scanned (a : A).
Arguments Exhausted {A}. Arguments ScanFailed {A}. Arguments Scanned {A}.
Context (counts : list (list piece) → list piece → row_answer (Z * Z)).
Context (md5_row : list (list piece) → list piece → row_answer string).

Definition check_table (projectID tableName : string) : option rpc_error :=
  if bool_decide (projectID = "" ∨ tableName = "") then Some (InvalidArgument, "project_id and table_name are required")
  else match SanitizeProjectID projectID with
  | Some _ => Some (InvalidArgument, "invalid project_id")
  | None =>
    match ValidateStrictIdentifier tableName, ValidateIdentifier projectID, ValidateIdentifier tableName with
    | Some e, _, _ => Some (InvalidArgument, "invalid table_name: " +:+ ident_text e)
    | None, Some e, _ => Some (InvalidArgument, "invalid project_id: " +:+ ident_text e)
    | None, None, Some e => Some (InvalidArgument, "invalid table_name: " +:+ ident_text e)
    | None, None, None => None
    end
  end.

Record DataProvenance := { PTableName : string; PSource : string; ColumnsCount : Z; RowsCount : Z }.
Definition GetDataLineage (projectID tableName : string) (w : World) : World * result rpc_error DataProvenance :=
  match check_table projectID tableName with
  | Some e => (w, Err e)
  | None =>
    let q := lineage_sql projectID tableName in
    (sent q w, match counts (executed w) q with
     | Exhausted => Err (ResourceExhausted, "duckdb resource exhausted")
     | ScanFailed _ => Err (NotFound, "table not found")
     | Scanned (c, r) => Ok {| PTableName := tableName; PSource := "duckdb:" +:+ projectID; ColumnsCount := c; RowsCount := r |}
     end)
  end.
Definition GetChecksum (projectID tableName : string) (w : World) : World * result rpc_error string :=
  match check_table projectID tableName with
  | Some e => (w, Err e)
  | None =>
    let q := checksum_sql projectID tableName in
    match md5_row (executed w) q with
    | Exhausted => (sent q w, Err (ResourceExhausted, "duckdb resource exhausted"))
    | Scanned sum => (sent q w, Ok sum)
    | ScanFailed _ =>
      let w := sent q w in
      (sent structure_sql w, match md5_row (executed w) structure_sql with
       | Exhausted => Err (ResourceExhausted, "duckdb resource exhausted")
       | Scanned sum => Ok sum
       | ScanFailed e => Err (NotFound, "table not found: " +:+ e)
       end)
    end
  end.

(** *** Confirmation *)
Definition ConfirmAction (now : Time) (agent_ok : bool) (ctxProject msgProject agentID : string) (approved : bool)
    (repo : Repository.Repo) (repo_text : Repository.repo_error → string) (w : World) : World * result rpc_error bool :=
  let projectID := project_of ctxProject msgProject in
  if bool_decide (projectID = "") then (w, Err (InvalidArgument, "project_id is required"))
  else match resolveProject now projectID w with
  | (w, Err e) => (w, Err (NotFound, e))
  | (w, Ok _) =>
    (w, if bool_decide (agentID = "") then Ok approved
        else match Repository.ConfirmAgentInProject agent_ok agentID projectID repo with
        | Err e => Err (Internal, repo_text e)
        | Ok false => Err (NotFound, "agent " +:+ agentID +:+ " not found in project " +:+ projectID)
        | Ok true => Ok approved
        end)
  end.

(** *** The statements *)
(** [strconv.ParseFloat] accepts no text that is empty or holds a quote. *)
Context (float_plain : ∀ s, parse_float s = true → s ≠ "" ∧ no_quotes s = true).

(** The cached programs are such as the parser gives. *)
Definition parsed (w : World) : Prop :=
  ∀ k e, ProgramCache.progs (programs w) !! k = Some e → Forall DslParser.known_aggregates (Statements (ProgramCache.program e)).

Lemma prog_get_sub now k (c : ProgramCache.programCache (P := Program)) :
  ∀ k' e, ProgramCache.progs (ProgramCache.prog_get now k c).1 !! k' = Some e → ProgramCache.progs c !! k' = Some e.
Proof.
  intros k' e. unfold ProgramCache.prog_get. destruct (ProgramCache.progs c !! k); [|done]. case_bool_decide; [|done].
  cbn. by intros [_ ?]%lookup_delete_Some.
Qed.
Lemma prog_get_answer now k (c : ProgramCache.programCache (P := Program)) p :
  (ProgramCache.prog_get now k c).2 = Some p → ∃ e, ProgramCache.progs c !! k = Some e ∧ ProgramCache.program e = p.
Proof.
  unfold ProgramCache.prog_get. destruct (ProgramCache.progs c !! k) as [e|]; [|done]. case_bool_decide; [done|].
  intros [= <-]. eauto.
Qed.

Lemma resolveProject_spec now projectID w : parsed w →
  let '(w', r) := resolveProject now projectID w in
  parsed w' ∧ executed w' = executed w ∧
  match r with Ok (_, prog) => Forall DslParser.known_aggregates (Statements prog) | Err _ => True end.
Proof.
  intros Hw. unfold resolveProject. set (id := if bool_decide _ then _ else _).
  pose proof (prog_get_sub now id (programs w)) as Hs. pose proof (prog_get_answer now id (programs w)) as Ha.
  destruct (ProgramCache.prog_get now id (programs w)) as [c prog]. cbn [fst snd] in *.
  assert (parsed (with_programs c w)) as Hc by (intros k e He; by eapply Hw, Hs).
  destruct (sanitizePath _ _ _); [|done]. destruct (not_exist _); [done|]. destruct prog as [prog|].
  { destruct (Ha prog eq_refl) as (e & He & <-). split_and!; [done|done|]. by eapply Hw. }
  destruct (read_file _) as [content|]; [|done]. destruct (Parse content) as [prog|] eqn:Ep; [|done].
  apply bind_Some in Ep as (ts & _ & Hk%DslParser.ParseTokens_aggregates). split_and!; [|done|done].
  intros k e. cbn. intros [[<- <-]|[_ He]]%lookup_insert_Some; [done|]. apply (Hc k). cbn.
  revert He. repeat case_bool_decide; try done. by intros [_ ?]%lookup_delete_Some.
Qed.

Lemma compiled_good path prog name r : Forall DslParser.known_aggregates (Statements prog) →
  Compiler.CompileObject parse_float (compiler_of path prog) name = Ok r → good plain r.
Proof.
  intros Hk Hc. eapply good_weaken; [apply Compiler.template_plain, float_plain|].
  eapply Compiler.CompileObject_ok; [|exact Hc]. intros o Ho%TaskRun.find_object_elem.
  by apply (proj1 (Forall_forall _ _) Hk) in Ho.
Qed.

Lemma soft_raw s : soft [Raw s].
Proof. by split; [right|]. Qed.
Lemma good_one s : plain s → good plain [Raw s].
Proof. intros Hs. split; [by split; [left|]|]. by apply Forall_singleton. Qed.
Lemma enclosed_good a r b : plain a → plain b → good plain r → good plain (Raw a :: r ++ [Raw b]).
Proof. intros Ha Hb Hr. apply good_raw_cons; [done|]. apply good_app; [done|by apply good_one|apply soft_raw]. Qed.







(** Where a table of the object's name exists in the schema main, the answer is the
    same for every project: the project decides only what no table shadows. *)
Theorem main_table_shadows (now : Time) (ctx ctx' p p' objName : string) (limit : Z) (w : World) :
  (tableExists (ToLower objName) w).2 = true → bad_project (project_of ctx p) = false → bad_project (project_of ctx' p') = false →
  ExecuteQuery now ctx {| ObjectType := objName; ProjectId := p; Limit := limit |} w =
  ExecuteQuery now ctx' {| ObjectType := objName; ProjectId := p'; Limit := limit |} w.
Proof. intros Ht Hp Hp'. unfold ExecuteQuery, object_sql. cbn [ObjectType ProjectId Limit].
  destruct (tableExists (ToLower objName) w) as [w1 b]. cbn in Ht. subst b. by rewrite Hp, Hp'.
Qed.

Lemma select_part_good c : good plain (select_part c).
Proof. destruct c as [c []]; unfold select_part; cbn [fst snd app]; good_pieces. Qed.
Lemma agg_sql_good cols base : good plain base → good plain (agg_sql cols base).
Proof.
  intros Hb. unfold agg_sql.
  assert (good plain (Raw " FROM (" :: base ++ [Raw ")"])) as Hf by (apply enclosed_good; [plain_text|plain_text|done]).
  apply good_raw_cons; [plain_text|]. apply good_app; [|done|].
  - apply good_join; [plain_text|]. apply Forall_fmap, Forall_forall. intros c _. apply select_part_good.
  - destruct Hf as [[_ Hs] _]. split; [by right|done].
Qed.
Lemma union_part_good base c : good plain base → good plain (union_part base c).
Proof.
  intros Hb. unfold union_part. set (t := [Raw ") GROUP BY "; _; _]).
  assert (good plain t ∧ soft t) as [Ht Hs] by (split; [subst t; good_pieces|by subst t; cbn; auto]).
  change (good plain ([Raw "SELECT * FROM (SELECT "; Lit c; Raw " AS cn, CAST("; Ident c] ++
    (Raw " AS VARCHAR) AS val, COUNT(*) AS cnt FROM (" :: (base ++ t)))).
  destruct (good_raw_cons plain " AS VARCHAR) AS val, COUNT(*) AS cnt FROM (" (base ++ t)) as [H1 H2];
    [plain_text|by apply good_app|]. apply good_app; [good_pieces|done|done].
Qed.

(** At most [n] statements more, each read as it was meant. *)
Definition grows (n : nat) (w w' : World) : Prop :=
  ∃ new, executed w' = executed w ++ new ∧ (length new ≤ n)%nat ∧ Forall (good plain) new.
Lemma grows_same n w w' : executed w' = executed w → grows n w w'.
Proof. intros He. exists []. rewrite app_nil_r. split_and!; [done|cbn; lia|done]. Qed.
Lemma grows_sent n w w' q : grows n w w' → good plain q → grows (S n) w (sent q w').
Proof.
  intros (new & He & Hl & Hall) Hq. exists (new ++ [q]). cbn. rewrite He, app_assoc, length_app. cbn.
  split_and!; [done|lia|]. apply Forall_app. split; [done|by apply Forall_singleton].
Qed.
Lemma grows_le n n' w w' : grows n w w' → (n ≤ n')%nat → grows n' w w'.
Proof. intros (new & He & Hl & Hall) Hn. exists new. split_and!; [done|lia|done]. Qed.

(** The statistics of an object run at most three statements, each read by the SQL lexer
    as it was meant, whatever the columns of the data are called. *)
Theorem GetDataStats_statements (now : Time) (ctxProject objName msgProject : string) (w : World) :
  parsed w →
  let '(w', _) := GetDataStats now ctxProject objName msgProject w in
  ∃ new, executed w' = executed w ++ new ∧ (length new ≤ 3)%nat ∧ Forall (λ q, lex (render q) = Some (tokens q)) new.
Proof.
  intros Hw. cut (let '(w', _) := GetDataStats now ctxProject objName msgProject w in grows 3 w w').
  { destruct (GetDataStats _ _ _ _ w) as [w' r]. intros (new & He & Hl & Hall). exists new. split_and!; [done|done|].
    eapply Forall_impl; [exact Hall|]. intros q. by apply (lex_good plain). }
  unfold GetDataStats. destruct (bad_project _); [by apply grows_same|].
  destruct (ValidateStrictIdentifier objName); [by apply grows_same|].
  pose proof (resolveProject_spec now (project_of ctxProject msgProject) w Hw) as Hr.
  destruct (resolveProject _ _ w) as [w1 [[path prog]|e]]; destruct Hr as (_ & He & Hk); [|by apply grows_same].
  destruct (Compiler.CompileObject _ _ _) as [base|] eqn:Ec; [|by apply grows_same].
  assert (good plain base) as Hb by (by eapply compiled_good).
  assert (grows 1 w (sent (Raw "SELECT * FROM (" :: base ++ [Raw ") LIMIT 0"]) w1)) as G1.
  { apply grows_sent; [by apply grows_same|]. apply enclosed_good; [plain_text|plain_text|done]. }
  destruct (describe _ _) as [described|]; [|apply (grows_le 1); [done|lia]].
  cbv zeta. set (w2 := sent _ w1) in *. case_bool_decide; [apply (grows_le 1); [done|lia]|].
  pose proof (grows_sent 1 w w2 _ G1 (agg_sql_good (omap column described) base Hb)) as G2.
  destruct (aggregates _ _) as [vals|]; [|apply (grows_le 2); [done|lia]]. case_bool_decide; [apply (grows_le 2); [done|lia]|].
  apply grows_sent; [done|]. apply good_join; [plain_text|]. apply Forall_fmap, Forall_forall. intros c _. by apply union_part_good.
Qed.

(** A project whose identifier has a hyphen is accepted by queries and by the storage, and
    refused by the lineage and the checksum of its tables, before any statement. *)
Theorem hyphen_refused (projectID tableName : string) (w : World) :
  str_mem "-" projectID = true → SanitizeProjectID projectID = None →
  bad_project projectID = false ∧
  (∃ e, GetDataLineage projectID tableName w = (w, Err (InvalidArgument, e))) ∧
  (∃ e, GetChecksum projectID tableName w = (w, Err (InvalidArgument, e))).
Proof.
  intros Hh Hs. unfold bad_project. rewrite Hs, andb_false_r.
  assert (is_Some (ValidateIdentifier projectID)) as [x Hv].
  { assert (identifierPattern projectID = false) as Hp.
    { destruct projectID as [|c p]; [done|]. apply not_true_iff_false. cbn [identifierPattern].
      rewrite !andb_true_iff. intros [[Hc Hall] _]. cbn [str_mem] in Hh.
      rewrite (str_all_not_mem ident_char "-" p Hall eq_refl), orb_false_r in Hh.
      apply bool_decide_eq_true in Hh as <-. done. }
    unfold ValidateIdentifier. rewrite Hp. cbn [negb]. repeat case_bool_decide; eauto. }
  assert (∃ e, check_table projectID tableName = Some (InvalidArgument, e)) as [e He].
  { unfold check_table. rewrite Hs, Hv. case_bool_decide; [eauto|]. destruct (ValidateStrictIdentifier tableName); eauto. }
  unfold GetDataLineage, GetChecksum. rewrite He. eauto.
Qed.
End Query.

(** *** Errors that end the rows *)
Section Ended.
Context `{Unicode} (parse_float : string → bool) (tokenize : string → option (list DslParser.token)).
Context (getwd : option string) (projectsRoot : string) (not_exist : string → bool) (read_file : string → result string string).
Context (range : gmap string (ProgramCache.progEntry (P := Program)) → list (string * ProgramCache.progEntry (P := Program))).
Context (ident_text : ident_error → string) (count_tables : string → option Z) (expired : bool).

Definition forget (r : result string Rows) : result string (list string * list (result string (list (option string)))) :=
  match r with Ok x => Ok (Columns x, Data x) | Err e => Err e end.

(** An error that ends the rows of an answer early is not reported: the rows before it are
    the whole response. *)
Theorem rows_error_ignored (q q' : list (list piece) → list piece → result string Rows)
    (now : Time) (ctxProject : string) (req : ExecuteQueryRequest) (w : World) :
  (∀ l p, forget (q l p) = forget (q' l p)) →
  ExecuteQuery parse_float tokenize getwd projectsRoot not_exist read_file range ident_text count_tables q expired now ctxProject req w =
  ExecuteQuery parse_float tokenize getwd projectsRoot not_exist read_file range ident_text count_tables q' expired now ctxProject req w.
Proof.
  intros Hq. unfold ExecuteQuery. destruct (ValidateStrictIdentifier _); [done|].
  destruct (ValidateStrictIdentifier _); [done|]. destruct (bad_project _); [done|].
  destruct (tableExists _ _ w) as [w0 has_table].
  destruct (object_sql _ _ _ _ _ _ _ _ _ _ _ _ w0) as [w1 [sql|e]]; [|done].
  unfold query_rows, run_query. set (p := bounded _ _). pose proof (Hq (executed w1) p) as H1.
  pose proof (Hq (executed (sent p w1)) (direct (ToLower (ObjectType req)) (query_limit (Limit req)))) as H2.
  destruct (q (executed w1) p) as [x|e1], (q' (executed w1) p) as [x'|e1']; cbn [forget] in H1; simplify_eq.
  { by rewrite H1, H0. }
  destruct (str_contains _ _); [done|]. destruct expired; [done|]. destruct (_ || _); [|done].
  destruct has_table; [|done].
  destruct (q (executed _) (direct _ _)) as [x|e2], (q' (executed _) (direct _ _)) as [x'|e2']; cbn [forget] in H2; simplify_eq; [|done].
  by rewrite H2, H0.
Qed.
End Ended.

(** *** The prompt of a chat *)
Section Prompt.
Context (fmt_2f : f64 → string).
Import MemoryStore.

Definition memory_line (m : SearchResult) : string := "- [score=" +:+ fmt_2f (Score m) +:+ "] " +:+ SValue m +:+ nl.
Definition is_relevant (m : SearchResult) : bool := f64_le (f64_lit 5 10) (Score m).
(** What the memories of a search add to the prompt. *)
Definition memory_context (found : result string (list SearchResult)) : string :=
  match found with
  | Err _ => ""
  | Ok memories =>
    let relevant := filter (λ m, is_relevant m = true) memories in
    if bool_decide (length relevant = 0%nat) then ""
    else nl +:+ nl +:+ "RELEVANT PAST CONTEXT (retrieved from project memory):" +:+ nl +:+ str_join "" (memory_line <$> relevant)
  end.
Definition chat_prompt (systemPrompt ontology : string) (found : option (result string (list SearchResult))) : string :=
  systemPrompt +:+
  (if bool_decide (ontology = "") then ""
   else nl +:+ nl +:+ "CONTEXTUAL DATA ONTOLOGY (Aleph Format):" +:+ nl +:+ ontology +:+ nl +:+ nl +:+
        "Use the 'search_data' tool to query the objects defined above. Always refer to columns exactly as named in the ontology.") +:+
  match found with Some found => memory_context found | None => "" end.

Context {F : Type} `{Unicode} (db_error : list string → string → option string) (no_table : string) (cancelled : nat → option string).
Context (blob_text : string → string) (scan : gmap string (row (F := F)) → list (string * row (F := F))).

Lemma limited_sub {A} limit offset (l a : list A) : limited limit offset l = Ok a → a ⊆ l.
Proof.
  unfold limited. case_bool_decide; [done|]. intros [= <-] x Hx.
  by apply elem_of_take in Hx as (i & Hi & _); rewrite lookup_drop in Hi; eapply list_elem_of_lookup_2.
Qed.

(** The memory never reaches a chat: the search by text gives every result the score zero,
    and the chat takes only results with a score of a half or more.  A memory that is
    full of matches and one that is not there give the same prompt. *)
Theorem memory_never_used (systemPrompt ontology msg : string) (m : MemoryStore (F := F)) :
  chat_prompt systemPrompt ontology (Some (SearchText db_error no_table cancelled blob_text scan msg 5 m).2) =
  chat_prompt systemPrompt ontology None.
Proof.
  unfold chat_prompt. do 2 f_equal.
  assert (∀ l, (SearchText db_error no_table cancelled blob_text scan msg 5 m).2 = Ok l → Forall (λ r, Score r = f64_of_int 0) l) as Hz.
  { intros l. unfold SearchText, ensured. destruct (ensureTable _ _ m) as [m1 [e|]]; [done|].
    unfold wrapped, QueryContext. destruct (db_error _ _); [done|]. destruct (table m1) as [t|]; [|done].
    destruct (limited _ _ _) as [l'|] eqn:El; [|done]. intros [= <-]. apply limited_sub in El. apply Forall_forall.
    intros r Hr%El. by apply list_elem_of_fmap in Hr as (kr & -> & _). }
  destruct (SearchText _ _ _ _ _ _ _ _).2 as [l|e]; [|done]. specialize (Hz l eq_refl). unfold memory_context.
  assert (filter (λ m, is_relevant m = true) l = []) as ->; [|done].
  induction Hz as [|r l Hr _ IH]; [done|]. rewrite filter_cons, decide_False; [exact IH|]. unfold is_relevant. by rewrite Hr.
Qed.
End Prompt.

(** *** Truncation of JSON texts *)

(** The loop over the bytes of a text, from index [i] on, with the depth, the greatest depth so
    far and whether it is inside a string or behind a backslash of one: the greatest
    depth and the place to cut at, if the loop found one. *)
Fixpoint cut_scan (limit i depth maxDepth : Z) (inString escaped : bool) (s : string) : Z * option Z :=
  match s with
  | "" => (maxDepth, None)
  | String ch s =>
    if bool_decide (i < limit) then
      if escaped then cut_scan limit (i + 1) depth maxDepth inString false s
      else if bool_decide (ch = "\"%char) && inString then cut_scan limit (i + 1) depth maxDepth inString true s
      else if bool_decide (ch = dquote) then cut_scan limit (i + 1) depth maxDepth (negb inString) false s
      else if inString then cut_scan limit (i + 1) depth maxDepth inString false s
      else
        let depth := if bool_decide (ch = "{"%char ∨ ch = "["%char) then depth + 1
                     else if bool_decide (ch = "}"%char ∨ ch = "]"%char) then Z.max 0 (depth - 1) else depth in
        let maxDepth := Z.max maxDepth depth in
        if bool_decide (limit - 4 ≤ i ∧ depth ≤ 1) then (maxDepth, Some i)
        else cut_scan limit (i + 1) depth maxDepth inString false s
    else (maxDepth, None)
  end.
(** [None] is the panic of a slice with a negative bound. *)
Definition truncateJSON (s : string) (limit : Z) : option string :=
  if bool_decide (str_len s ≤ limit) then Some s
  else
    let '(maxDepth, at_) := cut_scan limit 0 0 0 false false s in
    if bool_decide (maxDepth = 0) then if bool_decide (limit < 0) then None else Some (str_take (Z.to_nat limit) s)
    else
      let n := default limit at_ in
      Some (str_take (Z.to_nat n) s +:+ (if bool_decide (n < str_len s) then "..." else "")).

Lemma cut_scan_bounds limit i depth maxDepth inS esc s : 0 ≤ i →
  match (cut_scan limit i depth maxDepth inS esc s).2 with Some n => i ≤ n < limit | None => True end.
Proof.
  revert i depth maxDepth inS esc. induction s as [|c s IH]; intros i depth maxDepth inS esc Hi; cbn [cut_scan]; [done|].
  case_bool_decide; [|done].
  assert (∀ d m b e, match (cut_scan limit (i + 1) d m b e s).2 with Some n => i ≤ n < limit | None => True end) as Hnext.
  { intros d m b e. generalize (IH (i + 1) d m b e ltac:(lia)). destruct (cut_scan _ _ _ _ _ _ _).2; [lia|done]. }
  cbv zeta. destruct esc; [apply Hnext|]. destruct (_ && inS); [apply Hnext|]. destruct (bool_decide (c = dquote)); [apply Hnext|].
  destruct inS; [apply Hnext|]. destruct (bool_decide (_ ≤ i ∧ _)); [cbn; lia|apply Hnext].
Qed.

(** A text is cut to a prefix that is no longer than the limit, and what is marked as cut
    can be up to three bytes longer than it. *)
Theorem truncateJSON_bounds (s : string) (limit : Z) : 0 ≤ limit →
  ∃ n mark, truncateJSON s limit = Some (str_take n s +:+ mark) ∧ Z.of_nat n ≤ Z.max limit (str_len s) ∧
    (mark = "" ∨ mark = "...") ∧ str_len (str_take n s +:+ mark) ≤ limit + 3 ∧
    (str_len s ≤ limit → str_take n s +:+ mark = s).
Proof.
  intros Hl. assert (∀ n t, (String.length (str_take n t) ≤ n)%nat) as Htake.
  { intros n t. revert n. induction t as [|c t IH]; intros [|n]; cbn; [lia..|]. specialize (IH n). lia. }
  assert (∀ t, str_take (String.length t) t = t) as Hall by (intros t; induction t as [|c t IH]; cbn; [done|by rewrite IH]).
  unfold truncateJSON. case_bool_decide as Hs.
  { exists (String.length s), "". rewrite Hall, str_app_nil_r. unfold str_len in *. split_and!; auto; lia. }
  pose proof (cut_scan_bounds limit 0 0 0 false false s ltac:(lia)) as Hb.
  destruct (cut_scan _ _ _ _ _ _ _) as [m at_]. cbn [snd] in Hb. case_bool_decide as Hm.
  - rewrite bool_decide_eq_false_2 by lia. exists (Z.to_nat limit), "". rewrite str_app_nil_r. specialize (Htake (Z.to_nat limit) s).
    unfold str_len in *. split_and!; auto; lia.
  - set (n := default limit at_). assert (0 ≤ n ≤ limit) as Hn by (subst n; destruct at_; cbn; lia).
    exists (Z.to_nat n), "...". rewrite bool_decide_eq_true_2 by lia. specialize (Htake (Z.to_nat n) s).
    unfold str_len in *. rewrite str_length_app. cbn [String.length]. split_and!; auto; lia.
Qed.
Lemma truncateJSON_bounds_witness : truncateJSON "[1234567]" 6 = Some "[1..." ∧ ∃ n mark, truncateJSON "[[[[[[[[[" 6 = Some (str_take n "[[[[[[[[[" +:+ mark).
Proof.
  split; [vm_compute; reflexivity|].
  destruct (truncateJSON_bounds "[[[[[[[[[" 6 ltac:(lia)) as (n & mark & H & _). by exists n, mark.
Defined.
End Query.

(** Concrete runs. *)
Module SampleQuery.
Import Query Sql.

Definition empty_world : World := {| programs := ProgramCache.newProgramCache; executed := [] |}.
Definition no_rows (l : list (list piece)) (q : list piece) : result string Rows := Ok {| Columns := ["age"]; Data := [Ok [Some "7"]]; Ended := None |}.
Definition cut_rows (l : list (list piece)) (q : list piece) : result string Rows :=
  Ok {| Columns := ["age"]; Data := [Ok [Some "7"]]; Ended := Some "connection lost" |}.
Definition run_sample (tables : option Z) (answers : list (list piece) → list piece → result string Rows) (project : string) :=
  ExecuteQuery (H := ascii_tables) (λ _, false) (λ _, Some (DslParser.print DslParser.sample_program)) None "/projects"
    (λ _, false) (λ _, Ok "") (λ _, []) (λ _, "") (λ _, tables) answers false 0 ""
    {| ObjectType := "Person"; ProjectId := project; Limit := 0 |} empty_world.



Lemma main_table_shadows_witness : run_sample (Some 1) no_rows "p1" = run_sample (Some 1) no_rows "p2".
Proof.
  apply (main_table_shadows (H := ascii_tables) (λ _, false) (λ _, Some (DslParser.print DslParser.sample_program)) None "/projects"
    (λ _, false) (λ _, Ok "") (λ _, []) (λ _, "") (λ _, Some 1) no_rows false); reflexivity.
Defined.

Lemma rows_error_ignored_witness : run_sample (Some 1) no_rows "p1" = run_sample (Some 1) cut_rows "p1".
Proof.
  apply (rows_error_ignored (H := ascii_tables) (λ _, false) (λ _, Some (DslParser.print DslParser.sample_program)) None "/projects"
    (λ _, false) (λ _, Ok "") (λ _, []) (λ _, "") (λ _, Some 1)). reflexivity.
Defined.

Lemma hyphen_refused_witness :
  bad_project "my-project" = false ∧
  ∃ e, GetDataLineage (H := ascii_tables) (λ _, "bad") (λ _ _, Exhausted _) "my-project" "t" empty_world = (empty_world, Err (InvalidArgument, e)).
Proof.
  destruct (hyphen_refused (H := ascii_tables) (λ _, "bad") (λ _ _, Exhausted _) (λ _ _, Exhausted _) "my-project" "t" empty_world
    eq_refl eq_refl) as (H1 & H2 & _). exact (conj H1 H2).
Defined.
End SampleQuery.
