(* ===== verification/Discovery.v ===== *)
(** * Discovery of MCP tools and their approval (internal/mcp, api/handler/tool_suggest.go)

    Module [Discovery]: addresses of MCP servers, the requests for their tools with the
    retries, the registration of what they list and the health checks (ssrf.go,
    schemas.go, health.go, discovery.go).  Module [ToolSuggest]: the endpoints that
    suggest a discovered tool and register it on approval (tool_suggest.go), against
    the interface [PipelineOk] that the adaptation pipeline implements.  What the
    environment answers depends on the events so far: replies of servers and of the
    resolver, the state of the context and of the database, the clock. *)

From S2P Require Import Prelude GoStrings GoValues GoNet GoText GoJson Ssrf Health Caches Repository Sandbox Quality Adaptation.

Module Discovery.
Import Ssrf Repository.Repository.

(** The path of a parsed URL, beside its scheme and host. *)
Record url := { base : URL; UPath : string }.

(** [u.Port()]. *)
Definition Port (u : URL) : string :=
  match last_index ":" (Host u) with
  | Some i => if all_digits (str_drop (S i) (Host u)) then str_drop (S i) (Host u) else ""
  | None => ""
  end.

Inductive uri_error := NotMcp (uri : string) | BadFormat (e : string).

(** A tool as a server lists it; [None] is the nil map. *)
Record ToolDefinition := {
  Name : string; Description : string; InputSchema : option (list (string * Json.json)); Version : string; Category : string;
}.

Inductive event :=
| Http (method url : string)
| Slept (d : Duration)
| Listed
| Created (name : string)
| HealthSet (id status : string).

(** A response: its body up to the point where reading it fails, if it does. *)
Record response := { StatusCode : Z; Body : string; BodyErr : option string }.

(** [io.ReadAll(io.LimitReader(resp.Body, n))]. *)
Definition ReadAll (n : Z) (r : response) : result string string :=
  if bool_decide (n ≤ str_len (Body r)) then Ok (str_take (Z.to_nat n) (Body r))
  else match BodyErr r with None => Ok (Body r) | Some e => Err e end.

(** *** The list of tools (schemas.go) *)
Definition as_map (v : Json.json) : option (option (list (string * Json.json))) :=
  match v with Json.JObj m => Some (Some m) | _ => None end.
(** An entry of the list; it has no version and no category. *)
Definition as_entry (v : Json.json) : option ToolDefinition :=
  m ← Json.entries v;
  name ← Json.string_field "name" m;
  description ← Json.string_field "description" m;
  schema ← Json.field_from as_map "inputSchema" None m;
  Some {| Name := name; Description := description; InputSchema := schema; Version := ""; Category := "" |}.
Definition as_list (v : Json.json) : option (list ToolDefinition) :=
  match v with Json.JArr l => mapM as_entry l | _ => None end.

(** [ParseToolList]; the text of the decoder's error is a parameter below. *)
Definition decode_list (data : string) : option (list ToolDefinition) :=
  m ← Json.config data; Json.field_from as_list "tools" [] m.

Definition StatusHealthy : string := "healthy".
Definition StatusDown : string := "down".
Definition StatusUnknown : string := "unknown".

Inductive disc_error :=
| InvalidURI (uri : string) (e : uri_error)
| Blocked (uri : string) (e : ssrf_error)
| Failed (msg : string).

Record HealthCheckResult := { Available : bool; HError : string }.

Definition maxAttempts : nat := 3.
Definition delays : list Duration := [2 * second; 4 * second; 8 * second].

Record World := { repo : Repo; log : list event }.
Definition logged (e : event) (w : World) : World := {| repo := repo w; log := log w ++ [e] |}.
Definition with_repo (r : Repo) (w : World) : World := {| repo := r; log := log w |}.
Definition with_log (l : list event) (w : World) : World := {| repo := repo w; log := l |}.

Section Engine.
Context `{Unicode}.
Context (unicode_quote : string → string).
Context (parse : string → result string url) (json_error : string → string) (ssrf_text : ssrf_error → string).
Context (lookup : list event → Resolver) (answer : list event → result string response).
Context (done : list event → bool) (db_ok : list event → bool) (list_answer : list event → rows_answer) (now : list event → Time).
Context (marshal : list (string * Json.json) → option string).
Context (range : gmap string (ToolCache.cacheEntry (V := list ToolRecord)) →
                 list (string * ToolCache.cacheEntry (V := list ToolRecord))).

(** *** Addresses (ssrf.go) *)
Definition ValidateSSRF (l : list event) (rawURL : string) : option ssrf_error :=
  ValidateURL (lookup l) (match parse rawURL with Ok u => Some (base u) | Err _ => None end).

(** Host, port and path; the scheme is always mcp. *)
Definition ParseMCPURI (uri : string) : result uri_error (string * string * string) :=
  if negb (String.prefix "mcp://" uri) then Err (NotMcp uri)
  else match parse ("http://" +:+ str_drop (String.length "mcp://") uri) with
  | Err e => Err (BadFormat e)
  | Ok u =>
    Ok (Hostname (base u),
        if bool_decide (Port (base u) = "") then "8080" else Port (base u),
        if bool_decide (UPath u = "") then "/" else UPath u)
  end.
Definition server_url (host port path : string) : string := "http://" +:+ host +:+ ":" +:+ port +:+ path.

Fixpoint ValidateMCPServers (uris : list string) : option (string * uri_error) :=
  match uris with
  | [] => None
  | uri :: uris => match ParseMCPURI uri with Err e => Some (uri, e) | Ok _ => ValidateMCPServers uris end
  end.

(** *** Requests *)
Definition request (method url : string) (l : list event) : list event * result string response :=
  let l := l ++ [Http method url] in (l, answer l).

Definition CheckServer (serverURL : string) (l : list event) : list event * HealthCheckResult :=
  let unavailable e := {| Available := false; HError := e |} in
  match ValidateSSRF l serverURL with
  | Some e => (l, unavailable ("SSRF validation failed: " +:+ ssrf_text e))
  | None =>
    match parse serverURL with
    | Err e => (l, unavailable ("failed to create request: " +:+ e))
    | Ok _ =>
      match request "GET" serverURL l with
      | (l, Err e) => (l, unavailable ("server unreachable: " +:+ e))
      | (l, Ok resp) =>
        (l, if bool_decide (StatusCode resp < 500) then {| Available := true; HError := "" |}
            else unavailable ("server error: HTTP " +:+ Itoa (StatusCode resp)))
      end
    end
  end.

Definition ParseToolList (data : string) : result string (list ToolDefinition) :=
  match decode_list data with
  | Some defs => Ok defs
  | None => Err ("failed to parse MCP tool list: " +:+ json_error data)
  end.

Definition extractToolsGet (serverURL : string) (l : list event) : list event * result string (list ToolDefinition) :=
  let listURL := serverURL +:+ "/tools/list" in
  match parse listURL with
  | Err e => (l, Err ("failed to create GET request: " +:+ e))
  | Ok _ =>
    match request "GET" listURL l with
    | (l, Err e) => (l, Err ("MCP server unreachable: " +:+ e))
    | (l, Ok resp) =>
      (l, if bool_decide (StatusCode resp ≠ 200) then Err ("MCP server returned HTTP " +:+ Itoa (StatusCode resp))
          else match ReadAll 65536 resp with
          | Err e => Err ("failed to read response: " +:+ e)
          | Ok body => ParseToolList body
          end)
    end
  end.

Definition extractTools (serverURL : string) (l : list event) : list event * result string (list ToolDefinition) :=
  let listURL := serverURL +:+ "/tools/list" in
  if bool_decide (serverURL = "") then (l, Err "empty server URL")
  else match parse listURL with
  | Err e => (l, Err ("failed to create request: " +:+ e))
  | Ok _ =>
    match request "POST" listURL l with
    | (l, Err _) => extractToolsGet serverURL l
    | (l, Ok resp) =>
      (l, if bool_decide (StatusCode resp ≠ 200)
          then Err ("MCP server returned HTTP " +:+ Itoa (StatusCode resp) +:+ ": " +:+ str_take 4096 (Body resp))
          else match ReadAll 65536 resp with
          | Err e => Err ("failed to read response: " +:+ e)
          | Ok body =>
            match ParseToolList body with
            | Err e => Err ("failed to parse tool list: " +:+ e)
            | Ok defs => Ok defs
            end
          end)
    end
  end.

Definition DiscoverSchemas (serverURL : string) (l : list event) : list event * result string (list ToolDefinition) :=
  match ValidateSSRF l serverURL with
  | Some e => (l, Err ("SSRF validation failed: " +:+ ssrf_text e))
  | None => extractTools serverURL l
  end.

(** One round: the health check, then the list. *)
Definition attempt (serverURL uri : string) (l : list event) : list event * result string (list ToolDefinition) :=
  let '(l, h) := CheckServer serverURL l in
  if Available h then
    match extractTools serverURL l with
    | (l, Err e) => (l, Err ("extract from " +:+ Quote unicode_quote uri +:+ ": " +:+ e))
    | (l, Ok defs) => (l, Ok defs)
    end
  else (l, Err ("server " +:+ Quote unicode_quote uri +:+ " unavailable: " +:+ HError h)).

(** The loop from attempt [n] on; [fuel] is the number of attempts left. *)
Fixpoint attempts (fuel n : nat) (serverURL uri : string) (l : list event) : list event * result string (list ToolDefinition) :=
  match fuel with
  | O => (l, Err "")
  | S fuel =>
    match attempt serverURL uri l with
    | (l, Ok defs) => (l, Ok defs)
    | (l, Err lastErr) =>
      if bool_decide (n = maxAttempts) then (l, Err lastErr)
      else
        let delay := nth (n - 1) delays 0 in
        if done l then (l, Err ("discovery cancelled for " +:+ Quote unicode_quote uri +:+ ": " +:+ lastErr))
        else attempts fuel (S n) serverURL uri (l ++ [Slept delay])
    end
  end.
Definition discoverServerWithRetry (serverURL uri : string) (l : list event) :
    list event * result string (list ToolDefinition) :=
  attempts maxAttempts 1 serverURL uri l.

(** *** Registration *)
Definition ToToolRecord (td : ToolDefinition) : ToolRecord :=
  {| ToID := ""; ToName := Name td; ToDescription := Description td;
     ToCode := match InputSchema td with Some m => match marshal m with Some s => s | None => "" end | None => "" end;
     ToCategory := if bool_decide (Category td = "") then "retrieval" else Category td;
     ToVersion := if bool_decide (Version td = "") then "0.1.0" else Version td;
     ToHealthStatus := StatusUnknown; ToSourceType := "mcp" |}.
Definition with_id (id : string) (t : ToolRecord) : ToolRecord :=
  {| ToID := id; ToName := ToName t; ToDescription := ToDescription t; ToCode := ToCode t; ToCategory := ToCategory t;
     ToVersion := ToVersion t; ToHealthStatus := ToHealthStatus t; ToSourceType := ToSourceType t |}.

(** The listing, with what the database and the clock say now. *)
Definition list_tools (w : World) : World * result repo_error (list ToolRecord) :=
  let w := logged Listed w in
  let '(r, res) := ListTools range (now (log w)) (list_answer (log w)) (repo w) in (with_repo r w, res).

(** [Ok None]: no tool has the name. *)
Definition findToolByName (name : string) (w : World) : World * result repo_error (option ToolRecord) :=
  match list_tools w with
  | (w, Err e) => (w, Err e)
  | (w, Ok ts) => (w, Ok (match list_find (λ t, ToName t = name) ts with Some (_, t) => Some t | None => None end))
  end.

Definition register_tool (w : World) (toolDef : ToolDefinition) : World :=
  let toolRecord := ToToolRecord toolDef in
  match findToolByName (ToName toolRecord) w with
  | (w, Err _) => w
  | (w, Ok (Some _)) => w
  | (w, Ok None) =>
    let toolRecord := if bool_decide (ToID toolRecord = "") then with_id ("mcp-" +:+ ToName toolRecord) toolRecord else toolRecord in
    let w := logged (Created (ToName toolRecord)) w in
    with_repo (CreateTool (db_ok (log w)) toolRecord (repo w)).1 w
  end.

Definition discover_server (uri : string) (w : World) : World * option disc_error :=
  match ParseMCPURI uri with
  | Err e => (w, Some (InvalidURI uri e))
  | Ok (host, port, path) =>
    let serverURL := server_url host port path in
    match ValidateSSRF (log w) serverURL with
    | Some e => (w, Some (Blocked uri e))
    | None =>
      match discoverServerWithRetry serverURL uri (log w) with
      | (l, Err e) => (with_log l w, Some (Failed e))
      | (l, Ok defs) => (foldl register_tool (with_log l w) defs, None)
      end
    end
  end.

(** The servers in order, with the errors so far. *)
Definition discover_all (uris : list string) (w : World) : World * list disc_error :=
  foldl (λ '(w, errs) uri,
    let '(w, e) := discover_server uri w in (w, match e with Some e => errs ++ [e] | None => errs end)) (w, []) uris.

Definition Discover (uris : list string) (w : World) : World * option string :=
  let '(w, allErrors) := discover_all uris w in
  (w, if bool_decide (0 < length allErrors)%nat && bool_decide (length allErrors = length uris)
      then Some ("all " +:+ Itoa (Z.of_nat (length uris)) +:+ " MCP servers failed") else None).

(** *** Health *)
Definition update_health (status : string) (w : World) (tool : ToolRecord) : World :=
  if bool_decide (ToSourceType tool = "mcp") then
    let w := logged (HealthSet (ToID tool) status) w in
    with_repo (UpdateHealthStatus (db_ok (log w)) (ToID tool) status (repo w)).1 w
  else w.

Definition check_server_health (w : World) (uri : string) : World :=
  match ParseMCPURI uri with
  | Err _ => w
  | Ok (host, port, path) =>
    let '(l, res) := CheckServer (server_url host port path) (log w) in
    match list_tools (with_log l w) with
    | (w, Err _) => w
    | (w, Ok ts) => foldl (update_health (if Available res then StatusHealthy else StatusDown)) w ts
    end
  end.
Definition checkServerHealth (uris : list string) (w : World) : World := foldl check_server_health w uris.

(** *** Start and stop *)

(** [running], then the world.  An error of the first discovery is logged only; the health
    checks that follow are [checkServerHealth] at each tick. *)
Definition Start (uris : list string) (st : bool * World) : bool * World * option string :=
  let '(running, w) := st in
  if running then (running, w, Some "discovery engine already running")
  else (true, (Discover uris w).1, None).
Definition Stop (st : bool * World) : bool * World := (false, st.2).

(** *** Which servers are asked *)






Lemma CheckServer_blocked url l e : ValidateSSRF l url = Some e → (CheckServer url l).1 = l.
Proof. intros He. unfold CheckServer. by rewrite He. Qed.

(** The attempts: at most three, the first two followed by a pause of two and of four
    seconds; the third delay is never used. *)
Definition pauses (l : list event) : list Duration := omap (λ e, match e with Slept d => Some d | _ => None end) l.

Lemma attempt_pauses url uri l : ∃ new, (attempt url uri l).1 = l ++ new ∧ pauses new = [].
Proof.
  assert (∀ u l, ∃ new, (CheckServer u l).1 = l ++ new ∧ pauses new = []) as Hc.
  { intros u l0. unfold CheckServer, request. repeat case_match; simplify_eq; cbn [fst];
      try (exists []; by rewrite app_nil_r); by eexists [_]. }
  assert (∀ u l, ∃ new, (extractTools u l).1 = l ++ new ∧ pauses new = []) as He.
  { intros u l0. unfold extractTools, extractToolsGet, request. repeat case_match; simplify_eq; cbn [fst];
      try (exists []; by rewrite app_nil_r); try (by eexists [_]); by eexists [_; _]; rewrite <- app_assoc. }
  unfold attempt. destruct (Hc url l) as (n1 & E1 & P1). destruct (CheckServer url l) as [l1 h]. cbn [fst] in E1. subst l1.
  destruct (Available h); [|by exists n1]. destruct (He url (l ++ n1)) as (n2 & E2 & P2).
  destruct (extractTools url (l ++ n1)) as [l2 [d|e]]; cbn [fst] in *; subst l2; exists (n1 ++ n2);
    unfold pauses in *; by rewrite omap_app, P1, P2, app_assoc.
Qed.

Theorem retry_pauses (serverURL uri : string) (l : list event) :
  ∃ new, (discoverServerWithRetry serverURL uri l).1 = l ++ new ∧ pauses new `prefix_of` [2 * second; 4 * second].
Proof.
  unfold discoverServerWithRetry, maxAttempts. cbn [attempts nth Nat.sub delays].
  destruct (attempt_pauses serverURL uri l) as (n1 & E1 & P1).
  destruct (attempt serverURL uri l) as [l1 [d|e]]; cbn [fst] in E1; subst l1;
    [exists n1; rewrite P1; split; [done|apply prefix_nil]|].
  rewrite bool_decide_eq_false_2 by done. destruct (done _); [exists n1; rewrite P1; split; [done|apply prefix_nil]|].
  destruct (attempt_pauses serverURL uri ((l ++ n1) ++ [Slept (2 * second)])) as (n2 & E2 & P2).
  destruct (attempt serverURL uri _) as [l2 [d|e2]]; cbn [fst] in E2; subst l2;
    [|rewrite bool_decide_eq_false_2 by done; destruct (done _)].
  1,2: exists (n1 ++ [Slept (2 * second)] ++ n2); rewrite !app_assoc; split; [done|];
       unfold pauses in *; rewrite !omap_app, P1, P2; by eexists.
  set (l2 := ((l ++ n1) ++ [Slept (2 * second)]) ++ n2).
  destruct (attempt_pauses serverURL uri (l2 ++ [Slept (4 * second)])) as (n3 & E3 & P3).
  exists (n1 ++ [Slept (2 * second)] ++ n2 ++ [Slept (4 * second)] ++ n3).
  destruct (attempt serverURL uri _) as [l3 [d|e3]]; cbn [fst] in E3; subst l3; cbn [fst];
    (split; [by unfold l2; rewrite !app_assoc|unfold pauses in *; rewrite !omap_app, P1, P2, P3; by eexists]).
Qed.

(** *** What discovery registers *)
Abbreviation tools r := (system_tools (tables r)).
Abbreviation keyed := Adaptation.Adaptation.keyed.




Lemma list_tools_whole w : (∀ l, intact (list_answer l)) → fresh (repo w) →
  let '(w', res) := list_tools w in
  fresh (repo w') ∧ tables (repo w') = tables (repo w) ∧ log w' = log w ++ [Listed] ∧
  match res with Ok ts => ts = tool_rows (repo w) | Err _ => list_answer (log w') = Refused end.
Proof.
  intros Hi Hf. unfold list_tools.
  destruct (list_fresh range (now (log (logged Listed w))) (list_answer (log (logged Listed w))) (repo w) (Hi _) Hf) as (H1 & H2 & H3).
  destruct (ListTools _ _ _ _) as [r res]. cbn [fst snd] in *. split_and!; [done|done|done|]. destruct res; [done|by destruct H3].
Qed.
Lemma fresh_current r : fresh r → current r.
Proof. intros Hf e He. by rewrite (Hf e He). Qed.

Lemma elem_of_rows r t : keyed r → t ∈ tool_rows r ↔ tools r !! ToID t = Some t.
Proof.
  intros Hk. unfold tool_rows. rewrite list_elem_of_fmap. split.
  - intros ([k u] & -> & Hu%elem_of_map_to_list). cbn. by rewrite (Hk k u Hu).
  - intros Ht. exists (ToID t, t). by rewrite elem_of_map_to_list.
Qed.











(** A second start does nothing until the engine is stopped, and a start never fails for
    what the servers answer. *)
Lemma Start_once uris w :
  let '(running, w1, e) := Start uris (false, w) in
  running = true ∧ e = None ∧ Start uris (running, w1) = (true, w1, Some "discovery engine already running") ∧
  (Start uris (Stop (running, w1))).2 = None.
Proof. done. Qed.

(** The list of a server whose URI has no path is asked for under a doubled slash. *)
Theorem root_path_doubled (uri host port path : string) (u : url) :
  parse ("http://" +:+ str_drop (String.length "mcp://") uri) = Ok u → UPath u = "" →
  ParseMCPURI uri = Ok (host, port, path) →
  server_url host port path +:+ "/tools/list" = "http://" +:+ host +:+ ":" +:+ port +:+ "//tools/list".
Proof.
  intros Hp Hu. unfold ParseMCPURI. destruct (negb _); [done|]. rewrite Hp, Hu. intros [= <- <- <-].
  unfold server_url. by rewrite !str_app_assoc.
Qed.

(** *** Health checks *)
Definition with_status (s : string) (t : ToolRecord) : ToolRecord :=
  {| ToID := ToID t; ToName := ToName t; ToDescription := ToDescription t; ToCode := ToCode t; ToCategory := ToCategory t;
     ToVersion := ToVersion t; ToHealthStatus := s; ToSourceType := ToSourceType t |}.
Definition mark (s : string) (t : ToolRecord) : ToolRecord :=
  if bool_decide (ToSourceType t = "mcp") then with_status s t else t.

Lemma mark_mark s s' t : mark s (mark s' t) = mark s t.
Proof. unfold mark. repeat case_bool_decide; by destruct t. Qed.

Section Healthy.
(** The database answers. *)
Context (db_up : ∀ l, db_ok l = true) (lists_up : ∀ l, list_answer l = Rows (λ _, true) None).
Lemma lists_intact l : intact (list_answer l).
Proof. by rewrite lists_up. Qed.

Lemma update_health_spec s w t : fresh (repo w) →
  let w' := update_health s w t in
  fresh (repo w') ∧
  tools (repo w') = if bool_decide (ToSourceType t = "mcp") then alter (with_status s) (ToID t) (tools (repo w)) else tools (repo w).
Proof.
  intros Hf. unfold update_health. case_bool_decide; [|done]. cbn [repo with_repo logged log].
  split; [by apply (exec_tools_cached eq)|]. unfold UpdateHealthStatus. rewrite db_up.
  match goal with |- context [exec_tools (sql_update true ?id _ ?f _) ?r] => pose proof (Adaptation.exec_update true id f r) as Hu end.
  unfold exec_tools, exec, sql_update in *. done.
Qed.

(** Updating every MCP tool of a list, each of which is a row of the table. *)
Lemma update_all_spec s ts w : fresh (repo w) → NoDup (ToID <$> ts) →
  Forall (λ t, tools (repo w) !! ToID t = Some t) ts →
  let w' := foldl (update_health s) w ts in
  fresh (repo w') ∧
  (∀ t, t ∈ ts → tools (repo w') !! ToID t = Some (mark s t)) ∧
  (∀ i, i ∉ ToID <$> ts → tools (repo w') !! i = tools (repo w) !! i).
Proof.
  revert w. induction ts as [|t ts IH]; intros w Hf Hnd Hrows; cbn; [by split_and!; [done|intros t ?%elem_of_nil|]|].
  apply NoDup_cons in Hnd as [Hni Hnd]. apply Forall_cons in Hrows as [Ht Hrows].
  destruct (update_health_spec s w t Hf) as [F1 T1].
  assert (∀ i, i ≠ ToID t → tools (repo (update_health s w t)) !! i = tools (repo w) !! i) as Hother.
  { intros i Hi. rewrite T1. case_bool_decide; [|done]. by rewrite lookup_alter_ne. }
  destruct (IH (update_health s w t)) as (F2 & M2 & O2); [done|done| |].
  { rewrite Forall_forall in *. intros u Hu. rewrite Hother; [by apply Hrows|]. intros E. apply Hni. rewrite <- E.
    by apply list_elem_of_fmap_2. }
  split_and!; [done| |].
  - intros u [->|Hu]%elem_of_cons; [|by apply M2]. rewrite O2 by done. rewrite T1. unfold mark.
    case_bool_decide; [|done]. by rewrite lookup_alter_eq, Ht.
  - intros i. rewrite not_elem_of_cons. intros [Hi Hn]. by rewrite O2, Hother.
Qed.

Lemma check_server_health_spec w uri h p pa : fresh (repo w) → keyed (repo w) → ParseMCPURI uri = Ok (h, p, pa) →
  let w' := check_server_health w uri in
  fresh (repo w') ∧
  tools (repo w') = mark (if Available (CheckServer (server_url h p pa) (log w)).2 then StatusHealthy else StatusDown) <$> tools (repo w).
Proof.
  intros Hf Hk Hu. unfold check_server_health. rewrite Hu.
  destruct (CheckServer (server_url h p pa) (log w)) as [l res]. cbn [snd].
  pose proof (list_tools_whole (with_log l w) lists_intact Hf) as Hl. destruct (list_tools (with_log l w)) as [w1 r1].
  destruct Hl as (F1 & T1 & L1 & R1). cbn [repo with_log] in *. rewrite lists_up in R1. destruct r1 as [ts|e]; [|done]. subst ts.
  set (s := if Available res then StatusHealthy else StatusDown).
  assert (keyed (repo w1)) as K1 by (unfold Adaptation.keyed; by rewrite T1).
  destruct (update_all_spec s (tool_rows (repo w)) w1) as (F2 & M2 & O2); [done| | |].
  - unfold tool_rows. assert (∀ m : gmap string ToolRecord, (∀ i t, m !! i = Some t → ToID t = i) →
      ToID <$> (map_to_list m).*2 = (map_to_list m).*1) as ->; [|apply NoDup_fst_map_to_list|by apply Hk].
    intros m Hm. rewrite <- list_fmap_compose. apply list_fmap_ext. intros i [k t] Hi%list_elem_of_lookup_2.
    cbn. apply elem_of_map_to_list in Hi. by apply Hm.
  - rewrite Forall_forall. intros t Ht. rewrite T1. by apply elem_of_rows.
  - split; [done|]. apply map_eq. intros i. rewrite lookup_fmap. destruct (tools (repo w) !! i) as [t|] eqn:Ei; cbn.
    + rewrite <- (Hk i t Ei). apply M2. rewrite elem_of_rows by done. by rewrite (Hk i t Ei).
    + rewrite O2; [by rewrite T1|]. intros (t & -> & Ht)%list_elem_of_fmap. apply elem_of_rows in Ht; [|done]. congruence.
Qed.

Lemma keyed_mark s m : (∀ id t, m !! id = Some t → ToID t = id) → ∀ id t, (mark s <$> m : gmap string ToolRecord) !! id = Some t → ToID t = id.
Proof.
  intros Hm id t (u & <- & Hu)%lookup_fmap_Some. rewrite <- (Hm id u Hu). unfold mark. by case_bool_decide.
Qed.

Lemma checkServerHealth_marks uris w : fresh (repo w) → keyed (repo w) →
  let w' := checkServerHealth uris w in
  fresh (repo w') ∧ keyed (repo w') ∧ ∀ s, mark s <$> tools (repo w') = mark s <$> tools (repo w).
Proof.
  intros Hf Hk. unfold checkServerHealth. induction uris as [|uri uris IH] using rev_ind; [done|].
  rewrite foldl_app. cbn. destruct IH as (F & K & M). set (w1 := foldl check_server_health w uris) in *.
  destruct (ParseMCPURI uri) as [[[h p] pa]|e] eqn:Eu.
  - destruct (check_server_health_spec w1 uri h p pa F K Eu) as [F2 T2]. split_and!; [done| |].
    + unfold Adaptation.keyed. rewrite T2. by apply keyed_mark.
    + intros s. rewrite T2, <- M. rewrite <- map_fmap_compose. apply map_fmap_ext. intros i t _. apply mark_mark.
  - unfold check_server_health. by rewrite Eu.
Qed.

(** The health checks leave every tool that is not from an MCP server alone, and
    write the state of the last server whose address can be read into all of the others,
    whichever server they came from: if that one is down, the tools of the servers that
    answer are marked as down too. *)
Theorem last_server_decides (uris : list string) (uri host port path : string) (w : World) :
  fresh (repo w) → keyed (repo w) → ParseMCPURI uri = Ok (host, port, path) →
  let before := checkServerHealth uris w in
  let status := if Available (CheckServer (server_url host port path) (log before)).2 then StatusHealthy else StatusDown in
  tools (repo (checkServerHealth (uris ++ [uri]) w)) = mark status <$> tools (repo w).
Proof.
  intros Hf Hk Hu before. destruct (checkServerHealth_marks uris w Hf Hk) as (F & K & M). fold before in F, K, M.
  unfold checkServerHealth. rewrite foldl_app. cbn. fold (checkServerHealth uris w). fold before.
  destruct (check_server_health_spec before uri host port path F K Hu) as [_ ->]. apply M.
Qed.
End Healthy.
End Engine.
End Discovery.

Module ToolSuggest.
Import Discovery Validation Quality Verifier Repository.Repository.
Import Adaptation.Adaptation.
Abbreviation McpDefinition := Adaptation.ToolDefinition.
Abbreviation tools r := (system_tools (tables r)).

(** The adaptation pipeline as the endpoints use it. *)
Record Pipeline := {
  RunSuggestion : McpDefinition → option Repo → option Repo * AdaptationResult;
  RegisterFromSuggestion : AdaptationResult → option Repo → option Repo * option string;
}.

Definition all_passed (res : AdaptationResult) : bool := forallb SPassed (Stages res).

(** What they rely on: suggesting leaves the repository alone and, when every stage
    passed, the result is about the tool and holds a program; registering such a result
    stores the program under the name of the tool, or fails and changes no table. *)
Class PipelineOk (p : Pipeline) : Prop := {
  suggest_ok tool r : let '(r', res) := RunSuggestion p tool r in
    r' = r ∧ (all_passed res = true → RToolDefinition res = tool ∧ AdaptedCode res ≠ "");
  register_ok res r : current r → keyed r → AdaptedCode res ≠ "" →
    let '(mr, err) := RegisterFromSuggestion p res (Some r) in
    ∃ r', mr = Some r' ∧ current r' ∧ keyed r' ∧
      match err with
      | None =>
        if bool_decide (Adaptation.Name (RToolDefinition res) = "") then tables r' = tables r
        else registered_as (Adaptation.Name (RToolDefinition res)) (AdaptedCode res) r r'
      | Some _ => tables r' = tables r
      end;
  register_none res : ∃ e, RegisterFromSuggestion p res None = (None, Some e);
}.

(** The modelled pipeline keeps these promises. *)
Section Pipeline.
Context `{Unicode} `{UnicodeFold}.
Context (unicode_quote : string → string) (parse : string → option (list string)).
Context (code_text : code_error → string) (repo_text : repo_error → string) (duration_text : Duration → string).
Context (range : gmap string (ToolCache.cacheEntry (V := list ToolRecord)) →
                 list (string * ToolCache.cacheEntry (V := list ToolRecord))).
Context (machine : Machine) (db : Db) (VerifyTool : string → Verifier.VerificationConfig → result string Verifier.VerificationResult).

Definition adaptation_pipeline : Pipeline := {|
  RunSuggestion := Adaptation.Adaptation.RunSuggestion unicode_quote parse code_text duration_text machine VerifyTool;
  RegisterFromSuggestion := Adaptation.Adaptation.RegisterFromSuggestion unicode_quote repo_text range db;
|}.

Lemma exec_update_keyed ok id f r : (∀ t, ToID (f t) = ToID t) → keyed r → keyed (exec_tools (sql_update ok id (λ _, true) f (tools r)) r).1.
Proof.
  intros Hf Hk. pose proof (exec_update ok id f r) as Hu. destruct (exec_tools _ r) as [r' [e|]]; cbn [fst] in *; unfold keyed; rewrite Hu; [done|].
  intros i t. destruct (decide (i = id)) as [->|]; [rewrite lookup_alter_eq|rewrite lookup_alter_ne by done; by apply Hk].
  destruct (tools r !! id) as [u|] eqn:E; cbn; [|done]. intros [= <-]. rewrite Hf. by apply Hk.
Qed.

Lemma RegistrationStage_keyed c res r : current r → keyed r →
  from_option keyed True (RegistrationStage unicode_quote repo_text range db c res (Some r)).1.
Proof.
  intros Hf Hk. unfold RegistrationStage. case_bool_decide; [done|].
  pose proof (findExistingToolID_spec range db (Adaptation.Name (ToolDef c)) r Hf Hk) as Hid.
  destruct (findExistingToolID range db _ r) as [r1 id]. destruct Hid as (_ & Ht & _).
  assert (keyed r1) as K1 by (unfold keyed; by rewrite Ht). case_bool_decide.
  - unfold CreateTool, exec_tools, exec, sql_insert. cbn [ToID tool_record].
    destruct (create_ok db && _); cbn; [|by destruct r1].
    intros i t. cbn. intros [[<- <-]|[_ ?]]%lookup_insert_Some; [done|by apply K1].
  - unfold UpdateToolCode, UpdateHealthStatus.
    match goal with |- context [exec_tools (sql_update ?ok id _ ?f _) r1] =>
      pose proof (exec_update_keyed ok id f r1 (λ _, eq_refl) K1) as K2 end.
    destruct (exec_tools _ r1) as [r2 [e|]]; cbn [fst from_option option_map] in *; [done|]. by apply exec_update_keyed.
Qed.

#[export] Instance adaptation_pipeline_ok : PipelineOk adaptation_pipeline.
Proof.
  split.
  - intros tool r. cbn. unfold Adaptation.RunSuggestion. set (c := {| ToolDef := tool; Code := ""; CTemplateType := "" |}).
    pose proof (early_spec unicode_quote parse code_text duration_text machine VerifyTool c (start c) r) as He.
    pose proof (run_stages_report _ _ c (start c) r (early_reports unicode_quote parse code_text duration_text machine VerifyTool)) as Hrep.
    destruct (run_stages _ c (start c) r) as [[r1 res1] ok]. destruct He as (-> & Hdef & Hcode).
    destruct Hrep as (new & Hnew & _ & Hok). cbn in Hnew. destruct ok; cbn.
    + split; [done|]. intros _. split; [done|]. rewrite Hcode by done. apply adapted_nonempty.
    + split; [done|]. destruct Hok as (init & sr & -> & _ & Hf & _). unfold all_passed. rewrite Hnew.
      rewrite forallb_app. cbn. rewrite Hf. by rewrite andb_false_r.
  - intros res r Hf Hk Hc. cbn. unfold Adaptation.RegisterFromSuggestion.
    pose proof (RegistrationStage_keyed {| ToolDef := RToolDefinition res; Code := AdaptedCode res; CTemplateType := "" |} res r Hf Hk) as K.
    pose proof (RegistrationStage_spec unicode_quote repo_text range db
      {| ToolDef := RToolDefinition res; Code := AdaptedCode res; CTemplateType := "" |} res r Hf Hk Hc) as Hr.
    destruct (RegistrationStage _ _ _ _ _ res (Some r)) as [mr sr]. destruct Hr as (r' & -> & F & _ & Hr).
    exists r'. by destruct (SPassed sr).
  - intros res. by eexists.
Qed.
End Pipeline.

(** *** Requests and answers *)
Record HttpRequest := { Method : string; Path : string; ReqBody : response; At : Time }.

Record suggestResponse := {
  SuggestionID : string; SugName : string; SugDescription : string; SugVersion : string; SugStages : list StageResult;
  SugAnalysis : option AnalysisDetail; SugAdaptedCode : string; SugApproved : bool; SugError : string;
}.
Record approveResponse := { Success : bool; AppName : string; AppVersion : string; ToolID : string; AppError : string }.
Inductive reply :=
| PlainError (status : Z) (msg : string)
| SuggestReply (status : Z) (r : suggestResponse)
| ApproveReply (status : Z) (r : approveResponse).

Definition suggest_failed (name e : string) (stages : list StageResult) : suggestResponse :=
  {| SuggestionID := ""; SugName := name; SugDescription := ""; SugVersion := ""; SugStages := stages; SugAnalysis := None;
     SugAdaptedCode := ""; SugApproved := false; SugError := e |}.
Definition approve_failed (name e : string) : approveResponse :=
  {| Success := false; AppName := name; AppVersion := ""; ToolID := ""; AppError := e |}.

Record pendingSuggestion := { PToolDef : McpDefinition; PResult : AdaptationResult; CreatedAt : Time }.
(** The handler, the repository of its pipeline and the events of its discovery engine;
    [waiting]: the cleanup goroutines that are asleep, with the time at which each wakes. *)
Record State := {
  pending : gmap string pendingSuggestion; nextID : Z; waiting : gmap string Time; metaRepo : option Repo; events : list event;
}.
Definition NewToolSuggestHandler (r : option Repo) : State :=
  {| pending := ∅; nextID := 0; waiting := ∅; metaRepo := r; events := [] |}.
Definition with_events (l : list event) (st : State) : State :=
  {| pending := pending st; nextID := nextID st; waiting := waiting st; metaRepo := metaRepo st; events := l |}.
Definition with_meta (r : option Repo) (st : State) : State :=
  {| pending := pending st; nextID := nextID st; waiting := waiting st; metaRepo := r; events := events st |}.

(** The map of a decoded object: of several entries with a key the last one counts. *)
Definition put {A} (k : string) (v : A) (m : list (string * A)) : list (string * A) :=
  filter (λ kv, kv.1 ≠ k) m ++ [(k, v)].

Definition suggestion_id (n : Z) : string := "sug-" +:+ Itoa n.

(** [storePending], with the start of the goroutine that cleans up. *)
Definition cleanup_after : Duration := 5 * minute.
Definition storePending (now : Time) (toolDef : McpDefinition) (res : AdaptationResult) (st : State) : State * string :=
  let id := wrap64 (nextID st + 1) in
  let suggestionID := suggestion_id id in
  ({| pending := <[suggestionID := {| PToolDef := toolDef; PResult := res; CreatedAt := now |}]> (pending st);
      nextID := id; waiting := <[suggestionID := now + cleanup_after]> (waiting st);
      metaRepo := metaRepo st; events := events st |}, suggestionID).
Definition delete_pending (id : string) (st : State) : State :=
  {| pending := delete id (pending st); nextID := nextID st; waiting := waiting st; metaRepo := metaRepo st; events := events st |}.
(** The two ways in which a cleanup goroutine ends: its ticker fires, at the earliest after the
    five minutes, and it deletes the suggestion; or the context of the request is done first,
    and it returns. *)
Definition end_cleanup (id : string) (st : State) : State :=
  {| pending := pending st; nextID := nextID st; waiting := delete id (waiting st); metaRepo := metaRepo st; events := events st |}.
Definition cleanup_fires (now : Time) (id : string) (st : State) : State :=
  match waiting st !! id with
  | Some wakes => if bool_decide (wakes ≤ now) then delete_pending id (end_cleanup id st) else st
  | None => st
  end.
Definition context_done (id : string) (st : State) : State := end_cleanup id st.

Section Handler.
Context `{Unicode} (unicode_quote : string → string) (parse : string → result string url) (json_error : string → string).
Context (ssrf_text : Ssrf.ssrf_error → string) (lookup : list event → Ssrf.Resolver) (answer : list event → result string response).
Context (number : string → f64).
Context (mcpServerURIs : list string).

Fixpoint any_of (v : Json.json) : any :=
  match v with
  | Json.JNull => AnyNil
  | Json.JBool b => AnyBool b
  | Json.JNum lit => AnyNum (number lit)
  | Json.JStr s => AnyStr s
  | Json.JArr l => AnyList (any_of <$> l)
  | Json.JObj m => AnyMap (foldl (λ acc kv, put kv.1 kv.2 acc) [] ((λ kv, (kv.1, any_of kv.2)) <$> m))
  end.
(** The definition as the pipeline reads it; a nil map has no entries. *)
Definition handed (t : ToolDefinition) : McpDefinition :=
  {| Adaptation.Name := Name t; Adaptation.Description := Description t;
     Adaptation.InputSchema := match InputSchema t with
                               | Some m => foldl (λ acc kv, put kv.1 kv.2 acc) [] ((λ kv, (kv.1, any_of kv.2)) <$> m)
                               | None => [] end;
     Adaptation.Version := Version t; Adaptation.Category := Category t |}.

Definition discover_url (raw : string) : string :=
  match ParseMCPURI parse raw with Ok (h, p, pa) => server_url h p pa | Err _ => raw end.
Fixpoint search_servers (name : string) (urls : list string) (l : list event) : list event * option ToolDefinition :=
  match urls with
  | [] => (l, None)
  | raw :: urls =>
    match DiscoverSchemas parse json_error ssrf_text lookup answer (discover_url raw) l with
    | (l, Err _) => search_servers name urls l
    | (l, Ok defs) =>
      match list_find (λ t, Name t = name) defs with
      | Some (_, t) => (l, Some t)
      | None => search_servers name urls l
      end
    end
  end.
Definition discoverMCPTool (name serverURL : string) (l : list event) : list event * result string ToolDefinition :=
  let urls := if bool_decide (serverURL = "") then mcpServerURIs else [serverURL] in
  if bool_decide (urls = []) then (l, Err "no MCP servers configured and no server_url provided")
  else match search_servers name urls l with
  | (l, Some t) => (l, Ok t)
  | (l, None) => (l, Err ("tool " +:+ Quote unicode_quote name +:+ " not found on any MCP server"))
  end.

Definition suggested (id : string) (t : McpDefinition) (res : AdaptationResult) : suggestResponse :=
  {| SuggestionID := id; SugName := Adaptation.Name t; SugDescription := Adaptation.Description t; SugVersion := RVersion res;
     SugStages := Stages res; SugAnalysis := if bool_decide (ALanguage (Analysis res) = "") then None else Some (Analysis res);
     SugAdaptedCode := AdaptedCode res; SugApproved := false; SugError := "" |}.

(** Two string fields of a body, read up to 4096 bytes; [Err] is the answer to give. *)
Definition read_fields (failed : string → reply) (a b : string) (req : HttpRequest) : result reply (string * string) :=
  if bool_decide (Method req ≠ "POST") then Err (PlainError 405 "method not allowed")
  else match ReadAll 4096 (ReqBody req) with
  | Err _ => Err (PlainError 400 "failed to read request")
  | Ok body =>
    match m ← Json.config body; x ← Json.string_field a m; y ← Json.string_field b m; Some (x, y) with
    | Some xy => Ok xy
    | None => Err (failed ("invalid JSON: " +:+ json_error body))
    end
  end.

Definition HandleSuggest (p : Pipeline) (req : HttpRequest) (st : State) : State * reply :=
  let bad e := SuggestReply 400 (suggest_failed "" e []) in
  match read_fields bad "name" "server_url" req with
  | Err rep => (st, rep)
  | Ok (name, serverURL) =>
    if bool_decide (name = "") then (st, bad "name is required")
    else match discoverMCPTool name serverURL (events st) with
    | (l, Err e) => (with_events l st, SuggestReply 404 (suggest_failed name ("tool discovery failed: " +:+ e) []))
    | (l, Ok t) =>
      let toolDef := handed t in
      let '(r, res) := RunSuggestion p toolDef (metaRepo st) in
      let st := with_meta r (with_events l st) in
      match list_find (λ s, SPassed s = false) (Stages res) with
      | Some (_, s) =>
        (st, SuggestReply 422 (suggest_failed (Adaptation.Name toolDef) ("stage " +:+ SName s +:+ " failed: " +:+ Message s) (Stages res)))
      | None =>
        let '(st, suggestionID) := storePending (At req) toolDef res st in
        (st, SuggestReply 200 (suggested suggestionID toolDef res))
      end
    end
  end.

Definition HandleApprove (p : Pipeline) (req : HttpRequest) (st : State) : State * reply :=
  let bad e := ApproveReply 400 (approve_failed "" e) in
  match read_fields bad "name" "suggestion_id" req with
  | Err rep => (st, rep)
  | Ok (name, id) =>
    if bool_decide (name = "") || bool_decide (id = "") then (st, bad "name and suggestion_id are required")
    else match pending st !! id with
    | None => (st, ApproveReply 404 (approve_failed name "suggestion not found or expired"))
    | Some sug =>
      let st := delete_pending id st in
      if bool_decide (Adaptation.Name (PToolDef sug) ≠ name) then
        (st, ApproveReply 400 (approve_failed name ("suggestion name mismatch: got " +:+ Quote unicode_quote (Adaptation.Name (PToolDef sug))
               +:+ ", expected " +:+ Quote unicode_quote name)))
      else match RegisterFromSuggestion p (PResult sug) (metaRepo st) with
      | (r, Some e) => (with_meta r st, ApproveReply 500 (approve_failed name ("registration failed: " +:+ e)))
      | (r, None) =>
        (with_meta r st, ApproveReply 200 {| Success := true; AppName := name; AppVersion := RVersion (PResult sug);
                                             ToolID := name +:+ "-adapted"; AppError := "" |})
      end
    end
  end.

Definition ServeHTTP (p : Pipeline) (req : HttpRequest) (st : State) : State * reply :=
  if bool_decide (Path req = "/api/v1/tools/suggest") then HandleSuggest p req st
  else if bool_decide (Path req = "/api/v1/tools/suggest/approve") then HandleApprove p req st
  else (st, PlainError 404 "not found").

(** *** The life of a suggestion *)

(** Identifiers that were given out, each with a program for the tool it is about. *)
Definition sound (s : pendingSuggestion) : Prop :=
  AdaptedCode (PResult s) ≠ "" ∧ RToolDefinition (PResult s) = PToolDef s.
Definition issued (st : State) (id : string) : Prop := ∃ n, id = suggestion_id n ∧ 1 ≤ n ≤ nextID st.
Definition inv (st : State) : Prop :=
  0 ≤ nextID st ∧ (∀ id s, pending st !! id = Some s → issued st id ∧ sound s) ∧
  from_option (λ r, current r ∧ keyed r) True (metaRepo st).

Lemma suggestion_id_inj n m : is_int64 n → is_int64 m → suggestion_id n = suggestion_id m → n = m.
Proof.
  intros Hn Hm. unfold suggestion_id. intros E. assert (Itoa n = Itoa m) as E' by by injection E.
  apply Some_inj. by rewrite <- (Atoi_Itoa n), <- (Atoi_Itoa m), E'.
Qed.

(** What a request that approves nothing does to the suggestions: nothing, or a new one. *)
Inductive effect (st st' : State) : Prop :=
| NoEffect : pending st' = pending st → nextID st' = nextID st → waiting st' = waiting st → effect st st'
| Stored s : sound s → nextID st' = nextID st + 1 →
    pending st' = <[suggestion_id (nextID st + 1) := s]> (pending st) →
    waiting st' = <[suggestion_id (nextID st + 1) := CreatedAt s + cleanup_after]> (waiting st) → effect st st'.

Lemma all_passed_find res : list_find (λ s, SPassed s = false) (Stages res) = None → all_passed res = true.
Proof.
  intros Hn%list_find_None. apply forallb_forall. intros s Hs. rewrite Forall_forall in Hn.
  specialize (Hn s). apply list_elem_of_In in Hs. destruct (SPassed s); naive_solver.
Qed.

Lemma storePending_spec now t res st : 0 ≤ nextID st < 2 ^ 62 →
  storePending now t res st =
  ({| pending := <[suggestion_id (nextID st + 1) := {| PToolDef := t; PResult := res; CreatedAt := now |}]> (pending st);
      nextID := nextID st + 1; waiting := <[suggestion_id (nextID st + 1) := now + cleanup_after]> (waiting st);
      metaRepo := metaRepo st; events := events st |}, suggestion_id (nextID st + 1)).
Proof.
  intros Hn. unfold storePending. by rewrite wrap64_id by (unfold is_int64, min_int64, max_int64; lia).
Qed.

Lemma HandleSuggest_effect p req st : PipelineOk p → 0 ≤ nextID st < 2 ^ 62 →
  let '(st', rep) := HandleSuggest p req st in
  effect st st' ∧ metaRepo st' = metaRepo st ∧
  (∀ r, rep = SuggestReply 200 r → ∃ s, sound s ∧ AdaptedCode (PResult s) = SugAdaptedCode r ∧
     Adaptation.Name (PToolDef s) = SugName r ∧ pending st' !! SuggestionID r = Some s).
Proof.
  intros Hp Hn. unfold HandleSuggest.
  destruct (read_fields _ _ _ req) as [[name serverURL]|rep] eqn:Er.
  2: { split_and!; [by apply NoEffect|done|]. intros r ->. unfold read_fields in Er. by repeat case_match. }
  case_bool_decide; [split_and!; [by apply NoEffect|done|done]|].
  destruct (discoverMCPTool name serverURL (events st)) as [l [t|e]]; [|split_and!; [by apply NoEffect|done|done]].
  pose proof (suggest_ok (handed t) (metaRepo st)) as Hs. destruct (RunSuggestion p (handed t) (metaRepo st)) as [r res].
  destruct Hs as [-> Hs]. destruct (list_find _ (Stages res)) as [[i s]|] eqn:Ef; [split_and!; [by apply NoEffect|done|done]|].
  apply all_passed_find in Ef. destruct (Hs Ef) as [Hdef Hcode]. rewrite storePending_spec by done. split_and!.
  - by apply (Stored _ _ {| PToolDef := handed t; PResult := res; CreatedAt := At req |}).
  - done.
  - intros r [= <-]. eexists. split_and!; [| | |apply lookup_insert_eq]; done.
Qed.

(** The suggestion that a request approves, if it is a request to approve. *)
Definition approves (req : HttpRequest) : option (string * string) :=
  if bool_decide (Path req = "/api/v1/tools/suggest/approve") then
    match read_fields (PlainError 400) "name" "suggestion_id" req with
    | Ok (name, id) => if bool_decide (name = "") || bool_decide (id = "") then None else Some (name, id)
    | Err _ => None
    end
  else None.

Lemma read_fields_ext f g a b req :
  match read_fields f a b req, read_fields g a b req with Ok x, Ok y => x = y | Err _, Err _ => True | _, _ => False end.
Proof. unfold read_fields. case_bool_decide; [done|]. destruct (ReadAll 4096 (ReqBody req)); [|done]. by destruct (m ← _; _). Qed.

Lemma HandleApprove_pending p req st : Path req = "/api/v1/tools/suggest/approve" →
  let '(st', _) := HandleApprove p req st in
  nextID st' = nextID st ∧ waiting st' = waiting st ∧
  pending st' = match approves req with Some (_, id) => delete id (pending st) | None => pending st end.
Proof.
  intros Hpath. unfold HandleApprove, approves. rewrite bool_decide_eq_true_2 by done.
  pose proof (read_fields_ext (λ e, ApproveReply 400 (approve_failed "" e)) (PlainError 400) "name" "suggestion_id" req) as Hx.
  destruct (read_fields _ _ _ req) as [[name id]|rep]; destruct (read_fields (PlainError 400) _ _ req) as [[name' id']|rep'];
    [|done|done|done]. simplify_eq. destruct (_ || _); [done|].
  destruct (pending st !! id') as [s|] eqn:Es; [|by rewrite delete_id].
  case_bool_decide; [done|]. by destruct (RegisterFromSuggestion p (PResult s) _) as [r [e|]].
Qed.

Lemma ServeHTTP_effect p req st : PipelineOk p → 0 ≤ nextID st < 2 ^ 62 →
  let st' := (ServeHTTP p req st).1 in
  match approves req with
  | Some (_, id) => nextID st' = nextID st ∧ waiting st' = waiting st ∧ pending st' = delete id (pending st)
  | None => effect st st'
  end.
Proof.
  intros Hp Hn. unfold ServeHTTP. case_bool_decide as E1.
  - assert (approves req = None) as -> by (unfold approves; by rewrite E1).
    pose proof (HandleSuggest_effect p req st Hp Hn) as He. destruct (HandleSuggest p req st). by destruct He.
  - case_bool_decide as E2; [|unfold approves; rewrite bool_decide_eq_false_2 by done; by apply NoEffect].
    pose proof (HandleApprove_pending p req st E2) as Ha. destruct (HandleApprove p req st) as [st' rep]. cbn.
    destruct Ha as (H1 & H2 & H3). destruct (approves req) as [[name id]|]; [done|by apply NoEffect].
Qed.

(** Requests in the order in which they are served, each with the pipeline as it is then,
    and the ends of cleanup goroutines. *)
Inductive action := Serve (p : Pipeline) (req : HttpRequest) | Fires (now : Time) (id : string) | Done (id : string).
Definition act (st : State) (a : action) : State :=
  match a with
  | Serve p req => (ServeHTTP p req st).1
  | Fires now id => cleanup_fires now id st
  | Done id => context_done id st
  end.
Definition run (acts : list action) (st : State) : State := foldl act st acts.
Definition takes (id : string) (a : action) : bool :=
  match a with Serve _ req => bool_decide (snd <$> approves req = Some id) | _ => false end.
Definition works (a : action) : Prop := match a with Serve p _ => PipelineOk p | _ => True end.
(** Whether the cleanup of a suggestion, which wakes at [wakes] if it is asleep, finds its
    ticker fired before the context of the request is done. *)
Fixpoint expires (wakes : option Time) (id : string) (acts : list action) : bool :=
  match wakes, acts with
  | None, _ | _, [] => false
  | Some t, Fires now i :: acts => (bool_decide (i = id) && bool_decide (t ≤ now)) || expires wakes id acts
  | Some _, Done i :: acts => if bool_decide (i = id) then false else expires wakes id acts
  | Some _, Serve _ _ :: acts => expires wakes id acts
  end.

Lemma expires_None id acts : expires None id acts = false.
Proof. by destruct acts. Qed.

(** What one action does to a suggestion that was given out, and to its cleanup. *)
Lemma act_lookup a st n : works a → 0 ≤ nextID st < 2 ^ 62 → 1 ≤ n ≤ nextID st →
  let id := suggestion_id n in
  nextID st ≤ nextID (act st a) ≤ nextID st + 1 ∧
  (∀ acts, pending (act st a) !! id =
     (if takes id a || match a with Fires now i => bool_decide (i = id) && match waiting st !! id with Some t => bool_decide (t ≤ now) | None => false end | _ => false end
      then None else pending st !! id) ∧
   (pending (act st a) !! id = pending st !! id →
     expires (waiting st !! id) id (a :: acts) =
       match a with Fires now i => bool_decide (i = id) && match waiting st !! id with Some t => bool_decide (t ≤ now) | None => false end | _ => false end
       || expires (waiting (act st a) !! id) id acts)).
Proof.
  intros Hw Hn Hid id. destruct a as [p req|now i|i].
  - cbn [works act takes] in *. pose proof (ServeHTTP_effect p req st Hw Hn) as He. cbn in He. destruct (approves req) as [[name id']|]; cbn [snd fmap option_fmap option_map].
    + destruct He as (-> & -> & ->). split; [lia|]. intros acts. rewrite orb_false_r. split.
      * case_bool_decide as E; [injection E as ->; apply lookup_delete_eq|]. rewrite lookup_delete_ne; [done|]. congruence.
      * intros _. cbn. destruct (waiting st !! id); [done|by rewrite expires_None].
    + rewrite bool_decide_eq_false_2 by done. destruct He as [-> -> ->|s _ -> -> ->]; (split; [lia|]); intros acts; cbn [orb].
      * split; [done|]. intros _. cbn. destruct (waiting st !! id); [done|by rewrite expires_None].
      * assert (suggestion_id (nextID st + 1) ≠ id) as Hne.
        { intros E. apply suggestion_id_inj in E; unfold is_int64, min_int64, max_int64; lia. }
        rewrite !lookup_insert_ne by done. split; [done|]. intros _. cbn. destruct (waiting st !! id); [done|by rewrite expires_None].
  - cbn [act takes orb]. unfold cleanup_fires. destruct (decide (i = id)) as [->|Hne].
    + rewrite bool_decide_eq_true_2 by done. cbn [andb]. destruct (waiting st !! id) as [t|] eqn:Ew.
      * case_bool_decide as Et; (split; [cbn; lia|]); intros acts; (split; [|intros _; cbn; rewrite bool_decide_eq_true_2 by done]).
        -- cbn. apply lookup_delete_eq.
        -- by rewrite bool_decide_eq_true_2.
        -- done.
        -- rewrite bool_decide_eq_false_2 by done. cbn. by rewrite Ew.
      * split; [lia|]. intros acts. split; [done|]. intros _. rewrite Ew. cbn. by rewrite expires_None.
    + rewrite (bool_decide_eq_false_2 (i = id)) by done. cbn [andb]. destruct (waiting st !! i) as [t|] eqn:Ei.
      2:{ split; [lia|]. intros acts. split; [done|]. intros _. destruct (waiting st !! id) eqn:Ew; [|by rewrite !expires_None]. cbn.
          by rewrite bool_decide_eq_false_2. }
      case_bool_decide; (split; [cbn; lia|]); intros acts; cbn [pending delete_pending end_cleanup waiting]; rewrite ?lookup_delete_ne by done; (split; [done|]); intros _;
        (destruct (waiting st !! id) eqn:Ew; [|by rewrite !expires_None]); cbn; by rewrite bool_decide_eq_false_2.
  - cbn [act takes orb]. unfold context_done. split; [cbn; lia|]. intros acts. split; [done|]. intros _. cbn [waiting end_cleanup].
    destruct (decide (i = id)) as [->|Hne].
    + rewrite lookup_delete_eq, expires_None. destruct (waiting st !! id); [|done]. cbn. by rewrite bool_decide_eq_true_2.
    + rewrite lookup_delete_ne by done. destruct (waiting st !! id); [|by rewrite !expires_None]. cbn. by rewrite bool_decide_eq_false_2.
Qed.

Lemma gone_stays acts st n : Forall works acts → 0 ≤ nextID st → nextID st + Z.of_nat (length acts) < 2 ^ 62 → 1 ≤ n ≤ nextID st →
  pending st !! suggestion_id n = None → pending (run acts st) !! suggestion_id n = None.
Proof.
  revert st. induction acts as [|a acts IH]; intros st Hw H0 Hlen Hn Hnone; [done|]. apply Forall_cons in Hw as [Ha Hw]. cbn [length] in Hlen.
  destruct (act_lookup a st n Ha ltac:(lia) Hn) as [Hb Hl]. destruct (Hl acts) as [Hp _].
  cbn [run foldl]. apply IH; [done|lia|lia|lia|]. rewrite Hp. by destruct (_ || _).
Qed.

Lemma lifecycle acts st n s : Forall works acts → 0 ≤ nextID st → nextID st + Z.of_nat (length acts) < 2 ^ 62 → 1 ≤ n ≤ nextID st →
  pending st !! suggestion_id n = Some s →
  pending (run acts st) !! suggestion_id n =
    if existsb (takes (suggestion_id n)) acts || expires (waiting st !! suggestion_id n) (suggestion_id n) acts then None else Some s.
Proof.
  revert st. induction acts as [|a acts IH]; intros st Hw H0 Hlen Hn Hs; [by destruct (waiting st !! _)|].
  apply Forall_cons in Hw as [Ha Hw]. cbn [length] in Hlen. destruct (act_lookup a st n Ha ltac:(lia) Hn) as [Hb Hl].
  destruct (Hl acts) as [Hp He]. cbn [run foldl existsb]. fold (run acts (act st a)).
  set (here := match a with Fires _ _ => _ | _ => _ end) in *.
  destruct (takes (suggestion_id n) a || here) eqn:Eg.
  - rewrite gone_stays by (done || lia). destruct (takes (suggestion_id n) a) eqn:Et; [done|]. cbn in Eg. destruct a as [|now i|]; [done| |done].
    cbn in here. apply andb_true_iff in Eg as [E1 E2]. destruct (waiting st !! suggestion_id n) as [t|]; [|done]. cbn. rewrite E1, E2. cbn. by rewrite orb_true_r.
  - rewrite Hs in Hp. rewrite (IH (act st a)) by (done || lia). apply orb_false_iff in Eg as [-> Eh]. rewrite He, Eh by by rewrite Hp. done.
Qed.

(** C39: a suggestion waits until the first request that approves its identifier, with
    whatever name and outcome, or until its cleanup wakes, five minutes after it was stored at
    the earliest and only if the context of the request that stored it is not done by then;
    from then on it is gone, so that it is registered at most once: its identifier is never
    given to another suggestion (while fewer than 2^62 are made). *)
Theorem suggestion_lifecycle (acts : list action) (st : State) (id : string) (s : pendingSuggestion) :
  inv st → Forall works acts → nextID st + Z.of_nat (length acts) < 2 ^ 62 → pending st !! id = Some s →
  pending (run acts st) !! id =
    if existsb (takes id) acts || expires (waiting st !! id) id acts then None else Some s.
Proof.
  intros (H0 & Hinv & _) Hw Hlen Hs. destruct (Hinv id s Hs) as [(n & -> & Hn) _]. by apply lifecycle.
Qed.

(** Under net/http the context of a request is done as soon as its handler returns: the
    cleanup ends there, and a suggestion that nobody approves never expires. *)
Theorem suggestion_never_expires (acts : list action) (st : State) (id : string) (s : pendingSuggestion) :
  inv st → Forall works acts → nextID st + Z.of_nat (length acts) < 2 ^ 62 → pending st !! id = Some s →
  pending (run acts (context_done id st)) !! id = if existsb (takes id) acts then None else Some s.
Proof.
  intros (H0 & Hinv & _) Hw Hlen Hs. destruct (Hinv id s Hs) as [(n & -> & Hn) _].
  rewrite (lifecycle acts (context_done _ st) n s) by done. cbn [waiting context_done end_cleanup].
  by rewrite lookup_delete_eq, expires_None, orb_false_r.
Qed.

Definition same_tables (st st' : State) : Prop := tables <$> metaRepo st' = tables <$> metaRepo st.

(** An approval that succeeds takes one suggestion for a tool of the approved name and
    stores its generated program under that name, with the other tools as they were; any
    other answer leaves the tables alone. *)
Theorem approval_registers (p : Pipeline) (req : HttpRequest) (st : State) : PipelineOk p → inv st →
  let '(st', rep) := HandleApprove p req st in
  (∃ a id s r r', rep = ApproveReply 200 a ∧ Success a = true ∧ pending st !! id = Some s ∧
     pending st' = delete id (pending st) ∧ Adaptation.Name (PToolDef s) = AppName a ∧
     metaRepo st = Some r ∧ metaRepo st' = Some r' ∧ registered_as (AppName a) (AdaptedCode (PResult s)) r r') ∨
  (same_tables st st' ∧ ∀ a, rep = ApproveReply 200 a → False).
Proof.
  intros Hp (_ & Hinv & Hr). unfold HandleApprove. destruct (read_fields _ _ _ req) as [[name id]|rep] eqn:Er.
  2: { right. split; [done|]. intros a ->. unfold read_fields in Er. by repeat case_match. }
  destruct (_ || _) eqn:En; [by right|]. apply orb_false_iff in En as [Hname%bool_decide_eq_false _].
  destruct (pending st !! id) as [s|] eqn:Es; [|by right]. destruct (Hinv id s Es) as [_ [Hcode Hdef]].
  case_bool_decide as Hm; [by right|]. cbn [metaRepo delete_pending].
  destruct (metaRepo st) as [r|] eqn:Em.
  - destruct Hr as [Hf Hk]. pose proof (register_ok (PResult s) r Hf Hk Hcode) as Hreg.
    destruct (RegisterFromSuggestion p (PResult s) (Some r)) as [mr err]. destruct Hreg as (r' & -> & _ & _ & Hreg).
    destruct err as [e|]; [right; split; [unfold same_tables; cbn; by rewrite Em, Hreg|done]|]. left.
    rewrite Hdef, Hm, bool_decide_eq_false_2 in Hreg by done. by eexists _, id, s, r, r'.
  - destruct (register_none (PResult s)) as [e ->]. right. split; [unfold same_tables; cbn; by rewrite Em|done].
Qed.

(** The invariant holds at the start and after every action. *)
Lemma inv_start r : from_option (λ r, current r ∧ keyed r) True r → inv (NewToolSuggestHandler r).
Proof. intros Hr. split_and!; [done| |done]. intros id s. cbn. by rewrite lookup_empty. Qed.

Lemma HandleApprove_meta p req st : PipelineOk p → inv st →
  from_option (λ r, current r ∧ keyed r) True (metaRepo (HandleApprove p req st).1).
Proof.
  intros Hp (_ & Hinv & Hr). unfold HandleApprove. destruct (read_fields _ _ _ req) as [[name id]|rep]; [|done].
  destruct (_ || _); [done|]. destruct (pending st !! id) as [s|] eqn:Es; [|done]. destruct (Hinv id s Es) as [_ [Hcode _]].
  case_bool_decide; [done|]. cbn [metaRepo delete_pending]. destruct (metaRepo st) as [r|].
  - destruct Hr as [Hf Hk]. pose proof (register_ok (PResult s) r Hf Hk Hcode) as Hreg.
    destruct (RegisterFromSuggestion p (PResult s) (Some r)) as [mr err]. destruct Hreg as (r' & -> & ? & ? & _).
    by destruct err.
  - by destruct (register_none (PResult s)) as [e ->].
Qed.

Lemma inv_fewer st st' : nextID st' = nextID st → metaRepo st' = metaRepo st → pending st' ⊆ pending st → inv st → inv st'.
Proof.
  intros E1 E2 Hs (H0 & Hinv & Hr). split_and!; [by rewrite E1| |by rewrite E2]. intros id s Hl. unfold issued. rewrite E1.
  apply Hinv. by eapply lookup_weaken.
Qed.
Lemma act_inv a st : works a → nextID st < 2 ^ 62 → inv st → inv (act st a).
Proof.
  intros Hw Hn Hi. destruct a as [p req|now id|id].
  2:{ cbn. unfold cleanup_fires. destruct (waiting st !! id); [|done]. case_bool_decide; [|done].
      apply (inv_fewer st); [done|done|apply delete_subseteq|done]. }
  2:{ by apply (inv_fewer st). }
  cbn [works act] in *. pose proof Hi as (H0 & Hinv & Hr).
  pose proof (ServeHTTP_effect p req st Hw ltac:(lia)) as He. cbn in He. split_and!.
  - destruct (approves req) as [[name id]|]; [by destruct He as [-> _]|]. destruct He as [_ -> _|s _ -> _ _]; lia.
  - intros id s. unfold issued. destruct (approves req) as [[name id']|].
    + destruct He as (-> & _ & ->). intros [_ Hl]%lookup_delete_Some. by apply Hinv.
    + destruct He as [-> -> _|u Hu -> -> _]; [by apply Hinv|]. intros [[<- <-]|[_ Hl]]%lookup_insert_Some.
      * split; [|done]. exists (nextID st + 1). split; [done|lia].
      * destruct (Hinv id s Hl) as [(n & -> & ?) ?]. split; [|done]. exists n. split; [done|lia].
  - unfold ServeHTTP. case_bool_decide.
    + pose proof (HandleSuggest_effect p req st Hw ltac:(lia)) as Hs. destruct (HandleSuggest p req st). cbn [fst]. by destruct Hs as (_ & -> & _).
    + case_bool_decide; [by apply HandleApprove_meta|done].
Qed.

End Handler.
End ToolSuggest.

(** Concrete runs: two servers, the second of which is down, and a tool of the first. *)
Module SampleDiscovery.
Import Discovery ToolSuggest Validation Adaptation.Adaptation Repository.Repository SampleAdaptation.

Definition sample_uris : list string := ["mcp://tools.example.com:9000/v1"; "mcp://down.example.com"].
Definition sample_url (s : string) : result string url :=
  if String.prefix "http://tools.example.com:9000/v1" s then
    Ok {| base := {| Ssrf.Scheme := "http"; Ssrf.Host := "tools.example.com:9000" |}; UPath := str_drop 29 s |}
  else if bool_decide (s = "http://down.example.com") then
    Ok {| base := {| Ssrf.Scheme := "http"; Ssrf.Host := "down.example.com" |}; UPath := "" |}
  else if String.prefix "http://down.example.com:8080/" s then
    Ok {| base := {| Ssrf.Scheme := "http"; Ssrf.Host := "down.example.com:8080" |}; UPath := str_drop 28 s |}
  else Err "bad URL".
Definition listing : string :=
  "{" +:+ Json.quote_text "tools" +:+ ":[{" +:+ Json.quote_text "name" +:+ ":" +:+ Json.quote_text "word-count" +:+ "},{" +:+
  Json.quote_text "name" +:+ ":" +:+ Json.quote_text "translate" +:+ "}]}".
Definition sample_answer (l : list event) : result string response :=
  match last l with
  | Some (Http _ u) =>
    if String.prefix "http://tools.example.com" u then Ok {| StatusCode := 200; Body := listing; BodyErr := None |}
    else Err "connection refused"
  | _ => Err ""
  end.
Definition sample_lookup (l : list event) : Ssrf.Resolver := Ssrf.web.



Definition sample_health (uris : list string) (w : World) : World :=
  checkServerHealth (H := ascii_tables) sample_url (λ _, "blocked") sample_lookup sample_answer (λ _, true) (λ _, Rows (λ _, true) None) (λ _, 0) (λ _, []) uris w.

(** A tool of the server that answers, in the table with one of another source. *)
Definition mcp_tool (status : string) : ToolRecord :=
  {| ToID := "mcp-translate"; ToName := "translate"; ToDescription := ""; ToCode := ""; ToCategory := "retrieval"; ToVersion := "0.1.0";
     ToHealthStatus := status; ToSourceType := "mcp" |}.
Definition mcp_world : World :=
  {| repo := NewMetadataRepository (set_tools (<["mcp-translate" := mcp_tool "unknown"]> {["t1" := sample_tool]}) sample_tables); log := [] |}.
Lemma mcp_fresh : fresh (repo mcp_world).
Proof. intros e. cbn. by rewrite lookup_empty. Qed.
Lemma mcp_keyed : Adaptation.Adaptation.keyed (repo mcp_world).
Proof. intros id t. cbn. by intros [[<- <-]|[_ [<- <-]%lookup_singleton_Some]]%lookup_insert_Some. Qed.

(** The check of its own server marks it as healthy, that of the other one as down. *)
Lemma last_server_decides_witness :
  (system_tools (tables (repo (sample_health ["mcp://tools.example.com:9000/v1"] mcp_world))) !! "mcp-translate" = Some (mcp_tool "healthy")) ∧
  system_tools (tables (repo (sample_health sample_uris mcp_world))) =
    mark "down" <$> <["mcp-translate" := mcp_tool "unknown"]> {["t1" := sample_tool]}.
Proof.
  split; [vm_compute; reflexivity|].
  exact (last_server_decides (H := ascii_tables) sample_url (λ _, "blocked") sample_lookup sample_answer (λ _, true) (λ _, Rows (λ _, true) None) (λ _, 0) (λ _, [])
    (λ _, eq_refl) (λ _, eq_refl) ["mcp://tools.example.com:9000/v1"] "mcp://down.example.com" "down.example.com" "8080" "/" mcp_world
    mcp_fresh mcp_keyed eq_refl).
Defined.

Lemma root_path_doubled_witness :
  server_url "down.example.com" "8080" "/" +:+ "/tools/list" = "http://down.example.com:8080//tools/list".
Proof.
  exact (root_path_doubled sample_url "mcp://down.example.com" "down.example.com" "8080" "/"
    {| base := {| Ssrf.Scheme := "http"; Ssrf.Host := "down.example.com" |}; UPath := "" |} eq_refl eq_refl eq_refl).
Defined.

(** *** Suggestion and approval *)
Definition sample_pipeline : Pipeline :=
  adaptation_pipeline (H := ascii_tables) (H0 := ascii_fold_tables) (λ s, s) (λ _, Some [quote "encoding/json"; quote "fmt"; quote "os"])
    (λ _, "blocked") (λ _, "database error") (λ _, "1s") (λ _, []) (sample_machine 0) sample_db (λ _ _, Err "").
Definition fields (a x b y : string) : string :=
  "{" +:+ Json.quote_text a +:+ ":" +:+ Json.quote_text x +:+ "," +:+ Json.quote_text b +:+ ":" +:+ Json.quote_text y +:+ "}".
Definition post (path body : string) : HttpRequest :=
  {| Method := "POST"; Path := path; ReqBody := {| StatusCode := 0; Body := body; BodyErr := None |}; At := 0 |}.
Definition sample_serve (req : HttpRequest) (st : State) : State * reply :=
  ServeHTTP (H := ascii_tables) (λ s, s) sample_url (λ _, "syntax") (λ _, "blocked") sample_lookup sample_answer (λ _, f64_lit 0 1)
    sample_uris sample_pipeline req st.
Definition suggest_request (name : string) : HttpRequest := post "/api/v1/tools/suggest" (fields "name" name "server_url" "").
Definition approve_request (name : string) : HttpRequest :=
  post "/api/v1/tools/suggest/approve" (fields "name" name "suggestion_id" "sug-1").
Definition sample_state (name : string) : State :=
  (sample_serve (suggest_request name) (NewToolSuggestHandler (Some (NewMetadataRepository sample_tables)))).1.

#[local] Instance sample_ok : PipelineOk sample_pipeline := adaptation_pipeline_ok _ _ _ _ _ _ _ _ _.
Lemma sample_works req : Forall works [Serve sample_pipeline req].
Proof. repeat constructor; apply sample_ok. Qed.

Lemma sample_inv name : inv (sample_state name).
Proof.
  apply (act_inv (H := ascii_tables) (λ s, s) sample_url (λ _, "syntax") (λ _, "blocked") sample_lookup sample_answer (λ _, f64_lit 0 1)
    sample_uris (Serve sample_pipeline (suggest_request name))); [apply sample_ok|done|].
  apply inv_start. split; [apply sample_current|apply sample_keyed].
Qed.

(** The suggestion is there; it is lost to an approval that names another tool. *)
Definition sample_acts (acts : list action) (st : State) : State :=
  ToolSuggest.run (H := ascii_tables) (λ s, s) sample_url (λ _, "syntax") (λ _, "blocked") sample_lookup sample_answer (λ _, f64_lit 0 1)
    sample_uris acts st.
Lemma suggestion_lifecycle_witness :
  is_Some (pending (sample_state "translate") !! "sug-1") ∧
  pending (sample_acts [Serve sample_pipeline (approve_request "word-count")] (sample_state "translate")) !! "sug-1" = None ∧
  pending (sample_acts [Fires minute "sug-1"] (sample_state "translate")) !! "sug-1" = pending (sample_state "translate") !! "sug-1" ∧
  pending (sample_acts [Fires (5 * minute) "sug-1"] (sample_state "translate")) !! "sug-1" = None.
Proof.
  assert (is_Some (pending (sample_state "translate") !! "sug-1")) as Hs by (apply is_Some_alt; vm_compute; exact I).
  assert (nextID (sample_state "translate") + 1 < 2 ^ 62) as Hn by (vm_compute; reflexivity).
  assert (existsb (takes (λ _, "syntax") "sug-1") [Serve sample_pipeline (approve_request "word-count")] = true) as Ht
    by (vm_compute; reflexivity).
  assert (waiting (sample_state "translate") !! "sug-1" = Some (5 * minute)) as Hw by (vm_compute; reflexivity).
  split; [exact Hs|]. destruct Hs as [s Hs]. unfold sample_acts.
  pose proof (λ acts Hworks Hlen, suggestion_lifecycle (H := ascii_tables) (λ s, s) sample_url (λ _, "syntax") (λ _, "blocked") sample_lookup sample_answer
    (λ _, f64_lit 0 1) sample_uris acts (sample_state "translate") "sug-1" s (sample_inv "translate") Hworks Hlen Hs) as Hl.
  rewrite (Hl _ (sample_works _) Hn), Ht.
  rewrite (Hl [Fires minute "sug-1"] ltac:(repeat constructor) Hn), (Hl [Fires (5 * minute) "sug-1"] ltac:(repeat constructor) Hn), Hw, Hs.
  split_and!; vm_compute; reflexivity.
Defined.
Lemma suggestion_never_expires_witness :
  pending (sample_acts [Fires (5 * minute) "sug-1"] (context_done "sug-1" (sample_state "translate"))) !! "sug-1" = pending (sample_state "translate") !! "sug-1".
Proof.
  assert (is_Some (pending (sample_state "translate") !! "sug-1")) as [s Hs] by (apply is_Some_alt; vm_compute; exact I).
  rewrite Hs. apply (suggestion_never_expires (H := ascii_tables) (λ s, s) sample_url (λ _, "syntax") (λ _, "blocked") sample_lookup sample_answer
    (λ _, f64_lit 0 1) sample_uris [Fires (5 * minute) "sug-1"] (sample_state "translate") "sug-1" s (sample_inv "translate") ltac:(repeat constructor)
    ltac:(vm_compute; reflexivity) Hs).
Defined.

(** Approving the adaptation of a tool that exists updates it, under its own identifier;
    the answer names one that no tool has. *)
Definition sample_approval : State * reply :=
  HandleApprove (λ s, s) (λ _, "syntax") sample_pipeline (approve_request "word-count") (sample_state "word-count").
Lemma approval_registers_witness :
  (let '(st', rep) := HandleApprove (λ s, s) (λ _, "syntax") sample_pipeline (approve_request "word-count") (sample_state "word-count") in
   (∃ a id s r r', rep = ApproveReply 200 a ∧ Success a = true ∧ pending (sample_state "word-count") !! id = Some s ∧
      pending st' = delete id (pending (sample_state "word-count")) ∧ Adaptation.Name (PToolDef s) = AppName a ∧
      metaRepo (sample_state "word-count") = Some r ∧ metaRepo st' = Some r' ∧ registered_as (AppName a) (AdaptedCode (PResult s)) r r') ∨
   (same_tables (sample_state "word-count") st' ∧ ∀ a, rep = ApproveReply 200 a → False)) ∧
  match sample_approval with
  | (st', ApproveReply status a) =>
    status = 200 ∧ ToolID a = "word-count-adapted" ∧ (metaRepo st' ≫= λ r, system_tools (tables r) !! ToolID a) = None
  | _ => False
  end.
Proof.
  split; [|vm_compute; repeat split; reflexivity].
  exact (approval_registers (λ s, s) (λ _, "syntax") sample_pipeline (approve_request "word-count") (sample_state "word-count")
    sample_ok (sample_inv "word-count")).
Defined.
End SampleDiscovery.
