(* ===== verification/McpService.v ===== *)
(** * Tools served over MCP (internal/mcp/handler.go, jsonrpc.go)

    The dispatch of a JSON-RPC request to the tool registry: the manifest of tools and
    the call of one by its name, within thirty seconds.  How the execution ends, the
    order of the registry's map and the encoding of results are arguments. *)

From S2P Require Import Prelude GoStrings GoValues GoText GoJson ToolRegistry Mcp Discovery.

Module McpService.
Import JsonRpc ToolRegistry.

(** *** Responses (jsonrpc.go) *)
Definition InvalidRequest : Z := -32600.
Definition MethodNotFound : Z := -32601.
Definition InvalidParams : Z := -32602.
Definition InternalError : Z := -32603.
Record JSONRPCError := { Code : Z; ErrMessage : string }.
Record JSONRPCResponse := { RespJsonrpc : string; RespID : option Z; Result : option string; Error : option JSONRPCError }.

(** [raw]: nil, or what marshalling the result gives. *)
Definition NewResponse (id : Z) (raw : option (result string string)) : result string JSONRPCResponse :=
  match raw with
  | None => Ok {| RespJsonrpc := JSONRPCVersion; RespID := Some id; Result := None; Error := None |}
  | Some (Err e) => Err ("failed to marshal result: " +:+ e)
  | Some (Ok s) => Ok {| RespJsonrpc := JSONRPCVersion; RespID := Some id; Result := Some s; Error := None |}
  end.
Definition NewError (id code : Z) (message : string) : JSONRPCResponse :=
  {| RespJsonrpc := JSONRPCVersion; RespID := Some id; Result := None; Error := Some {| Code := code; ErrMessage := message |} |}.

Definition requestID (req : JSONRPCRequest) : Z := default 0 (ReqID req).

(** *** The manifest *)
Record toolManifestEntry := {
  EntryName : string; EntryDescription : string; Properties : list (string * (string * string)); RequiredNames : list string;
}.
Inductive rpc_result := ToolsList (entries : list toolManifestEntry) | Content (text : string).

(** How the execution ends: with a result, with a panic, or not in time. *)
Inductive ended := Finished | Panicked (v : string) | Cancelled | TimedOut.

Section Service.
Context {Out : Type}.
Context (range : ToolRegistry (Out := Out) → list (string * ToolDefinition (Out := Out))).
Context (rpc_text : rpc_error → string) (reg_text : reg_error → string) (json_error : string → string).
Context (marshal : rpc_result → result string string) (out_text : Out → string) (number : string → f64).

Definition manifest_entry (def : ToolDefinition (Out := Out)) : toolManifestEntry :=
  {| EntryName := Name def; EntryDescription := Description def;
     Properties := foldl (λ props p, ToolSuggest.put (PName p) (PType p, PDescription p) props) [] (ToolRegistry.Params def);
     RequiredNames := PName <$> filter (λ p, Required p = true) (ToolRegistry.Params def) |}.

(** A response with a value, or the error for one that cannot be written. *)
Definition respond (id : Z) (v : rpc_result) : JSONRPCResponse :=
  match NewResponse id (Some (marshal v)) with
  | Ok resp => resp
  | Err _ => NewError id InternalError "failed to marshal response"
  end.

Definition handleToolsList (id : Z) (r : ToolRegistry) : JSONRPCResponse :=
  respond id (ToolsList (manifest_entry <$> List_ range "" r)).

(** *** The name of a tool *)

(** The fallback: a tool of any category with the whole name. *)
Definition resolve_flat (toolName : string) (r : ToolRegistry) : string * string :=
  match list_find (λ d, Name d = toolName) (List_ range "" r) with
  | Some (_, d) => (Category d, Name d)
  | None => ("", "")
  end.
(** [cat, n] around the first dot. *)
Definition resolveToolName (toolName : string) (r : ToolRegistry) : string * string :=
  match split2 toolName "." with
  | Some (cat, n) => match Get cat n r with Some _ => (cat, n) | None => resolve_flat toolName r end
  | None => resolve_flat toolName r
  end.

(** *** The call *)
Record toolsCallParams := {
  CallMethod : string; CallName : string;
  CallParams : option (list (string * Json.json)); CallArguments : option (list (string * Json.json));
}.
Definition decode_call (raw : string) : option toolsCallParams :=
  m ← Json.config raw;
  method ← Json.string_field "method" m;
  name ← Json.string_field "name" m;
  params ← Json.field_from Discovery.as_map "params" None m;
  arguments ← Json.field_from Discovery.as_map "arguments" None m;
  Some {| CallMethod := method; CallName := name; CallParams := params; CallArguments := arguments |}.

Definition tool_name (p : toolsCallParams) : string := if bool_decide (CallMethod p = "") then CallName p else CallMethod p.
Definition as_args (m : list (string * Json.json)) : list (string * any) :=
  foldl (λ acc kv, ToolSuggest.put kv.1 kv.2 acc) [] ((λ kv, (kv.1, ToolSuggest.any_of number kv.2)) <$> m).
Definition exec_params (p : toolsCallParams) : list (string * any) :=
  match CallParams p with
  | Some m => as_args m
  | None => match CallArguments p with Some m => as_args m | None => [] end
  end.

Definition execution_failed (id : Z) (e : string) : JSONRPCResponse := NewError id InternalError ("tool execution failed: " +:+ e).
Definition execute (id : Z) (how : ended) (category name : string) (params : list (string * any)) (r : ToolRegistry) : JSONRPCResponse :=
  match how with
  | Cancelled => NewError id InternalError "request cancelled"
  | TimedOut => NewError id InternalError "tool execution timed out"
  | Panicked v => execution_failed id ("tool execution panic: " +:+ v)
  | Finished =>
    match Execute category name params r with
    | Err e => execution_failed id (reg_text e)
    | Ok (Err e) => execution_failed id e
    | Ok (Ok out) => respond id (Content (out_text out))
    end
  end.

Definition handleToolsCall (id : Z) (how : ended) (rawParams : option string) (r : ToolRegistry) : JSONRPCResponse :=
  let raw := default "" rawParams in
  if bool_decide (raw = "") then NewError id InvalidParams "params is required for tools/call"
  else match decode_call raw with
  | None => NewError id InvalidParams ("invalid params JSON: " +:+ json_error raw)
  | Some params =>
    let toolName := tool_name params in
    if bool_decide (toolName = "") then NewError id InvalidParams (quoted "tool name is required (provide 'method' or 'name')")
    else
      let '(category, name) := resolveToolName toolName r in
      if bool_decide (name = "") then NewError id InvalidParams ("tool not found: " +:+ toolName)
      else execute id how category name (exec_params params) r
  end.

Definition HandleRequest (how : ended) (req : JSONRPCRequest) (r : ToolRegistry) : JSONRPCResponse :=
  match Validate req with
  | Some e => NewError (requestID req) InvalidRequest ("invalid request: " +:+ rpc_text e)
  | None =>
    let id := requestID req in
    if bool_decide (Method req = "tools/list") then handleToolsList id r
    else if bool_decide (Method req = "tools/call") then handleToolsCall id how (JsonRpc.Params req) r
    else NewError id MethodNotFound ("method not found: " +:+ Method req)
  end.

(** *** What a response is *)
Definition well_formed (id : Z) (resp : JSONRPCResponse) : Prop :=
  RespJsonrpc resp = JSONRPCVersion ∧ RespID resp = Some id ∧ (Result resp = None ↔ Error resp ≠ None).

Lemma NewError_wf id code msg : well_formed id (NewError id code msg).
Proof. done. Qed.
Lemma respond_wf id v : well_formed id (respond id v).
Proof. unfold respond, NewResponse. destruct (marshal v); [|apply NewError_wf]. split_and!; [done|done|]. split; [done|]. intros E. by destruct E. Qed.
Lemma handleToolsCall_wf id how raw r : well_formed id (handleToolsCall id how raw r).
Proof.
  unfold handleToolsCall. case_bool_decide; [apply NewError_wf|]. destruct (decode_call _) as [p|]; [|apply NewError_wf].
  case_bool_decide; [apply NewError_wf|]. destruct (resolveToolName _ r) as [c n]. case_bool_decide; [apply NewError_wf|].
  unfold execute. destruct how; try apply NewError_wf. destruct (Execute c n _ r) as [[out|e]|e]; try apply NewError_wf. apply respond_wf.
Qed.

(** Every request, valid or not, is answered with its own identifier and with exactly
    one of a result and an error; a request with another method than the two is answered
    with the code for it. *)
Theorem HandleRequest_answers (how : ended) (req : JSONRPCRequest) (r : ToolRegistry) :
  well_formed (requestID req) (HandleRequest how req r) ∧
  (Validate req = None → Method req ≠ "tools/list" → Method req ≠ "tools/call" →
   Code <$> Error (HandleRequest how req r) = Some MethodNotFound).
Proof.
  unfold HandleRequest. destruct (Validate req); [by split; [apply NewError_wf|]|].
  case_bool_decide; [split; [apply respond_wf|done]|]. case_bool_decide; [split; [apply handleToolsCall_wf|done]|].
  by split; [apply NewError_wf|].
Qed.

(** *** What a name resolves to *)
Definition wf (r : ToolRegistry (Out := Out)) : Prop := ∀ k d, r !! k = Some d → k = def_key d ∧ check_def d = None.
(** What registration keeps. *)
Lemma RegisterAll_wf defs r : wf r → wf (RegisterAll defs r).1.
Proof.
  intros Hr. unfold RegisterAll. destruct (check_defs defs) eqn:Ec; [done|]. destruct (check_duplicates _ defs); [done|]. cbn [fst].
  revert r Hr Ec. induction defs as [|d defs IH]; intros r Hr Ec; cbn; [done|]. cbn in Ec. destruct (check_def d) eqn:Ed; [done|].
  apply IH; [|done]. intros k u Hu. apply (lookup_insert_Some (M := gmap string)) in Hu as [[<- <-]|[_ Hu]]; [done|by apply Hr].
Qed.

Section Resolve.
Context (range_all : ∀ m : gmap string (ToolDefinition (Out := Out)), range m ≡ₚ map_to_list m).

Lemma listed_all r d : wf r → d ∈ List_ range "" r ↔ Get (Category d) (Name d) r = Some d.
Proof.
  intros Hw. unfold List_. rewrite list_elem_of_filter, list_elem_of_fmap. split.
  - intros [_ ([k u] & -> & Hu)]. rewrite range_all, elem_of_map_to_list in Hu. cbn. destruct (Hw k u Hu) as [-> _]. done.
  - intros Hd. split; [by left|]. exists (def_key d, d). by rewrite range_all, elem_of_map_to_list.
Qed.

Lemma flat_spec r toolName : wf r →
  let '(category, name) := resolve_flat toolName r in
  if bool_decide (name = "") then ∀ d, Get (Category d) (Name d) r = Some d → Name d ≠ toolName
  else is_Some (Get category name r) ∧ toolName = name.
Proof.
  intros Hw. unfold resolve_flat. destruct (list_find _ _) as [[i d]|] eqn:E; cbn.
  - apply list_find_Some in E as (Hd%list_elem_of_lookup_2 & <- & _). apply listed_all in Hd; [|done].
    destruct (Hw _ _ Hd) as [_ Hc]. unfold check_def in Hc. case_bool_decide; [done|]. split; [by eexists|done].
  - apply list_find_None in E. rewrite Forall_forall in E. intros d Hd. apply E. by apply listed_all.
Qed.

(** A tool is called under a name only if it is registered, with the category before the
    first dot of the name or as the whole name; a name that resolves to nothing is that
    of no tool. *)
Theorem resolveToolName_spec (toolName : string) (r : ToolRegistry) : wf r →
  let '(category, name) := resolveToolName toolName r in
  if bool_decide (name = "") then
    (∀ d, Get (Category d) (Name d) r = Some d → Name d ≠ toolName) ∨ ∃ cat, toolName = cat +:+ "."
  else
    is_Some (Get category name r) ∧ (toolName = category +:+ "." +:+ name ∨ toolName = name).
Proof.
  intros Hw. unfold resolveToolName. pose proof (flat_spec r toolName Hw) as Hf.
  assert (let '(category, name) := resolve_flat toolName r in
    if bool_decide (name = "") then
      (∀ d, Get (Category d) (Name d) r = Some d → Name d ≠ toolName) ∨ ∃ cat, toolName = cat +:+ "."
    else is_Some (Get category name r) ∧ (toolName = category +:+ "." +:+ name ∨ toolName = name)) as Hflat.
  { destruct (resolve_flat toolName r) as [fc fn]. case_bool_decide; [by left|]. destruct Hf. by auto. }
  destruct (split2 toolName ".") as [[cat n]|] eqn:Es; [|done]. destruct (Get cat n r) as [d|] eqn:Eg; [|done].
  assert (toolName = cat +:+ "." +:+ n) as Ht.
  { unfold split2 in Es. apply fmap_Some in Es as (i & Hi & [= -> ->]). by apply str_index_Some in Hi. }
  case_bool_decide as En; [right; exists cat; by subst|]. split; [by eexists|by left].
Qed.

(** A tool that is found is executed once, on the parameters of the call, and its
    outcome is the answer. *)
Theorem call_executes (id : Z) (raw : string) (params : toolsCallParams) (d : ToolDefinition) (f : Exec (Out := Out)) (r : ToolRegistry) :
  raw ≠ "" → decode_call raw = Some params → tool_name params ≠ "" →
  let '(category, name) := resolveToolName (tool_name params) r in
  name ≠ "" → Get category name r = Some d → Execute_ d = Some f →
  handleToolsCall id Finished (Some raw) r =
  match f (exec_params params) with Ok out => respond id (Content (out_text out)) | Err e => execution_failed id e end.
Proof.
  intros Hraw Hd Hn. destruct (resolveToolName (tool_name params) r) as [c n] eqn:Er. intros Hne Hg Hf.
  unfold handleToolsCall. change (default "" (Some raw)) with raw. rewrite bool_decide_eq_false_2, Hd by done. rewrite bool_decide_eq_false_2, Er by done.
  rewrite bool_decide_eq_false_2 by done. unfold execute, Execute. rewrite Hg, Hf. by destruct (f _).
Qed.
End Resolve.
End Service.

(** *** Concrete calls *)
Definition sample_def (category : string) : ToolDefinition (Out := string) :=
  {| Name := "search"; Category := category; ToolRegistry.Description := ""; ToolRegistry.Params := [];
     Execute_ := Some (λ _, Ok category) |}.
Definition sample_registry : ToolRegistry (Out := string) :=
  (RegisterAll [sample_def "osint"; sample_def "finance"] NewToolRegistry).1.
Definition sample_raw (name : string) : string := "{" +:+ Json.quote_text "name" +:+ ":" +:+ Json.quote_text name +:+ "}".
Definition sample_call (range : ToolRegistry (Out := string) → list (string * ToolDefinition (Out := string))) (name : string) : option string :=
  Result (handleToolsCall range (λ _, "") (λ _, "") (λ v, match v with Content s => Ok s | _ => Err "" end) (λ s, s) (λ _, f64_lit 0 1)
    1 Finished (Some (sample_raw name)) sample_registry).

Lemma sample_wf : wf sample_registry.
Proof. apply RegisterAll_wf. intros k d Hd. unfold NewToolRegistry in Hd. by apply (lookup_empty_Some (M := gmap string)) in Hd. Qed.

Lemma resolveToolName_spec_witness :
  resolveToolName map_to_list "osint.search" sample_registry = ("osint", "search") ∧
  is_Some (Get "osint" "search" sample_registry) ∧
  ("osint.search" = "osint" +:+ "." +:+ "search" ∨ "osint.search" = "search").
Proof.
  assert (resolveToolName map_to_list "osint.search" sample_registry = ("osint", "search")) as E by (vm_compute; reflexivity).
  split; [exact E|]. pose proof (resolveToolName_spec map_to_list (λ m, Permutation_refl _) "osint.search" sample_registry sample_wf) as Hr.
  rewrite E in Hr. exact Hr.
Defined.

(** A name without a category that two tools share is that of either, by the order in
    which the map is ranged over. *)
Lemma shared_name_ambiguous :
  sample_call map_to_list "osint.search" = Some "osint" ∧ sample_call map_to_list "finance.search" = Some "finance" ∧
  {["osint"; "finance"]} =@{gset string}
    list_to_set (default "" <$> [sample_call map_to_list "search"; sample_call (λ m, reverse (map_to_list m)) "search"]).
Proof. split_and!; vm_compute; reflexivity. Qed.
End McpService.
