(* ===== verification/Watcher.v ===== *)
(** * The drop directories of projects (internal/service/watcher/watcher.go)

    The directories that are watched, as a state that projects are added to, and the task
    that the creation of a file starts, which is run by the ingestion engine of
    [TaskRun].  The file system, fsnotify and the random identifiers are arguments. *)

From S2P Require Import Prelude GoStrings GoValues GoText GoJson SafeIdent Projects Emerge Fetch Sources Probe Imap Ingestion TaskRun.

Module Watcher.
Import SafeIdent Paths Names Json.

(** *** Directories *)

(** [fw]: fsnotify's watcher once the service runs, with the directories that were added to
    it. *)
Record Watcher := { projectsRoot : string; fw : option (list string); watchedDirs : gset string }.
Definition NewWatcher (root : string) : Watcher := {| projectsRoot := root; fw := None; watchedDirs := ∅ |}.

Inductive watch_error := CreateDropDir (dir : string) | AddFailed (dir : string) | NewWatcherFailed.

Definition drop_dir (root projectID : string) : string := filepath_Join [root; projectID; "drop"].

(** [mkdir_ok]: the directory exists or was made; [add_ok]: fsnotify accepts it. *)
Definition AddProject (mkdir_ok add_ok : string → bool) (projectID : string) (w : Watcher) : Watcher * option watch_error :=
  let dropDir := drop_dir (projectsRoot w) projectID in
  if negb (mkdir_ok dropDir) then (w, Some (CreateDropDir dropDir))
  else if bool_decide (dropDir ∈ watchedDirs w) then (w, None)
  else
    let watched := {[dropDir]} ∪ watchedDirs w in
    match fw w with
    | None => ({| projectsRoot := projectsRoot w; fw := None; watchedDirs := watched |}, None)
    | Some added =>
      if add_ok dropDir then ({| projectsRoot := projectsRoot w; fw := Some (added ++ [dropDir]); watchedDirs := watched |}, None)
      else ({| projectsRoot := projectsRoot w; fw := Some added; watchedDirs := watched |}, Some (AddFailed dropDir))
    end.

(** [Start] up to its event loop.  [new_ok]: fsnotify starts; [entries]: the directories
    of the root, if it can be read. *)
Definition Start (mkdir_ok add_ok : string → bool) (new_ok : bool) (entries : option (list string)) (w : Watcher) :
    Watcher * option watch_error :=
  if negb new_ok then (w, Some NewWatcherFailed)
  else
    let w := {| projectsRoot := projectsRoot w; fw := Some []; watchedDirs := ∅ |} in
    (foldl (λ w e, (AddProject mkdir_ok add_ok e w).1) w (default [] entries), None).

Definition Close (w : Watcher) : Watcher := {| projectsRoot := projectsRoot w; fw := None; watchedDirs := watchedDirs w |}.

(** *** Files *)
Definition knownExts (ext : string) : option string :=
  if bool_decide (ext ∈ [".csv"; ".tsv"]) then Some "csv"
  else if bool_decide (ext = ".json") then Some "custom_code"
  else if bool_decide (ext = ".parquet") then Some "copy"
  else None.

(** The modification time and the size, twice, half a second apart. *)
Definition isFileStable (fi1 fi2 : option (Time * Z)) : bool :=
  match fi1, fi2 with Some (t1, n1), Some (t2, n2) => bool_decide (t1 = t2) && bool_decide (n1 = n2) | _, _ => false end.

(** [filepath.Rel] on clean paths, element by element. *)
Definition elements (p : string) : list string :=
  if bool_decide (p = "") then [] else if bool_decide (p = "/") then [""] else str_split "/" p.
Fixpoint strip (b t : list string) : list string * list string :=
  match b, t with
  | x :: b', y :: t' => if bool_decide (x = y) then strip b' t' else (b, t)
  | _, _ => (b, t)
  end.
Definition filepath_Rel (base targ : string) : option string :=
  let base := filepath_Clean base in
  let targ := filepath_Clean targ in
  if bool_decide (targ = base) then Some "."
  else
    let base := if bool_decide (base = ".") then "" else base in
    if negb (Bool.eqb (is_rooted base) (is_rooted targ)) then None
    else
      let '(b, t) := strip (elements base) (elements targ) in
      if bool_decide (head b = Some "..") then None
      else Some (str_join "/" (replicate (length b) ".." ++ t)).

Section Events.
Context `{Unicode}.

Definition config_json (path sourceType nameWithoutExt : string) : string :=
  Marshal (JObj (("path", JStr path) :: if bool_decide (sourceType = "csv") then [("tableName", JStr nameWithoutExt)] else [])).

(** The task that is run, for the project it belongs to. *)
Definition handleCreateEvent (root : string) (stable : bool) (taskID : option string) (path : string) : option (string * IngestionTask) :=
  let ext := ToLower (Engine.Ext path) in
  match knownExts ext with
  | None => None
  | Some sourceType =>
    if negb stable then None
    else
      let filename := Projects.filepath_Base path in
      let nameWithoutExt := Emerge.TrimSuffix filename ext in
      match taskID with
      | None => None
      | Some id =>
        let task := {| Id := id; Name := filename; SourceType := sourceType; ConfigJson := config_json path sourceType nameWithoutExt |} in
        match filepath_Rel root path with
        | None => None
        | Some rel =>
          match split2 rel "/" with
          | None => None
          | Some (projectID, _) => if bool_decide (projectID = "") then None else Some (projectID, task)
          end
        end
      end
  end.

(** *** The directories that are watched *)

(** What is marked as watched is what fsnotify watches, each once. *)
Definition in_step (w : Watcher) : Prop :=
  match fw w with Some added => NoDup added ∧ watchedDirs w = list_to_set added | None => True end.

Lemma AddProject_in_step mkdir_ok add_ok id w : (∀ d, add_ok d = true) → in_step w → in_step (AddProject mkdir_ok add_ok id w).1.
Proof.
  intros Hadd Hw. unfold AddProject. destruct (negb _); [done|]. case_bool_decide as Hd; [done|].
  unfold in_step in *. destruct (fw w) as [added|] eqn:E; [|done]. rewrite Hadd. cbn. destruct Hw as [Hnd Hs]. split.
  - apply NoDup_app. split_and!; [done| |apply NoDup_singleton]. intros d Hin. rewrite list_elem_of_singleton.
    intros ->. apply Hd. rewrite Hs. set_solver.
  - rewrite Hs, list_to_set_app_L. set_solver.
Qed.

(** As long as fsnotify accepts the directories, the projects found at the start and those
    added later are watched, each once. *)
Theorem projects_watched (mkdir_ok add_ok : string → bool) (entries ids : list string) (w : Watcher) :
  (∀ d, add_ok d = true) → (∀ d, mkdir_ok d = true) →
  let started := (Start mkdir_ok add_ok true (Some entries) w).1 in
  let w' := foldl (λ w id, (AddProject mkdir_ok add_ok id w).1) started ids in
  ∃ added, fw w' = Some added ∧ NoDup added ∧ list_to_set added =@{gset string} list_to_set (drop_dir (projectsRoot w) <$> entries ++ ids).
Proof.
  intros Hadd Hmk. cbn. rewrite <- foldl_app.
  set (w0 := {| projectsRoot := projectsRoot w; fw := Some []; watchedDirs := ∅ |}).
  assert (∀ l, let w' := foldl (λ w id, (AddProject mkdir_ok add_ok id w).1) w0 l in
    in_step w' ∧ projectsRoot w' = projectsRoot w ∧ is_Some (fw w') ∧
    watchedDirs w' = list_to_set (drop_dir (projectsRoot w) <$> l)) as Hall.
  { induction l as [|id l IH] using rev_ind; [split_and!; [|done|by eexists|done]; split; [apply NoDup_nil_2|done]|].
    cbn. rewrite foldl_app. cbn. destruct IH as (H1 & H2 & H3 & H4). set (w1 := foldl _ w0 l) in *. split; [by apply AddProject_in_step|].
    rewrite fmap_app, list_to_set_app_L. unfold AddProject. rewrite Hmk, Hadd, H2. cbn. destruct H3 as [added E].
    case_bool_decide as Hd; [split_and!; [done|by eexists|rewrite H4 in *; set_solver]|].
    rewrite E. cbn. split_and!; [done|by eexists|]. rewrite H4. set_solver. }
  destruct (Hall (entries ++ ids)) as (H1 & _ & [added E] & H4). exists added. unfold in_step in H1. rewrite E in H1.
  destruct H1 as [Hnd Hs]. split_and!; [done|done|]. by rewrite <- Hs, H4.
Qed.

(** A directory that fsnotify refuses once is marked as watched all the same: adding the
    project again reports success and watches nothing. *)
Theorem failed_add_lost (mkdir_ok again_ok add_ok : string → bool) (id : string) (added : list string) (w : Watcher) :
  fw w = Some added → in_step w → drop_dir (projectsRoot w) id ∉ watchedDirs w →
  mkdir_ok (drop_dir (projectsRoot w) id) = true → again_ok (drop_dir (projectsRoot w) id) = true →
  let '(w1, e) := AddProject mkdir_ok (λ _, false) id w in
  e = Some (AddFailed (drop_dir (projectsRoot w) id)) ∧ AddProject again_ok add_ok id w1 = (w1, None) ∧
  fw w1 = Some added ∧ drop_dir (projectsRoot w) id ∉ added.
Proof.
  intros Hfw Hs Hn Hm Ha. unfold AddProject at 1. rewrite Hm, Hfw, bool_decide_eq_false_2 by done. cbn. split_and!; [done| |done|].
  - unfold AddProject. cbn [projectsRoot watchedDirs]. rewrite Ha. cbn. by rewrite bool_decide_eq_true_2 by set_solver.
  - unfold in_step in Hs. rewrite Hfw in Hs. destruct Hs as [_ Hs]. rewrite Hs in Hn. set_solver.
Qed.

(** *** The project of a file *)
Lemma abs_text_elements es : Forall proper es → es ≠ [] → elements (abs_text es) = "" :: es.
Proof.
  intros Hp Hne. unfold elements. rewrite (bool_decide_eq_false_2 (abs_text es = "")) by done. rewrite bool_decide_eq_false_2.
  - unfold abs_text. cbn [str_split]. rewrite bool_decide_eq_true_2 by done. f_equal. apply str_split_join; [done|by apply proper_no_slash].
  - intros E. destruct es as [|e es]; [done|]. apply Forall_cons in Hp as [(He & _) _]. unfold abs_text in E.
    assert (str_join "/" (e :: es) = "") as E' by congruence. clear E. rename E' into E.
    destruct es as [|f es]; [done|]. rewrite (str_join_cons "/" e (f :: es)) in E by discriminate. by destruct e.
Qed.

Lemma strip_common l t : strip l (l ++ t) = ([], t).
Proof. induction l as [|x l IH]; cbn; [by destruct t|]. by rewrite bool_decide_eq_true_2. Qed.

Lemma Rel_below root es : is_rooted root = true → Forall proper es → es ≠ [] →
  filepath_Rel root (filepath_Join (root :: es)) = Some (str_join "/" es).
Proof.
  intros Hr He Hne. unfold filepath_Rel. rewrite !Clean_rooted by (done || apply (loc_Join root es Hr)).
  rewrite loc_Join_proper by done. pose proof (loc_proper root) as Hb. set (b := loc root) in *.
  assert (Forall proper (b ++ es)) as Hp by by apply Forall_app.
  rewrite bool_decide_eq_false_2.
  2: { intros E. apply (f_equal loc) in E. rewrite !loc_abs in E by done. rewrite <- (app_nil_r b) in E at 2.
       by apply app_inv_head in E. }
  rewrite bool_decide_eq_false_2 by done.
  assert (∀ l, is_rooted (abs_text l) = true) as Hab by (intros l; apply prefix_iff; by eexists). rewrite !Hab. cbn [Bool.eqb negb].
  assert (elements (abs_text b) = "" :: b) as ->.
  { destruct (decide (b = [])) as [->|]; [done|by apply abs_text_elements]. }
  rewrite abs_text_elements by (done || intros [_ ?]%app_nil; done).
  change ("" :: b ++ es) with (("" :: b) ++ es). by rewrite strip_common.
Qed.

Lemma Base_below root es e : is_rooted root = true → Forall proper es → proper e →
  Projects.filepath_Base (filepath_Join (root :: es ++ [e])) = e.
Proof.
  intros Hr Hes He. assert (Forall proper (es ++ [e])) as Hp by (apply Forall_app; by rewrite Forall_singleton).
  assert (filepath_Join (root :: es ++ [e]) = abs_text (loc root ++ es ++ [e])) as ->.
  { rewrite <- loc_Join_proper by done. unfold filepath_Join. cbn [drop_empty].
    rewrite bool_decide_eq_false_2 by (intros ->; discriminate Hr).
    rewrite Clean_rooted; [by rewrite loc_abs by apply loc_proper|].
    unfold is_rooted in *. apply prefix_iff in Hr as [t ->]. apply prefix_iff. rewrite str_join_cons by by destruct es.
    eexists. by rewrite str_app_assoc. }
  unfold Projects.filepath_Base. pose proof (loc_proper root) as Hb. rewrite app_assoc.
  assert (Forall proper ((loc root ++ es) ++ [e])) as Hall by (rewrite <- app_assoc; by apply Forall_app).
  unfold abs_text. cbn [str_split]. rewrite bool_decide_eq_true_2 by done.
  rewrite str_split_join; [|by destruct (loc root ++ es)|by apply proper_no_slash].
  rewrite filter_cons_False by naive_solver. rewrite filter_app, filter_cons_True by apply He.
  rewrite filter_nil. by rewrite last_snoc.
Qed.

(** The creation of a file with a known extension in the drop directory of a project
    starts a task for that project, with the path of the file. *)
Theorem drop_event (root id name taskID sourceType : string) :
  is_rooted root = true → proper id → proper name →
  let path := filepath_Join [root; id; "drop"; name] in
  let ext := ToLower (Engine.Ext path) in
  knownExts ext = Some sourceType →
  handleCreateEvent root true (Some taskID) path =
    Some (id, {| Id := taskID; Name := name; SourceType := sourceType;
                 ConfigJson := config_json path sourceType (Emerge.TrimSuffix name ext) |}).
Proof.
  intros Hr Hid Hn path ext Hk. assert (proper "drop") as Hd by done.
  assert (Forall proper [id; "drop"; name]) as Hall by by rewrite !Forall_cons, Forall_nil. unfold handleCreateEvent. fold ext. rewrite Hk. cbn [negb].
  assert (Projects.filepath_Base path = name) as ->.
  { apply (Base_below root [id; "drop"] name); [done|by rewrite !Forall_cons, Forall_nil|done]. }
  assert (filepath_Rel root path = Some (str_join "/" [id; "drop"; name])) as -> by by apply Rel_below.
  assert (split2 (str_join "/" [id; "drop"; name]) "/" = Some (id, "drop/" +:+ name)) as ->; [|by rewrite bool_decide_eq_false_2 by apply Hid].
  pose proof (GitHub.str_index_first id "" "/" ("drop/" +:+ name) ltac:(rewrite str_app_nil_r; apply Hid)) as Hi.
  rewrite !str_app_nil_l in Hi. change (str_join "/" [id; "drop"; name]) with (id +:+ String "/" ("drop/" +:+ name)).
  unfold split2. rewrite Hi. cbn [fmap option_fmap option_map]. f_equal. f_equal; [by apply str_take_app_exact|].
  change (id +:+ String "/" ("drop/" +:+ name)) with (id +:+ ("/" +:+ ("drop/" +:+ name))). rewrite <- str_app_assoc.
  apply str_drop_app_exact. by rewrite str_length_app.
Qed.

(** *** What becomes of it *)

(** The fields of the configuration, as the engine decodes them. *)
Lemma config_fields path sourceType name : text_ok path → (sourceType = "csv" → text_ok name) →
  config (config_json path sourceType name) =
    Some (("path", JStr path) :: if bool_decide (sourceType = "csv") then [("tableName", JStr name)] else []).
Proof.
  intros Hp Hn. unfold config, config_json. rewrite Marshal_roundtrip; [done|].
  case_bool_decide; cbn; split_and?; by auto.
Qed.
End Events.

Section Composition.
Context `{Unicode} `{UnicodeFold} `{UrlLib} `{Floats} `{Sitemap.SitemapLib} `{MailLib} `{Engine.Env}.

(** Of the four kinds of files that are picked up, only CSV and TSV can be ingested.
    The task of a JSON file asks for the run of code that its configuration does not
    have, that of a Parquet file for a copy from a project that its configuration does
    not name: the engine refuses both, whatever the file holds, and executes no
    statement. *)
Theorem json_parquet_never_ingested (root path projectID : string) (stable : bool) (taskID : option string) (task : IngestionTask) (w : Engine.World) :
  text_ok path → handleCreateEvent root stable taskID path = Some (projectID, task) →
  ToLower (Engine.Ext path) ∈ [".json"; ".parquet"] →
  TaskRun.run_source root projectID task w = (w, Err Engine.MissingConfig) ∧
  ∃ e, (TaskRun.RunTask root projectID task w).2 = Err e.
Proof.
  intros Hp He Hext.
  assert (∀ w, TaskRun.run_source root projectID task w = (w, Err Engine.MissingConfig)) as Hrun.
  { assert (∃ name, ConfigJson task = config_json path (SourceType task) name ∧ SourceType task ∈ ["custom_code"; "copy"]) as (name & Hc & Hs).
    { unfold handleCreateEvent in He.
      rewrite !elem_of_cons, elem_of_nil in Hext. destruct Hext as [E|[E|[]]]; rewrite E in He;
        repeat case_match; simplify_eq; eexists; (split; [reflexivity|]); cbn [SourceType];
        match goal with H : knownExts _ = Some _ |- _ => vm_compute in H; injection H as <- end; set_solver. }
    rewrite !elem_of_cons, elem_of_nil in Hs. assert (SourceType task ≠ "csv") as Hn
      by (intros E; rewrite E in Hs; destruct Hs as [?|[?|[]]]; discriminate).
    assert (config (ConfigJson task) = Some [("path", JStr path)]) as Hcfg.
    { rewrite Hc, config_fields by done. by rewrite bool_decide_eq_false_2. }
    assert (∀ f, fold_name "path" ≠ fold_name f → Engine.fields (ConfigJson task) [f] = Some [""]) as Hf.
    { intros f Hne. unfold Engine.fields. rewrite Hcfg. cbn. unfold string_field. cbn [field_from].
      by rewrite bool_decide_eq_false_2. }
    intros w'. unfold TaskRun.run_source.
    destruct Hs as [->|[->|[]]];
      rewrite (bool_decide_eq_false_2 (_ ∈ _)) by (rewrite !elem_of_cons, elem_of_nil; intros [?|[?|[]]]; discriminate);
      repeat rewrite (bool_decide_eq_false_2 (_ = _)) by discriminate; rewrite bool_decide_eq_true_2 by reflexivity;
      unfold Engine.runDynamic, Engine.runCopy; rewrite Hf by (vm_compute; discriminate); reflexivity. }
  split; [apply Hrun|]. apply TaskRun.RunTask_fails. intros w'. rewrite Hrun. by eexists.
Qed.
End Composition.

(** *** Concrete events *)
Section Samples.
#[local] Existing Instance ascii_tables.
#[local] Existing Instance ascii_fold_tables.
#[local] Existing Instance JsonApi.sample_urls.
#[local] Existing Instance Probe.sample_floats.
#[local] Existing Instance Sitemap.sample_lib.
#[local] Existing Instance Imap.sample_mail.
#[local] Existing Instance SampleRun.sample_env.

Definition parquet_task : IngestionTask :=
  {| Id := "ab"; Name := "t.parquet"; SourceType := "copy"; ConfigJson := config_json "/srv/p/drop/t.parquet" "copy" "t" |}.
Lemma json_parquet_never_ingested_witness :
  TaskRun.run_source "/srv" "p" parquet_task SampleRun.sample_world = (SampleRun.sample_world, Err Engine.MissingConfig) ∧
  ∃ e, (TaskRun.RunTask "/srv" "p" parquet_task SampleRun.sample_world).2 = Err e.
Proof.
  apply (json_parquet_never_ingested "/srv" "/srv/p/drop/t.parquet" "p" true (Some "ab") parquet_task SampleRun.sample_world);
    [vm_compute; reflexivity|vm_compute; reflexivity|].
  change (ToLower (Engine.Ext "/srv/p/drop/t.parquet")) with ".parquet". right. left.
Defined.

Example upper_case_extension :
  handleCreateEvent "/srv" true (Some "ab") "/srv/p/drop/DATA.CSV" =
    Some ("p", {| Id := "ab"; Name := "DATA.CSV"; SourceType := "csv"; ConfigJson := config_json "/srv/p/drop/DATA.CSV" "csv" "DATA.CSV" |}) ∧
  handleCreateEvent "/srv" true (Some "ab") "/srv/p/drop/data.csv" =
    Some ("p", {| Id := "ab"; Name := "data.csv"; SourceType := "csv"; ConfigJson := config_json "/srv/p/drop/data.csv" "csv" "data" |}).
Proof. split; vm_compute; reflexivity. Qed.

Lemma drop_event_witness :
  handleCreateEvent "/srv" true (Some "ab") "/srv/p/drop/data.tsv" =
    Some ("p", {| Id := "ab"; Name := "data.tsv"; SourceType := "csv"; ConfigJson := config_json "/srv/p/drop/data.tsv" "csv" "data" |}).
Proof. apply (drop_event "/srv" "p" "data.tsv" "ab" "csv"); [reflexivity|by repeat split|by repeat split|vm_compute; reflexivity]. Defined.

Lemma failed_add_lost_witness :
  let '(w1, e) := AddProject (λ _, true) (λ _, false) "p" {| projectsRoot := "/srv"; fw := Some []; watchedDirs := ∅ |} in
  e = Some (AddFailed "/srv/p/drop") ∧ AddProject (λ _, true) (λ _, true) "p" w1 = (w1, None) ∧
  fw w1 = Some [] ∧ "/srv/p/drop" ∉ @nil string.
Proof.
  apply (failed_add_lost (λ _, true) (λ _, true) (λ _, true) "p" [] {| projectsRoot := "/srv"; fw := Some []; watchedDirs := ∅ |});
    [reflexivity|split; [apply NoDup_nil_2|reflexivity]|vm_compute; discriminate|reflexivity|reflexivity].
Defined.

Lemma projects_watched_witness :
  fw (foldl (λ w id, (AddProject (λ _, true) (λ _, true) id w).1)
        (Start (λ _, true) (λ _, true) true (Some ["a"; "b"]) (NewWatcher "/srv")).1 ["b"; "c"]) =
    Some ["/srv/a/drop"; "/srv/b/drop"; "/srv/c/drop"] ∧
  ∃ added, fw (foldl (λ w id, (AddProject (λ _, true) (λ _, true) id w).1)
                 (Start (λ _, true) (λ _, true) true (Some ["a"; "b"]) (NewWatcher "/srv")).1 ["b"; "c"]) = Some added ∧ NoDup added ∧
    list_to_set added =@{gset string} list_to_set (drop_dir "/srv" <$> ["a"; "b"; "b"; "c"]).
Proof.
  split; [vm_compute; reflexivity|].
  exact (projects_watched (λ _, true) (λ _, true) ["a"; "b"] ["b"; "c"] (NewWatcher "/srv") (λ _, eq_refl) (λ _, eq_refl)).
Defined.
End Samples.
End Watcher.
