(* ===== verification/Suggest.v ===== *)
(** * Suggestions of tools for a message (internal/suggestion/ranker.go, engine.go, usage.go)

    The similarity of embeddings and the composite score in float64, the counters of
    usage, and the engine that ranks the tools of a registry with the cached embeddings.
    The embedding service, the order of maps and the order in which [sort.Slice] leaves
    equal scores are arguments. *)

From S2P Require Import Prelude GoStrings GoValues Caches ToolRegistry.

Module Suggest.
Import ToolRegistry.

Definition f64_sqrt : f64 → f64 := SFsqrt f64_prec f64_emax.
Definition zero : f64 := f64_of_int 0.
Definition one : f64 := f64_of_int 1.

(** The elements of an embedding, as the float64 they are converted to. *)
Definition Embedding : Type := list f64.
Record ToolEmbed := { TName : string; TCategory : string; TDescription : string; TEmbedding : Embedding }.
Record Suggestion := {
  ToolName : string; SCategory : string; SDescription : string; Score : f64; Similarity : f64; UsageScore : f64; Reason : string;
}.

(** *** Scores (ranker.go) *)
Definition dot_step (acc : f64 * f64 * f64) (xy : f64 * f64) : f64 * f64 * f64 :=
  let '(dot, na, nb) := acc in let '(x, y) := xy in
  (f64_add dot (f64_mul x y), f64_add na (f64_mul x x), f64_add nb (f64_mul y y)).
(** [x == 0] of a float. *)
Definition is_zero (x : f64) : bool := SFeqb x zero.
Definition cosineSimilarity (a b : Embedding) : f64 :=
  if bool_decide (length a ≠ length b) || bool_decide (length a = 0%nat) then zero
  else
    let '(dot, normA, normB) := foldl dot_step (zero, zero, zero) (zip a b) in
    if is_zero normA || is_zero normB then zero
    else
      let sim := f64_div dot (f64_sqrt (f64_mul normA normB)) in
      if f64_lt sim zero then zero else sim.

Definition with_score (x : f64) (s : Suggestion) : Suggestion :=
  {| ToolName := ToolName s; SCategory := SCategory s; SDescription := SDescription s; Score := x; Similarity := Similarity s;
     UsageScore := UsageScore s; Reason := Reason s |}.
Definition normalizeScores (l : list Suggestion) : list Suggestion :=
  match l with
  | [] => []
  | s0 :: _ =>
    let minScore := foldl (λ m s, if f64_lt (Score s) m then Score s else m) (Score s0) l in
    let maxScore := foldl (λ m s, if f64_lt m (Score s) then Score s else m) (Score s0) l in
    let scoreRange := f64_sub maxScore minScore in
    (λ s, with_score (if is_zero scoreRange then one else f64_div (f64_sub (Score s) minScore) scoreRange) s) <$> l
  end.

Definition maxUsage (stats : gmap string Z) : Z := map_fold (λ _ v high, Z.max v high) 0 stats.

Definition buildReason (similarity usageScore : f64) : string :=
  let half := f64_lit 1 2 in
  if f64_lt half usageScore && f64_lt half similarity then "Similar to tools you've used before"
  else if f64_lt (f64_lit 7 10) similarity then "Strong semantic match with your request"
  else if f64_lt half usageScore then "Frequently used tool that may help"
  else if f64_lt (f64_lit 3 10) similarity then "Partial semantic match with your request"
  else "Available tool that may be relevant".

Definition toolKeyStr (category name : string) : string := category +:+ ":" +:+ name.

Definition scored (user : Embedding) (stats : gmap string Z) (td : ToolEmbed) : Suggestion :=
  let sim := cosineSimilarity user (TEmbedding td) in
  let maxUse := maxUsage stats in
  let usageScore := if bool_decide (maxUse > 0)
    then f64_div (f64_of_int (default 0 (stats !! toolKeyStr (TCategory td) (TName td)))) (f64_of_int maxUse) else zero in
  {| ToolName := TName td; SCategory := TCategory td; SDescription := TDescription td;
     Score := f64_add (f64_mul (f64_lit 7 10) sim) (f64_mul (f64_lit 3 10) usageScore);
     Similarity := sim; UsageScore := usageScore; Reason := buildReason sim usageScore |}.

(** *** Usage (usage.go) *)
Definition TrackUsage (category name : string) (stats : gmap string Z) : gmap string Z :=
  let key := category +:+ ":" +:+ name in <[key := wrap64 (default 0 (stats !! key) + 1)]> stats.
Definition ResetStats (stats : gmap string Z) : gmap string Z := ∅.

(** *** The engine (engine.go) *)
Section Engine.
Context {Out : Type}.
Context (range : ToolRegistry (Out := Out) → list (string * ToolDefinition (Out := Out))) (keys : gset string → list string).
(** [sort.Slice] by descending score. *)
Context (sort : list Suggestion → list Suggestion).
(** The embedding service, when there is one. *)
Context (embedder : option (string → result string Embedding)).

Record Engine := { usage : gmap string Z; cache : EmbedCache.embedCache (V := Embedding) }.
Definition NewEngine : Engine := {| usage := ∅; cache := EmbedCache.newEmbedCache 100 |}.

Definition Rank (toolDefs : list ToolEmbed) (user : Embedding) (stats : gmap string Z) : list Suggestion :=
  sort (normalizeScores (scored user stats <$> toolDefs)).

Definition collectAllTools (r : ToolRegistry) : list (ToolDefinition (Out := Out)) :=
  mjoin ((λ cat, List_ range cat r) <$> keys (list_to_set (Category <$> (range r).*2))).

Definition getOrComputeEmbedding (embed : string → result string Embedding) (key text : string)
    (c : EmbedCache.embedCache (V := Embedding)) : EmbedCache.embedCache (V := Embedding) * result string Embedding :=
  match EmbedCache.get key c with
  | Some cached => (c, Ok cached)
  | None => match embed text with Err e => (c, Err e) | Ok v => (EmbedCache.put key v c, Ok v) end
  end.

(** The embeddings of the tools in order; a tool without one is left out. *)
Definition embed_tool (embed : string → result string Embedding) (acc : EmbedCache.embedCache (V := Embedding) * list ToolEmbed)
    (t : ToolDefinition (Out := Out)) : EmbedCache.embedCache (V := Embedding) * list ToolEmbed :=
  let '(c, l) := acc in
  match getOrComputeEmbedding embed (toolKeyStr (Category t) (Name t)) (Name t +:+ ": " +:+ Description t) c with
  | (c, Err _) => (c, l)
  | (c, Ok v) => (c, l ++ [{| TName := Name t; TCategory := Category t; TDescription := Description t; TEmbedding := v |}])
  end.

Definition Suggest (userMessage : string) (topN : Z) (r : ToolRegistry) (e : Engine) : Engine * result string (list Suggestion) :=
  match embedder with
  | None => (e, Ok [])
  | Some embed =>
    if bool_decide (userMessage = "") then (e, Ok [])
    else match embed userMessage with
    | Err err => (e, Err ("embed user message: " +:+ err))
    | Ok user =>
      let allTools := collectAllTools r in
      if bool_decide (allTools = []) then (e, Ok [])
      else
        let '(c, toolEmbeds) := foldl (embed_tool embed) (cache e, []) allTools in
        let e := {| usage := usage e; cache := c |} in
        if bool_decide (toolEmbeds = []) then (e, Ok [])
        else
          let suggestions := Rank toolEmbeds user (usage e) in
          let suggestions := if bool_decide (topN > 0) && bool_decide (Z.of_nat (length suggestions) > topN)
                             then take (Z.to_nat topN) suggestions else suggestions in
          (e, Ok (sort suggestions))
    end
  end.

(** *** What is suggested *)
Section Sorted.
Context (sort_perm : ∀ l, sort l ≡ₚ l).

Definition named (s : Suggestion) : string * string := (SCategory s, ToolName s).

Lemma normalizeScores_named l : named <$> normalizeScores l = named <$> l.
Proof. unfold normalizeScores. destruct l as [|s0 l]; [done|]. rewrite <- list_fmap_compose. by apply list_fmap_ext. Qed.

Lemma Rank_named defs user stats : named <$> Rank defs user stats ≡ₚ (λ td, (TCategory td, TName td)) <$> defs.
Proof.
  unfold Rank. rewrite sort_perm, normalizeScores_named, <- list_fmap_compose. done.
Qed.

Lemma embed_tools_sublist embed l c acc :
  ∃ new, (foldl (embed_tool embed) (c, acc) l).2 = acc ++ new ∧
    (λ td, (TCategory td, TName td)) <$> new `sublist_of` (λ t, (Category t, Name t)) <$> l.
Proof.
  revert c acc. induction l as [|t l IH]; intros c acc; cbn; [exists []; by rewrite app_nil_r|].
  destruct (getOrComputeEmbedding embed _ _ c) as [c1 [v|e]].
  - destruct (IH c1 (acc ++ [{| TName := Name t; TCategory := Category t; TDescription := Description t; TEmbedding := v |}])) as (new & -> & Hs).
    eexists (_ :: new). rewrite <- app_assoc. split; [done|]. cbn. by constructor.
  - destruct (IH c1 acc) as (new & -> & Hs). exists new. split; [done|]. by constructor.
Qed.

(** Suggestions are at most as many as were asked for, and each is one of the registered
    tools, which it names once. *)
Theorem Suggest_named (userMessage : string) (topN : Z) (r : ToolRegistry) (e : Engine) (l : list Suggestion) :
  (Suggest userMessage topN r e).2 = Ok l →
  (topN > 0 → Z.of_nat (length l) ≤ topN) ∧
  ∃ rest, (named <$> l) ++ rest ⊆+ (λ t, (Category t, Name t)) <$> collectAllTools r.
Proof.
  assert (∀ (l : list Suggestion), l = [] → (topN > 0 → Z.of_nat (length l) ≤ topN) ∧
    ∃ rest, (named <$> l) ++ rest ⊆+ (λ t, (Category t, Name t)) <$> collectAllTools r) as Hnil.
  { intros k ->. split; [cbn; lia|]. exists []. apply submseteq_nil_l. }
  unfold Suggest. destruct embedder as [embed|]; [|intros [= <-]; by apply Hnil].
  case_bool_decide; [intros [= <-]; by apply Hnil|]. destruct (embed userMessage) as [user|err]; [|done].
  case_bool_decide; [intros [= <-]; by apply Hnil|].
  destruct (embed_tools_sublist embed (collectAllTools r) (cache e) []) as (new & Hn & Hs).
  destruct (foldl (embed_tool embed) (cache e, []) (collectAllTools r)) as [c defs]. cbn in Hn. subst defs.
  case_bool_decide; [intros [= <-]; by apply Hnil|]. cbn [snd usage]. intros [= <-].
  pose proof (Rank_named new user (usage e)) as Hr. set (ranked := Rank new user (usage e)) in *.
  assert (named <$> ranked ⊆+ (λ t, (Category t, Name t)) <$> collectAllTools r) as Hall.
  { rewrite Hr. by apply sublist_submseteq. }
  destruct (bool_decide (topN > 0) && bool_decide (Z.of_nat (length ranked) > topN)) eqn:Ecut.
  - apply andb_true_iff in Ecut as [E1%bool_decide_eq_true E2%bool_decide_eq_true]. split.
    + intros _. rewrite (Permutation_length (sort_perm _)), length_take. lia.
    + exists (named <$> drop (Z.to_nat topN) ranked). rewrite sort_perm, <- fmap_app, take_drop. done.
  - split; [|exists []; by rewrite app_nil_r, sort_perm]. intros Ht. rewrite (Permutation_length (sort_perm _)).
    apply andb_false_iff in Ecut as [E%bool_decide_eq_false|E%bool_decide_eq_false]; lia.
Qed.
End Sorted.

(** A tool alone gets the best score, however little it has to do with the message. *)
Theorem lone_tool_scores_one (s : Suggestion) :
  is_zero (f64_sub (Score s) (Score s)) = true → f64_lt (Score s) (Score s) = false → Score <$> normalizeScores [s] = [one].
Proof. intros Hz Hlt. unfold normalizeScores. cbn. rewrite Hlt, Hz. done. Qed.

(** The embedding of a tool is that of its first description: the text is not part of
    the key. *)
Theorem stale_embedding (embed : string → result string Embedding) (key old new : string) (v : Embedding)
    (c : EmbedCache.embedCache (V := Embedding)) :
  EmbedCache.get key c = None → embed old = Ok v →
  let c1 := (getOrComputeEmbedding embed key old c).1 in (getOrComputeEmbedding embed key new c1) = (c1, Ok v).
Proof.
  intros Hg He. cbn zeta.
  assert ((getOrComputeEmbedding embed key old c).1 = EmbedCache.put key v c) as ->
    by (unfold getOrComputeEmbedding; by rewrite Hg, He). unfold getOrComputeEmbedding.
  assert (EmbedCache.get key (EmbedCache.put key v c) = Some v) as ->; [|done].
  unfold EmbedCache.get, EmbedCache.put in *. rewrite Hg. destruct (EmbedCache.evict _ _ _) as [q m]. cbn. apply lookup_insert_eq.
Qed.
End Engine.

(** The counter of a tool is the number of its uses. *)
Theorem usage_counts (uses : list (string * string)) (key : string) : Z.of_nat (length uses) < 2 ^ 62 →
  default 0 (foldl (λ s u, TrackUsage u.1 u.2 s) ∅ uses !! key) =
    Z.of_nat (length (filter (λ u, u.1 +:+ ":" +:+ u.2 = key) uses)).
Proof.
  induction uses as [|u uses IH] using rev_ind; intros Hlen; [done|]. rewrite length_app in Hlen. cbn in Hlen.
  rewrite foldl_app, filter_app, length_app. cbn [foldl]. unfold TrackUsage at 1. rewrite filter_cons, filter_nil.
  specialize (IH ltac:(lia)). pose proof (length_filter (λ u, u.1 +:+ ":" +:+ u.2 = key) uses).
  case_decide as E.
  - rewrite <- E at 1. rewrite lookup_insert_eq. cbn. rewrite E, IH. rewrite wrap64_id; unfold is_int64, min_int64, max_int64; cbn; lia.
  - rewrite lookup_insert_ne by done. rewrite IH. cbn. lia.
Qed.

(** *** Concrete scores *)
Definition e3 (a b c : Z) : Embedding := f64_of_int <$> [a; b; c].
Example similarities :
  cosineSimilarity (e3 1 2 2) (e3 2 4 4) = one ∧ cosineSimilarity (e3 1 0 0) (e3 0 1 0) = zero ∧
  cosineSimilarity (e3 1 0 0) (e3 (-1) 0 0) = zero ∧ cosineSimilarity (e3 1 0 0) [one] = zero.
Proof. split_and!; vm_compute; reflexivity. Qed.

Lemma lone_tool_scores_one_witness :
  let td := {| TName := "a"; TCategory := "c"; TDescription := ""; TEmbedding := e3 0 1 0 |} in
  Similarity (scored (e3 1 0 0) ∅ td) = zero ∧ Score <$> normalizeScores [scored (e3 1 0 0) ∅ td] = [one].
Proof.
  intros td. split; [vm_compute; reflexivity|].
  apply (lone_tool_scores_one (scored (e3 1 0 0) ∅ td)); vm_compute; reflexivity.
Defined.
End Suggest.
