(* ===== verification/Bias.v ===== *)
(** * Bias checks (internal/ethics/bias.go)

    The four checks and their report, in float64.  The logarithm and the power of package
    math and the formatting of floats are parameters; the entries of a map are listed in
    the order in which the program ranges over it. *)

From S2P Require Import Prelude GoStrings GoValues Suggest.

Module Bias.
Import Suggest.

Definition BiasKind : Type := string.
Definition BiasDataBias : BiasKind := "data_bias".
Definition BiasAlgorithmicBias : BiasKind := "algorithmic_bias".
Definition BiasConfirmationBias : BiasKind := "confirmation_bias".

Definition DefaultDataBalanceThreshold : f64 := f64_lit 70 100.
Definition DefaultParityThreshold : f64 := f64_lit 10 100.
Definition DefaultDiversityThreshold : f64 := f64_lit 35 100.

Record BiasCheckResult := { Kind : BiasKind; Passed : bool; BScore : f64; Threshold : f64; BMessage : string }.
Definition BiasReport : Type := list BiasCheckResult.

Definition AllPassed (r : BiasReport) : bool := forallb Passed r.
Definition Summary (r : BiasReport) : string :=
  let total := Z.of_nat (length r) in
  let passed := Z.of_nat (length (filter (λ c, Passed c = true) r)) in
  if bool_decide (total = 0) then "no bias checks performed" else Itoa passed +:+ "/" +:+ Itoa total +:+ " bias checks passed".

Section Checks.
Context (Log2 : f64 → f64) (Pow : f64 → f64 → f64) (format : Z → f64 → string).

Definition result_of (kind : BiasKind) (passed : bool) (score threshold : f64) (msg : string) : BiasCheckResult :=
  {| Kind := kind; Passed := passed; BScore := score; Threshold := threshold; BMessage := msg |}.

(** *** Distribution *)
Definition entropy_step (total : Z) (h : f64) (c : Z) : f64 :=
  if bool_decide (c > 0) then
    let p := f64_div (f64_of_int c) (f64_of_int total) in f64_sub h (f64_mul p (Log2 p))
  else h.
Definition CheckDataBalance (categoryCounts : list (string * Z)) (threshold : f64) : BiasCheckResult :=
  if bool_decide (categoryCounts = []) then result_of BiasDataBias false zero threshold "no category data to evaluate"
  else
    let total := foldl (λ t c, wrap64 (t + c)) 0 categoryCounts.*2 in
    if bool_decide (total = 0) then result_of BiasDataBias false zero threshold "all category counts are zero"
    else
      let maxEntropy := Log2 (f64_of_int (Z.of_nat (length categoryCounts))) in
      let observedEntropy := foldl (entropy_step total) zero categoryCounts.*2 in
      let normalized := if f64_lt zero maxEntropy then f64_div observedEntropy maxEntropy else one in
      let passed := f64_le threshold normalized in
      let numbers := "(normalized entropy=" +:+ format 3 normalized +:+ ", threshold=" +:+ format 2 threshold +:+ ")" in
      result_of BiasDataBias passed normalized threshold
        (if passed then "distribution is balanced " +:+ numbers
         else "distribution is skewed " +:+ numbers +:+ " — consider stratified sampling or re-weighting").
Definition EdgeTypeBalance (typeCounts : list (string * Z)) : BiasCheckResult := CheckDataBalance typeCounts DefaultDataBalanceThreshold.

(** *** Parity *)
Definition vectorMagnitude (v : list f64) : f64 := f64_sqrt (foldl (λ s x, f64_add s (f64_mul x x)) zero v).
(** [math.Abs]. *)
Definition f64_abs : f64 → f64 := SFabs.

Definition group_mean (embeddings : list (list f64)) (indices : list Z) : f64 :=
  if bool_decide (indices = []) then zero
  else
    let sum := foldl (λ sum idx,
      if bool_decide (idx < 0) || bool_decide (Z.of_nat (length embeddings) ≤ idx) then sum
      else match embeddings !! Z.to_nat idx with Some v => f64_add sum (vectorMagnitude v) | None => sum end) zero indices in
    f64_div sum (f64_of_int (Z.of_nat (length indices))).

(** The loops over the pairs [i < j] of the group means, sorted by group. *)
Fixpoint max_diff (acc : f64) (means : list f64) : f64 :=
  match means with
  | [] => acc
  | m :: means =>
    let acc := foldl (λ acc m', let diff := f64_abs (f64_sub m m') in if f64_lt acc diff then diff else acc) acc means in
    max_diff acc means
  end.

(** [sorted]: the entries of the map in the order of their group names. *)
Definition ComputeDemographicParity (embeddings : list (list f64)) (sorted : list (string * list Z)) (threshold : f64) : BiasCheckResult :=
  if bool_decide (embeddings = []) then result_of BiasAlgorithmicBias false zero threshold "no embeddings to evaluate"
  else if bool_decide (sorted = []) then result_of BiasAlgorithmicBias true one threshold "no groups defined — parity check skipped"
  else if bool_decide (length sorted < 2)%nat then
    result_of BiasAlgorithmicBias true one threshold "fewer than 2 groups — parity check skipped"
  else
    let maxDiff := max_diff zero (group_mean embeddings <$> sorted.*2) in
    let score := f64_sub one maxDiff in
    let score := if f64_lt score zero then zero else score in
    let passed := f64_le maxDiff threshold in
    let numbers := "(max group diff=" +:+ format 4 maxDiff +:+ ", threshold=" +:+ format 2 threshold +:+ ")" in
    result_of BiasAlgorithmicBias passed score threshold
      (if passed then "demographic parity holds " +:+ numbers
       else "demographic parity violation detected " +:+ numbers +:+ " — groups are not scoring equally").

(** *** Diversity *)

(** The entries that the loops visit: [i < j], both below the number of recommendations,
    the row and the entry in the matrix. *)
Definition pair_entries (recommendations : Z) (matrix : list (list f64)) : list f64 :=
  mjoin (imap (λ i row, drop (S i) (take (Z.to_nat recommendations) row)) (take (Z.to_nat recommendations) matrix)).

Definition ComputeDiversityScore (recommendations : Z) (matrix : list (list f64)) (threshold : f64) : BiasCheckResult :=
  if bool_decide (recommendations ≤ 1) then
    result_of BiasConfirmationBias true one threshold "fewer than 2 recommendations — diversity check skipped"
  else if bool_decide (length matrix < 2)%nat then
    result_of BiasConfirmationBias true one threshold "similarity matrix too small — diversity check skipped"
  else
    let entries := pair_entries recommendations matrix in
    if bool_decide (entries = []) then
      result_of BiasConfirmationBias true one threshold "no pairwise comparisons available — diversity check skipped"
    else
      let totalSim := foldl f64_add zero entries in
      let avgSimilarity := f64_div totalSim (f64_of_int (Z.of_nat (length entries))) in
      let passed := f64_le avgSimilarity threshold in
      let numbers := "(avg pairwise similarity=" +:+ format 3 avgSimilarity +:+ ", threshold=" +:+ format 2 threshold +:+ ")" in
      result_of BiasConfirmationBias passed (f64_sub one avgSimilarity) threshold
        (if passed then "recommendations are diverse " +:+ numbers
         else "recommendations lack diversity " +:+ numbers +:+ " — consider diversifying candidates").

(** *** Decay *)
Definition DecayWeight (elapsed halfLife : Duration) : f64 :=
  if bool_decide (halfLife ≤ 0) then one
  else if bool_decide (elapsed ≤ 0) then one
  else Pow (f64_lit 1 2) (f64_div (f64_of_int elapsed) (f64_of_int halfLife)).
Definition DecayedScore (rawScore : f64) (elapsed halfLife : Duration) : f64 := f64_mul rawScore (DecayWeight elapsed halfLife).

(** *** The report; [None] is a nil argument *)
Definition RunAllChecks (categoryCounts : option (list (string * Z))) (embeddings : option (list (list f64)))
    (groupIndices : option (list (string * list Z))) (jaccardSim : option (list (list f64))) (numRecs : Z) : BiasReport :=
  match categoryCounts with Some c => [CheckDataBalance c DefaultDataBalanceThreshold] | None => [] end ++
  match embeddings, groupIndices with Some e, Some g => [ComputeDemographicParity e g DefaultParityThreshold] | _, _ => [] end ++
  match jaccardSim with
  | Some j => if bool_decide (numRecs > 1) then [ComputeDiversityScore numRecs j DefaultDiversityThreshold] else []
  | None => []
  end.

(** *** What the checks say *)

Lemma pair_count_from k n (m : list (list f64)) : Forall (λ row, length row = n) m → (k + length m = n)%nat →
  (2 * length (mjoin (imap (λ i row, drop (S (k + i)) row) m)) = length m * (length m - 1))%nat.
Proof.
  revert k. induction m as [|row m IH]; intros k Hrow Hk; [done|]. apply Forall_cons in Hrow as [Hr Hrow]. cbn [length] in Hk.
  rewrite imap_cons. change (mjoin (?x :: ?l)) with (x ++ mjoin l). rewrite length_app, length_drop, Hr.
  rewrite (imap_ext _ (λ i row, drop (S (S k + i)) row)) by (intros; cbn; do 2 f_equal; lia).
  specialize (IH (S k) Hrow ltac:(lia)). cbn [length]. nia.
Qed.

(** With as many recommendations as the square matrix has rows the average is over each
    pair of them once. *)
Theorem each_pair_once (n : nat) (matrix : list (list f64)) : length matrix = n → Forall (λ row, length row = n) matrix →
  2 * Z.of_nat (length (pair_entries (Z.of_nat n) matrix)) = Z.of_nat n * (Z.of_nat n - 1).
Proof.
  intros Hn Hrow. unfold pair_entries. rewrite Nat2Z.id, take_ge by lia.
  rewrite (imap_ext _ (λ i row, drop (S (0 + i)) row)).
  - pose proof (pair_count_from 0 n matrix Hrow Hn) as Hc. rewrite Hn in Hc. revert Hc.
    generalize (length (mjoin (imap (λ i row, drop (S (0 + i)) row) matrix))). intros L Hc. destruct n as [|n]; nia.
  - intros i row Hi. rewrite take_ge; [done|]. rewrite Forall_forall in Hrow. rewrite (Hrow row); [done|]. by eapply list_elem_of_lookup_2.
Qed.

(** Data of one category counts as perfectly balanced, where the comment gives it the
    worst score. *)
Theorem single_category_balanced (category : string) (count : Z) (threshold : f64) :
  Log2 one = zero → 0 < count < 2 ^ 62 →
  BScore (CheckDataBalance [(category, count)] threshold) = one ∧
  Passed (CheckDataBalance [(category, count)] threshold) = f64_le threshold one.
Proof.
  intros Hl Hc. unfold CheckDataBalance. rewrite bool_decide_eq_false_2 by done. cbn [fmap list_fmap foldl snd length].
  rewrite wrap64_id by (unfold is_int64, min_int64, max_int64; lia). rewrite bool_decide_eq_false_2 by lia.
  change (f64_of_int (Z.of_nat 1)) with one. rewrite Hl. change (f64_lt zero zero) with false. done.
Qed.

(** An index that is out of range is not counted in the sum but is in the number that the
    sum is divided by, so it pulls the mean of its group towards zero. *)
Theorem bad_index_counts (embeddings : list (list f64)) (indices : list Z) (bad : Z) :
  bad < 0 ∨ Z.of_nat (length embeddings) ≤ bad → indices ≠ [] →
  group_mean embeddings (indices ++ [bad]) =
    f64_div (foldl (λ sum idx,
      if bool_decide (idx < 0) || bool_decide (Z.of_nat (length embeddings) ≤ idx) then sum
      else match embeddings !! Z.to_nat idx with Some v => f64_add sum (vectorMagnitude v) | None => sum end) zero indices)
      (f64_of_int (Z.of_nat (length indices) + 1)).
Proof.
  intros Hb Hi. unfold group_mean. rewrite bool_decide_eq_false_2 by (by destruct indices).
  rewrite foldl_app, length_app. cbn [foldl length]. rewrite Nat2Z.inj_add. change (Z.of_nat 1) with 1. f_equal.
  assert (bool_decide (bad < 0) || bool_decide (Z.of_nat (length embeddings) ≤ bad) = true) as ->; [|done].
  apply orb_true_iff. rewrite !bool_decide_eq_true. done.
Qed.

End Checks.

(** *** Concrete checks *)
Definition sample_log2 (x : f64) : f64 := if SFeqb x (f64_of_int 2) then one else if SFeqb x (f64_lit 1 2) then f64_neg one else zero.
Definition sample_balance : list (string * Z) → f64 → BiasCheckResult := CheckDataBalance sample_log2 (λ _ _, "").

Lemma single_category_balanced_witness :
  BScore (sample_balance [("train", 1000)] DefaultDataBalanceThreshold) = one ∧
  Passed (sample_balance [("train", 1000)] DefaultDataBalanceThreshold) = f64_le DefaultDataBalanceThreshold one.
Proof. apply (single_category_balanced sample_log2 (λ _ _, "") "train" 1000); [vm_compute; reflexivity|lia]. Defined.

Example two_categories :
  BScore (sample_balance [("train", 7); ("eval", 7)] (f64_lit 9 10)) = one ∧ Passed (sample_balance [("train", 0); ("eval", 0)] zero) = false.
Proof. split; vm_compute; reflexivity. Qed.

Lemma each_pair_once_witness : 2 * Z.of_nat (length (pair_entries 3 (replicate 3 (replicate 3 one)))) = 3 * (3 - 1).
Proof. apply (each_pair_once 3 (replicate 3 (replicate 3 one))); [reflexivity|repeat constructor]. Defined.
End Bias.
