(* ===== verification/ToolExec.v ===== *)
(** * Execution of registered tools over HTTP (api/handler/tool_exec.go, tools/registry.go)

    The default registry and the handlers that list, execute, call and store its tools.
    The tools themselves, the order of the registry's map and the outcome of statements
    are arguments; [None] as the outcome of a request is a panic. *)

From S2P Require Import Prelude GoStrings GoValues GoText GoJson Caches Cursor Repository ToolRegistry Discovery.

Module ToolExec.
Import Repository.Repository ToolRegistry Pagination.

(** What a tool returns: a value, or the text of an OSINT tool that is not JSON. *)
Definition Out : Type := any.
Abbreviation Tool := (ToolDefinition (Out := Out)).
Abbreviation Registry := (ToolRegistry (Out := Out)).

(** *** Wrappers (registry.go) *)
Definition FinanceToolDef (name description : string) (execute : Exec (Out := Out)) : Tool :=
  {| Name := name; Category := "finance"; Description := description; Params := []; Execute_ := Some execute |}.

Section Wrappers.
Context (marshal : list (string * any) → result string string) (number : string → f64).

Definition OSINTToolDef (name description : string) (execute : string → result string string) : Tool :=
  {| Name := name; Category := "osint"; Description := description; Params := [];
     Execute_ := Some (λ params,
       match marshal params with
       | Err e => Err ("osint marshal params: " +:+ e)
       | Ok raw =>
         match execute raw with
         | Err e => Err e
         | Ok resultStr =>
           Ok (match Json.Unmarshal resultStr with Some v => ToolSuggest.any_of number v | None => AnyStr resultStr end)
         end
       end) |}.

(** A tool of the human-ecosystems package. *)
Record HETool := { HEName : string; HEDescription : string; HEExecute : Exec (Out := Out) }.
Definition HEToolDef (tool : HETool) : Tool :=
  {| Name := HEName tool; Category := "human-ecosystems"; Description := HEDescription tool; Params := [];
     Execute_ := Some (HEExecute tool) |}.

(** *** The default registry *)
Context (finance : string → Exec (Out := Out)) (osint : string → string → result string string) (he_tools : list HETool).

Definition finance_names : list (string * string) :=
  [("finance_prophet_forecast", "Time-series forecasting using SMA/linear regression (no Python Prophet dependency)");
   ("finance_openbb_market_data", "Market data via HTTP gateway with retry logic and structured mock fallback");
   ("finance_sentiment_analysis", "Financial sentiment analysis using NLP adapter or keyword-based fallback")].
Definition osint_names : list (string * string) :=
  [("osint_region_dossier", "Region dataset dossier from Shadowbroker (beta) | is_synthetic=true | privacy-preserving");
   ("osint_threat_level", "Threat level assessment from Shadowbroker data (beta) | is_synthetic=true");
   ("osint_vessel_tracking", "Vessel tracking intelligence from Shadowbroker (beta) | is_synthetic=true");
   ("osint_flight_tracking", "Flight tracking intelligence from Shadowbroker (beta) | is_synthetic=true");
   ("osint_correlation_alerts", "Cross-source OSINT correlation for threat alerts (beta) | is_synthetic=true")].
Definition default_defs (broker : bool) : list Tool :=
  ((λ nd, FinanceToolDef nd.1 nd.2 (finance nd.1)) <$> finance_names) ++
  (if broker then (λ nd, OSINTToolDef nd.1 nd.2 (osint nd.1)) <$> osint_names else []) ++
  (HEToolDef <$> he_tools).
(** A definition that is refused is logged and left out. *)
Definition populateDefaultRegistry (broker : bool) : Registry :=
  foldl (λ r d, (Register d r).1) NewToolRegistry (default_defs broker).
End Wrappers.

(** [h.Registry()]: the attached one, or the default, which is then attached. *)
Definition registry_of (dflt : Registry) (h : option Registry) : Registry := default dflt h.

(** *** Requests *)
Record HttpRequest := {
  Method : string; PathCategory : string; PathName : string; QueryPage : string; QueryPerPage : string; ReqBody : Discovery.response;
}.
Inductive reply :=
| PlainError (status : Z) (msg : string)
| Categories_ (names : list string)
| Tools_ (defs : option (list Tool))
| Executed (out : Out)
| Stored (registered failed : list string).

(** [l[lo:hi]]; outside the bounds it panics. *)
Definition slice {A} (l : list A) (lo hi : Z) : option (list A) :=
  if bool_decide (0 ≤ lo ≤ hi ∧ hi ≤ Z.of_nat (length l))
  then Some (take (Z.to_nat (hi - lo)) (drop (Z.to_nat lo) l)) else None.

Section Handlers.
Context (range : Registry → list (string * Tool)) (keys : gset string → list string).
Context (reg_text : reg_error → string) (number : string → f64).

(** [reg.Categories()], in the order of a map. *)
Definition Categories (r : Registry) : list string := keys (list_to_set (Category <$> (range r).*2)).

Definition HandleListCategories (req : HttpRequest) (r : Registry) : reply :=
  if bool_decide (Method req ≠ "GET") then PlainError 405 "method not allowed" else Categories_ (Categories r).

Definition HandleListToolsByCategory (req : HttpRequest) (r : Registry) : option reply :=
  if bool_decide (Method req ≠ "GET") then Some (PlainError 405 "method not allowed")
  else
    let category := PathCategory req in
    if bool_decide (category = "") then Some (PlainError 400 "category is required")
    else
      let pag := ParsePagePagination (QueryPage req) (QueryPerPage req) in
      let tools := List_ range category r in
      if bool_decide (tools = []) then Some (PlainError 404 ("unknown category: " +:+ category))
      else if bool_decide (Offset pag < Z.of_nat (length tools)) then
        let e := wrap64 (Offset pag + PerPage pag) in
        let e := if bool_decide (e > Z.of_nat (length tools)) then Z.of_nat (length tools) else e in
        match slice tools (Offset pag) e with Some page => Some (Tools_ (Some page)) | None => None end
      else Some (Tools_ None).

(** The execution once the arguments are known. *)
Definition run_tool (category name : string) (args : list (string * any)) (r : Registry) : reply :=
  if bool_decide (List_ range category r = []) then PlainError 404 ("unknown category: " +:+ category)
  else match Execute category name args r with
  | Err e => PlainError 500 ("execution failed: " +:+ reg_text e)
  | Ok (Err e) => PlainError 500 ("execution failed: " +:+ e)
  | Ok (Ok out) => Executed out
  end.

Definition args_of (m : list (string * Json.json)) : list (string * any) :=
  foldl (λ acc kv, ToolSuggest.put kv.1 kv.2 acc) [] ((λ kv, (kv.1, ToolSuggest.any_of number kv.2)) <$> m).

Definition max_body : Z := Z.shiftl 1 20.

Definition HandleExecuteTool (req : HttpRequest) (r : Registry) : reply :=
  if bool_decide (Method req ≠ "POST") then PlainError 405 "method not allowed"
  else if bool_decide (PathCategory req = "") || bool_decide (PathName req = "") then PlainError 400 "category and name are required"
  else match Discovery.ReadAll max_body (ReqBody req) with
  | Err _ => PlainError 400 "failed to read request body"
  | Ok body =>
    match (if bool_decide (body = "") then Some [] else Json.config body) with
    | None => PlainError 400 "invalid JSON body"
    | Some m => run_tool (PathCategory req) (PathName req) (args_of m) r
    end
  end.

Definition ServeHTTP (req : HttpRequest) (r : Registry) : option reply :=
  if bool_decide (Method req = "GET") then HandleListToolsByCategory req r
  else if bool_decide (Method req = "POST") then Some (HandleExecuteTool req r)
  else Some (PlainError 405 "method not allowed").

Record call_body := { CTool : string; CCategory : string; CName : string; CParams : option (list (string * Json.json)) }.
Definition decode_body (body : string) : option call_body :=
  m ← Json.config body;
  tool ← Json.string_field "tool" m;
  category ← Json.string_field "category" m;
  name ← Json.string_field "name" m;
  params ← Json.field_from Discovery.as_map "params" None m;
  Some {| CTool := tool; CCategory := category; CName := name; CParams := params |}.

(** Category and name of a call, or the message of the refusal. *)
Definition call_target (b : call_body) : result string (string * string) :=
  let required c n :=
    if bool_decide (c = "") || bool_decide (n = "")
    then Err (quoted "'tool' (e.g. 'finance.prophet_forecast') or 'category'+'name' required") else Ok (c, n) in
  if bool_decide (CTool b = "") then required (CCategory b) (CName b)
  else match split2 (CTool b) "." with
  | Some (c, n) =>
    if bool_decide (c = "") || bool_decide (n = "") then Err (quoted "invalid tool format, use 'category.name'") else required c n
  | None => Err (quoted "invalid tool format, use 'category.name'")
  end.

Definition HandleCallTool (req : HttpRequest) (r : Registry) : reply :=
  if bool_decide (Method req ≠ "POST") then PlainError 405 "method not allowed"
  else match Discovery.ReadAll max_body (ReqBody req) with
  | Err _ => PlainError 400 "failed to read request body"
  | Ok body =>
    match decode_body body with
    | None => PlainError 400 "invalid JSON body"
    | Some b =>
      match call_target b with
      | Err e => PlainError 400 e
      | Ok (category, name) => run_tool category name (match CParams b with Some m => args_of m | None => [] end) r
      end
    end
  end.

(** *** The tools as rows *)
Definition package_record (t : Tool) : ToolRecord :=
  {| ToID := Category t +:+ "_" +:+ Name t; ToName := Name t; ToDescription := Description t; ToCode := ""; ToCategory := Category t;
     ToVersion := "1.0.0"; ToHealthStatus := "unknown"; ToSourceType := "package" |}.
Definition label (t : Tool) : string := Category t +:+ "/" +:+ Name t.

Section Register.
(** Whether the database takes the row. *)
Context (db_ok : Tool → bool).
Definition register_one (acc : Repo * (list string * list string)) (t : Tool) : Repo * (list string * list string) :=
  let '(repo, (registered, failed)) := acc in
  match CreateTool (db_ok t) (package_record t) repo with
  | (repo, Some _) => (repo, (registered, failed ++ [label t]))
  | (repo, None) => (repo, (registered ++ [label t], failed))
  end.
Definition HandleRegister (req : HttpRequest) (r : Registry) (repo : Repo) : Repo * reply :=
  if bool_decide (Method req ≠ "POST") then (repo, PlainError 405 "method not allowed")
  else let '(repo, (registered, failed)) := foldl register_one (repo, ([], [])) (List_ range "" r) in
       (repo, Stored registered failed).
End Register.

(** *** Pages *)
Lemma slice_spec {A} (l : list A) lo hi : 0 ≤ lo ≤ hi → hi ≤ Z.of_nat (length l) →
  slice l lo hi = Some (take (Z.to_nat (hi - lo)) (drop (Z.to_nat lo) l)).
Proof. intros H1 H2. unfold slice. by rewrite bool_decide_eq_true_2. Qed.

(** For page numbers below 2^56 a request for a category that has tools gets the page that
    it asks for, of at most a hundred tools, and nil behind the end. *)
Theorem list_page (req : HttpRequest) (r : Registry) :
  let pag := ParsePagePagination (QueryPage req) (QueryPerPage req) in
  let tools := List_ range (PathCategory req) r in
  Method req = "GET" → PathCategory req ≠ "" → tools ≠ [] → Page pag < 2 ^ 56 → Z.of_nat (length tools) < 2 ^ 62 →
  HandleListToolsByCategory req r =
    Some (Tools_ (match drop (Z.to_nat ((Page pag - 1) * PerPage pag)) tools with
                  | [] => None
                  | rest => Some (take (Z.to_nat (PerPage pag)) rest)
                  end)) ∧ 1 ≤ PerPage pag ≤ 100.
Proof.
  intros pag tools Hm Hc Ht Hp Hlen. unfold HandleListToolsByCategory. rewrite bool_decide_eq_false_2 by (rewrite Hm; intros Hn; by apply Hn).
  rewrite bool_decide_eq_false_2 by done. fold pag. fold tools. rewrite bool_decide_eq_false_2 by done.
  assert (1 ≤ Page pag ∧ 1 ≤ PerPage pag ≤ 100) as [Hp1 Hpp].
  { unfold pag, ParsePagePagination. cbn. repeat case_match; decide_bools; cbn; lia. }
  assert (Offset pag = (Page pag - 1) * PerPage pag) as Eo.
  { unfold Offset. apply wrap64_id. unfold is_int64, min_int64, max_int64. nia. }
  rewrite Eo. assert (0 ≤ (Page pag - 1) * PerPage pag) by nia. set (o := (Page pag - 1) * PerPage pag) in *. split; [|done].
  case_bool_decide as Hlt.
  - rewrite wrap64_id by (unfold is_int64, min_int64, max_int64; lia).
    rewrite slice_spec by (case_bool_decide; lia). do 2 f_equal.
    destruct (drop (Z.to_nat o) tools) as [|x rest] eqn:Ed; [apply (f_equal length) in Ed; rewrite length_drop in Ed; cbn in Ed; lia|].
    f_equal. rewrite <- Ed. case_bool_decide as He; [|f_equal; lia].
    rewrite !take_ge; [done|rewrite length_drop; lia|rewrite length_drop; lia].
  - rewrite drop_ge by lia. done.
Qed.

(** A page number whose offset overflows makes the handler panic. *)
Theorem page_panics (req : HttpRequest) (r : Registry) :
  Method req = "GET" → PathCategory req ≠ "" → List_ range (PathCategory req) r ≠ [] →
  QueryPage req = "92233720368547760" → QueryPerPage req = "100" → HandleListToolsByCategory req r = None.
Proof.
  intros Hm Hc Ht E1 E2. unfold HandleListToolsByCategory. rewrite bool_decide_eq_false_2 by (rewrite Hm; intros Hn; by apply Hn).
  rewrite bool_decide_eq_false_2 by done. rewrite bool_decide_eq_false_2 by done. rewrite E1, E2.
  assert (Offset (ParsePagePagination "92233720368547760" "100") = - 9223372036854775716) as -> by (vm_compute; reflexivity).
  rewrite bool_decide_eq_true_2 by lia. unfold slice. rewrite bool_decide_eq_false_2; [done|]. intros [[H0 _] _]. lia.
Qed.

(** *** Two ways to one execution *)

(** A call by qualified name is the execution of the tool at its path. *)
Theorem call_is_execute (call exe : HttpRequest) (cb eb : string) (b : call_body) (m : list (string * Json.json)) (r : Registry) :
  Method call = "POST" → Method exe = "POST" →
  Discovery.ReadAll max_body (ReqBody call) = Ok cb → Discovery.ReadAll max_body (ReqBody exe) = Ok eb →
  decode_body cb = Some b → call_target b = Ok (PathCategory exe, PathName exe) →
  default [] (CParams b) = m → eb ≠ "" → Json.config eb = Some m →
  HandleCallTool call r = HandleExecuteTool exe r.
Proof.
  intros H1 H2 Hcb Heb Hd Ht Hm Hne Hc. unfold HandleCallTool, HandleExecuteTool. rewrite H1, H2, Hcb, Heb, Hd, Ht.
  rewrite bool_decide_eq_false_2 by naive_solver.
  assert (PathCategory exe ≠ "" ∧ PathName exe ≠ "") as [Hn1 Hn2].
  { assert (∀ c n, (if bool_decide (c = "") || bool_decide (n = "") then Err "" else Ok (c, n)) =@{result string (string * string)}
      Ok (PathCategory exe, PathName exe) → PathCategory exe ≠ "" ∧ PathName exe ≠ "") as Hreq.
    { intros c n. repeat case_bool_decide; cbn; intros [= <- <-]; done. }
    unfold call_target in Ht. destruct (bool_decide (CTool b = "")).
    - apply (Hreq (CCategory b) (CName b)). destruct (_ || _); [done|exact Ht].
    - destruct (split2 (CTool b) ".") as [[c n]|]; [|done]. apply (Hreq c n). destruct (_ || _); [done|exact Ht]. }
  rewrite !(bool_decide_eq_false_2 (_ = "")) by done. cbn [orb]. rewrite Hc. destruct (CParams b); cbn in Hm; by subst.
Qed.

(** *** Storing the tools *)
Section Rows.
Abbreviation rows repo := (system_tools (tables repo)).

Lemma register_one_spec db_ok acc t :
  let '(repo, _) := acc in
  let '(repo', (reg, fl)) := register_one db_ok acc t in
  if db_ok t && bool_decide (rows repo !! ToID (package_record t) = None)
  then rows repo' = <[ToID (package_record t) := package_record t]> (rows repo) ∧ reg = acc.2.1 ++ [label t] ∧ fl = acc.2.2
  else rows repo' = rows repo ∧ reg = acc.2.1 ∧ fl = acc.2.2 ++ [label t].
Proof.
  destruct acc as [repo [reg fl]]. unfold register_one, CreateTool, exec_tools, exec, sql_insert.
  destruct (db_ok t && _); cbn; [done|]. by destruct repo.
Qed.

(** The rows that existed are kept, and with a database that answers every tool of the
    registry has a row afterwards; storing the tools again adds none. *)
Lemma register_fold l repo acc : 
  let '(repo', (reg, fl)) := foldl (register_one (λ _, true)) (repo, acc) l in
  rows repo ⊆ rows repo' ∧ Forall (λ t, is_Some (rows repo' !! ToID (package_record t))) l ∧
  (Forall (λ t, is_Some (rows repo !! ToID (package_record t))) l → rows repo' = rows repo ∧ reg = acc.1 ∧ fl = acc.2 ++ (label <$> l)).
Proof.
  revert repo acc. induction l as [|t l IH]; intros repo acc; cbn [foldl].
  { destruct acc as [reg fl]. split_and!; [done|by constructor|]. intros _. by rewrite app_nil_r. }
  pose proof (register_one_spec (λ _, true) (repo, acc) t) as H1.
  destruct (register_one (λ _, true) (repo, acc) t) as [repo1 [reg1 fl1]]. cbn in H1.
  specialize (IH repo1 (reg1, fl1)). destruct (foldl _ (repo1, (reg1, fl1)) l) as [repo2 [reg2 fl2]].
  destruct IH as (Hsub & Hall & Hnone). cbn in Hnone.
  assert (rows repo ⊆ rows repo1 ∧ is_Some (rows repo1 !! ToID (package_record t))) as [Hs1 Ht1].
  { case_bool_decide as E; destruct H1 as (-> & _); cbn in *.
    - split; [by apply insert_subseteq|]. rewrite lookup_insert_eq. by eexists.
    - split; [done|]. by apply not_eq_None_Some. }
  split_and!; [by etrans|constructor; [|done]; destruct Ht1 as [x Hx]; exists x; by eapply lookup_weaken|].
  rewrite Forall_cons. intros [[x Hx] Hl]. rewrite bool_decide_eq_false_2 in H1 by (cbn in Hx; congruence).
  destruct H1 as (E1 & E2 & E3). destruct Hnone as (E4 & E5 & E6); [by rewrite E1|].
  rewrite E4, E1, E5, E2, E6, E3. split_and!; [done|done|]. cbn. by rewrite <- app_assoc.
Qed.

Theorem HandleRegister_once (req : HttpRequest) (r : Registry) (repo : Repo) : Method req = "POST" →
  let '(repo1, _) := HandleRegister (λ _, true) req r repo in
  rows repo ⊆ rows repo1 ∧ Forall (λ t, is_Some (rows repo1 !! ToID (package_record t))) (List_ range "" r) ∧
  let '(repo2, rep) := HandleRegister (λ _, true) req r repo1 in
  rows repo2 = rows repo1 ∧ rep = Stored [] (label <$> List_ range "" r).
Proof.
  intros Hm. unfold HandleRegister. rewrite bool_decide_eq_false_2 by (rewrite Hm; intros Hn; by apply Hn).
  pose proof (register_fold (List_ range "" r) repo ([], [])) as H1.
  destruct (foldl _ (repo, ([], [])) _) as [repo1 [reg1 fl1]]. destruct H1 as (Hs & Hall & _). split_and!; [done|done|].
  pose proof (register_fold (List_ range "" r) repo1 ([], [])) as H2.
  destruct (foldl _ (repo1, ([], [])) _) as [repo2 [reg2 fl2]]. destruct H2 as (_ & _ & H2). destruct (H2 Hall) as (-> & -> & ->). done.
Qed.
End Rows.
End Handlers.

(** *** The default tools *)
Section Samples.
Definition sample_exec : Exec (Out := Out) := λ _, Ok (AnyStr "done").
Definition sample_default (broker : bool) : Registry :=
  populateDefaultRegistry (λ _, Ok "{}") (λ _, f64_lit 0 1) (λ _, sample_exec) (λ _ _, Ok "[]")
    [{| HEName := "research_profiles"; HEDescription := ""; HEExecute := sample_exec |}] broker.

(** Every default tool is registered; the names of the examples in the comments, which
    leave out the prefix, are those of no tool. *)
Example default_tools :
  length (map_to_list (sample_default true)) = 9%nat ∧ length (map_to_list (sample_default false)) = 4%nat ∧
  is_Some (Get "finance" "finance_prophet_forecast" (sample_default false)) ∧ Get "finance" "prophet_forecast" (sample_default true) = None.
Proof. split_and!; [vm_compute; reflexivity|vm_compute; reflexivity|by eexists|vm_compute; reflexivity]. Qed.

Definition sample_get (page perPage : string) : HttpRequest :=
  {| Method := "GET"; PathCategory := "finance"; PathName := ""; QueryPage := page; QueryPerPage := perPage;
     ReqBody := {| Discovery.StatusCode := 0; Discovery.Body := ""; Discovery.BodyErr := None |} |}.
Definition names_of (o : option reply) : list string :=
  match o with Some (Tools_ (Some l)) => Name <$> l | _ => [] end.

(** The order of a map changes from one range to the next, so a second page can show the
    tool of the first one again. *)
Example pages_repeat :
  let page n order := names_of (HandleListToolsByCategory order (sample_get n "1") (sample_default false)) in
  page "1" map_to_list = page "3" (λ r, reverse (map_to_list r)) ∧ page "1" map_to_list ≠ page "3" map_to_list.
Proof. split; vm_compute; [reflexivity|discriminate]. Qed.

Lemma page_panics_witness :
  HandleListToolsByCategory map_to_list (sample_get "92233720368547760" "100") (sample_default false) = None.
Proof. apply page_panics; try reflexivity; vm_compute; discriminate. Defined.

Lemma list_page_witness :
  HandleListToolsByCategory map_to_list (sample_get "2" "2") (sample_default false) =
    Some (Tools_ (match drop (Z.to_nat ((2 - 1) * 2)) (List_ map_to_list "finance" (sample_default false)) with
                  | [] => None
                  | rest => Some (take (Z.to_nat 2) rest)
                  end)) ∧ 1 ≤ 2 ≤ 100.
Proof.
  exact (list_page map_to_list (sample_get "2" "2") (sample_default false) eq_refl ltac:(discriminate) ltac:(vm_compute; discriminate)
           eq_refl ltac:(vm_compute; reflexivity)).
Defined.
End Samples.
End ToolExec.
