(* ===== verification/Backup.v ===== *)
(** * Backups of the database file (internal/storage/duckdb_backup.go)

    Snapshots by copy, restoring, the periodic backups with their cleanup, and the checks
    of a backup and of an export, over the file system of [Projects].  What the operating
    system and the database refuse are arguments.  A copy is not one step: it reads the
    file piece by piece, and what others do to the file system in between is an argument
    too (they write files in place; the source is not replaced under its name).  A copy
    that fails has written an initial part of what it read. *)

From S2P Require Import Prelude GoStrings GoText SafeIdent Projects Emerge Ingestion TaskRun.

Module Backup.
Import SafeIdent Paths Projects.

(** [live]: what the database holds, of which the file has what was last written back;
    [connected]: the connection is open. *)
Record DuckDB := { path : string; live : string; HasVSS : bool; connected : bool }.
Definition closed (d : DuckDB) : DuckDB := {| path := path d; live := live d; HasVSS := HasVSS d; connected := false |}.

Inductive backup_error := InMemory | ParentDir | BeginTx | CopyFile | Commit | CloseDb | Reopen | ExportFailed.

(** *** Copying *)
Definition parent_of (l : list string) : list string := take (length l - 1) l.
(** [os.Create]: the file is there and empty. *)
Definition Create (p : string) (f : FS) : option FS :=
  if bool_decide (loc p ∈ dirs f) || negb (bool_decide (parent_of (loc p) ∈ dirs f)) then None
  else Some {| dirs := dirs f; files := <[loc p := ""]> (files f) |}.
Definition put_file (p data : string) (f : FS) : FS := {| dirs := dirs f; files := <[loc p := data]> (files f) |}.

Definition append_file (p data : string) (f : FS) : FS := put_file p (default "" (ReadFile p f) +:+ data) f.

(** [io.Copy]: the next [S n] bytes are read and written, or others act.  Nothing read is
    the end of the file; when the events are over, the rest is read, and [fault] is the
    number of its bytes after which the copy fails. *)
Inductive copy_event := Read (n : nat) | Others (act : FS → FS).
Fixpoint copy_loop (fault : option nat) (events : list copy_event) (src dst : string) (off : nat) (f : FS) : FS * bool :=
  let rest := str_drop off (default "" (ReadFile src f)) in
  match events with
  | [] =>
    match fault with
    | None => (append_file dst rest f, true)
    | Some n => (append_file dst (str_take n rest) f, false)
    end
  | Others act :: events => copy_loop fault events src dst off (act f)
  | Read n :: events =>
    let chunk := str_take (S n) rest in
    if bool_decide (chunk = "") then (f, true)
    else copy_loop fault events src dst (off + String.length chunk) (append_file dst chunk f)
  end.

(** The target is emptied before the first byte is read, also when it is the source; a
    directory is opened, and cannot be read. *)
Definition copyFile (fault : option nat) (events : list copy_event) (src dst : string) (f : FS) : FS * bool :=
  match ReadFile src f with
  | None => (if bool_decide (loc src ∈ dirs f) then default f (Create dst f) else f, false)
  | Some _ =>
    match Create dst f with
    | None => (f, false)
    | Some f => copy_loop fault events src dst 0 f
    end
  end.

(** *** Backup and restore *)
(** [during]: how the copy reads, and what others do meanwhile. *)
Record Faults := { mkdir_ok : bool; begin_ok : bool; checkpoint_ok : bool; during : list copy_event;
  copy_fault : option nat; commit_ok : bool }.

Definition in_memory (d : DuckDB) : bool := bool_decide (path d = ":memory:") || bool_decide (path d = "").

(** A checkpoint writes back what the database holds; one that fails is logged only. *)
Definition checkpoint (x : Faults) (d : DuckDB) (f : FS) : FS := if checkpoint_ok x then put_file (path d) (live d) f else f.

(** The read transaction holds no lock: whoever writes during the copy writes. *)
Definition Backup (x : Faults) (destPath : string) (d : DuckDB) (f : FS) : FS * option backup_error :=
  if in_memory d then (f, Some InMemory)
  else if negb (mkdir_ok x) then (f, Some ParentDir)
  else
    let f := MkdirAll (TaskRun.Dir destPath) f in
    if negb (begin_ok x && connected d) then (f, Some BeginTx)
    else
      let f := checkpoint x d f in
      match copyFile (copy_fault x) (during x) (path d) destPath f with
      | (f, false) => (f, Some CopyFile)
      | (f, true) => (f, if commit_ok x then None else Some Commit)
      end.

(** [close_ok], [open_ok], [vss_ok]: the connection closes, opens again, loads the
    extension.  The database then holds what the file does.  The connection is closed and
    the write lock held during the copy, so nobody writes meanwhile. *)
Definition Restore (close_ok open_ok vss_ok : bool) (fault : option nat) (sourcePath : string) (d : DuckDB) (f : FS) :
    DuckDB * FS * option backup_error :=
  if in_memory d then (d, f, Some InMemory)
  else if negb close_ok then (d, f, Some CloseDb)
  else match copyFile fault [] sourcePath (path d) f with
  | (f, false) => (closed d, f, Some CopyFile)
  | (f, true) =>
    if negb open_ok then (closed d, f, Some Reopen)
    else ({| path := path d; live := default "" (ReadFile (path d) f); HasVSS := HasVSS d && vss_ok; connected := true |}, f, None)
  end.

(** *** Periodic backups *)
Definition backup_prefix (baseName : string) : string := baseName +:+ "_backup_".
Definition backup_path (dir baseName ts : string) : string := filepath_Join [dir; backup_prefix baseName +:+ ts +:+ ".duckdb"].
Definition meta_text (d : DuckDB) (ts : string) : string :=
  "source=" +:+ path d +:+ String newline "" +:+ "time=" +:+ ts +:+ String newline "".

Definition createBackup (x : Faults) (dir_ok meta_ok : bool) (dir baseName ts : string) (d : DuckDB) (f : FS) : FS :=
  if negb dir_ok then f
  else
    let f := MkdirAll dir f in
    let destPath := backup_path dir baseName ts in
    match Backup x destPath d f with
    | (f, Some _) => f
    | (f, None) => if meta_ok then default f (WriteFile (destPath +:+ ".meta") (meta_text d ts) f) else f
    end.

Definition base_name (dbPath : string) : string :=
  let b := Emerge.TrimSuffix (filepath_Base dbPath) ".duckdb" in
  let b := if bool_decide (b = "") then Emerge.TrimSuffix (filepath_Base dbPath) ".db" else b in
  if bool_decide (b = "") then "aleph" else b.

(** The names of the files of a directory. *)
Definition file_names (dir : string) (f : FS) : list string :=
  omap (λ l, if bool_decide (parent_of l = loc dir ∧ l ≠ []) then last l else None) (map_to_list (files f)).*1.
Definition is_backup (baseName name : string) : bool := String.prefix (backup_prefix baseName) name && has_suffix name ".duckdb".
Definition backups (dir baseName : string) (f : FS) : list string :=
  (λ n, filepath_Join [dir; n]) <$> filter (λ n, is_backup baseName n = true) (file_names dir f).

Definition remove (f : FS) (p : string) : FS := default f (Remove p f).
Definition old_backups (dir baseName : string) (keep : nat) (f : FS) : list string :=
  let l := backups dir baseName f in
  if bool_decide (length l ≤ keep)%nat then [] else take (length l - keep) (sort_strings l).
Definition cleanOldBackups (read_ok : bool) (dir baseName : string) (keep : nat) (f : FS) : FS :=
  if read_ok then foldl (λ f p, remove (remove f p) (p +:+ ".meta")) f (old_backups dir baseName keep f) else f.

(** One tick of [AutoBackup]. *)
Definition tick (x : Faults) (dir_ok meta_ok read_ok : bool) (dir : string) (keep : Z) (ts : string) (d : DuckDB) (f : FS) : FS :=
  let baseName := base_name (path d) in
  let f := createBackup x dir_ok meta_ok dir baseName ts d f in
  if bool_decide (keep > 0) then cleanOldBackups read_ok dir baseName (Z.to_nat keep) f else f.
Definition AutoBackup (dir : string) (keep : Z) (d : DuckDB) (first : Faults) (ts0 : string) (ticks : list (Faults * string)) (f : FS) : FS :=
  if in_memory d then f
  else foldl (λ f '(x, ts), tick x true true true dir keep ts d f)
         (createBackup first true true dir (base_name (path d)) ts0 d f) ticks.

(** *** Checks *)
Section Export.
Context `{Unicode}.
(** The path between the first two quotes of a COPY line, if it is one of a Parquet file. *)
Definition parquet_ref (line : string) : option string :=
  let line := TrimSpace line in
  if negb (String.prefix "COPY" (ToUpper line)) then None
  else match split2 line (String squote "") with
  | None => None
  | Some (_, rest) =>
    match split2 rest (String squote "") with
    | None => None
    | Some (refPath, _) => if has_suffix refPath ".parquet" then Some refPath else None
    end
  end.
Definition exists_path (p : string) (f : FS) : bool := bool_decide (is_Some (files f !! loc p)) || bool_decide (loc p ∈ dirs f).
Definition checkReferencedParquetFiles (exportDir loadSQL : string) (f : FS) : list string :=
  filter (λ refPath, exists_path (if is_rooted refPath then refPath else filepath_Join [exportDir; refPath]) f = false)
    (omap parquet_ref (str_split newline loadSQL)).

Inductive export_error := MissingFile (name : string) | MissingParquet (refs : list string) | ReadLoad.
Definition VerifyExportBackup (exportDir : string) (f : FS) : option export_error :=
  let p name := filepath_Join [exportDir; name] in
  if negb (exists_path (p "schema.sql") f) then Some (MissingFile "schema.sql")
  else if negb (exists_path (p "load.sql") f) then Some (MissingFile "load.sql")
  else match ReadFile (p "load.sql") f with
  | None => Some ReadLoad
  | Some loadSQL =>
    let missingParquet := checkReferencedParquetFiles exportDir loadSQL f in
    if bool_decide (missingParquet = []) then None else Some (MissingParquet missingParquet)
  end.
End Export.

(** What the database says of the file, as it is opened: the counts of tables and views.
    [None] for a query that fails. *)
Record Opened := { table_count : option Z; native_count : option Z; view_count : option Z }.
Inductive verify_error := NoFile | EmptyFile | OpenFailed | CountFailed.
(** The number of objects that is logged; a file that vanishes before the second [Stat],
    whose size is logged too, makes it panic: [Ok None]. *)
Definition VerifyBackup (open : string → option Opened) (still_there : bool) (backupPath : string) (f : FS) : result verify_error (option Z) :=
  match ReadFile backupPath f with
  | None => Err NoFile
  | Some data =>
    if bool_decide (data = "") then Err EmptyFile
    else match open data with
    | None => Err OpenFailed
    | Some o =>
      match (match table_count o with Some n => Some n | None => native_count o end) with
      | None => Err CountFailed
      | Some tables => if still_there then Ok (Some (tables + default 0 (view_count o))) else Ok None
      end
    end
  end.

Definition export_sql (exportDir : string) : string :=
  "EXPORT DATABASE " +:+ String squote "" +:+ replace_char squote (String squote (String squote "")) exportDir +:+ String squote "".

(** [exec]: the statement, which writes files; [None] when it fails. *)
Definition ExportDatabase (dir_ok : bool) (exec : string → FS → option FS) (exportDir : string) (d : DuckDB) (f : FS) : FS * option backup_error :=
  if in_memory d then (f, Some InMemory)
  else if negb dir_ok then (f, Some ParentDir)
  else
    let f := MkdirAll exportDir f in
    match exec (export_sql exportDir) f with Some f => (f, None) | None => (f, Some ExportFailed) end.

(** The directory is one string literal of the statement. *)
Lemma export_sql_quotes exportDir : export_sql exportDir = "EXPORT DATABASE " +:+ QuoteStringLiteral exportDir.
Proof. unfold export_sql, QuoteStringLiteral. by rewrite str_app_cons. Qed.

(** *** What a backup keeps *)
Lemma put_file_lookup p data f : files (put_file p data f) !! loc p = Some data.
Proof. apply lookup_insert_eq. Qed.

Lemma str_take_drop_all n s : str_take n s +:+ str_drop n s = s.
Proof.
  revert s. induction n as [|n IH]; intros [|c s]; try done. cbn [str_take str_drop].
  by rewrite str_app_cons, IH.
Qed.

(** A copy that nobody disturbs. *)
Lemma copyFile_ok src dst f f' : copyFile None [] src dst f = (f', true) → loc src ≠ loc dst →
  ∃ data, ReadFile src f = Some data ∧ ReadFile dst f' = Some data ∧ dirs f' = dirs f ∧
    ∀ l, l ≠ loc dst → files f' !! l = files f !! l.
Proof.
  unfold copyFile. intros Hc Hne. destruct (ReadFile src f) as [data|] eqn:Er; [|done]. unfold Create in Hc.
  destruct (_ || _); [done|]. injection Hc as <-. exists data. unfold ReadFile in *. cbn.
  rewrite !lookup_insert_eq, lookup_insert_ne, Er by done.
  split_and!; [done| |done|].
  - unfold ReadFile. cbn. by rewrite lookup_insert_eq.
  - intros l Hl. by rewrite !lookup_insert_ne by congruence.
Qed.

(** Others leave the two files of a copy alone. *)
Definition undisturbed (src dst : string) (events : list copy_event) : Prop :=
  ∀ act f, Others act ∈ events → ReadFile src (act f) = ReadFile src f ∧ ReadFile dst (act f) = ReadFile dst f.

Lemma copy_loop_ok events src dst data : loc src ≠ loc dst → undisturbed src dst events →
  ∀ before_ rest f f', data = before_ +:+ rest → ReadFile src f = Some data → ReadFile dst f = Some before_ →
  copy_loop None events src dst (String.length before_) f = (f', true) → ReadFile dst f' = Some data.
Proof.
  intros Hne. induction events as [|[n|act] events IH]; intros Hu before_ rest f f' Hd Hs Ht; cbn [copy_loop];
    assert (str_drop (String.length before_) data = rest) as Hrest by (rewrite Hd; by apply str_drop_app_exact);
    rewrite ?Hs; cbn [default from_option id]; rewrite ?Hrest.
  - intros [= <-]. unfold append_file. rewrite Ht. unfold ReadFile. rewrite put_file_lookup. cbn. by rewrite Hd.
  - cbv zeta. case_bool_decide as He.
    { intros [= <-]. assert (rest = "") as -> by (destruct rest; done). by rewrite Ht, Hd, str_app_nil_r. }
    rewrite <- str_length_app. apply (IH ltac:(intros ???; eapply Hu; by right) _ (str_drop (S n) rest)).
    + by rewrite str_app_assoc, str_take_drop_all.
    + unfold append_file, ReadFile, put_file in *. cbn. by rewrite lookup_insert_ne.
    + unfold append_file. rewrite Ht. unfold ReadFile. by rewrite put_file_lookup.
  - destruct (Hu act f ltac:(by left)) as [Ha Hb]. rewrite <- Ha in Hs. rewrite <- Hb in Ht.
    apply (IH ltac:(intros ???; eapply Hu; by right) before_ rest); try done.
Qed.

Lemma copyFile_undisturbed events src dst f f' data : loc src ≠ loc dst → undisturbed src dst events →
  ReadFile src f = Some data → copyFile None events src dst f = (f', true) → ReadFile dst f' = Some data.
Proof.
  intros Hne Hu Hs. unfold copyFile, Create. rewrite Hs. destruct (_ || _); [done|].
  apply (copy_loop_ok events src dst data Hne Hu "" data); [done| |].
  - unfold ReadFile in *. cbn. by rewrite lookup_insert_ne.
  - unfold ReadFile. cbn. by rewrite lookup_insert_eq.
Qed.

(** C32: a backup to another file than the database's own that succeeds, after a
    checkpoint that succeeded and while nobody wrote the database's file or the backup's
    during the copy, is the database as it was at the checkpoint: whatever happens to the
    database afterwards, as long as the file of the backup is left alone, a restore from
    it that succeeds gives the database what it held, and changes no other file.  The
    condition on the copy is not one the code enforces ([torn_backup]). *)
Theorem backup_restores (x : Faults) (dest : string) (d d2 d3 : DuckDB) (f f1 f2 f3 : FS) (vss : bool) :
  checkpoint_ok x = true → copy_fault x = None → loc (path d) ≠ loc dest → undisturbed (path d) dest (during x) →
  Backup x dest d f = (f1, None) →
  files f2 !! loc dest = files f1 !! loc dest → path d2 = path d →
  Restore true true vss None dest d2 f2 = (d3, f3, None) →
  live d3 = live d ∧ ReadFile (path d) f3 = Some (live d) ∧ (∀ l, l ≠ loc (path d) → files f3 !! l = files f2 !! l).
Proof.
  intros Hck Hcf Hne Hu Hb Hkeep Hp Hr. unfold Backup in Hb. destruct (in_memory d); [done|].
  destruct (mkdir_ok x); [|done]. destruct (begin_ok x && connected d); [|done]. cbn [negb] in Hb. rewrite Hcf in Hb.
  destruct (copyFile None (during x) (path d) dest _) as [f1' ok] eqn:Ec. destruct ok; [|done]. destruct (commit_ok x); [|done]. injection Hb as <-.
  eapply copyFile_undisturbed in Ec as Hdst; [|done|done|].
  2: { unfold checkpoint. rewrite Hck. unfold ReadFile. apply put_file_lookup. }
  unfold Restore in Hr. destruct (in_memory d2); [done|]. cbn [negb] in Hr. rewrite Hp in Hr.
  destruct (copyFile None [] dest (path d) f2) as [f3' ok] eqn:Ec2. destruct ok; [|done].
  destruct (copyFile_ok _ _ _ _ Ec2 ltac:(congruence)) as (data & Hsrc & Hdst2 & _ & Hother).
  unfold ReadFile in *. rewrite Hkeep, Hdst in Hsrc. injection Hsrc as <-. injection Hr as <- <-. cbn. rewrite Hdst2. by split_and!.
Qed.

(** Restoring a database from its own file empties it. *)
Theorem restore_from_itself (vss : bool) (d : DuckDB) (f : FS) (data : string) :
  in_memory d = false → ReadFile (path d) f = Some data → loc (path d) ∉ dirs f → parent_of (loc (path d)) ∈ dirs f →
  let '(d', f', e) := Restore true true vss None (path d) d f in
  e = None ∧ live d' = "" ∧ ReadFile (path d) f' = Some "".
Proof.
  intros Hm Hr Hd Hp. unfold Restore. rewrite Hm. cbn [negb]. unfold copyFile. rewrite Hr. unfold Create.
  rewrite bool_decide_eq_false_2, bool_decide_eq_true_2 by done. cbn [orb negb copy_loop].
  unfold append_file, put_file, ReadFile. cbn [files dirs]. by rewrite !lookup_insert_eq.
Qed.

(** A restore that fails after the connection was closed leaves the database without one:
    every backup is refused from then on, until a restore succeeds. *)
Theorem failed_restore_disconnects (open_ok vss : bool) (fault : option nat) (src dest : string) (x : Faults) (d : DuckDB) (f f' : FS) :
  let '(d1, f1, e) := Restore true open_ok vss fault src d f in
  match e with
  | None => connected d1 = true
  | Some InMemory => d1 = d
  | Some _ => connected d1 = false ∧ (Backup x dest d1 f').2 ≠ None
  end.
Proof.
  unfold Restore. destruct (in_memory d) eqn:Hm; [done|]. cbn [negb].
  assert ((Backup x dest (closed d) f').2 ≠ None) as Hb.
  { unfold Backup, in_memory, closed in *. cbn. rewrite Hm. destruct (mkdir_ok x); [|done]. by rewrite andb_false_r. }
  destruct (copyFile fault [] src (path d) f) as [f1 []]; [|done]. by destruct open_ok.
Qed.

(** *** What the cleanup removes *)
Lemma files_remove f p : files (remove f p) = delete (loc p) (files f).
Proof.
  unfold remove, Remove. destruct (files f !! loc p) as [c|] eqn:E; [done|]. rewrite delete_id by done.
  by destruct (_ && _).
Qed.

Lemma files_remove_all ps f l :
  files (foldl (λ f p, remove (remove f p) (p +:+ ".meta")) f ps) !! l =
    if bool_decide (Exists (λ p, l = loc p ∨ l = loc (p +:+ ".meta")) ps) then None else files f !! l.
Proof.
  revert f. induction ps as [|p ps IH]; intros f; cbn [foldl]; [by rewrite bool_decide_eq_false_2 by (intros Hn; by apply Exists_nil in Hn)|].
  set (P := λ p, l = loc p ∨ l = loc (p +:+ ".meta")) in *. rewrite IH, !files_remove.
  destruct (decide (Exists P ps)) as [He|He].
  - rewrite !bool_decide_eq_true_2; [done|by right|done].
  - rewrite (bool_decide_eq_false_2 (Exists P ps) He). destruct (decide (P p)) as [Hp|Hp].
    + rewrite bool_decide_eq_true_2 by by left. destruct Hp as [-> | ->]; [|by rewrite lookup_delete_eq].
      destruct (decide (loc p = loc (p +:+ ".meta"))) as [->|]; [by rewrite lookup_delete_eq|].
      by rewrite lookup_delete_ne, lookup_delete_eq.
    + rewrite bool_decide_eq_false_2 by (rewrite Exists_cons; tauto). unfold P in Hp. by rewrite !lookup_delete_ne by naive_solver.
Qed.

(** The cleanup removes the oldest backups by name, with their descriptions, so that
    as many are left as are to be kept, and no other file. *)
Theorem cleanOldBackups_spec (dir baseName : string) (keep : nat) (f : FS) (l : list string) :
  let all := sort_strings (backups dir baseName f) in
  let old := old_backups dir baseName keep f in
  old ++ drop (length old) all = all ∧ length (drop (length old) all) = Nat.min keep (length all) ∧
  files (cleanOldBackups true dir baseName keep f) !! l =
    if bool_decide (Exists (λ p, l = loc p ∨ l = loc (p +:+ ".meta")) old) then None else files f !! l.
Proof.
  intros all old. pose proof (Permutation_length (sort_strings_perm (backups dir baseName f))) as Hlen. fold all in Hlen.
  assert (old = take (length all - keep) all ∧ length old = (length all - keep)%nat) as [Ho Hl].
  { unfold old, old_backups. rewrite <- Hlen. fold all. case_bool_decide as Hk.
    - replace (length all - keep)%nat with 0%nat by lia. done.
    - split; [done|]. rewrite length_take. lia. }
  split_and!; [rewrite Hl, Ho at 1; apply take_drop|rewrite Hl, length_drop; lia|]. apply files_remove_all.
Qed.

(** *** Concrete directories *)
Definition sample_db : DuckDB := {| path := "/data/aleph.duckdb"; live := "rows"; HasVSS := false; connected := true |}.
Definition sample_fs : FS := {| dirs := {[ []; ["data"] ]}; files := {[ ["data"; "aleph.duckdb"] := "old" ]} |}.
Definition good : Faults := {| mkdir_ok := true; begin_ok := true; checkpoint_ok := true; during := []; copy_fault := None; commit_ok := true |}.
Definition full_disk : Faults := {| mkdir_ok := true; begin_ok := true; checkpoint_ok := true; during := []; copy_fault := Some 0%nat; commit_ok := true |}.
Definition backup_files (f : FS) : list (string * string) :=
  omap (λ kv, match kv.1 with ["backups"; n] => if has_suffix n ".duckdb" then Some (n, kv.2) else None | _ => None end) (map_to_list (files f)).

(** Another file is written while the copy reads. *)
Definition busy : Faults := {| mkdir_ok := true; begin_ok := true; checkpoint_ok := true;
  during := [Read 1; Others (put_file "/data/other" "x"); Read 0]; copy_fault := None; commit_ok := true |}.

Lemma busy_undisturbed : undisturbed (path sample_db) "/backups/a.duckdb" (during busy).
Proof.
  intros act f Ha. cbn in Ha. rewrite !elem_of_cons, elem_of_nil in Ha.
  destruct Ha as [Ha|[Ha|[Ha|Ha]]]; try done. injection Ha as ->.
  unfold ReadFile, put_file. cbn [files]. by rewrite !lookup_insert_ne by (vm_compute; discriminate).
Qed.

Lemma backup_restores_witness :
  let f1 := (Backup busy "/backups/a.duckdb" sample_db sample_fs).1 in
  let d2 := {| path := "/data/aleph.duckdb"; live := "later"; HasVSS := false; connected := true |} in
  let '(d3, f3, e) := Restore true true true None "/backups/a.duckdb" d2 (put_file "/data/aleph.duckdb" "later" f1) in
  live d3 = "rows" ∧ ReadFile "/data/aleph.duckdb" f3 = Some "rows" ∧
  ∀ l, l ≠ loc "/data/aleph.duckdb" → files f3 !! l = files (put_file "/data/aleph.duckdb" "later" f1) !! l.
Proof.
  intros f1 d2. destruct (Restore true true true None "/backups/a.duckdb" d2 (put_file "/data/aleph.duckdb" "later" f1)) as [[d3 f3] e] eqn:E.
  assert (e = None) as -> by (vm_compute in E; injection E as _ _ <-; reflexivity).
  apply (backup_restores busy "/backups/a.duckdb" sample_db d2 d3 sample_fs f1 (put_file "/data/aleph.duckdb" "later" f1) f3 true);
    [reflexivity|reflexivity|vm_compute; discriminate|exact busy_undisturbed|vm_compute; reflexivity|vm_compute; reflexivity|reflexivity|exact E].
Defined.

(** The database is written back while the copy is half way through its file: the backup
    reports success and holds neither what the database held nor what it holds. *)
Definition written_during : Faults := {| mkdir_ok := true; begin_ok := true; checkpoint_ok := true;
  during := [Read 1; Others (put_file "/data/aleph.duckdb" "NEWS")]; copy_fault := None; commit_ok := true |}.
Example torn_backup :
  let '(f, e) := Backup written_during "/backups/a.duckdb" sample_db sample_fs in
  e = None ∧ live sample_db = "rows" ∧ ReadFile "/backups/a.duckdb" f = Some "roWS".
Proof. vm_compute. split_and!; reflexivity. Qed.

(** Copies that fail leave an empty file behind, which the cleanup counts: two of them, and
    the two backups that were kept are gone. *)
Example failed_copies_evict :
  backup_files (AutoBackup "/backups" 2 sample_db good "20240101T000000Z" [(good, "20240102T000000Z")] sample_fs) =
    [("aleph_backup_20240102T000000Z.duckdb", "rows"); ("aleph_backup_20240101T000000Z.duckdb", "rows")] ∨
  backup_files (AutoBackup "/backups" 2 sample_db good "20240101T000000Z" [(good, "20240102T000000Z")] sample_fs) =
    [("aleph_backup_20240101T000000Z.duckdb", "rows"); ("aleph_backup_20240102T000000Z.duckdb", "rows")].
Proof. vm_compute. tauto. Qed.
Example failed_copies_left :
  Forall (λ nc, nc.2 = "")
    (backup_files (AutoBackup "/backups" 2 sample_db good "20240101T000000Z"
       [(good, "20240102T000000Z"); (full_disk, "20240103T000000Z"); (full_disk, "20240104T000000Z")] sample_fs)).
Proof. vm_compute. repeat constructor. Qed.

(** The backups of another database whose name starts like a backup of this one are
    counted and removed with its own. *)
Example foreign_backup_removed :
  is_backup "aleph" "aleph_backup_west_backup_20230101T000000Z.duckdb" = true ∧
  is_backup "aleph_backup_west" "aleph_backup_west_backup_20230101T000000Z.duckdb" = true.
Proof. split; vm_compute; reflexivity. Qed.
End Backup.
