(* ===== verification/Components.v ===== *)
(** * The registry of components (internal/registry/duckdb_registry.go, internal/predict)

    Module [Components]: the rows of the components table under the registry's operations;
    the database answers or fails by an argument of each operation.  Module [Predict]: the
    Brier scores and the predictions by entity. *)

From S2P Require Import Prelude GoStrings GoValues GoJson.

Module Components.

Record ComponentMetadata := {
  ID : string; Name : string; Description : string; Version : string; Type_ : string; Category : string; Source : string;
  Status : string; ApprovalStatus : string; ConfigSchemaJSON : string; ExecutionCommand : string; DependenciesJSON : string;
  InputSchemaJSON : string; OutputSchemaJSON : string; PromptTemplate : string; ToolIdsJSON : string;
  AvgCpuUsage : f64; AvgMemoryMb : f64; AvgExecTimeMs : f64; AvgBrierScore : f64; AvgLatencyMs : f64; TrustScore : f64;
  CreatedByAgentId : string; CreationTimestamp : Time; LastUpdatedTimestamp : Time;
}.
Abbreviation Table := (gmap string ComponentMetadata).

(** Everything of [c] but the identifier and the times. *)
Definition with_identity (id : string) (created updated : Time) (c : ComponentMetadata) : ComponentMetadata :=
  {| ID := id; Name := Name c; Description := Description c; Version := Version c; Type_ := Type_ c; Category := Category c;
     Source := Source c; Status := Status c; ApprovalStatus := ApprovalStatus c; ConfigSchemaJSON := ConfigSchemaJSON c;
     ExecutionCommand := ExecutionCommand c; DependenciesJSON := DependenciesJSON c; InputSchemaJSON := InputSchemaJSON c;
     OutputSchemaJSON := OutputSchemaJSON c; PromptTemplate := PromptTemplate c; ToolIdsJSON := ToolIdsJSON c;
     AvgCpuUsage := AvgCpuUsage c; AvgMemoryMb := AvgMemoryMb c; AvgExecTimeMs := AvgExecTimeMs c; AvgBrierScore := AvgBrierScore c;
     AvgLatencyMs := AvgLatencyMs c; TrustScore := TrustScore c; CreatedByAgentId := CreatedByAgentId c;
     CreationTimestamp := created; LastUpdatedTimestamp := updated |}.
Definition with_status (status : string) (updated : Time) (c : ComponentMetadata) : ComponentMetadata :=
  {| ID := ID c; Name := Name c; Description := Description c; Version := Version c; Type_ := Type_ c; Category := Category c;
     Source := Source c; Status := status; ApprovalStatus := ApprovalStatus c; ConfigSchemaJSON := ConfigSchemaJSON c;
     ExecutionCommand := ExecutionCommand c; DependenciesJSON := DependenciesJSON c; InputSchemaJSON := InputSchemaJSON c;
     OutputSchemaJSON := OutputSchemaJSON c; PromptTemplate := PromptTemplate c; ToolIdsJSON := ToolIdsJSON c;
     AvgCpuUsage := AvgCpuUsage c; AvgMemoryMb := AvgMemoryMb c; AvgExecTimeMs := AvgExecTimeMs c; AvgBrierScore := AvgBrierScore c;
     AvgLatencyMs := AvgLatencyMs c; TrustScore := TrustScore c; CreatedByAgentId := CreatedByAgentId c;
     CreationTimestamp := CreationTimestamp c; LastUpdatedTimestamp := updated |}.

Inductive component_error := DuplicateID (id : string) | DbFailed | EmptyID | NotFound (id : string).

Section Registry.
(** The time a timestamp column keeps of a time that is written to it. *)
Context (keep : Time → Time).
Definition stored (c : ComponentMetadata) : ComponentMetadata :=
  with_identity (ID c) (keep (CreationTimestamp c)) (keep (LastUpdatedTimestamp c)) c.

(** The zero time. *)
Definition IsZero (t : Time) : bool := bool_decide (t = 0).
Definition completed (uuid : string) (now : Time) (meta : ComponentMetadata) : ComponentMetadata :=
  with_identity (if bool_decide (ID meta = "") then uuid else ID meta)
    (if IsZero (CreationTimestamp meta) then now else CreationTimestamp meta)
    (if IsZero (LastUpdatedTimestamp meta) then now else LastUpdatedTimestamp meta) meta.

(** The identifier that is returned, with the error: the error of the insertion comes with
    the identifier.  [check_ok]: the query for a duplicate is answered; when it is not, the
    insertion is tried all the same, and the key of the table decides. *)
Definition RegisterComponent (uuid : string) (now : Time) (check_ok insert_ok : bool) (meta : ComponentMetadata) (t : Table) :
    Table * string * option component_error :=
  let meta := completed uuid now meta in
  if check_ok && bool_decide (is_Some (t !! ID meta)) then (t, "", Some (DuplicateID (ID meta)))
  else if insert_ok && bool_decide (t !! ID meta = None) then (<[ID meta := stored meta]> t, ID meta, None)
  else (t, ID meta, Some DbFailed).

Definition GetComponentByID (ok : bool) (id : string) (t : Table) : result component_error ComponentMetadata :=
  if ok then match t !! id with Some c => Ok c | None => Err (NotFound id) end else Err DbFailed.

Definition UpdateComponentStatus (now : Time) (ok : bool) (id status : string) (t : Table) : Table * option component_error :=
  if ok then (alter (with_status status (keep now)) id t, None) else (t, Some DbFailed).

Definition DeleteComponent (ok : bool) (id : string) (t : Table) : Table * option component_error :=
  if ok then match t !! id with Some _ => (delete id t, None) | None => (t, Some (NotFound id)) end else (t, Some DbFailed).

Definition UpdateComponent (now : Time) (ok : bool) (meta : ComponentMetadata) (t : Table) : Table * option component_error :=
  if bool_decide (ID meta = "") then (t, Some EmptyID)
  else if ok then
    match t !! ID meta with
    | Some row => (<[ID meta := with_identity (ID meta) (CreationTimestamp row) (keep now) meta]> t, None)
    | None => (t, Some (NotFound (ID meta)))
    end
  else (t, Some DbFailed).

Definition select_from : string := "SELECT id, name, description, version, type, category, source, status, approval_status,
		config_schema_json, execution_command, dependencies_json, input_schema_json, output_schema_json,
		prompt_template, tool_ids_json,
		avg_cpu_usage, avg_memory_mb, avg_exec_time_ms, avg_brier_score, avg_latency_ms,
		trust_score, created_by_agent_id, creation_timestamp, last_updated_timestamp
		FROM components".
(** The condition of a listing and its arguments; the entries of the filter in the order of
    the map. *)
Definition filter_condition (filter : list (string * string)) : string * list string :=
  let used := list_filter (λ kv : string * string, kv.2 ≠ "") _ filter in
  (if bool_decide (used = []) then "" else " WHERE " +:+ str_join " AND " ((λ kv, kv.1 +:+ " = ?") <$> used), used.*2).

(** The listing: [run] answers a statement with its rows, those whose scan fails being
    [None]; these are skipped. *)
Definition ListComponents (run : string → list string → option (list (option ComponentMetadata)))
    (filter : list (string * string)) : result component_error (list ComponentMetadata) :=
  let '(cond, args) := filter_condition filter in
  match run (select_from +:+ cond) args with
  | None => Err DbFailed
  | Some rows => Ok (omap id rows)
  end.

Definition as_strings (v : Json.json) : option (list string) :=
  match v with
  | Json.JArr l => mapM (λ x, match x with Json.JStr s => Some s | Json.JNull => Some "" | _ => None end) l
  | Json.JNull => Some []
  | _ => None
  end.
Definition ParseToolIdsJSON (jsonStr : string) : list string :=
  if bool_decide (jsonStr = "") then [] else default [] (Json.Unmarshal jsonStr ≫= as_strings).

(** *** What is kept *)
Definition keyed (t : Table) : Prop := ∀ id c, t !! id = Some c → ID c = id.

Inductive step_of :=
| OpRegister (uuid : string) (now : Time) (check_ok insert_ok : bool) (meta : ComponentMetadata)
| OpStatus (now : Time) (ok : bool) (id status : string)
| OpDelete (ok : bool) (id : string)
| OpUpdate (now : Time) (ok : bool) (meta : ComponentMetadata).
Definition apply_step (t : Table) (s : step_of) : Table :=
  match s with
  | OpRegister uuid now c i meta => (RegisterComponent uuid now c i meta t).1.1
  | OpStatus now ok id status => (UpdateComponentStatus now ok id status t).1
  | OpDelete ok id => (DeleteComponent ok id t).1
  | OpUpdate now ok meta => (UpdateComponent now ok meta t).1
  end.

Lemma step_keyed (s : step_of) (t : Table) : keyed t → keyed (apply_step t s).
Proof.
  intros Hk. destruct s as [uuid now c1 c2 meta|now ok id status|ok id|now ok meta]; cbn [apply_step].
  - unfold RegisterComponent. destruct (_ && _); [done|]. destruct (_ && _); [|done]. cbn.
    intros i x [[<- <-]|[_ ?]]%lookup_insert_Some; [done|by apply Hk].
  - unfold UpdateComponentStatus. destruct ok; [|done]. cbn. intros i x. destruct (decide (i = id)) as [->|].
    + rewrite lookup_alter_eq. destruct (t !! id) as [c|] eqn:E; cbn; [|done]. intros [= <-]. exact (Hk _ _ E).
    + rewrite lookup_alter_ne by done. apply Hk.
  - unfold DeleteComponent. destruct ok; [|done]. destruct (t !! id); [|done]. cbn. intros i x [_ ?]%lookup_delete_Some. by apply Hk.
  - unfold UpdateComponent. case_bool_decide; [done|]. destruct ok; [|done]. destruct (t !! ID meta); [|done]. cbn.
    intros i x [[<- <-]|[_ ?]]%lookup_insert_Some; [done|by apply Hk].
Qed.

(** The rows stay under their identifiers. *)
Theorem rows_keyed (ops : list step_of) (t : Table) : keyed t → keyed (foldl apply_step t ops).
Proof. revert t. induction ops as [|op ops IH]; intros t Hk; [done|]. cbn. by apply IH, step_keyed. Qed.

Definition no_delete (id : string) (s : step_of) : Prop := match s with OpDelete _ i => i ≠ id | _ => True end.
Lemma one_step (s : step_of) (t : Table) (id : string) (c : ComponentMetadata) :
  no_delete id s → t !! id = Some c → ∃ c', apply_step t s !! id = Some c' ∧ CreationTimestamp c' = CreationTimestamp c.
Proof.
  intros Hd Hc. destruct s as [uuid now c1 c2 meta|now ok i status|ok i|now ok meta]; cbn [apply_step].
  - unfold RegisterComponent. generalize (completed uuid now meta) as m; intros m. destruct (_ && _); [by eauto|]. destruct (c2 && _) eqn:E; [|by eauto]. cbn.
    apply andb_true_iff in E as [_ E%bool_decide_eq_true]. exists c. split; [|done].
    rewrite lookup_insert_ne; [done|]. intros Hm. congruence.
  - unfold UpdateComponentStatus. destruct ok; [|by eauto]. cbn. destruct (decide (i = id)) as [->|].
    + rewrite lookup_alter_eq, Hc. cbn. by eauto.
    + rewrite lookup_alter_ne by done. by eauto.
  - unfold DeleteComponent. destruct ok; [|by eauto]. destruct (t !! i); cbn; [|by eauto]. rewrite lookup_delete_ne by done. by eauto.
  - unfold UpdateComponent. case_bool_decide; [by eauto|]. destruct ok; [|by eauto]. destruct (t !! ID meta) as [row|] eqn:E; [|by eauto].
    cbn. destruct (decide (ID meta = id)) as [<-|].
    + rewrite lookup_insert_eq. eexists. split; [done|]. cbn. congruence.
    + rewrite lookup_insert_ne by done. by eauto.
Qed.

(** A component that is registered is read back under the identifier that was returned,
    complete with it and its times as the columns keep them; the others are as they were.  Otherwise nothing
    changes. *)
Theorem register_get (uuid : string) (now : Time) (check_ok insert_ok : bool) (meta : ComponentMetadata) (t : Table) :
  let '(t', id, e) := RegisterComponent uuid now check_ok insert_ok meta t in
  match e with
  | None => GetComponentByID true id t' = Ok (stored (completed uuid now meta)) ∧ delete id t' = t ∧
            id = (if bool_decide (ID meta = "") then uuid else ID meta)
  | Some _ => t' = t
  end.
Proof.
  unfold RegisterComponent. destruct (_ && _); [done|]. destruct (insert_ok && _) eqn:E; [|done].
  apply andb_true_iff in E as [_ E%bool_decide_eq_true]. unfold GetComponentByID. rewrite lookup_insert_eq.
  split_and!; [done|by apply delete_insert_id|done].
Qed.

(** Whatever is done to the table by other operations than the deletion of this component,
    it stays and keeps its creation time. *)
Theorem creation_time_kept (ops : list step_of) (t : Table) (id : string) (c : ComponentMetadata) :
  Forall (no_delete id) ops → t !! id = Some c →
  ∃ c', foldl apply_step t ops !! id = Some c' ∧ CreationTimestamp c' = CreationTimestamp c.
Proof.
  intros Hd. revert t c. induction Hd as [|op ops Ho Hops IH]; intros t c Hc; [by eauto|]. cbn [foldl].
  destruct (one_step op t id c Ho Hc) as (c1 & H1 & E1). destruct (IH _ _ H1) as (c2 & H2 & E2). exists c2. by rewrite E2.
Qed.
End Registry.

(** A key of the filter is put into the statement as it is: one that is not the name of a
    column changes the condition. *)
Example filter_key_injects :
  filter_condition [("1 = 1 OR status", "x"); ("type", "")] = (" WHERE 1 = 1 OR status = ?", ["x"]) ∧ filter_condition [("type", "")] = ("", []).
Proof. split; reflexivity. Qed.

Example tool_ids : ParseToolIdsJSON ("[" +:+ Json.quote_text "a" +:+ ", " +:+ Json.quote_text "b" +:+ "]") = ["a"; "b"] ∧
  ParseToolIdsJSON "[1]" = [] ∧ ParseToolIdsJSON "" = [].
Proof. split_and!; vm_compute; reflexivity. Qed.
End Components.

(** ** Predictions (internal/predict) *)
Module Predict.

Record AlephPrediction := { EntityId : string; Probability : spec_float; ModelSource : string }.

(** Float32 numbers: the same type at 24 bits of precision; [float64] widens one. *)
Definition f32_sub : spec_float → spec_float → spec_float := SFsub 24 128.
Definition f32_mul : spec_float → spec_float → spec_float := SFmul 24 128.
Definition float64 (x : spec_float) : f64 :=
  match x with S754_finite s m e => binary_normalize f64_prec f64_emax (cond_Zopp s (Zpos m)) e s | _ => x end.

Definition square (probability actual : spec_float) : f64 :=
  let diff := f32_sub probability actual in float64 (f32_mul diff diff).
Definition Observe (p : AlephPrediction) (actual : spec_float) (scores : gmap string f64) : gmap string f64 :=
  <[EntityId p := square (Probability p) actual]> scores.
(** [order]: the scores in the order of the map. *)
Definition GetAvgBrierScore (order : gmap string f64 → list f64) (scores : gmap string f64) : f64 :=
  if bool_decide (scores = ∅) then f64_of_int 0
  else f64_div (foldl f64_add (f64_of_int 0) (order scores)) (f64_of_int (Z.of_nat (size scores))).
Definition GetBrierScore (entityID : string) (scores : gmap string f64) : option f64 := scores !! entityID.
Definition UpdatePrediction (p : AlephPrediction) (predictions : gmap string AlephPrediction) : gmap string AlephPrediction :=
  <[EntityId p := p]> predictions.

(** The score of an entity is that of its last observation, so the average is one over
    entities and not over observations. *)
Theorem last_observation_counts (obs : list (AlephPrediction * spec_float)) (id : string) :
  GetBrierScore id (foldl (λ s o, Observe o.1 o.2 s) ∅ obs) =
    (λ o, square (Probability o.1) o.2) <$> last (filter (λ o, EntityId o.1 = id) obs).
Proof.
  unfold GetBrierScore. induction obs as [|o obs IH] using rev_ind; [done|].
  rewrite foldl_app, filter_app, filter_cons, filter_nil. cbn [foldl]. unfold Observe at 1.
  case_decide as E; [|by rewrite lookup_insert_ne, app_nil_r]. by rewrite E, lookup_insert_eq, last_snoc.
Qed.

(** 1/2 against 1 and against 0 score 1/4, and the second observation of an entity replaces
    the first in the average. *)
Example brier_scores :
  let half := SFdiv 24 128 (binary_normalize 24 128 1 0 false) (binary_normalize 24 128 2 0 false) in
  let one := binary_normalize 24 128 1 0 false in
  let p := {| EntityId := "e"; Probability := half; ModelSource := "m" |} in
  let p1 := {| EntityId := "e"; Probability := one; ModelSource := "m" |} in
  square half one = f64_lit 1 4 ∧
  GetAvgBrierScore (λ m, (map_to_list m).*2) (Observe p1 one (Observe p one ∅)) = f64_of_int 0.
Proof. split; vm_compute; reflexivity. Qed.
End Predict.
