(* ===== verification/Database.v ===== *)
(** * The database handle: writers, transactions, retries (internal/storage/duckdb.go)

    The pool's connections each have a session, whose schema a SET statement changes for
    good; writers exclude each other by a mutex that a write transaction holds until it is
    finished.  What the database contains, how it runs a statement and how it joins the
    outcome of a transaction to what was committed meanwhile are arguments, and so is every
    failure.  Settings of a session are not undone when a transaction is. *)

From S2P Require Import Prelude GoStrings SafeIdent Storage.

Module Database.
Import SafeIdent.

(** *** Opening, and the log of slow queries *)
Definition DefaultSlowQueryThreshold : Duration := 500 * millisecond.
Record Handle := { dbPath : string; VSS : bool; maxConns : Z; slowQueryThreshold : Duration }.
Definition NewDuckDB (open_ok install_ok load_ok : bool) (NumCPU : Z) (path : string) : option Handle :=
  let path := if bool_decide (path = "") then ":memory:" else path in
  if open_ok then
    Some {| dbPath := path; VSS := install_ok && load_ok; maxConns := if bool_decide (path = ":memory:") then 1 else NumCPU;
            slowQueryThreshold := DefaultSlowQueryThreshold |}
  else None.
Definition SetSlowQueryThreshold (dur : Duration) (h : Handle) : Handle :=
  {| dbPath := dbPath h; VSS := VSS h; maxConns := maxConns h;
     slowQueryThreshold := if bool_decide (dur ≤ 0) then DefaultSlowQueryThreshold else dur |}.
Definition truncateQuery (query : string) : string :=
  if bool_decide (str_len query > 200) then str_take 200 query +:+ "..." else query.
(** The query that is logged, if it was slow. *)
Definition logSlowQuery (threshold : Duration) (query : string) (dur : Duration) : option string :=
  if bool_decide (dur < threshold) then None else Some (truncateQuery query).

Definition set_schema (schema : string) : string := "SET schema = " +:+ QuoteIdentifier schema.
Definition txScopeQuery (schema query : string) : string :=
  if bool_decide (schema = "") then query else set_schema schema +:+ "; " +:+ query.

Section Db.
Context `{Unicode} {S R : Type} (has_schema : string → S → bool) (run : string → string → S → result string (S * R))
  (nothing : R) (merge : S → S → S → result string S).

(** A statement in a session with schema [sess]: a SET at its start changes the session. *)
Definition exec_text (sess stmt : string) (s : S) : string * result string (S * R) :=
  if String.prefix "SET schema = " stmt then
    match lex_quoted dquote (str_drop 13 stmt) with
    | None => (sess, Err "syntax")
    | Some (name, rest) =>
      if negb (has_schema name s) then (sess, Err ("no schema " +:+ name))
      else if bool_decide (rest = "") then (name, Ok (s, nothing))
      else if String.prefix "; " rest then (name, run name (str_drop 2 rest) s)
      else (sess, Err "syntax")
    end
  else (sess, run sess stmt s).

(** *** State *)
(** [done]: the mark of the handle; [over]: that the *sql.Tx it wraps is finished. *)
Record TX := { write : bool; tschema : string; done : bool; over : bool; conn : nat; base : S; view : S }.
(** [fatal]: a free mutex was unlocked, which ends the program. *)
Record World := { data : S; locked : bool; sessions : gmap nat string; txs : gmap nat TX; nextTx : nat; fatal : bool }.

Definition session (c : nat) (w : World) : string := default "main" (sessions w !! c).
Definition with_data (s : S) (w : World) : World :=
  {| data := s; locked := locked w; sessions := sessions w; txs := txs w; nextTx := nextTx w; fatal := fatal w |}.
Definition with_locked (b : bool) (w : World) : World :=
  {| data := data w; locked := b; sessions := sessions w; txs := txs w; nextTx := nextTx w; fatal := fatal w |}.
Definition with_session (c : nat) (sess : string) (w : World) : World :=
  {| data := data w; locked := locked w; sessions := <[c := sess]> (sessions w); txs := txs w; nextTx := nextTx w; fatal := fatal w |}.
Definition with_tx (id : nat) (t : TX) (w : World) : World :=
  {| data := data w; locked := locked w; sessions := sessions w; txs := <[id := t]> (txs w); nextTx := nextTx w; fatal := fatal w |}.
Definition new_tx (t : TX) (w : World) : World :=
  {| data := data w; locked := locked w; sessions := sessions w; txs := <[nextTx w := t]> (txs w); nextTx := 1 + nextTx w; fatal := fatal w |}.
(** The mutex of the writers; [None]: has to wait. *)
Definition lock (w : World) : option World := if locked w then None else Some (with_locked true w).
Definition unlock (w : World) : World :=
  if locked w then with_locked false w
  else {| data := data w; locked := false; sessions := sessions w; txs := txs w; nextTx := nextTx w; fatal := true |}.

(** *** Statements on the pool *)
(** [c]: the connection the pool picks; [fault]: the driver's error, if it does not run the
    statement. *)
Definition pool_exec (fault : option string) (c : nat) (stmt : string) (w : World) : World * result string R :=
  match fault with
  | Some e => (w, Err e)
  | None =>
    let '(sess, r) := exec_text (session c w) stmt (data w) in
    let w := with_session c sess w in
    match r with Ok (s, x) => (with_data s w, Ok x) | Err e => (w, Err e) end
  end.

Definition Query : option string → nat → string → World → World * result string R := pool_exec.
Definition QueryContext (fault : option string) (c : nat) (ctx : option string) (query : string) : World → World * result string R :=
  pool_exec fault c (Storage.scopeQuery ctx query).
(** [cancelled]: the error of a context that is done. *)
Definition QueryRowContextOrError (cancelled fault : option string) (c : nat) (ctx : option string) (query : string) (w : World) :
    World * result string R :=
  match cancelled with Some e => (w, Err e) | None => QueryContext fault c ctx query w end.

(** The whole of a write: lock, statement, unlock. *)
Definition locked_exec (fault : option string) (c : nat) (stmt : string) (w : World) : option (World * result string R) :=
  match lock w with
  | None => None
  | Some w => let '(w, r) := pool_exec fault c stmt w in Some (unlock w, r)
  end.
Definition Exec (fault : option string) (c : nat) (query : string) : World → option (World * result string R) := locked_exec fault c query.
Definition ExecContext (fault : option string) (c : nat) (ctx : option string) (query : string) : World → option (World * result string R) :=
  locked_exec fault c (Storage.scopeQuery ctx query).

(** *** Transactions *)
Record BeginEnv := { begin_fault : option string; set_fault : option string; bconn : nat }.

(** The start of a transaction: its connection set to the schema of the context. *)
Definition open_tx (wr : bool) (b : BeginEnv) (ctx : option string) (w : World) : World * result string nat :=
  let schema := default "" ctx in
  let id := nextTx w in
  let t := {| write := wr; tschema := schema; done := false; over := false; conn := bconn b; base := data w; view := data w |} in
  if bool_decide (schema = "") then (new_tx t w, Ok id)
  else match set_fault b with
  | Some e => (w, Err e)
  | None =>
    match exec_text (session (bconn b) w) (set_schema schema) (data w) with
    | (sess, Ok _) => (new_tx t (with_session (bconn b) sess w), Ok id)
    | (sess, Err e) => (with_session (bconn b) sess w, Err e)
    end
  end.

(** What [BeginTX] does while it holds the mutex; it gives the mutex back on an error only. *)
Definition begin_locked (b : BeginEnv) (ctx : option string) (w : World) : World * result string nat :=
  match begin_fault b with
  | Some e => (w, Err ("begin tx: " +:+ e))
  | None =>
    match open_tx true b ctx w with
    | (w, Ok id) => (w, Ok id)
    | (w, Err e) => (w, Err ("set schema in tx: " +:+ e))
    end
  end.
Definition BeginTX (b : BeginEnv) (ctx : option string) (w : World) : option (World * result string nat) :=
  match lock w with
  | None => None
  | Some w =>
    match begin_locked b ctx w with
    | (w, Ok id) => Some (w, Ok id)
    | (w, Err e) => Some (unlock w, Err e)
    end
  end.
Definition BeginReadTX (b : BeginEnv) (ctx : option string) (w : World) : World * result string nat :=
  match begin_fault b with
  | Some e => (w, Err ("begin read tx: " +:+ e))
  | None =>
    match open_tx false b ctx w with
    | (w, Ok id) => (w, Ok id)
    | (w, Err e) => (w, Err ("set schema in read tx: " +:+ e))
    end
  end.

Definition with_view (s : S) (t : TX) : TX :=
  {| write := write t; tschema := tschema t; done := done t; over := over t; conn := conn t; base := base t; view := s |}.
Definition marked (t : TX) : TX :=
  {| write := write t; tschema := tschema t; done := true; over := over t; conn := conn t; base := base t; view := view t |}.
Definition ended (t : TX) : TX :=
  {| write := write t; tschema := tschema t; done := done t; over := true; conn := conn t; base := base t; view := view t |}.
Definition ErrTxDone : string := "sql: transaction has already been committed or rolled back".

(** [Exec] and the queries of a transaction. *)
Definition tx_exec (fault : option string) (id : nat) (query : string) (w : World) : World * result string R :=
  match txs w !! id with
  | None => (w, Err ErrTxDone)
  | Some t =>
    if over t then (w, Err ErrTxDone)
    else match fault with
    | Some e => (w, Err e)
    | None =>
      let '(sess, r) := exec_text (session (conn t) w) (txScopeQuery (tschema t) query) (view t) in
      let w := with_session (conn t) sess w in
      match r with Ok (s, x) => (with_tx id (with_view s t) w, Ok x) | Err e => (w, Err e) end
    end
  end.

(** *** The end of a transaction, in its three parts *)
Inductive tx_end := ECommit (fault : option string) | ERollback (fault : option string).
(** Under the handle's own mutex: the test of the mark, and the mark. *)
Definition is_done (id : nat) (w : World) : bool := match txs w !! id with Some t => done t | None => true end.
Definition mark (id : nat) (w : World) : World := match txs w !! id with Some t => with_tx id (marked t) w | None => w end.
(** The end of the *sql.Tx. *)
Definition end_tx (k : tx_end) (id : nat) (w : World) : World * option string :=
  match txs w !! id with
  | None => (w, Some ErrTxDone)
  | Some t =>
    if over t then (w, Some ErrTxDone)
    else
      let w := with_tx id (ended t) w in
      match k with
      | ERollback fault => (w, fault)
      | ECommit (Some e) => (w, Some e)
      | ECommit None => match merge (base t) (view t) (data w) with Ok s => (with_data s w, None) | Err e => (w, Some e) end
      end
  end.
(** The mutex of the writers, if the transaction is a write transaction. *)
Definition is_write (id : nat) (w : World) : bool := match txs w !! id with Some t => write t | None => false end.
Definition release (id : nat) (w : World) : World := if is_write id w then unlock w else w.

Definition end_error (k : tx_end) (e : string) : string := match k with ECommit _ => "txCommit: " | ERollback _ => "txRollback: " end +:+ e.
(** The whole of an end of a transaction. *)
Definition finish (k : tx_end) (id : nat) (w : World) : World * option string :=
  if is_done id w then (w, None)
  else let '(w, e) := end_tx k id (mark id w) in (release id w, end_error k <$> e).
Definition Commit (fault : option string) : nat → World → World * option string := finish (ECommit fault).
Definition Rollback (fault : option string) : nat → World → World * option string := finish (ERollback fault).

(** *** Retries *)
Definition isSerializationError (err : string) : bool :=
  let errStr := ToLower err in
  str_contains errStr "serialization" || str_contains errStr "sqlite_busy" || str_contains errStr "could not serialize".
Definition backoff : list Duration := [10 * millisecond; 50 * millisecond; 250 * millisecond].

(** The result with the pauses that were made; [None]: waits for the mutex.  [env]: the
    connection and the failure of each attempt. *)
Fixpoint exec_retry (waits : list Duration) (i : nat) (env : nat → nat * option string) (ctx : option string) (query : string) (w : World) :
    option (World * result string R * list Duration) :=
  match ExecContext (env i).2 (env i).1 ctx query w with
  | None => None
  | Some (w, Ok x) => Some (w, Ok x, [])
  | Some (w, Err e) =>
    match waits with
    | d :: waits =>
      if isSerializationError e then
        match exec_retry waits (1 + i) env ctx query w with Some (w, r, ds) => Some (w, r, d :: ds) | None => None end
      else Some (w, Err e, [])
    | [] => Some (w, Err e, [])
    end
  end.
Definition ExecWithRetry : (nat → nat * option string) → option string → string → World → option (World * result string R * list Duration) :=
  exec_retry backoff 0.

(** What the function given to [ExecTx] does: statements, and ends of the transaction of its
    own. *)
Inductive tx_op := TExec (fault : option string) (query : string) | TCommit (fault : option string) | TRollback (fault : option string).
Inductive fn_end := FnOk | FnErr (e : string) | FnPanic.
Record Attempt := { env_begin : BeginEnv; body : list tx_op; ends : fn_end; commit_fault : option string; rollback_fault : option string }.
Definition run_op (id : nat) (w : World) (o : tx_op) : World :=
  match o with
  | TExec fault q => (tx_exec fault id q w).1
  | TCommit fault => (Commit fault id w).1
  | TRollback fault => (Rollback fault id w).1
  end.

Inductive tx_outcome := Returned (e : option string) | Blocked | Panicked.

(** One attempt: the error it ends with, or the end of the whole. *)
Definition attempt (a : Attempt) (ctx : option string) (w : World) : World * (tx_outcome + string) :=
  match BeginTX (env_begin a) ctx w with
  | None => (w, inl Blocked)
  | Some (w, Err e) => (w, inl (Returned (Some ("begin tx: " +:+ e))))
  | Some (w, Ok id) =>
    let w := foldl (run_op id) w (body a) in
    match ends a with
    | FnPanic => (w, inl Panicked)
    | FnErr e => ((Rollback (rollback_fault a) id w).1, inr e)
    | FnOk =>
      match Commit (commit_fault a) id w with
      | (w, None) => (w, inl (Returned None))
      | (w, Some e) => ((Rollback (rollback_fault a) id w).1, inr e)
      end
    end
  end.

(** What the operations of the other goroutines are; one that has to wait does nothing. *)
Inductive op :=
| OQuery (fault : option string) (c : nat) (stmt : string)
| OExec (fault : option string) (c : nat) (stmt : string)
| OBegin (b : BeginEnv) (ctx : option string)
| OBeginRead (b : BeginEnv) (ctx : option string)
| OTx (id : nat) (o : tx_op).
Definition apply_op (w : World) (o : op) : World :=
  match o with
  | OQuery fault c stmt => (pool_exec fault c stmt w).1
  | OExec fault c stmt => default w (fst <$> locked_exec fault c stmt w)
  | OBegin b ctx => default w (fst <$> BeginTX b ctx w)
  | OBeginRead b ctx => (BeginReadTX b ctx w).1
  | OTx id o => run_op id w o
  end.

(** [others]: what other goroutines do in each pause. *)
Fixpoint exec_tx (waits : list Duration) (i : nat) (env : nat → Attempt) (others : nat → list op) (ctx : option string) (w : World) :
    World * tx_outcome * list Duration :=
  match attempt (env i) ctx w with
  | (w, inl o) => (w, o, [])
  | (w, inr e) =>
    match waits with
    | d :: waits =>
      if isSerializationError e then
        let '(w, o, ds) := exec_tx waits (1 + i) env others ctx (foldl apply_op w (others i)) in (w, o, d :: ds)
      else (w, Returned (Some e), [])
    | [] => (w, Returned (Some e), [])
    end
  end.
Definition ExecTx : (nat → Attempt) → (nat → list op) → option string → World → World * tx_outcome * list Duration := exec_tx backoff 0.

(** ** The mutex between whole calls *)
Definition open_write (w : World) (i : nat) : Prop := ∃ t, txs w !! i = Some t ∧ write t = true ∧ done t = false.
Definition ids_ok (w : World) : Prop := ∀ i t, txs w !! i = Some t → (i < nextTx w)%nat.
(** When no call is under way: [h] is the transaction that holds the mutex. *)
Definition lock_inv (w : World) : Prop :=
  fatal w = false ∧ ids_ok w ∧ ∃ h : option nat, locked w = bool_decide (is_Some h) ∧ ∀ i, open_write w i ↔ h = Some i.

(** What of the transactions the mutex depends on. *)
Definition flags (w : World) : gmap nat (bool * bool) := (λ t, (write t, done t)) <$> txs w.
(** Worlds that differ in data, sessions and what their transactions see only. *)
Definition same_locks (w w' : World) : Prop :=
  locked w' = locked w ∧ flags w' = flags w ∧ nextTx w' = nextTx w ∧ fatal w' = fatal w.
Lemma same_locks_refl w : same_locks w w.
Proof. done. Qed.
Lemma same_locks_trans w1 w2 w3 : same_locks w1 w2 → same_locks w2 w3 → same_locks w1 w3.
Proof. intros (? & ? & ? & ?) (? & ? & ? & ?). repeat split; congruence. Qed.
Lemma open_write_flags w i : open_write w i ↔ flags w !! i = Some (true, false).
Proof.
  unfold open_write, flags. rewrite lookup_fmap. destruct (txs w !! i) as [t|]; cbn; [|naive_solver].
  split; [intros (? & [= <-] & -> & ->); done|intros [= ? ?]; eauto].
Qed.
Lemma open_write_same w w' i : flags w' = flags w → open_write w' i ↔ open_write w i.
Proof. intros E. by rewrite !open_write_flags, E. Qed.
Lemma ids_ok_flags w : ids_ok w ↔ ∀ i, is_Some (flags w !! i) → (i < nextTx w)%nat.
Proof.
  unfold ids_ok, flags. split.
  - intros Hn i [x Hx]. rewrite lookup_fmap in Hx. destruct (txs w !! i) as [t|] eqn:E; [by eapply Hn|done].
  - intros Hn i t Ht. apply Hn. rewrite lookup_fmap, Ht. by eexists.
Qed.
Lemma ids_ok_same w w' : same_locks w w' → ids_ok w → ids_ok w'.
Proof. rewrite !ids_ok_flags. by intros (_ & -> & -> & _). Qed.
Lemma lock_inv_same w w' : same_locks w w' → lock_inv w → lock_inv w'.
Proof.
  intros Hs (Hf & Hn & h & Hl & Ho). pose proof Hs as (E1 & E2 & E3 & E4). split; [congruence|]. split; [by eapply ids_ok_same|].
  exists h. split; [congruence|]. intros i. by rewrite (open_write_same w w').
Qed.
Lemma flags_tx id t t' w : txs w !! id = Some t → write t' = write t → done t' = done t → flags (with_tx id t' w) = flags w.
Proof.
  intros Ht Hw Hd. unfold flags. cbn. rewrite fmap_insert, Hw, Hd. apply insert_id. by rewrite lookup_fmap, Ht.
Qed.

Lemma pool_exec_locks fault c stmt w : same_locks w (pool_exec fault c stmt w).1.
Proof. unfold pool_exec. destruct fault; [done|]. destruct (exec_text _ _ _) as [sess [[s x]|e]]; done. Qed.
Lemma tx_exec_locks fault id q w : same_locks w (tx_exec fault id q w).1.
Proof.
  unfold tx_exec. destruct (txs w !! id) as [t|] eqn:Et; [|done]. destruct (over t); [done|]. destruct fault; [done|].
  destruct (exec_text _ _ _) as [sess [[s x]|e]]; cbn; [|done]. split_and!; [done| |done|done].
  by apply (flags_tx id t (with_view s t) (with_session (conn t) sess w)).
Qed.
Lemma end_tx_locks k id w : same_locks w (end_tx k id w).1.
Proof.
  unfold end_tx. destruct (txs w !! id) as [t|] eqn:Et; [|done]. destruct (over t); [done|].
  pose proof (flags_tx id t (ended t) w Et eq_refl eq_refl) as E. unfold flags in E. cbn in E.
  destruct k as [[e|]|f]; cbn; [split_and!; [done|exact E|done|done]| |split_and!; [done|exact E|done|done]].
  destruct (merge _ _ _); split_and!; (done || exact E).
Qed.
Lemma end_tx_lookup k id w i :
  txs (end_tx k id w).1 !! i = (if decide (i = id) then (λ t, if over t then t else ended t) <$> txs w !! i else txs w !! i).
Proof.
  unfold end_tx. destruct (txs w !! id) as [t|] eqn:Et; [|cbn; case_decide; subst; by rewrite ?Et].
  destruct (over t) eqn:Eo; [cbn; case_decide; subst; rewrite ?Et; cbn; by rewrite ?Eo|].
  assert (∀ s, txs (with_data s (with_tx id (ended t) w)) !! i = txs (with_tx id (ended t) w) !! i) as Hs by done.
  assert (txs (with_tx id (ended t) w) !! i = if decide (i = id) then (λ t, if over t then t else ended t) <$> txs w !! i else txs w !! i) as Hi.
  { cbn. case_decide; [subst; by rewrite lookup_insert_eq, Et; cbn; rewrite Eo|by rewrite lookup_insert_ne]. }
  destruct k as [[e|]|f]; cbn; [done| |done]. by destruct (merge _ _ _).
Qed.

Lemma locked_exec_locks fault c stmt w w' r : locked_exec fault c stmt w = Some (w', r) → locked w = false ∧ same_locks w w'.
Proof.
  unfold locked_exec, lock. destruct (locked w) eqn:El; [done|]. pose proof (pool_exec_locks fault c stmt (with_locked true w)) as (H1 & H2 & H3 & H4).
  destruct (pool_exec _ _ _ _) as [w1 r1]. cbn in *. intros [= <- <-]. unfold unlock. rewrite H1. by repeat split.
Qed.

Lemma open_write_tx id t w i :
  open_write (with_tx id t w) i ↔ if decide (i = id) then write t = true ∧ done t = false else open_write w i.
Proof.
  unfold open_write. cbn. case_decide as E.
  - subst. rewrite lookup_insert_eq. naive_solver.
  - by rewrite lookup_insert_ne by done.
Qed.
Lemma open_write_new t w i :
  open_write (new_tx t w) i ↔ if decide (i = nextTx w) then write t = true ∧ done t = false else open_write w i.
Proof. apply (open_write_tx (nextTx w) t w). Qed.
Lemma new_tx_ids t w : ids_ok w → ids_ok (new_tx t w).
Proof. intros Hn i x. cbn. intros [[<- _]|[_ Hi]]%lookup_insert_Some; [lia|]. specialize (Hn _ _ Hi). lia. Qed.
Lemma next_fresh w : ids_ok w → txs w !! nextTx w = None.
Proof. intros Hn. destruct (txs w !! nextTx w) as [t|] eqn:E; [|done]. apply Hn in E. lia. Qed.
Lemma next_not_open w : ids_ok w → ¬ open_write w (nextTx w).
Proof. intros Hn (t & Ht & _). by rewrite next_fresh in Ht. Qed.
Lemma new_tx_read t w i : ids_ok w → write t = false → open_write (new_tx t w) i ↔ open_write w i.
Proof.
  intros Hn Hw. rewrite open_write_new. case_decide as E; [|done]. subst. split; [intros [? _]; congruence|].
  intros Ho. by apply next_not_open in Ho.
Qed.

Lemma open_tx_spec wr b ctx w :
  match open_tx wr b ctx w with
  | (w', Err _) => same_locks w w' ∧ data w' = data w
  | (w', Ok id) => id = nextTx w ∧ ∃ w1 t, same_locks w w1 ∧ txs w1 = txs w ∧ data w1 = data w ∧ w' = new_tx t w1 ∧
      write t = wr ∧ done t = false ∧ over t = false ∧ tschema t = default "" ctx ∧ base t = data w ∧ view t = data w
  end.
Proof.
  unfold open_tx. case_bool_decide as E.
  - split; [done|]. eexists w, _. split_and!; [apply same_locks_refl|done..].
  - destruct (set_fault b); [done|]. destruct (exec_text _ _ _) as [sess [x|e]]; [|done].
    split; [done|]. eexists (with_session (bconn b) sess w), _. by split_and!.
Qed.

Lemma unlock_after w w' : locked w = false → same_locks (with_locked true w) w' → same_locks w (unlock w').
Proof. intros Hl (H1 & H2 & H3 & H4). unfold unlock. rewrite H1. cbn in *. by repeat split. Qed.
Lemma unlock_data w : data (unlock w) = data w.
Proof. unfold unlock. by destruct (locked w). Qed.
Lemma unlock_txs w : txs (unlock w) = txs w.
Proof. unfold unlock. by destruct (locked w). Qed.
Lemma release_data id w : data (release id w) = data w.
Proof. unfold release. destruct (is_write _ _); [apply unlock_data|done]. Qed.
Lemma release_txs id w : txs (release id w) = txs w.
Proof. unfold release. destruct (is_write _ _); [apply unlock_txs|done]. Qed.

Lemma free_inv w : lock_inv w → locked w = false → ∀ i, ¬ open_write w i.
Proof. intros (_ & _ & h & Hl & Ho) E i Hi. apply Ho in Hi as ->. by rewrite E in Hl. Qed.

(** What is known of a transaction that has just begun. *)
Definition begun (t : TX) (wr : bool) (ctx : option string) (s : S) : Prop :=
  write t = wr ∧ done t = false ∧ over t = false ∧ tschema t = default "" ctx ∧ base t = s ∧ view t = s.

Lemma begin_locked_spec b ctx w :
  match begin_locked b ctx w with
  | (w', Err _) => same_locks w w' ∧ data w' = data w
  | (w', Ok id) => id = nextTx w ∧ ∃ w1 t, same_locks w w1 ∧ txs w1 = txs w ∧ data w1 = data w ∧ w' = new_tx t w1 ∧ begun t true ctx (data w)
  end.
Proof.
  unfold begin_locked. destruct (begin_fault b); [done|]. pose proof (open_tx_spec true b ctx w) as Ht.
  destruct (open_tx _ _ _ _) as [w' [id|e]]; [|done]. destruct Ht as (-> & w1 & t & ? & ? & ? & ? & ? & ? & ? & ? & ? & ?).
  split; [done|]. exists w1, t. by split_and!.
Qed.

Lemma BeginTX_blocked b ctx w : BeginTX b ctx w = None ↔ locked w = true.
Proof.
  unfold BeginTX, lock. destruct (locked w); [done|]. destruct (begin_locked _ _ _) as [? []]; done.
Qed.

Lemma BeginTX_spec b ctx w w' r : lock_inv w → BeginTX b ctx w = Some (w', r) →
  locked w = false ∧ data w' = data w ∧
  match r with
  | Err _ => same_locks w w'
  | Ok id => id = nextTx w ∧ lock_inv w' ∧ (∀ i, open_write w' i ↔ i = id) ∧ (∀ i, i ≠ id → txs w' !! i = txs w !! i) ∧
      ∃ t, txs w' !! id = Some t ∧ begun t true ctx (data w)
  end.
Proof.
  intros Hi. unfold BeginTX, lock. destruct (locked w) eqn:El; [done|].
  pose proof (begin_locked_spec b ctx (with_locked true w)) as Ht. destruct (begin_locked _ _ _) as [w1 [id|e]]; intros [= <- <-].
  2:{ destruct Ht as [Hs Hd]. split_and!; [done|by rewrite unlock_data|by apply unlock_after]. }
  destruct Ht as (-> & w2 & t & Hs & Htx & Hd2 & -> & Hbg). pose proof Hs as (L1 & L2 & L3 & L4). cbn in L1, L3, L4, Htx, Hd2.
  cbn [nextTx with_locked] in *. destruct Hi as (Hf & Hn & Hh).
  assert (ids_ok w2) as Hn2 by (intros i x; rewrite Htx, L3; apply Hn).
  assert (Hopen : ∀ i, open_write (new_tx t w2) i ↔ i = nextTx w).
  { intros i. rewrite open_write_new, L3. case_decide as E; [destruct Hbg as (-> & -> & _); naive_solver|]. split; [|done].
    intros Ho. exfalso. apply (free_inv w (conj Hf (conj Hn Hh)) El i). unfold open_write in *. by rewrite <- Htx. }
  split_and!; [done|done|done| |done| |].
  - split; [by cbn; rewrite L4|]. split; [by apply new_tx_ids|]. exists (Some (nextTx w)). split; [by cbn; rewrite L1|].
    intros i. rewrite Hopen. naive_solver.
  - intros i Hne. cbn. by rewrite L3, lookup_insert_ne, Htx.
  - exists t. split; [cbn; by rewrite L3, lookup_insert_eq|exact Hbg].
Qed.

(** *** The end of a transaction *)
Lemma finish_nop k id w : is_done id w = true → finish k id w = (w, None).
Proof. unfold finish. by intros ->. Qed.
Lemma finish_open k id w t : txs w !! id = Some t → done t = false →
  ∃ w1 e, end_tx k id (with_tx id (marked t) w) = (w1, e) ∧ same_locks (with_tx id (marked t) w) w1 ∧
    finish k id w = (if write t then unlock w1 else w1, end_error k <$> e).
Proof.
  intros Et Ed. unfold finish, is_done, mark. rewrite Et, Ed. pose proof (end_tx_locks k id (with_tx id (marked t) w)) as Hs.
  pose proof (end_tx_lookup k id (with_tx id (marked t) w) id) as El. destruct (end_tx _ _ _) as [w1 e]. exists w1, e.
  split_and!; [done|done|]. unfold release, is_write. cbn in El. rewrite El. rewrite decide_True, lookup_insert_eq by done. cbn.
  by destruct (over t).
Qed.

Lemma finish_inv k id w : lock_inv w → lock_inv (finish k id w).1.
Proof.
  intros Hi. destruct (is_done id w) eqn:Ed; [by rewrite finish_nop|]. unfold is_done in Ed.
  destruct (txs w !! id) as [t|] eqn:Et; [|done]. destruct (finish_open k id w t Et Ed) as (w1 & e & _ & Hs & ->). cbn.
  destruct Hi as (Hf & Hn & h & Hl & Ho). pose proof Hs as (L1 & L2 & L3 & L4). cbn in L1, L4.
  assert (Hopen : ∀ i, open_write w1 i ↔ i ≠ id ∧ h = Some i).
  { intros i. rewrite <- Ho, (open_write_same _ _ _ L2), open_write_tx. case_decide; cbn; naive_solver. }
  assert (Hb : ids_ok w1).
  { apply (ids_ok_same _ _ Hs). intros i x. cbn. intros [[<- _]|[_ Hx]]%lookup_insert_Some; by eapply Hn. }
  destruct (write t) eqn:Ew.
  - assert (h = Some id) as -> by (apply Ho; by exists t). unfold unlock. rewrite L1, Hl. cbn.
    split; [by cbn; rewrite L4|]. split; [done|]. exists None. split; [done|]. intros i.
    change (open_write (with_locked false w1) i) with (open_write w1 i). rewrite Hopen. naive_solver.
  - split; [by rewrite L4|]. split; [done|]. exists h. split; [by rewrite L1|]. intros i. rewrite Hopen.
    split; [naive_solver|]. intros Hw. split; [|done]. intros ->. apply Ho in Hw as (t' & Ht' & Hw & _). congruence.
Qed.

Lemma run_op_inv id w o : lock_inv w → lock_inv (run_op id w o).
Proof.
  intros Hi. destruct o as [fault q|fault|fault]; cbn; [|by apply finish_inv..].
  eapply lock_inv_same; [apply tx_exec_locks|done].
Qed.

Lemma BeginReadTX_spec b ctx w : same_locks w (BeginReadTX b ctx w).1 ∨
  ∃ w1 t, same_locks w w1 ∧ txs w1 = txs w ∧ (BeginReadTX b ctx w).1 = new_tx t w1 ∧ write t = false.
Proof.
  unfold BeginReadTX. destruct (begin_fault b); [by left|]. pose proof (open_tx_spec false b ctx w) as Ht.
  destruct (open_tx _ _ _ _) as [w1 [i|e]]; cbn; [|left; apply Ht]. right. destruct Ht as (-> & w2 & t & ? & ? & ? & ? & ? & _). by exists w2, t.
Qed.
Lemma new_tx_read_inv t w : write t = false → lock_inv w → lock_inv (new_tx t w).
Proof.
  intros Hw (Hf & Hn & h & Hl & Ho). split; [done|]. split; [by apply new_tx_ids|]. exists h. split; [done|].
  intros i. by rewrite new_tx_read.
Qed.

Lemma apply_op_inv w o : lock_inv w → lock_inv (apply_op w o).
Proof.
  intros Hi. destruct o as [fault c stmt|fault c stmt|b ctx|b ctx|id o]; cbn.
  - apply (lock_inv_same w); [apply pool_exec_locks|done].
  - destruct (locked_exec _ _ _ _) as [[w' r]|] eqn:E; cbn; [|done]. apply locked_exec_locks in E as [_ Hs]. by apply (lock_inv_same w).
  - destruct (BeginTX _ _ _) as [[w' r]|] eqn:E; cbn; [|done]. apply BeginTX_spec in E as (_ & _ & Hr); [|done].
    destruct r; [apply Hr|by apply (lock_inv_same w)].
  - destruct (BeginReadTX_spec b ctx w) as [Hs|(w1 & t & Hs & _ & -> & Hw)]; [by apply (lock_inv_same w)|].
    apply new_tx_read_inv; [done|by apply (lock_inv_same w)].
  - by apply run_op_inv.
Qed.
Lemma apply_ops_inv ops w : lock_inv w → lock_inv (foldl apply_op w ops).
Proof. revert w. induction ops as [|o ops IH]; intros w Hi; [done|]. by apply IH, apply_op_inv. Qed.

(** *** One transaction on its own *)
Lemma finish_other k id w i : i ≠ id → txs (finish k id w).1 !! i = txs w !! i.
Proof.
  intros Hne. unfold finish. destruct (is_done id w); [done|]. pose proof (end_tx_lookup k id (mark id w) i) as E.
  destruct (end_tx _ _ _) as [w1 e]. cbn in *. rewrite release_txs, E. rewrite decide_False by done.
  unfold mark. destruct (txs w !! id); [cbn; by rewrite lookup_insert_ne|done].
Qed.
Lemma finish_done k id w t : txs w !! id = Some t → (done t = true → over t = true) →
  ∃ t', txs (finish k id w).1 !! id = Some t' ∧ done t' = true ∧ over t' = true.
Proof.
  intros Et Hd. unfold finish, is_done. rewrite Et. destruct (done t) eqn:Ed; [by eauto|]. unfold mark. rewrite Et.
  pose proof (end_tx_lookup k id (with_tx id (marked t) w) id) as E. destruct (end_tx _ _ _) as [w1 e]. cbn in *.
  rewrite release_txs, E, decide_True, lookup_insert_eq by done. cbn. destruct (over t) eqn:Eo; eexists; (split; [done|]); by rewrite ?Eo.
Qed.
Lemma tx_exec_other fault id q w i : i ≠ id → txs (tx_exec fault id q w).1 !! i = txs w !! i.
Proof.
  intros Hne. unfold tx_exec. destruct (txs w !! id) as [t|]; [|done]. destruct (over t); [done|]. destruct fault; [done|].
  destruct (exec_text _ _ _) as [sess [[s x]|e]]; cbn; [|done]. by rewrite lookup_insert_ne.
Qed.
Lemma run_op_other id w o i : i ≠ id → txs (run_op id w o) !! i = txs w !! i.
Proof. intros Hne. destruct o as [fault q|fault|fault]; cbn; [by apply tx_exec_other|by apply finish_other..]. Qed.

(** A handle that is marked has a finished transaction behind it. *)
Definition settled (id : nat) (w : World) : Prop := ∃ t, txs w !! id = Some t ∧ (done t = true → over t = true).
Lemma run_op_settled id w o : settled id w → settled id (run_op id w o).
Proof.
  intros (t & Et & Hd). destruct o as [fault q|fault|fault]; cbn.
  - unfold tx_exec. rewrite Et. destruct (over t) eqn:Eo; [by exists t|]. destruct fault; [by exists t; rewrite Eo|].
    destruct (exec_text _ _ _) as [sess [[s x]|e]]; cbn; [|by exists t; rewrite Eo]. exists (with_view s t). cbn. by rewrite lookup_insert_eq, Eo.
  - destruct (finish_done (ECommit fault) id w t Et Hd) as (t' & E & _ & ?). by exists t'.
  - destruct (finish_done (ERollback fault) id w t Et Hd) as (t' & E & _ & ?). by exists t'.
Qed.

(** No other write transaction is open. *)
Definition mine (id : nat) (w : World) : Prop := lock_inv w ∧ (∀ i, open_write w i → i = id) ∧ settled id w.
Lemma open_write_lookup w w' i : txs w' !! i = txs w !! i → open_write w' i → open_write w i.
Proof. unfold open_write. by intros ->. Qed.
Lemma run_ops_mine id w os : mine id w → mine id (foldl (run_op id) w os).
Proof.
  revert w. induction os as [|o os IH]; intros w (Hi & Ho & Hs); [done|]. apply IH.
  split; [by apply run_op_inv|]. split; [|by apply run_op_settled]. intros i Hw. destruct (decide (i = id)) as [|Hne]; [done|].
  apply Ho. eapply open_write_lookup; [|exact Hw]. by apply run_op_other.
Qed.
Lemma finish_releases k id w : mine id w → mine id (finish k id w).1 ∧ locked (finish k id w).1 = false.
Proof.
  intros (Hi & Ho & (t0 & Et0 & Hs)). pose proof (finish_inv k id _ Hi) as Hi'. destruct (finish_done k id w t0 Et0 Hs) as (t & Et & Hd & Hov).
  assert (∀ i, open_write (finish k id w).1 i → i = id) as Ho'.
  { intros i Hw. destruct (decide (i = id)) as [|Hne]; [done|]. apply Ho. eapply open_write_lookup; [|exact Hw]. by apply finish_other. }
  split; [split_and!; [done|done|by exists t]|]. destruct Hi' as (_ & _ & [i|] & -> & Hh); [|done].
  assert (open_write (finish k id w).1 i) as Hw by by apply Hh. rewrite (Ho' _ Hw) in Hw.
  destruct Hw as (t' & Et' & _ & Hd'). congruence.
Qed.

Lemma attempt_releases a ctx w : lock_inv w →
  let '(w', r) := attempt a ctx w in
  lock_inv w' ∧ (r = inl Blocked → w' = w ∧ locked w = true) ∧ (r ≠ inl Panicked → r ≠ inl Blocked → locked w' = false).
Proof.
  intros Hi. unfold attempt. destruct (BeginTX _ _ _) as [[w1 r]|] eqn:Eb; [|apply BeginTX_blocked in Eb; naive_solver].
  apply BeginTX_spec in Eb as (Hl & _ & Hr); [|done]. destruct r as [id|e].
  2:{ split_and!; [by apply (lock_inv_same w)|done|]. intros _ _. destruct Hr as (-> & _). done. }
  destruct Hr as (_ & Hi1 & Ho & _ & t & Et & Hbg).
  assert (mine id (foldl (run_op id) w1 (body a))) as Hm.
  { apply run_ops_mine. split_and!; [done|intros i; apply Ho|]. exists t. split; [done|]. destruct Hbg as (_ & -> & _). done. }
  destruct (ends a) as [|e|].
  - unfold Commit. pose proof (finish_releases (ECommit (commit_fault a)) _ _ Hm) as [Hm' Hl'].
    destruct (finish _ _ _) as [w2 [e|]]; cbn in Hm', Hl'; [|split_and!; [apply Hm'|done|done]].
    destruct (finish_releases (ERollback (rollback_fault a)) _ _ Hm') as [Hm2 Hl2]. split_and!; [apply Hm2|done|done].
  - destruct (finish_releases (ERollback (rollback_fault a)) _ _ Hm) as [Hm2 Hl2]. split_and!; [apply Hm2|done|done].
  - split_and!; [apply Hm|done|done].
Qed.

Lemma exec_tx_releases waits i env others ctx w : lock_inv w →
  let '(w', o, ds) := exec_tx waits i env others ctx w in
  lock_inv w' ∧ (o = Blocked → locked w' = true) ∧ (o ≠ Panicked → o ≠ Blocked → locked w' = false) ∧ ds = take (length ds) waits.
Proof.
  revert i w. induction waits as [|d waits IH]; intros i w Hi; cbn [exec_tx];
    pose proof (attempt_releases (env i) ctx w Hi) as Ha; destruct (attempt (env i) ctx w) as [w1 [o|e]]; destruct Ha as (Hi1 & Hb & Hp).
  - split_and!; [done|intros ->; by destruct (Hb eq_refl) as [-> ?]|intros ??; apply Hp; congruence|done].
  - split_and!; [done|done|intros _ _; by apply Hp|done].
  - split_and!; [done|intros ->; by destruct (Hb eq_refl) as [-> ?]|intros ??; apply Hp; congruence|done].
  - destruct (isSerializationError e); [|split_and!; [done|done|intros _ _; by apply Hp|done]].
    specialize (IH (1 + i)%nat _ (apply_ops_inv (others i) w1 Hi1)). destruct (exec_tx _ _ _ _ _ _) as [[w2 o] ds]. destruct IH as (? & ? & ? & E).
    split_and!; [done|done|done|]. cbn. by rewrite <- E.
Qed.

(** A transaction run by [ExecTx] frees the mutex on every way it returns: success, the
    function's error, a failed commit, a failed start, after any number of retries, and
    even if the function ended the transaction itself; it waits only while another
    transaction is open. *)
Theorem ExecTx_releases (env : nat → Attempt) (others : nat → list op) (ctx : option string) (w : World) : lock_inv w →
  let '(w', o, ds) := ExecTx env others ctx w in
  lock_inv w' ∧ (o = Blocked → locked w' = true) ∧ (o ≠ Panicked → o ≠ Blocked → locked w' = false) ∧ ds = take (length ds) backoff.
Proof. apply exec_tx_releases. Qed.

(** *** What a transaction does to the data *)
Definition stmts (l : list (option string * string)) : list tx_op := (λ p, TExec p.1 p.2) <$> l.
(** The session and the data behind statements that see nothing but each other. *)
Definition body_step (schema : string) (st : string * S) (p : option string * string) : string * S :=
  match p.1 with
  | Some _ => st
  | None =>
    match exec_text st.1 (txScopeQuery schema p.2) st.2 with
    | (sess, Ok (s, _)) => (sess, s)
    | (sess, Err _) => (sess, st.2)
    end
  end.
Definition body_view (schema : string) : string * S → list (option string * string) → string * S := foldl (body_step schema).

(** The statements before the first end of the transaction, and that end, if the function
    has one of its own. *)
Fixpoint before_end (l : list tx_op) : list (option string * string) * option tx_op :=
  match l with
  | TExec f q :: l => let '(p, e) := before_end l in ((f, q) :: p, e)
  | o :: _ => ([], Some o)
  | [] => ([], None)
  end.
Definition is_commit (o : tx_op) : bool := match o with TCommit None => true | _ => false end.
(** Whether the first end is a commit that the database accepts. *)
Definition commits (a : Attempt) : bool :=
  match (before_end (body a)).2, ends a, commit_fault a with
  | Some o, _, _ => is_commit o
  | None, FnOk, None => true
  | None, _, _ => false
  end.
(** All the statements before it, or none. *)
Definition effect (a : Attempt) (ctx : option string) (s s' : S) : Prop :=
  if commits a then ∃ sess, s' = (body_view (default "" ctx) (sess, s) (before_end (body a)).1).2 else s' = s.

Lemma before_end_split l :
  l = stmts (before_end l).1 ∧ (before_end l).2 = None ∨
  ∃ o rest, l = stmts (before_end l).1 ++ o :: rest ∧ (before_end l).2 = Some o ∧ ((∃ f, o = TCommit f) ∨ ∃ f, o = TRollback f).
Proof.
  induction l as [|[f q|f|f] l IH]; cbn; [by left|..].
  - destruct (before_end l) as [p e]. cbn in *. destruct IH as [[-> ->]|(o & rest & -> & -> & Ho)]; [by left|].
    right. exists o, rest. by split_and!.
  - right. exists (TCommit f), l. split_and!; [done|done|by eauto].
  - right. exists (TRollback f), l. split_and!; [done|done|by eauto].
Qed.

Lemma session_set c sess w : session c (with_session c sess w) = sess.
Proof. unfold session. cbn. by rewrite lookup_insert_eq. Qed.

Lemma stmts_run l id w t : txs w !! id = Some t → over t = false →
  let w' := foldl (run_op id) w (stmts l) in
  data w' = data w ∧ ∃ t', txs w' !! id = Some t' ∧ done t' = done t ∧ over t' = false ∧ write t' = write t ∧ base t' = base t ∧
    view t' = (body_view (tschema t) (session (conn t) w, view t) l).2.
Proof.
  revert w t. induction l as [|[fault q] l IH]; intros w t Et Ed; cbn [stmts fmap list_fmap foldl body_view]; [by eauto 10|].
  cbn [run_op fst snd]. unfold tx_exec. rewrite Et, Ed. change (foldl (body_step (tschema t)) ?x l) with (body_view (tschema t) x l). unfold body_step. cbn [fst snd].
  destruct fault as [e|]; [by apply IH|].
  destruct (exec_text (session (conn t) w) (txScopeQuery (tschema t) q) (view t)) as [sess [[s x]|e]].
  - destruct (IH (with_tx id (with_view s t) (with_session (conn t) sess w)) (with_view s t)) as (Hd & t' & H1 & H2 & H3 & H4 & H5 & H6);
      [cbn; by rewrite lookup_insert_eq|done|]. split; [done|]. exists t'. split_and!; [done..|].
    rewrite H6. cbn [tschema conn view with_view]. unfold session. cbn. by rewrite lookup_insert_eq.
  - destruct (IH (with_session (conn t) sess w) t) as (Hd & t' & H1 & H2 & H3 & H4 & H5 & H6); [done|done|]. split; [done|]. exists t'. split_and!; [done..|].
    rewrite H6. by rewrite session_set.
Qed.

(** After its end a transaction does nothing any more. *)
Lemma over_run l id w t : txs w !! id = Some t → done t = true → over t = true → foldl (run_op id) w l = w.
Proof.
  intros Et Ed Eo. induction l as [|o l IH]; [done|]. cbn. replace (run_op id w o) with w; [done|].
  destruct o; cbn; unfold tx_exec, Commit, Rollback, finish, is_done; by rewrite Et, ?Ed, ?Eo.
Qed.
Lemma Rollback_data fault id w : data (Rollback fault id w).1 = data w.
Proof.
  unfold Rollback, finish, mark. destruct (is_done id w) eqn:Ed; [done|]. unfold is_done in Ed. destruct (txs w !! id) as [t|] eqn:Et; [|done].
  unfold end_tx. cbn [txs with_tx]. rewrite lookup_insert_eq. cbn. destruct (over t); cbn; by rewrite release_data.
Qed.
Lemma Commit_data fault id w t : (∀ b v, merge b v b = Ok v) → txs w !! id = Some t → done t = false → over t = false → base t = data w →
  data (Commit fault id w).1 = (if fault then data w else view t) ∧ ((Commit fault id w).2 = None ↔ fault = None).
Proof.
  intros Hm Et Ed Eo Hb. unfold Commit, finish, is_done, mark. rewrite Et, Ed. unfold end_tx. cbn [txs with_tx]. rewrite lookup_insert_eq.
  cbn [over marked]. rewrite Eo. destruct fault as [e|]; cbn [base marked data with_tx view].
  - cbn. rewrite release_data. by split.
  - rewrite Hb, Hm. cbn. rewrite release_data. by split.
Qed.

(** An end that the function makes itself. *)
Lemma own_end_data id w t o : (∀ b v, merge b v b = Ok v) → txs w !! id = Some t → done t = false → over t = false → base t = data w →
  ((∃ f, o = TCommit f) ∨ ∃ f, o = TRollback f) →
  ∃ t', txs (run_op id w o) !! id = Some t' ∧ done t' = true ∧ over t' = true ∧ data (run_op id w o) = if is_commit o then view t else data w.
Proof.
  intros Hm Et Ed Eo Hb [[f ->]|[f ->]]; cbn [run_op is_commit].
  - destruct (finish_done (ECommit f) id w t Et) as (t' & ? & ? & ?); [congruence|]. exists t'. split_and!; [done..|].
    destruct (Commit_data f id w t Hm Et Ed Eo Hb) as [-> _]. by destruct f.
  - destruct (finish_done (ERollback f) id w t Et) as (t' & ? & ? & ?); [congruence|]. exists t'. split_and!; [done..|]. apply Rollback_data.
Qed.

(** A function that leaves the end of the transaction to [ExecTx]. *)
Definition plain (env : nat → Attempt) : Prop := ∀ i, (before_end (body (env i))).2 = None.

Lemma attempt_data a ctx w : (∀ b v, merge b v b = Ok v) → lock_inv w →
  let '(w', r) := attempt a ctx w in
  match r with
  | inl Blocked => w' = w ∧ locked w = true
  | inl (Returned (Some e)) => data w' = data w
  | _ => effect a ctx (data w) (data w')
  end ∧
  ((before_end (body a)).2 = None →
    match r with
    | inl (Returned None) => commits a = true
    | inr _ => commits a = false
    | inl Panicked => commits a = false ∧ open_write w' (nextTx w)
    | _ => True
    end).
Proof.
  intros Hm Hi. unfold attempt. destruct (BeginTX _ _ _) as [[w1 [id|e]]|] eqn:Eb; [| |by apply BeginTX_blocked in Eb].
  2:{ by apply BeginTX_spec in Eb as (_ & ? & _). }
  apply BeginTX_spec in Eb as (_ & Hd & -> & Hi1 & _ & _ & t & Et & Hw & Hdone & Hov & Hsc & Hbase & Hv); [|done].
  unfold effect, commits.
  destruct (before_end_split (body a)) as [[Hb Hn]|(o & rest & Hb & Hn & Ho)]; rewrite Hn.
  - rewrite Hb. destruct (stmts_run (before_end (body a)).1 (nextTx w) w1 t Et Hov) as (Hd2 & t' & Et' & Hdone' & Hov' & Hw' & Hb' & Hv').
    rewrite <- Hb. rewrite <- Hb in Hd2, Et'. set (w2 := foldl _ w1 (body a)) in *.
    destruct (ends a) as [|e|].
    + destruct (Commit_data (commit_fault a) (nextTx w) w2 t' Hm Et') as [Hc He]; [congruence|done|congruence|].
      destruct (Commit _ _ _) as [w3 [e|]]; cbn in Hc, He.
      * rewrite Rollback_data. destruct (commit_fault a); [|by destruct He as [_ He]; specialize (He eq_refl)].
        split; [congruence|done].
      * destruct (commit_fault a); [by destruct He as [He _]; specialize (He eq_refl)|]. split; [|done].
        exists (session (conn t) w1). by rewrite Hc, Hv', Hsc, Hv.
    + rewrite Rollback_data. split; [congruence|done].
    + split; [congruence|]. intros _. split; [done|]. exists t'. split_and!; [done|congruence|congruence].
  - destruct (stmts_run (before_end (body a)).1 (nextTx w) w1 t Et Hov) as (Hd2 & t' & Et' & Hdone' & Hov' & Hw' & Hb' & Hv').
    pose proof (f_equal (foldl (run_op (nextTx w)) w1) Hb) as Hrun. rewrite foldl_app in Hrun. cbn [foldl] in Hrun. rewrite Hrun. clear Hrun.
    set (w2 := foldl _ w1 (stmts _)) in *.
    destruct (own_end_data (nextTx w) w2 t' o Hm Et') as (t3 & Et3 & Hd3 & Ho3 & Hdata); [congruence|done|congruence|done|].
    set (w3 := run_op _ w2 o) in *. rewrite (over_run rest (nextTx w) w3 t3) by done.
    assert (Commit (commit_fault a) (nextTx w) w3 = (w3, None)) as -> by (apply finish_nop; unfold is_done; by rewrite Et3, Hd3).
    assert (Rollback (rollback_fault a) (nextTx w) w3 = (w3, None)) as -> by (apply finish_nop; unfold is_done; by rewrite Et3, Hd3).
    assert (if is_commit o then ∃ sess, data w3 = (body_view (default "" ctx) (sess, data w) (before_end (body a)).1).2 else data w3 = data w) as He.
    { destruct (is_commit o); [|congruence]. exists (session (conn t) w1). by rewrite Hdata, Hv', Hsc, Hv. }
    destruct (ends a); (split; [exact He|done]).
Qed.

(** The attempts before the last: each has its effect, then the others have theirs. *)
Inductive retried (env : nat → Attempt) (others : nat → list op) (ctx : option string) : nat → nat → World → World → Prop :=
| retried_0 i w : retried env others ctx i 0 w w
| retried_S i n w w1 w2 : effect (env i) ctx (data w) (data w1) →
    retried env others ctx (1 + i) n (foldl apply_op w1 (others i)) w2 → retried env others ctx i (1 + n) w w2.

Lemma exec_tx_data waits i env others ctx w : (∀ b v, merge b v b = Ok v) → lock_inv w →
  let '(w', o, ds) := exec_tx waits i env others ctx w in
  ∃ w0, retried env others ctx i (length ds) w w0 ∧
  match o with
  | Blocked => w' = w0 ∧ locked w0 = true
  | Returned (Some e) => effect (env (i + length ds)%nat) ctx (data w0) (data w') ∨ data w' = data w0
  | _ => effect (env (i + length ds)%nat) ctx (data w0) (data w')
  end ∧
  (plain env →
    (∀ j, (j < length ds)%nat → commits (env (i + j)%nat) = false) ∧
    match o with
    | Returned None => commits (env (i + length ds)%nat) = true
    | Panicked => data w' = data w0 ∧ ∃ id, open_write w' id
    | _ => data w' = data w0
    end).
Proof.
  intros Hm. revert i w. induction waits as [|d waits IH]; intros i w Hi; cbn [exec_tx];
    pose proof (attempt_data (env i) ctx w Hm Hi) as Ha; pose proof (attempt_releases (env i) ctx w Hi) as Hr;
    destruct (attempt (env i) ctx w) as [w1 [o|e]]; destruct Hr as (Hi1 & Hb & Hf), Ha as [Hd Hpl];
    try (exists w; cbn [length]; rewrite ?Nat.add_0_r; split; [apply retried_0|]; split;
      [destruct o as [[?|]| |]; first [done|by right] | intros Hp; split; [intros j Hj; lia|specialize (Hpl (Hp i)); destruct o as [[?|]| |];
        [done|done|by destruct Hd as [-> _]|destruct Hpl as [Hc ?]; split; [unfold effect in Hd; by rewrite Hc in Hd|by eauto]]]]).
  - exists w. cbn [length]. rewrite ?Nat.add_0_r. split; [apply retried_0|]. split; [by left|]. intros Hp. split; [intros j Hj; lia|].
    specialize (Hpl (Hp i)). unfold effect in Hd. by rewrite Hpl in Hd.
  - destruct (isSerializationError e).
    + specialize (IH (1 + i)%nat _ (apply_ops_inv (others i) w1 Hi1)). destruct (exec_tx _ _ _ _ _ _) as [[w2 o] ds]. cbn [length].
      replace (i + Datatypes.S (length ds))%nat with (1 + i + length ds)%nat by lia. destruct IH as (w0 & Hc & Ho & Hp).
      exists w0. split; [by apply (retried_S _ _ _ i (length ds) w w1)|]. split; [exact Ho|]. intros Hpp. destruct (Hp Hpp) as [Hj Hend].
      split; [|exact Hend]. intros [|j] Hlt; [rewrite Nat.add_0_r; by apply Hpl|]. replace (i + Datatypes.S j)%nat with (1 + i + j)%nat by lia. apply Hj. lia.
    + exists w. cbn [length]. rewrite ?Nat.add_0_r. split; [apply retried_0|]. split; [by left|]. intros Hp. split; [intros j Hj; lia|].
      specialize (Hpl (Hp i)). unfold effect in Hd. by rewrite Hpl in Hd.
Qed.

(** C28: a transaction run by [ExecTx] happens completely or not at all.  Each attempt works
    on the data that it finds and takes effect with all the statements before its commit
    when the first end of its transaction is a commit that the database accepts (made by
    [ExecTx], or by the function itself, whatever the function does or returns afterwards),
    and else not at all; between two attempts other goroutines may do anything.  For a
    function that leaves the end to [ExecTx], no attempt but the last takes effect, the last
    does if [ExecTx] returns without an error, and after an error or a panic the data is
    what the last attempt found.  Assumes that the database commits what a transaction made
    of the data if nobody committed since it began, as the mutex ensures for writers that
    use it. *)
Theorem ExecTx_atomic (env : nat → Attempt) (others : nat → list op) (ctx : option string) (w : World) :
  (∀ b v, merge b v b = Ok v) → lock_inv w →
  let '(w', o, ds) := ExecTx env others ctx w in
  ∃ w0, retried env others ctx 0 (length ds) w w0 ∧
  match o with
  | Blocked => w' = w0 ∧ locked w0 = true
  | Returned (Some e) => effect (env (length ds)) ctx (data w0) (data w') ∨ data w' = data w0
  | _ => effect (env (length ds)) ctx (data w0) (data w')
  end ∧
  (plain env →
    (∀ j, (j < length ds)%nat → commits (env j) = false) ∧
    match o with
    | Returned None => commits (env (length ds)) = true
    | Panicked => data w' = data w0 ∧ ∃ id, open_write w' id
    | _ => data w' = data w0
    end).
Proof. intros Hm Hi. exact (exec_tx_data backoff 0 env others ctx w Hm Hi). Qed.

(** *** A panic *)
Definition spares (id : nat) (o : op) : Prop := match o with OTx i _ => i ≠ id | _ => True end.
Lemma open_locked w i : lock_inv w → open_write w i → locked w = true.
Proof. intros (_ & _ & h & -> & Ho) Hw. apply Ho in Hw as ->. done. Qed.
Lemma apply_op_spares id w o : lock_inv w → open_write w id → spares id o → open_write (apply_op w o) id.
Proof.
  intros Hi Hw Hs. pose proof (open_locked _ _ Hi Hw) as Hl. destruct o as [fault c stmt|fault c stmt|b ctx|b ctx|i o]; cbn.
  - eapply open_write_same; [|exact Hw]. by destruct (pool_exec_locks fault c stmt w) as (_ & -> & _).
  - unfold locked_exec, lock. by rewrite Hl.
  - unfold BeginTX, lock. by rewrite Hl.
  - destruct (BeginReadTX_spec b ctx w) as [Ho|(w1 & t & Ho & _ & -> & Ht)]; [eapply open_write_same; [apply Ho|exact Hw]|].
    apply new_tx_read; [eapply ids_ok_same; [exact Ho|apply Hi]|done|]. eapply open_write_same; [apply Ho|exact Hw].
  - eapply open_write_lookup; [|exact Hw]. symmetry. by apply run_op_other.
Qed.

(** A function that panics leaves its transaction unfinished: whatever the others do, who
    do not have its handle, from then on every writer waits for ever. *)
Theorem panic_blocks_writers (env : nat → Attempt) (others : nat → list op) (ctx : option string) (w w' : World) (ds : list Duration) :
  (∀ b v, merge b v b = Ok v) → lock_inv w → plain env → ExecTx env others ctx w = (w', Panicked, ds) →
  ∃ id, ∀ ops, Forall (spares id) ops →
    let w2 := foldl apply_op w' ops in
    (∀ b c, BeginTX b c w2 = None) ∧ (∀ f c q, Exec f c q w2 = None) ∧ ∀ f c x q, ExecContext f c x q w2 = None.
Proof.
  intros Hm Hi Hp E. unfold ExecTx in E. pose proof (exec_tx_data backoff 0 env others ctx w Hm Hi) as Ha. pose proof (exec_tx_releases backoff 0 env others ctx w Hi) as Hr.
  rewrite E in Ha, Hr. destruct Ha as (w0 & _ & _ & Ha). destruct (Ha Hp) as (_ & _ & id & Hw). destruct Hr as (Hi' & _). exists id. intros ops Hops. clear E Hi Ha.
  assert (lock_inv (foldl apply_op w' ops) ∧ open_write (foldl apply_op w' ops) id) as [H1 H2].
  { revert w' Hi' Hw. induction Hops as [|o ops Ho Hops IH]; intros w' Hi' Hw; [done|].
    apply IH; [by apply apply_op_inv|by apply apply_op_spares]. }
  pose proof (open_locked _ _ H1 H2) as Hl. cbn zeta. unfold BeginTX, Exec, ExecContext, locked_exec, lock. by rewrite Hl.
Qed.

(** ** The mutex, step by step *)
(** The goroutines run the calls of the handle one step at a time, interleaved as the
    scheduler likes: taking and releasing a mutex, reading and setting the mark of a
    transaction and each action of the database are steps of their own. *)

(** The mutex of a transaction handle, a sync.RWMutex. *)
Record RWMutex := { writer : option nat; readers : gset nat }.
Definition mu_free : RWMutex := {| writer := None; readers := ∅ |}.

Inductive call :=
| CQuery (fault : option string) (c : nat) (stmt : string)
| CExec (fault : option string) (c : nat) (stmt : string)
| CBegin (b : BeginEnv) (ctx : option string)
| CBeginRead (b : BeginEnv) (ctx : option string)
| CStmt (rd : bool) (fault : option string) (id : nat) (query : string)
| CEnd (k : tx_end) (id : nat).
(** Where in a call a goroutine is: before its first lock; behind it; behind the work that is
    done under it; and for an end of a transaction: with the mark read, with the mark set,
    without the handle's mutex, with the *sql.Tx ended. *)
Inductive pc := Enter | Holding | Ran | Tested (d : bool) | Marked | Freed | Ended.

Record Sys := { world : World; mus : gmap nat RWMutex; procs : gmap nat (call * pc) }.
Definition mu (id : nat) (s : Sys) : RWMutex := default mu_free (mus s !! id).
Definition goto (g : nat) (c : call) (p : pc) (w : World) (s : Sys) : Sys :=
  {| world := w; mus := mus s; procs := <[g := (c, p)]> (procs s) |}.
Definition leave (g : nat) (w : World) (s : Sys) : Sys := {| world := w; mus := mus s; procs := delete g (procs s) |}.
Definition with_mu (id : nat) (m : RWMutex) (s : Sys) : Sys := {| world := world s; mus := <[id := m]> (mus s); procs := procs s |}.

(** [Lock], [Unlock], [RLock] and [RUnlock] of a handle's mutex by goroutine [g]; [None]: waits. *)
Definition mu_lock (g id : nat) (s : Sys) : option Sys :=
  if bool_decide (writer (mu id s) = None ∧ readers (mu id s) = ∅)
  then Some (with_mu id {| writer := Some g; readers := ∅ |} s) else None.
Definition mu_unlock (id : nat) (s : Sys) : Sys := with_mu id {| writer := None; readers := readers (mu id s) |} s.
Definition mu_rlock (g id : nat) (s : Sys) : option Sys :=
  if bool_decide (writer (mu id s) = None)
  then Some (with_mu id {| writer := None; readers := {[ g ]} ∪ readers (mu id s) |} s) else None.
Definition mu_runlock (g id : nat) (s : Sys) : Sys :=
  with_mu id {| writer := writer (mu id s); readers := readers (mu id s) ∖ {[ g ]} |} s.

(** The next step of goroutine [g]; one that has to wait stays where it is. *)
Definition step (g : nat) (s : Sys) : Sys :=
  let w := world s in
  match procs s !! g with
  | None => s
  | Some (c, p) =>
    match c with
    | CQuery fault n stmt => leave g (pool_exec fault n stmt w).1 s
    | CBeginRead b ctx => leave g (BeginReadTX b ctx w).1 s
    | CExec fault n stmt =>
      match p with
      | Enter => match lock w with Some w => goto g c Holding w s | None => s end
      | Holding => goto g c Ran (pool_exec fault n stmt w).1 s
      | _ => leave g (unlock w) s
      end
    | CBegin b ctx =>
      match p with
      | Enter => match lock w with Some w => goto g c Holding w s | None => s end
      | Holding =>
        match begin_locked b ctx w with
        | (w, Ok _) => leave g w s
        | (w, Err _) => goto g c Ran w s
        end
      | _ => leave g (unlock w) s
      end
    | CStmt rd fault id q =>
      match p with
      | Enter =>
        match (if rd then mu_rlock g id s else mu_lock g id s) with Some s => goto g c Holding w s | None => s end
      | Holding => goto g c Ran (tx_exec fault id q w).1 s
      | _ => leave g w (if rd then mu_runlock g id s else mu_unlock id s)
      end
    | CEnd k id =>
      match p with
      | Enter => match mu_lock g id s with Some s => goto g c Holding w s | None => s end
      | Holding => goto g c (Tested (is_done id w)) w s
      | Tested true => leave g w (mu_unlock id s)
      | Tested false => goto g c Marked (mark id w) s
      | Marked => goto g c Freed w (mu_unlock id s)
      | Freed => goto g c Ended (end_tx k id w).1 s
      | _ => leave g (release id w) s
      end
    end
  end.

(** A goroutine that is in no call makes one; who uses a transaction has been given it. *)
Inductive event := Call (g : nat) (c : call) | Step (g : nat).
Definition has_handle (w : World) (c : call) : bool :=
  match c with CStmt _ _ id _ | CEnd _ id => bool_decide (is_Some (txs w !! id)) | _ => true end.
Definition on_event (s : Sys) (e : event) : Sys :=
  match e with
  | Step g => step g s
  | Call g c =>
    match procs s !! g with
    | Some _ => s
    | None => if has_handle (world s) c then goto g c Enter (world s) s else s
    end
  end.
Definition fresh (d : S) : Sys :=
  {| world := {| data := d; locked := false; sessions := ∅; txs := ∅; nextTx := 0; fatal := false |}; mus := ∅; procs := ∅ |}.

(** *** Who holds the mutex of the writers *)
(** A transaction whose handle is not marked, or a goroutine inside a call. *)
Inductive holder := HTx (id : nat) | HCall (g : nat).
Definition holds (w : World) (c : call) (p : pc) : bool :=
  match c, p with
  | CExec _ _ _, (Holding | Ran) | CBegin _ _, (Holding | Ran) => true
  | CEnd _ id, (Marked | Freed | Ended) => is_write id w
  | _, _ => false
  end.
Definition token (s : Sys) (x : holder) : Prop :=
  match x with
  | HTx i => open_write (world s) i
  | HCall g => match procs s !! g with Some (c, p) => holds (world s) c p = true | None => False end
  end.
Definition held (s : Sys) (h : option holder) : Prop :=
  locked (world s) = bool_decide (is_Some h) ∧ ∀ x, token s x ↔ h = Some x.

(** What a goroutine inside a call has: the mutex of the handle, and the mark it has read. *)
Definition proc_ok (s : Sys) (g : nat) (c : call) (p : pc) : Prop :=
  match c, p with
  | CQuery _ _ _, _ | CBeginRead _ _, _ => p = Enter
  | (CExec _ _ _ | CBegin _ _), _ => p = Enter ∨ p = Holding ∨ p = Ran
  | CStmt true _ _ _, _ => p = Enter ∨ p = Holding ∨ p = Ran
  | CStmt false _ id _, _ => p = Enter ∨ (p = Holding ∨ p = Ran) ∧ writer (mu id s) = Some g
  | CEnd _ id, Enter => is_Some (txs (world s) !! id)
  | CEnd _ id, (Holding | Tested true) => is_Some (txs (world s) !! id) ∧ writer (mu id s) = Some g
  | CEnd _ id, Tested false => is_Some (txs (world s) !! id) ∧ writer (mu id s) = Some g ∧ is_done id (world s) = false
  | CEnd _ id, Marked => is_Some (txs (world s) !! id) ∧ writer (mu id s) = Some g ∧ is_done id (world s) = true
  | CEnd _ id, (Freed | Ended) => is_Some (txs (world s) !! id) ∧ is_done id (world s) = true
  | CEnd _ _, Ran => False
  end.
Definition sys_inv (s : Sys) : Prop :=
  fatal (world s) = false ∧ ids_ok (world s) ∧ (∀ g c p, procs s !! g = Some (c, p) → proc_ok s g c p) ∧ ∃ h, held s h.

(** *** The invariant, step by step *)
(** What a step of [g] may change for the others. *)
Definition changes (g : nat) (s s' : Sys) : Prop :=
  (∀ id, is_Some (txs (world s) !! id) → is_Some (txs (world s') !! id) ∧ is_write id (world s') = is_write id (world s) ∧
    (is_done id (world s') = is_done id (world s) ∨ is_done id (world s') = true ∧ writer (mu id s) = Some g)) ∧
  (∀ id g', g' ≠ g → writer (mu id s) = Some g' → writer (mu id s') = Some g').

Lemma proc_ok_other g s s' g' c p : changes g s s' → g' ≠ g → proc_ok s g' c p → proc_ok s' g' c p.
Proof.
  intros [Hw Hm] Hne. destruct c as [| | | |[] f id q|k id]; cbn; try done.
  - intros [?|[? Hx]]; [by left|right; eauto].
  - destruct p as [| | |[]| | |]; intros Hp; try done;
      (assert (is_Some (txs (world s) !! id)) as Hs by (first [exact Hp|apply Hp])); destruct (Hw _ Hs) as (H1 & _ & H2); naive_solver.
Qed.
Lemma holds_other g s s' g' c p : changes g s s' → proc_ok s g' c p → holds (world s') c p = holds (world s) c p.
Proof.
  intros [Hw _]. destruct c as [| | | |[] f id q|k id]; cbn; try done.
  destruct p as [| | |[]| | |]; intros Hp; try done; (assert (is_Some (txs (world s) !! id)) as Hs by apply Hp); by destruct (Hw _ Hs) as (_ & -> & _).
Qed.

Lemma step_frame g s s' : sys_inv s → fatal (world s') = false → ids_ok (world s') →
  (∀ g', g' ≠ g → procs s' !! g' = procs s !! g') → changes g s s' →
  (∀ c p, procs s' !! g = Some (c, p) → proc_ok s' g c p) →
  (∀ h, held s h → ∃ h', locked (world s') = bool_decide (is_Some h') ∧ (∀ i, open_write (world s') i ↔ h' = Some (HTx i)) ∧
    (token s' (HCall g) ↔ h' = Some (HCall g)) ∧ ∀ g', g' ≠ g → h' = Some (HCall g') ↔ h = Some (HCall g')) →
  sys_inv s'.
Proof.
  intros (_ & _ & Hok & h & Hh) Hf Hn Hp Hc Hg Hex. split; [done|]. split; [done|]. split.
  - intros g' c p Hl. destruct (decide (g' = g)) as [->|Hne]; [by apply Hg|]. rewrite Hp in Hl by done. eapply proc_ok_other; eauto.
  - destruct (Hex h Hh) as (h' & Hl & Ht & Htg & Ho). exists h'. split; [done|]. intros [i|g']; [apply Ht|].
    destruct (decide (g' = g)) as [->|Hne]; [done|]. rewrite Ho by done. destruct Hh as [_ Hh]. rewrite <- Hh. cbn. rewrite Hp by done.
    destruct (procs s !! g') as [[c p]|] eqn:E; [|done]. by rewrite (holds_other g s s' g' c p Hc (Hok _ _ _ E)).
Qed.

Lemma flags_changes w w' : flags w' = flags w → ∀ id, is_Some (txs w !! id) →
  is_Some (txs w' !! id) ∧ is_write id w' = is_write id w ∧ is_done id w' = is_done id w.
Proof.
  intros E id Hs. assert (flags w' !! id = flags w !! id) as El by by rewrite E. unfold flags in El. rewrite !lookup_fmap in El.
  unfold is_write, is_done. destruct (txs w !! id) as [t|]; [|by destruct Hs]. destruct (txs w' !! id) as [t'|]; [|done].
  cbn in El. injection El as -> ->. by split_and!.
Qed.
Lemma same_changes g s s' : same_locks (world s) (world s') → (∀ id g', g' ≠ g → writer (mu id s) = Some g' → writer (mu id s') = Some g') → changes g s s'.
Proof.
  intros (_ & E & _) Hm. split; [|done]. intros id Hs. destruct (flags_changes _ _ E id Hs) as (? & ? & ?). by split_and!; [..|left].
Qed.

(** A step that leaves the mutex of the writers alone. *)
Lemma quiet_step g s s' : sys_inv s → same_locks (world s) (world s') →
  (∀ id g', g' ≠ g → writer (mu id s) = Some g' → writer (mu id s') = Some g') →
  (∀ g', g' ≠ g → procs s' !! g' = procs s !! g') →
  (∀ c p, procs s' !! g = Some (c, p) → proc_ok s' g c p) → (token s' (HCall g) ↔ token s (HCall g)) → sys_inv s'.
Proof.
  intros Hi Hs Hm Hp Hg Ht. pose proof Hi as (Hf & Hn & _ & _). pose proof Hs as (El & Ef & _ & Efa).
  apply (step_frame g s); [done|congruence|by eapply ids_ok_same|done|by apply same_changes|done|].
  intros h [Hl Hh]. exists h. split_and!; [congruence| |by rewrite Ht, Hh|done].
  intros i. rewrite (open_write_same _ _ i Ef). apply (Hh (HTx i)).
Qed.

Lemma lookup_goto g c p w s g' : g' ≠ g → procs (goto g c p w s) !! g' = procs s !! g'.
Proof. intros Hne. cbn. by rewrite lookup_insert_ne. Qed.
Lemma lookup_leave g w s g' : g' ≠ g → procs (leave g w s) !! g' = procs s !! g'.
Proof. intros Hne. cbn. by rewrite lookup_delete_ne. Qed.
Lemma goto_ok (P : call → pc → Prop) g c p w s : P c p → ∀ c' p', procs (goto g c p w s) !! g = Some (c', p') → P c' p'.
Proof. intros HP c' p'. cbn. rewrite lookup_insert_eq. by intros [= <- <-]. Qed.
Lemma leave_ok (P : call → pc → Prop) g w s c' p' : procs (leave g w s) !! g = Some (c', p') → P c' p'.
Proof. cbn. by rewrite lookup_delete_eq. Qed.
Lemma token_goto g c p w s : token (goto g c p w s) (HCall g) ↔ holds w c p = true.
Proof. cbn. by rewrite lookup_insert_eq. Qed.
Lemma token_leave g w s : ¬ token (leave g w s) (HCall g).
Proof. cbn. rewrite lookup_delete_eq. tauto. Qed.
Lemma token_here g c p s : procs s !! g = Some (c, p) → token s (HCall g) ↔ holds (world s) c p = true.
Proof. cbn. by intros ->. Qed.

(** Taking the mutex of the writers. *)
Lemma lock_step g c s w' : sys_inv s → procs s !! g = Some (c, Enter) → lock (world s) = Some w' →
  (∀ w, holds w c Holding = true) → (∀ s', proc_ok s' g c Holding) → sys_inv (goto g c Holding w' s).
Proof.
  intros Hi Hg Hl Hh Hok. unfold lock in Hl. destruct (locked (world s)) eqn:El; [done|]. injection Hl as <-.
  pose proof Hi as (Hf & Hn & _ & _). apply (step_frame g s); [done|done|done|intros ?; apply lookup_goto| |by apply (goto_ok (proc_ok _ g))|].
  { split; [|done]. intros id Hs. by split_and!; [..|left]. }
  intros h [Hlk Ht]. destruct h as [x|]; [by rewrite El in Hlk|]. exists (Some (HCall g)). split_and!; [done| | |].
  - intros i. split; [|done]. intros Ho. by apply (Ht (HTx i)) in Ho.
  - rewrite token_goto, Hh. done.
  - intros g' Hne. split; [by intros [= ->]|done].
Qed.

(** Giving it back. *)
Lemma unlock_step g c p s : sys_inv s → procs s !! g = Some (c, p) → holds (world s) c p = true → sys_inv (leave g (unlock (world s)) s).
Proof.
  intros Hi Hg Hh. pose proof Hi as (Hf & Hn & _ & h & Hlk & Ht).
  assert (h = Some (HCall g)) as -> by (apply Ht, (token_here g c p); done). cbn in Hlk.
  assert (unlock (world s) = with_locked false (world s)) as -> by (unfold unlock; by rewrite Hlk).
  apply (step_frame g s); [done|done|done|intros ?; apply lookup_leave| |by intros ??; apply leave_ok|].
  { split; [|done]. intros id Hs. by split_and!; [..|left]. }
  intros h' [Hlk' Ht']. assert (h' = Some (HCall g)) as -> by (apply Ht', (token_here g c p); done). exists None. split_and!; [done| | |].
  - intros i. split; [|done]. intros Ho. by apply (Ht (HTx i)) in Ho.
  - split; [|done]. by intros ?%token_leave.
  - intros g' Hne. split; [done|by intros [= ->]].
Qed.

(** A write transaction has begun: the mutex goes to it. *)
Lemma begun_step g c s w1 t : sys_inv s → procs s !! g = Some (c, Holding) → holds (world s) c Holding = true →
  same_locks (world s) w1 → txs w1 = txs (world s) → write t = true → done t = false → sys_inv (leave g (new_tx t w1) s).
Proof.
  intros Hi Hg Hh Hs Htx Hw Hd. pose proof Hi as (Hf & Hn & _ & _). pose proof Hs as (El & Ef & En & Efa).
  assert (ids_ok w1) as Hn1 by by eapply ids_ok_same. apply (step_frame g s); [done|cbn; congruence|by apply new_tx_ids|intros ?; apply lookup_leave| |by intros ??; apply leave_ok|].
  { split; [|done]. intros id Hid. unfold is_write, is_done. cbn. rewrite lookup_insert_ne; [rewrite Htx; split_and!; [done|done|by left]|].
    intros <-. rewrite <- Htx, next_fresh in Hid by done. by destruct Hid. }
  intros h [Hlk Ht]. assert (h = Some (HCall g)) as -> by (apply Ht, (token_here g c Holding); done). exists (Some (HTx (nextTx w1))). split_and!.
  - cbn. rewrite El. done.
  - intros i. change (world (leave g (new_tx t w1) s)) with (new_tx t w1). rewrite open_write_new. case_decide as E; [naive_solver|].
    rewrite (open_write_same _ _ i Ef). split; [intros Ho; by apply (Ht (HTx i)) in Ho|]. intros [= ?]; congruence.
  - split; [by intros ?%token_leave|done].
  - intros g' Hne. split; [done|by intros [= ->]].
Qed.

(** The mark: the mutex goes from the transaction to the goroutine that ends it. *)
Lemma mark_step g k id s : sys_inv s → procs s !! g = Some (CEnd k id, Tested false) → sys_inv (goto g (CEnd k id) Marked (mark id (world s)) s).
Proof.
  intros Hi Hg. pose proof Hi as (Hf & Hn & Hok & _). destruct (Hok _ _ _ Hg) as ([t Et] & Hmu & Hdone).
  unfold mark. rewrite Et. assert (done t = false) as Hd by (unfold is_done in Hdone; by rewrite Et in Hdone).
  assert (is_write id (with_tx id (marked t) (world s)) = write t) as Hwr by (unfold is_write; cbn; by rewrite lookup_insert_eq).
  apply (step_frame g s); [done|done| |intros ?; apply lookup_goto| | |].
  - intros i x. cbn. intros [[<- _]|[_ Hx]]%lookup_insert_Some; by eapply Hn.
  - split; [|done]. intros i Hs. unfold is_write, is_done. cbn. destruct (decide (i = id)) as [->|Hne].
    + rewrite lookup_insert_eq, Et. cbn. split_and!; [done|done|]. by right.
    + rewrite lookup_insert_ne by done. by split_and!; [..|left].
  - apply (goto_ok (proc_ok _ g)). cbn. rewrite lookup_insert_eq. split_and!; [done|exact Hmu|]. unfold is_done. cbn. by rewrite lookup_insert_eq.
  - intros h [Hlk Ht]. change (world (goto g (CEnd k id) Marked (with_tx id (marked t) (world s)) s)) with (with_tx id (marked t) (world s)).
    pose proof (token_goto g (CEnd k id) Marked (with_tx id (marked t) (world s)) s) as Htok. cbn [holds] in Htok. rewrite Hwr in Htok. destruct (write t) eqn:Ew.
    + assert (h = Some (HTx id)) as -> by (apply Ht; by exists t). exists (Some (HCall g)). split_and!; [done| |by rewrite Htok|].
      * intros i. rewrite open_write_tx. case_decide as E; [cbn; naive_solver|]. split; [|done]. intros Ho. apply (Ht (HTx i)) in Ho. congruence.
      * intros g' Hne. split; [by intros [= ->]|done].
    + exists h. split_and!; [done| | |done].
      * intros i. rewrite open_write_tx. case_decide as E; [|apply (Ht (HTx i))]. subst. cbn. split; [intros [? ?]; congruence|].
        intros ->. assert (open_write (world s) id) as (t' & Et' & ? & _) by by apply (Ht (HTx id)). congruence.
      * rewrite Htok. split; [done|]. intros ->. assert (token s (HCall g)) as Htk by by apply Ht. cbn in Htk. by rewrite Hg in Htk.
Qed.

(** *** The mutexes of the handles *)
Lemma mu_with id m s i : mu i (with_mu id m s) = if decide (i = id) then m else mu i s.
Proof. unfold mu. cbn. case_decide; [subst; by rewrite lookup_insert_eq|by rewrite lookup_insert_ne]. Qed.
Definition keeps_writers (g : nat) (s s' : Sys) : Prop := ∀ id g', g' ≠ g → writer (mu id s) = Some g' → writer (mu id s') = Some g'.
Lemma keeps_refl g s : keeps_writers g s s.
Proof. unfold keeps_writers. done. Qed.
Lemma mu_lock_spec g id s s' : mu_lock g id s = Some s' →
  world s' = world s ∧ procs s' = procs s ∧ writer (mu id s') = Some g ∧ keeps_writers g s s'.
Proof.
  unfold mu_lock. case_bool_decide as E; [|done]. intros [= <-]. split_and!; [done|done|by rewrite mu_with, decide_True|].
  intros i g' Hne Hw. rewrite mu_with. case_decide; [subst|done]. destruct E. congruence.
Qed.
Lemma mu_rlock_spec g id s s' : mu_rlock g id s = Some s' → world s' = world s ∧ procs s' = procs s ∧ keeps_writers g s s'.
Proof.
  unfold mu_rlock. case_bool_decide as E; [|done]. intros [= <-]. split_and!; [done|done|].
  intros i g' Hne Hw. rewrite mu_with. case_decide; [subst; congruence|done].
Qed.
Lemma mu_unlock_keeps g id s : writer (mu id s) = Some g → keeps_writers g s (mu_unlock id s).
Proof. intros E i g' Hne Hw. unfold mu_unlock. rewrite mu_with. case_decide; [subst; congruence|done]. Qed.
Lemma mu_runlock_keeps g id s : keeps_writers g s (mu_runlock g id s).
Proof. intros i g' Hne Hw. unfold mu_runlock. rewrite mu_with. by case_decide; [subst|]. Qed.

(** The quiet steps in the forms in which they come. *)
Lemma quiet_goto g c p s s1 p' w' : sys_inv s → procs s !! g = Some (c, p) → procs s1 = procs s → keeps_writers g s s1 →
  same_locks (world s) w' → holds w' c p' = holds (world s) c p → proc_ok (goto g c p' w' s1) g c p' → sys_inv (goto g c p' w' s1).
Proof.
  intros Hi Hg Hp Hm Hs Hh Hok. apply (quiet_step g s); [done|done|exact Hm| |by apply (goto_ok (proc_ok _ g))|].
  - intros g' Hne. rewrite lookup_goto by done. by rewrite Hp.
  - by rewrite token_goto, (token_here g c p s Hg), Hh.
Qed.
Lemma quiet_leave g c p s s1 w' : sys_inv s → procs s !! g = Some (c, p) → procs s1 = procs s → keeps_writers g s s1 →
  same_locks (world s) w' → holds (world s) c p = false → sys_inv (leave g w' s1).
Proof.
  intros Hi Hg Hp Hm Hs Hh. apply (quiet_step g s); [done|done|exact Hm| |by intros ??; apply leave_ok|].
  - intros g' Hne. rewrite lookup_leave by done. by rewrite Hp.
  - rewrite (token_here g c p s Hg), Hh. split; [by intros ?%token_leave|done].
Qed.

Lemma begin_read_step g b ctx p s : sys_inv s → procs s !! g = Some (CBeginRead b ctx, p) → sys_inv (leave g (BeginReadTX b ctx (world s)).1 s).
Proof.
  intros Hi Hg. destruct (BeginReadTX_spec b ctx (world s)) as [Hs|(w1 & t & Hs & Htx & -> & Ht)]; [eapply quiet_leave; [done|exact Hg|done|(done || apply keeps_refl)|exact Hs|done]|].
  pose proof Hi as (Hf & Hn & _ & _). pose proof Hs as (El & Ef & En & Efa). assert (ids_ok w1) as Hn1 by by eapply ids_ok_same.
  apply (step_frame g s); [done|cbn; congruence|by apply new_tx_ids|intros ?; apply lookup_leave| |by intros ??; apply leave_ok|].
  - split; [|done]. intros id Hid. unfold is_write, is_done. cbn. rewrite lookup_insert_ne; [rewrite Htx; split_and!; [done|done|by left]|].
    intros <-. rewrite <- Htx, next_fresh in Hid by done. by destruct Hid.
  - intros h [Hlk Hh]. exists h. split_and!; [cbn; congruence| | |done].
    + intros i. change (world (leave g (new_tx t w1) s)) with (new_tx t w1). rewrite new_tx_read by done.
      rewrite (open_write_same _ _ i Ef). apply (Hh (HTx i)).
    + split; [by intros ?%token_leave|]. intros ->. assert (token s (HCall g)) as Htk by by apply Hh. cbn in Htk. by rewrite Hg in Htk.
Qed.

Lemma end_step g k id p s : sys_inv s → procs s !! g = Some (CEnd k id, p) → sys_inv (step g s).
Proof.
  intros Hi Hg. unfold step. rewrite Hg. pose proof Hi as (Hf & Hn & Hok & _). specialize (Hok _ _ _ Hg). destruct p as [| | |[]| | |]; cbn in Hok; [..|].
  - destruct (mu_lock g id s) as [s1|] eqn:E; [|done]. apply mu_lock_spec in E as (Ew & Ep & Hm & Hk).
    apply (quiet_goto g _ Enter s); try done.
  - eapply quiet_goto; [done|exact Hg|done|(done || apply keeps_refl)|done|done|]. destruct Hok as [Hs Hw]. cbn. destruct (is_done id (world s)) eqn:E; by split_and!.
  - done.
  - destruct Hok as [Hs Hw]. eapply quiet_leave; [done|exact Hg|done|by apply mu_unlock_keeps|done|done].
  - by apply mark_step.
  - destruct Hok as (Hs & Hw & Hd). eapply quiet_goto; [done|exact Hg|done|by apply mu_unlock_keeps|done|done|]. by split.
  - destruct Hok as (Hs & Hd). pose proof (end_tx_locks k id (world s)) as Hl. pose proof Hl as (_ & Ef & _).
    destruct (flags_changes _ _ Ef id Hs) as (? & Hwr & Hdn).
    eapply quiet_goto; [done|exact Hg|done|(done || apply keeps_refl)|done|exact Hwr|]. cbn. rewrite Hdn. by split.
  - unfold release. destruct (is_write id (world s)) eqn:Ew; [eapply unlock_step; [done|exact Hg|exact Ew]|].
    eapply quiet_leave; [done|exact Hg|done|(done || apply keeps_refl)|done|exact Ew].
Qed.

Lemma stmt_step g rd f id q p s : sys_inv s → procs s !! g = Some (CStmt rd f id q, p) → sys_inv (step g s).
Proof.
  intros Hi Hg. unfold step. rewrite Hg. pose proof Hi as (Hf & Hn & Hok & _). specialize (Hok _ _ _ Hg). destruct rd; cbn in Hok.
  - destruct Hok as [->|[->| ->]].
    + destruct (mu_rlock g id s) as [s1|] eqn:E; [|done]. apply mu_rlock_spec in E as (Ew & Ep & Hk).
      eapply quiet_goto; [done|exact Hg|done|(done || apply keeps_refl)|done|done|]. cbn. tauto.
    + eapply quiet_goto; [done|exact Hg|done|(done || apply keeps_refl)|apply tx_exec_locks|done|]. cbn. tauto.
    + eapply quiet_leave; [done|exact Hg|done|apply mu_runlock_keeps|done|done].
  - destruct Hok as [->|[[->| ->] Hw]].
    + destruct (mu_lock g id s) as [s1|] eqn:E; [|done]. apply mu_lock_spec in E as (Ew & Ep & Hm & Hk).
      eapply quiet_goto; [done|exact Hg|done|(done || apply keeps_refl)|done|done|]. cbn. tauto.
    + eapply quiet_goto; [done|exact Hg|done|(done || apply keeps_refl)|apply tx_exec_locks|done|]. cbn. tauto.
    + eapply quiet_leave; [done|exact Hg|done|by apply mu_unlock_keeps|done|done].
Qed.

Lemma sys_step_inv g s : sys_inv s → sys_inv (step g s).
Proof.
  intros Hi. destruct (procs s !! g) as [[c p]|] eqn:Hg; [|unfold step; by rewrite Hg]. pose proof Hi as (Hf & Hn & Hok & _). specialize (Hok _ _ _ Hg).
  destruct c as [f n q|f n q|b ctx|b ctx|rd f id q|k id]; [..|by eapply stmt_step|by eapply end_step]; unfold step; rewrite Hg; cbn in Hok.
  - eapply quiet_leave; [done|exact Hg|done|(done || apply keeps_refl)|apply pool_exec_locks|done].
  - destruct Hok as [->|[->| ->]].
    + destruct (lock (world s)) as [w'|] eqn:El; [|done]. apply lock_step; [done|done|done|done|]. intros s'. cbn. tauto.
    + eapply quiet_goto; [done|exact Hg|done|(done || apply keeps_refl)|apply pool_exec_locks|done|]. cbn. tauto.
    + eapply unlock_step; [done|exact Hg|done].
  - destruct Hok as [->|[->| ->]].
    + destruct (lock (world s)) as [w'|] eqn:El; [|done]. apply lock_step; [done|done|done|done|]. intros s'. cbn. tauto.
    + pose proof (begin_locked_spec b ctx (world s)) as Hb. destruct (begin_locked _ _ _) as [w' [id|e]].
      * destruct Hb as (-> & w1 & t & Hs & Htx & _ & -> & Hw & Hd & _). by eapply begun_step.
      * destruct Hb as [Hs _]. eapply quiet_goto; [done|exact Hg|done|(done || apply keeps_refl)|done|done|]. cbn. tauto.
    + eapply unlock_step; [done|exact Hg|done].
  - by eapply begin_read_step.
Qed.

Lemma event_inv s e : sys_inv s → sys_inv (on_event s e).
Proof.
  intros Hi. destruct e as [g c|g]; [|by apply sys_step_inv]. cbn. destruct (procs s !! g) as [x|] eqn:Hg; [done|].
  destruct (has_handle (world s) c) eqn:Hh; [|done]. apply (quiet_step g s); [done|done|done|intros ?; apply lookup_goto| |].
  - apply (goto_ok (proc_ok _ g)). destruct c as [| | | |[]|k id]; cbn; try tauto. cbn in Hh. by apply bool_decide_eq_true in Hh.
  - rewrite token_goto. cbn. rewrite Hg. by destruct c.
Qed.
Lemma events_inv es s : sys_inv s → sys_inv (foldl on_event s es).
Proof. revert s. induction es as [|e es IH]; intros s Hi; [done|]. by apply IH, event_inv. Qed.
Lemma fresh_inv d : sys_inv (fresh d).
Proof.
  split; [done|]. split; [intros i t Hi; cbn in Hi; by rewrite lookup_empty in Hi|].
  split; [intros g c p Hg; cbn in Hg; by rewrite lookup_empty in Hg|]. exists None. split; [done|]. intros [i|g]; cbn.
  - split; [|done]. intros (t & Ht & _). cbn in Ht. by rewrite lookup_empty in Ht.
  - by rewrite lookup_empty.
Qed.

(** C38: however the steps of all goroutines are interleaved, from a fresh handle on, with
    ends of the same transaction called by several of them at once: the mutex of the writers
    is never unlocked while it is free, and it is locked exactly while it has a holder, of
    which there is at most one: a write transaction whose handle is not marked as done, or
    a goroutine that is between the lock and the unlock of [Exec], [ExecContext] or
    [BeginTX], or that has marked a write transaction and not yet released it. *)
Theorem lock_discipline (d : S) (es : list event) :
  let s := foldl on_event (fresh d) es in
  fatal (world s) = false ∧ ∃ h, locked (world s) = bool_decide (is_Some h) ∧ ∀ x, token s x ↔ h = Some x.
Proof. destruct (events_inv es (fresh d) (fresh_inv d)) as (Hf & _ & _ & h & Hh). split; [done|]. by exists h. Qed.

(** *** A goroutine that nobody interrupts *)
Fixpoint steps (n : nat) (g : nat) (s : Sys) : Sys := match n with O => s | Datatypes.S n => steps n g (step g s) end.

Lemma leave_gone g w s : procs (leave g w s) !! g = None.
Proof. cbn. apply lookup_delete_eq. Qed.

Ltac a_step := unfold step; cbn [procs world goto with_mu mu_unlock]; rewrite ?lookup_insert_eq.

(** Its steps make up the whole call. *)
Lemma alone_Exec g f n q s w' r : procs s !! g = Some (CExec f n q, Enter) → locked_exec f n q (world s) = Some (w', r) →
  world (steps 3 g s) = w' ∧ procs (steps 3 g s) !! g = None.
Proof.
  intros Hg. unfold locked_exec. destruct (lock (world s)) as [w1|] eqn:El; [|done]. destruct (pool_exec f n q w1) as [w2 r2] eqn:E. intros [= <- <-].
  assert (step g s = goto g (CExec f n q) Holding w1 s) as E1 by (unfold step; by rewrite Hg, El).
  assert (step g (goto g (CExec f n q) Holding w1 s) = goto g (CExec f n q) Ran w2 (goto g (CExec f n q) Holding w1 s)) as E2 by (a_step; by rewrite E).
  cbn [steps]. rewrite E1, E2. set (s2 := goto g _ Ran w2 _). assert (step g s2 = leave g (unlock w2) s2) as -> by (unfold s2; by a_step).
  split; [done|apply leave_gone].
Qed.
Lemma alone_end g k id s : procs s !! g = Some (CEnd k id, Enter) → mu id s = mu_free →
  ∃ n, world (steps n g s) = (finish k id (world s)).1 ∧ procs (steps n g s) !! g = None.
Proof.
  intros Hg Hm. exists (if is_done id (world s) then 3%nat else 6%nat). unfold finish.
  set (s1 := goto g (CEnd k id) Holding (world s) (with_mu id {| writer := Some g; readers := ∅ |} s)).
  assert (step g s = s1) as E1. { unfold step, mu_lock. rewrite Hg, Hm. by rewrite bool_decide_eq_true_2. }
  set (s2 := goto g (CEnd k id) (Tested (is_done id (world s))) (world s) s1). assert (step g s1 = s2) as E2 by (unfold s1, s2; by a_step).
  destruct (is_done id (world s)) eqn:Ed; cbn [steps]; rewrite E1, E2.
  - set (s3 := leave g (world s) (mu_unlock id s2)). assert (step g s2 = s3) as -> by (unfold s2, s3, s1; by a_step). split; [done|apply leave_gone].
  - set (w1 := mark id (world s)). set (s3 := goto g (CEnd k id) Marked w1 s2). assert (step g s2 = s3) as -> by (unfold s2, s3, s1; by a_step).
    set (s4 := goto g (CEnd k id) Freed w1 (mu_unlock id s3)). assert (step g s3 = s4) as -> by (unfold s3, s4; by a_step).
    set (s5 := goto g (CEnd k id) Ended (end_tx k id w1).1 s4). assert (step g s4 = s5) as -> by (unfold s4, s5; by a_step).
    set (s6 := leave g (release id (end_tx k id w1).1) s5). assert (step g s5 = s6) as -> by (unfold s5, s6; by a_step).
    split; [by destruct (end_tx k id w1)|apply leave_gone].
Qed.

(** *** Sessions *)
Lemma set_exec sess s q d : has_schema s d = true → exec_text sess (set_schema s +:+ "; " +:+ q) d = (s, run s q d).
Proof.
  intros Hs. unfold exec_text, set_schema. rewrite !str_app_assoc. rewrite (proj2 (prefix_iff _ _)) by eauto.
  rewrite str_drop_app_exact by done. unfold QuoteIdentifier. rewrite lex_quoted_quote by done. rewrite Hs. cbn [negb].
  rewrite bool_decide_eq_false_2 by done. rewrite (proj2 (prefix_iff _ _)) by eauto. by rewrite str_drop_app_exact.
Qed.

(** A statement that carries a schema runs in that schema, whatever was done on its
    connection before; one that carries none runs in the schema that the last scoped
    statement of any request left on the connection. *)
Theorem session_leaks (c : nat) (s q q2 : string) (w : World) :
  Storage.SanitizeProjectID s = None → has_schema s (data w) = true → String.prefix "SET schema = " q2 = false →
  exec_text (session c w) (Storage.scopeQuery (Some s) q) (data w) = (s, run s q (data w)) ∧
  let w' := (QueryContext None c (Some s) q w).1 in
  session c w' = s ∧ exec_text (session c w') q2 (data w') = (s, run s q2 (data w')).
Proof.
  intros Hs Hh Hq. assert (Storage.scopeQuery (Some s) q = set_schema s +:+ "; " +:+ q) as Eq.
  { unfold Storage.scopeQuery, set_schema. rewrite Hs. case_bool_decide as E; [by subst|]. by rewrite !str_app_assoc. }
  rewrite Eq, set_exec by done. split; [done|]. unfold QueryContext, pool_exec. rewrite Eq, set_exec by done.
  set (w' := (match run s q (data w) with Ok _ => _ | Err _ => _ end).1).
  assert (session c w' = s) as E. { unfold w'. destruct (run s q (data w)) as [[s' x]|e]; apply session_set. }
  split; [done|]. rewrite E. unfold exec_text. by rewrite Hq.
Qed.

(** *** Statements that are tried again *)
Lemma locked_exec_data fault c stmt w : locked w = false →
  ∃ w' r, locked_exec fault c stmt w = Some (w', r) ∧ locked w' = false ∧
  match r with
  | Err _ => data w' = data w
  | Ok x => ∃ sess sess', exec_text sess stmt (data w) = (sess', Ok (data w', x))
  end.
Proof.
  intros Hl. destruct (locked_exec fault c stmt w) as [[w' r]|] eqn:E; [|unfold locked_exec, lock in E; rewrite Hl in E; by destruct (pool_exec _ _ _ _)].
  exists w', r. split; [done|]. destruct (locked_exec_locks _ _ _ _ _ _ E) as (_ & Hs & _). split; [congruence|].
  unfold locked_exec, lock, pool_exec in E. rewrite Hl in E. destruct fault; [injection E as <- <-; by rewrite unlock_data|].
  cbn [data with_locked] in E. destruct (exec_text _ _ _) as [sess [[s x]|e]] eqn:Ex; injection E as <- <-; rewrite unlock_data; [|done].
  eexists _, sess. exact Ex.
Qed.

(** A statement with retries is executed at most once: an error leaves the data as it was,
    and one that could have been retried comes only after all three pauses. *)
Theorem ExecWithRetry_once (env : nat → nat * option string) (ctx : option string) (q : string) (w : World) : locked w = false →
  ∃ w' r ds, ExecWithRetry env ctx q w = Some (w', r, ds) ∧ locked w' = false ∧ ds = take (length ds) backoff ∧
  match r with
  | Err e => data w' = data w ∧ (isSerializationError e = true → ds = backoff)
  | Ok x => ∃ sess sess', exec_text sess (Storage.scopeQuery ctx q) (data w) = (sess', Ok (data w', x))
  end.
Proof.
  unfold ExecWithRetry. generalize backoff as waits. generalize 0%nat as i. intros i waits. revert i w.
  induction waits as [|d waits IH]; intros i w Hl; cbn [exec_retry]; unfold ExecContext;
    destruct (locked_exec_data (env i).2 (env i).1 (Storage.scopeQuery ctx q) w Hl) as (w1 & r & -> & Hl1 & Hr); destruct r as [x|e];
    try by eauto 10.
  destruct (isSerializationError e) eqn:Es; [|exists w1, (Err e), []; split_and!; [done|done|done|done|by rewrite Es]].
  destruct (IH (1 + i)%nat w1 Hl1) as (w2 & r & ds & -> & Hl2 & Hds & H2). exists w2, r, (d :: ds). split_and!; [done|done|cbn; congruence|].
  destruct r as [x|e2]; [by rewrite <- Hr|]. destruct H2 as [H2 H3]. split; [congruence|]. intros He. by rewrite H3.
Qed.
End Db.
End Database.

(** ** A database that logs its statements *)
Module SampleDatabase.
Import Database.
#[local] Existing Instance ascii_tables.

Definition log : Type := list (string * string).
Definition has_schema (name : string) (_ : log) : bool := bool_decide (name ∈ ["main"; "p1"; "p2"]).
Definition run (sess q : string) (s : log) : result string (log * unit) :=
  if bool_decide (q = "bad") then Err "Serialization failure" else Ok (s ++ [(sess, q)], ()).
Definition merge (b v c : log) : result string log := if bool_decide (b = c) then Ok v else Err "could not serialize access".
Definition world0 : World (S := log) := {| data := []; locked := false; sessions := ∅; txs := ∅; nextTx := 0; fatal := false |}.
Definition ok_begin : BeginEnv := {| begin_fault := None; set_fault := None; bconn := 0 |}.
Definition l1 : list (option string * string) := [(None, "INSERT 1"); (Some "driver", "INSERT 2"); (None, "INSERT 3")].
(** The first commit fails and can be retried, the second succeeds. *)
Definition env (i : nat) : Attempt :=
  {| env_begin := ok_begin; body := stmts l1; ends := FnOk; commit_fault := if bool_decide (i = 0%nat) then Some "SQLITE_BUSY" else None;
     rollback_fault := None |}.
Definition panics (_ : nat) : Attempt :=
  {| env_begin := ok_begin; body := stmts l1; ends := FnPanic; commit_fault := None; rollback_fault := None |}.

Lemma merge_law b v : merge b v b = Ok v.
Proof. unfold merge. by rewrite bool_decide_eq_true_2. Qed.
Lemma world_inv : lock_inv world0.
Proof.
  split; [done|]. split; [intros i t Hi; cbn in Hi; by rewrite lookup_empty in Hi|]. exists None. split; [done|].
  intros i. split; [|done]. intros (t & Ht & _). cbn in Ht. by rewrite lookup_empty in Ht.
Qed.

(** Two goroutines end the same transaction at once while a third writes: the one that takes
    the handle's mutex first ends it, the other finds the mark. *)
Definition race : list event :=
  [Call 1 (CBegin ok_begin None); Step 1; Step 1;
   Call 1 (CStmt false None 0 "INSERT"); Step 1; Step 1; Step 1;
   Call 1 (CEnd (ECommit None) 0); Call 2 (CEnd (ERollback None) 0); Call 3 (CExec None 1 "UPDATE");
   Step 2; Step 1; Step 2; Step 1; Step 2; Step 3; Step 2; Step 1; Step 1; Step 1; Step 2; Step 2; Step 3; Step 3; Step 3].
Example race_ends : let s := foldl (on_event has_schema run () merge) (fresh []) race in
  fatal (world s) = false ∧ locked (world s) = false ∧ procs s = ∅ ∧ data (world s) = [("main", "UPDATE")].
Proof. vm_compute. by split_and!. Qed.

Lemma ExecTx_releases_witness :
  let '(w', o, ds) := ExecTx has_schema run () merge env (λ _, []) (Some "p1") world0 in
  lock_inv w' ∧ (o = Blocked → locked w' = true) ∧ (o ≠ Panicked → o ≠ Blocked → locked w' = false) ∧ ds = take (length ds) backoff.
Proof. apply (ExecTx_releases has_schema run () merge env (λ _, []) (Some "p1") world0 world_inv). Defined.

(** In the pause after the first attempt another goroutine writes. *)
Definition meanwhile (i : nat) : list op := [OExec None 1 "UPDATE"].
Lemma ExecTx_atomic_witness :
  ∃ w0, retried has_schema run () merge env meanwhile (Some "p1") 0 1 world0 w0 ∧
    effect has_schema run () (env 1) (Some "p1") (data w0) [("main", "UPDATE"); ("p1", "INSERT 1"); ("p1", "INSERT 3")] ∧
    commits (env 0) = false ∧ commits (env 1) = true.
Proof.
  pose proof (ExecTx_atomic has_schema run () merge env meanwhile (Some "p1") world0 merge_law world_inv) as Ha.
  let x := eval vm_compute in (ExecTx has_schema run () merge env meanwhile (Some "p1") world0) in
  replace (ExecTx has_schema run () merge env meanwhile (Some "p1") world0) with x in Ha by (vm_compute; reflexivity).
  destruct Ha as (w0 & Hr & He & Hp). cbn [data length Nat.add] in Hr, He, Hp.
  exists w0. split; [exact Hr|]. split; [exact He|]. destruct (Hp (λ i, eq_refl)) as [H1 H2]. split; [apply (H1 0%nat); lia|exact H2].
Defined.

(** The function that panics leaves the mutex locked. *)
Example panic_locks : let '(w', o, _) := ExecTx has_schema run () merge panics (λ _, []) None world0 in o = Panicked ∧ locked w' = true ∧ data w' = [].
Proof. vm_compute. by split_and!. Qed.
(** A write through the handle from inside the function waits for the function's own
    transaction. *)
Example self_deadlock : ∀ w id, BeginTX has_schema run () ok_begin None world0 = Some (w, Ok id) → Exec has_schema run () None 1 "INSERT" w = None.
Proof. intros w id E. vm_compute in E. injection E as <- <-. reflexivity. Qed.
(** A request without a schema runs in the schema of the request before it. *)
Example leaked :
  data (Query has_schema run () None 0 "SELECT" (QueryContext has_schema run () None 0 (Some "p2") "SELECT" world0).1).1 =
    [("p2", "SELECT"); ("p2", "SELECT")] ∧
  data (Query has_schema run () None 1 "SELECT" (QueryContext has_schema run () None 0 (Some "p2") "SELECT" world0).1).1 =
    [("p2", "SELECT"); ("main", "SELECT")].
Proof. split; vm_compute; reflexivity. Qed.
End SampleDatabase.
