(* ===== verification/Ontology.v ===== *)
(** * Ontologies of projects and their versions (api/handler/project.go, repository/ontology.go)

    Module [OntologyFile]: listing projects, reading and saving an ontology over the file
    system of [Projects], what the tables of the database become, and the prompt for the
    model.  Module [Versions]: the table of proposed versions and the four handlers around
    it.  The scanner of the language, the answers of the database and of the model are
    arguments. *)

From S2P Require Import Prelude GoStrings GoValues GoText GoJson DslAst DslParser SafeIdent Projects Emerge Ingestion TaskRun Backup.

Module OntologyFile.
Import SafeIdent Paths Projects Emerge.

(** *** Projects *)
(** The directories right below the root, in the order of their names. *)
Definition ListProjects (read_ok : bool) (root : string) (f : FS) : option (list string) :=
  if read_ok then
    Some (sort_strings (omap (λ d, if bool_decide (Backup.parent_of d = loc root ∧ d ≠ []) then last d else None) (elements (dirs f))))
  else None.

(** *** Reading and saving *)
Inductive ontology_error := BadPath | NoFile | WriteFailed | RenameFailed.
Definition ont_path (getwd : option string) (root projectID : string) : option string :=
  sanitizePath getwd root [projectID; "ontologies"; "core.aleph"].

Definition objects_of (p : Program) : list string := omap (λ s, match s with SObject o => Some (ObjName o) | _ => None end) (Statements p).

(** [tables]: the names the database answers with, if it does. *)
Definition GetOntology (tokenize : string → option (list DslParser.token)) (tables : option (list string)) (getwd : option string)
    (root projectID : string) (f : FS) : result ontology_error (string * list string) :=
  match ont_path getwd root projectID with
  | None => Err BadPath
  | Some p =>
    match ReadFile p f with
    | None => Err NoFile
    | Some content =>
      let names := match tokenize content ≫= DslParser.ParseTokens with Some prog => objects_of prog | None => [] end in
      Ok (content, if bool_decide (names = []) then default [] tables else names)
    end
  end.

(** A write that fails after [n] bytes has emptied the file and written those. *)
Definition write_file (fault : option nat) (p content : string) (f : FS) : FS * bool :=
  match Backup.Create p f with
  | None => (f, false)
  | Some f =>
    match fault with
    | None => (Backup.put_file p content f, true)
    | Some n => (Backup.put_file p (str_take n content) f, false)
    end
  end.
Definition Rename (ok : bool) (p q : string) (f : FS) : FS * bool :=
  match files f !! loc p with
  | Some c =>
    if ok && negb (bool_decide (loc q ∈ dirs f)) then ({| dirs := dirs f; files := <[loc q := c]> (delete (loc p) (files f)) |}, true) else (f, false)
  | None => (f, false)
  end.

Record SaveFaults := { read_ok : bool; bak_fault : option nat; bak_rename : bool; save_fault : option nat; save_rename : bool }.

Definition bak_path (ontPath : string) (unix : Z) : string := ontPath +:+ "." +:+ Itoa unix +:+ ".bak".
Definition save_backup (x : SaveFaults) (unix : Z) (ontPath : string) (f : FS) : FS :=
  if Backup.exists_path ontPath f then
    let bakPath := bak_path ontPath unix in
    let content := if read_ok x then default "" (ReadFile ontPath f) else "" in
    let tmpBak := bakPath +:+ ".tmp" in
    let f := (write_file (bak_fault x) tmpBak content f).1 in
    (Rename (bak_rename x) tmpBak bakPath f).1
  else f.
Definition SaveOntology (x : SaveFaults) (unix : Z) (getwd : option string) (root projectID definition : string) (f : FS) :
    FS * option ontology_error :=
  match ont_path getwd root projectID with
  | None => (f, Some BadPath)
  | Some ontPath =>
    let f := save_backup x unix ontPath f in
    let tmpFile := ontPath +:+ ".tmp" in
    match write_file (save_fault x) tmpFile definition f with
    | (f, false) => (f, Some WriteFailed)
    | (f, true) =>
      match Rename (save_rename x) tmpFile ontPath f with
      | (f, false) => (f, Some RenameFailed)
      | (f, true) => (f, None)
      end
    end
  end.

(** *** Emergence *)
Section Emergence.
Context `{Unicode}.
(** The rows of the two queries: a row that cannot be scanned is [None]; a table whose
    columns cannot be asked for is left out. *)
Definition collectTableSchemas (tables : option (list (option string))) (columns : string → option (list (option columnInfo))) :
    option (list tableSchema) :=
  match tables with
  | None => None
  | Some rows =>
    Some (omap (λ tn, match columns tn with Some cols => Some {| TableName := tn; Columns := omap (λ c, c) cols |} | None => None end)
               (omap (λ r, r) rows))
  end.

Definition q (s : string) : string := String dquote "" +:+ s +:+ String dquote "".
Definition prompt_head : list string :=
  ["Sei un ontologo esperto. Analizzi sorgenti dati e produci un'ontologia strutturata nel formato DSL aleph."; "";
   "Regole:";
   "- Ogni " +:+ q "source" +:+ " (tabella) diventa un Object";
   "- Colonne con nomi simili tra sorgenti diverse potrebbero essere relazioni";
   "- Type inference: string → text, int/float → number, date/time → datetime, bool → boolean";
   "- Relazioni: FK naming (user_id → users.id), name overlap (customer_name → customer.name)";
   "- Output in formato DSL aleph (objects + relations)"; "";
   "Database tables and columns:"; ""].
Definition table_lines (s : tableSchema) : list string :=
  ["Table: " +:+ TableName s] ++ ((λ c, "  - " +:+ ColName c +:+ " (" +:+ ColType c +:+ ")") <$> Columns s) ++ [""].
Definition rel_line (r : detectedRelationship) : string :=
  "  - " +:+ FromObject r +:+ "." +:+ FromColumn r +:+ " → " +:+ ToObject r +:+ "." +:+ ToColumn r +:+ " (confidence: " +:+ Confidence r +:+ ")".
Definition emergePrompt (schemas : list tableSchema) (rels : list detectedRelationship) : string :=
  foldr (λ l acc, l +:+ String newline "" +:+ acc) ""
    (prompt_head ++ mjoin (table_lines <$> schemas) ++
     (if bool_decide (rels = []) then [] else ["Automatically detected relationships (for reference):"] ++ (rel_line <$> rels) ++ [""]) ++
     ["Generate the full aleph DSL ontology definition for these tables. Include all objects, properties with correct types, and all detected relationships."]).

(** [llm]: the provider, if there is one, and what it answers a prompt. *)
Definition EmergeOntology (llm : option (string → option string)) (schemas : option (list tableSchema)) : option string :=
  match schemas with
  | None => None
  | Some schemas =>
    let rels := detectFKRelationships schemas in
    let alephDef := buildAlephDefinition schemas rels in
    Some (match llm with
          | Some complete =>
            match complete (emergePrompt schemas rels) with Some c => if bool_decide (c = "") then alephDef else c | None => alephDef end
          | None => alephDef
          end)
  end.
End Emergence.

(** *** What a save keeps *)
Lemma str_join_suffix sep pre e s : str_join sep (pre ++ [e]) +:+ s = str_join sep (pre ++ [e +:+ s]).
Proof.
  induction pre as [|x pre IH]; [done|]. destruct pre as [|y pre]; cbn [app str_join] in *; [by rewrite !str_app_assoc|].
  by rewrite !str_app_assoc, IH.
Qed.

(** A suffix that makes a new name of any name. *)
Definition name_suffix (s : string) : Prop := str_mem "/" s = false ∧ (3 ≤ String.length s)%nat.
Lemma suffix_proper e s : str_mem "/" e = false → name_suffix s → proper (e +:+ s).
Proof.
  intros He [Hs Hl]. assert (3 ≤ String.length (e +:+ s))%nat by (rewrite str_length_app; lia).
  split_and!; [..|by rewrite str_mem_app, He, Hs]; intros E; rewrite E in *; cbn in *; lia.
Qed.

Lemma loc_suffix p : p = abs_text (loc p) → ∃ pre e, (loc p = pre ++ [e] ∨ (loc p = [] ∧ pre = [] ∧ e = "")) ∧
  ∀ s, name_suffix s → loc (p +:+ s) = pre ++ [e +:+ s].
Proof.
  intros Hp. pose proof (loc_proper p) as Hpr. remember (loc p) as es eqn:Ees. rewrite Hp.
  destruct (decide (es = [])) as [->|Hne].
  - exists [], "". split; [by right|]. intros s Hs. apply (loc_abs [s]). constructor; [|done]. exact (suffix_proper "" s eq_refl Hs).
  - destruct (exists_last Hne) as (pre & e & ->). exists pre, e. split; [by left|]. intros s Hs.
    unfold abs_text. rewrite str_app_cons, str_join_suffix. apply Forall_app in Hpr as [H1 H2]. inversion H2; subst.
    apply (loc_abs (pre ++ [e +:+ s])). apply Forall_app. split; [done|]. constructor; [|done]. apply suffix_proper; [|done]. by destruct H3 as (_ & _ & _ & ?).
Qed.

Lemma loc_suffix_inj p s t : p = abs_text (loc p) → name_suffix s → name_suffix t → loc (p +:+ s) = loc (p +:+ t) → s = t.
Proof.
  intros Hp Hs Ht. destruct (loc_suffix p Hp) as (pre & e & _ & Hl). rewrite !Hl by done. intros E.
  apply app_inj_tail in E as [_ E]. by apply str_app_inv_l in E.
Qed.
Lemma loc_suffix_ne p s : p = abs_text (loc p) → name_suffix s → loc (p +:+ s) ≠ loc p.
Proof.
  intros Hp Hs. destruct (loc_suffix p Hp) as (pre & e & [-> |(-> & -> & ->)] & Hl); rewrite Hl by done; [|done].
  intros [_ E]%app_inj_tail. apply (f_equal String.length) in E. rewrite str_length_app in E. destruct Hs. lia.
Qed.

Definition bak_suffix (unix : Z) : string := "." +:+ Itoa unix +:+ ".bak".
Lemma bak_suffix_ok unix t : str_mem "/" t = false → name_suffix (bak_suffix unix +:+ t).
Proof.
  intros Ht. unfold bak_suffix. split.
  - rewrite !str_mem_app, Ht, orb_false_r. by rewrite (str_all_not_mem int_char _ _ (Itoa_int_chars unix)).
  - rewrite !str_length_app. cbn. lia.
Qed.
Lemma tmp_ok : name_suffix ".tmp".
Proof. split; [done|cbn; lia]. Qed.

Lemma write_file_spec fault p c f : let '(f', ok) := write_file fault p c f in
  dirs f' = dirs f ∧ (∀ l, l ≠ loc p → files f' !! l = files f !! l) ∧
  (ok = true → files f' !! loc p = Some c ∧ Backup.parent_of (loc p) ∈ dirs f) ∧
  (fault = None → loc p ∉ dirs f → Backup.parent_of (loc p) ∈ dirs f → ok = true).
Proof.
  unfold write_file, Backup.Create. destruct (bool_decide (loc p ∈ dirs f)) eqn:E1; decide_bools; cbn [orb]; [by split_and!|].
  destruct (bool_decide (Backup.parent_of (loc p) ∈ dirs f)) eqn:E2; decide_bools; cbn [negb]; [|by split_and!].
  destruct fault; cbn; (split_and!; [done| |..]); try done;
    try (intros l Hl; by rewrite !lookup_insert_ne by congruence). intros _. by rewrite lookup_insert_eq.
Qed.
Lemma Rename_spec ok p r f : let '(f', done) := Rename ok p r f in
  dirs f' = dirs f ∧ (∀ l, l ≠ loc p → l ≠ loc r → files f' !! l = files f !! l) ∧
  (if done then files f' !! loc r = files f !! loc p else f' = f) ∧
  (ok = true → loc r ∉ dirs f → is_Some (files f !! loc p) → done = true).
Proof.
  unfold Rename. destruct (files f !! loc p) as [c|] eqn:E; [|by split_and!; [..|intros ? ? []]].
  destruct ok; cbn [andb]; [|by split_and!]. destruct (bool_decide (loc r ∈ dirs f)) eqn:E1; decide_bools; cbn; [by split_and!|].
  split_and!; [done| |by rewrite lookup_insert_eq|done]. intros l H1 H2. by rewrite lookup_insert_ne, lookup_delete_ne by congruence.
Qed.

Lemma save_backup_spec x unix p f : p = abs_text (loc p) →
  let f' := save_backup x unix p f in
  let bak := bak_path p unix in
  dirs f' = dirs f ∧ (∀ l, l ≠ loc bak → l ≠ loc (bak +:+ ".tmp") → files f' !! l = files f !! l) ∧
  (bak_fault x = None → bak_rename x = true → read_ok x = true → loc bak ∉ dirs f → loc (bak +:+ ".tmp") ∉ dirs f →
   Backup.parent_of (loc (bak +:+ ".tmp")) ∈ dirs f → ∀ old, ReadFile p f = Some old → ReadFile bak f' = Some old).
Proof.
  intros Hp f' bak. unfold f', save_backup. fold bak. destruct (Backup.exists_path p f) eqn:Ee.
  2:{ split_and!; [done|done|]. intros _ _ _ _ _ _ old Ho. unfold Backup.exists_path, ReadFile in *. rewrite Ho in Ee. done. }
  set (content := if read_ok x then _ else _). pose proof (write_file_spec (bak_fault x) (bak +:+ ".tmp") content f) as Hw.
  destruct (write_file _ _ _ _) as [f1 ok]. destruct Hw as (D1 & F1 & K1 & G1). cbn [fst].
  pose proof (Rename_spec (bak_rename x) (bak +:+ ".tmp") bak f1) as Hr. destruct (Rename _ _ _ _) as [f2 dn]. destruct Hr as (D2 & F2 & K2 & G2). cbn [fst].
  split_and!; [congruence|intros l H1 H2; by rewrite F2, F1|]. intros X1 X2 X3 X4 X5 X6 old Ho.
  destruct (K1 (G1 X1 X5 X6)) as [Hc _]. rewrite D1 in G2. rewrite (G2 X2 X4) in K2 by by rewrite Hc.
  unfold ReadFile in *. rewrite K2, Hc. unfold content. rewrite X3, Ho. done.
Qed.

(** C26: saving an ontology replaces the file at once or leaves it as it was, whatever
    fails on the way, a write that stops in the middle included; the old text is kept in
    the backup unless a step of the backup fails; and no file other than these two and
    their temporary files is touched. *)
Theorem SaveOntology_atomic (x : SaveFaults) (unix : Z) (getwd : option string) (root projectID definition p : string) (f : FS) :
  (∀ wd, getwd = Some wd → is_rooted wd = true) → ont_path getwd root projectID = Some p →
  let '(f', e) := SaveOntology x unix getwd root projectID definition f in
  let bak := bak_path p unix in
  ReadFile p f' = match e with None => Some definition | Some _ => ReadFile p f end ∧
  (e = None → bak_fault x = None → bak_rename x = true → read_ok x = true → loc bak ∉ dirs f → loc (bak +:+ ".tmp") ∉ dirs f →
   ∀ old, ReadFile p f = Some old → ReadFile bak f' = Some old) ∧
  (∀ l, l ∉ [loc p; loc (p +:+ ".tmp"); loc bak; loc (bak +:+ ".tmp")] → files f' !! l = files f !! l).
Proof.
  intros Hwd Hpath. assert (p = abs_text (loc p)) as Hp.
  { apply sanitizePath_iff in Hpath as (? & _ & Ha & _); [|done]. by eapply Abs_clean. }
  unfold SaveOntology. rewrite Hpath. destruct (save_backup_spec x unix p f Hp) as (D0 & F0 & B0).
  set (f0 := save_backup x unix p f) in *. set (bak := bak_path p unix) in *.
  assert (Hbak : bak = p +:+ bak_suffix unix) by (unfold bak, bak_path, bak_suffix; by rewrite ?str_app_assoc).
  assert (Hbt : bak +:+ ".tmp" = p +:+ (bak_suffix unix +:+ ".tmp")) by by rewrite Hbak, str_app_assoc.
  pose proof (bak_suffix_ok unix "" eq_refl) as Sb. rewrite str_app_nil_r in Sb. pose proof (bak_suffix_ok unix ".tmp" eq_refl) as Sbt.
  pose proof tmp_ok as St.
  assert (N1 : loc p ≠ loc bak) by (rewrite Hbak; symmetry; by apply loc_suffix_ne).
  assert (N2 : loc p ≠ loc (bak +:+ ".tmp")) by (rewrite Hbt; symmetry; by apply loc_suffix_ne).
  assert (N3 : loc (p +:+ ".tmp") ≠ loc p) by by apply loc_suffix_ne.
  assert (N4 : loc (p +:+ ".tmp") ≠ loc bak).
  { rewrite Hbak. intros E%loc_suffix_inj; [|done..]. apply (f_equal String.length) in E. unfold bak_suffix in E. rewrite !str_length_app in E. cbn in E.
    pose proof (Itoa_nonempty unix). destruct (Itoa unix); [done|]. cbn in E. lia. }
  assert (Hpar : Backup.parent_of (loc (p +:+ ".tmp")) = Backup.parent_of (loc (bak +:+ ".tmp"))).
  { rewrite Hbt. destruct (loc_suffix p Hp) as (pre & e & _ & Hl). rewrite !Hl by done. unfold Backup.parent_of. rewrite !length_app. cbn.
    by rewrite !Nat.add_sub, !take_app_length. }
  assert (H0 : ReadFile p f0 = ReadFile p f) by by apply F0.
  pose proof (write_file_spec (save_fault x) (p +:+ ".tmp") definition f0) as Hw. destruct (write_file _ _ _ _) as [f1 ok].
  destruct Hw as (D1 & F1 & K1 & _). assert (H1 : ReadFile p f1 = ReadFile p f) by (rewrite <- H0; apply F1; congruence).
  assert (Hother : ∀ l, l ∉ [loc p; loc (p +:+ ".tmp"); loc bak; loc (bak +:+ ".tmp")] → files f1 !! l = files f !! l).
  { intros l Hl. rewrite F1, F0; [done|set_solver..]. }
  destruct ok; [|by split_and!]. destruct (K1 eq_refl) as [Hc Hd]. pose proof (Rename_spec (save_rename x) (p +:+ ".tmp") p f1) as Hr.
  destruct (Rename _ _ _ _) as [f2 dn]. destruct Hr as (D2 & F2 & K2 & _). destruct dn; [|by subst; split_and!].
  split_and!; [unfold ReadFile; by rewrite K2| |].
  - intros _ X1 X2 X3 X4 X5 old Ho. unfold ReadFile. rewrite F2, F1 by congruence.
    apply B0; try done. rewrite <- Hpar. by rewrite D0 in Hd.
  - intros l Hl. rewrite F2 by set_solver. by apply Hother.
Qed.

(** *** A project on disk *)
Definition sample_fs : FS :=
  {| dirs := {[ []; ["data"]; ["data"; "p"]; ["data"; "p"; "ontologies"] ]}; files := {[ ["data"; "p"; "ontologies"; "core.aleph"] := "one" ]} |}.
Definition good : SaveFaults := {| read_ok := true; bak_fault := None; bak_rename := true; save_fault := None; save_rename := true |}.
Definition ont_file : string := "/data/p/ontologies/core.aleph".

Lemma SaveOntology_atomic_witness :
  let f' := (SaveOntology good 1700000000 None "/data" "p" "two" sample_fs).1 in
  ReadFile ont_file f' = Some "two" ∧ ReadFile (bak_path ont_file 1700000000) f' = Some "one".
Proof.
  pose proof (SaveOntology_atomic good 1700000000 None "/data" "p" "two" ont_file sample_fs ltac:(done) ltac:(vm_compute; reflexivity)) as H.
  intros f'. assert (SaveOntology good 1700000000 None "/data" "p" "two" sample_fs = (f', None)) as E by (vm_compute; reflexivity).
  rewrite E in H. destruct H as (H1 & H2 & _). split; [exact H1|]. apply H2; [reflexivity..| | |vm_compute; reflexivity].
  - refine (@bool_decide_unpack _ _ _). vm_compute. exact I.
  - refine (@bool_decide_unpack _ _ _). vm_compute. exact I.
Defined.

(** The name of a backup has the time in seconds: the second save within one of them
    replaces the backup of the first, and the text before both is lost. *)
Example same_second_loses :
  let f1 := (SaveOntology good 1700000000 None "/data" "p" "two" sample_fs).1 in
  let f2 := (SaveOntology good 1700000000 None "/data" "p" "three" f1).1 in
  (map_to_list (files f2)).*2 = ["three"; "two"] ∨ (map_to_list (files f2)).*2 = ["two"; "three"].
Proof. vm_compute. tauto. Qed.

(** A project whose identifier is a dot shares its ontology path with none, and one that
    leaves the root is refused. *)
Example ontology_paths :
  ont_path None "/data" "p/../../x" = None ∧ ont_path None "/data" "." = Some "/data/ontologies/core.aleph" ∧
  ListProjects true "/data" sample_fs = Some ["p"].
Proof. split_and!; vm_compute; reflexivity. Qed.
End OntologyFile.

Module Versions.

Record OntologyVersionRecord := {
  VersionID : string; ProjectID : string; ParentVersionID : option string; DiffJSON : string; CoreAlephSnapshot : string; Status : string;
  SourceDescription : option string; Rationale : option string; Confidence : option f64; CreatedAt : Time; ModifiedAt : option Time;
}.
Abbreviation Table := (gmap string OntologyVersionRecord).

(** [ok]: the database executes the statement; [column]: what the column keeps of a number. *)
Definition ProposeOntologyDiff (ok : bool) (column : f64 → f64) (uuid : string) (now : Time)
    (projectID parentVersionID diffJSON snapshot sourceDesc rationale : string) (confidence : f64) (t : Table) : Table * option string :=
  if ok && bool_decide (t !! uuid = None) then
    (<[uuid := {| VersionID := uuid; ProjectID := projectID; ParentVersionID := Some parentVersionID; DiffJSON := diffJSON;
                  CoreAlephSnapshot := snapshot; Status := "pending"; SourceDescription := Some sourceDesc; Rationale := Some rationale;
                  Confidence := Some (column confidence); CreatedAt := now; ModifiedAt := None |}]> t, Some uuid)
  else (t, None).

Definition settle (status : string) (rationale : option string → option string) (now : Time) (v : OntologyVersionRecord) : OntologyVersionRecord :=
  {| VersionID := VersionID v; ProjectID := ProjectID v; ParentVersionID := ParentVersionID v; DiffJSON := DiffJSON v;
     CoreAlephSnapshot := CoreAlephSnapshot v; Status := status; SourceDescription := SourceDescription v; Rationale := rationale (Rationale v);
     Confidence := Confidence v; CreatedAt := CreatedAt v; ModifiedAt := Some now |}.
(** The table and whether there was no error. *)
Definition AcceptDiff (ok : bool) (now : Time) (versionID : string) (t : Table) : Table * bool :=
  if ok then (alter (settle "accepted" id now) versionID t, true) else (t, false).
Definition RejectDiff (ok : bool) (now : Time) (versionID reason : string) (t : Table) : Table * bool :=
  if ok then (alter (settle "rejected" (λ _, Some reason) now) versionID t, true) else (t, false).

(** [order]: the rows as the database orders them, newest first. *)
Definition ListVersions (ok : bool) (order : list OntologyVersionRecord → list OntologyVersionRecord) (projectID : string) (limit : Z) (t : Table) :
    option (list OntologyVersionRecord) :=
  let limit := if bool_decide (limit ≤ 0) then 20 else limit in
  if ok then Some (take (Z.to_nat limit) (order (filter (λ v, ProjectID v = projectID) (map_to_list t).*2))) else None.

(** *** Handlers *)
Inductive reply := Refused (status : Z) | Proposed (versionID preview : string) | Settled (versionID status : string) |
  Listed (l : list OntologyVersionRecord).

Section Handlers.
(** [number]: the float64 a literal denotes, if it is in range. *)
Context (number : string → option f64) (column : f64 → f64).

Definition as_number (v : Json.json) : option f64 := match v with Json.JNum lit => number lit | _ => None end.
Record propose_body := { PProject : string; PParent : string; PDefinition : string; PDiff : string; PSource : string; PRationale : string; PConfidence : f64 }.
Definition decode_propose (body : string) : option propose_body :=
  m ← Json.config body;
  project ← Json.string_field "project_id" m;
  parent ← Json.string_field "parent_version_id" m;
  definition ← Json.string_field "aleph_definition" m;
  diff ← Json.string_field "diff_json" m;
  source ← Json.string_field "source_description" m;
  rationale ← Json.string_field "rationale" m;
  confidence ← Json.field_from as_number "confidence" (f64_of_int 0) m;
  Some {| PProject := project; PParent := parent; PDefinition := definition; PDiff := diff; PSource := source;
          PRationale := rationale; PConfidence := confidence |}.

(** [repo]: the repository was set; [body]: what could be read, [None] if it failed. *)
Definition NegotiatePropose (repo ok : bool) (uuid : string) (now : Time) (body : option string) (t : Table) : Table * reply :=
  if negb repo then (t, Refused 503)
  else match body with
  | None => (t, Refused 400)
  | Some body =>
    match decode_propose body with
    | None => (t, Refused 400)
    | Some b =>
      if bool_decide (PProject b = "") || bool_decide (PDefinition b = "") then (t, Refused 400)
      else match ProposeOntologyDiff ok column uuid now (PProject b) (PParent b) (PDiff b) (PDefinition b) (PSource b) (PRationale b) (PConfidence b) t with
      | (t, None) => (t, Refused 500)
      | (t, Some versionID) => (t, Proposed versionID (PDefinition b))
      end
    end
  end.

(** A body that cannot be read completely is decoded as far as it goes. *)
Definition NegotiateAccept (repo ok : bool) (now : Time) (body : string) (t : Table) : Table * reply :=
  if negb repo then (t, Refused 503)
  else match (m ← Json.config body; Json.string_field "version_id" m) with
  | None => (t, Refused 400)
  | Some versionID =>
    if bool_decide (versionID = "") then (t, Refused 400)
    else match AcceptDiff ok now versionID t with
    | (t, false) => (t, Refused 500)
    | (t, true) => (t, Settled versionID "accepted")
    end
  end.
Definition NegotiateReject (repo ok : bool) (now : Time) (body : string) (t : Table) : Table * reply :=
  if negb repo then (t, Refused 503)
  else match (m ← Json.config body; v ← Json.string_field "version_id" m; r ← Json.string_field "reason" m; Some (v, r)) with
  | None => (t, Refused 400)
  | Some (versionID, reason) =>
    if bool_decide (versionID = "") then (t, Refused 400)
    else match RejectDiff ok now versionID reason t with
    | (t, false) => (t, Refused 500)
    | (t, true) => (t, Settled versionID "rejected")
    end
  end.
Definition NegotiateList (repo ok : bool) (order : list OntologyVersionRecord → list OntologyVersionRecord) (projectID : string) (t : Table) : reply :=
  if negb repo then Refused 503
  else if bool_decide (projectID = "") then Refused 400
  else match ListVersions ok order projectID 20 t with None => Refused 500 | Some l => Listed l end.
End Handlers.

(** *** The history of a version *)
Inductive vop :=
| VPropose (ok : bool) (column : f64 → f64) (uuid : string) (now : Time) (project parent diff snapshot source rationale : string) (confidence : f64)
| VAccept (ok : bool) (now : Time) (versionID : string)
| VReject (ok : bool) (now : Time) (versionID reason : string).
Definition apply_vop (t : Table) (o : vop) : Table :=
  match o with
  | VPropose ok column uuid now project parent diff snapshot source rationale confidence =>
      (ProposeOntologyDiff ok column uuid now project parent diff snapshot source rationale confidence t).1
  | VAccept ok now versionID => (AcceptDiff ok now versionID t).1
  | VReject ok now versionID reason => (RejectDiff ok now versionID reason t).1
  end.

(** What was proposed is the same; a version that is still pending was not touched. *)
Definition later (v v' : OntologyVersionRecord) : Prop :=
  VersionID v' = VersionID v ∧ ProjectID v' = ProjectID v ∧ ParentVersionID v' = ParentVersionID v ∧ DiffJSON v' = DiffJSON v ∧
  CoreAlephSnapshot v' = CoreAlephSnapshot v ∧ SourceDescription v' = SourceDescription v ∧ Confidence v' = Confidence v ∧
  CreatedAt v' = CreatedAt v ∧ (v' = v ∨ Status v' = "accepted" ∨ Status v' = "rejected").
Lemma later_refl v : later v v.
Proof. unfold later. split_and!; try done. by left. Qed.

Lemma alter_later f id i (t : Table) v : (∀ v, later v (f v)) → t !! i = Some v → ∃ v', alter f id t !! i = Some v' ∧ later v v'.
Proof.
  intros Hf Hv. destruct (decide (id = i)) as [->|].
  - rewrite lookup_alter_eq, Hv. cbn. by eauto.
  - rewrite lookup_alter_ne, Hv by done. eauto using later_refl.
Qed.
Lemma vop_later t o i v : t !! i = Some v → ∃ v', apply_vop t o !! i = Some v' ∧ later v v'.
Proof.
  intros Hv. destruct o as [ok column uuid now project parent diff snapshot source rationale confidence|ok now id|ok now id reason]; cbn.
  - unfold ProposeOntologyDiff. destruct (ok && _) eqn:E; [|by eauto using later_refl]. cbn.
    apply andb_true_iff in E as [_ E%bool_decide_eq_true]. rewrite lookup_insert_ne; [eauto using later_refl|congruence].
  - unfold AcceptDiff. destruct ok; [|by eauto using later_refl]. apply alter_later; [|done]. intros x. unfold later. cbn. naive_solver.
  - unfold RejectDiff. destruct ok; [|by eauto using later_refl]. apply alter_later; [|done]. intros x. unfold later. cbn. naive_solver.
Qed.
Lemma later_trans v1 v2 v3 : later v1 v2 → later v2 v3 → later v1 v3.
Proof.
  intros (A1 & A2 & A3 & A4 & A5 & A6 & A7 & A8 & A9) (B1 & B2 & B3 & B4 & B5 & B6 & B7 & B8 & B9).
  unfold later. split_and!; try congruence. destruct B9 as [-> |[E|E]]; auto.
Qed.

(** However versions are proposed, accepted and rejected, what was proposed under an
    identifier stays as it was, and its status only leaves pending. *)
Theorem version_history (ops : list vop) (t : Table) (i : string) (v : OntologyVersionRecord) :
  t !! i = Some v → ∃ v', foldl apply_vop t ops !! i = Some v' ∧ later v v'.
Proof.
  revert t v. induction ops as [|o ops IH]; intros t v Hv; [eauto using later_refl|]. cbn.
  destruct (vop_later t o i v Hv) as (v1 & H1 & L1). destruct (IH _ _ H1) as (v2 & H2 & L2). eauto using later_trans.
Qed.

Definition body_of (id reason : string) : string :=
  "{" +:+ Json.quote_text "version_id" +:+ ":" +:+ Json.quote_text id +:+ "," +:+ Json.quote_text "reason" +:+ ":" +:+ Json.quote_text reason +:+ "}".
Definition sample_version : OntologyVersionRecord :=
  {| VersionID := "v1"; ProjectID := "p"; ParentVersionID := None; DiffJSON := "{}"; CoreAlephSnapshot := "object a"; Status := "pending";
     SourceDescription := None; Rationale := Some "because"; Confidence := None; CreatedAt := 1; ModifiedAt := None |}.

(** A version that does not exist is reported as accepted, and one that was accepted can be
    rejected afterwards, which replaces the reason for which it was proposed. *)
Example accept_unknown : NegotiateAccept true true 5 (body_of "nowhere" "") ∅ = (∅, Settled "nowhere" "accepted").
Proof. vm_compute. reflexivity. Qed.
Example reject_accepted :
  let t := (NegotiateAccept true true 5 (body_of "v1" "") {["v1" := sample_version]}).1 in
  (λ v, (Status v, Rationale v)) <$> ((NegotiateReject true true 6 (body_of "v1" "no") t).1 !! "v1") = Some ("rejected", Some "no").
Proof. vm_compute. reflexivity. Qed.
End Versions.
