(* ===== verification/AuditLog.v ===== *)
(** * The audit log, headers and configuration
    (middleware/audit.go, security.go, requestid.go, recovery.go, repository/audit.go, config)

    Module [Audit]: which calls are logged, what is written about them, and the query that
    reads the log back.  Module [Headers]: the three HTTP wrappers.  Module [Config]: the
    configuration from the environment and the secrets.  The database, the environment and
    the numbers of the configuration library are arguments. *)

From S2P Require Import Prelude GoStrings GoText Tokens Projects.

Module Audit.

Definition mutating : list string := ["Create"; "Update"; "Delete"; "Import"; "Export"; "Start"; "Stop"; "Execute"; "Run"; "Send"].
Definition isMutatingOperation (procedure : string) : bool := existsb (λ w, str_contains procedure w) mutating.

Definition actions : list (string * string) := [("Create", "create"); ("Update", "update"); ("Delete", "delete")].
Definition action_of (methodName : string) : string :=
  match list_find (λ kv, String.prefix kv.1 methodName = true) actions with Some (_, (_, a)) => a | None => "modify" end.
Definition resources : list (string * string) :=
  [("Agent", "agent"); ("Tool", "tool"); ("Skill", "skill"); ("Ingestion", "ingestion"); ("Task", "task");
   ("Notification", "notification"); ("Auth", "api_key"); ("Project", "project")].
Definition resource_of (serviceName : string) : string :=
  match list_find (λ kv, str_contains serviceName kv.1 = true) resources with Some (_, (_, r)) => r | None => "unknown" end.

(** The identifiers that a request message offers by its two accessors, and the time as
    text. *)
Record Request := { Procedure : string; GetId : option string; GetResourceId : option string; stamp : string }.
Definition resource_id (req : Request) : string :=
  let id := default "" (GetId req) in
  let id := if bool_decide (id = "") then default "" (GetResourceId req) else id in
  if bool_decide (id = "") then stamp req else id.
Definition extractAuditInfo (req : Request) : string * string * string :=
  let parts := str_split "." (Procedure req) in
  match reverse parts with
  | methodName :: serviceName :: _ :: _ => (action_of methodName, resource_of serviceName, resource_id req)
  | _ => ("", "", "")
  end.

Record AuditEntry := { UserID : string; Action : string; ResourceType : string; ResourceID : string; ProjectID : string; Timestamp : Time; Diff : option string }.

(** The log with the row that is added; [ok]: the database takes it. *)
Definition InsertAuditLog (ok : bool) (e : AuditEntry) (log : list AuditEntry) : list AuditEntry * bool :=
  if ok then (log ++ [e], true) else (log, false).
Definition logAuditEvent (ok : bool) (now : Time) (projectID : string) (req : Request) (log : list AuditEntry) : list AuditEntry :=
  let userID := if bool_decide (projectID = "") then "anonymous" else "project:" +:+ projectID in
  let '(action, resourceType, resourceID) := extractAuditInfo req in
  if bool_decide (action = "") || bool_decide (resourceType = "") || bool_decide (resourceID = "") then log
  else (InsertAuditLog ok {| UserID := userID; Action := action; ResourceType := resourceType; ResourceID := resourceID;
                             ProjectID := projectID; Timestamp := now; Diff := None |} log).1.
Definition WrapUnary {Resp : Type} (next : Request → result string Resp) (ok : bool) (now : Time) (projectID : string) (req : Request) (log : list AuditEntry) :
    result string Resp * list AuditEntry :=
  let r := next req in
  (r, match r with Ok _ => if isMutatingOperation (Procedure req) then logAuditEvent ok now projectID req log else log | Err _ => log end).

(** *** Reading the log *)
Record AuditFilters := { FUserID : string; FResourceType : string; FResourceID : string; FAction : string; StartTime : Time; EndTime : Time; Limit : Z; Offset : Z }.
Inductive arg := AStr (s : string) | ATime (t : Time) | AInt (z : Z).

Definition text_clause (head s : string) : list (string * arg) := if bool_decide (s = "") then [] else [(head, AStr s)].
Definition time_clause (head : string) (t : Time) : list (string * arg) := if bool_decide (t = 0) then [] else [(head, ATime t)].
Definition int_clause (head : string) (z : Z) : list (string * arg) := if bool_decide (z > 0) then [(head, AInt z)] else [].
Definition where_clauses (f : AuditFilters) : list (string * arg) :=
  text_clause " AND user_id = $" (FUserID f) ++ text_clause " AND resource_type = $" (FResourceType f) ++
  text_clause " AND resource_id = $" (FResourceID f) ++ text_clause " AND action = $" (FAction f) ++
  time_clause " AND timestamp >= $" (StartTime f) ++ time_clause " AND timestamp <= $" (EndTime f).
Definition page_clauses (f : AuditFilters) : list (string * arg) := int_clause " LIMIT $" (Limit f) ++ int_clause " OFFSET $" (Offset f).

(** [string(rune('0' + argIdx))]. *)
Definition placeholder (argIdx : nat) : string := String (ascii_of_nat (48 + argIdx)) "".
(** The clauses numbered from [argIdx] on. *)
Fixpoint add_clauses (argIdx : nat) (cs : list (string * arg)) : string :=
  match cs with [] => "" | (head, _) :: cs => head +:+ placeholder argIdx +:+ add_clauses (S argIdx) cs end.
Definition select_audit : string :=
  String newline "	SELECT id, user_id, action, resource_type, resource_id, project_id, timestamp, diff" +:+
  String newline "	FROM audit_log" +:+ String newline "	WHERE 1=1" +:+ String newline "	".
Definition QueryAuditLog (f : AuditFilters) : string * list arg :=
  let w := where_clauses f in
  let p := page_clauses f in
  (select_audit +:+ add_clauses 1 w +:+ " ORDER BY timestamp DESC, id DESC" +:+ add_clauses (1 + length w) p, (w ++ p).*2).

(** The numbered clauses as they should read. *)
Definition numbered (from : nat) (cs : list (string * arg)) : string :=
  foldr (λ c acc, c +:+ acc) "" (imap (λ i c, c.1 +:+ Itoa (Z.of_nat (from + i))) cs).

Lemma text_clause_le head s : (length (text_clause head s) ≤ 1)%nat.
Proof. unfold text_clause. case_bool_decide; cbn; lia. Qed.
Lemma time_clause_le head t : (length (time_clause head t) ≤ 1)%nat.
Proof. unfold time_clause. case_bool_decide; cbn; lia. Qed.
Lemma int_clause_le head z : (length (int_clause head z) ≤ 1)%nat.
Proof. unfold int_clause. case_bool_decide; cbn; lia. Qed.
Lemma clauses_le f : (length (where_clauses f) ≤ 6 ∧ length (page_clauses f) ≤ 2)%nat.
Proof.
  unfold where_clauses, page_clauses. rewrite !length_app.
  pose proof (text_clause_le " AND user_id = $" (FUserID f)). pose proof (text_clause_le " AND resource_type = $" (FResourceType f)).
  pose proof (text_clause_le " AND resource_id = $" (FResourceID f)). pose proof (text_clause_le " AND action = $" (FAction f)).
  pose proof (time_clause_le " AND timestamp >= $" (StartTime f)). pose proof (time_clause_le " AND timestamp <= $" (EndTime f)).
  pose proof (int_clause_le " LIMIT $" (Limit f)). pose proof (int_clause_le " OFFSET $" (Offset f)). lia.
Qed.

Lemma placeholder_digit n : (n ≤ 9)%nat → placeholder n = Itoa (Z.of_nat n).
Proof. intros Hn. do 10 (destruct n as [|n]; [reflexivity|]). lia. Qed.
Lemma add_clauses_numbered from cs : (from + length cs ≤ 10)%nat → add_clauses from cs = numbered from cs.
Proof.
  revert from. induction cs as [|[head a] cs IH]; intros from Hl; [done|]. cbn [length] in Hl. cbn [add_clauses]. unfold numbered. cbn.
  rewrite Nat.add_0_r, placeholder_digit, str_app_assoc by lia. f_equal. f_equal. rewrite IH by lia. unfold numbered. f_equal.
  apply imap_ext. intros i x _. cbn. by rewrite Nat.add_succ_r.
Qed.

(** Every placeholder of the query has the number of its argument, whichever filters are
    set, so that one digit is enough. *)
Theorem placeholders_match (f : AuditFilters) :
  let w := where_clauses f in
  let p := page_clauses f in
  (QueryAuditLog f).1 = select_audit +:+ numbered 1 w +:+ " ORDER BY timestamp DESC, id DESC" +:+ numbered (1 + length w) p ∧
  (length (QueryAuditLog f).2 ≤ 8)%nat ∧ (QueryAuditLog f).2 = w.*2 ++ p.*2.
Proof.
  intros w p. destruct (clauses_le f) as [H1 H2]. fold w in H1. fold p in H2. unfold QueryAuditLog. fold w p. cbn [fst snd].
  rewrite !add_clauses_numbered by lia. rewrite length_fmap, length_app, fmap_app. split_and!; [done|lia|done].
Qed.

(** *** What the log says *)
Definition procedure_of (service method : string) : string := "/aleph.v1." +:+ service +:+ "/" +:+ method.

Lemma split_procedure service method : str_mem "." service = false → str_mem "." method = false →
  str_split "." (procedure_of service method) = ["/aleph"; "v1"; service +:+ "/" +:+ method].
Proof.
  intros Hs Hm. unfold procedure_of.
  change ("/aleph.v1." +:+ service +:+ "/" +:+ method) with ("/aleph" +:+ String "." ("v1" +:+ String "." (service +:+ "/" +:+ method))).
  rewrite !str_split_cons by done. rewrite str_split_no_sep; [done|]. by rewrite !str_mem_app, Hs, Hm.
Qed.

Lemma prefix_service w service rest : str_mem "/" w = false → String.prefix w service = false → String.prefix w (service +:+ "/" +:+ rest) = false.
Proof.
  revert service. induction w as [|c w IH]; intros service Hw Hp; [by destruct service|].
  cbn in Hw. apply orb_false_iff in Hw as [Hc Hw]. destruct service as [|d service].
  - rewrite str_app_nil_l, str_app_cons. cbn. destruct (ascii_dec c "/") as [->|]; [|done]. by rewrite bool_decide_eq_true_2 in Hc.
  - rewrite str_app_cons. cbn in Hp |- *. destruct (ascii_dec c d) as [->|]; [by apply IH|done].
Qed.

(** The procedures of the server separate service and method by a slash, not by a dot: what
    is created, updated or deleted is logged as a modification of something unknown. *)
Theorem audit_says_nothing (service method : string) (gid rid : option string) (ts : string) :
  str_mem "." service = false → str_mem "." method = false →
  Forall (λ kv, String.prefix kv.1 service = false) actions →
  let req := {| Procedure := procedure_of service method; GetId := gid; GetResourceId := rid; stamp := ts |} in
  (extractAuditInfo req).1 = ("modify", "unknown").
Proof.
  intros Hs Hm Ha req. unfold extractAuditInfo. cbn [Procedure req]. rewrite split_procedure by done. cbn.
  unfold action_of. rewrite (proj2 (list_find_None _ _)); [done|]. clear -Ha. unfold actions in *.
  repeat match goal with H : Forall _ (_ :: _) |- _ => inversion H; subst; clear H end.
  repeat constructor; cbn [fst] in *; rewrite prefix_service; done.
Qed.

Lemma audit_says_nothing_witness :
  (extractAuditInfo {| Procedure := "/aleph.v1.AgentService/DeleteAgent"; GetId := Some "a1"; GetResourceId := None; stamp := "t" |}).1 = ("modify", "unknown").
Proof. apply (audit_says_nothing "AgentService" "DeleteAgent" (Some "a1") None "t"); [reflexivity|reflexivity|repeat constructor]. Defined.

(** Saving an ontology and registering a tool are no operations that are logged; listing
    the runs is one. *)
Example audited : isMutatingOperation "/aleph.v1.ProjectService/SaveOntology" = false ∧
  isMutatingOperation "/aleph.v1.ToolService/RegisterTool" = false ∧ isMutatingOperation "/aleph.v1.TaskService/ListRuns" = true.
Proof. split_and!; reflexivity. Qed.
End Audit.

(** ** Headers *)
Module Headers.

Definition csp (devMode : bool) : string :=
  "default-src 'self'; script-src 'self'; style-src 'self'; img-src 'self' data:; font-src 'self'; " +:+
  (if devMode then "connect-src 'self' ws://localhost:* http://localhost:*; " else "connect-src 'self'; ") +:+
  "frame-ancestors 'none'; object-src 'none'; worker-src 'self'; base-uri 'self'; form-action 'self'; " +:+
  (if devMode then "" else "upgrade-insecure-requests; ") +:+ "block-all-mixed-content".
Definition SecurityHeaders (devMode : bool) (h : gmap string string) : gmap string string :=
  foldl (λ h kv, <[kv.1 := kv.2]> h) h
    [("Strict-Transport-Security", "max-age=31536000; includeSubDomains; preload");
     ("X-Content-Type-Options", "nosniff"); ("X-Frame-Options", "DENY"); ("X-Xss-Protection", "1; mode=block");
     ("Referrer-Policy", "strict-origin-when-cross-origin"); ("Permissions-Policy", "geolocation=(), microphone=(), camera=()");
     ("Cross-Origin-Opener-Policy", "same-origin"); ("Cross-Origin-Resource-Policy", "same-origin");
     ("Content-Security-Policy", csp devMode)].

(** [random]: eight bytes, if the source gives them. *)
Definition generateID (random : option string) : string := match random with Some b => Hex.EncodeToString b | None => "unknown" end.
(** The identifier of the context, which is the one of the response's header. *)
Definition RequestID (random : option string) (header : string) (h : gmap string string) : gmap string string * string :=
  let rid := if bool_decide (header = "") then generateID random else header in
  (<["X-Request-Id" := rid]> h, rid).
Definition GetRequestID (ctx : option string) : string := default "" ctx.

(** A response: its status once the header is sent, and its body. *)
Record Response := { headers : gmap string string; code : option Z; rbody : string }.
Definition WriteHeader (status : Z) (r : Response) : Response :=
  {| headers := headers r; code := match code r with Some c => Some c | None => Some status end; rbody := rbody r |}.
Definition Write (data : string) (r : Response) : Response :=
  let r := WriteHeader 200 r in {| headers := headers r; code := code r; rbody := rbody r +:+ data |}.
Definition error_json : string :=
  let q s := String "034" "" +:+ s +:+ String "034" "" in
  "{" +:+ q "code" +:+ ":" +:+ q "internal_error" +:+ "," +:+ q "error" +:+ ":" +:+ q "internal server error" +:+ "}" +:+ String newline "".
(** [next]: the response and whether the handler panicked. *)
Definition Recovery (next : Response → Response * bool) (r : Response) : Response :=
  match next r with
  | (r, false) => r
  | (r, true) =>
    Write error_json (WriteHeader 500 {| headers := <["Content-Type" := "application/json"]> (headers r); code := code r; rbody := rbody r |})
  end.

(** A panic never leaves the wrapper, and answers 500 with the error unless the handler had
    begun its own answer, whose status then stays and whose body gets the error appended. *)
Theorem Recovery_spec (next : Response → Response * bool) (r : Response) :
  let '(r1, panicked) := next r in
  let r2 := Recovery next r in
  if panicked
  then code r2 = Some (default 500 (code r1)) ∧ rbody r2 = rbody r1 +:+ error_json
  else r2 = r1.
Proof. unfold Recovery. destruct (next r) as [r1 []]; [|done]. cbn. by destruct (code r1). Qed.

(** The development policy is the only one with local addresses. *)
Example policies : str_contains (csp false) "localhost" = false ∧ str_contains (csp true) "localhost" = true ∧
  str_contains (csp false) "unsafe" = false ∧ str_contains (csp true) "unsafe" = false.
Proof. split_and!; vm_compute; reflexivity. Qed.
End Headers.

(** ** Configuration *)
Module Config.

Record Secrets := { String_ : string → string → string; Has : string → bool }.

Section Env.
Context `{Unicode} (getenv : string → string) (EqualFold : string → string → bool).
(** The number the configuration library makes of a text. *)
Context (to_int : string → Z).

Definition mappings : list (string * string) :=
  [("jwt.secret", "JWT_SECRET"); ("key_encryption_key", "KEY_ENCRYPTION_KEY");
   ("aleph.api_key_secret_backend", "ALEPH_API_KEY_SECRET_BACKEND"); ("database.url", "POSTGRES_DSN"); ("postgres.dsn", "POSTGRES_DSN");
   ("smtp.password", "SMTP_PASSWORD"); ("ollama.base_url", "OLLAMA_BASE_URL"); ("nlp.sidecar_url", "NLP_ADDR")].
Definition assoc (k : string) (l : list (string * string)) : option string := (λ x, x.2.2) <$> list_find (λ kv, kv.1 = k) l.
Definition secretToEnvKey (key : string) : string :=
  match assoc key mappings with Some m => m | None => ToUpper (replace_char "." "_" key) end.

Definition envSecrets : Secrets := {|
  String_ key fallback := let v := getenv (secretToEnvKey key) in if bool_decide (v = "") then fallback else v;
  Has key := negb (bool_decide (getenv (secretToEnvKey key) = "")) |}.
(** A secret that must be there; [None] for the panic. *)
Definition MustString (key : string) : option string :=
  let v := getenv (secretToEnvKey key) in if bool_decide (v = "") then None else Some v.
(** [file]: the encrypted secrets, if they can be loaded for an environment. *)
Definition LoadSecrets (file : string → option Secrets) : Secrets :=
  let env := getenv "GOSECRETS_ENV" in
  if bool_decide (env = "ci") then envSecrets else default envSecrets (file env).

Definition join (wd : string) (parts : list string) : string := Paths.filepath_Join (wd :: parts).
Definition cors_default : string := "http://localhost:5173,http://localhost:3000,http://localhost:8081,http://localhost:5174".
Definition defaults (wd : string) : list (string * string) :=
  [("PORT", "8080"); ("DATA_ROOT", join wd ["data"; "raw"]); ("DUCKDB_PATH", join wd ["data"; "aleph.duckdb"]); ("DUCKDB_SCHEMA", "main");
   ("EMBEDDING_MODEL", "nomic-embed-text"); ("NLP_ADDR", "http://localhost:8001"); ("OTTEL_ENDPOINT", "localhost:4317");
   ("OLLAMA_PORT", "11434"); ("BACKUP_INTERVAL", "24h"); ("BACKUP_DIR", join wd ["data"; "backups"; "duckdb"]); ("BACKUP_KEEP", "7");
   ("RATE_LIMIT_CHAT", "10"); ("RATE_LIMIT_HEALTH", "100"); ("RATE_LIMIT_DEFAULT", "500"); ("LLM_TIMEOUT_SECONDS", "30");
   ("CORS_ALLOWED_ORIGINS", cors_default); ("MAX_PROJECTS", "50"); ("MAX_AGENTS_PER_PROJECT", "20"); ("SLOW_QUERY_THRESHOLD_MS", "500");
   ("LOG_LEVEL", "info")].
(** A variable of the environment that is set and not empty, or else the default. *)
Definition GetString (wd key : string) : string :=
  let v := getenv key in if bool_decide (v = "") then default "" (assoc key (defaults wd)) else v.
Definition GetInt (wd key : string) : Z := to_int (GetString wd key).

Definition fields_of (s : string) : list string := filter (λ p, p ≠ "") (TrimSpace <$> str_split "," s).
Definition parseMCPServerURIs (s : string) : list string := if bool_decide (s = "") then [] else fields_of s.
Definition parseCORSOrigins (s : string) : list string :=
  if bool_decide (s = "") then ["http://localhost:5173"; "http://localhost:3000"; "http://localhost:8081"; "http://localhost:5174"] else fields_of s.

Record Config := {
  Port : Z; DataRoot : string; PostgresDSN : string; DuckDBPath : string; DuckDBSchema : string; EmbeddingModel : string; NLPAddr : string;
  OllamaBaseURL : string; OllamaPort : string; OtelEndpoint : string; MCPServerURIs : list string; KeyEncryptionKey : string;
  EncryptionKey : string; JWTSecret : string; BackupInterval : string; BackupDir : string; BackupKeep : Z; RateLimitChat : Z;
  RateLimitHealth : Z; RateLimitDefault : Z; MaxProjects : Z; MaxAgentsPerProject : Z; CORSAllowedOrigins : list string;
  LLMTimeoutSeconds : Z; SlowQueryThresholdMs : Z; DevMode : bool; LogLevel : string;
}.
Inductive config_error := NoJWT | NoPostgres | NoKey | BadKey (e : AesGcm.crypto_error).

(** The key of the secrets, or of the file that is mounted, or of the environment. *)
Definition raw_key (secrets : Secrets) (key_file : option string) (wd : string) : string :=
  let k := String_ secrets "key_encryption_key" "" in
  let k := if bool_decide (k = "") then match key_file with Some data => TrimSpace data | None => k end else k in
  if bool_decide (k = "") then GetString wd "KEY_ENCRYPTION_KEY" else k.

Definition LoadConfigWithSecrets (secrets : Secrets) (key_file : option string) (wd : string) : result config_error Config :=
  let jwtSecret := String_ secrets "jwt.secret" (GetString wd "JWT_SECRET") in
  if bool_decide (jwtSecret = "") then Err NoJWT
  else
    let postgresDSN := String_ secrets "postgres.dsn" (String_ secrets "database.url" (GetString wd "POSTGRES_DSN")) in
    if bool_decide (postgresDSN = "") then Err NoPostgres
    else
      let rawKey := raw_key secrets key_file wd in
      if bool_decide (rawKey = "") then Err NoKey
      else match AesGcm.LoadEncryptionKey rawKey with
      | Err e => Err (BadKey e)
      | Ok decoded =>
        Ok {| Port := GetInt wd "PORT"; DataRoot := GetString wd "DATA_ROOT"; PostgresDSN := postgresDSN; DuckDBPath := GetString wd "DUCKDB_PATH";
              DuckDBSchema := GetString wd "DUCKDB_SCHEMA"; EmbeddingModel := GetString wd "EMBEDDING_MODEL";
              NLPAddr := String_ secrets "nlp.sidecar_url" (GetString wd "NLP_ADDR");
              OllamaBaseURL := String_ secrets "ollama.base_url" (GetString wd "OLLAMA_BASE_URL"); OllamaPort := GetString wd "OLLAMA_PORT";
              OtelEndpoint := GetString wd "OTTEL_ENDPOINT"; MCPServerURIs := parseMCPServerURIs (GetString wd "MCP_SERVER_URIS");
              KeyEncryptionKey := rawKey; EncryptionKey := decoded; JWTSecret := jwtSecret; BackupInterval := GetString wd "BACKUP_INTERVAL";
              BackupDir := GetString wd "BACKUP_DIR"; BackupKeep := GetInt wd "BACKUP_KEEP"; RateLimitChat := GetInt wd "RATE_LIMIT_CHAT";
              RateLimitHealth := GetInt wd "RATE_LIMIT_HEALTH"; RateLimitDefault := GetInt wd "RATE_LIMIT_DEFAULT";
              MaxProjects := GetInt wd "MAX_PROJECTS"; MaxAgentsPerProject := GetInt wd "MAX_AGENTS_PER_PROJECT";
              CORSAllowedOrigins := parseCORSOrigins (GetString wd "CORS_ALLOWED_ORIGINS"); LLMTimeoutSeconds := GetInt wd "LLM_TIMEOUT_SECONDS";
              SlowQueryThresholdMs := GetInt wd "SLOW_QUERY_THRESHOLD_MS"; DevMode := EqualFold (GetString wd "APP_ENV") "development";
              LogLevel := GetString wd "LOG_LEVEL" |}
      end.
Definition LoadConfig (file : string → option Secrets) : option string → string → result config_error Config :=
  LoadConfigWithSecrets (LoadSecrets file).

(** With the secrets in the environment the program starts exactly when the three secrets
    are set and the key is one of the right length; the key of the environment comes before
    that of the file. *)
Theorem env_config_iff (key_file : option string) (wd : string) :
  let key := if bool_decide (getenv "KEY_ENCRYPTION_KEY" = "") then match key_file with Some d => TrimSpace d | None => "" end
             else getenv "KEY_ENCRYPTION_KEY" in
  (∃ c, LoadConfigWithSecrets envSecrets key_file wd = Ok c) ↔
  getenv "JWT_SECRET" ≠ "" ∧ getenv "POSTGRES_DSN" ≠ "" ∧ ∃ k, AesGcm.LoadEncryptionKey key = Ok k.
Proof.
  intros key. unfold LoadConfigWithSecrets, raw_key. cbn [String_ envSecrets]. unfold GetString.
  change (secretToEnvKey "jwt.secret") with "JWT_SECRET". change (secretToEnvKey "postgres.dsn") with "POSTGRES_DSN".
  change (secretToEnvKey "database.url") with "POSTGRES_DSN". change (secretToEnvKey "key_encryption_key") with "KEY_ENCRYPTION_KEY".
  change (assoc "JWT_SECRET" (defaults wd)) with (@None string). change (assoc "POSTGRES_DSN" (defaults wd)) with (@None string).
  change (assoc "KEY_ENCRYPTION_KEY" (defaults wd)) with (@None string). cbn [default].
  assert (bool_decide ("" = "") = true) as Et by done.
  destruct (decide (getenv "JWT_SECRET" = "")) as [->|Hj]; [rewrite !Et; split; [by intros [c [=]]|by intros (? & _)]|].
  rewrite !(bool_decide_eq_false_2 _ Hj). destruct (decide (getenv "POSTGRES_DSN" = "")) as [->|Hp]; [rewrite !Et; split; [by intros [c [=]]|by intros (_ & ? & _)]|].
  rewrite !(bool_decide_eq_false_2 _ Hp). unfold key. clear key. destruct (decide (getenv "KEY_ENCRYPTION_KEY" = "")) as [->|Hk].
  - rewrite !Et. set (k := match key_file with Some d => TrimSpace d | None => "" end).
    destruct (decide (k = "")) as [->|Hne]; [rewrite !Et; split; [by intros [c [=]]|by intros (_ & _ & k' & [=])]|]. rewrite !(bool_decide_eq_false_2 _ Hne).
    destruct (AesGcm.LoadEncryptionKey k) as [dk|e]; split; eauto; [by intros [c [=]]|by intros (_ & _ & k' & [=])].
  - rewrite !(bool_decide_eq_false_2 _ Hk).
    destruct (AesGcm.LoadEncryptionKey _) as [dk|e]; split; eauto; [by intros [c [=]]|by intros (_ & _ & k' & [=])].
Qed.
End Env.

(** The comment maps database.url to DATABASE_URL; the variable is another one. *)
Example database_url : secretToEnvKey (H := ascii_tables) "database.url" = "POSTGRES_DSN" ∧
  secretToEnvKey (H := ascii_tables) "smtp.user" = "SMTP_USER".
Proof. split; reflexivity. Qed.
End Config.
