(* ===== verification/DevTools.v ===== *)
(** * Code scanning, the development watcher and the skill handlers
    (sandbox/security.go, sandbox/dev_mode.go, api/handler/skill.go, sandbox_handler.go)

    Module [Scan]: the scanner with its built-in rules as regular expressions, for texts in
    UTF-8.  Module [DevMode]: the polling of a directory of tools.  Module [SkillHandler]:
    skills with their tools as JSON, and the bound on exit codes. *)

From S2P Require Import Prelude GoStrings GoText GoRegexp GoJson SafeIdent Projects Repository Emerge Ingestion TaskRun Backup Sandbox.

Module Scan.
Import Regexp.

Record SecurityRule := { Name : string; Description : string; Pattern : rx; Severity : string; Languages : list string }.
Record SecurityIssue := { RuleName : string; IDescription : string; ISeverity : string; Line : Z; Code : string }.

Definition dq : string := String "034" "".
(** [n] copies. *)
Fixpoint times (n : nat) (r : rx) : rx := match n with O => Eps | S n => Cat r (times n r) end.
(** A whole character outside [s]: a byte that starts one, with those that continue it. *)
Definition continues (c : ascii) : bool := bool_decide (Z.land (ascii_code c) 192 = 128).
Definition rune_not (s : string) : rx := Cat (Chr (λ c, negb (str_mem c s) && negb (continues c))) (Star (Chr continues)).
(** A dot, which matches all but a newline. *)
Definition any : rx := Chr (λ c, negb (bool_decide (c = newline))).
Definition sql_words (l : list string) : rx := alts (fold_word <$> l).
Definition both : list string := ["go"; "python"].

Definition defaultSecurityRules : list SecurityRule :=
  [{| Name := "xss-script-tag"; Description := "direct script tag injection in rendered output";
      Pattern := seq_rx [word "<script"; Wordb; Star (not_class ">"); word ">"; Star any; word "</script>"]; Severity := "high"; Languages := both |};
   {| Name := "xss-event-handler"; Description := "inline event handler attribute in output";
      Pattern := seq_rx [Wordb; word "on"; plus wordch; Star sp; word "="]; Severity := "high"; Languages := both |};
   {| Name := "sql-injection-concat"; Description := "possible SQL injection: string concatenation in query context";
      Pattern := seq_rx [sql_words ["SELECT"; "INSERT"; "UPDATE"; "DELETE"; "DROP"; "ALTER"; "TRUNCATE"]; plus sp; Star any; word "+"];
      Severity := "high"; Languages := both |};
   {| Name := "sql-injection-fmt"; Description := "possible SQL injection via fmt.Sprintf with query";
      Pattern := seq_rx [fold_word "FMT.SPRINTF"; Star any; Wordb; sql_words ["SELECT"; "INSERT"; "UPDATE"; "DELETE"; "DROP"]; Wordb];
      Severity := "high"; Languages := ["go"] |};
   {| Name := "path-traversal"; Description := "possible path traversal via string concatenation in file ops";
      Pattern := seq_rx [alts [word "os.Open"; word "os.ReadFile"; word "os.Create"; word "ioutil.ReadFile"; seq_rx [word "open"; Star sp; word "("]];
                         Star sp; Star (not_class ")"); word "+"];
      Severity := "high"; Languages := both |};
   {| Name := "hardcoded-api-key"; Description := "possible hardcoded API key or secret token";
      Pattern := seq_rx [alts [seq_rx [fold_word "API"; opt (class "_-"); fold_word "KEY"]; fold_word "APIKEY"; fold_word "SECRET"; fold_word "TOKEN";
                               fold_word "PASSWORD"; fold_word "PASSWD"];
                         Star sp; class "=:"; Star sp; class ("'" +:+ dq); times 8 (rune_not ("'" +:+ dq)); Star (rune_not ("'" +:+ dq)); class ("'" +:+ dq)];
      Severity := "high"; Languages := both |};
   {| Name := "hardcoded-private-key"; Description := "possible hardcoded private key block";
      Pattern := seq_rx [word "-----BEGIN"; plus sp; alts [word "RSA"; word "DSA"; word "EC"; word "OPENSSH"]; plus sp; word "PRIVATE"; plus sp; word "KEY-----"];
      Severity := "critical"; Languages := both |};
   {| Name := "command-injection"; Description := "possible command injection via external call with concatenation";
      Pattern := seq_rx [alts [word "exec.Command"; seq_rx [word "subprocess."; alts [word "run"; word "call"; word "Popen"; word "check_output"]]; word "os.system"];
                         Star sp; word "("; Star (not_class ")"); word "+"];
      Severity := "critical"; Languages := both |};
   {| Name := "insecure-deserialization"; Description := "unsafe deserialization via eval/pickle/yaml.load";
      Pattern := seq_rx [Wordb; alts [word "eval"; word "pickle.loads"; word "yaml.load"]; Star sp; word "("]; Severity := "high"; Languages := ["python"] |};
   {| Name := "template-injection"; Description := "possible template injection via unescaped rendering helpers";
      Pattern := seq_rx [alts [fold_word "TEMPLATE.HTML"; fold_word "TEMPLATE.JS"; fold_word "TEMPLATE.URL"; fold_word "TEMPLATE.HTMLESCAPESTRING"]; Star sp; word "("];
      Severity := "medium"; Languages := both |}].

Section Scanner.
Context `{Unicode}.
Definition issue (rule : SecurityRule) (i : nat) (line : string) : option SecurityIssue :=
  if MatchString (Pattern rule) line
  then Some {| RuleName := Name rule; IDescription := Description rule; ISeverity := Severity rule; Line := Z.of_nat i + 1; Code := TrimSpace line |}
  else None.
Definition Scan (rules : list SecurityRule) (code : string) : list SecurityIssue :=
  let lines := str_split newline code in
  mjoin ((λ rule, omap (λ x, x) (imap (issue rule) lines)) <$> rules).
Definition message (i : SecurityIssue) : string :=
  "[" +:+ ISeverity i +:+ "] line " +:+ Itoa (Line i) +:+ ": " +:+ IDescription i +:+ " (" +:+ RuleName i +:+ ")".
Definition ScanCode (rules : list SecurityRule) (code : string) : option string :=
  match Scan rules code with
  | [] => None
  | issues => Some ("security issues found:" +:+ String newline "" +:+ str_join (String newline "") (message <$> issues))
  end.

(** The scanner reports a rule at a line exactly when the rule's expression matches
    somewhere in that line, and code passes exactly when no rule matches any line. *)
Theorem Scan_exact (rules : list SecurityRule) (code : string) (x : SecurityIssue) :
  x ∈ Scan rules code ↔
  ∃ rule i line, rule ∈ rules ∧ str_split newline code !! i = Some line ∧ MatchString (Pattern rule) line = true ∧
    x = {| RuleName := Name rule; IDescription := Description rule; ISeverity := Severity rule; Line := Z.of_nat i + 1; Code := TrimSpace line |}.
Proof.
  unfold Scan. rewrite list_elem_of_join. setoid_rewrite list_elem_of_fmap. split.
  - intros (l & Hx & rule & -> & Hr). apply list_elem_of_omap in Hx as (o & Ho & ->). apply list_elem_of_lookup in Ho as [i Hi].
    rewrite list_lookup_imap in Hi. destruct (str_split newline code !! i) as [line|] eqn:El; [|done]. cbn in Hi. injection Hi as Hi.
    unfold issue in Hi. destruct (MatchString _ _) eqn:Em; [|done]. injection Hi as <-. by exists rule, i, line.
  - intros (rule & i & line & Hr & Hl & Hm & ->). eexists. split; [|by exists rule]. apply list_elem_of_omap. eexists. split; [|done].
    apply (list_elem_of_lookup_2 _ i). rewrite list_lookup_imap, Hl. cbn. unfold issue. by rewrite Hm.
Qed.
End Scanner.

(** A rule meant for one language is applied to both, and a comment counts as code. *)
Example scans :
  RuleName <$> Scan (H := ascii_tables) defaultSecurityRules ("x := 1" +:+ String newline "// eval (s)") = ["insecure-deserialization"] ∧
  Line <$> Scan (H := ascii_tables) defaultSecurityRules ("x := 1" +:+ String newline "// eval (s)") = [2] ∧
  RuleName <$> Scan (H := ascii_tables) defaultSecurityRules ("password = '12345678'") = ["hardcoded-api-key"] ∧
  Scan (H := ascii_tables) defaultSecurityRules ("password = '1234567'") = [] ∧
  RuleName <$> Scan (H := ascii_tables) defaultSecurityRules "SELECT a FROM t WHERE b = ' + c" = ["sql-injection-concat"].
Proof. split_and!; vm_compute; reflexivity. Qed.
End Scan.

(** ** The development watcher *)
Module DevMode.
Import Paths Projects.

Definition is_tool (name : string) : bool := has_suffix name ".go" || has_suffix name ".py".
Definition python_header : string := "# python" +:+ String newline "".
Definition marked (name code : string) : string :=
  if has_suffix name ".py" && negb (String.prefix "#" code) then python_header +:+ code else code.

Section Watcher.
Context (sha256Hex : string → string).

(** One file: the checksums and the calls of the handler, with its arguments; [read]: the
    file's contents, if it can be read. *)
Definition load_one (read : string → option string) (acc : gmap string string * list (string * string)) (name : string) :
    gmap string string * list (string * string) :=
  match read name with
  | None => acc
  | Some raw =>
    let checksum := sha256Hex raw in
    if bool_decide (acc.1 !! name = Some checksum) then acc else (<[name := checksum]> acc.1, acc.2 ++ [(name, marked name raw)])
  end.
Definition scan_files (read : string → option string) (names : list string) (checksums : gmap string string) :
    gmap string string * list (string * string) :=
  let '(c, calls) := foldl (load_one read) (checksums, []) names in
  (filter (λ kv, kv.1 ∈ names) c, calls).
(** The entries of the directory come in the order of their names. *)
Definition watched (dir : string) (f : FS) : list string := filter (λ n, is_tool n = true) (sort_strings (Backup.file_names dir f)).
Definition scanAndLoad (dir_ok : bool) (readable : string → bool) (dir : string) (f : FS) (checksums : gmap string string) :
    gmap string string * list (string * string) :=
  if dir_ok then
    scan_files (λ n, if readable n then ReadFile (filepath_Join [dir; n]) f else None) (watched dir f) checksums
  else (checksums, []).

Lemma load_all_spec read names c0 calls0 : NoDup names →
  let '(c, calls) := foldl (load_one read) (c0, calls0) names in
  (∀ n, c !! n = if bool_decide (n ∈ names) then match read n with Some raw => Some (sha256Hex raw) | None => c0 !! n end else c0 !! n) ∧
  ∀ x, x ∈ calls ↔ x ∈ calls0 ∨ ∃ n raw, n ∈ names ∧ read n = Some raw ∧ c0 !! n ≠ Some (sha256Hex raw) ∧ x = (n, marked n raw).
Proof.
  revert c0 calls0. induction names as [|n names IH]; intros c0 calls0 Hnd; cbn [foldl]; [split; [done|set_solver]|].
  apply NoDup_cons in Hnd as [Hn Hnd]. unfold load_one at 2. cbn [fst snd].
  destruct (read n) as [raw|] eqn:Er; [case_bool_decide as Ec|].
  - specialize (IH c0 calls0 Hnd). destruct (foldl _ _ _) as [c calls]. destruct IH as [I1 I2]. split.
    + intros m. rewrite I1. destruct (decide (m = n)) as [->|]; [|by rewrite (bool_decide_ext (m ∈ n :: names) (m ∈ names)) by set_solver].
      rewrite (bool_decide_eq_false_2 _ Hn), bool_decide_eq_true_2, Er by set_solver. done.
    + intros x. rewrite I2. split; [set_solver|]. intros [?|(m & r & Hm & H1 & H2 & H3)]; [by left|]. right.
      apply elem_of_cons in Hm as [->|Hm]; [congruence|]. by exists m, r.
  - specialize (IH (<[n := sha256Hex raw]> c0) (calls0 ++ [(n, marked n raw)]) Hnd). destruct (foldl _ _ _) as [c calls]. destruct IH as [I1 I2]. split.
    + intros m. rewrite I1. destruct (decide (m = n)) as [->|].
      * rewrite (bool_decide_eq_false_2 _ Hn), bool_decide_eq_true_2, Er, lookup_insert_eq by set_solver. done.
      * rewrite lookup_insert_ne by done. by rewrite (bool_decide_ext (m ∈ n :: names) (m ∈ names)) by set_solver.
    + intros x. rewrite I2, elem_of_app, list_elem_of_singleton. split.
      * intros [[?| ->]|(m & r & Hm & H1 & H2 & H3)]; [by left|right; exists n, raw; set_solver|]. right. exists m, r.
        rewrite lookup_insert_ne in H2 by (intros ->; done). set_solver.
      * intros [?|(m & r & Hm & H1 & H2 & H3)]; [by left; left|]. apply elem_of_cons in Hm as [->|Hm]; [left; right; congruence|].
        right. exists m, r. rewrite lookup_insert_ne by (intros ->; done). done.
  - specialize (IH c0 calls0 Hnd). destruct (foldl _ _ _) as [c calls]. destruct IH as [I1 I2]. split.
    + intros m. rewrite I1. destruct (decide (m = n)) as [->|]; [|by rewrite (bool_decide_ext (m ∈ n :: names) (m ∈ names)) by set_solver].
      rewrite (bool_decide_eq_false_2 _ Hn), bool_decide_eq_true_2, Er by set_solver. done.
    + intros x. rewrite I2. split; [set_solver|]. intros [?|(m & r & Hm & H1 & H2 & H3)]; [by left|]. right.
      apply elem_of_cons in Hm as [->|Hm]; [congruence|]. by exists m, r.
Qed.

(** A scan hands over exactly the files that are new or differ from the last scan that
    could read them, and remembers exactly the files that are there, whatever the handler
    makes of them: one it fails on is not handed over again until it changes. *)
Theorem scan_exact (read : string → option string) (names : list string) (checksums : gmap string string) : NoDup names →
  let '(c, calls) := scan_files read names checksums in
  (∀ n, c !! n = if bool_decide (n ∈ names) then match read n with Some raw => Some (sha256Hex raw) | None => checksums !! n end else None) ∧
  (∀ n code, (n, code) ∈ calls ↔ n ∈ names ∧ ∃ raw, read n = Some raw ∧ checksums !! n ≠ Some (sha256Hex raw) ∧ code = marked n raw) ∧
  (scan_files read names c).2 = [].
Proof.
  intros Hnd. assert (∀ cs, let '(c, calls) := scan_files read names cs in
    (∀ n, c !! n = if bool_decide (n ∈ names) then match read n with Some raw => Some (sha256Hex raw) | None => cs !! n end else None) ∧
    (∀ n code, (n, code) ∈ calls ↔ n ∈ names ∧ ∃ raw, read n = Some raw ∧ cs !! n ≠ Some (sha256Hex raw) ∧ code = marked n raw)) as Hone.
  { intros cs. unfold scan_files. pose proof (load_all_spec read names cs [] Hnd) as Hl. destruct (foldl _ _ _) as [c calls]. destruct Hl as [L1 L2]. split.
    - intros n. case_bool_decide as Hn.
      + destruct (c !! n) as [v|] eqn:E.
        * rewrite (proj2 (map_lookup_filter_Some _ _ _ _) (conj E Hn)). rewrite <- E, L1. by rewrite bool_decide_eq_true_2.
        * rewrite (proj2 (map_lookup_filter_None _ _ _)) by by left. rewrite <- E, L1. by rewrite bool_decide_eq_true_2.
      + apply map_lookup_filter_None. right. intros v _ Hv. done.
    - intros n code. rewrite L2. set_solver. }
  pose proof (Hone checksums) as H1. destruct (scan_files read names checksums) as [c calls]. destruct H1 as [A1 A2]. split_and!; [done|done|].
  pose proof (Hone c) as H2. destruct (scan_files read names c) as [c2 calls2]. destruct H2 as [_ B2]. cbn.
  destruct calls2 as [|[n code] l]; [done|]. exfalso. destruct (proj1 (B2 n code)) as (Hn & raw & Hr & Hne & _); [by left|].
  apply Hne. rewrite A1, bool_decide_eq_true_2 by done. by rewrite Hr.
Qed.
End Watcher.
End DevMode.

(** ** Skills and sandbox calls *)
Module SkillHandler.
Import Repository.

Record Skill := { Id : string; SName : string; SDescription : string; ToolIds : list string }.
Inductive skill_error := NoSkill | NoId | Db (e : repo_error).

(** [json.Marshal] of the tools; a list without elements is nil. *)
Definition marshal_ids (ids : list string) : string := Json.Marshal (match ids with [] => Json.JNull | _ => Json.JArr (Json.JStr <$> ids) end).
(** What decoding leaves in the list: an element that is no text stays empty. *)
Definition unmarshal_ids (s : string) : list string :=
  match Json.Unmarshal s with
  | Some (Json.JArr l) => (λ v, match v with Json.JStr t => t | _ => "" end) <$> l
  | _ => []
  end.

Definition record_of (projectID : string) (s : Skill) : SkillRecord :=
  {| SkID := Id s; SkProjectID := projectID; SkName := SName s; SkDescription := SDescription s; SkToolIDsJSON := marshal_ids (ToolIds s) |}.
Definition skill_of (r : SkillRecord) : Skill :=
  {| Id := SkID r; SName := SkName r; SDescription := SkDescription r;
     ToolIds := if bool_decide (SkToolIDsJSON r = "") then [] else unmarshal_ids (SkToolIDsJSON r) |}.

Definition HandleListSkills (ok : bool) (projectID : string) (t : Tables) : result skill_error (list Skill) :=
  match ListSkills ok projectID t with Ok l => Ok (skill_of <$> l) | Err e => Err (Db e) end.
Definition HandleCreateSkill (ok : bool) (uuid projectID : string) (skill : option Skill) (t : Tables) : Tables * result skill_error Skill :=
  match skill with
  | None => (t, Err NoSkill)
  | Some s =>
    let s := {| Id := if bool_decide (Id s = "") then uuid else Id s; SName := SName s; SDescription := SDescription s; ToolIds := ToolIds s |} in
    match CreateSkill ok (record_of projectID s) t with (t, None) => (t, Ok s) | (t, Some e) => (t, Err (Db e)) end
  end.
Definition HandleUpdateSkill (ok : bool) (projectID : string) (skill : option Skill) (t : Tables) : Tables * result skill_error Skill :=
  match skill with
  | None => (t, Err NoId)
  | Some s =>
    if bool_decide (Id s = "") then (t, Err NoId)
    else match UpdateSkill ok (record_of projectID s) t with (t, None) => (t, Ok s) | (t, Some e) => (t, Err (Db e)) end
  end.
Definition HandleDeleteSkill (ok : bool) (id projectID : string) (t : Tables) : Tables * option skill_error :=
  match DeleteSkill ok id projectID t with (t, None) => (t, None) | (t, Some e) => (t, Some (Db e)) end.

Lemma ids_roundtrip ids : Forall Json.text_ok ids → unmarshal_ids (marshal_ids ids) = ids.
Proof.
  intros Hok. unfold unmarshal_ids, marshal_ids. rewrite Json.Marshal_roundtrip.
  - destruct ids as [|i ids]; [done|]. rewrite <- list_fmap_compose. apply list_fmap_id.
  - destruct ids as [|i ids]; [done|]. cbn [Json.json_ok]. change (map ?f ?l) with (f <$> l). rewrite <- list_fmap_compose.
    induction Hok as [|x l Hx Hl IH]; [done|]. cbn. split; [done|exact IH].
Qed.
Lemma marshal_ids_nonempty ids : Forall Json.text_ok ids → ids ≠ [] → marshal_ids ids ≠ "".
Proof. intros Hok Hne E. pose proof (ids_roundtrip ids Hok) as Hr. rewrite E in Hr. by destruct ids. Qed.

Lemma skill_record projectID s : Forall Json.text_ok (ToolIds s) → skill_of (record_of projectID s) = s.
Proof.
  intros Hok. destruct s as [i n d ids]. unfold skill_of, record_of. cbn [SkID SkName SkDescription SkToolIDsJSON Id SName SDescription ToolIds] in *.
  f_equal. case_bool_decide as En; [|by apply ids_roundtrip]. destruct ids as [|x l]; [done|]. by apply marshal_ids_nonempty in En.
Qed.

(** A skill that was created is listed for its project with the tools it was given, in
    their order. *)
Theorem created_skill_listed (uuid projectID : string) (s s' : Skill) (t t' : Tables) :
  Forall Json.text_ok (ToolIds s) → HandleCreateSkill true uuid projectID (Some s) t = (t', Ok s') →
  ToolIds s' = ToolIds s ∧ ∃ l, HandleListSkills true projectID t' = Ok l ∧ s' ∈ l.
Proof.
  intros Hok. unfold HandleCreateSkill. set (s1 := {| Id := _ |}). unfold CreateSkill, exec, sql_insert.
  destruct (true && _) eqn:E; [|done]. intros [= <- <-]. split; [done|]. eexists. split; [done|].
  apply list_elem_of_fmap. exists (record_of projectID s1). split.
  - by rewrite skill_record.
  - apply list_elem_of_fmap. exists (Id s1, record_of projectID s1). split; [done|]. unfold sql_where. apply elem_of_map_to_list.
    apply map_lookup_filter_Some. split; [cbn; by rewrite lookup_insert_eq|]. cbn. unfold in_project. by rewrite bool_decide_eq_true_2.
Qed.

(** *** Calls of the sandbox *)
Inductive call_error := Failed (e : string) | BadExit.
(** The answer of a tool or a skill, whose exit code must fit 32 bits. *)
Definition answer (r : result string Skills.ExecutionResult) : result call_error Skills.ExecutionResult :=
  match r with
  | Err e => Err (Failed e)
  | Ok r =>
    let ec := Skills.ExitCode r in
    if bool_decide (ec < - Z.shiftl 1 31) || bool_decide (ec > Z.shiftl 1 31 - 1) then Err BadExit else Ok r
  end.
Definition ExecuteTool {I : Type} (execute : string → I → result string Skills.ExecutionResult) (toolID : string) (input : I) := answer (execute toolID input).
Definition HandleRunSkill {I : Type} (run : string → I → result string Skills.ExecutionResult) (skillID : string) (input : I) := answer (run skillID input).

(** The exit code that is answered is the one of the sandbox: the conversion to 32 bits
    never changes it. *)
Theorem exit_code_kept (r : result string Skills.ExecutionResult) (a : Skills.ExecutionResult) :
  answer r = Ok a → r = Ok a ∧ (Skills.ExitCode a + 2 ^ 31) mod 2 ^ 32 - 2 ^ 31 = Skills.ExitCode a.
Proof.
  unfold answer. destruct r as [r|e]; [|done]. destruct (bool_decide (_ < _)) eqn:E1; [done|]. destruct (bool_decide (_ > _)) eqn:E2; [done|].
  intros [= <-]. split; [done|]. decide_bools. rewrite !Z.shiftl_1_l in *. rewrite Z.mod_small by lia. lia.
Qed.
End SkillHandler.
