(* ===== verification/Codeflow.v ===== *)
(** * Execution and usage tracking (tools/codeflow, tools/humanecosystems/pattern_tracker.go)

    Module [CodeFlow]: the record of executions with its metrics and graphs, the tracker
    and the analyzer around it, and the graphs as text.  Module [Usage]: who uses which
    tool when.  Graphs that a caller keeps are the stored ones; nothing here changes them
    but the operations below.  The order of a map and the quoting of [%q] are arguments. *)

From S2P Require Import Prelude GoStrings GoValues GoText GoJson Suggest.

Module CodeFlow.

Definition NodeTypeTool : string := "tool".
Definition NodeTypeDependency : string := "dependency".

Record ExecutionMetrics := {
  Duration_ : Duration; MemoryBytes : Z; CPUMillicores : Z; CallCount : Z; ErrorCount : Z; TotalCalls : Z; LastExecutedAt : Time;
}.
Definition no_metrics : ExecutionMetrics :=
  {| Duration_ := 0; MemoryBytes := 0; CPUMillicores := 0; CallCount := 0; ErrorCount := 0; TotalCalls := 0; LastExecutedAt := 0 |}.
Record GraphNode := { NID : string; NLabel : string; NType : string; NMetrics : ExecutionMetrics }.
Record GraphEdge := { Source : string; Target : string; EdgeType : string; EWeight : Z }.
Record ToolExecutionGraph := { GToolID : string; Nodes : list GraphNode; Edges : list GraphEdge; CreatedAt : Time }.
Record ExecutionRecord := { RToolID : string; RMetrics : ExecutionMetrics; RStatus : string; RTimestamp : Time }.
Record Anomaly := { AType : string; ASeverity : string; ADescription : string; AValue : f64; AThreshold : f64; DetectedAt : Time }.
Record ToolDependency := { DToolID : string; DependencyID : string; DependencyType : string; Required : bool }.

Record State := { records : list ExecutionRecord; graphs : gmap string ToolExecutionGraph; metrics : gmap string ExecutionMetrics }.
Definition NewCodeFlow : State := {| records := []; graphs := ∅; metrics := ∅ |}.
Definition maxRecords : nat := Z.to_nat 10000.

(** *** Executions *)
Definition first_metrics (m : ExecutionMetrics) (t : Time) : ExecutionMetrics :=
  {| Duration_ := Duration_ m; MemoryBytes := MemoryBytes m; CPUMillicores := CPUMillicores m; CallCount := 1; ErrorCount := ErrorCount m;
     TotalCalls := 1; LastExecutedAt := t |}.
(** The average of [n - 1] values and one more, in 64 bits. *)
Definition rolling (avg count x n : Z) : Z := Z.quot (wrap64 (wrap64 (avg * count) + x)) n.
Definition next_metrics (e m : ExecutionMetrics) (t : Time) : ExecutionMetrics :=
  let n := wrap64 (CallCount e + 1) in
  {| Duration_ := wrap64 (Z.quot (wrap64 (Duration_ e * CallCount e)) n + Z.quot (Duration_ m) n);
     MemoryBytes := rolling (MemoryBytes e) (CallCount e) (MemoryBytes m) n;
     CPUMillicores := rolling (CPUMillicores e) (CallCount e) (CPUMillicores m) n;
     CallCount := n; ErrorCount := wrap64 (ErrorCount e + ErrorCount m); TotalCalls := wrap64 (TotalCalls e + 1); LastExecutedAt := t |}.
Definition record_of (toolID : string) (m : ExecutionMetrics) (now : Time) : ExecutionRecord :=
  {| RToolID := toolID; RMetrics := m; RStatus := if bool_decide (ErrorCount m > 0) then "error" else "success"; RTimestamp := now |}.
(** [l] without its oldest elements, so that [maxRecords] are left. *)
Definition trimmed {A} (l : list A) : list A := drop (length l - maxRecords) l.

Definition RecordExecution (now : Time) (toolID : string) (m : ExecutionMetrics) (cf : State) : State :=
  {| records := trimmed (records cf ++ [record_of toolID m now]);
     graphs := graphs cf;
     metrics := <[toolID := match metrics cf !! toolID with None => first_metrics m now | Some e => next_metrics e m now end]> (metrics cf) |}.

Definition GetToolGraph (now : Time) (toolID : string) (cf : State) : ToolExecutionGraph :=
  default {| GToolID := toolID; Nodes := []; Edges := []; CreatedAt := now |} (graphs cf !! toolID).
Definition SetToolGraph (toolID : string) (g : ToolExecutionGraph) (cf : State) : State :=
  {| records := records cf; graphs := <[toolID := g]> (graphs cf); metrics := metrics cf |}.
Definition GetMetrics (toolID : string) (cf : State) : ExecutionMetrics := default no_metrics (metrics cf !! toolID).
Definition ListRecentExecutions (limit : Z) (cf : State) : list ExecutionRecord :=
  let n := Z.of_nat (length (records cf)) in
  let limit := if bool_decide (limit ≤ 0) || bool_decide (limit > n) then n else limit in
  drop (Z.to_nat (n - limit)) (records cf).
Definition GetRecords (toolID : string) (cf : State) : list ExecutionRecord := filter (λ r, RToolID r = toolID) (records cf).

(** *** The tracker *)
Record Tracker := { cf : State; errors : gmap string Z }.
Definition TrackExecution (now : Time) (toolID : string) (m : ExecutionMetrics) (t : Tracker) : Tracker * bool :=
  if bool_decide (toolID = "") then (t, false)
  else ({| cf := RecordExecution now toolID m (cf t);
           errors := <[toolID := if bool_decide (ErrorCount m > 0) then wrap64 (default 0 (errors t !! toolID) + 1) else 0]> (errors t) |}, true).
Definition GetConsecutiveErrors (toolID : string) (t : Tracker) : Z := default 0 (errors t !! toolID).

Definition add_node (id kind : string) (l : list GraphNode) : list GraphNode :=
  if bool_decide (id ∈ NID <$> l) then l else l ++ [{| NID := id; NLabel := id; NType := kind; NMetrics := no_metrics |}].
Definition with_dependency (toolID depID depType : string) (g : ToolExecutionGraph) : ToolExecutionGraph :=
  {| GToolID := GToolID g; Nodes := add_node toolID NodeTypeTool (add_node depID NodeTypeDependency (Nodes g));
     Edges := Edges g ++ [{| Source := toolID; Target := depID; EdgeType := depType; EWeight := 1 |}]; CreatedAt := CreatedAt g |}.
Definition RecordDependency (now : Time) (toolID depID depType : string) (s : State) : State :=
  SetToolGraph toolID (with_dependency toolID depID depType (GetToolGraph now toolID s)) s.

Definition later (a b : Time) : Time := if bool_decide (a > b) then a else b.
Definition aggregate_one (agg : gmap string ExecutionMetrics) (r : ExecutionRecord) : gmap string ExecutionMetrics :=
  match agg !! RToolID r with
  | None => <[RToolID r := first_metrics (RMetrics r) (RTimestamp r)]> agg
  | Some m => <[RToolID r := next_metrics m (RMetrics r) (later (RTimestamp r) (LastExecutedAt m))]> agg
  end.
Definition AggregateMetrics (s : State) : gmap string ExecutionMetrics := foldl aggregate_one ∅ (ListRecentExecutions 0 s).

(** *** The analyzer *)
Fixpoint dependencies (toolID : string) (seen : list string) (es : list GraphEdge) : list ToolDependency :=
  match es with
  | [] => []
  | e :: es =>
    if bool_decide (Source e = toolID) && negb (bool_decide (Target e ∈ seen)) then
      {| DToolID := toolID; DependencyID := Target e; DependencyType := EdgeType e; Required := bool_decide (EdgeType e = "dependency") |}
      :: dependencies toolID (Target e :: seen) es
    else dependencies toolID seen es
  end.
Definition AnalyzeDependencies (now : Time) (toolID : string) (s : State) : list ToolDependency :=
  dependencies toolID [] (Edges (GetToolGraph now toolID s)).

Definition sum64 (f : ExecutionMetrics → Z) (l : list ExecutionMetrics) : Z := foldl (λ acc m, wrap64 (acc + f m)) 0 l.
(** [int64(x)] of a number within range. *)
Definition to_int64 (x : f64) : Z := f64_trunc x.
Definition mean (total : Z) (n : f64) : Z := to_int64 (f64_div (f64_of_int total) n).
Definition variance (diff : ExecutionMetrics → f64) (l : list ExecutionMetrics) : f64 :=
  foldl (λ acc m, f64_add acc (f64_mul (diff m) (diff m))) (f64_of_int 0) l.

Definition anomaly (ty sev desc : string) (v th : f64) (now : Time) : Anomaly :=
  {| AType := ty; ASeverity := sev; ADescription := desc; AValue := v; AThreshold := th; DetectedAt := now |}.
(** A value against twice the mean and against three deviations. *)
Definition spikes (ty two three : string) (show : Z → f64) (x mean dev : Z) (now : Time) : list Anomaly :=
  (if bool_decide (mean > 0) && bool_decide (x > wrap64 (2 * mean)) then
     [anomaly ty (if bool_decide (x > wrap64 (3 * mean)) then "high" else "medium") two (show x) (show (wrap64 (2 * mean))) now] else []) ++
  (if bool_decide (dev > 0) && bool_decide (x > wrap64 (mean + wrap64 (3 * dev))) then
     [anomaly ty "high" three (show x) (show (wrap64 (mean + wrap64 (3 * dev)))) now] else []).
(** The two of them with the rate of errors between them. *)
Definition duration_spikes := spikes "duration" "Execution duration exceeds 2x average" "Execution duration exceeds 3 standard deviations" Seconds.
Definition memory_spikes := spikes "memory_spike" "Memory usage exceeds 2x average" "Memory usage exceeds 3 standard deviations" f64_of_int.
Definition error_anomaly (totalErrors totalCalls : Z) (now : Time) : list Anomaly :=
  if bool_decide (totalCalls > 0) then
    let errorRate := f64_mul (f64_div (f64_of_int totalErrors) (f64_of_int totalCalls)) (f64_of_int 100) in
    if f64_lt (f64_of_int 10) errorRate then
      [anomaly "error_rate" (if f64_lt (f64_of_int 25) errorRate then "high" else "medium") "Error rate exceeds 10%" errorRate (f64_of_int 10) now]
    else []
  else [].
Definition DetectAnomalies (now : Time) (l : list ExecutionMetrics) : list Anomaly :=
  let n := f64_of_int (Z.of_nat (length l)) in
  let meanDuration := mean (sum64 Duration_ l) n in
  let meanMemory := mean (sum64 MemoryBytes l) n in
  let varianceDur := variance (λ m, f64_div (f64_of_int (wrap64 (Duration_ m - meanDuration))) (f64_of_int millisecond)) l in
  let varianceMem := variance (λ m, f64_of_int (wrap64 (MemoryBytes m - meanMemory))) l in
  let stdDevDur := wrap64 (to_int64 (Suggest.f64_sqrt (f64_div varianceDur n)) * millisecond) in
  let stdDevMem := to_int64 (Suggest.f64_sqrt (f64_div varianceMem n)) in
  mjoin ((λ m, duration_spikes (Duration_ m) meanDuration stdDevDur now ++ error_anomaly (sum64 ErrorCount l) (sum64 TotalCalls l) now ++
               memory_spikes (MemoryBytes m) meanMemory stdDevMem now) <$> l).

(** *** Graphs as text *)
Record GraphDataNode := { DnID : string; DnLabel : string; Group : string; DnWeight : Z }.
Record GraphDataEdge := { DeSource : string; DeTarget : string; DeLabel : string; DeWeight : Z }.
Record GraphData := { DNodes : list GraphDataNode; DEdges : list GraphDataEdge }.
Definition FromExecutionGraph (eg : option ToolExecutionGraph) : GraphData :=
  match eg with
  | None => {| DNodes := []; DEdges := [] |}
  | Some g =>
    {| DNodes := (λ n, {| DnID := NID n; DnLabel := NLabel n; Group := NType n; DnWeight := 0 |}) <$> Nodes g;
       DEdges := (λ e, {| DeSource := Source e; DeTarget := Target e; DeLabel := EdgeType e; DeWeight := EWeight e |}) <$> Edges g |}
  end.
Definition opt_text (k v : string) : list (string * Json.json) := if bool_decide (v = "") then [] else [(k, Json.JStr v)].
Definition opt_num (k : string) (v : Z) : list (string * Json.json) := if bool_decide (v = 0) then [] else [(k, Json.JNum (Itoa v))].
(** The lists are not nil. *)
Definition ToD3JSON (gd : GraphData) : string :=
  Json.Marshal (Json.JObj
    [("links", Json.JArr ((λ e, Json.JObj ([("source", Json.JStr (DeSource e)); ("target", Json.JStr (DeTarget e))] ++ opt_text "label" (DeLabel e) ++
                                           [("weight", Json.JNum (Itoa (DeWeight e)))])) <$> DEdges gd));
     ("nodes", Json.JArr ((λ n, Json.JObj ([("id", Json.JStr (DnID n)); ("label", Json.JStr (DnLabel n))] ++ opt_text "group" (Group n) ++
                                           opt_num "weight" (DnWeight n))) <$> DNodes gd))]).
Section Dot.
Context (q : string → string).
Definition dot_node (n : GraphDataNode) : string :=
  "  " +:+ q (DnID n) +:+ " [label=" +:+ q (if bool_decide (DnLabel n = "") then DnID n else DnLabel n) +:+
  (if bool_decide (Group n = "") then "" else ", group=" +:+ q (Group n)) +:+ "];".
Definition dot_edge (e : GraphDataEdge) : string :=
  "  " +:+ q (DeSource e) +:+ " -> " +:+ q (DeTarget e) +:+ (if bool_decide (DeLabel e = "") then "" else " [label=" +:+ q (DeLabel e) +:+ "]") +:+ ";".
Definition ToGraphViz (gd : GraphData) : string :=
  foldr (λ l acc, l +:+ String newline "" +:+ acc) ""
    (["digraph ToolGraph {"; "  rankdir=LR;"; "  node [shape=box, style=rounded];"] ++ (dot_node <$> DNodes gd) ++ (dot_edge <$> DEdges gd) ++ ["}"]).
End Dot.

(** ** What is kept *)
Record Event := { EvTime : Time; EvTool : string; EvMetrics : ExecutionMetrics }.
Definition track (t : Tracker) (e : Event) : Tracker := (TrackExecution (EvTime e) (EvTool e) (EvMetrics e) t).1.
Definition new_tracker : Tracker := {| cf := NewCodeFlow; errors := ∅ |}.
Definition tracked (l : list Event) : Tracker := foldl track new_tracker l.
Definition of_tool (id : string) (l : list Event) : list Event := filter (λ e, EvTool e = id) l.
Definition failed (e : Event) : Prop := ErrorCount (EvMetrics e) > 0.
Definition named (l : list Event) : Prop := Forall (λ e, EvTool e ≠ "") l.

Lemma tracked_snoc l e : tracked (l ++ [e]) = track (tracked l) e.
Proof. unfold tracked. by rewrite foldl_app. Qed.
Lemma of_tool_snoc id l e : of_tool id (l ++ [e]) = of_tool id l ++ (if decide (EvTool e = id) then [e] else []).
Proof. unfold of_tool. rewrite filter_app, filter_cons, filter_nil. done. Qed.
Lemma track_named t e : EvTool e ≠ "" → track t e = (TrackExecution (EvTime e) (EvTool e) (EvMetrics e) t).1 ∧ 
  cf (track t e) = RecordExecution (EvTime e) (EvTool e) (EvMetrics e) (cf t).
Proof. intros He. unfold track, TrackExecution. rewrite bool_decide_eq_false_2 by done. done. Qed.

Lemma trimmed_snoc {A} (l : list A) x : trimmed (trimmed l ++ [x]) = trimmed (l ++ [x]).
Proof.
  unfold trimmed. rewrite !length_app, length_drop. cbn [length].
  destruct (decide (length l ≤ maxRecords)%nat) as [Hle|Hgt].
  - replace (length l - maxRecords)%nat with 0%nat by lia. by rewrite drop_0, Nat.sub_0_r.
  - rewrite !drop_app, drop_drop, length_drop.
    replace (length l - (length l - maxRecords) + 1 - maxRecords)%nat with 1%nat by lia.
    replace (1 - (length l - (length l - maxRecords)))%nat with (length l + 1 - maxRecords - length l)%nat by (assert (0 < maxRecords)%nat by (unfold maxRecords; lia); lia).
    f_equal. f_equal. lia.
Qed.

(** The records are the last executions, at most [maxRecords] of them, oldest first. *)
Theorem records_last (l : list Event) : named l →
  records (cf (tracked l)) = trimmed ((λ e, record_of (EvTool e) (EvMetrics e) (EvTime e)) <$> l).
Proof.
  induction l as [|e l IH] using rev_ind; intros Hn; [done|]. apply Forall_app in Hn as [Hn He]. inversion He as [|? ? He' _]; subst.
  rewrite tracked_snoc, (proj2 (track_named _ _ He')). cbn. rewrite IH by done. rewrite fmap_app. apply trimmed_snoc.
Qed.

(** The number of consecutive errors of a tool is the length of the longest run of
    failed executions of it at the end, whatever other tools did in between. *)
Theorem consecutive_errors (l : list Event) (id : string) : named l → Z.of_nat (length l) < 2 ^ 63 →
  ∃ before run, of_tool id l = before ++ run ∧ Forall failed run ∧ (∀ e, last before = Some e → ¬ failed e) ∧
    GetConsecutiveErrors id (tracked l) = Z.of_nat (length run).
Proof.
  induction l as [|e l IH] using rev_ind; intros Hn Hlen; [by exists [], []|]. apply Forall_app in Hn as [Hn He]. inversion He as [|? ? He' _]; subst.
  rewrite length_app in Hlen. cbn in Hlen. destruct (IH Hn ltac:(lia)) as (before & run & Ho & Hr & Hb & Hc).
  rewrite tracked_snoc, of_tool_snoc. unfold track, TrackExecution. rewrite bool_decide_eq_false_2 by done. unfold GetConsecutiveErrors in *. cbn [fst errors].
  destruct (decide (EvTool e = id)) as [E|E].
  - rewrite E, lookup_insert_eq. cbn [default]. destruct (decide (failed e)) as [Hf|Hf].
    + rewrite bool_decide_eq_true_2 by done. exists before, (run ++ [e]). rewrite Ho, <- app_assoc. split_and!; [done|by apply Forall_app; auto|done|].
      rewrite Hc, length_app. cbn. rewrite wrap64_id; [lia|]. assert (length run ≤ length l)%nat; [|unfold is_int64, min_int64, max_int64; lia].
      transitivity (length (of_tool id l)); [rewrite Ho, length_app; lia|apply length_filter].
    + rewrite bool_decide_eq_false_2 by done. exists (of_tool id l ++ [e]), []. rewrite app_nil_r. split_and!; [done|done| |done].
      intros x. rewrite last_snoc. by intros [= <-].
  - rewrite lookup_insert_ne, app_nil_r by done. by exists before, run.
Qed.

(** *** Metrics *)
Lemma rolling_bounds avg c x n B : 0 ≤ avg ≤ B → 0 ≤ x ≤ B → 0 < c → n = c + 1 → B * n < 2 ^ 63 → 0 ≤ rolling avg c x n ≤ B.
Proof.
  intros Ha Hx Hc -> HB. unfold rolling. assert (0 ≤ avg * c ≤ B * c) by nia.
  rewrite (wrap64_id (avg * c)) by (unfold is_int64, min_int64, max_int64; nia). rewrite wrap64_id by (unfold is_int64, min_int64, max_int64; nia).
  rewrite Z.quot_div_nonneg by lia. split; [apply Z.div_pos; lia|]. apply Z.div_le_upper_bound; [lia|]. nia.
Qed.

Definition in_bounds (B : Z) (e : Event) : Prop := 0 ≤ MemoryBytes (EvMetrics e) ≤ B ∧ 0 ≤ CPUMillicores (EvMetrics e) ≤ B.
Lemma metrics_entry l id B : named l → 0 ≤ B → Forall (in_bounds B) l → (B + 1) * Z.of_nat (length l) < 2 ^ 63 →
  match metrics (cf (tracked l)) !! id with
  | None => of_tool id l = []
  | Some m => 0 < CallCount m ∧ CallCount m = Z.of_nat (length (of_tool id l)) ∧ TotalCalls m = CallCount m ∧
      0 ≤ MemoryBytes m ≤ B ∧ 0 ≤ CPUMillicores m ≤ B
  end.
Proof.
  intros Hn HB. induction l as [|e l IH] using rev_ind; intros Hbd Hlen; [done|]. apply Forall_app in Hn as [Hn He]. inversion He as [|? ? He' _]; subst.
  apply Forall_app in Hbd as [Hbd [[Hm Hp] _]%Forall_cons]. rewrite length_app in Hlen. cbn [length] in Hlen.
  specialize (IH Hn Hbd ltac:(nia)). rewrite tracked_snoc, (proj2 (track_named _ _ He')), of_tool_snoc. cbn [metrics RecordExecution].
  destruct (decide (EvTool e = id)) as [E|E]; [|by rewrite lookup_insert_ne, app_nil_r].
  rewrite E, lookup_insert_eq, length_app. cbn [length].
  assert (length (of_tool id l) ≤ length l)%nat by apply length_filter.
  destruct (metrics (cf (tracked l)) !! id) as [m|].
  - destruct IH as (H0 & H1 & H2 & H3 & H4). assert (B * (CallCount m + 1) < 2 ^ 63) by nia. assert (CallCount m + 1 < 2 ^ 63) by nia.
    cbn. rewrite (wrap64_id (CallCount m + 1)) by (unfold is_int64, min_int64, max_int64; lia). rewrite wrap64_id by (unfold is_int64, min_int64, max_int64; lia).
    split_and!; try lia; by apply (rolling_bounds _ _ _ _ B).
  - cbn. rewrite IH. cbn. split_and!; lia.
Qed.

(** The metrics of a tool count its executions, and the averages of memory and
    processor time lie between zero and the largest value, as long as the largest value
    times the number of executions fits 64 bits. *)
Theorem metrics_bounded (l : list Event) (id : string) (B : Z) : named l → 0 ≤ B → Forall (in_bounds B) l →
  (B + 1) * Z.of_nat (length l) < 2 ^ 63 →
  let m := GetMetrics id (cf (tracked l)) in
  CallCount m = Z.of_nat (length (of_tool id l)) ∧ TotalCalls m = CallCount m ∧ 0 ≤ MemoryBytes m ≤ B ∧ 0 ≤ CPUMillicores m ≤ B.
Proof.
  intros Hn HB Hbd Hlen m. pose proof (metrics_entry l id B Hn HB Hbd Hlen) as Hm. unfold m, GetMetrics.
  destruct (metrics (cf (tracked l)) !! id) as [x|]; cbn [default]; [tauto|]. rewrite Hm. cbn. lia.
Qed.

(** *** Graphs *)
Definition graph_ok (g : ToolExecutionGraph) : Prop :=
  NoDup (NID <$> Nodes g) ∧ Forall (λ e, Source e ∈ NID <$> Nodes g ∧ Target e ∈ NID <$> Nodes g) (Edges g).
Lemma add_node_ids id kind l x : x ∈ NID <$> add_node id kind l ↔ x = id ∨ x ∈ NID <$> l.
Proof. unfold add_node. case_bool_decide as E; [|rewrite fmap_app, elem_of_app; cbn; rewrite list_elem_of_singleton; tauto]. split; [by right|]. by intros [->|?]. Qed.
Lemma add_node_NoDup id kind l : NoDup (NID <$> l) → NoDup (NID <$> add_node id kind l).
Proof.
  intros Hn. unfold add_node. case_bool_decide as E; [done|]. rewrite fmap_app. apply NoDup_app. split_and!; [done| |apply NoDup_singleton].
  intros x Hx. cbn. rewrite list_elem_of_singleton. by intros ->.
Qed.

(** A dependency keeps every graph sound: no node twice, and both ends of every edge are
    nodes. *)
Theorem dependency_graph_ok (now : Time) (toolID depID depType : string) (s : State) :
  (∀ id g, graphs s !! id = Some g → graph_ok g) → ∀ id g, graphs (RecordDependency now toolID depID depType s) !! id = Some g → graph_ok g.
Proof.
  intros Hok id g. cbn. intros [[<- <-]|[_ ?]]%lookup_insert_Some; [|by eapply Hok].
  assert (graph_ok (GetToolGraph now toolID s)) as [Hn He].
  { unfold GetToolGraph. destruct (graphs s !! toolID) eqn:E; cbn; [by eapply Hok|]. split; [apply NoDup_nil_2|constructor]. }
  split; cbn; [by do 2 apply add_node_NoDup|]. apply Forall_app. split.
  - eapply Forall_impl; [exact He|]. cbn. intros e. rewrite !add_node_ids. tauto.
  - repeat constructor; cbn; rewrite !add_node_ids; tauto.
Qed.

(** The dependencies of a tool are the targets of its edges, each once, with the kind of
    the first edge to it. *)
Theorem dependencies_spec (toolID : string) (seen : list string) (es : list GraphEdge) :
  NoDup (DependencyID <$> dependencies toolID seen es) ∧
  ∀ d, d ∈ dependencies toolID seen es ↔ ∃ pre e post, es = pre ++ e :: post ∧ Source e = toolID ∧ Target e ∉ seen ∧
    Forall (λ e', ¬ (Source e' = toolID ∧ Target e' = Target e)) pre ∧
    d = {| DToolID := toolID; DependencyID := Target e; DependencyType := EdgeType e; Required := bool_decide (EdgeType e = "dependency") |}.
Proof.
  revert seen. induction es as [|e es IH]; intros seen; cbn [dependencies].
  { split; [apply NoDup_nil_2|]. intros d. split; [intros Hd; by apply not_elem_of_nil in Hd|]. intros (pre & e & post & E & _). by destruct pre. }
  destruct (bool_decide (Source e = toolID) && negb (bool_decide (Target e ∈ seen))) eqn:Ec.
  - apply andb_true_iff in Ec as [E1%bool_decide_eq_true E2%negb_true_iff%bool_decide_eq_false]. destruct (IH (Target e :: seen)) as [I1 I2]. split.
    + rewrite fmap_cons. apply NoDup_cons. split; [|done]. cbn. intros (d & Hd & (pre & e' & post & _ & _ & Hs & _ & ->)%I2)%list_elem_of_fmap.
      cbn in Hd. apply Hs. rewrite <- Hd. by left.
    + intros d. rewrite elem_of_cons, I2. split.
      * intros [->|(pre & e' & post & -> & H1 & H2 & H3 & ->)]; [exists [], e, es; by split_and!|]. apply not_elem_of_cons in H2 as [H2 H2'].
        exists (e :: pre), e', post. split_and!; [done|done|done| |done]. constructor; [|done]. intros [_ Ht]. by rewrite Ht in H2.
      * intros ([|e0 pre] & e' & post & [= -> E] & H1 & H2 & H3 & ->); [by left|]. subst es. right. inversion H3; subst. exists pre, e', post.
        split_and!; try done. apply not_elem_of_cons. split; [|done]. intros Ht. naive_solver.
  - destruct (IH seen) as [I1 I2]. split; [done|]. intros d. rewrite I2. split.
    + intros (pre & e' & post & -> & H1 & H2 & H3 & ->). exists (e :: pre), e', post. split_and!; try done. constructor; [|done].
      intros [Hs Ht]. rewrite Hs, Ht in Ec. rewrite bool_decide_eq_true_2, bool_decide_eq_false_2 in Ec by done. done.
    + intros ([|e0 pre] & e' & post & [= -> E] & H1 & H2 & H3 & ->).
      * rewrite bool_decide_eq_true_2, bool_decide_eq_false_2 in Ec by done. done.
      * subst es. inversion H3; subst. exists pre, e', post. by split_and!.
Qed.

(** The rate of errors is a property of all executions together, but is reported once for
    each of them. *)
Definition sample (errors calls : Z) : ExecutionMetrics :=
  {| Duration_ := 100 * millisecond; MemoryBytes := 5; CPUMillicores := 1; CallCount := 1; ErrorCount := errors; TotalCalls := calls; LastExecutedAt := 0 |}.
Example error_rate_repeated : AType <$> DetectAnomalies 7 [sample 1 1; sample 0 1; sample 0 1] = ["error_rate"; "error_rate"; "error_rate"].
Proof. vm_compute. reflexivity. Qed.
(** Each part of the average of the durations is rounded down: two executions of three
    nanoseconds last two on average. *)
Example duration_lost :
  let m := {| Duration_ := 3; MemoryBytes := 3; CPUMillicores := 3; CallCount := 1; ErrorCount := 0; TotalCalls := 1; LastExecutedAt := 0 |} in
  let s := next_metrics (next_metrics (first_metrics m 0) m 0) m 0 in
  (Duration_ (next_metrics (first_metrics m 0) m 0), Duration_ s, MemoryBytes s) = (2, 2, 3).
Proof. vm_compute. reflexivity. Qed.
End CodeFlow.

(** ** Usage of tools *)
Module Usage.

Record UsagePattern := { ToolID : string; UserID : string; Frequency : Z; TimeOfDay : string; Context_ : string; LastUsed : Time }.
Record Relation_ := { RelTool : string; RelatedID : string; RelationType : string; Strength : Z }.
Record usageEntry := { EUser : string; ETool : string; EContext : string; ETimestamp : Time }.
Record Tracker := { entries : list usageEntry; patterns : gmap string UsagePattern }.
Definition NewToolUsageTracker : Tracker := {| entries := []; patterns := ∅ |}.
Definition maxEntries : nat := Z.to_nat 10000.

(** [h]: the hour of the day. *)
Definition timeOfDay (h : Z) : string :=
  if bool_decide (h >= 5) && bool_decide (h < 12) then "morning"
  else if bool_decide (h >= 12) && bool_decide (h < 17) then "afternoon"
  else if bool_decide (h >= 17) && bool_decide (h < 22) then "evening"
  else "night".

Section Clock.
(** The hour of a time where the program runs. *)
Context (Hour : Time → Z).
Definition pattern_key (userID toolID : string) : string := userID +:+ ":" +:+ toolID.
Definition RecordUsage (now : Time) (userID toolID context : string) (t : Tracker) : Tracker * bool :=
  if bool_decide (userID = "") || bool_decide (toolID = "") then (t, false)
  else
    let entry := {| EUser := userID; ETool := toolID; EContext := context; ETimestamp := now |} in
    let es := entries t ++ [entry] in
    let key := pattern_key userID toolID in
    let p := match patterns t !! key with
      | None => {| ToolID := toolID; UserID := userID; Frequency := 1; TimeOfDay := timeOfDay (Hour now); Context_ := context; LastUsed := now |}
      | Some p => {| ToolID := ToolID p; UserID := UserID p; Frequency := wrap64 (Frequency p + 1); TimeOfDay := timeOfDay (Hour now);
                     Context_ := context; LastUsed := now |}
      end in
    ({| entries := drop (length es - maxEntries) es; patterns := <[key := p]> (patterns t) |}, true).
End Clock.

(** [range]: the patterns in the order of the map. *)
Definition GetUsagePatterns (range : gmap string UsagePattern → list UsagePattern) (toolID : string) (t : Tracker) : option (list UsagePattern) :=
  if bool_decide (toolID = "") then None else Some (filter (λ p, ToolID p = toolID) (range (patterns t))).
Definition GetToolFrequency (range : gmap string UsagePattern → list UsagePattern) (toolID : string) (t : Tracker) : Z :=
  foldl (λ acc p, wrap64 (acc + Frequency p)) 0 (filter (λ p, ToolID p = toolID) (range (patterns t))).

(** The exchange sort: the first element is exchanged with each later one that is greater. *)
Fixpoint exchange (x : string * Z) (l : list (string * Z)) : (string * Z) * list (string * Z) :=
  match l with
  | [] => (x, [])
  | y :: l =>
    if bool_decide (y.2 > x.2) then let '(m, l') := exchange y l in (m, x :: l') else let '(m, l') := exchange x l in (m, y :: l')
  end.
Fixpoint sort_users (fuel : nat) (l : list (string * Z)) : list (string * Z) :=
  match fuel, l with
  | S fuel, x :: l => let '(m, l') := exchange x l in m :: sort_users fuel l'
  | _, _ => l
  end.
(** [None]: the panic of a list with a negative length. *)
Definition GetTopUsers (range : gmap string UsagePattern → list UsagePattern) (toolID : string) (limit : Z) (t : Tracker) : option (list string) :=
  let users := (λ p, (UserID p, Frequency p)) <$> filter (λ p, ToolID p = toolID) (range (patterns t)) in
  let users := sort_users (length users) users in
  let limit := if bool_decide (limit > Z.of_nat (length users)) then Z.of_nat (length users) else limit in
  if bool_decide (limit < 0) then None else Some (take (Z.to_nat limit) users.*1).

(** *** Relations *)
Definition near (e other : usageEntry) : bool :=
  let diff := time_sub (ETimestamp other) (ETimestamp e) in
  let diff := if bool_decide (diff < 0) then wrap64 (- diff) else diff in
  bool_decide (diff ≤ 3600 * second).
Definition count_one (all : list usageEntry) (used : gmap string Z) (e : usageEntry) : gmap string Z :=
  foldl (λ used other,
    if bool_decide (EUser other = EUser e) && bool_decide (ETool other ≠ ETool e) && near e other
    then <[ETool other := wrap64 (default 0 (used !! ETool other) + 1)]> used else used) used all.
Definition relation_of (tid otherID : string) (count : Z) : Relation_ :=
  {| RelTool := tid; RelatedID := otherID; RelationType := "co_used"; Strength := Z.min 100 (wrap64 (count * 20)) |}.
(** [users], [range]: the users and the counted tools in the order of the maps. *)
Definition GetRelationalContext (users : list string → list string) (range : gmap string Z → list (string * Z)) (toolIDs : list string) (t : Tracker) :
    option (gmap string (list Relation_)) :=
  if bool_decide (toolIDs = []) then None
  else
    let start := foldl (λ m id, <[id := []]> m) ∅ toolIDs in
    let relevant := filter (λ e, ETool e ∈ toolIDs) (entries t) in
    Some (foldl (λ result user,
      let used := foldl (count_one (entries t)) ∅ (filter (λ e, EUser e = user) relevant) in
      foldl (λ result tid,
        foldl (λ result oc, if bool_decide (oc.1 ≠ tid) then <[tid := default [] (result !! tid) ++ [relation_of tid oc.1 oc.2]]> result else result)
          result (range used)) result toolIDs)
      start (users (EUser <$> relevant))).

(** *** The ranking of users *)
Definition by_freq (a b : string * Z) : Prop := b.2 ≤ a.2.
Lemma exchange_spec x l : let '(m, l') := exchange x l in m :: l' ≡ₚ x :: l ∧ by_freq m x ∧ Forall (by_freq m) l' ∧ length l' = length l.
Proof.
  revert x. induction l as [|y l IH]; intros x; cbn [exchange]; [split_and!; [done|unfold by_freq; lia|done|done]|].
  case_bool_decide as E.
  - specialize (IH y). destruct (exchange y l) as [m l']. destruct IH as (P & Hy & Hl & Hn). split_and!; [|unfold by_freq in *; lia| |cbn; congruence].
    + transitivity (x :: m :: l'); [apply Permutation_swap|]. by rewrite P.
    + constructor; [unfold by_freq in *; lia|done].
  - specialize (IH x). destruct (exchange x l) as [m l']. destruct IH as (P & Hx & Hl & Hn). split_and!; [|done| |cbn; congruence].
    + transitivity (y :: m :: l'); [apply Permutation_swap|]. rewrite P. apply Permutation_swap.
    + constructor; [unfold by_freq in *; lia|done].
Qed.
Lemma sort_users_spec fuel l : (length l ≤ fuel)%nat → sort_users fuel l ≡ₚ l ∧ StronglySorted by_freq (sort_users fuel l).
Proof.
  revert l. induction fuel as [|fuel IH]; intros [|x l] Hl; cbn [length] in Hl; [by split; [|constructor]|lia|by split; [|constructor]|].
  cbn [sort_users]. pose proof (exchange_spec x l) as He. destruct (exchange x l) as [m l']. destruct He as (P & _ & Hm & Hn).
  destruct (IH l' ltac:(lia)) as [P2 S2]. split; [by rewrite P2, P|]. constructor; [done|]. by rewrite P2.
Qed.

(** The top users are those with the greatest frequencies, the greatest first: nobody who
    was left out used the tool more often than anybody who is listed. *)
Theorem GetTopUsers_top (range : gmap string UsagePattern → list UsagePattern) (toolID : string) (limit : Z) (t : Tracker) : 0 ≤ limit →
  let users := (λ p, (UserID p, Frequency p)) <$> filter (λ p, ToolID p = toolID) (range (patterns t)) in
  ∃ top rest, GetTopUsers range toolID limit t = Some top.*1 ∧ top ++ rest ≡ₚ users ∧ StronglySorted by_freq (top ++ rest) ∧
    Z.of_nat (length top) = Z.min limit (Z.of_nat (length users)).
Proof.
  intros Hl users. unfold GetTopUsers. fold users. destruct (sort_users_spec (length users) users ltac:(done)) as [P S].
  set (l := sort_users _ _) in *. assert (length l = length users) as Hn by by rewrite P. rewrite Hn.
  set (n := if bool_decide (limit > _) then _ else _). assert (n = Z.min limit (Z.of_nat (length users))) as ->
    by (unfold n; case_bool_decide; lia).
  rewrite bool_decide_eq_false_2 by lia. exists (take (Z.to_nat (Z.min limit (Z.of_nat (length users)))) l), (drop (Z.to_nat (Z.min limit (Z.of_nat (length users)))) l).
  rewrite take_drop, fmap_take. split_and!; [done|done|done|]. rewrite length_take. lia.
Qed.

(** *** Concrete trackers *)
Definition use (us : list (Time * string * string)) : Tracker :=
  foldl (λ t x, (RecordUsage (λ _, 9) x.1.1 x.1.2 x.2 "" t).1) NewToolUsageTracker us.
Definition in_order (m : gmap string UsagePattern) : list UsagePattern := (map_to_list m).*2.

(** A colon in the name of a user makes two pairs of user and tool one: the use of the tool
    c by the user a:b counts for the tool b:c. *)
Example key_collision : GetToolFrequency in_order "c" (use [(1, "a", "b:c"); (2, "a:b", "c")]) = 0 ∧
  GetToolFrequency in_order "b:c" (use [(1, "a", "b:c"); (2, "a:b", "c")]) = 2.
Proof. split; vm_compute; reflexivity. Qed.
Example negative_limit_panics : GetTopUsers in_order "t" (-1) NewToolUsageTracker = None.
Proof. reflexivity. Qed.
(** A tool is listed as related to every tool of the request as soon as it was used next to
    one of them: x was never used within a day of a. *)
Example unrelated_listed :
  let day := 24 * 3600 * second in
  ((λ m : gmap string (list Relation_), (λ r, RelatedID r) <$> default [] (m !! "a")) <$>
    GetRelationalContext (λ l, remove_dups l) map_to_list ["a"; "b"] (use [(0, "u", "a"); (day, "u", "b"); (day + second, "u", "x")])) = Some ["x"].
Proof. vm_compute. reflexivity. Qed.
End Usage.
