(* ===== verification/Startup.v ===== *)
(** * First start, and the pipes of tool processes (app/onboarding.go, mcp/transport_stdio.go)

    Module [Onboarding]: the demo project that is made when there is none.  Module [Stdio]:
    requests and answers over one pair of pipes, with the mutex that goroutines wait for in
    any order, lines that arrive when they do, and callers that give up. *)

From S2P Require Import Prelude GoStrings GoText DslAst DslParser SafeIdent Storage Repository Projects Emerge Tokens.

Module Onboarding.
Import Paths Projects Repository.

Definition text_of (l : list string) : string := str_join (String newline "") l.
Definition sampleCSV : list string :=
  ["date,product,category,revenue,units_sold,cost,region";
   "2025-01-06,Widget Alpha,Hardware,12500.00,45,8750.00,North";
   "2025-01-06,Gadget Beta,Electronics,23400.00,78,15210.00,North";
   "2025-01-06,Widget Alpha,Hardware,9800.00,32,6860.00,South";
   "2025-01-13,Gadget Beta,Electronics,31200.00,104,20280.00,East";
   "2025-01-13,Component Gamma,Software,8500.00,170,2550.00,West";
   "2025-01-13,Widget Alpha,Hardware,14100.00,51,9870.00,East";
   "2025-01-20,Gadget Beta,Electronics,28900.00,96,18785.00,South";
   "2025-01-20,Component Gamma,Software,10200.00,204,3060.00,North";
   "2025-01-20,Widget Alpha,Hardware,11000.00,40,7700.00,West";
   "2025-01-27,Gadget Beta,Electronics,35600.00,119,23140.00,West";
   "2025-01-27,Component Gamma,Software,7600.00,152,2280.00,East";
   "2025-02-03,Widget Alpha,Hardware,16800.00,61,11760.00,North";
   "2025-02-03,Gadget Beta,Electronics,19800.00,66,12870.00,North";
   "2025-02-03,Component Gamma,Software,13000.00,260,3900.00,South";
   "2025-02-10,Widget Alpha,Hardware,9200.00,33,6440.00,East";
   "2025-02-10,Gadget Beta,Electronics,27400.00,91,17810.00,South";
   "2025-02-10,Component Gamma,Software,15500.00,310,4650.00,West";
   "2025-02-17,Widget Alpha,Hardware,20500.00,74,14350.00,West";
   "2025-02-17,Gadget Beta,Electronics,22100.00,74,14365.00,East";
   "2025-02-24,Component Gamma,Software,18900.00,378,5670.00,North";
   "2025-03-03,Widget Alpha,Hardware,14700.00,53,10290.00,South";
   "2025-03-03,Gadget Beta,Electronics,33500.00,112,21775.00,West";
   "2025-03-03,Component Gamma,Software,9800.00,196,2940.00,East";
   "2025-03-10,Widget Alpha,Hardware,17800.00,65,12460.00,North";
   "2025-03-10,Gadget Beta,Electronics,26200.00,87,17030.00,South";
   "2025-03-17,Tool Delta,Services,4500.00,15,3150.00,West";
   "2025-03-17,Widget Alpha,Hardware,13200.00,48,9240.00,East";
   "2025-03-24,Component Gamma,Software,22100.00,442,6630.00,South";
   "2025-03-24,Gadget Beta,Electronics,41000.00,137,26650.00,North";
   "2025-03-31,Tool Delta,Services,6700.00,22,4690.00,East";
   ""].
Definition ontContent : list string :=
  ["// Aleph Ontology — Demo Project";
   "// Auto-generated on first run";
   "";
   "object Sales {";
   "    dimension date: datetime";
   "    dimension product: text";
   "    dimension category: text";
   "    dimension region: text";
   "    measure revenue: number";
   "    measure units_sold: number";
   "    measure cost: number";
   "}";
   ""].
Definition demo_prompt : list string :=
  ["";
   "Sei un analista esperto. Il tuo compito è aiutare l'utente a esplorare i dati del progetto Demo.";
   "";
   "Hai a disposizione i seguenti dati:";
   "- sample.csv: vendite settimanali per prodotto, categoria, regione con revenue, unità vendute e costi";
   "";
   "Puoi analizzare trend, confrontare performance tra prodotti e regioni, calcolare metriche.";
   "Rispondi sempre in modo chiaro, strutturato e utile per prendere decisioni.";
   ""].

Record Start := { sfs : FS; sschemas : gset string; repo : Repo }.
Definition with_sfs (f : FS) (w : Start) : Start := {| sfs := f; sschemas := sschemas w; repo := repo w |}.

(** What succeeds. *)
Record Faults := {
  count_ok : bool; mkdir_ok : string → bool; schema_ok : bool; record_ok : bool; csv_ok : bool; ont_ok : bool; nonce : option string; agent_ok : bool;
}.

Section Demo.
Context `{Unicode} `{AesGcm.Aead}.

Definition demo_agent (unixMilli : Z) (baseURL : string) : AgentRecord :=
  {| AgID := "agent-demo-" +:+ Itoa unixMilli; AgProjectID := "demo"; AgName := "Analista Demo"; AgProvider := "ollama"; AgModel := "llama3";
     AgApiKey := ""; AgSystemPrompt := TrimSpace (text_of demo_prompt); AgSkillIDsJSON := ""; AgBaseURL := baseURL |}.
Definition write (ok : bool) (p content : string) (f : FS) : FS := if ok then default f (WriteFile p content f) else f.

(** The schema and the record of the project, neither of which stops the setup when it
    fails. *)
Definition demo_schema (ok : bool) (s : gset string) : gset string :=
  match Storage.NewSchemaIdentity "demo" with Ok si => (Storage.EnsureProjectSchema ok si s).1 | Err _ => s end.
Definition demo_record (ok : bool) (r : Repo) : Repo := with_tables (CreateProjectRecord ok "demo" "Demo Project" (tables r)).1 r.

Definition setupDemoData (x : Faults) (unixMilli : Z) (baseURL projectsRoot : string) (w : Start) : Start :=
  match CountProjects (count_ok x) (tables (repo w)) with
  | Err _ => w
  | Ok count =>
    if bool_decide (count > 0) then w
    else
      let projectPath := filepath_Join [projectsRoot; "demo"] in
      match make_dirs (mkdir_ok x) ((λ d, filepath_Join [projectPath; d]) <$> subdirs) (sfs w) with
      | (f, false) => with_sfs f w
      | (f, true) =>
        let f := write (csv_ok x) (filepath_Join [projectPath; "raw"; "sample.csv"]) (text_of sampleCSV) f in
        let f := write (ont_ok x) (filepath_Join [projectPath; "ontologies"; "core.aleph"]) (text_of ontContent) f in
        {| sfs := f; sschemas := demo_schema (schema_ok x) (sschemas w);
           repo := (CreateAgent (nonce x) (agent_ok x) (demo_agent unixMilli baseURL) (demo_record (record_ok x) (repo w))).1 |}
      end
  end.

Lemma setup_skips x t baseURL root w :
  (0 < size (system_projects (tables (repo w))))%nat → setupDemoData x t baseURL root w = w.
Proof. intros Hs. unfold setupDemoData, CountProjects, query. destruct (count_ok x); [|done]. rewrite bool_decide_eq_true_2 by lia. done. Qed.

Lemma make_dirs_ok ok ds f : (∀ d, ok d = true) → ∃ f', make_dirs ok ds f = (f', true).
Proof. intros Ho. revert f. induction ds as [|d ds IH]; intros f; cbn; [by eauto|]. rewrite Ho. apply IH. Qed.
Lemma CreateAgent_projects n ok a r : system_projects (tables (CreateAgent n ok a r).1) = system_projects (tables r).
Proof. unfold CreateAgent. destruct (protect n r (AgApiKey a)); [|done]. unfold exec. by destruct (sql_insert _ _ _ _). Qed.

(** The setup runs once: when the record of the demo project is written the next start
    changes nothing, whatever else fails in either. *)
Theorem demo_idempotent (x x2 : Faults) (t t2 : Z) (baseURL root : string) (w : Start) :
  count_ok x = true → (∀ d, mkdir_ok x d = true) → record_ok x = true →
  let w1 := setupDemoData x t baseURL root w in setupDemoData x2 t2 baseURL root w1 = w1.
Proof.
  intros Hc Hm Hr w1. apply setup_skips. unfold w1. destruct (decide (0 < size (system_projects (tables (repo w))))%nat) as [Hs|Hs]; [by rewrite setup_skips|].
  unfold setupDemoData, CountProjects, query. rewrite Hc, bool_decide_eq_false_2 by lia.
  destruct (make_dirs_ok (mkdir_ok x) ((λ d, filepath_Join [filepath_Join [root; "demo"]; d]) <$> subdirs) (sfs w) Hm) as [f ->]. cbn [repo].
  rewrite CreateAgent_projects. unfold demo_record, CreateProjectRecord, exec. rewrite Hr. cbn.
  assert (∀ m : gmap string string, is_Some (m !! "demo") → (0 < size m)%nat) as Hpos.
  { intros m Hd. pose proof (map_size_ne_0_lookup_2 m "demo" Hd). lia. }
  apply Hpos. destruct (system_projects (tables (repo w)) !! "demo") eqn:E; [by rewrite E|by rewrite lookup_insert_eq].
Qed.
End Demo.

(** The sample has a head and thirty rows. *)
Example sample_rows : length sampleCSV = 32%nat ∧ last sampleCSV = Some "".
Proof. split; reflexivity. Qed.

(** The ontology of the demo project is not one that the parser of the language accepts. *)
Theorem demo_ontology_rejected : is_Some (Emerge.scan (text_of ontContent)) ∧ Emerge.parse_text (text_of ontContent) = None.
Proof. split; [vm_compute; by eexists|vm_compute; reflexivity]. Qed.
End Onboarding.

(** ** Requests over pipes *)
Module Stdio.

(** [queue]: goroutines that wait for the mutex; [written]: the requests in the order in
    which they were written; [answered]: what each of them got, a line or an error of the
    pipe; [refused]: those that were not written. *)
Record Transport := { closed : bool; queue : list nat; written : list nat; answered : list (nat * result string string); refused : list nat }.
Definition NewMCPStdioTransport : Transport := {| closed := false; queue := []; written := []; answered := []; refused := [] |}.

(** A goroutine that has written its request holds the mutex until it has read. *)
Definition busy (t : Transport) : bool := negb (bool_decide (length (written t) = length (answered t))).

Inductive op :=
| OSend (id : nat)  (** [SendRequest] starts its goroutine *)
| OGrant (id : nat) (write_ok : bool)  (** the goroutine gets the mutex *)
| ORead (r : result string string)  (** a line, or the end of the pipe *)
| OCancel (id : nat)  (** the caller gives up *)
| OClose.  (** [Close], once it gets the mutex *)

Definition step (t : Transport) (o : op) : Transport :=
  match o with
  | OSend id => {| closed := closed t; queue := queue t ++ [id]; written := written t; answered := answered t; refused := refused t |}
  | OGrant id write_ok =>
    if busy t || negb (bool_decide (id ∈ queue t)) then t
    else
      let q := filter (λ j, j ≠ id) (queue t) in
      if closed t || negb write_ok
      then {| closed := closed t; queue := q; written := written t; answered := answered t; refused := refused t ++ [id] |}
      else {| closed := closed t; queue := q; written := written t ++ [id]; answered := answered t; refused := refused t |}
  | ORead r =>
    match (if busy t then last (written t) else None) with
    | Some id => {| closed := closed t; queue := queue t; written := written t; answered := answered t ++ [(id, r)]; refused := refused t |}
    | None => t
    end
  | OCancel _ => t
  | OClose => if busy t then t else {| closed := true; queue := queue t; written := written t; answered := answered t; refused := refused t |}
  end.
Definition run (ops : list op) : Transport := foldl step NewMCPStdioTransport ops.

(** Each answer belongs to the request that was written at its place, and at most one
    request waits for an answer. *)
Definition paired (t : Transport) : Prop :=
  (answered t).*1 = take (length (answered t)) (written t) ∧ (length (written t) ≤ length (answered t) + 1)%nat ∧
  (length (answered t) ≤ length (written t))%nat.

Lemma step_paired t o : paired t → paired (step t o).
Proof.
  intros (Hp & Hl & Hg). unfold paired. destruct o as [id|id ok|r|id|]; cbn [step]; [done| | |done|by destruct (busy t)].
  - destruct (busy t) eqn:Eb; cbn [orb]; [done|]. unfold busy in Eb. apply negb_false_iff in Eb. decide_bools.
    destruct (bool_decide (id ∈ queue t)); cbn [negb]; [|done]. destruct (closed t || negb ok); [done|]. cbn. rewrite length_app. cbn.
    split_and!; [|lia|lia]. rewrite take_app_le by lia. done.
  - destruct (busy t) eqn:Eb; [|done]. unfold busy in Eb. apply negb_true_iff in Eb. decide_bools.
    destruct (last (written t)) as [i|] eqn:El; [|done]. cbn. rewrite length_app, fmap_app, Hp. cbn. split_and!; [|lia|lia].
    apply last_Some in El as [l Hw]. rewrite Hw in *. rewrite length_app in *. cbn in *.
    assert (length (answered t) = length l) as Ha by lia. rewrite Ha, take_app_length. by rewrite take_ge by (rewrite length_app; cbn; lia).
Qed.

(** Over every interleaving of callers, late answers and callers that gave up, the
    line that is read at some place goes to the request that was written at that place: an
    answer that comes after its caller has gone is never taken for that of the next
    request. *)
Theorem answers_in_order (ops : list op) : paired (run ops).
Proof.
  unfold run. assert (paired NewMCPStdioTransport) as H0 by (split_and!; [done|cbn; lia..]). revert H0. generalize NewMCPStdioTransport.
  induction ops as [|o ops IH]; intros t Ht; [done|]. by apply IH, step_paired.
Qed.

(** The identifiers of answers are never compared with those of requests: one line that was
    not asked for shifts all later answers by one. *)
Example unsolicited_line_shifts :
  answered (run [OSend 1; OSend 2; OGrant 1 true; ORead (Ok "notification"); OGrant 2 true; ORead (Ok "answer to 1")]) =
    [(1%nat, Ok "notification"); (2%nat, Ok "answer to 1")].
Proof. reflexivity. Qed.
(** While a process does not answer, the transport can neither be closed nor asked. *)
Example hang_blocks_close : let t := run [OSend 1; OGrant 1 true; OCancel 1; OClose; OSend 2; OGrant 2 true] in
  closed t = false ∧ written t = [1%nat] ∧ queue t = [2%nat].
Proof. split_and!; reflexivity. Qed.

(** *** Pings *)
(** [decode]: the error message of an answer, if it has one; [None] for a line that is no
    answer. *)
Definition response (decode : string → option (option string)) (a : result string string) : result string (option string) :=
  match a with
  | Err e => Err e
  | Ok line => match decode line with Some r => Ok r | None => Err "unmarshal response" end
  end.
Definition Ping (r : result string (option string)) : option string :=
  match r with Err e => Some ("ping send: " +:+ e) | Ok (Some m) => Some ("ping error: " +:+ m) | Ok None => None end.
End Stdio.
